(* ===== verification/_CoqProject ===== *)
-Q . S2P
Prelude.v
Mmu.v
Mem.v
Spinlock.v
Kalloc.v
Vm.v
VmSpec.v
VmUser.v
VmKern.v
VmCopy.v
ProcDefs.v
Crypt.v
CryptSpec.v
ClockSpec.v
Sample.v
Bytes.v
Disk.v
Bio.v
Console.v
FsFormat.v
Log.v
LogSpec.v
Recover.v
LogOps.v
FsTx.v
Fs.v
FsStep.v
FsAlloc.v
FsFile.v
FsGrow.v
FsWrite.v
FsDir.v
NameSpec.v
Kernel.v
File.v
Proc.v
Exec.v
Sysfile.v
Trap.v
Access.v
VmProps.v
CryptProps.v
LogProps.v
FsProps.v
PipeSpec.v
ConsSpec.v
IoProps.v
User.v
UPrintf.v
Grep.v
Progs.v
Stress.v
Sh.v
ShSpec.v
ShPrint.v
ShRun.v
Umalloc.v
UmallocProps.v
Ide.v
IdeSpec.v
IdeProps.v
UserProps.v
Ports.v
Kbd.v
KbdSpec.v
Lapic.v
RtcSpec.v
IoapicSpec.v
Mp.v
MpSpec.v
Boot.v
BootSpec.v
DevProps.v
Mkfs.v
MkfsSpec.v
MkfsImage.v
MkfsMain.v
MkfsProps.v
