(* ===== verification/Prelude.v ===== *)
(** * xv6 with page encryption

    A model of the xv6 kernel for the x86 with the page encryption extension
    of this repository, and proofs of what its parts guarantee.

    ** The program

    The kernel allocates physical pages ([kalloc.c]) and builds page tables
    from them ([vm.c]).  The extension keeps the pages of a process encrypted
    in memory (every byte is complemented), with the present bit clear and the
    bit [PTE_E] set; an access faults, the trap handler ([trap.c]) decrypts
    the page ([mdecrypt]) and records it in a clock queue of eight pages in
    the process ([addClock]), and a page the queue has no room for is
    encrypted again ([mencrypt]).  On disk, [fs.c] keeps inodes, a block
    bitmap and directories in blocks it reaches through a buffer cache
    ([bio.c]) and changes inside transactions of a write-ahead log ([log.c]).
    On top of both are the process table ([proc.c]), open files and pipes
    ([file.c], [pipe.c]), [exec.c], and the system calls ([syscall.c],
    [sysfile.c], [sysproc.c]).  User programs call the kernel through a small
    library ([ulib.c], [printf.c], [umalloc.c]); the shell ([sh.c]) parses
    command lines and starts them.  The first disk is made on the host by
    [mkfs.c]; the boot loader ([bootmain.c]) loads the kernel, which finds the
    processors ([mp.c]) and sets up the interrupt controllers ([lapic.c],
    [ioapic.c], [picirq.c]), the serial port ([uart.c]) and the keyboard
    ([kbd.c]).

    ** The model

    Every routine is a function of the same name in a state and error monad
    ([M] below): it returns a value and a new state, or stops with an
    [exn]: a panic with its message, a page fault, waiting for another
    process ([EBlock]), undefined behaviour of C ([EUndef], such as an access
    through a bad pointer or an index out of an array), or the end of the
    process.  [wp c s Q] is total correctness: [c] returns from [s], in a
    state that satisfies [Q].  Integers are [Z] with the wrap-around of their
    width written out ([u8], [u16], [u32], [s32]).

    Files, in the order of dependence, with the source each models:

    - [Prelude]: the monad and its rules, machine integers, the tactics and
      the lemmas on lists and division used everywhere.
    - [Mmu], [Mem]: [mmu.h], [memlayout.h], [param.h]; memory as a finite map
      of bytes, and [string.c] on it.
    - [Spinlock]: [spinlock.c]; [Module Spin] is one CPU with one lock,
      [Module Smp] a step relation on any number of CPUs.
    - [Kalloc], [Vm]: [kalloc.c] and the page table part of [vm.c] on a
      machine with physical memory, a page table register and the hardware's
      walk ([mmu_translate]); the free list and the page tables are in that
      memory, as the code keeps them.  [VmSpec], [VmUser], [VmKern], [VmCopy]
      hold what the routines do to the mappings of an address space, to the
      free list and to the frames.
    - [ProcDefs], [Crypt]: [proc.h], and [translate_and_set], [mencrypt],
      [mdecrypt], [addClock], [getpgtable], [dump_rawphymem] of [vm.c].
      [CryptSpec], [ClockSpec] say what they do to the memory as the process
      sees it ([plain]); [Access] says the same of the process's own loads and
      stores, faults included, through a translation cache whose contents are
      an argument.
    - [Bytes], [Disk], [Bio], [FsFormat]: little-endian fields of blocks,
      sleep locks ([sleeplock.c]) and buffers ([buf.h]), the disk as the
      interface [DiskDriver] with its laws [DiskLaws] and, for crashes, its
      trace of writes [DiskTrace]; [memide.c] is an instance, and so is the
      IDE driver below.  [Bio] is [bio.c] and [FsFormat] the structures of
      [fs.h].
    - [Log]: [log.c].  [LogSpec] gives the writes of a commit in order,
      [Recover] what recovery makes of any prefix of them, and [LogOps] the
      reservation of log space as a state machine.
    - [Fs]: [fs.c].  [FsTx] and [FsStep] are the steps inside a transaction,
      in terms of the blocks seen through the cache and the buffers held;
      [FsAlloc] is the bitmap, [FsFile] the contents of a file and reading
      it, [FsGrow] taking blocks for it, [FsWrite] writing it and its inode,
      [FsDir] the inode cache, directories and paths.  [NameSpec] is a tree
      of directories on the disk, and [namex] as a walk in it.
    - [Console]: [console.c].  [ConsSpec] is the abstract line discipline.
    - [Kernel], [File], [Proc], [Exec], [Sysfile], [Trap]: the kernel's whole
      state and [file.c], [pipe.c], [proc.c], [exec.c], the argument fetching
      of [syscall.c], [sysfile.c], [sysproc.c], [syscall] and [trap].
      [PipeSpec] is the pipe as a queue.
    - [Sample]: a small machine on which theorems are instantiated.
    - [User], [UPrintf], [Grep], [Progs]: a user program is a tree of system
      calls ([prog]), run against any kernel that answers them.  [User] is
      [ulib.c] and [printf.c], [UPrintf] what [printf] prints, [Grep] is
      [grep.c] with the language of its patterns, [Progs] the other small
      programs and [Stress] [forktest.c] and [stressfs.c].
    - [Sh]: [sh.c].  [ShSpec] is the grammar of command lines, [ShPrint]
      writes commands out as lines, [ShRun] says which programs a command
      starts with which descriptors.
    - [Umalloc]: [umalloc.c] on the memory of a process, with its invariant.
    - [Ide]: [ide.c] on a device reached through ports.  [IdeSpec] has the
      laws of the device ([IdeLaws], with a simulated disk as an instance)
      and the invariant of the driver's queue.
    - [Ports]: devices as the interfaces [Ports] and [Mmio]; each of the
      next files has the laws of its device as a class of its own.  [Kbd] is
      [kbd.c] and [kbd.h], with [KbdSpec] the keys and what they give;
      [Lapic] is [lapic.c], [ioapic.c], [picirq.c] and [uart.c], with
      [RtcSpec] the clock and [IoapicSpec] the routes of interrupts.
    - [Mp]: [mp.c], on tables that [MpSpec] describes as bytes in memory.
      [Boot]: [bootmain.c], with the kernel file on the disk in [BootSpec].
    - [Mkfs]: [mkfs.c] as a function from files to an image.  [MkfsSpec] is
      the contents that [iappend] builds, [MkfsImage] the invariant of the
      image and [MkfsMain] the whole run.

    ** The theorems

    - [CryptProps]: loads and stores of a process behave as on a memory that
      was never encrypted, if no page starts with 0xFF and the translation
      cache agrees with the page table; they leave in the clear at most the
      eight pages of the queue, page 0, and the pages that were in the clear
      outside the queue before; what [mencrypt], [mdecrypt] and [addClock] do on
      each path, including the cases where that is not what their comments
      say; what a process sees through a stale translation, which [mencrypt]
      does not flush; and the pages that [exec] leaves in the clear.
    - [VmProps]: mutual exclusion of spin locks for any number of CPUs, the
      nesting of [pushcli], and for every routine that makes, copies, grows,
      shrinks or frees an address space the mappings, the frames and the free
      list it leaves, when it fails for lack of memory too.
    - [LogProps]: a crash after any write of a commit or of recovery leaves a
      disk that the next boot recovers to the state before or after the
      transaction; the reservation of [begin_op] is enough for a log with
      more than [LOGSIZE] blocks.
    - [FsProps]: [writei] and [readi] on the contents of a file, with the
      allocation of direct and indirect blocks, and the chunks of [filewrite]
      within the reservation of [begin_op]; [balloc] and [bfree] on the
      bitmap; [iupdate] and [ilock]; lookup and link in directories; the
      uniqueness of cached inodes; [skipelem] against a split at slashes;
      [namex] finds what the path leads to and leaks no reference.
    - [MkfsProps]: the image of [mkfs] is a consistent file system that holds
      the files and marks exactly their blocks as used, and the kernel that
      boots from it reads them back; its log is one block too small for what
      [begin_op] promises.
    - [DevProps]: the keyboard interrupt gives the console the characters of
      the keys; the clock is read consistently and in bounded time; interrupts
      go where the drivers asked; the boot loader puts the kernel in place;
      [mpinit] registers the processors of a well-formed table and never ends
      on one with an entry of another type.
    - [IoProps]: pipes are queues, console input follows the line discipline,
      [printint] prints its argument, [argptr] stays in bounds, and two
      defects ([kill(0)], and [cprintf] under its own lock).
    - [UmallocProps]: whatever a program does with [malloc] and [free], its
      objects stay apart and keep what was stored in them, as long as it asks
      for less than 2^31 - 16 bytes at a time.
    - [IdeProps]: on a disk that reports no errors the driver implements a queue of requests, each of which is
      complete after as many interrupts as its place in the queue; it is a
      block device, so the theorems on the cache, the log and the file system
      apply to it; and a read that fails is not noticed.
    - [UserProps]: [grep]'s matcher decides the language of the pattern, and
      the lines it prints and loses; [cat], [wc] and [printf]; the shell's
      parser accepts exactly the grammar, its commands are well formed, and
      running a line starts the programs it says.

    ** Loops

    Loops that C bounds by a count or a list are structural.  Others take
    fuel and stop with [EFuel] (or leave the loop) when it runs out; it is
    given by the caller as a bound on the rounds: pages of the range in
    [vm.c], one more than the bytes to copy in [readi] and [writei], blocks
    of the bitmap in [balloc], entries of the directory in [dirlookup], the
    length of the path in [namex], the characters of the line in
    [consoleintr], 32 digits in [printint].  The specifications are proved
    with [wp] or as equations, so they show that this fuel is enough.  The
    exception is [getpgtable], whose loop in C need not end: the fuel is the
    number of rounds after which it has run through the address space.
    [grep], [cat] and [wc] need one round for each byte of input and one more;
    the shell's parser computes its own bound from the line; the loops of
    [malloc] and [free] walk the free list, and 2^31 rounds always suffice;
    [idewait] and [waitdisk] poll until the disk is ready, which [IdeLaws]
    bounds; [readseg] reads at most 2^23 + 1 sectors; [cmostime] needs the
    rounds that fit in the time of an update of the clock and two more, which
    [date_rounds] computes from the time an access takes; [getc_all] one more than the codes that wait; [mpinit] one more
    than the entries of the table, unless it does not end.  [mkfs] loops over
    the bytes of its files.

    ** What is not modelled

    Assembly (the boot sector, trap entry, the context switch), which has no
    meaning without a model of the processor's instructions; [main.c], a list
    of calls that set up components which have separate states here, and the
    start of other processors, which share memory with it; segment
    descriptors; the TLB for accesses of the kernel, which walk the page table;
    the devices themselves, which are parameters
    with laws; and the test programs, which check from outside what is proved
    of the kernel.  Kernel routines are run by one CPU
    and one process at a time: a routine that would sleep stops with [EBlock]
    and what it does once it is woken is not followed, and spin locks taken
    and given back inside a routine are not part of its state;
    [Spin.acquire_release] shows that such a pair changes nothing, and the
    lock itself is proved for several CPUs.  Messages the kernel prints for
    debugging are left out. *)

From Stdlib Require Export ZArith Lia Btauto.
From stdpp Require Export base tactics list list_numbers gmap strings numbers.

#[export] Set Default Goal Selector "!".
Open Scope Z_scope.

#[global] Arguments Z.testbit : simpl never.
#[global] Arguments Z.lor : simpl never.
#[global] Arguments Z.land : simpl never.
#[global] Arguments Z.lnot : simpl never.
#[global] Arguments Z.shiftl : simpl never.
#[global] Arguments Z.shiftr : simpl never.

(** ** Machine integers

    C's [uchar], [ushort] and [uint] are integers kept modulo their width;
    [int] is read back from a [uint] bit pattern by [s32]. *)

Definition u8 (x : Z) : Z := x mod 2 ^ 8.
Definition u16 (x : Z) : Z := x mod 2 ^ 16.
Definition u32 (x : Z) : Z := x mod 2 ^ 32.
Definition s32 (x : Z) : Z := if u32 x <? 2 ^ 31 then u32 x else u32 x - 2 ^ 32.

(** Truth value of a C condition. *)
Definition nz (x : Z) : bool := negb (x =? 0).

(** ** The kernel monad

    Code that changes state is a function [S → res (A * S)].  An [exn] is
    an outcome after which the caller does not continue: [panic()], a page
    fault taken by the code at a virtual address, a [sleep()] or a spin that
    only another thread can end, an array index out of range (undefined in
    C), the end of the process inside a nested page fault, or an exhausted
    loop bound. *)

Inductive exn : Type :=
| EPanic (msg : string)
| EFault (va : Z)
| EBlock
| EUndef
| EExit
| EFuel.

Inductive res (A : Type) : Type :=
| Ok (a : A)
| Err (e : exn).
Arguments Ok {A} _.
Arguments Err {A} _.

Definition M (S A : Type) : Type := S → res (A * S).

#[export] Instance M_ret {S} : MRet (M S) := λ A a s, Ok (a, s).
#[export] Instance M_bind {S} : MBind (M S) := λ A B k c s,
  match c s with
  | Ok (a, s') => k a s'
  | Err e => Err e
  end.

#[export] Instance M_fmap {S} : FMap (M S) := λ A B f c s,
  match c s with
  | Ok (a, s') => Ok (f a, s')
  | Err e => Err e
  end.

Definition raise {S A} (e : exn) : M S A := λ _, Err e.
Definition panic {S A} (msg : string) : M S A := raise (EPanic msg).
Definition gets {S A} (f : S → A) : M S A := λ s, Ok (f s, s).
Definition modify {S} (f : S → S) : M S unit := λ s, Ok (tt, f s).

(** Run a computation on a part [T] of the state. *)
Definition zoom {S T A} (g : S → T) (p : T → S → S) (c : M T A) : M S A := λ s,
  match c (g s) with
  | Ok (a, t) => Ok (a, p t s)
  | Err e => Err e
  end.

(** Total correctness: [c] run in [s] returns normally, in [Q]. *)
Definition wp {S A} (c : M S A) (s : S) (Q : A → S → Prop) : Prop :=
  match c s with
  | Ok (a, s') => Q a s'
  | Err _ => False
  end.

Section Wp.
Context {S : Type}.

Lemma wp_iff {A} (c : M S A) s Q :
  wp c s Q ↔ ∃ a s', c s = Ok (a, s') ∧ Q a s'.
Proof.
  unfold wp. destruct (c s) as [[a s'] | e].
  - naive_solver.
  - naive_solver.
Qed.

Lemma wp_intro {A} (c : M S A) s a s' (Q : A → S → Prop) :
  c s = Ok (a, s') → Q a s' → wp c s Q.
Proof. unfold wp. by intros ->. Qed.

Lemma wp_mono {A} (c : M S A) s (P Q : A → S → Prop) :
  wp c s P → (∀ a s', P a s' → Q a s') → wp c s Q.
Proof. unfold wp. destruct (c s) as [[]|]; naive_solver. Qed.

Lemma wp_bind {A B} (c : M S A) (k : A → M S B) s Q :
  wp c s (λ a s', wp (k a) s' Q) → wp (c ≫= k) s Q.
Proof. unfold wp, mbind, M_bind. by destruct (c s) as [[]|]. Qed.

Lemma wp_bind_inv {A B} (c : M S A) (k : A → M S B) s Q :
  wp (c ≫= k) s Q → wp c s (λ a s', wp (k a) s' Q).
Proof. unfold wp, mbind, M_bind. by destruct (c s) as [[]|]. Qed.

Lemma wp_assoc {A B C} (c : M S A) (d : A → M S B) (k : B → M S C) s Q :
  wp (c ≫= λ a, d a ≫= k) s Q → wp ((c ≫= d) ≫= k) s Q.
Proof. unfold wp, mbind, M_bind. by destruct (c s) as [[]|]. Qed.

Lemma wp_bind_assoc {A B C} (c : M S A) (d : M S B) (k : B → M S C) s Q :
  wp ((c;; d) ≫= k) s Q → wp (c;; (d ≫= k)) s Q.
Proof. unfold wp, mbind, M_bind. by destruct (c s) as [[]|]. Qed.

Lemma wp_ret {A} (a : A) s (Q : A → S → Prop) : Q a s → wp (mret a) s Q.
Proof. done. Qed.

Lemma wp_gets {A} (f : S → A) s (Q : A → S → Prop) : Q (f s) s → wp (gets f) s Q.
Proof. done. Qed.

Lemma wp_modify (f : S → S) s (Q : unit → S → Prop) : Q tt (f s) → wp (modify f) s Q.
Proof. done. Qed.

Lemma wp_zoom {T A} (g : S → T) (p : T → S → S) (c : M T A) s (Q : A → S → Prop) :
  wp c (g s) (λ a t, Q a (p t s)) → wp (zoom g p c) s Q.
Proof. unfold wp, zoom. by destruct (c (g s)) as [[]|]. Qed.

Lemma bind_ok {A B} (c : M S A) (k : A → M S B) s a s' :
  c s = Ok (a, s') → (c ≫= k) s = k a s'.
Proof. unfold mbind, M_bind. by intros ->. Qed.

Lemma bind_err {A B} (c : M S A) (k : A → M S B) s e :
  c s = Err e → (c ≫= k) s = Err e.
Proof. unfold mbind, M_bind. by intros ->. Qed.

Lemma bind_inv {A B} (c : M S A) (k : A → M S B) s r :
  (c ≫= k) s = Ok r → ∃ a s', c s = Ok (a, s') ∧ k a s' = Ok r.
Proof. unfold mbind, M_bind. destruct (c s) as [[]|]; naive_solver. Qed.
End Wp.

(** ** Loops

    [for_ n i body] is [for(k = i; k < i + n; k++) body]. *)
Fixpoint for_ {T} (n i : nat) (body : nat → M T unit) : M T unit :=
  match n with
  | O => mret tt
  | S n => body i;; for_ n (1 + i) body
  end.

Lemma wp_for {T} (I : nat → T → Prop) n i body s (Q : unit → T → Prop) :
  I i s →
  (∀ k t, (i ≤ k < i + n)%nat → I k t → wp (body k) t (λ _ t', I (1 + k)%nat t')) →
  (∀ t, I (i + n)%nat t → Q tt t) → wp (for_ n i body) s Q.
Proof.
  revert i s. induction n as [|n IH]; intros i s Hs Hb HQ; cbn [for_].
  { apply wp_ret, HQ. by rewrite Nat.add_0_r. }
  apply wp_bind. eapply wp_mono; [apply Hb; [lia | done] |]. intros [] t Ht. apply IH; [done | |].
  - intros k u Hk. apply Hb. lia.
  - intros u. replace (1 + i + n)%nat with (i + S n)%nat by lia. apply HQ.
Qed.

(** ** Tactics *)

(** Case analysis on the boolean comparisons of a goal, with their meaning. *)
Ltac case_cmp :=
  repeat match goal with
  | |- context [?a =? ?b] => destruct (Z.eqb_spec a b)
  | |- context [?a <? ?b] => destruct (Z.ltb_spec a b)
  | |- context [?a <=? ?b] => destruct (Z.leb_spec a b)
  end.

(** Goals on [div] and [mod] by constants. *)
Ltac zdiv := Z.div_mod_to_equations; lia.

Ltac wp_step :=
  lazymatch goal with
  | |- wp (_ ≫= _) _ _ => apply wp_bind
  | |- wp (mret _) _ _ => apply wp_ret
  | |- wp (gets _) _ _ => apply wp_gets
  | |- wp (modify _) _ _ => apply wp_modify
  end; cbv beta.

(** ** Facts on machine integers *)

Create HintDb mach.
Create Rewrite HintDb mach.

Lemma u8_range x : 0 ≤ u8 x < 256.
Proof. apply Z.mod_pos_bound. lia. Qed.
Lemma u32_range x : 0 ≤ u32 x < 2 ^ 32.
Proof. apply Z.mod_pos_bound. lia. Qed.
Lemma u8_id x : 0 ≤ x < 256 → u8 x = x.
Proof. apply Z.mod_small. Qed.
Lemma u32_id x : 0 ≤ x < 2 ^ 32 → u32 x = x.
Proof. apply Z.mod_small. Qed.
Lemma u8_u8 x : u8 (u8 x) = u8 x.
Proof. apply Z.mod_mod. lia. Qed.
Lemma u32_u32 x : u32 (u32 x) = u32 x.
Proof. apply Z.mod_mod. lia. Qed.
Lemma u32_add_l a b : u32 (u32 a + b) = u32 (a + b).
Proof. unfold u32. by rewrite Zplus_mod_idemp_l. Qed.
Lemma u32_add_r a b : u32 (a + u32 b) = u32 (a + b).
Proof. unfold u32. by rewrite Zplus_mod_idemp_r. Qed.
#[export] Hint Resolve u8_range u32_range : mach.
#[export] Hint Rewrite u8_u8 u32_u32 u32_add_l u32_add_r : mach.

Lemma nz_true x : nz x = true ↔ x ≠ 0.
Proof. unfold nz. destruct (Z.eqb_spec x 0); naive_solver. Qed.
Lemma nz_false x : nz x = false ↔ x = 0.
Proof. unfold nz. destruct (Z.eqb_spec x 0); naive_solver. Qed.

(** ** Lists *)

Lemma suffix_elem {A} (l l' : list A) x : l' `suffix_of` l → x ∈ l' → x ∈ l.
Proof. intros [k ->] H. apply elem_of_app. by right. Qed.

(** ** Bits *)

(** Extensionality on bits, with the non-negative index introduced. *)
Ltac bits i :=
  apply Z.bits_inj'; intros i ?;
  repeat rewrite ?Z.land_spec, ?Z.lor_spec, ?Z.lxor_spec, ?Z.ldiff_spec, ?Z.bits_0;
  repeat rewrite (Z.lnot_spec _ i) by lia.

Lemma testbit_small x k i : 0 ≤ x < 2 ^ k → 0 ≤ k ≤ i → Z.testbit x i = false.
Proof.
  intros Hx Hi. rewrite <- (Z.mod_small x (2 ^ k)) by lia.
  apply Z.mod_pow2_bits_high. lia.
Qed.

Lemma testbit_pow2 k i : 0 ≤ k → 0 ≤ i → Z.testbit (2 ^ k) i = (k =? i).
Proof. intros. apply Z.pow2_bits_eqb. lia. Qed.

(** A one-bit mask tests that bit. *)
Lemma land_pow2_nz x k : 0 ≤ k → nz (Z.land x (2 ^ k)) = Z.testbit x k.
Proof.
  intros Hk. destruct (Z.testbit x k) eqn:E.
  - apply nz_true. intros H0. assert (Z.testbit (Z.land x (2 ^ k)) k = false) as Hf.
    { by rewrite H0, Z.bits_0. }
    rewrite Z.land_spec, E, testbit_pow2, Z.eqb_refl in Hf by lia. done.
  - apply nz_false. bits i. rewrite testbit_pow2 by lia.
    destruct (Z.eqb_spec k i) as [->|]; [by rewrite E | by rewrite andb_false_r].
Qed.

(** Clearing the low [k] bits. *)
Lemma land_lnot_ones x k : 0 ≤ k → Z.land x (Z.lnot (Z.ones k)) = x - x mod 2 ^ k.
Proof.
  intros Hk. rewrite <- Z.ldiff_land, Z.ldiff_ones_r by lia.
  rewrite Z.shiftl_mul_pow2, Z.shiftr_div_pow2 by lia.
  pose proof (Z.div_mod x (2 ^ k)). lia.
Qed.

Lemma land_ones_mod x k : 0 ≤ k → Z.land x (Z.ones k) = x mod 2 ^ k.
Proof. apply Z.land_ones. Qed.

(** Disjoint bit ranges: a multiple of [2^k] or-ed with a number below it. *)
Lemma lor_disjoint_add a b k :
  0 ≤ k → a mod 2 ^ k = 0 → 0 ≤ b < 2 ^ k → Z.lor a b = a + b.
Proof.
  intros Hk Ha Hb. symmetry. rewrite <- Z.lxor_lor.
  - apply Z.add_nocarry_lxor. bits i. destruct (Z.lt_ge_cases i k).
    + rewrite <- (Z.mod_pow2_bits_low a k) by lia. rewrite Ha, Z.bits_0. done.
    + rewrite (testbit_small b k) by lia. by rewrite andb_false_r.
  - bits i. destruct (Z.lt_ge_cases i k).
    + rewrite <- (Z.mod_pow2_bits_low a k) by lia. rewrite Ha, Z.bits_0. done.
    + rewrite (testbit_small b k) by lia. by rewrite andb_false_r.
Qed.

Lemma lor_range a b k : 0 < k → 0 ≤ a < 2 ^ k → 0 ≤ b < 2 ^ k → 0 ≤ Z.lor a b < 2 ^ k.
Proof.
  intros Hk Ha Hb. assert (0 ≤ Z.lor a b) by (apply Z.lor_nonneg; lia). split; [done |].
  assert (∀ x, 0 ≤ x < 2 ^ k → Z.log2 x < k) as Hlog.
  { intros x Hx. destruct (Z.eq_dec x 0) as [->|]; [simpl; lia |]. apply Z.log2_lt_pow2; lia. }
  destruct (Z.eq_dec (Z.lor a b) 0) as [->|]; [lia |].
  apply Z.log2_lt_pow2; [lia |]. rewrite Z.log2_lor by lia.
  apply Z.max_lub_lt; auto.
Qed.

Lemma land_lnot_range a b k : 0 ≤ k → 0 ≤ a < 2 ^ k → 0 ≤ Z.land a (Z.lnot b) < 2 ^ k.
Proof.
  intros Hk Ha. split; [apply Z.land_nonneg; lia |].
  rewrite <- Z.ldiff_land. destruct (Z.eq_dec (Z.ldiff a b) 0) as [->|]; [lia |].
  assert (0 ≤ Z.ldiff a b) by (apply Z.ldiff_nonneg; lia).
  destruct (Z.lt_ge_cases (Z.ldiff a b) (2 ^ k)); [done | exfalso].
  assert (k ≤ Z.log2 (Z.ldiff a b)) by (apply Z.log2_le_pow2; lia).
  pose proof (Z.bit_log2 (Z.ldiff a b) ltac:(lia)) as Hb.
  rewrite Z.ldiff_spec, (testbit_small a k) in Hb by lia. done.
Qed.
