(* ===== verification/Mmu.v ===== *)
(** * Paging constants and address arithmetic

    The macros of [mmu.h] and [memlayout.h] and the limits of [param.h],
    with the facts about addresses and page-table entries every other file
    uses. *)

From S2P Require Import Prelude.

(** ** [param.h] *)

Definition NPROC : Z := 64.
Definition KSTACKSIZE : Z := 4096.
Definition NCPU : Z := 8.
Definition NOFILE : Z := 16.
Definition NFILE : Z := 100.
Definition NINODE : Z := 50.
Definition NDEV : Z := 10.
Definition ROOTDEV : Z := 1.
Definition MAXARG : Z := 32.
Definition MAXOPBLOCKS : Z := 10.
Definition LOGSIZE : Z := MAXOPBLOCKS * 3.
Definition NBUF : Z := MAXOPBLOCKS * 3.
Definition FSSIZE : Z := 1000.
Definition CLOCKSIZE : Z := 8.

(** ** [memlayout.h] *)

Definition EXTMEM : Z := 0x100000.
Definition PHYSTOP : Z := 0xE000000.
Definition DEVSPACE : Z := 0xFE000000.
Definition KERNBASE : Z := 0x80000000.
Definition KERNLINK : Z := KERNBASE + EXTMEM.
Definition V2P (a : Z) : Z := u32 (a - KERNBASE).
Definition P2V (a : Z) : Z := u32 (a + KERNBASE).

(** ** [mmu.h] *)

Definition FL_IF : Z := 0x200.
Definition DPL_USER : Z := 3.

Definition NPDENTRIES : Z := 1024.
Definition NPTENTRIES : Z := 1024.
Definition PGSIZE : Z := 4096.
Definition PTXSHIFT : Z := 12.
Definition PDXSHIFT : Z := 22.
Definition MAX_PTX : Z := 0x3FF.

Definition PDX (va : Z) : Z := Z.land (Z.shiftr (u32 va) PDXSHIFT) 0x3FF.
Definition PTX (va : Z) : Z := Z.land (Z.shiftr (u32 va) PTXSHIFT) MAX_PTX.
Definition PPN (pa : Z) : Z := Z.shiftr (u32 pa) PTXSHIFT.
Definition OFFSET (va : Z) : Z := Z.land (u32 va) 0xFFF.
Definition PGADDR (d t o : Z) : Z :=
  u32 (Z.lor (Z.lor (Z.shiftl d PDXSHIFT) (Z.shiftl t PTXSHIFT)) o).

Definition PGROUNDUP (sz : Z) : Z := Z.land (u32 (sz + PGSIZE - 1)) (Z.lnot (PGSIZE - 1)).
Definition PGROUNDDOWN (a : Z) : Z := Z.land (u32 a) (Z.lnot (PGSIZE - 1)).

Definition PTE_P : Z := 0x001.
Definition PTE_W : Z := 0x002.
Definition PTE_U : Z := 0x004.
Definition PTE_A : Z := 0x020.
Definition PTE_PS : Z := 0x080.
Definition PTE_E : Z := 0x400.

Definition PTE_ADDR (pte : Z) : Z := Z.land (u32 pte) (Z.lnot 0xFFF).
Definition PTE_FLAGS (pte : Z) : Z := Z.land (u32 pte) 0xFFF.

(** ** Arithmetic readings of the macros *)

Lemma lnot_fff : Z.lnot 0xFFF = Z.lnot (Z.ones 12).
Proof. reflexivity. Qed.

Lemma PGROUNDDOWN_eq a : 0 ≤ a < 2 ^ 32 → PGROUNDDOWN a = a - a mod 4096.
Proof.
  intros Ha. unfold PGROUNDDOWN. rewrite u32_id by lia.
  change (PGSIZE - 1) with (Z.ones 12). rewrite land_lnot_ones by lia. done.
Qed.

Lemma PGROUNDDOWN_id a : 0 ≤ a < 2 ^ 32 → a mod 4096 = 0 → PGROUNDDOWN a = a.
Proof. intros Ha H0. rewrite PGROUNDDOWN_eq; lia. Qed.

Lemma PGROUNDUP_eq a :
  0 ≤ a → a + 4095 < 2 ^ 32 → PGROUNDUP a = (a + 4095) - (a + 4095) mod 4096.
Proof.
  intros Ha Hb. unfold PGROUNDUP.
  replace (a + PGSIZE - 1) with (a + 4095) by (unfold PGSIZE; lia).
  rewrite u32_id by lia. change (PGSIZE - 1) with (Z.ones 12).
  rewrite land_lnot_ones by lia. done.
Qed.

Lemma PTE_ADDR_eq p : 0 ≤ p < 2 ^ 32 → PTE_ADDR p = p - p mod 4096.
Proof. apply PGROUNDDOWN_eq. Qed.

Lemma PTE_FLAGS_eq p : 0 ≤ p < 2 ^ 32 → PTE_FLAGS p = p mod 4096.
Proof. intros. unfold PTE_FLAGS. rewrite u32_id by lia. apply (land_ones_mod p 12). lia. Qed.

Lemma PTE_ADDR_range p : 0 ≤ PTE_ADDR p < 2 ^ 32.
Proof. unfold PTE_ADDR. apply land_lnot_range; [lia | apply u32_range]. Qed.

Lemma PTE_ADDR_aligned p : PTE_ADDR p mod 4096 = 0.
Proof.
  unfold PTE_ADDR. rewrite lnot_fff, land_lnot_ones by lia.
  pose proof (u32_range p). change (2 ^ 12) with 4096. zdiv.
Qed.

Lemma PDX_eq va : 0 ≤ va < 2 ^ 32 → PDX va = va / 2 ^ 22.
Proof.
  intros. unfold PDX. rewrite u32_id, Z.shiftr_div_pow2 by (unfold PDXSHIFT; lia).
  change 0x3FF with (Z.ones 10). rewrite land_ones_mod by lia.
  unfold PDXSHIFT. apply Z.mod_small. zdiv.
Qed.

Lemma PTX_eq va : 0 ≤ va < 2 ^ 32 → PTX va = (va / 4096) mod 1024.
Proof.
  intros. unfold PTX. rewrite u32_id, Z.shiftr_div_pow2 by (unfold PTXSHIFT; lia).
  change MAX_PTX with (Z.ones 10). rewrite land_ones_mod by lia. done.
Qed.

Lemma PDX_range va : 0 ≤ PDX va < 1024.
Proof.
  unfold PDX. change 0x3FF with (Z.ones 10). rewrite land_ones_mod by lia.
  apply Z.mod_pos_bound. lia.
Qed.

Lemma PTX_range va : 0 ≤ PTX va < 1024.
Proof.
  unfold PTX, MAX_PTX. change 0x3FF with (Z.ones 10). rewrite land_ones_mod by lia.
  apply Z.mod_pos_bound. lia.
Qed.

Lemma V2P_eq a : KERNBASE ≤ a < 2 ^ 32 → V2P a = a - KERNBASE.
Proof. intros. unfold V2P. apply u32_id. unfold KERNBASE in *. lia. Qed.

Lemma P2V_eq a : 0 ≤ a < KERNBASE → P2V a = a + KERNBASE.
Proof. intros. unfold P2V. apply u32_id. unfold KERNBASE in *. lia. Qed.

Lemma V2P_P2V a : 0 ≤ a < 2 ^ 32 → V2P (P2V a) = a.
Proof.
  intros. unfold V2P, P2V. replace (u32 (a + KERNBASE) - KERNBASE)
    with (u32 (a + KERNBASE) + - KERNBASE) by lia.
  rewrite u32_add_l. replace (a + KERNBASE + - KERNBASE) with a by lia. by apply u32_id.
Qed.

Lemma P2V_V2P a : 0 ≤ a < 2 ^ 32 → P2V (V2P a) = a.
Proof.
  intros. unfold V2P, P2V. rewrite u32_add_l.
  replace (a - KERNBASE + KERNBASE) with a by lia. by apply u32_id.
Qed.

(** ** Page-table entries *)

Lemma PTE_ADDR_spec p i :
  0 ≤ i → Z.testbit (PTE_ADDR p) i = Z.testbit p i && (i <? 32) && (12 <=? i).
Proof.
  intros Hi. unfold PTE_ADDR, u32. rewrite Z.land_spec, Z.lnot_spec by lia.
  change 0xFFF with (Z.ones 12). rewrite Z.testbit_ones_nonneg by lia.
  rewrite Z.testbit_mod_pow2 by lia.
  case_cmp; try lia; btauto.
Qed.

(** Or-ing or clearing flag bits keeps the frame address. *)
Lemma PTE_ADDR_lor p f : 0 ≤ f < 4096 → PTE_ADDR (Z.lor p f) = PTE_ADDR p.
Proof.
  intros Hf. apply Z.bits_inj'. intros i Hi. rewrite !PTE_ADDR_spec, Z.lor_spec by lia.
  case_cmp; rewrite ?andb_false_r; try done.
  rewrite (testbit_small f 12) by lia. btauto.
Qed.

Lemma PTE_ADDR_clear p f : 0 ≤ f < 4096 → PTE_ADDR (Z.land p (Z.lnot f)) = PTE_ADDR p.
Proof.
  intros Hf. apply Z.bits_inj'. intros i Hi.
  rewrite !PTE_ADDR_spec, Z.land_spec, Z.lnot_spec by lia.
  case_cmp; rewrite ?andb_false_r; try done.
  rewrite (testbit_small f 12) by lia. btauto.
Qed.

Lemma PTE_ADDR_make pa f :
  0 ≤ pa < 2 ^ 32 → pa mod 4096 = 0 → 0 ≤ f < 4096 → PTE_ADDR (Z.lor pa f) = pa.
Proof. intros Hp Ha Hf. rewrite PTE_ADDR_lor, PTE_ADDR_eq by lia. lia. Qed.

Lemma PTE_FLAGS_make pa f :
  0 ≤ pa < 2 ^ 32 → pa mod 4096 = 0 → 0 ≤ f < 4096 → PTE_FLAGS (Z.lor pa f) = f.
Proof.
  intros Hp Ha Hf. rewrite PTE_FLAGS_eq by (apply lor_range; lia).
  rewrite (lor_disjoint_add _ _ 12) by (try done; lia). zdiv.
Qed.

Lemma PTE_split p : 0 ≤ p < 2 ^ 32 → Z.lor (PTE_ADDR p) (PTE_FLAGS p) = p.
Proof.
  intros Hp. rewrite (lor_disjoint_add _ _ 12).
  - rewrite PTE_ADDR_eq, PTE_FLAGS_eq by lia. lia.
  - lia.
  - apply PTE_ADDR_aligned.
  - rewrite PTE_FLAGS_eq by lia. change (2 ^ 12) with 4096. apply Z.mod_pos_bound. lia.
Qed.

(** Which bit each flag is. *)
Lemma has_P p : nz (Z.land p PTE_P) = Z.testbit p 0.
Proof. apply (land_pow2_nz p 0). lia. Qed.
Lemma has_W p : nz (Z.land p PTE_W) = Z.testbit p 1.
Proof. apply (land_pow2_nz p 1). lia. Qed.
Lemma has_U p : nz (Z.land p PTE_U) = Z.testbit p 2.
Proof. apply (land_pow2_nz p 2). lia. Qed.
Lemma has_A p : nz (Z.land p PTE_A) = Z.testbit p 5.
Proof. apply (land_pow2_nz p 5). lia. Qed.
Lemma has_E p : nz (Z.land p PTE_E) = Z.testbit p 10.
Proof. apply (land_pow2_nz p 10). lia. Qed.
#[export] Hint Rewrite has_P has_W has_U has_A has_E : mach.

Lemma has_PE p : nz (Z.land p (Z.lor PTE_P PTE_E)) = Z.testbit p 0 || Z.testbit p 10.
Proof.
  rewrite <- has_P, <- has_E, Z.land_lor_distr_r. unfold nz.
  destruct (Z.eqb_spec (Z.land p PTE_P) 0) as [-> | HP];
    [by rewrite Z.lor_0_l |].
  destruct (Z.eqb_spec (Z.lor (Z.land p PTE_P) (Z.land p PTE_E)) 0) as [H0|]; [|done].
  apply Z.lor_eq_0_iff in H0. by destruct H0.
Qed.

Lemma tb_set p k i : 0 ≤ k → 0 ≤ i → Z.testbit (Z.lor p (2 ^ k)) i = Z.testbit p i || (k =? i).
Proof. intros. by rewrite Z.lor_spec, testbit_pow2 by lia. Qed.

Lemma tb_clr p k i :
  0 ≤ k → 0 ≤ i → Z.testbit (Z.land p (Z.lnot (2 ^ k))) i = Z.testbit p i && negb (k =? i).
Proof. intros. by rewrite Z.land_spec, Z.lnot_spec, testbit_pow2 by lia. Qed.
