(* ===== verification/Mem.v ===== *)
(** * Byte-addressed memory and [string.c]

    Memory is a finite map from addresses to bytes; 32-bit words are four
    bytes, least significant first, as on the x86.  On top of it are the
    routines of [string.c] (and the [stosb]/[stosl] instructions of
    [x86.h] they use).  Routines that only read strings take the string as a
    function from indices to characters, so that they apply to memory and to
    in-kernel arrays alike. *)

From S2P Require Import Prelude Mmu.

(** ** Bytes and words *)

Abbreviation mem := (gmap Z Z).

Definition rd (m : mem) (a : Z) : Z := u8 (default 0 (m !! a)).
Definition wr (m : mem) (a v : Z) : mem := <[a := u8 v]> m.

Definition ld32 (m : mem) (a : Z) : Z :=
  rd m a + 2 ^ 8 * rd m (a + 1) + 2 ^ 16 * rd m (a + 2) + 2 ^ 24 * rd m (a + 3).
Definition st32 (m : mem) (a v : Z) : mem :=
  wr (wr (wr (wr m a v) (a + 1) (Z.shiftr v 8)) (a + 2) (Z.shiftr v 16)) (a + 3) (Z.shiftr v 24).

(** ** [x86.h]: [rep stosb], [rep stosl] *)

Fixpoint stosb (m : mem) (addr data : Z) (cnt : nat) : mem :=
  match cnt with
  | O => m
  | S cnt => stosb (wr m addr data) (addr + 1) data cnt
  end.

Fixpoint stosl (m : mem) (addr data : Z) (cnt : nat) : mem :=
  match cnt with
  | O => m
  | S cnt => stosl (st32 m addr data) (addr + 4) data cnt
  end.

(** ** [string.c] *)

Definition memset (m : mem) (dst c n : Z) : mem :=
  if (dst mod 4 =? 0) && (n mod 4 =? 0) then
    let c := Z.land c 0xFF in
    stosl m dst
      (Z.lor (Z.lor (Z.lor (Z.shiftl c 24) (Z.shiftl c 16)) (Z.shiftl c 8)) c)
      (Z.to_nat (n / 4))
  else stosb m dst c (Z.to_nat n).

Fixpoint memcmp (m : mem) (s1 s2 : Z) (n : nat) : Z :=
  match n with
  | O => 0
  | S n =>
    if negb (rd m s1 =? rd m s2) then rd m s1 - rd m s2
    else memcmp m (s1 + 1) (s2 + 1) n
  end.

(** The two loops of [memmove]: [while(n-- > 0) *d++ = *s++], and, with [d]
    and [s] advanced by [n] first, [while(n-- > 0) *--d = *--s]. *)
Fixpoint copy_up (m : mem) (d s : Z) (n : nat) : mem :=
  match n with
  | O => m
  | S n => copy_up (wr m d (rd m s)) (d + 1) (s + 1) n
  end.

Fixpoint copy_down (m : mem) (d s : Z) (n : nat) : mem :=
  match n with
  | O => m
  | S n => copy_down (wr m (d - 1) (rd m (s - 1))) (d - 1) (s - 1) n
  end.

Definition memmove (m : mem) (dst src n : Z) : mem :=
  if (src <? dst) && (dst <? src + n) then copy_down m (dst + n) (src + n) (Z.to_nat n)
  else copy_up m dst src (Z.to_nat n).

Definition memcpy (m : mem) (dst src n : Z) : mem := memmove m dst src n.

Fixpoint strncmp (p q : Z → Z) (n : nat) : Z :=
  match n with
  | O => 0
  | S n =>
    if nz (p 0) && (p 0 =? q 0) then strncmp (λ i, p (i + 1)) (λ i, q (i + 1)) n
    else u8 (p 0) - u8 (q 0)
  end.

Fixpoint strncpy (m : mem) (s t : Z) (n : nat) : mem :=
  match n with
  | O => m
  | S n =>
    let c := rd m t in
    let m := wr m s c in
    if c =? 0 then stosb m (s + 1) 0 n else strncpy m (s + 1) (t + 1) n
  end.

(** The loop of [safestrcpy], entered with [n] already decremented. *)
Fixpoint safestrcpy_loop (m : mem) (s t : Z) (n : nat) : mem :=
  match n with
  | O => wr m s 0
  | S n =>
    let c := rd m t in
    let m := wr m s c in
    if c =? 0 then wr m (s + 1) 0 else safestrcpy_loop m (s + 1) (t + 1) n
  end.

Definition safestrcpy (m : mem) (s t n : Z) : mem :=
  if n <=? 0 then m else safestrcpy_loop m s t (Z.to_nat (n - 1)).

(** [strlen] with a bound on the number of characters looked at. *)
Fixpoint strlen (s : Z → Z) (fuel : nat) : option Z :=
  match fuel with
  | O => None
  | S fuel =>
    if nz (s 0) then option_map (Z.add 1) (strlen (λ i, s (i + 1)) fuel) else Some 0
  end.

(** ** Reading back what was written *)

Lemma rd_range m a : 0 ≤ rd m a < 256.
Proof. apply u8_range. Qed.
#[export] Hint Resolve rd_range : mach.

Lemma u8_rd m a : u8 (rd m a) = rd m a.
Proof. apply u8_u8. Qed.

Lemma rd_wr m a v x : rd (wr m a v) x = if x =? a then u8 v else rd m x.
Proof.
  unfold rd, wr. destruct (Z.eqb_spec x a) as [->|].
  - rewrite lookup_insert_eq. simpl. apply u8_u8.
  - by rewrite lookup_insert_ne.
Qed.

Lemma rd_wr_ne m a v x : x ≠ a → rd (wr m a v) x = rd m x.
Proof. intros. rewrite rd_wr. by destruct (Z.eqb_spec x a). Qed.

Lemma rd_wr_eq m a v : rd (wr m a v) a = u8 v.
Proof. by rewrite rd_wr, Z.eqb_refl. Qed.

Lemma ld32_range m a : 0 ≤ ld32 m a < 2 ^ 32.
Proof.
  unfold ld32. pose proof (rd_range m a). pose proof (rd_range m (a + 1)).
  pose proof (rd_range m (a + 2)). pose proof (rd_range m (a + 3)). lia.
Qed.
#[export] Hint Resolve ld32_range : mach.

Lemma u32_ld32 m a : u32 (ld32 m a) = ld32 m a.
Proof. apply u32_id, ld32_range. Qed.

(** The second of two stores to a word wins. *)
Lemma st32_st32 m a v v' : st32 (st32 m a v) a v' = st32 m a v'.
Proof.
  apply map_eq. intros x. unfold st32, wr.
  rewrite !lookup_insert. repeat case_decide; reflexivity || lia.
Qed.

Lemma ld32_ext m m' a : (∀ x, a ≤ x < a + 4 → rd m' x = rd m x) → ld32 m' a = ld32 m a.
Proof. intros H. unfold ld32. by rewrite !H by lia. Qed.

Lemma ld32_shift m m' a b : (∀ i, 0 ≤ i < 4 → rd m (a + i) = rd m' (b + i)) → ld32 m a = ld32 m' b.
Proof. intros Hr. unfold ld32. rewrite !Hr by lia. specialize (Hr 0). rewrite !Z.add_0_r in Hr. by rewrite Hr by lia. Qed.

Lemma rd_empty a : rd ∅ a = 0.
Proof. unfold rd. by rewrite lookup_empty. Qed.
Lemma ld32_empty a : ld32 ∅ a = 0.
Proof. unfold ld32. by rewrite !rd_empty. Qed.

Lemma rd_st32_out m a v x : x < a ∨ a + 4 ≤ x → rd (st32 m a v) x = rd m x.
Proof. intros. unfold st32. by rewrite !rd_wr_ne by lia. Qed.

(** Byte [i] of a stored word. *)
Lemma rd_st32 m a v i : 0 ≤ i < 4 → rd (st32 m a v) (a + i) = u8 (Z.shiftr v (8 * i)).
Proof.
  intros Hi. unfold st32. rewrite !rd_wr.
  destruct (Z.eq_dec i 0) as [->|]; [|destruct (Z.eq_dec i 1) as [->|];
    [|destruct (Z.eq_dec i 2) as [->|]; [|replace i with 3 by lia]]];
    case_cmp; try lia; done.
Qed.

Lemma ld32_st32 m a v : ld32 (st32 m a v) a = u32 v.
Proof.
  unfold ld32. rewrite <- (Z.add_0_r a) at 2. rewrite !rd_st32 by lia.
  rewrite !Z.shiftr_div_pow2 by lia. unfold u8, u32.
  change (2 ^ (8 * 0)) with 1. change (2 ^ (8 * 1)) with 256.
  change (2 ^ (8 * 2)) with 65536. change (2 ^ (8 * 3)) with 16777216.
  change (2 ^ 8) with 256. change (2 ^ 16) with 65536. change (2 ^ 24) with 16777216.
  change (2 ^ 32) with 4294967296. zdiv.
Qed.

Lemma ld32_st32_ne m a b v : b + 4 ≤ a ∨ a + 4 ≤ b → ld32 (st32 m a v) b = ld32 m b.
Proof. intros. apply ld32_ext. intros. apply rd_st32_out. lia. Qed.

(** ** What the routines of [string.c] do *)

Lemma rd_stosb m a c n x :
  rd (stosb m a c n) x = if (a <=? x) && (x <? a + Z.of_nat n) then u8 c else rd m x.
Proof.
  revert m a. induction n as [|n IH]; intros m a; simpl stosb.
  - case_cmp; try lia; done.
  - rewrite IH, rd_wr. case_cmp; simpl; try lia; done.
Qed.

Lemma rd_stosl m a c b n x :
  (∀ i, 0 ≤ i < 4 → u8 (Z.shiftr c (8 * i)) = b) →
  rd (stosl m a c n) x = if (a <=? x) && (x <? a + 4 * Z.of_nat n) then b else rd m x.
Proof.
  intros Hb. revert m a. induction n as [|n IH]; intros m a; simpl stosl.
  - case_cmp; try lia; done.
  - rewrite IH. destruct (decide (a ≤ x < a + 4)) as [Hin|Hout].
    + replace x with (a + (x - a)) at 3 by lia. rewrite rd_st32, Hb by lia.
      case_cmp; simpl; try lia; done.
    + rewrite rd_st32_out by lia. case_cmp; simpl; try lia; done.
Qed.

(** The word [memset] stores has its byte in all four places. *)
Lemma memset_word c i :
  0 ≤ i < 4 →
  let c' := Z.land c 0xFF in
  u8 (Z.shiftr
        (Z.lor (Z.lor (Z.lor (Z.shiftl c' 24) (Z.shiftl c' 16)) (Z.shiftl c' 8)) c')
        (8 * i)) = u8 c.
Proof.
  intros Hi c'. unfold c'. change 0xFF with (Z.ones 8). rewrite land_ones_mod by lia.
  apply Z.bits_inj'. intros k Hk. unfold u8. rewrite !Z.testbit_mod_pow2 by lia.
  destruct (Z.ltb_spec k 8); [simpl | done].
  rewrite Z.shiftr_spec, !Z.lor_spec, !Z.shiftl_spec by lia.
  assert (∀ j, Z.testbit (c mod 2 ^ 8) j = (0 <=? j) && (j <? 8) && Z.testbit c j) as Hb.
  { intros j. destruct (Z.leb_spec 0 j); [|by rewrite Z.testbit_neg_r by lia].
    rewrite Z.testbit_mod_pow2 by lia. done. }
  rewrite !Hb. assert (i = 0 ∨ i = 1 ∨ i = 2 ∨ i = 3) as [-> | [-> | [-> | ->]]] by lia;
    case_cmp; try lia; simpl; rewrite ?orb_false_r; f_equal; lia.
Qed.

(** Both paths of [memset] fill exactly [n] bytes with the low byte of [c]. *)
Lemma rd_memset m dst c n x :
  0 ≤ n →
  rd (memset m dst c n) x = if (dst <=? x) && (x <? dst + n) then u8 c else rd m x.
Proof.
  intros Hn. unfold memset. destruct (Z.eqb_spec (dst mod 4) 0), (Z.eqb_spec (n mod 4) 0);
    simpl; try (rewrite rd_stosb, Z2Nat.id by lia; done).
  rewrite (rd_stosl _ _ _ (u8 c)) by (apply memset_word).
  rewrite Z2Nat.id by (apply Z.div_pos; lia).
  replace (4 * (n / 4)) with n by zdiv. done.
Qed.

Lemma ld32_zeroed m a n x : a ≤ x → x + 4 ≤ a + n → ld32 (memset m a 0 n) x = 0.
Proof.
  intros H1 H2. unfold ld32. rewrite !rd_memset by lia. case_cmp; simpl; lia || done.
Qed.

Lemma rd_copy_up m d s n x :
  d ≤ s ∨ s + Z.of_nat n ≤ d →
  rd (copy_up m d s n) x =
    if (d <=? x) && (x <? d + Z.of_nat n) then rd m (s + (x - d)) else rd m x.
Proof.
  revert m d s. induction n as [|n IH]; intros m d s H; simpl copy_up.
  - case_cmp; try lia; done.
  - rewrite IH by lia. rewrite !rd_wr. case_cmp; simpl; try lia; try done;
      rewrite ?u8_rd; f_equal; lia.
Qed.

Lemma rd_copy_down m d s n x :
  s ≤ d →
  rd (copy_down m d s n) x =
    if (d - Z.of_nat n <=? x) && (x <? d) then rd m (s + (x - d)) else rd m x.
Proof.
  revert m d s. induction n as [|n IH]; intros m d s H; simpl copy_down.
  - case_cmp; try lia; done.
  - rewrite IH by lia. rewrite !rd_wr. case_cmp; simpl; try lia; try done;
      rewrite ?u8_rd; f_equal; lia.
Qed.

(** [memmove] copies the source as it was before the call, also when the two
    areas overlap in either direction. *)
Lemma rd_memmove m dst src n x :
  0 ≤ n →
  rd (memmove m dst src n) x =
    if (dst <=? x) && (x <? dst + n) then rd m (src + (x - dst)) else rd m x.
Proof.
  intros Hn. unfold memmove.
  destruct (Z.ltb_spec src dst), (Z.ltb_spec dst (src + n)); simpl;
    [rewrite rd_copy_down | rewrite rd_copy_up..]; rewrite ?Z2Nat.id; try lia; try done.
  replace (src + n + (x - (dst + n))) with (src + (x - dst)) by lia.
  replace (dst + n - n) with dst by lia. done.
Qed.

(** [memcmp] is 0 exactly on equal areas. *)
Lemma memcmp_zero m s1 s2 n :
  memcmp m s1 s2 n = 0 ↔ ∀ i, 0 ≤ i < Z.of_nat n → rd m (s1 + i) = rd m (s2 + i).
Proof.
  revert s1 s2. induction n as [|n IH]; intros s1 s2; cbn [memcmp].
  - split; [lia | done].
  - destruct (Z.eqb_spec (rd m s1) (rd m s2)) as [E|E]; simpl.
    + rewrite IH. split; intros H i Hi.
      * destruct (Z.eq_dec i 0) as [->|]; [by rewrite !Z.add_0_r |].
        specialize (H (i - 1) ltac:(lia)).
        by replace (s1 + 1 + (i - 1)) with (s1 + i) in H by lia;
          replace (s2 + 1 + (i - 1)) with (s2 + i) in H by lia.
      * specialize (H (i + 1) ltac:(lia)).
        by replace (s1 + (i + 1)) with (s1 + 1 + i) in H by lia;
          replace (s2 + (i + 1)) with (s2 + 1 + i) in H by lia.
    + split; [lia |]. intros H. specialize (H 0 ltac:(lia)). rewrite !Z.add_0_r in H. lia.
Qed.

(** [strncmp] is 0 exactly when the strings agree up to [n] characters or up
    to and including a common NUL. *)
Lemma strncmp_zero p q n :
  (∀ i, 0 ≤ p i < 256) → (∀ i, 0 ≤ q i < 256) →
  strncmp p q n = 0 ↔
    ∀ i, 0 ≤ i < Z.of_nat n → (∀ j, 0 ≤ j < i → p j ≠ 0) → p i = q i.
Proof.
  revert p q. induction n as [|n IH]; intros p q Hp Hq; cbn [strncmp]; [split; [lia | done] |].
  rewrite (u8_id (p 0)), (u8_id (q 0)) by auto.
  unfold nz. destruct (Z.eqb_spec (p 0) 0) as [E0|E0], (Z.eqb_spec (p 0) (q 0)) as [E|E]; simpl.
  - split; [|lia]. intros _ i Hi Hj. destruct (Z.eq_dec i 0) as [->|]; [done |].
    exfalso. by apply (Hj 0); [lia|].
  - split; [lia |]. intros H. specialize (H 0 ltac:(lia) ltac:(lia)). lia.
  - rewrite IH by (intros; auto). split; intros H i Hi Hj.
    + destruct (Z.eq_dec i 0) as [->|]; [done |].
      specialize (H (i - 1) ltac:(lia)). replace (i - 1 + 1) with i in H by lia.
      apply H. intros j Hj'. apply Hj. lia.
    + apply H; [lia |]. intros j Hj'. destruct (Z.eq_dec j 0) as [->|]; [done |].
      specialize (Hj (j - 1) ltac:(lia)). by replace (j - 1 + 1) with j in Hj by lia.
  - split; [lia |]. intros H. specialize (H 0 ltac:(lia) ltac:(lia)). lia.
Qed.

(** [strncpy] writes only the [n] bytes at [s]. *)
Lemma rd_strncpy_out m s t n x :
  ¬ (s ≤ x < s + Z.of_nat n) → rd (strncpy m s t n) x = rd m x.
Proof.
  revert m s t. induction n as [|n IH]; intros m s t H; cbn [strncpy]; [done |].
  destruct (rd m t =? 0).
  - rewrite rd_stosb. case_cmp; simpl; try lia; by rewrite rd_wr_ne by lia.
  - rewrite IH, rd_wr_ne by lia. done.
Qed.

(** [safestrcpy] writes only the [n] bytes at [s], and ends the copy with a
    NUL inside them. *)
Lemma rd_safestrcpy_loop_out m s t n x :
  ¬ (s ≤ x ≤ s + Z.of_nat n) → rd (safestrcpy_loop m s t n) x = rd m x.
Proof.
  revert m s t. induction n as [|n IH]; intros m s t H; cbn [safestrcpy_loop].
  - by rewrite rd_wr_ne by lia.
  - destruct (rd m t =? 0); [by rewrite !rd_wr_ne by lia |].
    rewrite IH, rd_wr_ne by lia. done.
Qed.

Lemma rd_safestrcpy_nul m s t n :
  ∃ i, 0 ≤ i ≤ Z.of_nat n ∧ rd (safestrcpy_loop m s t n) (s + i) = 0.
Proof.
  revert m s t. induction n as [|n IH]; intros m s t; cbn [safestrcpy_loop].
  - exists 0. split; [lia |]. by rewrite Z.add_0_r, rd_wr_eq.
  - destruct (rd m t =? 0).
    + exists 1. split; [lia |]. by rewrite rd_wr_eq.
    + destruct (IH (wr m s (rd m t)) (s + 1) (t + 1)) as (i & Hi & H).
      exists (i + 1). split; [lia |]. by replace (s + (i + 1)) with (s + 1 + i) by lia.
Qed.

(** [strlen] finds the first NUL, if there is one within the bound. *)
Lemma strlen_spec s fuel k :
  strlen s fuel = Some k ↔
  0 ≤ k < Z.of_nat fuel ∧ s k = 0 ∧ ∀ j, 0 ≤ j < k → s j ≠ 0.
Proof.
  revert s k. induction fuel as [|f IH]; intros s k; cbn [strlen]; [split; [done | lia] |].
  unfold nz. destruct (Z.eqb_spec (s 0) 0) as [E|E]; simpl.
  - split.
    + intros [= <-]. split_and!; lia.
    + intros (Hk & Hs & Hj). destruct (Z.eq_dec k 0) as [->|]; [done |].
      exfalso. by apply (Hj 0); [lia |].
  - split.
    + destruct (strlen (λ i, s (i + 1)) f) as [k'|] eqn:E'; [|done].
      intros [= <-]. apply IH in E' as (Hk & Hs & Hj). split_and!; [lia.. | |].
      * by replace (1 + k') with (k' + 1) by lia.
      * intros j Hj'. destruct (Z.eq_dec j 0) as [->|]; [done |].
        specialize (Hj (j - 1) ltac:(lia)). by replace (j - 1 + 1) with j in Hj by lia.
    + intros (Hk & Hs & Hj). destruct (Z.eq_dec k 0) as [->|]; [done |].
      assert (strlen (λ i, s (i + 1)) f = Some (k - 1)) as ->.
      { apply IH. split_and!; try lia.
        - by replace (k - 1 + 1) with k by lia.
        - intros j Hj'. apply Hj. lia. }
      simpl. f_equal. lia.
Qed.

(** From here on memory is reasoned about by the lemmas above. *)
#[global] Opaque rd wr ld32 st32 memset memmove.
