(* ===== verification/Spinlock.v ===== *)
(** * Spin locks ([spinlock.c])

    [Module Spin] holds the routines of [spinlock.c] as run by one CPU: the
    state is that CPU's [struct cpu] (with the interrupt flag of its EFLAGS
    register) and one lock.  A CPU that finds the lock taken by another one
    spins; seen from that CPU alone nothing more happens, the outcome
    [EBlock].  [Module Smp] is the same lock shared by any number of CPUs,
    as a step relation that interleaves the atomic actions of [acquire] and
    [release]. *)

From S2P Require Import Prelude Mmu.

(** The fields of [struct cpu] the lock code uses, and EFLAGS.IF. *)
Record cpu : Type := Cpu {
  apicid : Z;
  eflags_if : bool;
  ncli : Z;
  intena : bool;
}.

(** [struct spinlock]; [pcs], kept for debugging only, is left out. *)
Record spinlock : Type := Lock {
  locked : bool;
  lk_cpu : option Z;
}.

Module Spin.

Definition initlock : spinlock := Lock false None.

Definition pushcli : M cpu unit := λ c,
  Ok (tt, Cpu (apicid c) false (ncli c + 1)
            (if ncli c =? 0 then eflags_if c else intena c)).

Definition popcli : M cpu unit := λ c,
  if eflags_if c then Err (EPanic "popcli - interruptible")
  else
    let n := ncli c - 1 in
    if n <? 0 then Err (EPanic "popcli")
    else Ok (tt, Cpu (apicid c) ((n =? 0) && intena c) n (intena c)).

(** State of one CPU working on one lock. *)
Definition on_cpu {A} : M cpu A → M (cpu * spinlock) A := zoom fst (λ c s, (c, s.2)).

Definition holding : M (cpu * spinlock) bool :=
  on_cpu pushcli;;
  r ← gets (λ s, locked s.2 && bool_decide (lk_cpu s.2 = Some (apicid s.1)));
  on_cpu popcli;;
  mret r.

(** [xchg(&lk->locked, 1)]: the old value. *)
Definition xchg1 : M (cpu * spinlock) bool := λ s,
  Ok (locked s.2, (s.1, Lock true (lk_cpu s.2))).

(** [acquire] up to its spin loop, and after it. *)
Definition acq_enter : M (cpu * spinlock) unit :=
  on_cpu pushcli;;
  h ← holding;
  if h : bool then panic "acquire" else mret tt.

Definition acq_mark : M (cpu * spinlock) unit :=
  modify (λ s, (s.1, Lock (locked s.2) (Some (apicid s.1)))).

Definition acquire : M (cpu * spinlock) unit :=
  acq_enter;;
  old ← xchg1;
  if old : bool then raise EBlock else acq_mark.

(** [release] up to the store that frees the lock, and from there on. *)
Definition rel_check : M (cpu * spinlock) unit :=
  h ← holding;
  if negb h then panic "release" else
  modify (λ s, (s.1, Lock (locked s.2) None)).

Definition rel_unlock : M (cpu * spinlock) unit :=
  modify (λ s, (s.1, Lock false (lk_cpu s.2)));;
  on_cpu popcli.

Definition release : M (cpu * spinlock) unit := rel_check;; rel_unlock.

(** ** Properties *)

(** The nesting count is a count, and interrupts are off inside. *)
Definition cpu_ok (c : cpu) : Prop := 0 ≤ ncli c ∧ (0 < ncli c → eflags_if c = false).

Fixpoint times (n : nat) (f : M cpu unit) : M cpu unit :=
  match n with
  | O => mret tt
  | S n => f;; times n f
  end.

Lemma times_push n c :
  0 ≤ ncli c → (0 < n)%nat →
  times n pushcli c =
    Ok (tt, Cpu (apicid c) false (ncli c + Z.of_nat n)
              (if ncli c =? 0 then eflags_if c else intena c)).
Proof.
  intros Hc Hn. revert c Hc. induction n as [|n IH]; intros c Hc; [lia |].
  cbn [times]. erewrite bind_ok by reflexivity. destruct n as [|n]; [done |].
  rewrite IH by (simpl; lia). simpl. do 3 f_equal; [lia |].
  destruct (Z.eqb_spec (ncli c + 1) 0); [lia | done].
Qed.

Lemma times_pop n c :
  eflags_if c = false → Z.of_nat n ≤ ncli c → (0 < n)%nat →
  times n popcli c =
    Ok (tt, Cpu (apicid c) ((ncli c =? Z.of_nat n) && intena c)
              (ncli c - Z.of_nat n) (intena c)).
Proof.
  revert c. induction n as [|n IH]; intros c Hif Hn Hpos; [lia |].
  cbn [times]. unfold mbind, M_bind, popcli at 1. rewrite Hif.
  destruct (Z.ltb_spec (ncli c - 1) 0); [lia |]. destruct n as [|n].
  - cbn [times]. unfold mret, M_ret. do 3 f_equal. case_cmp; try lia; done.
  - rewrite IH; simpl; try lia. do 3 f_equal; [case_cmp; try lia; done | lia].
Qed.

(** "It takes two popcli to undo two pushcli", and interrupts that were off
    stay off. *)
Lemma push_pop n c :
  cpu_ok c → (0 < n)%nat →
  ∃ c', (times n pushcli;; times n popcli) c = Ok (tt, c') ∧
        eflags_if c' = eflags_if c ∧ ncli c' = ncli c ∧ apicid c' = apicid c ∧
        (0 < ncli c → intena c' = intena c).
Proof.
  intros [H0 Hif] Hn. pose proof (times_push n c H0 Hn) as E.
  eexists. rewrite (bind_ok _ _ _ _ _ E), times_pop by (simpl; lia). split; [done |]. simpl.
  destruct (Z.eqb_spec (ncli c) 0) as [E0|E0].
  - rewrite E0. simpl. rewrite Z.eqb_refl. simpl. split_and!; lia || done.
  - rewrite Hif by lia. destruct (Z.eqb_spec (ncli c + Z.of_nat n) (Z.of_nat n)); [lia |].
    simpl. split_and!; lia || done.
Qed.

Definition after_push (c : cpu) : cpu :=
  Cpu (apicid c) false (ncli c + 1) (if ncli c =? 0 then eflags_if c else intena c).

Lemma holding_spec c lk :
  cpu_ok c →
  holding (c, lk) =
    Ok (locked lk && bool_decide (lk_cpu lk = Some (apicid c)),
        (Cpu (apicid c) (eflags_if c) (ncli c)
           (if ncli c =? 0 then eflags_if c else intena c), lk)).
Proof.
  intros [H0 Hif]. unfold holding, on_cpu, zoom, pushcli, popcli, mbind, M_bind, gets. simpl.
  destruct (Z.ltb_spec (ncli c + 1 - 1) 0); [lia |]. unfold mret, M_ret.
  replace (ncli c + 1 - 1) with (ncli c) by lia.
  destruct (Z.eqb_spec (ncli c) 0); simpl; [done |]. rewrite Hif by lia. done.
Qed.

Lemma cpu_ok_after_push c : cpu_ok c → cpu_ok (after_push c) ∧ 0 < ncli (after_push c).
Proof. intros [H0 _]. unfold cpu_ok. simpl. split; [split; [lia | done] | lia]. Qed.

Lemma acq_enter_spec c lk :
  cpu_ok c →
  acq_enter (c, lk) =
    if locked lk && bool_decide (lk_cpu lk = Some (apicid c)) then Err (EPanic "acquire")
    else Ok (tt, (after_push c, lk)).
Proof.
  intros Hc. unfold acq_enter. erewrite bind_ok by reflexivity. erewrite bind_ok.
  2:{ apply (holding_spec (after_push c)). by apply cpu_ok_after_push. }
  simpl. case_match; [done |]. unfold mret, M_ret, after_push. destruct Hc.
  destruct (Z.eqb_spec (ncli c + 1) 0); [lia | done].
Qed.

(** Taking a free lock leaves it held by this CPU with interrupts off. *)
Lemma acquire_free c o :
  cpu_ok c →
  acquire (c, Lock false o) = Ok (tt, (after_push c, Lock true (Some (apicid c)))).
Proof. intros Hc. unfold acquire. erewrite bind_ok by (by rewrite acq_enter_spec). done. Qed.

(** Taking it twice panics. *)
Lemma acquire_self c :
  cpu_ok c → acquire (c, Lock true (Some (apicid c))) = Err (EPanic "acquire").
Proof.
  intros Hc. unfold acquire. erewrite bind_err; [done |].
  rewrite acq_enter_spec by done. simpl. by rewrite bool_decide_true.
Qed.

Lemma acquire_other c o :
  cpu_ok c → o ≠ Some (apicid c) → acquire (c, Lock true o) = Err EBlock.
Proof.
  intros Hc Ho. unfold acquire. erewrite bind_ok.
  2:{ rewrite acq_enter_spec by done. simpl. by rewrite bool_decide_false. }
  done.
Qed.

Lemma rel_check_spec c lk :
  cpu_ok c → 0 < ncli c →
  rel_check (c, lk) =
    if locked lk && bool_decide (lk_cpu lk = Some (apicid c)) then Ok (tt, (c, Lock true None))
    else Err (EPanic "release").
Proof.
  intros Hc Hn. unfold rel_check. erewrite bind_ok by (by apply holding_spec).
  destruct lk as [[] o]; simpl; [|done].
  case_bool_decide; simpl; [|done]. unfold modify. simpl. destruct c as [a i n e]. simpl in *.
  destruct (Z.eqb_spec n 0); [lia | done].
Qed.

Lemma rel_unlock_spec c lk :
  cpu_ok c → 0 < ncli c →
  rel_unlock (c, lk) =
    Ok (tt, (Cpu (apicid c) ((ncli c =? 1) && intena c) (ncli c - 1) (intena c),
             Lock false (lk_cpu lk))).
Proof.
  intros [H0 Hif] Hn. unfold rel_unlock, modify, on_cpu, zoom, popcli, mbind, M_bind. simpl.
  rewrite Hif by lia. destruct (Z.ltb_spec (ncli c - 1) 0); [lia |].
  replace (ncli c - 1 =? 0) with (ncli c =? 1) by (case_cmp; lia || done). done.
Qed.

Lemma release_held c :
  cpu_ok c → 0 < ncli c →
  release (c, Lock true (Some (apicid c))) =
    Ok (tt, (Cpu (apicid c) ((ncli c =? 1) && intena c) (ncli c - 1) (intena c), Lock false None)).
Proof.
  intros Hc Hn. unfold release. erewrite bind_ok by (by rewrite rel_check_spec, bool_decide_true).
  by rewrite rel_unlock_spec.
Qed.

Lemma release_not_held c lk :
  cpu_ok c → lk_cpu lk ≠ Some (apicid c) ∨ locked lk = false →
  release (c, lk) = Err (EPanic "release").
Proof.
  intros Hc Hlk. unfold release, rel_check. erewrite bind_err; [done |].
  erewrite bind_ok by (by apply holding_spec).
  destruct Hlk as [Hlk| ->]; [rewrite bool_decide_false by done |]; by rewrite ?andb_false_r.
Qed.

(** A critical section: the lock is free again and interrupts are as before. *)
Lemma acquire_release c o :
  cpu_ok c →
  ∃ c', (acquire;; release) (c, Lock false o) = Ok (tt, (c', Lock false None)) ∧
        eflags_if c' = eflags_if c ∧ ncli c' = ncli c ∧ apicid c' = apicid c ∧ cpu_ok c'.
Proof.
  intros Hc. pose proof Hc as [H0 Hif]. pose proof (cpu_ok_after_push c Hc) as [Hc' Hn'].
  erewrite bind_ok by (by apply acquire_free).
  change (apicid c) with (apicid (after_push c)) at 1.
  rewrite release_held by done. eexists. split; [done |]. unfold cpu_ok. simpl.
  replace (ncli c + 1 - 1) with (ncli c) by lia.
  replace (ncli c + 1 =? 1) with (ncli c =? 0) by (case_cmp; lia || done).
  destruct (Z.eqb_spec (ncli c) 0); simpl; [split_and!; lia || done |].
  rewrite Hif by lia. split_and!; lia || done.
Qed.

End Spin.

(** ** The lock shared by several CPUs *)

Module Smp.
Import Spin.

(** Where a CPU is with respect to the lock. *)
Inductive pc : Type :=
| Idle  (** not using the lock *)
| Spinning  (** in the [xchg] loop of [acquire] *)
| Got  (** left the loop, [lk->cpu] not set yet *)
| Crit  (** returned from [acquire] *)
| Rel.  (** [release] has cleared [lk->cpu], not yet [lk->locked] *)

Record smp : Type := Smp {
  sm_pc : Z → pc;
  sm_cpu : Z → cpu;
  sm_lk : spinlock;
}.

Definition upd {A} (f : Z → A) (i : Z) (x : A) : Z → A := λ j, if j =? i then x else f j.

(** CPU [i] runs [act] and moves to [p]. *)
Definition acts {A} (s : smp) (i : Z) (act : M (cpu * spinlock) A) (r : A) (p : pc) (s' : smp) : Prop :=
  ∃ c lk, act (sm_cpu s i, sm_lk s) = Ok (r, (c, lk)) ∧
          s' = Smp (upd (sm_pc s) i p) (upd (sm_cpu s) i c) lk.

(** One atomic action of one CPU. *)
Inductive step (s s' : smp) : Prop :=
| step_other i c :
    sm_pc s i = Idle → cpu_ok c → apicid c = i →
    s' = Smp (sm_pc s) (upd (sm_cpu s) i c) (sm_lk s) → step s s'
| step_enter i : sm_pc s i = Idle → acts s i acq_enter tt Spinning s' → step s s'
| step_spin i : sm_pc s i = Spinning → acts s i xchg1 true Spinning s' → step s s'
| step_got i : sm_pc s i = Spinning → acts s i xchg1 false Got s' → step s s'
| step_mark i : sm_pc s i = Got → acts s i acq_mark tt Crit s' → step s s'
| step_check i : sm_pc s i = Crit → acts s i rel_check tt Rel s' → step s s'
| step_unlock i : sm_pc s i = Rel → acts s i rel_unlock tt Idle s' → step s s'.

Definition init (s : smp) : Prop :=
  (∀ i, sm_pc s i = Idle ∧ apicid (sm_cpu s i) = i ∧ cpu_ok (sm_cpu s i)) ∧
  sm_lk s = initlock.

Definition reachable (s : smp) : Prop := ∃ s0, init s0 ∧ rtc step s0 s.

Definition owner (p : pc) : bool :=
  match p with Got | Crit | Rel => true | _ => false end.

Record inv (s : smp) : Prop := Inv {
  inv_cpu i : apicid (sm_cpu s i) = i ∧ cpu_ok (sm_cpu s i);
  inv_cli i : sm_pc s i ≠ Idle → 0 < ncli (sm_cpu s i);
  inv_own i j : owner (sm_pc s i) = true → owner (sm_pc s j) = true → i = j;
  inv_locked i : owner (sm_pc s i) = true → locked (sm_lk s) = true;
  inv_lkcpu i : lk_cpu (sm_lk s) = Some i ↔ sm_pc s i = Crit;
}.

Lemma upd_eq {A} (f : Z → A) i x : upd f i x i = x.
Proof. unfold upd. by rewrite Z.eqb_refl. Qed.
Lemma upd_ne {A} (f : Z → A) i j x : j ≠ i → upd f i x j = f j.
Proof. unfold upd. by destruct (Z.eqb_spec j i). Qed.

(** Moving CPU [i] to [p] with a new [struct cpu] and lock keeps the
    invariant under these conditions. *)
Lemma inv_move s i p c lk :
  inv s →
  apicid c = i → cpu_ok c → (p ≠ Idle → 0 < ncli c) →
  (owner p = true → locked lk = true ∧ ∀ j, owner (sm_pc s j) = true → j = i) →
  (∀ j, j ≠ i → owner (sm_pc s j) = true → locked lk = true) →
  (∀ j, lk_cpu lk = Some j ↔ upd (sm_pc s) i p j = Crit) →
  inv (Smp (upd (sm_pc s) i p) (upd (sm_cpu s) i c) lk).
Proof.
  intros [Hcpu Hcli Hown Hlk Hlc] Hid Hok Hn Hp Hoth Hcrit. constructor; simpl.
  - intros j. unfold upd. destruct (Z.eqb_spec j i) as [->|]; auto.
  - intros j. unfold upd. destruct (Z.eqb_spec j i) as [->|]; auto.
  - intros j k. unfold upd. destruct (Z.eqb_spec j i) as [->|], (Z.eqb_spec k i) as [->|];
      [done | | |]; intros H1 H2.
    + symmetry. by apply Hp.
    + by apply Hp.
    + by eapply Hown.
  - intros j. unfold upd. destruct (Z.eqb_spec j i) as [->|]; intros Hj; [by apply Hp |].
    by apply (Hoth j).
  - done.
Qed.

(** Where [lk->cpu] points, after a move that keeps or changes it. *)
Lemma crit_same s i p lk :
  inv s → sm_pc s i ≠ Crit → p ≠ Crit → lk_cpu lk = lk_cpu (sm_lk s) →
  ∀ j, lk_cpu lk = Some j ↔ upd (sm_pc s) i p j = Crit.
Proof.
  intros Hi H1 H2 -> j. rewrite (inv_lkcpu s Hi). unfold upd.
  destruct (Z.eqb_spec j i) as [->|]; naive_solver.
Qed.

Lemma step_inv s s' : inv s → step s s' → inv s'.
Proof.
  intros Hi Hs. pose proof Hi as [Hcpu Hcli Hown Hlk Hlc].
  destruct Hs as [i c Hpc Hok Hid -> | i Hpc Ha | i Hpc Ha | i Hpc Ha | i Hpc Ha | i Hpc Ha | i Hpc Ha];
    try destruct Ha as (c & lk & Ha & ->); destruct (Hcpu i) as [Hidi Hoki].
  - constructor; simpl; try done; intros j; unfold upd; destruct (Z.eqb_spec j i) as [->|]; auto.
    by rewrite Hpc.
  - rewrite acq_enter_spec in Ha by done. case_match; [done |]. simplify_eq.
    pose proof (cpu_ok_after_push _ Hoki) as [? ?].
    apply inv_move; eauto; [done |]. apply crit_same; try done. by rewrite Hpc.
  - unfold xchg1 in Ha. simplify_eq/=. apply inv_move; auto.
    + intros _. apply Hcli. by rewrite Hpc.
    + done.
    + apply crit_same; try done. by rewrite Hpc.
  - unfold xchg1 in Ha. simplify_eq/=. assert (∀ j, owner (sm_pc s j) = false) as Hno.
    { intros j. destruct (owner (sm_pc s j)) eqn:E; [|done]. apply Hlk in E. congruence. }
    apply inv_move; auto.
    + intros _. apply Hcli. by rewrite Hpc.
    + intros _. split; [done |]. intros j. by rewrite Hno.
    + apply crit_same; try done. by rewrite Hpc.
  - unfold acq_mark, modify in Ha. simplify_eq/=.
    assert (locked (sm_lk s) = true) as Hl by (apply (Hlk i); by rewrite Hpc).
    apply inv_move; auto.
    + intros _. apply Hcli. by rewrite Hpc.
    + intros _. split; [done |]. intros j Hj. apply Hown; [done | by rewrite Hpc].
    + intros j. simpl. rewrite Hidi. unfold upd. destruct (Z.eqb_spec j i) as [->|]; [done |].
      split; [naive_solver |]. intros Hj. exfalso. apply n, Hown; [by rewrite Hj | by rewrite Hpc].
  - rewrite rel_check_spec in Ha; [|done | apply Hcli; by rewrite Hpc].
    case_match; [|done]. simplify_eq/=. apply inv_move; auto.
    + intros _. apply Hcli. by rewrite Hpc.
    + intros _. split; [done |]. intros j Hj. apply Hown; [done | by rewrite Hpc].
    + intros j. simpl. unfold upd. destruct (Z.eqb_spec j i) as [->|]; [done |].
      split; [done |]. intros Hj. exfalso. apply n, Hown; [by rewrite Hj | by rewrite Hpc].
  - assert (0 < ncli (sm_cpu s i)) as Hn by (apply Hcli; by rewrite Hpc).
    rewrite rel_unlock_spec in Ha by done. simplify_eq/=. destruct Hoki as [? Hif].
    assert (∀ j, j ≠ i → owner (sm_pc s j) = false) as Hno.
    { intros j Hj. destruct (owner (sm_pc s j)) eqn:E; [|done]. exfalso. apply Hj, Hown; [done |].
      by rewrite Hpc. }
    apply inv_move; simpl; try done.
    + split; simpl; [lia |]. intros. destruct (Z.eqb_spec (ncli (sm_cpu s i)) 1); [lia | done].
    + intros j Hj. by rewrite Hno.
    + apply crit_same; try done. by rewrite Hpc.
Qed.

Lemma init_inv s : init s → inv s.
Proof.
  intros [H0 Hl]. constructor; intros i; destruct (H0 i) as (Hp & Hid & Hok).
  - done.
  - by rewrite Hp.
  - intros j. by rewrite Hp.
  - by rewrite Hp.
  - by rewrite Hl, Hp.
Qed.

Lemma reachable_inv s : reachable s → inv s.
Proof.
  intros (s0 & H0 & Hr). apply init_inv in H0. induction Hr; eauto using step_inv.
Qed.

End Smp.
