(* ===== verification/Kalloc.v ===== *)
(** * The physical page allocator ([kalloc.c])

    The free list is threaded through the free pages: the first word of each
    holds the kernel address of the next.  [kalloc_inv s l] says that the
    machine's free list is the list [l] of distinct, valid pages; each
    routine is specified by what it does to [l] and to memory. *)

From S2P Require Import Prelude Mmu Mem Spinlock.

(** ** State *)

(** Symbols placed by the linker script [kernel.ld]: where the kernel's data
    starts and where its image ends. *)
Class Linker := {
  k_data : Z;
  k_end : Z;
  k_data_aligned : k_data mod 4096 = 0;
  k_range : KERNLINK < k_data ∧ k_data ≤ k_end ∧ k_end + 4096 ≤ KERNBASE + 4 * 1024 * 1024;
}.

(** The values in [kernel.sym]. *)
Definition xv6_linker : Linker.
Proof.
  refine {| k_data := 0x8010b000; k_end := 0x80118e48 |};
    [reflexivity | unfold KERNLINK, KERNBASE, EXTMEM; lia].
Defined.

Record kmem : Type := Kmem {
  km_lock : spinlock;
  use_lock : bool;
  freelist : Z;
}.

(** The fields of the task-state segment [switchuvm] sets. *)
Record tss : Type := Tss {
  ts_ss0 : Z;
  ts_esp0 : Z;
  ts_iomb : Z;
}.

(** Physical memory, the page-directory register, the CPU with its task
    state, the allocator, and the kernel's own page directory. *)
Record mach : Type := Mach {
  m_mem : mem;
  m_cr3 : Z;
  m_cpu : cpu;
  m_tss : tss;
  m_kmem : kmem;
  m_kpgdir : Z;
}.

Definition set_mem (m : mem) (s : mach) : mach :=
  Mach m (m_cr3 s) (m_cpu s) (m_tss s) (m_kmem s) (m_kpgdir s).
Definition set_cr3 (r : Z) (s : mach) : mach :=
  Mach (m_mem s) r (m_cpu s) (m_tss s) (m_kmem s) (m_kpgdir s).
Definition set_cpu (c : cpu) (s : mach) : mach :=
  Mach (m_mem s) (m_cr3 s) c (m_tss s) (m_kmem s) (m_kpgdir s).
Definition set_tss (t : tss) (s : mach) : mach :=
  Mach (m_mem s) (m_cr3 s) (m_cpu s) t (m_kmem s) (m_kpgdir s).
Definition set_kmem (k : kmem) (s : mach) : mach :=
  Mach (m_mem s) (m_cr3 s) (m_cpu s) (m_tss s) k (m_kpgdir s).
Definition set_kpgdir (p : Z) (s : mach) : mach :=
  Mach (m_mem s) (m_cr3 s) (m_cpu s) (m_tss s) (m_kmem s) p.

(** Accesses through kernel pointers: every page table maps
    [KERNBASE..KERNBASE+PHYSTOP) to [0..PHYSTOP) (see [kmap] in [vm.c]). *)
Definition in_direct_map (p n : Z) : bool := (KERNBASE <=? p) && (p + n <=? KERNBASE + PHYSTOP).

Definition kld32 (p : Z) : M mach Z := λ s,
  if in_direct_map p 4 then Ok (ld32 (m_mem s) (V2P p), s) else Err (EFault p).
Definition kst32 (p v : Z) : M mach unit := λ s,
  if in_direct_map p 4 then Ok (tt, set_mem (st32 (m_mem s) (V2P p) v) s) else Err (EFault p).
Definition kmemset (p c n : Z) : M mach unit := λ s,
  if in_direct_map p n then Ok (tt, set_mem (memset (m_mem s) (V2P p) c n) s) else Err (EFault p).
Definition kmemmove (d p n : Z) : M mach unit := λ s,
  if in_direct_map d n && in_direct_map p n
  then Ok (tt, set_mem (memmove (m_mem s) (V2P d) (V2P p) n) s) else Err (EFault p).

(** ** Operations *)

Definition on_kmem_lock {A} : M (cpu * spinlock) A → M mach A :=
  zoom (λ s, (m_cpu s, km_lock (m_kmem s)))
       (λ t s, set_cpu t.1 (set_kmem (Kmem t.2 (use_lock (m_kmem s)) (freelist (m_kmem s))) s)).

Definition kmem_acquire : M mach unit :=
  ul ← gets (λ s, use_lock (m_kmem s));
  if ul : bool then on_kmem_lock Spin.acquire else mret tt.

Definition kmem_release : M mach unit :=
  ul ← gets (λ s, use_lock (m_kmem s));
  if ul : bool then on_kmem_lock Spin.release else mret tt.

Definition set_freelist (r : Z) : M mach unit :=
  modify (λ s, set_kmem (Kmem (km_lock (m_kmem s)) (use_lock (m_kmem s)) r) s).

Section Kalloc.
Context {L : Linker}.

Definition kfree (v : Z) : M mach unit :=
  if nz (v mod PGSIZE) || (v <? k_end) || (PHYSTOP <=? V2P v) then panic "kfree" else
  kmemset v 1 PGSIZE;;
  kmem_acquire;;
  fl ← gets (λ s, freelist (m_kmem s));
  kst32 v fl;;
  set_freelist v;;
  kmem_release.

Definition kalloc : M mach Z :=
  kmem_acquire;;
  r ← gets (λ s, freelist (m_kmem s));
  (if nz r then next ← kld32 r; set_freelist next else mret tt);;
  kmem_release;;
  mret r.

(** [for(; p + PGSIZE <= vend; p += PGSIZE) kfree(p)] *)
Fixpoint freerange_loop (fuel : nat) (p vend : Z) : M mach unit :=
  match fuel with
  | O => raise EFuel
  | S fuel =>
    if p + PGSIZE <=? vend then kfree p;; freerange_loop fuel (p + PGSIZE) vend else mret tt
  end.

Definition freerange (vstart vend : Z) : M mach unit :=
  let p := PGROUNDUP vstart in
  freerange_loop (S (Z.to_nat ((vend - p) / PGSIZE))) p vend.

Definition kinit1 (vstart vend : Z) : M mach unit :=
  modify (λ s, set_kmem (Kmem Spin.initlock false (freelist (m_kmem s))) s);;
  freerange vstart vend.

Definition kinit2 (vstart vend : Z) : M mach unit :=
  freerange vstart vend;;
  modify (λ s, set_kmem (Kmem (km_lock (m_kmem s)) true (freelist (m_kmem s))) s).

(** ** Invariant *)

(** A page the allocator may hand out, by its kernel address. *)
Definition page_ok (p : Z) : Prop :=
  p mod 4096 = 0 ∧ k_end ≤ p ∧ p < KERNBASE + PHYSTOP.

(** The bytes of the page at kernel address [p]. *)
Definition in_page (p x : Z) : Prop := V2P p ≤ x < V2P p + 4096.

Fixpoint flist (m : mem) (hd : Z) (l : list Z) : Prop :=
  match l with
  | [] => hd = 0
  | p :: l => hd = p ∧ flist m (ld32 m (V2P p)) l
  end.

Record kalloc_inv (s : mach) (l : list Z) : Prop := KallocInv {
  ki_list : flist (m_mem s) (freelist (m_kmem s)) l;
  ki_pages : Forall page_ok l;
  ki_nodup : NoDup l;
  ki_cpu : Spin.cpu_ok (m_cpu s);
  ki_lock : locked (km_lock (m_kmem s)) = false;
}.

(** What allocator calls leave alone: everything but memory contents and the
    allocator itself. *)
Definition same_hw (s s' : mach) : Prop :=
  m_cr3 s' = m_cr3 s ∧ m_tss s' = m_tss s ∧ m_kpgdir s' = m_kpgdir s ∧
  eflags_if (m_cpu s') = eflags_if (m_cpu s) ∧
  ncli (m_cpu s') = ncli (m_cpu s) ∧ apicid (m_cpu s') = apicid (m_cpu s).

#[global] Instance same_hw_preorder : PreOrder same_hw.
Proof.
  split.
  - intros s. by unfold same_hw.
  - unfold same_hw. intros s1 s2 s3 (?&?&?&?&?&?) (?&?&?&?&?&?). split_and!; congruence.
Qed.

(** ** Lemmas *)

Lemma page_ok_facts p :
  page_ok p → V2P p = p - KERNBASE ∧ 0 ≤ V2P p ∧ V2P p + 4096 ≤ PHYSTOP ∧
              V2P p mod 4096 = 0 ∧ 0 < p < 2 ^ 32 ∧ P2V (V2P p) = p.
Proof.
  intros (Ha & He & Hp). pose proof k_range as (H1 & H2 & H3).
  assert (V2P p = p - KERNBASE) as E.
  { apply V2P_eq. unfold KERNLINK, EXTMEM, KERNBASE, PHYSTOP in *. lia. }
  rewrite E. unfold KERNLINK, EXTMEM, KERNBASE, PHYSTOP in *.
  split_and!; try lia; try zdiv. rewrite P2V_eq; unfold KERNBASE; lia.
Qed.

Lemma page_ok_direct p n : page_ok p → 0 ≤ n ≤ 4096 → in_direct_map p n = true.
Proof.
  intros Hp Hn. pose proof (page_ok_facts p Hp) as (E & H0 & H1 & _ & H2 & _).
  unfold in_direct_map. rewrite E in *. case_cmp; lia || done.
Qed.

(** Distinct pages do not overlap. *)
Lemma in_page_disj p q x : page_ok p → page_ok q → in_page p x → in_page q x → p = q.
Proof.
  intros Hp Hq. pose proof (page_ok_facts p Hp) as (Ep & ? & ? & ? & _).
  pose proof (page_ok_facts q Hq) as (Eq & ? & ? & ? & _). unfold in_page. intros. zdiv.
Qed.

Lemma flist_ext m m' hd l :
  (∀ p x, p ∈ l → in_page p x → rd m' x = rd m x) → flist m hd l → flist m' hd l.
Proof.
  revert hd. induction l as [|p l IH]; intros hd H; [done |]. simpl. intros [-> Hl].
  split; [done |]. rewrite (ld32_ext m).
  - apply IH; [|done]. intros q x Hq. apply H. set_solver.
  - intros x Hx. apply (H p); [set_solver | unfold in_page; lia].
Qed.

(** The invariant only depends on memory inside the free pages. *)
Lemma kalloc_inv_ext s s' l :
  (∀ p x, p ∈ l → in_page p x → rd (m_mem s') x = rd (m_mem s) x) →
  m_kmem s' = m_kmem s → m_cpu s' = m_cpu s → kalloc_inv s l → kalloc_inv s' l.
Proof.
  intros H Ek Ec [H1 H2 H3 H4 H5]. constructor; rewrite ?Ek, ?Ec; try done.
  by eapply flist_ext.
Qed.

(** Inside the critical section: this CPU and the lock. *)
Definition in_section (s : mach) (c : cpu) (lk : spinlock) : Prop :=
  if use_lock (m_kmem s)
  then c = Spin.after_push (m_cpu s) ∧ lk = Lock true (Some (apicid (m_cpu s)))
  else c = m_cpu s ∧ lk = km_lock (m_kmem s).

Lemma kmem_acquire_spec s :
  Spin.cpu_ok (m_cpu s) → locked (km_lock (m_kmem s)) = false →
  ∃ c lk, kmem_acquire s =
    Ok (tt, set_cpu c (set_kmem (Kmem lk (use_lock (m_kmem s)) (freelist (m_kmem s))) s)) ∧
    in_section s c lk.
Proof.
  intros Hc Hl. unfold kmem_acquire, in_section. destruct s as [m r c t [lk ul fl] kp]. simpl in *.
  destruct ul.
  - exists (Spin.after_push c), (Lock true (Some (apicid c))). split; [|done].
    erewrite bind_ok by reflexivity. simpl. unfold on_kmem_lock, zoom. simpl.
    destruct lk as [[] o]; [done |]. by rewrite Spin.acquire_free.
  - by exists c, lk.
Qed.

(** Taking and giving back the lock around a step that keeps the CPU and the
    lock leaves the CPU as it was and the lock free. *)
Lemma kmem_release_spec m fl s c lk :
  Spin.cpu_ok (m_cpu s) → locked (km_lock (m_kmem s)) = false → in_section s c lk →
  ∃ c' lk', kmem_release (set_mem m (set_cpu c (set_kmem (Kmem lk (use_lock (m_kmem s)) fl) s))) =
      Ok (tt, set_mem m (set_cpu c' (set_kmem (Kmem lk' (use_lock (m_kmem s)) fl) s))) ∧
    locked lk' = false ∧ Spin.cpu_ok c' ∧ eflags_if c' = eflags_if (m_cpu s) ∧
    ncli c' = ncli (m_cpu s) ∧ apicid c' = apicid (m_cpu s).
Proof.
  intros Hc Hl. unfold kmem_release, in_section. destruct (use_lock (m_kmem s)).
  - intros [-> ->]. destruct (Spin.acquire_release (m_cpu s) None Hc) as (c' & E & ?&?&?&?).
    erewrite bind_ok in E by (by apply Spin.acquire_free).
    exists c', (Lock false None). erewrite bind_ok by reflexivity. simpl.
    unfold on_kmem_lock, zoom. simpl. rewrite E. done.
  - intros [-> ->]. by eexists _, _.
Qed.

(** Contract of [kalloc]: the first free page, or 0 when there is none. *)
Lemma kalloc_spec s l :
  kalloc_inv s l →
  wp kalloc s (λ r s', m_mem s' = m_mem s ∧ same_hw s s' ∧
    match l with
    | [] => r = 0 ∧ kalloc_inv s' []
    | p :: l' => r = p ∧ kalloc_inv s' l'
    end).
Proof.
  intros [Hl Hp Hn Hc Hk]. destruct (kmem_acquire_spec s Hc Hk) as (c & lk & E & Hcl).
  apply wp_bind. eapply wp_intro; [exact E |]. apply wp_bind, wp_gets. simpl.
  destruct l as [|p l'].
  - simpl in Hl. rewrite Hl. simpl. apply wp_bind, wp_ret, wp_bind.
    destruct (kmem_release_spec (m_mem s) 0 s c lk Hc Hk Hcl)
      as (c' & lk' & E' & ? & ? & ? & ? & ?).
    eapply wp_intro; [exact E' |]. apply wp_ret. simpl. split_and!; try done.
  - simpl in Hl. destruct Hl as [-> Hl]. apply list.Forall_cons in Hp as [Hp Hp'].
    apply list.NoDup_cons in Hn as [_ Hn']. pose proof (page_ok_facts p Hp) as (_&_&_&_&?&_).
    unfold nz. destruct (Z.eqb_spec p 0); [lia |]. simpl. apply wp_bind, wp_bind.
    eapply wp_intro. { unfold kld32. by rewrite page_ok_direct by (done || lia). }
    simpl. apply wp_modify, wp_bind. simpl.
    destruct (kmem_release_spec (m_mem s) (ld32 (m_mem s) (V2P p)) s c lk Hc Hk Hcl)
      as (c' & lk' & E' & ? & ? & ? & ? & ?).
    eapply wp_intro; [exact E' |]. apply wp_ret. simpl. split_and!; done.
Qed.

(** Contract of [kfree]: a valid page that is not free becomes the first free
    page; only its contents change. *)
Lemma kfree_spec s l v :
  kalloc_inv s l → page_ok v → v ∉ l →
  wp (kfree v) s (λ _ s',
    kalloc_inv s' (v :: l) ∧ same_hw s s' ∧
    ∀ x, ¬ in_page v x → rd (m_mem s') x = rd (m_mem s) x).
Proof.
  intros [Hl Hp Hn Hc Hk] Hv Hvl. pose proof (page_ok_facts v Hv) as (Ev & H0 & Htop & Hal & Hv32 & _).
  pose proof Hv as (Hmod & Hend & _). unfold kfree.
  unfold nz. change PGSIZE with 4096. rewrite Hmod. simpl.
  destruct (Z.ltb_spec v k_end); [lia |]. destruct (Z.leb_spec PHYSTOP (V2P v)); [lia |]. simpl.
  apply wp_bind. eapply wp_intro. { unfold kmemset. by rewrite page_ok_direct by (done || lia). }
  set (m1 := memset (m_mem s) (V2P v) 1 4096).
  destruct (kmem_acquire_spec (set_mem m1 s) Hc Hk) as (c & lk & E & Hcl).
  apply wp_bind. eapply wp_intro; [exact E |]. apply wp_bind, wp_gets. simpl.
  apply wp_bind. eapply wp_intro. { unfold kst32. by rewrite page_ok_direct by (done || lia). }
  apply wp_bind, wp_modify. simpl. set (m2 := st32 m1 (V2P v) (freelist (m_kmem s))).
  destruct (kmem_release_spec m2 v (set_mem m1 s) c lk Hc Hk Hcl)
    as (c' & lk' & E' & ? & ? & ? & ? & ?).
  eapply wp_intro; [exact E' |]. simpl.
  assert (∀ x, ¬ in_page v x → rd m2 x = rd (m_mem s) x) as Hout.
  { intros x Hx. unfold in_page in Hx. unfold m2. rewrite rd_st32_out by lia.
    unfold m1. rewrite rd_memset by lia. case_cmp; simpl; lia || done. }
  split_and!; try done. constructor; simpl; try done.
  - split; [done |]. unfold m2. rewrite ld32_st32, u32_id.
    + eapply flist_ext; [|exact Hl]. intros p x Hpl Hx. apply Hout. intros Hx'.
      rewrite list.Forall_forall in Hp. by rewrite (in_page_disj v p x Hv (Hp _ Hpl) Hx' Hx) in Hvl.
    + destruct l as [|p l]; simpl in Hl; [lia |]. destruct Hl as [-> _].
      apply list.Forall_cons in Hp as [Hp _]. pose proof (page_ok_facts p Hp). lia.
  - by constructor.
  - by constructor.
Qed.

(** [n] consecutive pages from [p]. *)
Definition pages (p : Z) (n : nat) : list Z := (λ i, p + 4096 * Z.of_nat i) <$> seq 0 n.

Lemma pages_S p n : pages p (S n) = p :: pages (p + 4096) n.
Proof.
  unfold pages. simpl. f_equal; [lia |]. rewrite <- seq_shift, <- list_fmap_compose.
  apply list_fmap_ext. intros i x _. simpl. lia.
Qed.

Lemma elem_of_pages p n q :
  q ∈ pages p n ↔ ∃ i, 0 ≤ i < Z.of_nat n ∧ q = p + 4096 * i.
Proof.
  unfold pages. rewrite list_elem_of_fmap. setoid_rewrite elem_of_seq. split.
  - intros (i & -> & Hi). exists (Z.of_nat i). lia.
  - intros (i & Hi & ->). exists (Z.to_nat i). lia.
Qed.

Lemma pages_page_ok p n :
  p mod 4096 = 0 → k_end ≤ p → p + 4096 * Z.of_nat n ≤ KERNBASE + PHYSTOP →
  Forall page_ok (pages p n).
Proof.
  intros Ha He Ht. apply list.Forall_forall. intros q (i & Hi & ->)%elem_of_pages.
  split_and!; [zdiv | lia | lia].
Qed.

Lemma freerange_loop_spec n s l p vend fuel :
  kalloc_inv s l → p mod 4096 = 0 → k_end ≤ p → vend ≤ KERNBASE + PHYSTOP →
  p + 4096 * Z.of_nat n ≤ vend < p + 4096 * Z.of_nat n + 4096 → (n < fuel)%nat →
  (∀ q, q ∈ pages p n → q ∉ l) →
  wp (freerange_loop fuel p vend) s (λ _ s', kalloc_inv s' (reverse (pages p n) ++ l) ∧ same_hw s s').
Proof.
  revert s l p fuel. induction n as [|n IH]; intros s l p fuel Hi Ha He Ht Hv Hf Hd;
    (destruct fuel as [|fuel]; [lia |]); cbn [freerange_loop]; unfold PGSIZE.
  - destruct (Z.leb_spec (p + 4096) vend); [lia |]. by apply wp_ret.
  - destruct (Z.leb_spec (p + 4096) vend); [|lia]. rewrite pages_S in Hd |- *.
    assert (page_ok p) as Hp by (split_and!; lia).
    apply wp_bind. eapply wp_mono; [apply kfree_spec; [exact Hi | done | apply Hd; set_solver] |].
    intros _ s1 (Hi1 & Hw1 & _). eapply wp_mono; [apply (IH s1 (p :: l)); try lia; try done |].
    + zdiv.
    + intros q Hq. apply not_elem_of_cons. split; [|apply Hd; set_solver].
      apply elem_of_pages in Hq as (i & ? & ->). lia.
    + intros _ s2 [Hi2 Hw2]. split; [|by etrans].
      by rewrite reverse_cons, <- (assoc_L (++)).
Qed.

(** [freerange] puts every whole page of the area on the free list, once. *)
Lemma freerange_spec s l vstart vend :
  kalloc_inv s l → k_end ≤ vstart → vstart + 4096 ≤ vend → vend ≤ KERNBASE + PHYSTOP →
  (∀ q, q ∈ l → q < vstart ∨ vend ≤ q) →
  wp (freerange vstart vend) s (λ _ s', ∃ l', kalloc_inv s' (l' ++ l) ∧ same_hw s s' ∧
    ∀ q, q ∈ l' ↔ q mod 4096 = 0 ∧ vstart ≤ q ∧ q + 4096 ≤ vend).
Proof.
  intros Hi He Hs Ht Hd. unfold freerange. pose proof k_range as (Hr1 & Hr2 & _).
  unfold KERNLINK, EXTMEM, KERNBASE, PHYSTOP in *.
  assert (PGROUNDUP vstart = (vstart + 4095) - (vstart + 4095) mod 4096) as Hp
    by (apply PGROUNDUP_eq; lia).
  set (p := PGROUNDUP vstart) in *. clearbody p.
  assert (p mod 4096 = 0 ∧ vstart ≤ p ≤ vstart + 4095) as [Ha Hb] by (split; zdiv).
  set (n := Z.to_nat ((vend - p) / PGSIZE)).
  assert (Z.of_nat n = (vend - p) / 4096) as Hn.
  { unfold n. rewrite Z2Nat.id; [done |]. apply Z.div_pos; [zdiv | unfold PGSIZE; lia]. }
  eapply wp_mono.
  - apply (freerange_loop_spec n s l p); try done; unfold KERNBASE, PHYSTOP; try lia; [zdiv |].
    intros q (i & ? & ->)%elem_of_pages Hq. apply Hd in Hq. zdiv.
  - intros _ s' [Hi' Hw]. exists (reverse (pages p n)). split_and!; [done.. |].
    intros q. rewrite elem_of_reverse, elem_of_pages. split.
    + intros (i & ? & ->). split_and!; zdiv.
    + intros (? & ? & ?). exists ((q - p) / 4096). split; zdiv.
Qed.

(** Boot: after [kinit1] and [kinit2] the free list holds exactly the whole
    pages between the end of the kernel and the top of physical memory. *)
Lemma kinit_spec s :
  freelist (m_kmem s) = 0 → Spin.cpu_ok (m_cpu s) →
  wp (kinit1 k_end (P2V (4 * 1024 * 1024));; kinit2 (P2V (4 * 1024 * 1024)) (P2V PHYSTOP)) s
    (λ _ s', use_lock (m_kmem s') = true ∧ ∃ l, kalloc_inv s' l ∧
       ∀ q, q ∈ l ↔ q mod 4096 = 0 ∧ k_end ≤ q ∧ q + 4096 ≤ KERNBASE + PHYSTOP).
Proof.
  intros Hf Hc. pose proof k_range as (Hr1 & Hr2 & Hr3).
  change (P2V (4 * 1024 * 1024)) with (KERNBASE + 4194304).
  change (P2V PHYSTOP) with (KERNBASE + PHYSTOP).
  apply wp_bind. unfold kinit1. apply wp_bind, wp_modify. eapply wp_mono.
  { apply (freerange_spec _ []); unfold KERNBASE, PHYSTOP in *; try lia; [|set_solver].
    constructor; simpl; try done; constructor. }
  intros _ s1 (l1 & Hi1 & _ & Hl1). rewrite app_nil_r in Hi1. apply wp_bind. eapply wp_mono.
  { apply (freerange_spec _ l1); unfold KERNBASE, PHYSTOP in *; try lia; [done |].
    intros q (? & ? & ?)%Hl1. lia. }
  intros _ s2 (l2 & Hi2 & _ & Hl2). apply wp_modify. split; [done |]. exists (l2 ++ l1). split.
  - destruct Hi2. by constructor.
  - intros q. rewrite elem_of_app, Hl1, Hl2. unfold KERNBASE, PHYSTOP in *. split; [lia |].
    intros (Hq & ? & ?). destruct (Z.lt_ge_cases q (0x80000000 + 4194304)); [right | left; lia].
    split_and!; try lia. zdiv.
Qed.

End Kalloc.
