(* ===== verification/Vm.v ===== *)
(** * Virtual memory ([vm.c], up to [copyout])

    Page directories and page tables live in the modelled physical memory;
    the code walks them with 32-bit loads and stores.  This file holds the
    operations; what they do to an address space is proved in [VmSpec]. *)

From S2P Require Import Prelude Mmu Mem Spinlock Kalloc.

(** ** The paging hardware

    A supervisor access to a user address goes through the page directory in
    CR3: both levels must be present, and writable for a store (the kernel
    runs with CR0.WP).  A completed access sets the accessed bit of the page's
    entry.  This is a walk of the page table; the translation cache in front of
    it is in [Access], for the accesses of a user program.  The dirty bit is not
    modelled. *)

Definition mmu_translate (write user : bool) (va : Z) : M mach Z := λ s,
  let m := m_mem s in
  let pde := ld32 m (PTE_ADDR (m_cr3 s) + 4 * PDX va) in
  let loc := PTE_ADDR pde + 4 * PTX va in
  let pte := ld32 m loc in
  let allows f := nz (Z.land pde f) && nz (Z.land pte f) in
  if allows PTE_P && implb write (allows PTE_W) && implb user (allows PTE_U)
  then Ok (PTE_ADDR pte + OFFSET va, set_mem (st32 m loc (Z.lor pte PTE_A)) s)
  else Err (EFault va).

(** Kernel-mode access through a pointer: kernel addresses by the direct map,
    user addresses by the current page table. *)
Definition kva (write : bool) (va : Z) : M mach Z :=
  if in_direct_map va 1 then mret (V2P va)
  else if (0 <=? va) && (va <? KERNBASE) then mmu_translate write false va
  else raise (EFault va).

Definition load8 (va : Z) : M mach Z := pa ← kva false va; gets (λ s, rd (m_mem s) pa).
Definition store8 (va v : Z) : M mach unit :=
  pa ← kva true va; modify (λ s, set_mem (wr (m_mem s) pa v) s).

Definition load32 (va : Z) : M mach Z :=
  if in_direct_map va 4 then kld32 va
  else
    b0 ← load8 va; b1 ← load8 (u32 (va + 1));
    b2 ← load8 (u32 (va + 2)); b3 ← load8 (u32 (va + 3));
    mret (b0 + 2 ^ 8 * b1 + 2 ^ 16 * b2 + 2 ^ 24 * b3).

Definition store32 (va v : Z) : M mach unit :=
  if in_direct_map va 4 then kst32 va v
  else
    store8 va v;; store8 (u32 (va + 1)) (Z.shiftr v 8);;
    store8 (u32 (va + 2)) (Z.shiftr v 16);; store8 (u32 (va + 3)) (Z.shiftr v 24).

(** [memmove] on pointers that may be user addresses. *)
Fixpoint vcopy_up (d s : Z) (n : nat) : M mach unit :=
  match n with
  | O => mret tt
  | S n => b ← load8 s; store8 d b;; vcopy_up (u32 (d + 1)) (u32 (s + 1)) n
  end.

Fixpoint vcopy_down (d s : Z) (n : nat) : M mach unit :=
  match n with
  | O => mret tt
  | S n => b ← load8 (s - 1); store8 (d - 1) b;; vcopy_down (d - 1) (s - 1) n
  end.

Definition vmemmove (dst src n : Z) : M mach unit :=
  if in_direct_map dst n && in_direct_map src n then kmemmove dst src n
  else if (src <? dst) && (dst <? src + n) then vcopy_down (dst + n) (src + n) (Z.to_nat n)
  else vcopy_up dst src (Z.to_nat n).

(** ** [vm.c] *)

Section Vm.
Context {L : Linker}.

Definition walkpgdir (pgdir va : Z) (alloc : bool) : M mach Z :=
  let pde := u32 (pgdir + 4 * PDX va) in
  e ← load32 pde;
  if nz (Z.land e PTE_P) then
    mret (u32 (P2V (PTE_ADDR e) + 4 * PTX va))
  else if negb alloc then mret 0
  else
    pgtab ← kalloc;
    if pgtab =? 0 then mret 0 else
    kmemset pgtab 0 PGSIZE;;
    store32 pde (Z.lor (Z.lor (Z.lor (V2P pgtab) PTE_P) PTE_W) PTE_U);;
    mret (u32 (pgtab + 4 * PTX va)).

Fixpoint mappages_loop (fuel : nat) (pgdir a last pa perm : Z) : M mach Z :=
  match fuel with
  | O => raise EFuel
  | S fuel =>
    pte ← walkpgdir pgdir a true;
    if pte =? 0 then mret (-1) else
    v ← load32 pte;
    if nz (Z.land v (Z.lor PTE_P PTE_E)) then panic "p4Debug, remapping page" else
    (if nz (Z.land perm PTE_E) then store32 pte (Z.lor (Z.lor pa perm) PTE_E)
     else store32 pte (Z.lor (Z.lor pa perm) PTE_P));;
    if a =? last then mret 0
    else mappages_loop fuel pgdir (u32 (a + PGSIZE)) last (u32 (pa + PGSIZE)) perm
  end.

(** The loop visits every page from the first to the last once, going round
    the end of the address space if need be. *)
Definition mappages (pgdir va size pa perm : Z) : M mach Z :=
  let a := PGROUNDDOWN va in
  let last := PGROUNDDOWN (u32 (va + size - 1)) in
  mappages_loop (S (Z.to_nat (u32 (last - a) / PGSIZE))) pgdir a last pa perm.

Fixpoint deallocuvm_loop (fuel : nat) (pgdir a oldsz : Z) : M mach unit :=
  match fuel with
  | O => raise EFuel
  | S fuel =>
    if a <? oldsz then
      pte ← walkpgdir pgdir a false;
      if pte =? 0 then
        deallocuvm_loop fuel pgdir (u32 (u32 (PGADDR (PDX a + 1) 0 0 - PGSIZE) + PGSIZE)) oldsz
      else
        v ← load32 pte;
        (if nz (Z.land v (Z.lor PTE_P PTE_E)) then
           let pa := PTE_ADDR v in
           if pa =? 0 then panic "kfree" else
           kfree (P2V pa);;
           store32 pte 0
         else mret tt);;
        deallocuvm_loop fuel pgdir (u32 (a + PGSIZE)) oldsz
    else mret tt
  end.

(** Each round moves at least one page up, so one round more than there are
    pages below [oldsz] is enough. *)
Definition deallocuvm (pgdir oldsz newsz : Z) : M mach Z :=
  if oldsz <=? newsz then mret oldsz else
  deallocuvm_loop (Z.to_nat (oldsz / PGSIZE + 2)) pgdir (PGROUNDUP newsz) oldsz;;
  mret newsz.

(** [for(i = 0; i < NPDENTRIES; i++)] of [freevm], with [n] entries left. *)
Fixpoint freevm_loop (pgdir i : Z) (n : nat) : M mach unit :=
  match n with
  | O => mret tt
  | S n =>
    e ← load32 (u32 (pgdir + 4 * i));
    (if nz (Z.land e (Z.lor PTE_P PTE_E)) then kfree (P2V (PTE_ADDR e)) else mret tt);;
    freevm_loop pgdir (i + 1) n
  end.

Definition freevm (pgdir : Z) : M mach unit :=
  if pgdir =? 0 then panic "freevm: no pgdir" else
  deallocuvm pgdir KERNBASE 0;;
  freevm_loop pgdir 0 (Z.to_nat NPDENTRIES);;
  kfree pgdir.

Record kmap_entry : Type := Kmap {
  k_virt : Z;
  k_phys_start : Z;
  k_phys_end : Z;
  k_perm : Z;
}.

Definition kmap : list kmap_entry := [
  Kmap KERNBASE 0 EXTMEM PTE_W;
  Kmap KERNLINK (V2P KERNLINK) (V2P k_data) 0;
  Kmap k_data (V2P k_data) PHYSTOP PTE_W;
  Kmap DEVSPACE DEVSPACE 0 PTE_W
].

Fixpoint setupkvm_loop (pgdir : Z) (ks : list kmap_entry) : M mach Z :=
  match ks with
  | [] => mret pgdir
  | k :: ks =>
    r ← mappages pgdir (k_virt k) (u32 (k_phys_end k - k_phys_start k)) (k_phys_start k) (k_perm k);
    if r <? 0 then freevm pgdir;; mret 0 else setupkvm_loop pgdir ks
  end.

Definition setupkvm : M mach Z :=
  pgdir ← kalloc;
  if pgdir =? 0 then mret 0 else
  kmemset pgdir 0 PGSIZE;;
  if DEVSPACE <? P2V PHYSTOP then panic "PHYSTOP too high" else
  setupkvm_loop pgdir kmap.

Definition switchkvm : M mach unit := modify (λ s, set_cr3 (V2P (m_kpgdir s)) s).

Definition kvmalloc : M mach unit :=
  p ← setupkvm;
  modify (set_kpgdir p);;
  switchkvm.

Definition on_cpu {A} : M cpu A → M mach A := zoom m_cpu set_cpu.

Definition SEG_KDATA : Z := 2.

(** [switchuvm], by the fields of [struct proc] it reads; [None] is a null
    process.  The TSS descriptor it writes to the GDT is a constant of the
    CPU and is left out. *)
Definition switchuvm (p : option (Z * Z)) : M mach unit :=
  match p with
  | None => panic "switchuvm: no process"
  | Some (kstack, pgdir) =>
    if kstack =? 0 then panic "switchuvm: no kstack" else
    if pgdir =? 0 then panic "switchuvm: no pgdir" else
    on_cpu Spin.pushcli;;
    modify (set_tss (Tss (Z.shiftl SEG_KDATA 3) (u32 (kstack + KSTACKSIZE)) 0xFFFF));;
    modify (set_cr3 (V2P pgdir));;
    on_cpu Spin.popcli
  end.

(** [init] is the address of the initial code. *)
Definition inituvm (pgdir init sz : Z) : M mach unit :=
  if PGSIZE <=? sz then panic "inituvm: more than a page" else
  mem ← kalloc;
  kmemset mem 0 PGSIZE;;
  _ ← mappages pgdir 0 PGSIZE (V2P mem) (Z.lor PTE_W PTE_U);
  vmemmove mem init sz.

(** [loaduvm], with the file system's [readi] on the program's inode.  The
    state [T] has the machine as a part, reached by [onm]. *)
Fixpoint loaduvm_loop {T} (onm : ∀ A, M mach A → M T A) (readi : Z → Z → Z → M T Z)
    (fuel : nat) (pgdir addr offset i sz : Z) : M T Z :=
  match fuel with
  | O => raise EFuel
  | S fuel =>
    if i <? sz then
      pte ← onm _ (walkpgdir pgdir (u32 (addr + i)) false);
      if pte =? 0 then panic "loaduvm: address should exist" else
      v ← onm _ (load32 pte);
      let pa := PTE_ADDR v in
      let n := if sz - i <? PGSIZE then sz - i else PGSIZE in
      r ← readi (P2V pa) (u32 (offset + i)) n;
      if negb (r =? n) then mret (-1)
      else loaduvm_loop onm readi fuel pgdir addr offset (i + PGSIZE) sz
    else mret 0
  end.

Definition loaduvm {T} (onm : ∀ A, M mach A → M T A) (readi : Z → Z → Z → M T Z)
    (pgdir addr offset sz : Z) : M T Z :=
  if nz (addr mod PGSIZE) then panic "loaduvm: addr must be page aligned" else
  loaduvm_loop onm readi (S (Z.to_nat ((sz + PGSIZE - 1) / PGSIZE))) pgdir addr offset 0 sz.

Fixpoint allocuvm_loop (fuel : nat) (pgdir a oldsz newsz : Z) : M mach Z :=
  match fuel with
  | O => raise EFuel
  | S fuel =>
    if a <? newsz then
      mem ← kalloc;
      if mem =? 0 then deallocuvm pgdir newsz oldsz;; mret 0 else
      kmemset mem 0 PGSIZE;;
      r ← mappages pgdir a PGSIZE (V2P mem) (Z.lor PTE_W PTE_U);
      if r <? 0 then deallocuvm pgdir newsz oldsz;; kfree mem;; mret 0
      else allocuvm_loop fuel pgdir (u32 (a + PGSIZE)) oldsz newsz
    else mret newsz
  end.

Definition allocuvm (pgdir oldsz newsz : Z) : M mach Z :=
  if KERNBASE <=? newsz then mret 0 else
  if newsz <? oldsz then mret oldsz else
  let a := PGROUNDUP oldsz in
  allocuvm_loop (S (Z.to_nat ((newsz - a + PGSIZE - 1) / PGSIZE))) pgdir a oldsz newsz.

Definition clearpteu (pgdir uva : Z) : M mach unit :=
  pte ← walkpgdir pgdir uva false;
  if pte =? 0 then panic "clearpteu" else
  v ← load32 pte;
  store32 pte (Z.land v (Z.lnot PTE_U)).

Fixpoint copyuvm_loop (fuel : nat) (d pgdir i sz : Z) : M mach Z :=
  match fuel with
  | O => raise EFuel
  | S fuel =>
    if i <? sz then
      pte ← walkpgdir pgdir i false;
      if pte =? 0 then panic "p4Debug: inside copyuvm, pte should exist" else
      v ← load32 pte;
      if negb (nz (Z.land v (Z.lor PTE_P PTE_E))) then
        panic "p4Debug: inside copyuvm, page not present"
      else
      let pa := PTE_ADDR v in
      let flags := PTE_FLAGS v in
      mem ← kalloc;
      if mem =? 0 then freevm d;; mret 0 else
      kmemmove mem (P2V pa) PGSIZE;;
      r ← mappages d i PGSIZE (V2P mem) flags;
      if r <? 0 then kfree mem;; freevm d;; mret 0
      else copyuvm_loop fuel d pgdir (u32 (i + PGSIZE)) sz
    else mret d
  end.

Definition copyuvm (pgdir sz : Z) : M mach Z :=
  d ← setupkvm;
  if d =? 0 then mret 0 else
  copyuvm_loop (S (Z.to_nat ((sz + PGSIZE - 1) / PGSIZE))) d pgdir 0 sz.

(** The entry is read even when [walkpgdir] returned a null pointer. *)
Definition uva2ka (pgdir uva : Z) : M mach Z :=
  pte ← walkpgdir pgdir uva false;
  v1 ← load32 pte;
  if negb (nz (Z.lor (Z.land v1 PTE_P) (Z.land v1 PTE_E))) then mret 0 else
  v2 ← load32 pte;
  if negb (nz (Z.land v2 PTE_U)) then mret 0 else
  v3 ← load32 pte;
  mret (P2V (PTE_ADDR v3)).

Fixpoint copyout_loop (fuel : nat) (pgdir va buf len : Z) : M mach Z :=
  match fuel with
  | O => raise EFuel
  | S fuel =>
    if 0 <? len then
      let va0 := PGROUNDDOWN va in
      pa0 ← uva2ka pgdir va0;
      if pa0 =? 0 then mret (-1) else
      let n := PGSIZE - (va - va0) in
      let n := if len <? n then len else n in
      vmemmove (u32 (pa0 + (va - va0))) buf n;;
      copyout_loop fuel pgdir (u32 (va0 + PGSIZE)) (u32 (buf + n)) (len - n)
    else mret 0
  end.

(** Every round but the first copies a whole page or ends the copy. *)
Definition copyout (pgdir va p len : Z) : M mach Z :=
  copyout_loop (Z.to_nat (len / PGSIZE + 3)) pgdir va p len.

End Vm.
