(* ===== verification/VmSpec.v ===== *)
(** * Address spaces: what the operations of [vm.c] do

    A page directory in memory is read as an abstract address space: the
    function [pte] from virtual addresses to page-table entries.  [aspace]
    is the ownership invariant: the directory, the page tables and the user
    frames are distinct valid pages, none of them on the allocator's free
    list.  The operations are specified by their effect on [pte], on the free
    list and on the contents of pages. *)

From S2P Require Import Prelude Mmu Mem Spinlock Kalloc Vm.

Section VmSpec.
Context {L : Linker}.

(** ** Abstract view of a page directory *)

Definition pde (m : mem) (pgdir i : Z) : Z := ld32 m (V2P pgdir + 4 * i).

(** The page table of directory entry [i], by its kernel address. *)
Definition tab (m : mem) (pgdir i : Z) : option Z :=
  if (0 <=? i) && (i <? 1024) && Z.testbit (pde m pgdir i) 0
  then Some (P2V (PTE_ADDR (pde m pgdir i))) else None.

Definition pte (m : mem) (pgdir va : Z) : Z :=
  match tab m pgdir (PDX va) with
  | Some t => ld32 m (V2P t + 4 * PTX va)
  | None => 0
  end.

(** A page is mapped when it is present or encrypted. *)
Definition mapped (p : Z) : bool := Z.testbit p 0 || Z.testbit p 10.

(** The pages an address space owns: its directory, its tables, and the
    frames of the user pages, by virtual page number. *)
Inductive slot : Type :=
| SDir
| STab (i : Z)
| SFrame (v : Z).

#[global] Instance slot_eq_dec : EqDecision slot.
Proof. solve_decision. Defined.

Definition slot_page (m : mem) (pgdir : Z) (sl : slot) : option Z :=
  match sl with
  | SDir => Some pgdir
  | STab i => tab m pgdir i
  | SFrame v =>
    if (0 <=? v) && (v <? 2 ^ 19) && mapped (pte m pgdir (4096 * v))
    then Some (P2V (PTE_ADDR (pte m pgdir (4096 * v)))) else None
  end.

Record aspace (m : mem) (pgdir : Z) (l : list Z) : Prop := Aspace {
  as_page sl p : slot_page m pgdir sl = Some p → page_ok p ∧ p ∉ l;
  as_inj sl1 sl2 p : slot_page m pgdir sl1 = Some p → slot_page m pgdir sl2 = Some p → sl1 = sl2;
  as_clean i : 0 ≤ i < 1024 → tab m pgdir i = None → Z.testbit (pde m pgdir i) 10 = false;
  as_rw i t : tab m pgdir i = Some t →
    Z.testbit (pde m pgdir i) 1 = true ∧ Z.testbit (pde m pgdir i) 2 = true;
}.

(** The directory and its tables are valid pages. *)
Definition dir_ok (m : mem) (pgdir : Z) : Prop :=
  page_ok pgdir ∧ ∀ i t, tab m pgdir i = Some t → page_ok t.

(** [p] is the directory or one of its tables. *)
Definition is_table (m : mem) (pgdir p : Z) : Prop :=
  p = pgdir ∨ ∃ i, tab m pgdir i = Some p.

Lemma aspace_dir_ok m pgdir l : aspace m pgdir l → dir_ok m pgdir.
Proof.
  intros [Hp _ _ _]. split; [by apply (Hp SDir) |]. intros i t Ht. by apply (Hp (STab i)).
Qed.

(** ** Reading entries *)

Lemma tab_range m pgdir i t : tab m pgdir i = Some t → 0 ≤ i < 1024.
Proof. unfold tab. case_cmp; simpl; lia || done. Qed.

Lemma tab_some m pgdir i t :
  tab m pgdir i = Some t → Z.testbit (pde m pgdir i) 0 = true ∧ t = P2V (PTE_ADDR (pde m pgdir i)).
Proof.
  unfold tab. destruct (Z.testbit (pde m pgdir i) 0); [|by rewrite andb_false_r].
  rewrite andb_true_r. case_match; [|done]. by intros [= <-].
Qed.

Lemma pte_range m pgdir va : 0 ≤ pte m pgdir va < 2 ^ 32.
Proof. unfold pte. destruct (tab m pgdir (PDX va)); [apply ld32_range | lia]. Qed.

Lemma entry_addr p i :
  page_ok p → 0 ≤ i < 1024 →
  u32 (p + 4 * i) = p + 4 * i ∧ V2P (p + 4 * i) = V2P p + 4 * i ∧
  in_direct_map (p + 4 * i) 4 = true ∧ p + 4 * i ≠ 0.
Proof.
  intros Hp Hi. pose proof (page_ok_facts p Hp) as (E & H0 & H1 & H2 & H3 & _).
  rewrite E in *. unfold PHYSTOP in *.
  split_and!; [by apply u32_id; unfold KERNBASE in *; lia | | | lia].
  - rewrite V2P_eq; unfold KERNBASE in *; lia.
  - unfold in_direct_map, PHYSTOP, KERNBASE in *. case_cmp; simpl; lia || done.
Qed.

Lemma load32_entry s p i :
  page_ok p → 0 ≤ i < 1024 → load32 (p + 4 * i) s = Ok (ld32 (m_mem s) (V2P p + 4 * i), s).
Proof.
  intros Hp Hi. destruct (entry_addr p i Hp Hi) as (_ & E & D & _).
  unfold load32, kld32. by rewrite D, E.
Qed.

Lemma store32_entry s p i v :
  page_ok p → 0 ≤ i < 1024 →
  store32 (p + 4 * i) v s = Ok (tt, set_mem (st32 (m_mem s) (V2P p + 4 * i) v) s).
Proof.
  intros Hp Hi. destruct (entry_addr p i Hp Hi) as (_ & E & D & _).
  unfold store32, kst32. by rewrite D, E.
Qed.

(** An entry lies in its page. *)
Lemma entry_in_page p i x : 0 ≤ i < 1024 → V2P p + 4 * i ≤ x < V2P p + 4 * i + 4 → in_page p x.
Proof. unfold in_page. lia. Qed.

Lemma entry_sep p q i j :
  page_ok p → page_ok q → 0 ≤ i < 1024 → 0 ≤ j < 1024 → p ≠ q ∨ i ≠ j →
  V2P p + 4 * i + 4 ≤ V2P q + 4 * j ∨ V2P q + 4 * j + 4 ≤ V2P p + 4 * i.
Proof.
  intros Hp Hq Hi Hj Hne. pose proof (page_ok_facts p Hp) as (Ep & ? & ? & ? & _).
  pose proof (page_ok_facts q Hq) as (Eq & ? & ? & ? & _).
  destruct (decide (p = q)) as [->|]; [lia |]. rewrite Ep, Eq in *. zdiv.
Qed.

(** Stores to one page as seen from another. *)
Lemma rd_st32_page m p q i v x :
  page_ok p → page_ok q → p ≠ q → 0 ≤ i < 1024 → in_page p x →
  rd (st32 m (V2P q + 4 * i) v) x = rd m x.
Proof.
  intros Hp Hq Hne Hi Hx. apply rd_st32_out.
  assert (¬ in_page q x) as Hx' by (intros Hx'; by apply Hne, (in_page_disj p q x)).
  unfold in_page in Hx'. lia.
Qed.

Lemma rd_memset_page m p q c x :
  page_ok p → page_ok q → p ≠ q → in_page p x → rd (memset m (V2P q) c 4096) x = rd m x.
Proof.
  intros Hp Hq Hne Hx. rewrite rd_memset by lia.
  assert (¬ in_page q x) as Hx' by (intros Hx'; by apply Hne, (in_page_disj p q x)).
  unfold in_page in Hx'. case_cmp; simpl; lia || done.
Qed.

(** Addresses of one page have the same indices, and only those. *)
Lemma same_vpn va va' :
  0 ≤ va < 2 ^ 32 → 0 ≤ va' < 2 ^ 32 →
  PDX va = PDX va' ∧ PTX va = PTX va' ↔ va / 4096 = va' / 4096.
Proof.
  intros. rewrite !PDX_eq, !PTX_eq by lia. change (2 ^ 22) with (4096 * 1024).
  rewrite <- !Z.div_div by lia. split; [|by intros ->]. intros [H1 H2]. zdiv.
Qed.

Lemma pte_page m pgdir va va' :
  0 ≤ va < 2 ^ 32 → 0 ≤ va' < 2 ^ 32 → va / 4096 = va' / 4096 → pte m pgdir va = pte m pgdir va'.
Proof. intros H1 H2 E. unfold pte. by apply same_vpn in E as [-> ->]. Qed.

(** The frame of a mapped user page is a slot. *)
Lemma slot_frame m pgdir va :
  0 ≤ va < KERNBASE → mapped (pte m pgdir va) = true →
  slot_page m pgdir (SFrame (va / 4096)) = Some (P2V (PTE_ADDR (pte m pgdir va))).
Proof.
  unfold KERNBASE. intros Hva Hm. simpl.
  rewrite (pte_page m pgdir (4096 * (va / 4096)) va) by zdiv. rewrite Hm.
  destruct (Z.leb_spec 0 (va / 4096)), (Z.ltb_spec (va / 4096) (2 ^ 19)); try done; zdiv.
Qed.

(** ** Changing memory *)

Lemma pde_ext m m' pgdir i :
  0 ≤ i < 1024 → (∀ x, in_page pgdir x → rd m' x = rd m x) → pde m' pgdir i = pde m pgdir i.
Proof. intros Hi H. unfold pde. apply ld32_ext. intros x Hx. apply H. unfold in_page. lia. Qed.

(** The view only depends on the directory and table pages. *)
Lemma tab_ext m m' pgdir i :
  (∀ x, in_page pgdir x → rd m' x = rd m x) → tab m' pgdir i = tab m pgdir i.
Proof.
  intros H. unfold tab, pde. destruct (Z.leb_spec 0 i), (Z.ltb_spec i 1024); simpl; try done.
  rewrite (ld32_ext m); [done |]. intros x Hx. apply H. unfold in_page. lia.
Qed.

Lemma pte_ext m m' pgdir va :
  (∀ p x, is_table m pgdir p → in_page p x → rd m' x = rd m x) →
  pte m' pgdir va = pte m pgdir va.
Proof.
  intros H. unfold pte. rewrite (tab_ext m) by (intros x; apply H; by left).
  destruct (tab m pgdir (PDX va)) as [t|] eqn:E; [|done].
  apply ld32_ext. intros x Hx. apply (H t); [right; by exists (PDX va) |].
  pose proof (PTX_range va). unfold in_page. lia.
Qed.

Lemma slot_page_ext m m' pgdir sl :
  (∀ p x, is_table m pgdir p → in_page p x → rd m' x = rd m x) →
  slot_page m' pgdir sl = slot_page m pgdir sl.
Proof.
  intros H. destruct sl as [|i|v]; simpl; [done | |].
  - apply tab_ext. intros x. apply H. by left.
  - by rewrite (pte_ext m).
Qed.

Lemma aspace_ext m m' pgdir l :
  (∀ p x, is_table m pgdir p → in_page p x → rd m' x = rd m x) →
  aspace m pgdir l → aspace m' pgdir l.
Proof.
  intros H [H1 H2 H3 H4].
  assert (∀ x, in_page pgdir x → rd m' x = rd m x) as Hd by (intros x; apply H; by left).
  constructor; intros *; rewrite ?(slot_page_ext m m') by done; [apply H1 | apply H2 | |].
  - intros Hi. rewrite (tab_ext m m'), (pde_ext m m') by done. by apply H3.
  - rewrite (tab_ext m m') by done. intros Ht. rewrite (pde_ext m m') by (done || by eapply tab_range).
    by eapply H4.
Qed.

Lemma aspace_sub m pgdir l l' : aspace m pgdir l → (∀ p, p ∈ l' → p ∈ l) → aspace m pgdir l'.
Proof.
  intros [H1 H2 H3 H4] Hl. constructor; [|done..]. intros sl p Hp. destruct (H1 sl p Hp). auto.
Qed.

(** Writing the entry of [va] changes the view at that page only. *)
Lemma pte_set m pgdir l va t v :
  aspace m pgdir l → tab m pgdir (PDX va) = Some t → 0 ≤ va < 2 ^ 32 → 0 ≤ v < 2 ^ 32 →
  let m' := st32 m (V2P t + 4 * PTX va) v in
  (∀ i, tab m' pgdir i = tab m pgdir i) ∧
  (∀ va', 0 ≤ va' < 2 ^ 32 →
     pte m' pgdir va' = if va' / 4096 =? va / 4096 then v else pte m pgdir va') ∧
  (∀ x, in_page pgdir x → rd m' x = rd m x).
Proof.
  intros Ha Ht Hva Hv m'. pose proof Ha as [Hpg Hin Hcl Hrw].
  destruct (Hpg (STab (PDX va)) t Ht) as [Hpt _]. destruct (Hpg SDir pgdir eq_refl) as [Hpd _].
  assert (pgdir ≠ t) as Hne.
  { intros ->. by specialize (Hin SDir (STab (PDX va)) t eq_refl Ht). }
  pose proof (PTX_range va). assert (∀ x, in_page pgdir x → rd m' x = rd m x) as Hdir.
  { intros x Hx. by apply (rd_st32_page _ pgdir). }
  assert (∀ i, tab m' pgdir i = tab m pgdir i) as Htab by (intros i; by apply tab_ext).
  split_and!; [done | | done]. intros va' Hva'. unfold pte. rewrite Htab. pose proof (PTX_range va').
  destruct (Z.eqb_spec (va' / 4096) (va / 4096)) as [E|E].
  - apply same_vpn in E as [-> ->]; [|done..]. rewrite Ht. unfold m'. by rewrite ld32_st32, u32_id.
  - destruct (tab m pgdir (PDX va')) as [t'|] eqn:Ht'; [|done].
    unfold m'. apply ld32_st32_ne. destruct (Hpg (STab (PDX va')) t' Ht') as [Hpt' _].
    apply entry_sep; try done. destruct (decide (t' = t)) as [->|]; [right | by left].
    intros Eq. apply E, same_vpn; try done. split; [|done].
    by specialize (Hin (STab (PDX va)) (STab (PDX va')) t Ht Ht') as [= ->].
Qed.

(** ... and keeps the address space well formed if the new entry is unmapped,
    is not a user page, or maps a page nothing else owns. *)
Lemma aspace_set m pgdir l va t v :
  aspace m pgdir l → tab m pgdir (PDX va) = Some t → 0 ≤ va < 2 ^ 32 → 0 ≤ v < 2 ^ 32 →
  (va < KERNBASE → mapped v = true →
     page_ok (P2V (PTE_ADDR v)) ∧ (P2V (PTE_ADDR v) ∉ l) ∧
     (∀ sl, slot_page m pgdir sl = Some (P2V (PTE_ADDR v)) → sl = SFrame (va / 4096))) →
  aspace (st32 m (V2P t + 4 * PTX va) v) pgdir l.
Proof.
  intros Ha Ht Hva Hv Hf. destruct (pte_set m pgdir l va t v Ha Ht Hva Hv) as (Htab & Hpte & Hdir).
  set (m' := st32 _ _ _) in *. pose proof Ha as [Hpg Hin Hcl Hrw].
  assert (∀ sl, sl ≠ SFrame (va / 4096) → slot_page m' pgdir sl = slot_page m pgdir sl) as Hoth.
  { intros [|j|w] Hne; simpl; [done | apply Htab |].
    destruct (Z.leb_spec 0 w), (Z.ltb_spec w (2 ^ 19)); cbn [andb]; try reflexivity.
    rewrite Hpte by lia. rewrite Z.mul_comm, Z.div_mul by lia.
    destruct (Z.eqb_spec w (va / 4096)); [congruence | done]. }
  assert (∀ p, slot_page m' pgdir (SFrame (va / 4096)) = Some p →
    va < KERNBASE ∧ mapped v = true ∧ p = P2V (PTE_ADDR v)) as Hself.
  { intros p. simpl. destruct (Z.leb_spec 0 (va / 4096)), (Z.ltb_spec (va / 4096) (2 ^ 19));
      cbn [andb]; try done.
    rewrite Hpte by lia. rewrite (Z.mul_comm 4096), Z.div_mul, Z.eqb_refl by lia.
    destruct (mapped v); [|done]. intros [= <-]. split_and!; try done. unfold KERNBASE. zdiv. }
  constructor.
  - intros sl p Hp. destruct (decide (sl = SFrame (va / 4096))) as [->|Hne].
    + destruct (Hself p Hp) as (H1 & H2 & ->). destruct (Hf H1 H2) as (? & ? & _). done.
    + rewrite Hoth in Hp by done. by eapply Hpg.
  - intros sl1 sl2 p H1 H2.
    destruct (decide (sl1 = SFrame (va / 4096))) as [->|Hne1],
      (decide (sl2 = SFrame (va / 4096))) as [->|Hne2]; [done | | |].
    + rewrite Hoth in H2 by done. destruct (Hself p H1) as (? & ? & ->).
      symmetry. by eapply Hf.
    + rewrite Hoth in H1 by done. destruct (Hself p H2) as (? & ? & ->). by eapply Hf.
    + rewrite Hoth in H1, H2 by done. by eapply Hin.
  - intros i Hi. rewrite Htab, (pde_ext m) by done. by apply Hcl.
  - intros i t'. rewrite Htab. intros Hi. rewrite (pde_ext m) by (done || by eapply tab_range). by eapply Hrw.
Qed.

(** Linking a fresh zeroed page as a table leaves the view unchanged. *)
Lemma tab_new m pgdir l t i :
  aspace m pgdir (t :: l) → page_ok t → t ∉ l → 0 ≤ i < 1024 → tab m pgdir i = None →
  let m' := st32 (memset m (V2P t) 0 4096) (V2P pgdir + 4 * i)
              (Z.lor (Z.lor (Z.lor (V2P t) PTE_P) PTE_W) PTE_U) in
  (∀ j, tab m' pgdir j = if j =? i then Some t else tab m pgdir j) ∧
  (∀ va, 0 ≤ va < 2 ^ 32 → pte m' pgdir va = pte m pgdir va) ∧
  (∀ p x, page_ok p → p ≠ pgdir → p ≠ t → in_page p x → rd m' x = rd m x) ∧
  aspace m' pgdir l.
Proof.
  intros Ha Hpt Htl Hi Hnone m'. pose proof Ha as [Hpg Hin Hcl Hrw].
  destruct (Hpg SDir pgdir eq_refl) as [Hpd Hpdl].
  assert (pgdir ≠ t) as Hne by (intros ->; set_solver).
  pose proof (page_ok_facts t Hpt) as (_ & Ht0 & Ht1 & Ht2 & _ & Ht3).
  assert (∀ p x, page_ok p → p ≠ pgdir → p ≠ t → in_page p x → rd m' x = rd m x) as Hout.
  { intros p x Hp Hpne Hptne Hx. unfold m'. by rewrite (rd_st32_page _ p), (rd_memset_page _ p). }
  set (e := Z.lor (Z.lor (Z.lor (V2P t) PTE_P) PTE_W) PTE_U) in *.
  assert (e = Z.lor (V2P t) 7) as He by (unfold e; by rewrite <- !Z.lor_assoc).
  assert (∀ j, 0 ≤ j < 1024 → pde m' pgdir j = if j =? i then e else pde m pgdir j) as Hpde.
  { intros j Hj. unfold pde, m'. destruct (Z.eqb_spec j i) as [->|].
    - rewrite ld32_st32, u32_id; [done |]. rewrite He. apply lor_range; unfold PHYSTOP in *; lia.
    - rewrite ld32_st32_ne by lia. apply ld32_ext. intros x Hx.
      apply (rd_memset_page _ pgdir); try done. unfold in_page. lia. }
  assert (∀ j, tab m' pgdir j = if j =? i then Some t else tab m pgdir j) as Htab.
  { intros j. unfold tab. destruct (Z.leb_spec 0 j), (Z.ltb_spec j 1024); simpl;
      try (destruct (Z.eqb_spec j i); lia || done).
    rewrite Hpde by lia. destruct (Z.eqb_spec j i) as [->|]; [|done].
    rewrite He, Z.lor_spec. simpl. rewrite orb_true_r, PTE_ADDR_make, Ht3;
      unfold PHYSTOP in *; lia || done. }
  assert (∀ va, 0 ≤ va < 2 ^ 32 → pte m' pgdir va = pte m pgdir va) as Hpte.
  { intros va Hva. unfold pte. rewrite Htab. pose proof (PTX_range va).
    destruct (Z.eqb_spec (PDX va) i) as [->|].
    - rewrite Hnone. unfold m'. rewrite ld32_st32_ne by (apply entry_sep; auto).
      apply ld32_zeroed; lia.
    - destruct (tab m pgdir (PDX va)) as [t'|] eqn:Ht'; [|done].
      destruct (Hpg (STab (PDX va)) t' Ht') as [Hpt' Hn'].
      apply ld32_ext. intros x Hx. apply (Hout t'); try done.
      + intros ->. by specialize (Hin SDir (STab (PDX va)) _ eq_refl Ht').
      + set_solver.
      + unfold in_page. lia. }
  split_and!; try done.
  assert (∀ sl, slot_page m' pgdir sl = if decide (sl = STab i) then Some t else slot_page m pgdir sl) as Hsl.
  { intros [|j|v]; simpl; [done | |].
    - rewrite Htab. case_decide; destruct (Z.eqb_spec j i); congruence.
    - destruct (Z.leb_spec 0 v), (Z.ltb_spec v (2 ^ 19)); cbn [andb]; try reflexivity.
      by rewrite Hpte by lia. }
  constructor; intros *; rewrite ?Hsl.
  - case_decide; [by intros [= <-] |]. intros Hp. destruct (Hpg _ _ Hp). set_solver.
  - repeat case_decide; subst; try done; intros H1 H2; simplify_eq.
    + destruct (Hpg _ _ H2). set_solver.
    + destruct (Hpg _ _ H1). set_solver.
    + by eapply Hin.
  - intros Hi0. rewrite Htab, Hpde by done. destruct (Z.eqb_spec i0 i); [done |]. by apply Hcl.
  - intros Hnt. pose proof (tab_range _ _ _ _ Hnt) as Hi0. rewrite Htab in Hnt. rewrite Hpde by done.
    destruct (Z.eqb_spec i0 i); [|by eapply Hrw]. rewrite He, !Z.lor_spec.
    split; apply orb_true_iff; by right.
Qed.

(** ** [walkpgdir] *)

(** Without [alloc]: the address of the entry, or null when there is no
    table; nothing changes. *)
Lemma walkpgdir_find s pgdir va :
  dir_ok (m_mem s) pgdir →
  walkpgdir pgdir va false s =
    Ok (match tab (m_mem s) pgdir (PDX va) with Some t => t + 4 * PTX va | None => 0 end, s).
Proof.
  intros [Hd Ht]. pose proof (PDX_range va) as Hi. pose proof (PTX_range va) as Hj.
  unfold walkpgdir. destruct (entry_addr pgdir (PDX va) Hd Hi) as (-> & _).
  erewrite bind_ok by (by apply load32_entry). specialize (Ht (PDX va)).
  revert Ht. unfold tab. fold (pde (m_mem s) pgdir (PDX va)). rewrite has_P.
  destruct (Z.leb_spec 0 (PDX va)), (Z.ltb_spec (PDX va) 1024); try lia. simpl.
  destruct (Z.testbit _ 0); [|done]. intros Ht.
  by destruct (entry_addr _ (PTX va) (Ht _ eq_refl) Hj) as (-> & _).
Qed.

(** A step from [s] to [s'] that keeps the address space well formed, takes
    table pages from the free list only, and otherwise writes to tables only. *)
Record grows (pgdir : Z) (s : mach) (l : list Z) (s' : mach) (l' : list Z) : Prop := Grows {
  g_inv : kalloc_inv s' l';
  g_as : aspace (m_mem s') pgdir l';
  g_hw : same_hw s s';
  g_suf : l' `suffix_of` l;
  g_mem p x : page_ok p → ¬ is_table (m_mem s') pgdir p → in_page p x →
    rd (m_mem s') x = rd (m_mem s) x;
  g_tab p : is_table (m_mem s') pgdir p → is_table (m_mem s) pgdir p ∨ p ∈ l;
  g_mono i t : tab (m_mem s) pgdir i = Some t → tab (m_mem s') pgdir i = Some t;
  g_leak p : p ∈ l → p ∈ l' ∨ is_table (m_mem s') pgdir p;
}.

Lemma grows_refl pgdir s l : kalloc_inv s l → aspace (m_mem s) pgdir l → grows pgdir s l s l.
Proof. intros Hk Ha. constructor; try done; by left. Qed.

Lemma grows_trans pgdir s1 l1 s2 l2 s3 l3 :
  grows pgdir s1 l1 s2 l2 → grows pgdir s2 l2 s3 l3 → grows pgdir s1 l1 s3 l3.
Proof.
  intros [A1 A2 A3 A4 A5 A6 A7 A8] [B1 B2 B3 B4 B5 B6 B7 B8]. constructor; try done.
  - by etrans.
  - by etrans.
  - intros p x Hp Hnt Hx. rewrite (B5 p), (A5 p); try done.
    intros [->|[i Hi]]; apply Hnt; [by left | right; eauto].
  - intros p Ht. destruct (B6 p Ht) as [Ht2|Hl]; [by apply A6 |].
    right. by eapply suffix_elem.
  - eauto.
  - intros p Hp. destruct (A8 p Hp) as [Hp'|[->|[i Hi]]]; [by apply B8 | right; by left |].
    right. right. eauto.
Qed.

(** With [alloc]: a table is added if there is none.  The view of the address
    space does not change; null is returned only when memory is exhausted. *)
Lemma walkpgdir_alloc s pgdir l va :
  kalloc_inv s l → aspace (m_mem s) pgdir l →
  wp (walkpgdir pgdir va true) s (λ r s', ∃ l', grows pgdir s l s' l' ∧
    (∀ va', 0 ≤ va' < 2 ^ 32 → pte (m_mem s') pgdir va' = pte (m_mem s) pgdir va') ∧
    ((r = 0 ∧ l = [] ∧ l' = [] ∧ tab (m_mem s) pgdir (PDX va) = None) ∨
     ∃ t, tab (m_mem s') pgdir (PDX va) = Some t ∧ r = t + 4 * PTX va)).
Proof.
  intros Hk Ha. destruct (aspace_dir_ok _ _ _ Ha) as [Hd Ht].
  pose proof (PDX_range va) as Hi. pose proof (PTX_range va) as Hj.
  unfold walkpgdir. destruct (entry_addr pgdir (PDX va) Hd Hi) as (-> & _).
  apply wp_bind. eapply wp_intro; [by apply load32_entry |].
  fold (pde (m_mem s) pgdir (PDX va)). rewrite has_P.
  destruct (Z.testbit (pde (m_mem s) pgdir (PDX va)) 0) eqn:Ep.
  - assert (tab (m_mem s) pgdir (PDX va) = Some (P2V (PTE_ADDR (pde (m_mem s) pgdir (PDX va))))) as Et.
    { unfold tab. rewrite Ep. by destruct (Z.leb_spec 0 (PDX va)), (Z.ltb_spec (PDX va) 1024); try lia. }
    apply wp_ret. exists l. split_and!; [by apply grows_refl | done |].
    right. eexists. split; [exact Et |].
    by destruct (entry_addr _ (PTX va) (Ht _ _ Et) Hj) as (-> & _).
  - assert (tab (m_mem s) pgdir (PDX va) = None) as Et.
    { unfold tab. rewrite Ep. by rewrite andb_false_r. }
    simpl. apply wp_bind. eapply wp_mono; [by apply kalloc_spec |].
    intros r s1 (Hm1 & Hw1 & Hr). destruct l as [|t l'].
    + destruct Hr as [-> Hk1]. simpl. apply wp_ret. exists [].
      assert (grows pgdir s [] s1 []) by (constructor; rewrite ?Hm1; try done; by left).
      rewrite Hm1. split_and!; [done.. |]. by left.
    + destruct Hr as [-> Hk1]. pose proof Hk as [_ Hpl Hnd _ _].
      apply list.Forall_cons in Hpl as [Hpt Hpl]. apply list.NoDup_cons in Hnd as [Htl _].
      pose proof (page_ok_facts t Hpt) as (_&_&_&_&?&_). destruct (Z.eqb_spec t 0); [lia |].
      apply wp_bind. eapply wp_intro. { unfold kmemset. by rewrite page_ok_direct by (done || (unfold PGSIZE; lia)). }
      apply wp_bind. eapply wp_intro; [by apply store32_entry |]. apply wp_ret. simpl.
      unfold PGSIZE. rewrite Hm1.
      destruct (tab_new (m_mem s) pgdir l' t (PDX va) Ha Hpt Htl Hi Et) as (Htab & Hpte & Hout & Ha').
      exists l'. split_and!; [|done|].
      * constructor; simpl; try done.
        -- eapply kalloc_inv_ext; [| | |exact Hk1]; try done. simpl. rewrite Hm1.
           intros p x Hp Hx. rewrite list.Forall_forall in Hpl. apply (Hout p); auto.
           ++ intros ->. destruct (as_page _ _ _ Ha SDir pgdir eq_refl). set_solver.
           ++ by intros ->.
        -- by exists [t].
        -- intros p x Hp Hnt Hx. apply (Hout p); try done.
           ++ intros ->. apply Hnt. by left.
           ++ intros ->. apply Hnt. right. exists (PDX va). by rewrite Htab, Z.eqb_refl.
        -- intros p [->|[j Hj']]; [left; by left |]. rewrite Htab in Hj'.
           destruct (Z.eqb_spec j (PDX va)); [right; simplify_eq; set_solver | left; right; eauto].
        -- intros j t' Hj'. rewrite Htab. destruct (Z.eqb_spec j (PDX va)); [congruence | done].
        -- intros p Hp. apply elem_of_cons in Hp as [-> |Hp]; [right | by left].
           right. exists (PDX va). by rewrite Htab, Z.eqb_refl.
      * right. exists t. rewrite Htab, Z.eqb_refl. split; [done |].
        by destruct (entry_addr t (PTX va) Hpt Hj) as (-> & _).
Qed.

(** Storing an entry found by [walkpgdir]. *)
Lemma store_entry s pgdir l va t v :
  kalloc_inv s l → aspace (m_mem s) pgdir l → tab (m_mem s) pgdir (PDX va) = Some t →
  0 ≤ va < 2 ^ 32 → 0 ≤ v < 2 ^ 32 →
  (va < KERNBASE → mapped v = true →
     page_ok (P2V (PTE_ADDR v)) ∧ (P2V (PTE_ADDR v) ∉ l) ∧
     (∀ sl, slot_page (m_mem s) pgdir sl = Some (P2V (PTE_ADDR v)) → sl = SFrame (va / 4096))) →
  wp (store32 (t + 4 * PTX va) v) s (λ _ s', grows pgdir s l s' l ∧
    (∀ i, tab (m_mem s') pgdir i = tab (m_mem s) pgdir i) ∧
    ∀ va', 0 ≤ va' < 2 ^ 32 → pte (m_mem s') pgdir va' =
      if va' / 4096 =? va / 4096 then v else pte (m_mem s) pgdir va').
Proof.
  intros Hk Ha Ht Hva Hv Hf. destruct (as_page _ _ _ Ha (STab (PDX va)) t Ht) as [Hpt Htl].
  pose proof (PTX_range va) as Hj. eapply wp_intro; [by apply store32_entry |]. simpl.
  destruct (pte_set _ pgdir l va t v Ha Ht Hva Hv) as (Htab & Hpte & _). split_and!; [|done..].
  constructor; simpl; try done.
  - eapply kalloc_inv_ext; [| | |exact Hk]; try done. intros p x Hp Hx. simpl.
    pose proof Hk as [_ Hpl _ _ _]. rewrite list.Forall_forall in Hpl.
    apply (rd_st32_page _ p); auto. by intros ->.
  - by apply aspace_set.
  - intros p x Hp Hnt Hx. apply (rd_st32_page _ p); try done.
    intros ->. apply Hnt. right. exists (PDX va). by rewrite Htab.
  - intros p [->|[j Hj']]; [left; by left |]. left. right. exists j. by rewrite <- Htab.
  - intros i t'. by rewrite Htab.
  - by left.
Qed.

(** ** [mappages] *)

(** The entry [mappages] writes: the page is present, unless the permissions
    say it is encrypted. *)
Definition map_entry (pa perm : Z) : Z :=
  Z.lor (Z.lor pa perm) (if nz (Z.land perm PTE_E) then PTE_E else PTE_P).

Lemma map_entry_facts pa perm :
  0 ≤ pa < 2 ^ 32 → pa mod 4096 = 0 → 0 ≤ perm < 4096 →
  0 ≤ map_entry pa perm < 2 ^ 32 ∧ PTE_ADDR (map_entry pa perm) = pa ∧
  mapped (map_entry pa perm) = true.
Proof.
  intros Hpa Hal Hp. unfold map_entry. rewrite <- Z.lor_assoc.
  set (f := Z.lor perm _). assert (0 ≤ f < 4096) as Hf.
  { unfold f. apply (lor_range _ _ 12); try lia. unfold PTE_E, PTE_P. by case_match. }
  split; [apply lor_range; lia | split].
  - by apply PTE_ADDR_make.
  - unfold mapped, f. rewrite !Z.lor_spec. case_match.
    + change (Z.testbit PTE_E 10) with true. by rewrite !orb_true_r.
    + change (Z.testbit PTE_P 0) with true. by rewrite !orb_true_r.
Qed.

(** No slot of the address space is the page [f]. *)
Definition unowned (m : mem) (pgdir f : Z) : Prop := ∀ sl, slot_page m pgdir sl ≠ Some f.

(** Growing the tables from the free list does not make a page owned. *)
Lemma unowned_grow m m' pgdir (l : list Z) f :
  (∀ va, 0 ≤ va < 2 ^ 32 → pte m' pgdir va = pte m pgdir va) →
  (∀ p, is_table m' pgdir p → is_table m pgdir p ∨ p ∈ l) →
  f ∉ l → unowned m pgdir f → unowned m' pgdir f.
Proof.
  intros Hpte Htab Hl Hu [|i|v] Hp.
  - by apply (Hu SDir).
  - destruct (Htab f) as [[->|[j Hj]]|?]; [right; by exists i | | |done].
    + by apply (Hu SDir).
    + by apply (Hu (STab j)).
  - apply (Hu (SFrame v)). simpl in *.
    destruct (Z.leb_spec 0 v), (Z.ltb_spec v (2 ^ 19)); cbn [andb] in *; try done.
    by rewrite Hpte in Hp by lia.
Qed.

(** Physical page [i] of a run of pages mapped at [a] for a user address is
    valid, not free and owned by no one. *)
Definition frame_ok (s : mach) (pgdir : Z) (l : list Z) (va pa : Z) : Prop :=
  va < KERNBASE → page_ok (P2V pa) ∧ (P2V pa ∉ l) ∧ unowned (m_mem s) pgdir (P2V pa).

Lemma P2V_inj a b : 0 ≤ a < 2 ^ 32 → 0 ≤ b < 2 ^ 32 → P2V a = P2V b → a = b.
Proof. intros Ha Hb E. by rewrite <- (V2P_P2V a), <- (V2P_P2V b), E. Qed.

(** One round of the loop, before it goes on with [k]. *)
Lemma map_one s pgdir l a pa perm (k : M mach Z) Q :
  kalloc_inv s l → aspace (m_mem s) pgdir l →
  0 ≤ a < 2 ^ 32 → 0 ≤ pa < 2 ^ 32 → pa mod 4096 = 0 → 0 ≤ perm < 4096 →
  mapped (pte (m_mem s) pgdir a) = false → frame_ok s pgdir l a pa →
  (∀ s', grows pgdir s l s' [] →
     (∀ va, 0 ≤ va < 2 ^ 32 → pte (m_mem s') pgdir va = pte (m_mem s) pgdir va) → Q (-1) s') →
  (∀ s' l', grows pgdir s l s' l' →
     (∀ va, 0 ≤ va < 2 ^ 32 → pte (m_mem s') pgdir va =
        if va / 4096 =? a / 4096 then map_entry pa perm else pte (m_mem s) pgdir va) →
     (∀ f, f ∉ l → f ≠ P2V pa → unowned (m_mem s) pgdir f → unowned (m_mem s') pgdir f) →
     wp k s' Q) →
  wp (p ← walkpgdir pgdir a true;
      if p =? 0 then mret (-1) else
      v ← load32 p;
      if nz (Z.land v (Z.lor PTE_P PTE_E)) then panic "p4Debug, remapping page" else
      (if nz (Z.land perm PTE_E) then store32 p (Z.lor (Z.lor pa perm) PTE_E)
       else store32 p (Z.lor (Z.lor pa perm) PTE_P));;
      k) s Q.
Proof.
  intros Hk Ha Ha32 Hpa Hpal Hperm Hun Hfr Hfail Hok.
  destruct (map_entry_facts pa perm Hpa Hpal Hperm) as (Her & Hea & Hem).
  apply wp_bind. eapply wp_mono; [by apply walkpgdir_alloc |].
  intros r s1 (l1 & Hg1 & Hpte1 & [(-> & -> & -> & _) | (t & Ht & ->)]); [by apply wp_ret, Hfail |].
  pose proof Hg1 as [Hk1 Ha1 _ Hsuf _ Htab1 _ _].
  destruct (as_page _ _ _ Ha1 (STab (PDX a)) t Ht) as [Hpt _]. pose proof (PTX_range a) as Hj.
  destruct (entry_addr t (PTX a) Hpt Hj) as (_ & _ & _ & Hn0).
  destruct (Z.eqb_spec (t + 4 * PTX a) 0); [lia |].
  apply wp_bind. eapply wp_intro; [by apply load32_entry |].
  replace (ld32 (m_mem s1) (V2P t + 4 * PTX a)) with (pte (m_mem s1) pgdir a)
    by (unfold pte; by rewrite Ht).
  rewrite Hpte1, has_PE by done. unfold mapped in Hun. rewrite Hun.
  assert (∀ f, f ∉ l → unowned (m_mem s) pgdir f → unowned (m_mem s1) pgdir f) as Hu1
    by (intros f; by apply unowned_grow).
  apply wp_bind.
  replace (if nz (Z.land perm PTE_E) then _ else _) with (store32 (t + 4 * PTX a) (map_entry pa perm))
    by (unfold map_entry; by case_match).
  eapply wp_mono; [apply (store_entry s1 pgdir l1 a t); try done |].
  - rewrite Hea. intros Hkb _. destruct (Hfr Hkb) as (H1 & H2 & H3). split_and!; [done | |].
    + intros Hin. apply H2. by eapply suffix_elem.
    + intros sl Hsl. by destruct (Hu1 _ H2 H3 sl).
  - intros _ s2 (Hg2 & Htab2 & Hpte2). apply (Hok s2 l1).
    + by eapply grows_trans.
    + intros va Hva. rewrite Hpte2 by done. case_match; [done | auto].
    + intros f Hfl Hne Hf [|i|v] Hsl; simpl in Hsl.
      * by apply (Hf SDir).
      * rewrite Htab2 in Hsl. by apply (Hu1 f Hfl Hf (STab i)).
      * apply (Hu1 f Hfl Hf (SFrame v)). simpl. revert Hsl.
        destruct (Z.leb_spec 0 v), (Z.ltb_spec v (2 ^ 19)); cbn [andb]; try done.
        rewrite Hpte2 by lia. destruct (Z.eqb_spec (4096 * v / 4096) (a / 4096)); [|done].
        rewrite Hem, Hea. congruence.
Qed.

(** [mappages] on [n + 1] pages.  On success all of them are mapped, in
    order; on failure memory ran out and a prefix is mapped.  No other page's
    mapping changes. *)
Lemma mappages_loop_spec n s pgdir l a last pa perm fuel :
  kalloc_inv s l → aspace (m_mem s) pgdir l →
  0 ≤ a → a mod 4096 = 0 → last = a + 4096 * Z.of_nat n → last < 2 ^ 32 →
  0 ≤ pa → pa mod 4096 = 0 → pa + 4096 * Z.of_nat n < 2 ^ 32 → 0 ≤ perm < 4096 →
  (∀ i, 0 ≤ i ≤ Z.of_nat n → mapped (pte (m_mem s) pgdir (a + 4096 * i)) = false) →
  (∀ i, 0 ≤ i ≤ Z.of_nat n → frame_ok s pgdir l (a + 4096 * i) (pa + 4096 * i)) →
  (n < fuel)%nat →
  wp (mappages_loop fuel pgdir a last pa perm) s (λ r s', ∃ l' k,
    grows pgdir s l s' l' ∧
    (r = 0 ∧ k = Z.of_nat n + 1 ∨ r = -1 ∧ 0 ≤ k ≤ Z.of_nat n ∧ l' = []) ∧
    ∀ va, 0 ≤ va < 2 ^ 32 → pte (m_mem s') pgdir va =
      if (a <=? va) && (va <? a + 4096 * k) then map_entry (pa + (va / 4096 * 4096 - a)) perm
      else pte (m_mem s) pgdir va).
Proof.
  revert s l a pa fuel. induction n as [|n IH];
    intros s l a pa fuel Hk Ha Ha0 Hal Hlast Hl32 Hpa0 Hpal Hpa32 Hperm Hun Hfr Hfuel;
    (destruct fuel as [|fuel]; [lia |]); cbn [mappages_loop].
  all: pose proof (Hun 0 ltac:(lia)) as Hun0; pose proof (Hfr 0 ltac:(lia)) as Hfr0;
    rewrite Z.mul_0_r, ?Z.add_0_r in Hun0; rewrite Z.mul_0_r, !(Z.add_0_r a), (Z.add_0_r pa) in Hfr0;
    apply (map_one s pgdir l a pa perm); try done; try lia.
  - intros s' Hg Hpte. exists [], 0. split; [done | split; [right; split_and!; lia || done |]].
    intros va Hva. rewrite Hpte by done. case_cmp; simpl; lia || done.
  - intros s' l' Hg Hpte _. destruct (Z.eqb_spec a last); [|lia]. apply wp_ret.
    exists l', 1. split; [done | split; [left; lia |]]. intros va Hva. rewrite Hpte by done.
    destruct (Z.eqb_spec (va / 4096) (a / 4096)) as [E|E].
    + rewrite E. replace (a / 4096 * 4096 - a) with 0 by zdiv. rewrite Z.add_0_r.
      case_cmp; simpl; try done; zdiv.
    + case_cmp; simpl; try done; zdiv.
  - intros s' Hg Hpte. exists [], 0. split; [done | split; [right; split_and!; lia || done |]].
    intros va Hva. rewrite Hpte by done. case_cmp; simpl; lia || done.
  - intros s' l' Hg Hpte Hu. destruct (Z.eqb_spec a last); [lia |].
    unfold PGSIZE. rewrite (u32_id (a + 4096)), (u32_id (pa + 4096)) by lia.
    pose proof Hg as [Hk' Ha' _ Hsuf _ _ _ _]. eapply wp_mono.
    { apply (IH s' l'); try done; try lia; try zdiv.
      - intros i Hi. rewrite Hpte by lia. destruct (Z.eqb_spec ((a + 4096 + 4096 * i) / 4096) (a / 4096)); [zdiv |].
        replace (a + 4096 + 4096 * i) with (a + 4096 * (i + 1)) by lia. apply Hun. lia.
      - intros i Hi Hkb. replace (a + 4096 + 4096 * i) with (a + 4096 * (i + 1)) in Hkb by lia.
        replace (pa + 4096 + 4096 * i) with (pa + 4096 * (i + 1)) by lia.
        destruct (Hfr (i + 1) ltac:(lia) Hkb) as (H1 & H2 & H3). split_and!; [done | |].
        + intros Hin. apply H2. by eapply suffix_elem.
        + apply Hu; try done. intros E. apply P2V_inj in E; lia. }
    intros r s2 (l2 & k & Hg2 & Hr & Hpte2). exists l2, (k + 1).
    split; [by eapply grows_trans | split].
    { destruct Hr as [[-> ->]|(-> & ? & ->)]; [left | right]; split_and!; lia || done. }
    intros va Hva. rewrite Hpte2, Hpte by done.
    destruct (Z.eqb_spec (va / 4096) (a / 4096)) as [E|E].
    + rewrite E. replace (a / 4096 * 4096 - a) with 0 by zdiv. rewrite Z.add_0_r.
      case_cmp; simpl; try done; zdiv.
    + case_cmp; simpl; try done; try zdiv. f_equal. lia.
Qed.

(** A page-aligned area that does not wrap around. *)
Lemma mappages_spec s pgdir l va size pa perm :
  kalloc_inv s l → aspace (m_mem s) pgdir l →
  0 ≤ va → va mod 4096 = 0 → 0 < size → va + size ≤ 2 ^ 32 →
  0 ≤ pa → pa mod 4096 = 0 → pa + size ≤ 2 ^ 32 → 0 ≤ perm < 4096 →
  (∀ i, 0 ≤ 4096 * i < size → mapped (pte (m_mem s) pgdir (va + 4096 * i)) = false) →
  (∀ i, 0 ≤ 4096 * i < size → frame_ok s pgdir l (va + 4096 * i) (pa + 4096 * i)) →
  wp (mappages pgdir va size pa perm) s (λ r s', ∃ l' k,
    grows pgdir s l s' l' ∧
    (r = 0 ∧ k = (size + 4095) / 4096 ∨ r = -1 ∧ 0 ≤ k < (size + 4095) / 4096 ∧ l' = []) ∧
    ∀ va', 0 ≤ va' < 2 ^ 32 → pte (m_mem s') pgdir va' =
      if (va <=? va') && (va' <? va + 4096 * k) then map_entry (pa + (va' / 4096 * 4096 - va)) perm
      else pte (m_mem s) pgdir va').
Proof.
  intros Hk Ha Hva Hal Hsz Hva32 Hpa Hpal Hpa32 Hperm Hun Hfr. unfold mappages.
  rewrite (PGROUNDDOWN_id va), (u32_id (va + size - 1)), (PGROUNDDOWN_eq (va + size - 1)) by lia.
  set (n := Z.to_nat ((size - 1) / 4096)).
  assert (Z.of_nat n = (size - 1) / 4096) as Hn by (unfold n; rewrite Z2Nat.id; zdiv).
  assert (va + size - 1 - (va + size - 1) mod 4096 = va + 4096 * Z.of_nat n) as -> by zdiv.
  eapply wp_mono; [apply (mappages_loop_spec n); try done; try lia; try zdiv |].
  - intros i Hi. apply Hun. zdiv.
  - intros i Hi. apply Hfr. zdiv.
  - rewrite u32_id by zdiv. unfold PGSIZE.
    replace ((va + 4096 * Z.of_nat n - va) / 4096) with (Z.of_nat n) by zdiv. lia.
  - intros r s' (l' & k & Hg & Hr & Hpte). exists l', k. split; [done | split; [|done]].
    replace ((size + 4095) / 4096) with (Z.of_nat n + 1) by zdiv.
    destruct Hr as [[-> ->]|(-> & ? & ->)]; [left | right]; split_and!; lia || done.
Qed.

(** One page, as the user-memory routines map it. *)
Lemma mappages_page s pgdir l va pa perm :
  kalloc_inv s l → aspace (m_mem s) pgdir l →
  0 ≤ va < KERNBASE → va mod 4096 = 0 → page_ok (P2V pa) → 0 ≤ pa < 2 ^ 32 → 0 ≤ perm < 4096 →
  mapped (pte (m_mem s) pgdir va) = false → (P2V pa ∉ l) → unowned (m_mem s) pgdir (P2V pa) →
  wp (mappages pgdir va PGSIZE pa perm) s (λ r s', ∃ l',
    grows pgdir s l s' l' ∧
    (r = 0 ∧ (∀ va', 0 ≤ va' < 2 ^ 32 → pte (m_mem s') pgdir va' =
       if va' / 4096 =? va / 4096 then map_entry pa perm else pte (m_mem s) pgdir va') ∨
     r = -1 ∧ l' = [] ∧
       ∀ va', 0 ≤ va' < 2 ^ 32 → pte (m_mem s') pgdir va' = pte (m_mem s) pgdir va')).
Proof.
  intros Hk Ha Hva Hal Hpg Hpa Hperm Hun Hl Hu. unfold PGSIZE, KERNBASE in *.
  pose proof (page_ok_facts _ Hpg) as (_ & H0 & H1 & H2 & _). rewrite V2P_P2V in * by done.
  unfold PHYSTOP in *.
  eapply wp_mono; [apply (mappages_spec s pgdir l); try done; try lia |].
  - intros i Hi. replace i with 0 by lia. by rewrite Z.mul_0_r, Z.add_0_r.
  - intros i Hi. replace i with 0 by lia. rewrite Z.mul_0_r, !Z.add_0_r. by intros _.
  - intros r s' (l' & k & Hg & Hr & Hpte). exists l'. split; [done |].
    change ((4096 + 4095) / 4096) with 1 in Hr.
    destruct Hr as [[-> ->]|(-> & Hk0 & ->)]; [left | right].
    + split; [done |]. intros va' Hva'. rewrite Hpte by done.
      destruct (Z.eqb_spec (va' / 4096) (va / 4096)) as [E|E].
      * rewrite E. replace (va / 4096 * 4096 - va) with 0 by zdiv. rewrite Z.add_0_r.
        case_cmp; simpl; try done; zdiv.
      * case_cmp; simpl; try done; zdiv.
    + split_and!; try done. intros va' Hva'. rewrite Hpte by done.
      replace k with 0 by lia. case_cmp; simpl; lia || done.
Qed.

(** Mapping over a mapped page panics. *)
Lemma mappages_remap s pgdir va size pa perm :
  dir_ok (m_mem s) pgdir → 0 ≤ va < 2 ^ 32 →
  mapped (pte (m_mem s) pgdir (PGROUNDDOWN va)) = true →
  mappages pgdir va size pa perm s = Err (EPanic "p4Debug, remapping page").
Proof.
  intros [Hd Ht] Hva Hm. unfold mappages. cbn [mappages_loop].
  set (a := PGROUNDDOWN va) in *. pose proof (PDX_range a) as Hi. pose proof (PTX_range a) as Hj.
  unfold pte in Hm. destruct (tab (m_mem s) pgdir (PDX a)) as [t|] eqn:Et; [|done].
  erewrite bind_ok.
  2:{ unfold walkpgdir. destruct (entry_addr pgdir (PDX a) Hd Hi) as (-> & _).
      erewrite bind_ok by (by apply load32_entry). fold (pde (m_mem s) pgdir (PDX a)).
      rewrite has_P. revert Et. unfold tab.
      destruct (Z.testbit (pde (m_mem s) pgdir (PDX a)) 0); [|by rewrite andb_false_r].
      intros Et. done. }
  assert (t = P2V (PTE_ADDR (pde (m_mem s) pgdir (PDX a)))) as <-.
  { revert Et. unfold tab. case_match; congruence. }
  destruct (entry_addr t (PTX a) (Ht _ _ Et) Hj) as (-> & _ & _ & Hn0).
  destruct (Z.eqb_spec (t + 4 * PTX a) 0); [lia |].
  erewrite bind_ok by (apply load32_entry; [by eapply Ht | done]).
  rewrite has_PE. unfold mapped in Hm. by rewrite Hm.
Qed.

(** ** [deallocuvm] *)

(** Freeing the frame of a user page and clearing its entry. *)
Lemma unmap_one s pgdir l va t :
  kalloc_inv s l → aspace (m_mem s) pgdir l → tab (m_mem s) pgdir (PDX va) = Some t →
  0 ≤ va < KERNBASE → mapped (pte (m_mem s) pgdir va) = true →
  let f := P2V (PTE_ADDR (pte (m_mem s) pgdir va)) in
  wp (kfree f;; store32 (t + 4 * PTX va) 0) s (λ _ s',
    kalloc_inv s' (f :: l) ∧ aspace (m_mem s') pgdir (f :: l) ∧ same_hw s s' ∧
    (∀ i, tab (m_mem s') pgdir i = tab (m_mem s) pgdir i) ∧
    (∀ va', 0 ≤ va' < 2 ^ 32 → pte (m_mem s') pgdir va' =
      if va' / 4096 =? va / 4096 then 0 else pte (m_mem s) pgdir va') ∧
    (∀ p x, page_ok p → ¬ is_table (m_mem s) pgdir p → p ≠ f → in_page p x →
      rd (m_mem s') x = rd (m_mem s) x)).
Proof.
  intros Hk Ha Ht Hva Hm f. pose proof Ha as [Hpg Hin Hcl Hrw].
  pose proof (slot_frame _ _ _ Hva Hm) as Hsf. fold f in Hsf.
  clearbody f. unfold KERNBASE in Hva.
  destruct (Hpg _ _ Hsf) as [Hpf Hfl]. destruct (Hpg (STab (PDX va)) t Ht) as [Hpt Htl].
  pose proof (PTX_range va) as Hj.
  assert (∀ p, is_table (m_mem s) pgdir p → p ≠ f ∧ page_ok p) as Htf.
  { intros p [->|[i Hi]].
    - split; [|by apply (Hpg SDir)]. intros ->. by specialize (Hin SDir _ _ eq_refl Hsf).
    - split; [|by apply (Hpg (STab i))]. intros ->. by specialize (Hin (STab i) _ _ Hi Hsf). }
  apply wp_bind. eapply wp_mono; [by apply (kfree_spec s l f) |]. intros _ s1 (Hk1 & Hw1 & Hm1).
  assert (∀ p x, is_table (m_mem s) pgdir p → in_page p x → rd (m_mem s1) x = rd (m_mem s) x) as Hsame.
  { intros p x Hp Hx. apply Hm1. intros Hx'. destruct (Htf p Hp) as [Hne Hpp].
    by apply Hne, (in_page_disj p f x). }
  assert (∀ i, tab (m_mem s1) pgdir i = tab (m_mem s) pgdir i) as Htab1.
  { intros i. apply tab_ext. intros x. apply Hsame. by left. }
  assert (∀ va', pte (m_mem s1) pgdir va' = pte (m_mem s) pgdir va') as Hpte1.
  { intros va'. by apply pte_ext. }
  assert (aspace (m_mem s1) pgdir l) as Ha1 by (by eapply aspace_ext).
  eapply wp_intro; [by apply store32_entry |]. simpl.
  assert (tab (m_mem s1) pgdir (PDX va) = Some t) as Ht1 by (by rewrite Htab1).
  destruct (pte_set _ pgdir l va t 0 Ha1 Ht1 ltac:(lia) ltac:(lia)) as (Htab2 & Hpte2 & Hdir2).
  pose proof (aspace_set _ pgdir l va t 0 Ha1 Ht1 ltac:(lia) ltac:(lia) ltac:(done)) as Ha2.
  set (m2 := st32 _ _ _) in *. destruct (Htf t ltac:(right; eauto)) as [Htne _].
  split_and!.
  - eapply kalloc_inv_ext; [| | |exact Hk1]; try done. intros p x Hp Hx. simpl.
    pose proof Hk1 as [_ Hpl _ _ _]. rewrite list.Forall_forall in Hpl.
    apply (rd_st32_page _ p); auto. intros ->. apply elem_of_cons in Hp as [->|]; done.
  - constructor; [|apply (as_inj _ _ _ Ha2) | apply (as_clean _ _ _ Ha2) | apply (as_rw _ _ _ Ha2)]. intros sl p Hp. destruct (as_page _ _ _ Ha2 sl p Hp) as [Hpp Hpl].
    split; [done |]. apply not_elem_of_cons. split; [|done]. intros ->.
    destruct (decide (sl = SFrame (va / 4096))) as [->|Hne].
    + simpl in Hp. rewrite Hpte2 in Hp by zdiv. rewrite (Z.mul_comm 4096), Z.div_mul, Z.eqb_refl in Hp by lia.
      by rewrite andb_false_r in Hp.
    + apply Hne, (Hin _ _ f); [|done]. destruct sl as [|i|w]; simpl in Hp |- *; [done | by rewrite <- Htab1, <- Htab2 |].
      destruct (Z.leb_spec 0 w), (Z.ltb_spec w (2 ^ 19)); cbn [andb] in *; try done.
      rewrite Hpte2, Hpte1 in Hp by lia. destruct (Z.eqb_spec (4096 * w / 4096) (va / 4096)); [|done].
      destruct Hne. f_equal. zdiv.
  - done.
  - intros i. by rewrite Htab2.
  - intros va' Hva'. by rewrite Hpte2, Hpte1.
  - intros p x Hp Hnt Hpf' Hx. unfold m2. rewrite (rd_st32_page _ p); try done.
    + apply Hm1. intros Hx'. by apply Hpf', (in_page_disj p f x).
    + intros ->. apply Hnt. right. eauto.
Qed.

(** First address of the page of [va]. *)
Definition pgbase (va : Z) : Z := va / 4096 * 4096.

(** The step from [s] to [s'] unmaps the pages that start in [lo..hi) and puts
    their frames [k], and nothing else, on the free list. *)
Record frees (pgdir lo hi : Z) (s : mach) (l : list Z) (s' : mach) (k : list Z) : Prop := Frees {
  f_inv : kalloc_inv s' (k ++ l);
  f_as : aspace (m_mem s') pgdir (k ++ l);
  f_hw : same_hw s s';
  f_tab i : tab (m_mem s') pgdir i = tab (m_mem s) pgdir i;
  f_pte va : 0 ≤ va < 2 ^ 32 → pte (m_mem s') pgdir va =
    if (lo <=? pgbase va) && (pgbase va <? hi) && mapped (pte (m_mem s) pgdir va) then 0
    else pte (m_mem s) pgdir va;
  f_freed p : p ∈ k ↔ ∃ v, lo ≤ 4096 * v < hi ∧ slot_page (m_mem s) pgdir (SFrame v) = Some p;
  f_mem p x : page_ok p → ¬ is_table (m_mem s) pgdir p → p ∉ k → in_page p x →
    rd (m_mem s') x = rd (m_mem s) x;
}.

(** Pages without a mapping may be skipped. *)
Lemma frees_skip pgdir lo lo' hi s l s' k :
  0 ≤ lo ≤ lo' →
  (∀ va, 0 ≤ va < KERNBASE → lo ≤ pgbase va < lo' → pgbase va < hi →
     mapped (pte (m_mem s) pgdir va) = false) →
  hi ≤ KERNBASE → frees pgdir lo' hi s l s' k → frees pgdir lo hi s l s' k.
Proof.
  intros Hlo Hun Hhi [F1 F2 F3 F4 F5 F6 F7]. unfold KERNBASE in *. constructor; try done.
  - intros va Hva. rewrite F5 by done.
    destruct (Z.leb_spec lo' (pgbase va)), (Z.leb_spec lo (pgbase va)), (Z.ltb_spec (pgbase va) hi);
      cbn [andb]; try reflexivity; try lia.
    rewrite Hun; [reflexivity | unfold pgbase in *; zdiv | lia | lia].
  - intros p. rewrite F6. split; intros (v & Hv & Hp); exists v; (split; [|done]); [lia |].
    split; [|lia]. destruct (Z.lt_ge_cases (4096 * v) lo'); [|done]. exfalso. revert Hp. simpl.
    rewrite Hun; unfold pgbase; [by rewrite andb_false_r | zdiv..].
Qed.

Lemma frees_cons pgdir lo hi s l s1 f s' k :
  0 ≤ lo → lo mod 4096 = 0 → lo < hi → hi ≤ KERNBASE →
  mapped (pte (m_mem s) pgdir lo) = true → f = P2V (PTE_ADDR (pte (m_mem s) pgdir lo)) →
  same_hw s s1 → (∀ i, tab (m_mem s1) pgdir i = tab (m_mem s) pgdir i) →
  (∀ va', 0 ≤ va' < 2 ^ 32 → pte (m_mem s1) pgdir va' =
      if va' / 4096 =? lo / 4096 then 0 else pte (m_mem s) pgdir va') →
  (∀ p x, page_ok p → ¬ is_table (m_mem s) pgdir p → p ≠ f → in_page p x →
      rd (m_mem s1) x = rd (m_mem s) x) →
  frees pgdir (lo + 4096) hi s1 (f :: l) s' k → frees pgdir lo hi s l s' (k ++ [f]).
Proof.
  intros Hlo Hal Hlt Hhi Hm Hf Hw Htab Hpte Hmem [F1 F2 F3 F4 F5 F6 F7]. unfold KERNBASE in *.
  assert (∀ p, is_table (m_mem s1) pgdir p ↔ is_table (m_mem s) pgdir p) as Hist.
  { intros p. unfold is_table. by setoid_rewrite Htab. }
  assert (∀ v, v ≠ lo / 4096 →
    slot_page (m_mem s1) pgdir (SFrame v) = slot_page (m_mem s) pgdir (SFrame v)) as Hsl.
  { intros v Hv. simpl. destruct (Z.leb_spec 0 v), (Z.ltb_spec v (2 ^ 19)); cbn [andb]; try done.
    rewrite Hpte by lia. destruct (Z.eqb_spec (4096 * v / 4096) (lo / 4096)); [zdiv | done]. }
  constructor.
  - by rewrite <- (assoc_L (++)).
  - by rewrite <- (assoc_L (++)).
  - by etrans.
  - intros i. by rewrite F4.
  - intros va Hva. rewrite F5, Hpte by done. unfold pgbase.
    destruct (Z.eqb_spec (va / 4096) (lo / 4096)) as [E|E].
    + rewrite (pte_page _ pgdir va lo) by lia. rewrite Hm.
      change (mapped 0) with false. rewrite andb_false_r, andb_true_r.
      case_cmp; cbn [andb]; try reflexivity; zdiv.
    + destruct (mapped (pte (m_mem s) pgdir va)); [|by rewrite !andb_false_r].
      case_cmp; cbn [andb]; try reflexivity; zdiv.
  - intros p. rewrite elem_of_app, F6, list_elem_of_singleton. split.
    + intros [(v & Hv & Hp)| ->].
      * exists v. split; [lia |]. rewrite <- Hsl; [done | zdiv].
      * exists (lo / 4096). split; [zdiv |]. rewrite slot_frame; [by rewrite Hf | unfold KERNBASE; lia | done].
    + intros (v & Hv & Hp). destruct (decide (v = lo / 4096)) as [->|Hne].
      * right. rewrite slot_frame in Hp; [by rewrite Hf; simplify_eq | unfold KERNBASE; lia | done].
      * left. exists v. split; [zdiv |]. by rewrite Hsl.
  - intros p x Hp Hnt Hpk Hx. apply not_elem_of_app in Hpk as [Hpk Hpf].
    rewrite (F7 p), (Hmem p); try done; [|by rewrite Hist]. intros ->. set_solver.
Qed.

Lemma deallocuvm_loop_spec fuel s pgdir l a oldsz :
  kalloc_inv s l → aspace (m_mem s) pgdir l → 0 ≤ a → a mod 4096 = 0 → oldsz ≤ KERNBASE →
  (oldsz - a) / 4096 + 1 < Z.of_nat fuel → (0 < fuel)%nat →
  wp (deallocuvm_loop fuel pgdir a oldsz) s (λ _ s', ∃ k, frees pgdir a oldsz s l s' k).
Proof.
  revert s l a. induction fuel as [|fuel IH]; intros s l a Hk Ha Ha0 Hal Hold Hfuel Hpos; [lia |].
  cbn [deallocuvm_loop]. destruct (Z.ltb_spec a oldsz) as [Hlt|Hge].
  2:{ apply wp_ret. exists []. constructor; try done.
      - intros va Hva. case_cmp; cbn [andb]; try reflexivity; lia.
      - intros p. split; [set_solver | intros (v & ? & _); lia]. }
  assert (0 ≤ a < KERNBASE) as Hkb by lia. unfold KERNBASE in Hkb, Hold.
  apply wp_bind. eapply wp_intro; [by eapply walkpgdir_find, aspace_dir_ok |].
  destruct (tab (m_mem s) pgdir (PDX a)) as [t|] eqn:Et.
  - destruct (as_page _ _ _ Ha (STab (PDX a)) t Et) as [Hpt _]. pose proof (PTX_range a) as Hj.
    destruct (entry_addr t (PTX a) Hpt Hj) as (_ & _ & _ & Hn0).
    destruct (Z.eqb_spec (t + 4 * PTX a) 0); [lia |].
    apply wp_bind. eapply wp_intro; [by apply load32_entry |].
    replace (ld32 (m_mem s) (V2P t + 4 * PTX a)) with (pte (m_mem s) pgdir a)
      by (unfold pte; by rewrite Et).
    rewrite has_PE. fold (mapped (pte (m_mem s) pgdir a)). unfold PGSIZE. rewrite (u32_id (a + 4096)) by lia.
    destruct (mapped (pte (m_mem s) pgdir a)) eqn:Hm.
    + pose proof (slot_frame (m_mem s) pgdir a Hkb Hm) as Hsf.
      destruct (as_page _ _ _ Ha _ _ Hsf) as [Hpf _]. pose proof (page_ok_facts _ Hpf) as (Ef&Hf0&Hf1&_&_&_).
      rewrite V2P_P2V in * by apply PTE_ADDR_range.
      destruct (Z.eqb_spec (PTE_ADDR (pte (m_mem s) pgdir a)) 0) as [E0|_].
      { exfalso. rewrite E0 in Ef, Hpf. destruct Hpf as (_ & Hend & _). pose proof k_range.
        unfold KERNLINK, EXTMEM, KERNBASE in *. lia. }
      apply wp_bind. eapply wp_mono; [apply (unmap_one s pgdir l a t); try done; unfold KERNBASE; lia |].
      intros _ s1 (Hk1 & Ha1 & Hw1 & Htab1 & Hpte1 & Hmem1).
      eapply wp_mono; [apply (IH s1); try done; try zdiv |].
      intros _ s2 [k Hf2]. exists (k ++ [P2V (PTE_ADDR (pte (m_mem s) pgdir a))]).
      eapply frees_cons; eauto; unfold KERNBASE; lia.
    + apply wp_bind, wp_ret. eapply wp_mono; [apply (IH s); try done; try zdiv |].
      intros _ s2 [k Hf2]. exists k. eapply (frees_skip _ a (a + 4096)); try done; try lia.
      unfold pgbase. intros va Hva Hb _. rewrite <- Hm. f_equal.
      apply pte_page; unfold KERNBASE in *; try lia. zdiv.
  - simpl. set (a' := u32 (u32 (PGADDR (PDX a + 1) 0 0 - PGSIZE) + PGSIZE)).
    assert (a' = (a / 2 ^ 22 + 1) * 2 ^ 22) as Ea'.
    { unfold a'. rewrite u32_add_l. unfold PGADDR. rewrite Z.shiftl_0_l, !Z.lor_0_r.
      rewrite Z.shiftl_mul_pow2, PDX_eq by (unfold PDXSHIFT; lia). unfold PDXSHIFT, PGSIZE.
      rewrite (u32_id ((a / 2 ^ 22 + 1) * 2 ^ 22)) by zdiv. rewrite u32_id by zdiv. lia. }
    eapply wp_mono; [apply (IH s); try done; try zdiv |].
    intros _ s2 [k Hf2]. exists k. eapply (frees_skip _ a a'); try done; try zdiv.
    unfold pgbase, KERNBASE. intros va Hva Hb _. unfold pte.
    replace (PDX va) with (PDX a); [by rewrite Et |].
    rewrite !PDX_eq by lia. zdiv.
Qed.

(** [deallocuvm] to a smaller size. *)
Lemma deallocuvm_spec s pgdir l oldsz newsz :
  kalloc_inv s l → aspace (m_mem s) pgdir l → 0 ≤ newsz < oldsz → oldsz ≤ KERNBASE →
  wp (deallocuvm pgdir oldsz newsz) s (λ r s', r = newsz ∧
    ∃ k, frees pgdir (PGROUNDUP newsz) oldsz s l s' k).
Proof.
  intros Hk Ha Hn Ho. unfold KERNBASE in Ho. unfold deallocuvm.
  destruct (Z.leb_spec oldsz newsz); [lia |]. apply wp_bind.
  assert (PGROUNDUP newsz = (newsz + 4095) - (newsz + 4095) mod 4096) as Hp
    by (apply PGROUNDUP_eq; lia).
  eapply wp_mono; [apply deallocuvm_loop_spec; try done; rewrite ?Hp; try zdiv |].
  - unfold PGSIZE. rewrite Z2Nat.id by zdiv. zdiv.
  - unfold PGSIZE. zdiv.
  - intros [] s' Hf. by apply wp_ret.
Qed.

End VmSpec.
