(* ===== verification/VmUser.v ===== *)
(** * Growing, shrinking and copying user memory

    [allocuvm], [copyuvm], [inituvm], [clearpteu] and the copying routines of
    [vm.c], on top of the contracts of [VmSpec]. *)

From S2P Require Import Prelude Mmu Mem Spinlock Kalloc Vm VmSpec.

Section VmUser.
Context {L : Linker}.

(** ** Filling a page taken from the free list *)

(** Writes to a page that was just allocated do not disturb an address space
    that does not own it. *)
Lemma fresh_write s pgdir p l m' :
  page_ok p → kalloc_inv s l → p ∉ l → aspace (m_mem s) pgdir (p :: l) →
  (∀ x, ¬ in_page p x → rd m' x = rd (m_mem s) x) →
  kalloc_inv (set_mem m' s) l ∧ aspace m' pgdir l ∧
  (∀ va, pte m' pgdir va = pte (m_mem s) pgdir va) ∧
  (∀ i, tab m' pgdir i = tab (m_mem s) pgdir i) ∧ unowned m' pgdir p.
Proof.
  intros Hp Hk Hpl Ha Hm.
  assert (∀ sl, slot_page (m_mem s) pgdir sl ≠ Some p) as Hu.
  { intros sl Hsl. destruct (as_page _ _ _ Ha sl p Hsl) as [_ Hn]. apply Hn. by left. }
  assert (∀ q x, page_ok q → q ≠ p → in_page q x → rd m' x = rd (m_mem s) x) as Hq.
  { intros q x Hq Hne Hx. apply Hm. intros Hx'. by apply Hne, (in_page_disj q p x). }
  assert (∀ q x, is_table (m_mem s) pgdir q → in_page q x → rd m' x = rd (m_mem s) x) as Ht.
  { intros q x [->|[i Hi]] Hx.
    - apply (Hq pgdir); [by apply (as_page _ _ _ Ha SDir) | intros ->; by apply (Hu SDir) | done].
    - apply (Hq q); [by apply (as_page _ _ _ Ha (STab i)) | intros ->; by apply (Hu (STab i)) | done]. }
  split_and!.
  - eapply kalloc_inv_ext; [| | |exact Hk]; try done. intros q x Hql Hx. simpl.
    pose proof (ki_pages _ _ Hk) as Hpp. rewrite list.Forall_forall in Hpp.
    apply (Hq q); auto. by intros ->.
  - eapply aspace_sub; [by eapply aspace_ext|]. by right.
  - intros va. by apply pte_ext.
  - intros i. apply tab_ext. intros x. apply Ht. by left.
  - intros sl. rewrite (slot_page_ext (m_mem s)) by done. apply Hu.
Qed.

(** ** [allocuvm] *)

(** All bytes of the page at [p] are zero. *)
Definition zero_page (m : mem) (p : Z) : Prop := ∀ x, in_page p x → rd m x = 0.

(** From [s0] to [s] the pages that start in [lo..hi) got fresh zeroed frames
    that user code may read and write; nothing else changed but tables.  [h]
    are zeroed pages taken from the allocator and not mapped yet. *)
Record extended (pgdir lo hi : Z) (s0 : mach) (l0 : list Z) (s : mach) (l h : list Z) : Prop := Extended {
  e_inv : kalloc_inv s l;
  e_as : aspace (m_mem s) pgdir l;
  e_hw : same_hw s0 s;
  e_sub p : p ∈ l → p ∈ l0;
  e_out va : 0 ≤ va < 2 ^ 32 → ¬ (lo ≤ pgbase va < hi) →
    pte (m_mem s) pgdir va = pte (m_mem s0) pgdir va;
  e_in va : lo ≤ pgbase va < hi → ∃ f, f ∈ l0 ∧ page_ok f ∧ zero_page (m_mem s) f ∧
    pte (m_mem s) pgdir va = map_entry (V2P f) (Z.lor PTE_W PTE_U);
  e_mem p x : page_ok p → p ∉ l0 → ¬ is_table (m_mem s0) pgdir p → in_page p x →
    rd (m_mem s) x = rd (m_mem s0) x;
  e_tab p : is_table (m_mem s) pgdir p → is_table (m_mem s0) pgdir p ∨ p ∈ l0;
  e_leak p : p ∈ l0 → p ∈ l ∨ p ∈ h ∨ is_table (m_mem s) pgdir p ∨
    ∃ v, lo ≤ 4096 * v < hi ∧ slot_page (m_mem s) pgdir (SFrame v) = Some p;
  e_held p : p ∈ h → p ∈ l0 ∧ page_ok p ∧ (p ∉ l) ∧ unowned (m_mem s) pgdir p ∧ zero_page (m_mem s) p;
}.

Lemma extended_refl pgdir lo s l :
  kalloc_inv s l → aspace (m_mem s) pgdir l → extended pgdir lo lo s l s l [].
Proof. intros Hk Ha. constructor; try done; try lia; try (by left). set_solver. Qed.

(** The frame behind an entry that [allocuvm] writes. *)
Lemma map_entry_frame m pgdir va f :
  0 ≤ va < KERNBASE → page_ok f → pte m pgdir va = map_entry (V2P f) (Z.lor PTE_W PTE_U) →
  mapped (pte m pgdir va) = true ∧ slot_page m pgdir (SFrame (va / 4096)) = Some f.
Proof.
  intros Hva Hf He. pose proof (page_ok_facts f Hf) as (_ & Hf0 & Hf1 & Hf2 & _ & Hf3).
  destruct (map_entry_facts (V2P f) (Z.lor PTE_W PTE_U)) as (_ & Hfa & Hfm);
    [unfold PHYSTOP in *; lia | done | done |].
  rewrite slot_frame; rewrite ?He; try done. by rewrite Hfa, Hf3.
Qed.

(** A frame is not a table, and frames of different pages differ. *)
Lemma frame_not_table m pgdir l v f :
  aspace m pgdir l → slot_page m pgdir (SFrame v) = Some f → ¬ is_table m pgdir f.
Proof.
  intros Ha Hf [->|[i Hi]].
  - by pose proof (as_inj _ _ _ Ha SDir _ _ eq_refl Hf).
  - by pose proof (as_inj _ _ _ Ha (STab i) _ _ Hi Hf).
Qed.

Lemma unowned_not_table m pgdir f : unowned m pgdir f → ¬ is_table m pgdir f.
Proof. intros Hu [->|[i Hi]]; [by apply (Hu SDir) | by apply (Hu (STab i))]. Qed.

(** [kalloc] and [memset]. *)
Lemma extended_take pgdir lo hi s0 l0 s p l s1 :
  0 ≤ lo → hi ≤ KERNBASE → lo mod 4096 = 0 → hi mod 4096 = 0 →
  extended pgdir lo hi s0 l0 s (p :: l) [] →
  m_mem s1 = m_mem s → same_hw s s1 → kalloc_inv s1 l →
  extended pgdir lo hi s0 l0 (set_mem (memset (m_mem s1) (V2P p) 0 4096) s1) l [p].
Proof.
  intros Hlo Hhi Hlal Hhal He Hm1 Hw1 Hk1. set (s2 := set_mem _ _).
  pose proof He as [E1 E2 E3 E4 E5 E6 E7 E8 E9 _].
  pose proof (ki_pages _ _ E1) as Hpp. apply list.Forall_cons in Hpp as [Hp _].
  pose proof (ki_nodup _ _ E1) as Hn. apply list.NoDup_cons in Hn as [Hpl _].
  assert (p ∈ l0) as Hpl0 by (apply E4; by left). rewrite <- Hm1 in *.
  assert (∀ x, ¬ in_page p x → rd (m_mem s2) x = rd (m_mem s1) x) as Hout.
  { intros x Hx. simpl. rewrite rd_memset by lia. unfold in_page in Hx. case_cmp; simpl; lia || done. }
  destruct (fresh_write s1 pgdir p l (m_mem s2) Hp Hk1 Hpl E2 Hout) as (F1 & F2 & F3 & F4 & F5).
  assert (∀ q, is_table (m_mem s2) pgdir q ↔ is_table (m_mem s1) pgdir q) as Hist.
  { intros q. unfold is_table. by setoid_rewrite F4. }
  assert (∀ q x, page_ok q → q ≠ p → in_page q x → rd (m_mem s2) x = rd (m_mem s1) x) as Hq.
  { intros q x Hq Hne Hx. apply Hout. intros Hx'. by apply Hne, (in_page_disj q p x). }
  constructor; unfold pgbase in *; try done.
  - etrans; [exact E3 |]. etrans; [exact Hw1 |]. by unfold s2.
  - intros q Hql. apply E4. by right.
  - intros va. rewrite F3. apply E5.
  - intros va Hva. rewrite F3. destruct (E6 va Hva) as (f & Hf & Hfp & Hfz & Hfe).
    exists f. split_and!; try done. intros x Hx. rewrite (Hq f); [by apply Hfz | done | | done].
    intros ->. unfold pgbase, KERNBASE in *.
    destruct (map_entry_frame (m_mem s1) pgdir va p) as [_ Hs]; [unfold KERNBASE; zdiv | done.. |].
    destruct (as_page _ _ _ E2 _ _ Hs) as [_ []]. by left.
  - intros q x Hqo Hql Hqt Hx. rewrite (Hq q); [by apply (E7 q) | done | by intros -> | done].
  - intros q Ht. by apply E8, Hist.
  - intros q Hql. destruct (E9 q Hql) as [Hq'|[Hq'|[Ht|(v & Hv & Hsv)]]]; [|set_solver| |].
    + apply elem_of_cons in Hq' as [->|]; [right; left; by left | by left].
    + right; right; left. by apply Hist.
    + do 3 right. exists v. split; [done |]. revert Hsv. simpl. by rewrite F3.
  - intros q ->%list_elem_of_singleton. split_and!; try done.
    intros x Hx. simpl. rewrite rd_memset by lia. unfold in_page in Hx. by case_cmp; simpl; try lia.
Qed.

(** Tables added without mapping anything. *)
Lemma extended_grow pgdir lo hi s0 l0 s l h s' l' :
  0 ≤ lo → hi ≤ KERNBASE → lo mod 4096 = 0 → hi mod 4096 = 0 →
  extended pgdir lo hi s0 l0 s l h → grows pgdir s l s' l' →
  (∀ va, 0 ≤ va < 2 ^ 32 → pte (m_mem s') pgdir va = pte (m_mem s) pgdir va) →
  extended pgdir lo hi s0 l0 s' l' h.
Proof.
  intros Hlo Hhi Hlal Hhal [E1 E2 E3 E4 E5 E6 E7 E8 E9 E10] [G1 G2 G3 G4 G5 G6 G7 G8] Hpte.
  assert (∀ p, p ∈ l' → p ∈ l) as Hsub by (intros p; by apply suffix_elem).
  unfold KERNBASE in *. constructor; unfold pgbase in *; try done.
  - by etrans.
  - auto.
  - intros va Hva Hn. rewrite Hpte by done. auto.
  - intros va Hva. rewrite Hpte by zdiv. destruct (E6 va Hva) as (f & Hf & Hfp & Hfz & Hfe).
    exists f. split_and!; try done. intros x Hx. rewrite (G5 f); [by apply Hfz | done | | done].
    destruct (map_entry_frame (m_mem s') pgdir va f) as [_ Hs];
      [unfold KERNBASE; zdiv | done | rewrite Hpte by zdiv; done |].
    by eapply frame_not_table.
  - intros p x Hp Hpl Hpt Hx. rewrite (G5 p); [by apply (E7 p) | done | | done].
    intros Ht. destruct (G6 p Ht) as [Ht'|]; [by destruct (E8 p Ht') | auto].
  - intros p Ht. destruct (G6 p Ht); auto.
  - intros p Hp. destruct (E9 p Hp) as [Hq|[Hq|[Hq|(v & Hv & Hs)]]].
    + destruct (G8 p Hq); auto.
    + auto.
    + right; right; left. destruct Hq as [->|[i Hi]]; [by left | right; eauto].
    + do 3 right. exists v. split; [done |]. simpl in *. by rewrite Hpte by lia.
  - intros p Hp. destruct (E10 p Hp) as (H1 & H2 & H3 & H4 & H5).
    assert (unowned (m_mem s') pgdir p) as Hu by (by eapply unowned_grow).
    split_and!; auto. intros x Hx. rewrite (G5 p); auto. by apply unowned_not_table.
Qed.

(** The held page mapped at [a]. *)
Lemma extended_map pgdir lo a s0 l0 s p l s' l' :
  0 ≤ lo ≤ a → a mod 4096 = 0 → lo mod 4096 = 0 → a < KERNBASE →
  extended pgdir lo a s0 l0 s l [p] → grows pgdir s l s' l' →
  (∀ va, 0 ≤ va < 2 ^ 32 → pte (m_mem s') pgdir va =
     if va / 4096 =? a / 4096 then map_entry (V2P p) (Z.lor PTE_W PTE_U)
     else pte (m_mem s) pgdir va) →
  extended pgdir lo (a + 4096) s0 l0 s' l' [].
Proof.
  intros Hla Hal Hlal Hakb [E1 E2 E3 E4 E5 E6 E7 E8 E9 E10] [G1 G2 G3 G4 G5 G6 G7 G8] Hpte.
  assert (∀ q, q ∈ l' → q ∈ l) as Hsub by (intros q; by apply suffix_elem).
  destruct (E10 p ltac:(by left)) as (Hpl0 & Hp & Hpl & Hpu & Hpz).
  unfold pgbase, KERNBASE in *.
  assert (slot_page (m_mem s') pgdir (SFrame (a / 4096)) = Some p) as Hsp.
  { apply map_entry_frame; [unfold KERNBASE; lia | done |]. by rewrite Hpte, Z.eqb_refl by lia. }
  constructor; unfold pgbase in *; try done.
  - by etrans.
  - auto.
  - intros va Hva Hn. rewrite Hpte by done.
    destruct (Z.eqb_spec (va / 4096) (a / 4096)); [zdiv |]. apply E5; [done | zdiv].
  - intros va Hva. rewrite Hpte by zdiv.
    destruct (Z.eqb_spec (va / 4096) (a / 4096)) as [E|E].
    + exists p. split_and!; try done. intros x Hx. rewrite (G5 p); auto. by eapply frame_not_table.
    + destruct (E6 va ltac:(zdiv)) as (f & Hf & Hfp & Hfz & Hfe).
      exists f. split_and!; try done. intros x Hx. rewrite (G5 f); [by apply Hfz | done | | done].
      destruct (map_entry_frame (m_mem s') pgdir va f) as [_ Hs]; [unfold KERNBASE; zdiv | done | |].
      * rewrite Hpte by zdiv. by destruct (Z.eqb_spec (va / 4096) (a / 4096)).
      * by eapply frame_not_table.
  - intros q x Hq Hql Hqt Hx. rewrite (G5 q); [by apply (E7 q) | done | | done].
    intros Ht. destruct (G6 q Ht) as [Ht'|]; [by destruct (E8 q Ht') | auto].
  - intros q Ht. destruct (G6 q Ht); auto.
  - intros q Hq. destruct (E9 q Hq) as [Hq'|[->%list_elem_of_singleton|[Ht|(v & Hv & Hsv)]]].
    + destruct (G8 q Hq'); auto.
    + do 3 right. exists (a / 4096). split; [zdiv | done].
    + right; right; left. destruct Ht as [->|[i Hi]]; [by left | right; eauto].
    + do 3 right. exists v. split; [lia |]. revert Hsv. simpl.
      destruct (Z.leb_spec 0 v), (Z.ltb_spec v (2 ^ 19)); cbn [andb]; try done.
      rewrite Hpte by lia. destruct (Z.eqb_spec (4096 * v / 4096) (a / 4096)); [zdiv | done].
  - set_solver.
Qed.

(** A failed [allocuvm] from [s0] to [s]: the pages that start in [lo..hi)
    are unmapped, as before; every free page is still free, held in [h], or
    has become a table. *)
Record undone (pgdir lo hi : Z) (s0 : mach) (l0 : list Z) (s : mach) (l h : list Z) : Prop := Undone {
  u_inv : kalloc_inv s l;
  u_as : aspace (m_mem s) pgdir l;
  u_hw : same_hw s0 s;
  u_sub p : p ∈ l → p ∈ l0;
  u_out va : 0 ≤ va < 2 ^ 32 → ¬ (lo ≤ pgbase va < hi) →
    pte (m_mem s) pgdir va = pte (m_mem s0) pgdir va;
  u_in va : lo ≤ pgbase va < hi → mapped (pte (m_mem s) pgdir va) = false;
  u_mem p x : page_ok p → p ∉ l0 → ¬ is_table (m_mem s0) pgdir p → in_page p x →
    rd (m_mem s) x = rd (m_mem s0) x;
  u_leak p : p ∈ l0 → p ∈ l ∨ p ∈ h ∨ is_table (m_mem s) pgdir p;
  u_held p : p ∈ h → p ∈ l0 ∧ page_ok p ∧ (p ∉ l) ∧ unowned (m_mem s) pgdir p;
}.

Lemma extended_frees pgdir lo a hi s0 l0 s l h s' k :
  0 ≤ lo → a ≤ hi → hi ≤ KERNBASE →
  (∀ va, lo ≤ pgbase va < hi → mapped (pte (m_mem s0) pgdir va) = false) →
  extended pgdir lo a s0 l0 s l h → frees pgdir lo hi s l s' k →
  undone pgdir lo hi s0 l0 s' (k ++ l) h.
Proof.
  intros Hlo Hahi Hhi Hun [E1 E2 E3 E4 E5 E6 E7 E8 E9 E10] [F1 F2 F3 F4 F5 F6 F7].
  unfold KERNBASE in *.
  assert (∀ q, is_table (m_mem s') pgdir q ↔ is_table (m_mem s) pgdir q) as Hist.
  { intros q. unfold is_table. by setoid_rewrite F4. }
  assert (∀ q, q ∈ k → ∃ f, f ∈ l0 ∧ q = f) as Hk.
  { intros q (v & Hv & Hs)%F6. exists q. split; [|done]. revert Hs. simpl.
    destruct (Z.leb_spec 0 v), (Z.ltb_spec v (2 ^ 19)); cbn [andb]; try done.
    destruct (mapped (pte (m_mem s) pgdir (4096 * v))) eqn:Hm; [|done].
    destruct (Z.lt_ge_cases (4096 * v) a) as [Hva|Hva].
    - destruct (E6 (4096 * v)) as (f & Hf & Hfp & _ & Hfe); [unfold pgbase; zdiv |].
      destruct (map_entry_frame (m_mem s) pgdir (4096 * v) f) as [_ Hs]; [unfold KERNBASE; lia | done.. |].
      rewrite slot_frame in Hs; [intros; by simplify_eq | unfold KERNBASE; lia | done].
    - rewrite E5, Hun in Hm; unfold pgbase; done || zdiv. }
  constructor; unfold pgbase in *; try done.
  - by etrans.
  - intros q [Hq|Hq]%elem_of_app; [destruct (Hk q Hq) as (f & Hf & ->); done | auto].
  - intros va Hva Hn. rewrite F5 by done. rewrite E5 by zdiv.
    case_cmp; cbn [andb]; try reflexivity; lia.
  - intros va Hva. rewrite F5 by zdiv.
    destruct (Z.leb_spec lo (va / 4096 * 4096)), (Z.ltb_spec (va / 4096 * 4096) hi); try lia.
    cbn [andb]. by destruct (mapped (pte (m_mem s) pgdir va)) eqn:Hm.
  - intros p x Hp Hpl Hpt Hx. rewrite (F7 p); [by apply (E7 p) | done | | | done].
    + intros Ht. by destruct (E8 p Ht).
    + intros Hpk. destruct (Hk p Hpk) as (f & Hf & ->). done.
  - intros p Hp. rewrite elem_of_app. destruct (E9 p Hp) as [Hq|[Hq|[Ht|(v & Hv & Hs)]]]; auto.
    + right; right. by apply Hist.
    + left; left. apply F6. exists v. split; [lia | done].
  - intros p Hp. destruct (E10 p Hp) as (H1 & H2 & H3 & H4 & _).
    assert (p ∉ k) as Hpk.
    { intros (v & Hv & Hs)%F6. by apply (H4 (SFrame v)). }
    split_and!; [done | done | set_solver |].
    intros [|i|v]; simpl; [by apply (H4 SDir) | rewrite F4; by apply (H4 (STab i)) |].
    intros Hs. apply (H4 (SFrame v)). revert Hs. simpl.
    destruct (Z.leb_spec 0 v), (Z.ltb_spec v (2 ^ 19)); cbn [andb]; try done.
    rewrite F5 by lia.
    by match goal with |- context [if ?b then 0 else _] => destruct b end.
Qed.

Lemma aspace_cons m pgdir l p : aspace m pgdir l → unowned m pgdir p → aspace m pgdir (p :: l).
Proof.
  intros [H1 H2 H3 H4] Hu. constructor; [|done..]. intros sl q Hs. destruct (H1 sl q Hs).
  split; [done |]. apply not_elem_of_cons. split; [|done]. intros ->. by apply (Hu sl).
Qed.

(** Giving the held page back. *)
Lemma undone_kfree pgdir lo hi s0 l0 s l p :
  undone pgdir lo hi s0 l0 s l [p] →
  wp (kfree p) s (λ _ s', undone pgdir lo hi s0 l0 s' (p :: l) []).
Proof.
  intros [U1 U2 U3 U4 U5 U6 U7 U8 U9]. destruct (U9 p ltac:(by left)) as (H1 & H2 & H3 & H4).
  eapply wp_mono; [by apply (kfree_spec s l p) |]. intros [] s' (K1 & K2 & K3).
  assert (∀ q x, is_table (m_mem s) pgdir q → in_page q x → rd (m_mem s') x = rd (m_mem s) x) as Ht.
  { intros q x Hq Hx. apply K3. intros Hx'.
    assert (q = p) as ->; [|by apply (unowned_not_table _ _ _ H4)].
    apply (in_page_disj q p x); try done.
    destruct Hq as [->|[i Hi]]; [by apply (as_page _ _ _ U2 SDir) | by apply (as_page _ _ _ U2 (STab i))]. }
  assert (∀ va, pte (m_mem s') pgdir va = pte (m_mem s) pgdir va) as Hpte by (intros; by apply pte_ext).
  constructor; try done.
  - apply aspace_cons; [by eapply aspace_ext |]. intros sl. by rewrite (slot_page_ext (m_mem s)).
  - by etrans.
  - intros q [->|Hq]%elem_of_cons; auto.
  - intros va. rewrite Hpte. apply U5.
  - intros va. rewrite Hpte. apply U6.
  - intros q x Hq Hql Hqt Hx. rewrite K3; [by apply (U7 q) |]. intros Hx'.
    by rewrite (in_page_disj q p x Hq H2 Hx Hx') in Hql.
  - intros q Hq. destruct (U8 q Hq) as [Hq'|[->%list_elem_of_singleton|Hq']].
    + left. by right.
    + left. by left.
    + do 2 right. destruct Hq' as [->|[i Hi]]; [by left |]. right. exists i.
      rewrite (tab_ext (m_mem s)); [done |]. intros x. apply Ht. by left.
  - set_solver.
Qed.

(** The bound may be rounded up, and the allocator's lock does not show. *)
Lemma extended_end pgdir lo a hi s0 l0 s l h :
  hi ≤ a < hi + 4096 → a mod 4096 = 0 ∧ (lo ≤ hi ∨ lo = a) →
  extended pgdir lo a s0 l0 s l h → extended pgdir lo hi s0 l0 s l h.
Proof.
  intros Ha [Hal Hlo] [E1 E2 E3 E4 E5 E6 E7 E8 E9 E10].
  constructor; unfold pgbase in *; try done.
  - intros va Hva Hn. apply E5; [done | zdiv].
  - intros va Hva. apply E6. zdiv.
  - intros q Hq. destruct (E9 q Hq) as [?|[?|[?|(v & Hv & ?)]]]; auto.
    do 3 right. exists v. split; [zdiv | done].
Qed.

Lemma extended_mem pgdir lo hi s0 l0 s l h s1 :
  extended pgdir lo hi s0 l0 s l h → m_mem s1 = m_mem s → same_hw s s1 → kalloc_inv s1 l →
  extended pgdir lo hi s0 l0 s1 l h.
Proof.
  intros [E1 E2 E3 E4 E5 E6 E7 E8 E9 E10] Hm Hw Hk. constructor; rewrite ?Hm; try done. by etrans.
Qed.

(** The failure path of [allocuvm]. *)
Lemma allocuvm_undo pgdir a oldsz newsz s0 l0 s l h :
  0 ≤ oldsz < newsz → newsz < KERNBASE → a ≤ newsz →
  (∀ va, PGROUNDUP oldsz ≤ pgbase va < newsz → mapped (pte (m_mem s0) pgdir va) = false) →
  extended pgdir (PGROUNDUP oldsz) a s0 l0 s l h →
  wp (deallocuvm pgdir newsz oldsz) s (λ _ s', ∃ l',
    undone pgdir (PGROUNDUP oldsz) newsz s0 l0 s' l' h).
Proof.
  intros Ho Hn Ha Hun He. unfold KERNBASE in *.
  eapply wp_mono; [apply (deallocuvm_spec s pgdir l); [apply He.. | lia | unfold KERNBASE; lia] |].
  intros r s' (_ & k & Hf). exists (k ++ l).
  eapply extended_frees; try done; [|unfold KERNBASE; lia]. rewrite PGROUNDUP_eq by lia. zdiv.
Qed.

Lemma allocuvm_loop_spec n s0 l0 s l pgdir a oldsz newsz fuel :
  0 ≤ oldsz < newsz → newsz < KERNBASE → PGROUNDUP oldsz < newsz → PGROUNDUP oldsz ≤ a → a mod 4096 = 0 →
  newsz - a ≤ 4096 * Z.of_nat n → a < newsz + 4096 → (n < fuel)%nat →
  (∀ va, PGROUNDUP oldsz ≤ pgbase va < newsz → mapped (pte (m_mem s0) pgdir va) = false) →
  extended pgdir (PGROUNDUP oldsz) a s0 l0 s l [] →
  wp (allocuvm_loop fuel pgdir a oldsz newsz) s (λ r s', ∃ l',
    r = newsz ∧ extended pgdir (PGROUNDUP oldsz) newsz s0 l0 s' l' [] ∨
    r = 0 ∧ undone pgdir (PGROUNDUP oldsz) newsz s0 l0 s' l' []).
Proof.
  intros Ho Hn Hrn Hlo Hal Hcnt Ha Hfuel Hun. unfold KERNBASE in Hn.
  assert (0 ≤ PGROUNDUP oldsz ∧ PGROUNDUP oldsz mod 4096 = 0) as [Hlo0 Hloal].
  { rewrite PGROUNDUP_eq by lia. split; zdiv. }
  revert s l a fuel Hlo Hal Hcnt Ha Hfuel. induction n as [|n IH];
    intros s l a fuel Hlo Hal Hcnt Ha Hfuel He; (destruct fuel as [|fuel]; [lia |]); cbn [allocuvm_loop].
  all: destruct (Z.ltb_spec a newsz) as [Hlt|Hge];
    [| apply wp_ret; exists l; left; split; [done | eapply extended_end; [| |exact He]; lia]].
  { lia. }
  apply wp_bind. eapply wp_mono; [apply (kalloc_spec s l), He |].
  intros r s1 (Hm1 & Hw1 & Hr). destruct l as [|p l].
  - destruct Hr as [-> Hk1]. simpl. apply wp_bind. eapply wp_mono.
    { eapply (allocuvm_undo _ a _ _ _ _ s1 [] []); try done; unfold KERNBASE; try lia.
      eapply extended_mem; [exact He | exact Hm1 | exact Hw1 | exact Hk1]. }
    intros _ s2 (l2 & Hu). apply wp_ret. exists l2. by right.
  - destruct Hr as [-> Hk1]. pose proof (e_inv _ _ _ _ _ _ _ _ He) as Hk.
    pose proof (ki_pages _ _ Hk) as Hpp. apply list.Forall_cons in Hpp as [Hp _].
    pose proof (page_ok_facts p Hp) as (_ & Hp0 & Hp1 & _ & Hp4 & Hp3). destruct (Z.eqb_spec p 0); [lia |].
    apply wp_bind. eapply wp_intro.
    { unfold kmemset, PGSIZE. by rewrite page_ok_direct by (done || lia). }
    assert (a ≤ KERNBASE) as Hakb by (unfold KERNBASE; lia).
    pose proof (extended_take _ _ _ _ _ _ _ _ s1 Hlo0 Hakb Hloal Hal He Hm1 Hw1 Hk1) as He2.
    set (s2 := set_mem _ _) in *. destruct (e_held _ _ _ _ _ _ _ _ He2 p) as (_ & _ & Hpl & Hpu & _); [by left |].
    apply wp_bind. eapply wp_mono.
    { apply (mappages_page s2 pgdir l); rewrite ?Hp3; try done; try apply He2;
        unfold KERNBASE, PHYSTOP in *; try lia.
      rewrite (e_out _ _ _ _ _ _ _ _ He2) by (unfold pgbase; zdiv). apply Hun. unfold pgbase. zdiv. }
    intros r s3 (l3 & Hg & [[-> Hpte]|(-> & -> & Hpte)]); simpl.
    + unfold PGSIZE. rewrite u32_id by lia. apply (IH s3 l3); try lia; [zdiv |].
      eapply extended_map; try done. unfold KERNBASE; lia.
    + apply wp_bind. eapply wp_mono.
      { eapply (allocuvm_undo _ a _ _ _ _ s3 [] [p]); try done; unfold KERNBASE; try lia.
        eapply extended_grow; done. }
      intros _ s4 (l4 & Hu). apply wp_bind. eapply wp_mono; [by eapply undone_kfree |].
      intros [] s5 Hu5. apply wp_ret. exists (p :: l4). by right.
Qed.

(** [allocuvm] to a larger size, over an unmapped area: either all its pages
    are mapped to zeroed frames, or memory ran out and none is. *)
Lemma allocuvm_spec s l pgdir oldsz newsz :
  kalloc_inv s l → aspace (m_mem s) pgdir l → 0 ≤ oldsz ≤ newsz → newsz < KERNBASE →
  (∀ va, PGROUNDUP oldsz ≤ pgbase va < newsz → mapped (pte (m_mem s) pgdir va) = false) →
  wp (allocuvm pgdir oldsz newsz) s (λ r s', ∃ l',
    r = newsz ∧ extended pgdir (PGROUNDUP oldsz) newsz s l s' l' [] ∨
    r = 0 ∧ undone pgdir (PGROUNDUP oldsz) newsz s l s' l' []).
Proof.
  intros Hk Ha Ho Hn Hun. unfold KERNBASE in Hn. unfold allocuvm.
  destruct (Z.leb_spec KERNBASE newsz); [unfold KERNBASE in *; lia |].
  destruct (Z.ltb_spec newsz oldsz); [lia |].
  assert (PGROUNDUP oldsz = (oldsz + 4095) - (oldsz + 4095) mod 4096) as Hp
    by (apply PGROUNDUP_eq; lia).
  destruct (Z.lt_ge_cases (PGROUNDUP oldsz) newsz) as [Hlt|Hge].
  - apply (allocuvm_loop_spec (Z.to_nat ((newsz - PGROUNDUP oldsz + 4095) / 4096)) s l s l);
      try done; unfold KERNBASE, PGSIZE; try lia; try zdiv.
    by apply extended_refl.
  - cbn [allocuvm_loop]. destruct (Z.ltb_spec (PGROUNDUP oldsz) newsz); [lia |].
    apply wp_ret. exists l. left. split; [done |]. eapply extended_end; [| |by apply extended_refl]; zdiv.
Qed.

(** ** [freevm] *)

(** Freeing one table keeps the directory as it is. *)
Lemma freevm_loop_spec n s l pgdir i :
  kalloc_inv s l → page_ok pgdir →
  (∀ j, 0 ≤ j < 1024 → tab (m_mem s) pgdir j = None → Z.testbit (pde (m_mem s) pgdir j) 10 = false) →
  0 ≤ i → i + Z.of_nat n ≤ 1024 →
  (∀ j t, i ≤ j → tab (m_mem s) pgdir j = Some t → page_ok t ∧ (t ∉ l) ∧ t ≠ pgdir) →
  (∀ j j' t, tab (m_mem s) pgdir j = Some t → tab (m_mem s) pgdir j' = Some t → j = j') →
  wp (freevm_loop pgdir i n) s (λ _ s', ∃ k, kalloc_inv s' (k ++ l) ∧ same_hw s s' ∧
    (∀ p, p ∈ k ↔ ∃ j, i ≤ j < i + Z.of_nat n ∧ tab (m_mem s) pgdir j = Some p) ∧
    (∀ p x, page_ok p → p ∉ k → in_page p x → rd (m_mem s') x = rd (m_mem s) x)).
Proof.
  revert s l i. induction n as [|n IH]; intros s l i Hk Hd Hcl Hi Hn Ht Hinj; cbn [freevm_loop].
  { apply wp_ret. exists []. split_and!; try done. intros p. split; [set_solver | intros (j & ? & _); lia]. }
  destruct (entry_addr pgdir i Hd ltac:(lia)) as (-> & _).
  apply wp_bind. eapply wp_intro; [apply load32_entry; [done | lia] |].
  fold (pde (m_mem s) pgdir i). rewrite has_PE.
  destruct (tab (m_mem s) pgdir i) as [t|] eqn:Et.
  - assert (Z.testbit (pde (m_mem s) pgdir i) 0 = true ∧ t = P2V (PTE_ADDR (pde (m_mem s) pgdir i))) as [-> <-].
    { revert Et. unfold tab. destruct (Z.testbit _ 0); [|by rewrite andb_false_r].
      rewrite andb_true_r. case_match; [|done]. by intros [= <-]. }
    destruct (Ht i t ltac:(lia) Et) as (Htp & Htl & Htd). cbn [orb].
    apply wp_bind. eapply wp_mono; [by apply (kfree_spec s l t) |]. intros [] s1 (Hk1 & Hw1 & Hm1).
    assert (∀ x, in_page pgdir x → rd (m_mem s1) x = rd (m_mem s) x) as Hdir.
    { intros x Hx. apply Hm1. intros Hx'. by apply Htd, (in_page_disj t pgdir x). }
    assert (∀ j, tab (m_mem s1) pgdir j = tab (m_mem s) pgdir j) as Htab by (intros; by apply tab_ext).
    eapply wp_mono; [apply (IH s1 (t :: l)); try done; try lia |].
    + intros j Hj. rewrite Htab, (pde_ext (m_mem s)) by done. by apply Hcl.
    + intros j t'. rewrite Htab. intros Hj Hjt. destruct (Ht j t' ltac:(lia) Hjt) as (? & ? & ?).
      split_and!; try done. apply not_elem_of_cons. split; [|done]. intros ->.
      specialize (Hinj _ _ _ Et Hjt). lia.
    + intros j j' t'. rewrite !Htab. apply Hinj.
    + intros [] s2 (k & Hk2 & Hw2 & Hin2 & Hm2). exists (k ++ [t]). rewrite <- (assoc_L (++)).
      split_and!; [done | by etrans | |].
      * intros p. rewrite elem_of_app, Hin2, list_elem_of_singleton. setoid_rewrite Htab. split.
        -- intros [(j & Hj & Hjt)| ->]; [exists j | exists i]; split; lia || done.
        -- intros (j & Hj & Hjt). destruct (decide (j = i)) as [->|]; [right; congruence |].
           left. exists j. split; [lia | done].
      * intros p x Hp Hpk Hx. apply not_elem_of_app in Hpk as [Hpk Hpt]. rewrite (Hm2 p) by done.
        apply Hm1. intros Hx'. apply Hpt. rewrite (in_page_disj p t x) by done. by left.
  - assert (Z.testbit (pde (m_mem s) pgdir i) 0 = false) as E0.
    { revert Et. unfold tab. destruct (Z.leb_spec 0 i), (Z.ltb_spec i 1024); try lia.
      cbn [andb]. by case_match. }
    rewrite E0, (Hcl i) by (done || lia). cbn [orb]. apply wp_bind, wp_ret.
    eapply wp_mono; [apply (IH s l); try done; try lia |]. { intros j t' Hj. apply Ht. lia. }
    intros [] s2 (k & Hk2 & Hw2 & Hin2 & Hm2). exists k. split_and!; try done.
    intros p. rewrite Hin2. split; intros (j & Hj & Hjt); exists j; (split; [|done]); [lia |].
    destruct (decide (j = i)) as [->|]; [congruence | lia].
Qed.

(** [freevm] returns every page the address space owns to the free list, and
    touches no other page. *)
Lemma freevm_spec s l pgdir :
  kalloc_inv s l → aspace (m_mem s) pgdir l →
  wp (freevm pgdir) s (λ _ s', ∃ k, kalloc_inv s' (k ++ l) ∧ same_hw s s' ∧
    (∀ p, p ∈ k ↔ ∃ sl, slot_page (m_mem s) pgdir sl = Some p) ∧
    (∀ p x, page_ok p → p ∉ k → in_page p x → rd (m_mem s') x = rd (m_mem s) x)).
Proof.
  intros Hk Ha. destruct (as_page _ _ _ Ha SDir pgdir eq_refl) as [Hd Hdl].
  pose proof (page_ok_facts pgdir Hd) as (_ & _ & _ & _ & Hd0 & _).
  unfold freevm. destruct (Z.eqb_spec pgdir 0); [lia |]. apply wp_bind.
  eapply wp_mono; [apply (deallocuvm_spec s pgdir l KERNBASE 0); try done; unfold KERNBASE; lia |].
  intros r s1 (_ & k1 & [F1 F2 F3 F4 F5 F6 F7]). change (PGROUNDUP 0) with 0 in *.
  apply wp_bind. eapply wp_mono.
  { apply (freevm_loop_spec _ s1 (k1 ++ l)); try done.
    - apply (as_clean _ _ _ F2).
    - intros j t Hj Ht. destruct (as_page _ _ _ F2 (STab j) t Ht). split_and!; try done.
      intros ->. by pose proof (as_inj _ _ _ F2 SDir (STab j) _ eq_refl Ht).
    - intros j j' t Ht Ht'. by pose proof (as_inj _ _ _ F2 (STab j) (STab j') t Ht Ht') as [= ->]. }
  intros [] s2 (k2 & Hk2 & Hw2 & Hin2 & Hm2). change (Z.of_nat (Z.to_nat NPDENTRIES)) with 1024 in Hin2.
  assert (pgdir ∉ k2 ++ k1 ++ l) as Hdn.
  { rewrite elem_of_app. intros [(j & _ & Hj)%Hin2|Hj].
    - by pose proof (as_inj _ _ _ F2 SDir (STab j) _ eq_refl Hj).
    - by destruct (as_page _ _ _ F2 SDir pgdir eq_refl). }
  eapply wp_mono; [by apply (kfree_spec s2 (k2 ++ k1 ++ l) pgdir) |]. intros [] s3 (Hk3 & Hw3 & Hm3).
  exists (pgdir :: k2 ++ k1). split_and!.
  - by rewrite <- app_comm_cons, <- (assoc_L (++)).
  - etrans; [exact F3 |]. by etrans.
  - intros p. rewrite elem_of_cons, elem_of_app, Hin2, F6. setoid_rewrite F4. split.
    + intros [->|[(j & _ & Hj)|(v & _ & Hv)]]; [by exists SDir | by exists (STab j) | by exists (SFrame v)].
    + intros [[|j|v] Hs]; [left; by injection Hs | right; left; exists j | right; right; exists v].
      * split; [by eapply tab_range | done].
      * split; [|done]. simpl in Hs. destruct (Z.leb_spec 0 v), (Z.ltb_spec v (2 ^ 19)); try done.
        unfold KERNBASE. lia.
  - intros p x Hp Hpk Hx. apply not_elem_of_cons in Hpk as [Hpd [Hpk2 Hpk1]%not_elem_of_app].
    rewrite Hm3 by (intros Hx'; by apply Hpd, (in_page_disj p pgdir x)).
    rewrite (Hm2 p), (F7 p); try done. intros [->|[j Hj]]; [done |]. apply Hpk2, Hin2.
    exists j. rewrite F4. split; [by eapply tab_range | done].
Qed.

End VmUser.
