(* ===== verification/VmKern.v ===== *)
(** * Kernel mappings: [setupkvm], [kvmalloc], [switchuvm]

    A new page directory maps the areas of [kmap] and no user page. *)

From S2P Require Import Prelude Mmu Mem Spinlock Kalloc Vm VmSpec VmUser.

Section VmKern.
Context {L : Linker}.

(** ** The empty directory *)

Lemma ld32_zero_page m p i : zero_page m p → 0 ≤ i < 1024 → ld32 m (V2P p + 4 * i) = 0.
Proof.
  intros Hz Hi. rewrite <- (ld32_zeroed m (V2P p) 4096 (V2P p + 4 * i)) by lia.
  apply ld32_ext. intros x Hx. rewrite rd_memset, Hz by (unfold in_page; lia).
  by case_cmp; simpl; try lia.
Qed.

Lemma zero_dir m d l :
  page_ok d → d ∉ l → zero_page m d →
  aspace m d l ∧ (∀ va, pte m d va = 0) ∧ (∀ i, tab m d i = None).
Proof.
  intros Hd Hdl Hz.
  assert (∀ i, 0 ≤ i < 1024 → pde m d i = 0) as Hpde by (intros i; by apply ld32_zero_page).
  assert (∀ i, tab m d i = None) as Htab.
  { intros i. unfold tab. destruct (Z.leb_spec 0 i), (Z.ltb_spec i 1024); cbn [andb]; try done.
    by rewrite Hpde by lia. }
  assert (∀ va, pte m d va = 0) as Hpte by (intros va; unfold pte; by rewrite Htab).
  split_and!; try done.
  assert (∀ sl p, slot_page m d sl = Some p → sl = SDir ∧ p = d) as Hs.
  { intros [|i|v] p; simpl; [by intros [= <-] | by rewrite Htab |].
    rewrite Hpte. by rewrite andb_false_r. }
  constructor.
  - intros sl p [_ ->]%Hs. done.
  - intros sl1 sl2 p [-> _]%Hs [-> _]%Hs. done.
  - intros i Hi _. by rewrite Hpde.
  - intros i t. by rewrite Htab.
Qed.

(** ** [setupkvm] *)

Definition k_size (k : kmap_entry) : Z := u32 (k_phys_end k - k_phys_start k).

Definition k_covers (k : kmap_entry) (va : Z) : bool := (k_virt k <=? va) && (va <? k_virt k + k_size k).

(** The entry that the areas [ks] give to [va]; [e] where they give none. *)
Fixpoint kview (ks : list kmap_entry) (va e : Z) : Z :=
  match ks with
  | [] => e
  | k :: ks =>
    if k_covers k va then map_entry (k_phys_start k + (pgbase va - k_virt k)) (k_perm k)
    else kview ks va e
  end.

(** Page-aligned areas above [KERNBASE] that do not overlap. *)
Definition k_ok (k : kmap_entry) : Prop :=
  KERNBASE ≤ k_virt k ∧ k_virt k mod 4096 = 0 ∧ 0 < k_size k ∧ k_size k mod 4096 = 0 ∧
  k_virt k + k_size k ≤ 2 ^ 32 ∧ 0 ≤ k_phys_start k ∧ k_phys_start k mod 4096 = 0 ∧
  k_phys_start k + k_size k ≤ 2 ^ 32 ∧ 0 ≤ k_perm k < 4096.

Fixpoint kmap_ok (ks : list kmap_entry) : Prop :=
  match ks with
  | [] => True
  | k :: ks => k_ok k ∧ (∀ va, k_covers k va = true → Forall (λ k', k_covers k' va = false) ks) ∧ kmap_ok ks
  end.

Lemma kview_none ks va e : Forall (λ k, k_covers k va = false) ks → kview ks va e = e.
Proof. induction 1 as [|k ks Hk _ IH]; [done |]. simpl. by rewrite Hk. Qed.

Lemma kmap_ok_elem ks k : kmap_ok ks → k ∈ ks → k_ok k.
Proof. induction ks as [|k' ks IH]; [set_solver |]. intros (? & _ & ?) [->|?]%elem_of_cons; auto. Qed.

(** The sizes of the four areas; the last wraps around to 0. *)
Lemma kmap_sizes :
  k_size <$> kmap = [0x100000; k_data - KERNLINK; KERNBASE + PHYSTOP - k_data; 0x2000000].
Proof.
  pose proof k_range as (H1 & H2 & H3). unfold KERNLINK, EXTMEM, KERNBASE in *.
  unfold kmap. cbn [fmap list_fmap]. unfold k_size. cbn [k_phys_end k_phys_start].
  rewrite (V2P_eq k_data) by (unfold KERNBASE; lia). rewrite (V2P_eq KERNLINK) by (split; by vm_compute).
  rewrite !(u32_id (_ - (_ - _))) by (unfold KERNLINK, EXTMEM, KERNBASE, PHYSTOP; lia).
  change (u32 (EXTMEM - 0)) with 0x100000. change (u32 (0 - DEVSPACE)) with 0x2000000.
  replace (k_data - KERNBASE - (KERNLINK - KERNBASE)) with (k_data - KERNLINK) by lia.
  replace (PHYSTOP - (k_data - KERNBASE)) with (KERNBASE + PHYSTOP - k_data) by lia. reflexivity.
Qed.

Lemma kmap_kmap_ok : kmap_ok kmap.
Proof.
  pose proof kmap_sizes as Hsz. pose proof k_range as (H1 & H2 & H3). pose proof k_data_aligned as Hal.
  unfold kmap in *. cbn [fmap list_fmap] in Hsz. injection Hsz as Hs2 Hs3.
  assert (k_size (Kmap KERNBASE 0 EXTMEM PTE_W) = 0x100000) as Hs1 by reflexivity.
  assert (k_size (Kmap DEVSPACE DEVSPACE 0 PTE_W) = 0x2000000) as Hs4 by reflexivity.
  rewrite (V2P_eq k_data) in * by (unfold KERNLINK, EXTMEM, KERNBASE in *; lia).
  cbn [kmap_ok]. unfold k_ok. rewrite Hs1, Hs2, Hs3, Hs4. cbn [k_virt k_phys_start k_perm].
  change (V2P KERNLINK) with 0x100000 in *.
  split_and!; try (intros va Hc; repeat constructor; revert Hc; unfold k_covers; cbn beta;
    rewrite ?Hs1, ?Hs2, ?Hs3, ?Hs4; cbn [k_virt]).
  all: unfold KERNLINK, EXTMEM, KERNBASE, PHYSTOP, DEVSPACE, PTE_W in *.
  all: try (case_cmp; simpl; lia || done); try lia; try zdiv; done.
Qed.

(** A directory without user pages that is given up: all its pages are free
    again. *)
Definition dir_undone (d : Z) (s : mach) (l : list Z) (s' : mach) : Prop :=
  ∃ l', kalloc_inv s' l' ∧ same_hw s s' ∧
    (∀ p, p ∈ l' ↔ p ∈ l ∨ is_table (m_mem s) d p) ∧
    (∀ p x, page_ok p → p ∉ l → ¬ is_table (m_mem s) d p → in_page p x →
       rd (m_mem s') x = rd (m_mem s) x).

Definition no_user (m : mem) (d : Z) : Prop :=
  ∀ va, 0 ≤ va < KERNBASE → mapped (pte m d va) = false.

Lemma no_user_slot m d sl p : no_user m d → slot_page m d sl = Some p ↔
  match sl with SDir => p = d | STab i => tab m d i = Some p | SFrame _ => False end.
Proof.
  intros Hu. destruct sl as [|i|v]; simpl; [|done|].
  - split; [by intros [= ->] | by intros ->].
  - split; [|done]. destruct (Z.leb_spec 0 v), (Z.ltb_spec v (2 ^ 19)); cbn [andb]; try done.
    by rewrite Hu by (unfold KERNBASE; lia).
Qed.

Lemma undo_dir s l d s1 :
  grows d s l s1 [] → no_user (m_mem s1) d →
  wp (freevm d;; mret 0) s1 (λ r s', r = 0 ∧ dir_undone d s l s').
Proof.
  intros [G1 G2 G3 G4 G5 G6 G7 G8] Hu. apply wp_bind. eapply wp_mono; [by apply (freevm_spec s1 [] d) |].
  intros [] s2 (k & Hk & Hw & Hin & Hm). apply wp_ret. split; [done |]. exists k.
  rewrite app_nil_r in Hk.
  assert (∀ p, p ∈ k ↔ is_table (m_mem s1) d p) as Hin'.
  { intros p. rewrite Hin. setoid_rewrite no_user_slot; [|done]. split.
    - intros [[|i|v] Hs]; [by left | right; by exists i | done].
    - intros [->|[i Hi]]; [by exists SDir | by exists (STab i)]. }
  split_and!; [done | by etrans | |].
  - intros p. rewrite Hin'. split; [intros Ht; destruct (G6 p Ht); auto |].
    intros [Hp|[->|[i Hi]]]; [|by left | right; eauto]. destruct (G8 p Hp); [set_solver | done].
  - intros p x Hp Hpl Hpt Hx.
    assert (¬ is_table (m_mem s1) d p) as Hnt by (intros Ht; by destruct (G6 p Ht)).
    rewrite (Hm p), (G5 p); try done. by rewrite Hin'.
Qed.

(** Earlier mappings stay when the rest fails. *)
Lemma dir_undone_trans d s l s1 l1 s' :
  grows d s l s1 l1 → dir_undone d s1 l1 s' → dir_undone d s l s'.
Proof.
  intros [G1 G2 G3 G4 G5 G6 G7 G8] (l' & U1 & U2 & U3 & U4). exists l'.
  assert (∀ p, p ∈ l1 → p ∈ l) as Hsub by (intros p; by apply suffix_elem).
  assert (∀ p, is_table (m_mem s) d p → is_table (m_mem s1) d p) as Hmono.
  { intros p [->|[i Hi]]; [by left | right; eauto]. }
  split_and!; [done | by etrans | |].
  - intros p. rewrite U3. split.
    + intros [Hp|Ht]; [auto |]. destruct (G6 p Ht); auto.
    + intros [Hp|Ht]; [destruct (G8 p Hp); auto | auto].
  - intros p x Hp Hpl Hpt Hx.
    assert (¬ is_table (m_mem s1) d p) as Hnt by (intros Ht; by destruct (G6 p Ht)).
    rewrite (U4 p), (G5 p); auto.
Qed.

Lemma setupkvm_loop_spec ks s l d :
  kmap_ok ks → kalloc_inv s l → aspace (m_mem s) d l → no_user (m_mem s) d →
  (∀ k va, k ∈ ks → k_covers k va = true → mapped (pte (m_mem s) d va) = false) →
  wp (setupkvm_loop d ks) s (λ r s',
    (r = d ∧ ∃ l', grows d s l s' l' ∧
       ∀ va, 0 ≤ va < 2 ^ 32 → pte (m_mem s') d va = kview ks va (pte (m_mem s) d va)) ∨
    (r = 0 ∧ dir_undone d s l s')).
Proof.
  revert s l. induction ks as [|k ks IH]; intros s l Hok Hk Ha Hu Hun; cbn [setupkvm_loop].
  { apply wp_ret. left. split; [done |]. exists l. split; [by apply grows_refl | done]. }
  destruct Hok as ((Hv & Hval & Hs & Hsal & Hv32 & Hp & Hpal & Hp32 & Hperm) & Hsep & Hok).
  fold (k_size k).
  assert (∀ i, 0 ≤ 4096 * i < k_size k → k_covers k (k_virt k + 4096 * i) = true) as Hcov.
  { intros i Hi. unfold k_covers. case_cmp; simpl; lia || done. }
  apply wp_bind. eapply wp_mono.
  { apply (mappages_spec s d l); try done; unfold KERNBASE in *; try lia.
    - intros i Hi. apply (Hun k); [by left | auto].
    - intros i Hi Hlt. unfold KERNBASE in *. lia. }
  intros r s1 (l1 & n & Hg & Hr & Hpte).
  assert (no_user (m_mem s1) d) as Hu1.
  { unfold no_user, KERNBASE in *. intros va Hva. rewrite Hpte by lia. destruct (Z.leb_spec (k_virt k) va); [lia |].
    by apply Hu. }
  destruct Hr as [[-> ->]|(-> & Hn & ->)]; simpl.
  - eapply wp_mono; [apply (IH s1 l1); try done; try apply Hg |].
    + intros k' va Hk' Hc. pose proof (kmap_ok_elem _ _ Hok Hk') as (Hv' & _ & _ & _ & Hv32' & _).
      assert (0 ≤ va < 2 ^ 32) as Hva.
      { revert Hc. unfold k_covers, KERNBASE in *. case_cmp; simpl; lia || done. }
      rewrite Hpte by done. replace (4096 * ((k_size k + 4095) / 4096)) with (k_size k) by zdiv.
      fold (k_covers k va). destruct (k_covers k va) eqn:Hc0; [|apply (Hun k'); [by right | done]].
      specialize (Hsep va Hc0). rewrite list.Forall_forall in Hsep. by rewrite Hsep in Hc.
    + intros r s2 [(-> & l2 & Hg2 & Hpte2)|[-> Hgu]].
      * left. split; [done |]. exists l2. split; [by eapply grows_trans |].
        intros va Hva. rewrite Hpte2, Hpte by done. cbn [kview]. unfold k_covers, pgbase.
        replace (4096 * ((k_size k + 4095) / 4096)) with (k_size k) by zdiv.
        case_match eqn:Hc; [|done]. by apply kview_none, Hsep.
      * right. split; [done |]. by eapply dir_undone_trans.
  - eapply wp_mono; [by apply (undo_dir s l d s1) |]. intros r s2 [-> Hgu]. by right.
Qed.

(** [d] is a directory made of free pages of [s], with the view [v]. *)
Record new_dir (d : Z) (v : Z → Z) (s : mach) (l : list Z) (s' : mach) (l' : list Z) : Prop := NewDir {
  n_inv : kalloc_inv s' l';
  n_as : aspace (m_mem s') d l';
  n_hw : same_hw s s';
  n_sub p : p ∈ l' → p ∈ l;
  n_pte va : 0 ≤ va < 2 ^ 32 → pte (m_mem s') d va = v va;
  n_own sl p : slot_page (m_mem s') d sl = Some p → p ∈ l;
  n_leak p : p ∈ l → p ∈ l' ∨ ∃ sl, slot_page (m_mem s') d sl = Some p;
  n_mem p x : page_ok p → p ∉ l → in_page p x → rd (m_mem s') x = rd (m_mem s) x;
}.

(** No page was gained or lost, and pages that were in use are as before. *)
Definition nothing_done (s : mach) (l : list Z) (s' : mach) : Prop :=
  ∃ l', kalloc_inv s' l' ∧ same_hw s s' ∧ (∀ p, p ∈ l' ↔ p ∈ l) ∧
    (∀ p x, page_ok p → p ∉ l → in_page p x → rd (m_mem s') x = rd (m_mem s) x).

Lemma kview_user va : va < KERNBASE → kview kmap va 0 = 0.
Proof.
  intros Hva. apply kview_none, list.Forall_forall. intros k Hk.
  pose proof (kmap_ok_elem _ _ kmap_kmap_ok Hk) as (Hv & _). unfold k_covers.
  case_cmp; simpl; lia || done.
Qed.

(** [setupkvm]: a directory with the kernel's mappings and no user page, or
    null with everything as before. *)
Lemma setupkvm_spec s l :
  kalloc_inv s l →
  wp setupkvm s (λ r s',
    (r = 0 ∧ nothing_done s l s') ∨
    (r ≠ 0 ∧ ∃ l', new_dir r (λ va, kview kmap va 0) s l s' l')).
Proof.
  intros Hk. unfold setupkvm. apply wp_bind. eapply wp_mono; [by apply kalloc_spec |].
  intros r s1 (Hm1 & Hw1 & Hr). destruct l as [|d l].
  { destruct Hr as [-> Hk1]. apply wp_ret. left. split; [done |]. exists []. rewrite Hm1. by split_and!. }
  destruct Hr as [-> Hk1]. pose proof (ki_pages _ _ Hk) as Hpp. apply list.Forall_cons in Hpp as [Hd Hpp].
  pose proof (ki_nodup _ _ Hk) as Hnd. apply list.NoDup_cons in Hnd as [Hdl _].
  pose proof (page_ok_facts d Hd) as (_ & _ & _ & _ & Hd0 & _). destruct (Z.eqb_spec d 0); [lia |].
  apply wp_bind. eapply wp_intro. { unfold kmemset, PGSIZE. by rewrite page_ok_direct by (done || lia). }
  change (DEVSPACE <? P2V PHYSTOP) with false. cbv iota.
  set (s2 := set_mem _ _).
  assert (∀ x, rd (m_mem s2) x = if (V2P d <=? x) && (x <? V2P d + 4096) then 0 else rd (m_mem s1) x) as Hrd
    by (intros x; by apply rd_memset).
  destruct (zero_dir (m_mem s2) d l Hd Hdl) as (Ha2 & Hpte2 & Htab2).
  { intros x Hx. rewrite Hrd. unfold in_page in Hx. by case_cmp; simpl; try lia. }
  assert (∀ p x, page_ok p → p ≠ d → in_page p x → rd (m_mem s2) x = rd (m_mem s) x) as Hm2.
  { intros p x Hp Hne Hx. rewrite <- Hm1. by apply (rd_memset_page _ p). }
  assert (kalloc_inv s2 l) as Hk2.
  { eapply kalloc_inv_ext; [| | |exact Hk1]; try done. intros p x Hp Hx. rewrite Hm1.
    rewrite list.Forall_forall in Hpp. apply (Hm2 p); auto. by intros ->. }
  assert (∀ p, is_table (m_mem s2) d p ↔ p = d) as Hist.
  { intros p. unfold is_table. setoid_rewrite Htab2. naive_solver. }
  assert (same_hw s s2) as Hw2 by (etrans; [exact Hw1 | by unfold s2]).
  eapply wp_mono; [apply (setupkvm_loop_spec kmap s2 l d); try done |].
  - apply kmap_kmap_ok.
  - intros va _. by rewrite Hpte2.
  - intros k va _ _. by rewrite Hpte2.
  - intros r s3 [(-> & l3 & [G1 G2 G3 G4 G5 G6 G7 G8] & Hpte3)|(-> & l3 & U1 & U2 & U3 & U4)]; [right | left].
    + assert (no_user (m_mem s3) d) as Hu.
      { unfold no_user, KERNBASE. intros va Hva. rewrite Hpte3, Hpte2, kview_user by (unfold KERNBASE; lia). done. }
      split; [lia |]. exists l3. constructor; try done.
      * by etrans.
      * intros p Hp. right. by eapply suffix_elem.
      * intros va Hva. by rewrite Hpte3, Hpte2.
      * intros sl p Hs. apply no_user_slot in Hs; [|done].
        assert (is_table (m_mem s3) d p) as Ht by (destruct sl; [by left | right; by eexists | done]).
        destruct (G6 p Ht) as [->%Hist|]; [by left | by right].
      * intros p [->|Hp]%elem_of_cons; [right; by exists SDir |].
        destruct (G8 p Hp) as [|[->|[i Hi]]]; [by left | right; by exists SDir | right; by exists (STab i)].
      * intros p x Hp Hpl Hx. apply not_elem_of_cons in Hpl as [Hpd Hpl].
        rewrite (G5 p), (Hm2 p); try done. intros Ht. by destruct (G6 p Ht) as [->%Hist|].
    + split; [done |]. exists l3. split_and!; [done | by etrans | |].
      * intros p. rewrite U3, Hist, elem_of_cons. naive_solver.
      * intros p x Hp [Hpd Hpl]%not_elem_of_cons Hx. rewrite (U4 p), (Hm2 p); try done. by rewrite Hist.
Qed.

(** ** [switchuvm] *)

(** CR3 holds the process's directory and the task state its kernel stack;
    interrupts are as before. *)
Lemma switchuvm_spec s kstack pgdir :
  Spin.cpu_ok (m_cpu s) → kstack ≠ 0 → pgdir ≠ 0 →
  wp (switchuvm (Some (kstack, pgdir))) s (λ _ s',
    m_mem s' = m_mem s ∧ m_kmem s' = m_kmem s ∧ m_kpgdir s' = m_kpgdir s ∧ m_cr3 s' = V2P pgdir ∧
    m_tss s' = Tss (Z.shiftl SEG_KDATA 3) (u32 (kstack + KSTACKSIZE)) 0xFFFF ∧
    Spin.cpu_ok (m_cpu s') ∧ eflags_if (m_cpu s') = eflags_if (m_cpu s) ∧
    ncli (m_cpu s') = ncli (m_cpu s) ∧ apicid (m_cpu s') = apicid (m_cpu s)).
Proof.
  intros Hc Hk Hp. unfold switchuvm. destruct (Z.eqb_spec kstack 0), (Z.eqb_spec pgdir 0); try done.
  destruct (Spin.push_pop 1 (m_cpu s) Hc) as (c' & E & H1 & H2 & H3 & _); [lia |].
  simpl in E. unfold mbind, M_bind in E. destruct (Spin.pushcli (m_cpu s)) as [[[] c1]|] eqn:E1; [|done].
  simpl in E. destruct (Spin.popcli c1) as [[[] c2]|] eqn:E2; [|done]. injection E as ->.
  apply wp_bind, wp_zoom. eapply wp_intro; [exact E1 |].
  apply wp_bind, wp_modify, wp_bind, wp_modify, wp_zoom. eapply wp_intro; [exact E2 |].
  simpl. split_and!; try done. destruct Hc as [Hc1 Hc2]. split; rewrite H2; [done |]. by rewrite H1.
Qed.

End VmKern.
