(* ===== verification/VmCopy.v ===== *)
(** * Copying an address space: [copyuvm]

    The child gets its own frame for every page of the parent, with the same
    contents and the same flags, encrypted pages included; the parent is not
    touched. *)

From S2P Require Import Prelude Mmu Mem Spinlock Kalloc Vm VmSpec VmUser VmKern.

Section VmCopy.
Context {L : Linker}.

(** Page [f] in [m] holds what the frame of entry [e] held in [m0]. *)
Definition same_page (m0 : mem) (e : Z) (m : mem) (f : Z) : Prop :=
  ∀ o, 0 ≤ o < 4096 → rd m (V2P f + o) = rd m0 (PTE_ADDR e + o).

(** From [s0] to [s] the directory [d] was made from free pages; the user
    pages below [i] are copies of those of [pgdir].  [h] are pages taken from
    the allocator, holding a copy of the page of entry [e], not mapped yet. *)
Record copied (d pgdir i : Z) (s0 : mach) (l0 : list Z) (s : mach) (l h : list Z) (e : Z) : Prop := Copied {
  c_inv : kalloc_inv s l;
  c_as : aspace (m_mem s) d l;
  c_hw : same_hw s0 s;
  c_sub p : p ∈ l → p ∈ l0;
  c_kern va : KERNBASE ≤ va < 2 ^ 32 → pte (m_mem s) d va = kview kmap va 0;
  c_hi va : 0 ≤ va < KERNBASE → i ≤ pgbase va → pte (m_mem s) d va = 0;
  c_lo va : 0 ≤ va < KERNBASE → pgbase va < i → ∃ f, page_ok f ∧ same_page (m_mem s0) (pte (m_mem s0) pgdir va) (m_mem s) f ∧
    pte (m_mem s) d va = Z.lor (V2P f) (PTE_FLAGS (pte (m_mem s0) pgdir va));
  c_own sl p : slot_page (m_mem s) d sl = Some p → p ∈ l0;
  c_leak p : p ∈ l0 → p ∈ l ∨ p ∈ h ∨ ∃ sl, slot_page (m_mem s) d sl = Some p;
  c_mem p x : page_ok p → p ∉ l0 → in_page p x → rd (m_mem s) x = rd (m_mem s0) x;
  c_held p : p ∈ h → p ∈ l0 ∧ page_ok p ∧ (p ∉ l) ∧ unowned (m_mem s) d p ∧ same_page (m_mem s0) e (m_mem s) p;
}.

(** The flags of a mapped entry are kept as they are. *)
Lemma map_entry_flags pa e :
  mapped e = true → map_entry pa (PTE_FLAGS e) = Z.lor pa (PTE_FLAGS e).
Proof.
  intros Hm. unfold map_entry. rewrite <- Z.lor_assoc. f_equal.
  assert (∀ k, 0 ≤ k < 12 → Z.testbit (PTE_FLAGS e) k = Z.testbit e k) as Hf.
  { intros k Hk. unfold PTE_FLAGS, u32. rewrite Z.land_spec, Z.testbit_mod_pow2 by lia.
    change 0xFFF with (Z.ones 12). rewrite Z.testbit_ones_nonneg by lia.
    case_cmp; try lia. by rewrite andb_true_r. }
  rewrite has_E, Hf by lia. apply Z.bits_inj'. intros i Hi. rewrite Z.lor_spec.
  destruct (Z.testbit e 10) eqn:HE.
  - change PTE_E with (2 ^ 10). rewrite testbit_pow2 by lia.
    destruct (Z.eqb_spec 10 i) as [<-|]; [|by rewrite orb_false_r]. rewrite Hf by lia. by rewrite HE.
  - unfold mapped in Hm. rewrite HE, orb_false_r in Hm.
    change PTE_P with (2 ^ 0). rewrite testbit_pow2 by lia.
    destruct (Z.eqb_spec 0 i) as [<-|]; [|by rewrite orb_false_r]. rewrite Hf by lia. by rewrite Hm.
Qed.

(** The frame behind an entry of the child. *)
Lemma flag_entry_frame m d va f e :
  0 ≤ va < KERNBASE → page_ok f → mapped e = true → 0 ≤ e < 2 ^ 32 →
  pte m d va = Z.lor (V2P f) (PTE_FLAGS e) →
  mapped (pte m d va) = true ∧ slot_page m d (SFrame (va / 4096)) = Some f.
Proof.
  intros Hva Hf He He32 Hp. pose proof (page_ok_facts f Hf) as (_ & Hf0 & Hf1 & Hf2 & _ & Hf3).
  rewrite <- map_entry_flags in Hp by done.
  destruct (map_entry_facts (V2P f) (PTE_FLAGS e)) as (_ & Hfa & Hfm);
    [unfold PHYSTOP in *; lia | done | rewrite PTE_FLAGS_eq by done; apply Z.mod_pos_bound; lia |].
  rewrite slot_frame; rewrite ?Hp; try done. by rewrite Hfa, Hf3.
Qed.

(** The parent, read in a state where only free pages were written. *)
Lemma parent_view m0 m pgdir l0 :
  aspace m0 pgdir l0 →
  (∀ p x, page_ok p → p ∉ l0 → in_page p x → rd m x = rd m0 x) →
  aspace m pgdir l0 ∧ (∀ va, pte m pgdir va = pte m0 pgdir va) ∧
  (∀ i, tab m pgdir i = tab m0 pgdir i).
Proof.
  intros Ha Hm.
  assert (∀ p x, is_table m0 pgdir p → in_page p x → rd m x = rd m0 x) as Ht.
  { intros p x [->|[i Hi]] Hx.
    - destruct (as_page _ _ _ Ha SDir pgdir eq_refl). by apply (Hm pgdir).
    - destruct (as_page _ _ _ Ha (STab i) p Hi). by apply (Hm p). }
  split_and!; [by eapply aspace_ext | intros; by apply pte_ext |].
  intros i. apply tab_ext. intros x. apply Ht. by left.
Qed.

Section Parent.
Context (pgdir sz : Z) (s0 : mach) (l0 : list Z).
Context (Hsz : 0 ≤ sz ≤ KERNBASE) (Ha0 : aspace (m_mem s0) pgdir l0).
Context (Hpar : ∀ va, 0 ≤ va → pgbase va < sz → mapped (pte (m_mem s0) pgdir va) = true).

(** The parent's frames are in use. *)
Lemma parent_frame va :
  0 ≤ va → pgbase va < sz → let e := pte (m_mem s0) pgdir va in
  page_ok (P2V (PTE_ADDR e)) ∧ (P2V (PTE_ADDR e) ∉ l0) ∧ V2P (P2V (PTE_ADDR e)) = PTE_ADDR e.
Proof using Hsz Ha0 Hpar.
  intros Hva Hb e. assert (0 ≤ va < KERNBASE) as Hvk by (unfold pgbase, KERNBASE in *; zdiv).
  destruct (as_page _ _ _ Ha0 _ _ (slot_frame _ _ _ Hvk (Hpar va Hva Hb))) as [Hf Hfl].
  split_and!; [done.. |]. apply V2P_P2V, PTE_ADDR_range.
Qed.

(** Taking a page and copying one of the parent's pages to it. *)
Lemma copied_take d i s p l s1 e :
  copied d pgdir i s0 l0 s (p :: l) [] 0 → i < sz → i mod 4096 = 0 → 0 ≤ i →
  e = pte (m_mem s0) pgdir i →
  m_mem s1 = m_mem s → same_hw s s1 → kalloc_inv s1 l →
  copied d pgdir i s0 l0 (set_mem (memmove (m_mem s1) (V2P p) (PTE_ADDR e) 4096) s1) l [p] e.
Proof using Hsz Ha0 Hpar.
  intros He Hi Hal Hi0 Hee Hm1 Hw1 Hk1. set (s2 := set_mem _ _).
  pose proof He as [C1 C2 C3 C4 C5 C6 C7 C8 C9 C10 _].
  pose proof (ki_pages _ _ C1) as Hpp. apply list.Forall_cons in Hpp as [Hp _].
  pose proof (ki_nodup _ _ C1) as Hn. apply list.NoDup_cons in Hn as [Hpl _].
  assert (p ∈ l0) as Hpl0 by (apply C4; by left). rewrite <- Hm1 in *.
  assert (∀ x, ¬ in_page p x → rd (m_mem s2) x = rd (m_mem s1) x) as Hout.
  { intros x Hx. simpl. rewrite rd_memmove by lia. unfold in_page in Hx. case_cmp; simpl; lia || done. }
  destruct (fresh_write s1 d p l (m_mem s2) Hp Hk1 Hpl C2 Hout) as (F1 & F2 & F3 & F4 & F5).
  assert (∀ q x, page_ok q → q ≠ p → in_page q x → rd (m_mem s2) x = rd (m_mem s1) x) as Hq.
  { intros q x Hq Hne Hx. apply Hout. intros Hx'. by apply Hne, (in_page_disj q p x). }
  assert (∀ sl, slot_page (m_mem s2) d sl = slot_page (m_mem s1) d sl) as Hsl.
  { intros [|j|v]; simpl; [done | apply F4 | by rewrite F3]. }
  constructor; try done.
  - etrans; [exact C3 |]. etrans; [exact Hw1 |]. by unfold s2.
  - intros q Hql. apply C4. by right.
  - intros va. rewrite F3. apply C5.
  - intros va. rewrite F3. apply C6.
  - intros va Hva Hb. rewrite F3. destruct (C7 va Hva Hb) as (f & Hf & Hfs & Hfe).
    exists f. split_and!; try done. intros o Ho. rewrite <- Hfs by done.
    apply (Hq f); [done | | unfold in_page; lia]. intros ->.
    destruct (flag_entry_frame (m_mem s1) d va p (pte (m_mem s0) pgdir va)) as [_ Hs];
      [done.. | apply Hpar; [lia |] | apply pte_range | done |].
    { unfold pgbase in *. zdiv. }
    destruct (as_page _ _ _ C2 _ _ Hs) as [_ []]. by left.
  - intros sl q. rewrite Hsl. apply C8.
  - intros q Hql. setoid_rewrite Hsl. destruct (C9 q Hql) as [Hq'|[Hq'|?]]; [|set_solver|by do 2 right].
    apply elem_of_cons in Hq' as [->|]; [right; left; by left | by left].
  - intros q x Hqo Hql Hx. rewrite (Hq q); [by apply (C10 q) | done | by intros -> | done].
  - intros q ->%list_elem_of_singleton. split_and!; try done. intros o Ho.
    simpl. rewrite rd_memmove by lia. case_cmp; simpl; try lia.
    replace (PTE_ADDR e + (V2P p + o - V2P p)) with (PTE_ADDR e + o) by lia.
    destruct (parent_frame i) as (Hf & Hfl & Hfv); [lia | unfold pgbase; zdiv |]. rewrite <- Hee in *.
    apply (C10 (P2V (PTE_ADDR e))); [done.. | unfold in_page; rewrite Hfv; lia].
Qed.

(** A page mapped at [i] below [sz], of the child or of its view, is a frame. *)
Lemma copied_frame d i va m f :
  i ≤ sz + 4095 → i mod 4096 = 0 → 0 ≤ va < KERNBASE → pgbase va < i → page_ok f →
  pte m d va = Z.lor (V2P f) (PTE_FLAGS (pte (m_mem s0) pgdir va)) →
  slot_page m d (SFrame (va / 4096)) = Some f.
Proof using Hpar.
  intros Hi Hal Hva Hb Hf He. eapply flag_entry_frame; [done.. | | apply pte_range | done].
  apply Hpar; [lia | unfold pgbase in *; zdiv].
Qed.

(** Tables added, and the page mapped at [i] if [mappages] succeeded. *)
Lemma copied_grow d i s l h e s' l' :
  i < sz → 0 ≤ i → i mod 4096 = 0 →
  copied d pgdir i s0 l0 s l h e → grows d s l s' l' →
  (∀ va, 0 ≤ va < 2 ^ 32 → pte (m_mem s') d va = pte (m_mem s) d va) →
  copied d pgdir i s0 l0 s' l' h e.
Proof using Hsz Ha0 Hpar.
  intros Hi Hi0 Hal [C1 C2 C3 C4 C5 C6 C7 C8 C9 C10 C11] [G1 G2 G3 G4 G5 G6 G7 G8] Hpte.
  assert (∀ p, p ∈ l' → p ∈ l) as Hsub by (intros p; by apply suffix_elem).
  assert (∀ v p, slot_page (m_mem s') d (SFrame v) = Some p ↔ slot_page (m_mem s) d (SFrame v) = Some p) as Hfr.
  { intros v p. simpl. destruct (Z.leb_spec 0 v), (Z.ltb_spec v (2 ^ 19)); cbn [andb]; try done.
    by rewrite Hpte by lia. }
  assert (∀ p, is_table (m_mem s') d p → p ∈ l0) as Ht0.
  { intros p Ht. destruct (G6 p Ht) as [[->|[j Hj]]|]; [by apply (C8 SDir) | by apply (C8 (STab j)) | auto]. }
  constructor; try done.
  - by etrans.
  - auto.
  - intros va Hva. rewrite Hpte by (unfold KERNBASE in *; lia). auto.
  - intros va Hva. rewrite Hpte by (unfold KERNBASE in *; lia). auto.
  - intros va Hva Hb. destruct (C7 va Hva Hb) as (f & Hf & Hfs & Hfe). exists f.
    assert (slot_page (m_mem s) d (SFrame (va / 4096)) = Some f) as Hs by (eapply copied_frame; [|done..]; lia).
    split_and!; [done | | rewrite Hpte by (unfold KERNBASE in *; lia); done].
    intros o Ho. rewrite <- Hfs by done. apply (G5 f); [done | | unfold in_page; lia].
    apply Hfr in Hs. by eapply frame_not_table.
  - intros [|j|v] p Hs; [by apply (C8 SDir) | apply Ht0; right; by exists j |].
    apply Hfr in Hs. by apply (C8 (SFrame v)).
  - intros p Hp. destruct (C9 p Hp) as [Hq|[Hq|[[|j|v] Hs]]].
    + destruct (G8 p Hq) as [|[->|[j Hj]]]; [by left | by do 2 right; exists SDir | by do 2 right; exists (STab j)].
    + auto.
    + do 2 right. by exists SDir.
    + do 2 right. exists (STab j). by apply G7.
    + do 2 right. exists (SFrame v). by apply Hfr.
  - intros p x Hp Hpl Hx. rewrite (G5 p); [by apply (C10 p) | done | auto | done].
  - intros p Hp. destruct (C11 p Hp) as (H1 & H2 & H3 & H4 & H5).
    assert (unowned (m_mem s') d p) as Hu by (by eapply unowned_grow).
    split_and!; auto. intros o Ho. rewrite <- H5 by done.
    apply (G5 p); [done | by apply unowned_not_table | unfold in_page; lia].
Qed.

Lemma copied_map d i s l p e s' l' :
  i < sz → 0 ≤ i → i mod 4096 = 0 → e = pte (m_mem s0) pgdir i →
  copied d pgdir i s0 l0 s l [p] e → grows d s l s' l' →
  (∀ va, 0 ≤ va < 2 ^ 32 → pte (m_mem s') d va =
     if va / 4096 =? i / 4096 then map_entry (V2P p) (PTE_FLAGS e) else pte (m_mem s) d va) →
  copied d pgdir (i + 4096) s0 l0 s' l' [] 0.
Proof using Hsz Ha0 Hpar.
  intros Hi Hi0 Hal Hee [C1 C2 C3 C4 C5 C6 C7 C8 C9 C10 C11] [G1 G2 G3 G4 G5 G6 G7 G8] Hpte.
  assert (∀ p, p ∈ l' → p ∈ l) as Hsub by (intros q; by apply suffix_elem).
  destruct (C11 p ltac:(by left)) as (Hpl0 & Hp & Hpl & Hpu & Hps).
  assert (mapped e = true) as Hem by (rewrite Hee; apply Hpar; [lia | unfold pgbase; zdiv]).
  rewrite map_entry_flags in Hpte by done. unfold KERNBASE in *.
  assert (slot_page (m_mem s') d (SFrame (i / 4096)) = Some p) as Hsp.
  { eapply flag_entry_frame; [unfold KERNBASE; lia | done | exact Hem | subst e; apply pte_range |].
    by rewrite Hpte, Z.eqb_refl by lia. }
  assert (∀ v, v ≠ i / 4096 → slot_page (m_mem s') d (SFrame v) = slot_page (m_mem s) d (SFrame v)) as Hfr.
  { intros v Hv. simpl. destruct (Z.leb_spec 0 v), (Z.ltb_spec v (2 ^ 19)); cbn [andb]; try done.
    rewrite Hpte by lia. destruct (Z.eqb_spec (4096 * v / 4096) (i / 4096)); [zdiv | done]. }
  assert (∀ q, is_table (m_mem s') d q → q ∈ l0) as Ht0.
  { intros q Ht. destruct (G6 q Ht) as [[->|[j Hj]]|]; [by apply (C8 SDir) | by apply (C8 (STab j)) | auto]. }
  constructor; unfold pgbase, KERNBASE in *; try done.
  - by etrans.
  - auto.
  - intros va Hva. rewrite Hpte by lia. destruct (Z.eqb_spec (va / 4096) (i / 4096)); [zdiv | auto].
  - intros va Hva Hb. rewrite Hpte by lia. destruct (Z.eqb_spec (va / 4096) (i / 4096)); [zdiv |].
    apply C6; lia.
  - intros va Hva Hb. rewrite Hpte by lia. destruct (Z.eqb_spec (va / 4096) (i / 4096)) as [E|E].
    + exists p. rewrite (pte_page _ pgdir va i) by lia. rewrite <- Hee. split_and!; try done.
      intros o Ho. rewrite <- Hps by done. apply (G5 p); [done | by eapply frame_not_table | unfold in_page; lia].
    + destruct (C7 va Hva ltac:(zdiv)) as (f & Hf & Hfs & Hfe). exists f. split_and!; [done | | done].
      intros o Ho. rewrite <- Hfs by done. apply (G5 f); [done | | unfold in_page; lia].
      eapply frame_not_table; [done |]. rewrite (Hfr (va / 4096)) by done.
      eapply (copied_frame d i); unfold KERNBASE, pgbase in *; try done; try lia. zdiv.
  - intros [|j|v] q Hs; [by apply (C8 SDir) | apply Ht0; right; by exists j |].
    destruct (decide (v = i / 4096)) as [->|]; [congruence |]. rewrite Hfr in Hs by done. by apply (C8 (SFrame v)).
  - intros q Hq. destruct (C9 q Hq) as [Hq'|[->%list_elem_of_singleton|[[|j|v] Hs]]].
    + destruct (G8 q Hq') as [|[->|[j Hj]]]; [by left | by do 2 right; exists SDir | by do 2 right; exists (STab j)].
    + do 2 right. by exists (SFrame (i / 4096)).
    + do 2 right. by exists SDir.
    + do 2 right. exists (STab j). by apply G7.
    + do 2 right. destruct (decide (v = i / 4096)) as [->|].
      * exfalso. revert Hs. simpl. rewrite C6 by zdiv. by rewrite andb_false_r.
      * exists (SFrame v). by rewrite Hfr.
  - intros q x Hq Hql Hx. rewrite (G5 q); [by apply (C10 q) | done | auto | done].
  - set_solver.
Qed.

(** Giving up: a held page goes back first, then the child's pages. *)
Lemma copied_freevm d i s l e :
  copied d pgdir i s0 l0 s l [] e →
  wp (freevm d;; mret 0) s (λ r s', r = 0 ∧ nothing_done s0 l0 s').
Proof.
  intros [C1 C2 C3 C4 C5 C6 C7 C8 C9 C10 _]. apply wp_bind.
  eapply wp_mono; [by apply (freevm_spec s l d) |]. intros [] s' (k & Hk & Hw & Hin & Hm).
  apply wp_ret. split; [done |]. exists (k ++ l). split_and!; [done | by etrans | |].
  - intros p. rewrite elem_of_app, Hin. split.
    + intros [[sl Hs]|Hp]; [by apply (C8 sl) | auto].
    + intros Hp. destruct (C9 p Hp) as [|[Hq|]]; [auto | set_solver | auto].
  - intros p x Hp Hpl Hx. rewrite (Hm p), (C10 p); try done. rewrite Hin. intros [sl Hs].
    by apply Hpl, (C8 sl).
Qed.

Lemma copied_kfree d i s l p e :
  copied d pgdir i s0 l0 s l [p] e → i ≤ sz + 4095 → i mod 4096 = 0 →
  wp (kfree p) s (λ _ s', copied d pgdir i s0 l0 s' (p :: l) [] 0).
Proof using Hsz Ha0 Hpar.
  intros [C1 C2 C3 C4 C5 C6 C7 C8 C9 C10 C11] Hi Hal.
  destruct (C11 p ltac:(by left)) as (H1 & H2 & H3 & H4 & _).
  eapply wp_mono; [by apply (kfree_spec s l p) |]. intros [] s' (K1 & K2 & K3).
  assert (∀ q x, page_ok q → q ≠ p → in_page q x → rd (m_mem s') x = rd (m_mem s) x) as Hq.
  { intros q x Hq Hne Hx. apply K3. intros Hx'. by apply Hne, (in_page_disj q p x). }
  assert (∀ q x, is_table (m_mem s) d q → in_page q x → rd (m_mem s') x = rd (m_mem s) x) as Ht.
  { intros q x Hqt Hx. apply (Hq q); [|intros ->; by apply (unowned_not_table _ _ _ H4) | done].
    destruct Hqt as [->|[j Hj]]; [by apply (as_page _ _ _ C2 SDir) | by apply (as_page _ _ _ C2 (STab j))]. }
  assert (∀ va, pte (m_mem s') d va = pte (m_mem s) d va) as Hpte by (intros; by apply pte_ext).
  assert (∀ sl, slot_page (m_mem s') d sl = slot_page (m_mem s) d sl) as Hsl by (intros; by apply slot_page_ext).
  constructor; try done.
  - apply aspace_cons; [by eapply aspace_ext |]. intros sl. by rewrite Hsl.
  - by etrans.
  - intros q [->|Hq']%elem_of_cons; auto.
  - intros va. rewrite Hpte. apply C5.
  - intros va. rewrite Hpte. apply C6.
  - intros va Hva Hb. rewrite Hpte. destruct (C7 va Hva Hb) as (f & Hf & Hfs & Hfe). exists f.
    split_and!; try done. intros o Ho. rewrite <- Hfs by done. apply (Hq f); [done | | unfold in_page; lia].
    intros ->. apply (H4 (SFrame (va / 4096))). by eapply copied_frame.
  - intros sl q. rewrite Hsl. apply C8.
  - intros q Hq'. setoid_rewrite Hsl. destruct (C9 q Hq') as [?|[->%list_elem_of_singleton|?]]; [|left; by left|by do 2 right].
    left. by right.
  - intros q x Hqo Hql Hx. rewrite (Hq q); [by apply (C10 q) | done | by intros -> | done].
  - set_solver.
Qed.

Lemma copied_mem d i s l h e s1 :
  copied d pgdir i s0 l0 s l h e → m_mem s1 = m_mem s → same_hw s s1 → kalloc_inv s1 l →
  copied d pgdir i s0 l0 s1 l h e.
Proof. intros [] Hm Hw Hk. constructor; rewrite ?Hm; try done. by etrans. Qed.

(** The end of the loop. *)
Lemma copied_end d i s l :
  sz ≤ i < sz + 4096 → i mod 4096 = 0 →
  copied d pgdir i s0 l0 s l [] 0 → copied d pgdir sz s0 l0 s l [] 0.
Proof.
  intros Hi Hal [C1 C2 C3 C4 C5 C6 C7 C8 C9 C10 C11]. constructor; try done.
  - intros va Hva Hb. apply C6; [done |]. unfold pgbase in *. zdiv.
  - intros va Hva Hb. apply C7; [done | lia].
Qed.

Lemma copyuvm_loop_spec n d i s l fuel :
  copied d pgdir i s0 l0 s l [] 0 → 0 ≤ i < sz + 4096 → i mod 4096 = 0 →
  sz - i ≤ 4096 * Z.of_nat n → (n < fuel)%nat → d ≠ 0 →
  wp (copyuvm_loop fuel d pgdir i sz) s (λ r s',
    (r = 0 ∧ nothing_done s0 l0 s') ∨ (r = d ∧ ∃ l', copied d pgdir sz s0 l0 s' l' [] 0)).
Proof using Hsz Ha0 Hpar.
  revert i s l fuel. induction n as [|n IH]; intros i s l fuel Hc Hi Hal Hcnt Hfuel Hd;
    (destruct fuel as [|fuel]; [lia |]); cbn [copyuvm_loop].
  all: destruct (Z.ltb_spec i sz) as [Hlt|Hge];
    [| apply wp_ret; right; split; [done |]; exists l; eapply copied_end; [| |exact Hc]; lia].
  { lia. }
  destruct (parent_view _ (m_mem s) _ _ Ha0 (c_mem _ _ _ _ _ _ _ _ _ Hc)) as (Hap & Hptep & Htabp).
  destruct (parent_frame i) as (Hf & Hfl & Hfv); [lia | unfold pgbase; zdiv |].
  assert (mapped (pte (m_mem s0) pgdir i) = true) as Hm by (apply Hpar; [lia | unfold pgbase; zdiv]).
  set (e := pte (m_mem s0) pgdir i) in *.
  apply wp_bind. eapply wp_intro; [by eapply walkpgdir_find, aspace_dir_ok |].
  destruct (tab (m_mem s) pgdir (PDX i)) as [t|] eqn:Et.
  2:{ exfalso. revert Hm. unfold e. rewrite <- Hptep. unfold pte. by rewrite Et. }
  destruct (as_page _ _ _ Hap (STab (PDX i)) t Et) as [Ht _]. pose proof (PTX_range i) as Hj.
  destruct (entry_addr t (PTX i) Ht Hj) as (_ & _ & _ & Hn0).
  destruct (Z.eqb_spec (t + 4 * PTX i) 0); [lia |].
  apply wp_bind. eapply wp_intro; [by apply load32_entry |].
  replace (ld32 (m_mem s) (V2P t + 4 * PTX i)) with e
    by (unfold e; rewrite <- Hptep; unfold pte; by rewrite Et).
  rewrite has_PE. fold (mapped e). rewrite Hm. cbn [negb].
  apply wp_bind. eapply wp_mono; [apply (kalloc_spec s l), Hc |].
  intros r s1 (Hm1 & Hw1 & Hr). destruct l as [|p l].
  - destruct Hr as [-> Hk1]. simpl. eapply wp_mono; [by eapply copied_freevm, copied_mem |].
    intros r s2 [-> Hnd]. by left.
  - destruct Hr as [-> Hk1]. pose proof (ki_pages _ _ (c_inv _ _ _ _ _ _ _ _ _ Hc)) as Hpp.
    apply list.Forall_cons in Hpp as [Hp _]. pose proof (page_ok_facts p Hp) as (_ & Hp0 & Hp1 & _ & Hp4 & Hp3).
    destruct (Z.eqb_spec p 0); [lia |]. apply wp_bind. eapply wp_intro.
    { unfold kmemmove, PGSIZE. by rewrite !page_ok_direct by (done || lia). }
    rewrite Hfv. pose proof (copied_take d i s p l s1 e Hc Hlt Hal ltac:(lia) eq_refl Hm1 Hw1 Hk1) as Hc2.
    set (s2 := set_mem _ _) in *.
    destruct (c_held _ _ _ _ _ _ _ _ _ Hc2 p) as (_ & _ & Hpl & Hpu & _); [by left |].
    unfold KERNBASE in *. apply wp_bind. eapply wp_mono.
    { apply (mappages_page s2 d l); rewrite ?Hp3; try done; unfold KERNBASE, PHYSTOP in *; try lia.
      - apply Hc2.
      - apply Hc2.
      - unfold e. rewrite PTE_FLAGS_eq by apply pte_range. apply Z.mod_pos_bound. lia.
      - rewrite (c_hi _ _ _ _ _ _ _ _ _ Hc2); [done | unfold KERNBASE; lia | unfold pgbase; zdiv]. }
    intros r s3 (l3 & Hg & [[-> Hpte]|(-> & -> & Hpte)]); simpl.
    + unfold PGSIZE. rewrite u32_id by lia. apply (IH _ s3 l3); try lia; [|zdiv].
      eapply copied_map; try done. lia.
    + apply wp_bind. eapply wp_mono.
      { eapply (copied_kfree d i s3 []); [|lia|done]. eapply copied_grow; try done. lia. }
      intros [] s4 Hc4. eapply wp_mono; [by eapply copied_freevm |]. intros r s5 [-> Hnd]. by left.
Qed.

End Parent.

(** [copyuvm]: a child with its own copy of every page of the parent, or null
    with everything as before. *)
Lemma copyuvm_spec pgdir sz s l :
  kalloc_inv s l → aspace (m_mem s) pgdir l → 0 ≤ sz ≤ KERNBASE →
  (∀ va, 0 ≤ va → pgbase va < sz → mapped (pte (m_mem s) pgdir va) = true) →
  wp (copyuvm pgdir sz) s (λ r s',
    (r = 0 ∧ nothing_done s l s') ∨ (r ≠ 0 ∧ ∃ l', copied r pgdir sz s l s' l' [] 0)).
Proof.
  intros Hk Ha Hsz Hpar. unfold copyuvm. apply wp_bind. eapply wp_mono; [by apply setupkvm_spec |].
  intros d s1 [[-> Hnd]|(Hd & l1 & [N1 N2 N3 N4 N5 N6 N7 N8])].
  { apply wp_ret. by left. }
  destruct (Z.eqb_spec d 0); [done |]. eapply wp_mono.
  { eapply (copyuvm_loop_spec pgdir sz s l Hsz Ha Hpar (Z.to_nat ((sz + 4095) / 4096)) d 0 s1 l1); try done; try zdiv.
    - constructor; try done; unfold pgbase, KERNBASE in *.
      + intros va Hva. apply N5. lia.
      + intros va Hva _. rewrite N5 by lia. apply kview_user. unfold KERNBASE. lia.
      + intros va Hva Hb. zdiv.
      + intros p Hp. destruct (N7 p Hp); auto.
      + set_solver.
    - unfold PGSIZE. replace (sz + 4096 - 1) with (sz + 4095) by lia. lia. }
  intros r s2 [?|[-> ?]]; auto.
Qed.

End VmCopy.
