(* ===== verification/ProcDefs.v ===== *)
(** * Process data ([proc.h], [struct trapframe] of [x86.h])

    Pointers between processes are indices of the process table; open files
    and the current directory are indices of their tables. *)

From S2P Require Import Prelude Mmu Mem Spinlock Kalloc Vm.

Inductive procstate : Type := UNUSED | EMBRYO | SLEEPING | RUNNABLE | RUNNING | ZOMBIE.

#[global] Instance procstate_eq_dec : EqDecision procstate.
Proof. solve_decision. Defined.

Record trapframe : Type := Trapframe {
  tf_edi : Z; tf_esi : Z; tf_ebp : Z; tf_oesp : Z;
  tf_ebx : Z; tf_edx : Z; tf_ecx : Z; tf_eax : Z;
  tf_gs : Z; tf_fs : Z; tf_es : Z; tf_ds : Z;
  tf_trapno : Z; tf_err : Z; tf_eip : Z; tf_cs : Z;
  tf_eflags : Z; tf_esp : Z; tf_ss : Z;
}.

Definition tf_zero : trapframe := Trapframe 0 0 0 0 0 0 0 0 0 0 0 0 0 0 0 0 0 0 0.

Definition tf_set_eax (v : Z) (t : trapframe) : trapframe :=
  Trapframe (tf_edi t) (tf_esi t) (tf_ebp t) (tf_oesp t) (tf_ebx t) (tf_edx t) (tf_ecx t) v
    (tf_gs t) (tf_fs t) (tf_es t) (tf_ds t) (tf_trapno t) (tf_err t) (tf_eip t) (tf_cs t)
    (tf_eflags t) (tf_esp t) (tf_ss t).

(** The entry point and the stack pointer, as [exec] sets them. *)
Definition tf_set_entry (eip esp : Z) (t : trapframe) : trapframe :=
  Trapframe (tf_edi t) (tf_esi t) (tf_ebp t) (tf_oesp t) (tf_ebx t) (tf_edx t) (tf_ecx t) (tf_eax t)
    (tf_gs t) (tf_fs t) (tf_es t) (tf_ds t) (tf_trapno t) (tf_err t) eip (tf_cs t)
    (tf_eflags t) esp (tf_ss t).

(** What a process can sleep on: the address of a process, of a pipe's
    counters, of [ticks], or of another kernel object. *)
Inductive chan : Type :=
| ChProc (i : nat)
| ChRead (p : Z)
| ChWrite (p : Z)
| ChTicks
| ChInput
| ChLog
| ChLock (a : Z).

#[global] Instance chan_eq_dec : EqDecision chan.
Proof. solve_decision. Defined.

Record context : Type := Context {
  cx_edi : Z; cx_esi : Z; cx_ebx : Z; cx_ebp : Z; cx_eip : Z;
}.

Record proc : Type := Proc {
  p_sz : Z;
  p_pgdir : Z;
  p_kstack : Z;
  p_state : procstate;
  p_pid : Z;
  p_parent : option nat;
  p_tf : trapframe;
  p_context : context;
  p_chan : option chan;
  p_killed : bool;
  p_ofile : list (option nat);
  p_cwd : option nat;
  p_name : list Z;
  p_clock : list Z;
  p_head : Z;
}.

(** A process as the kernel image holds it at boot: all zero. *)
Definition proc_zero : proc :=
  Proc 0 0 0 UNUSED 0 None tf_zero (Context 0 0 0 0 0) None false
    (replicate (Z.to_nat NOFILE) None) None (replicate 16 0) (replicate (Z.to_nat CLOCKSIZE) 0) 0.

Definition set_sz v p := Proc v (p_pgdir p) (p_kstack p) (p_state p) (p_pid p) (p_parent p) (p_tf p)
  (p_context p) (p_chan p) (p_killed p) (p_ofile p) (p_cwd p) (p_name p) (p_clock p) (p_head p).
Definition set_pgdir v p := Proc (p_sz p) v (p_kstack p) (p_state p) (p_pid p) (p_parent p) (p_tf p)
  (p_context p) (p_chan p) (p_killed p) (p_ofile p) (p_cwd p) (p_name p) (p_clock p) (p_head p).
Definition set_kstack v p := Proc (p_sz p) (p_pgdir p) v (p_state p) (p_pid p) (p_parent p) (p_tf p)
  (p_context p) (p_chan p) (p_killed p) (p_ofile p) (p_cwd p) (p_name p) (p_clock p) (p_head p).
Definition set_state v p := Proc (p_sz p) (p_pgdir p) (p_kstack p) v (p_pid p) (p_parent p) (p_tf p)
  (p_context p) (p_chan p) (p_killed p) (p_ofile p) (p_cwd p) (p_name p) (p_clock p) (p_head p).
Definition set_pid v p := Proc (p_sz p) (p_pgdir p) (p_kstack p) (p_state p) v (p_parent p) (p_tf p)
  (p_context p) (p_chan p) (p_killed p) (p_ofile p) (p_cwd p) (p_name p) (p_clock p) (p_head p).
Definition set_parent v p := Proc (p_sz p) (p_pgdir p) (p_kstack p) (p_state p) (p_pid p) v (p_tf p)
  (p_context p) (p_chan p) (p_killed p) (p_ofile p) (p_cwd p) (p_name p) (p_clock p) (p_head p).
Definition set_tf v p := Proc (p_sz p) (p_pgdir p) (p_kstack p) (p_state p) (p_pid p) (p_parent p) v
  (p_context p) (p_chan p) (p_killed p) (p_ofile p) (p_cwd p) (p_name p) (p_clock p) (p_head p).
Definition set_context v p := Proc (p_sz p) (p_pgdir p) (p_kstack p) (p_state p) (p_pid p) (p_parent p) (p_tf p)
  v (p_chan p) (p_killed p) (p_ofile p) (p_cwd p) (p_name p) (p_clock p) (p_head p).
Definition set_chan v p := Proc (p_sz p) (p_pgdir p) (p_kstack p) (p_state p) (p_pid p) (p_parent p) (p_tf p)
  (p_context p) v (p_killed p) (p_ofile p) (p_cwd p) (p_name p) (p_clock p) (p_head p).
Definition set_killed v p := Proc (p_sz p) (p_pgdir p) (p_kstack p) (p_state p) (p_pid p) (p_parent p) (p_tf p)
  (p_context p) (p_chan p) v (p_ofile p) (p_cwd p) (p_name p) (p_clock p) (p_head p).
Definition set_ofile v p := Proc (p_sz p) (p_pgdir p) (p_kstack p) (p_state p) (p_pid p) (p_parent p) (p_tf p)
  (p_context p) (p_chan p) (p_killed p) v (p_cwd p) (p_name p) (p_clock p) (p_head p).
Definition set_cwd v p := Proc (p_sz p) (p_pgdir p) (p_kstack p) (p_state p) (p_pid p) (p_parent p) (p_tf p)
  (p_context p) (p_chan p) (p_killed p) (p_ofile p) v (p_name p) (p_clock p) (p_head p).
Definition set_name v p := Proc (p_sz p) (p_pgdir p) (p_kstack p) (p_state p) (p_pid p) (p_parent p) (p_tf p)
  (p_context p) (p_chan p) (p_killed p) (p_ofile p) (p_cwd p) v (p_clock p) (p_head p).
Definition set_clock v p := Proc (p_sz p) (p_pgdir p) (p_kstack p) (p_state p) (p_pid p) (p_parent p) (p_tf p)
  (p_context p) (p_chan p) (p_killed p) (p_ofile p) (p_cwd p) (p_name p) v (p_head p).
Definition set_head v p := Proc (p_sz p) (p_pgdir p) (p_kstack p) (p_state p) (p_pid p) (p_parent p) (p_tf p)
  (p_context p) (p_chan p) (p_killed p) (p_ofile p) (p_cwd p) (p_name p) (p_clock p) v.

(** ** The running process

    Code that works for the current process runs on the machine and on that
    process ([myproc()]). *)

Record ustate : Type := Ustate {
  us_mach : mach;
  us_proc : proc;
}.

Definition set_us_mach (m : mach) (s : ustate) : ustate := Ustate m (us_proc s).
Definition set_us_proc (p : proc) (s : ustate) : ustate := Ustate (us_mach s) p.

Lemma set_us_mach_id s : set_us_mach (us_mach s) s = s.
Proof. by destruct s. Qed.

Definition on_mach {A} : M mach A → M ustate A := zoom us_mach set_us_mach.
Definition myproc : M ustate proc := gets us_proc.
Definition upd_proc (f : proc → proc) : M ustate unit := modify (λ s, set_us_proc (f (us_proc s)) s).
