(* ===== verification/Crypt.v ===== *)
(** * Page encryption ([vm.c], from [translate_and_set])

    A process's pages are kept encrypted (every byte xor-ed with 0xFF) but
    for the few in its clock queue.  An encrypted page has [PTE_E] set and
    [PTE_P] clear, so that touching it faults; the fault handler decrypts it
    and puts it in the queue, and a page the queue has no room for is
    encrypted again.  This file holds the operations; what they do is proved
    in [CryptSpec].

    The code runs for the current process, with that process's page
    directory in CR3.  Its debugging output is left out. *)

From S2P Require Import Prelude Mmu Mem Spinlock Kalloc Vm ProcDefs.

(** ** Arrays of a process *)

(** [p->clock[i]]; outside the array the access is undefined. *)
Definition clock_get (i : Z) : M ustate Z := λ s,
  if 0 <=? i then
    match p_clock (us_proc s) !! Z.to_nat i with
    | Some v => Ok (v, s)
    | None => Err EUndef
    end
  else Err EUndef.

Definition clock_set (i v : Z) : M ustate unit := λ s,
  if (0 <=? i) && (i <? Z.of_nat (length (p_clock (us_proc s)))) then
    Ok (tt, set_us_proc (set_clock (<[Z.to_nat i := v]> (p_clock (us_proc s))) (us_proc s)) s)
  else Err EUndef.

(** ** Marking a page as encrypted *)

Definition translate_and_set (pgdir uva : Z) : M mach Z :=
  pte ← walkpgdir pgdir uva false;
  v ← load32 pte;
  if negb (nz (Z.land v PTE_P)) && negb (nz (Z.land v PTE_E)) then mret 0 else
  if nz (Z.land v PTE_E) then mret 0 else
  if negb (nz (Z.land v PTE_U)) then mret 0 else
  store32 pte (Z.lor v PTE_E);;
  v ← load32 pte;
  store32 pte (Z.land v (Z.lnot PTE_P));;
  v ← load32 pte;
  store32 pte (Z.land v (Z.lnot PTE_A));;
  v ← load32 pte;
  mret (P2V (PTE_ADDR v)).

(** ** The clock queue *)

(** [for(int i=myhead; i<myhead+CLOCKSIZE; i++)], with [n] slots left. *)
Fixpoint inQ_loop (n : nat) (i virt : Z) : M ustate Z :=
  match n with
  | O => mret (-1)
  | S n =>
    check ← clock_get (Z.rem i CLOCKSIZE);
    if check =? virt then mret (Z.rem i CLOCKSIZE) else inQ_loop n (i + 1) virt
  end.

Definition inQ (virt : Z) : M ustate Z :=
  p ← myproc;
  inQ_loop (Z.to_nat CLOCKSIZE) (Z.rem (p_head p) CLOCKSIZE) virt.

(** One byte of the page at user address [a]. *)
Definition flip_byte (a : Z) : M mach unit := b ← load8 a; store8 a (Z.lxor b 0xFF).

Fixpoint flip_bytes (a : Z) (n : nat) : M mach unit :=
  match n with
  | O => mret tt
  | S n => flip_byte a;; flip_bytes (u32 (a + 1)) n
  end.

Section Crypt.
Context {L : Linker}.

(** First loop of [mencrypt]: is every page of the range mapped? *)
Fixpoint mencrypt_check (n : nat) (pgdir slider : Z) : M mach bool :=
  match n with
  | O => mret true
  | S n =>
    kvp ← uva2ka pgdir slider;
    if kvp =? 0 then mret false else mencrypt_check n pgdir (u32 (slider + PGSIZE))
  end.

(** Second loop: [Some r] is a return from inside the loop with [r]. *)
Fixpoint mencrypt_loop (n : nat) (pgdir slider : Z) : M mach (option Z) :=
  match n with
  | O => mret None
  | S n =>
    _ ← uva2ka pgdir slider;
    mypte ← walkpgdir pgdir slider false;
    v ← load32 mypte;
    if nz (Z.land v PTE_E) then mencrypt_loop n pgdir (u32 (slider + PGSIZE)) else
    flip_bytes slider (Z.to_nat PGSIZE);;
    kvp_translated ← translate_and_set pgdir slider;
    if kvp_translated =? 0 then mret (Some (-1)) else mret (Some 0)
  end.

Definition mencrypt (virtual_addr len : Z) : M ustate Z :=
  p ← myproc;
  let mypd := p_pgdir p in
  let virtual_addr := PGROUNDDOWN virtual_addr in
  ok ← on_mach (mencrypt_check (Z.to_nat len) mypd virtual_addr);
  if negb ok then mret (-1) else
  r ← on_mach (mencrypt_loop (Z.to_nat len) mypd virtual_addr);
  match r with
  | Some r => mret r
  | None => on_mach (switchuvm (Some (p_kstack p, p_pgdir p)));; mret 0
  end.

(** [for(int i=head+CLOCKSIZE; i>head; i--)]: fill an empty slot. *)
Fixpoint addClock_free (n : nat) (i va : Z) : M ustate bool :=
  match n with
  | O => mret false
  | S n =>
    c ← clock_get (Z.rem i CLOCKSIZE);
    if c =? 0 then
      clock_set (Z.rem i CLOCKSIZE) (PGROUNDDOWN va);;
      upd_proc (set_head (Z.rem (i + 1) CLOCKSIZE));;
      p ← myproc;
      pte1 ← on_mach (walkpgdir (p_pgdir p) va false);
      v ← on_mach (load32 pte1);
      on_mach (store32 pte1 (Z.land v (Z.lnot PTE_A)));;
      mret true
    else addClock_free n (i - 1) va
  end.

(** [while(!found)]: [head] is the head on entry. *)
Fixpoint addClock_evict (fuel : nat) (head va cur_va : Z) : M ustate unit :=
  match fuel with
  | O => raise EFuel
  | S fuel =>
    p ← myproc;
    pte ← on_mach (walkpgdir (p_pgdir p) cur_va false);
    v ← on_mach (load32 pte);
    if negb (nz (Z.land v PTE_A)) then
      _ ← mencrypt cur_va 1;
      clock_set head (PGROUNDDOWN va);;
      upd_proc (λ p, set_head (Z.rem (p_head p + 1) CLOCKSIZE) p)
    else
      on_mach (store32 pte (Z.land v (Z.lnot PTE_A)));;
      upd_proc (λ p, set_head (Z.rem (p_head p + 1) CLOCKSIZE) p);;
      cur_va ← clock_get head;
      addClock_evict fuel head va cur_va
  end.

(** The second round finds the accessed bit clear. *)
Definition addClock (va : Z) : M ustate Z :=
  p ← myproc;
  let head := p_head p in
  done ← addClock_free (Z.to_nat CLOCKSIZE) (head + CLOCKSIZE) va;
  if done : bool then mret 0 else
  cur_va ← clock_get head;
  addClock_evict 2 head va cur_va;;
  mret 0.

Definition mdecrypt (virtual_addr : Z) : M ustate Z :=
  p ← myproc;
  let mypd := p_pgdir p in
  pte ← on_mach (walkpgdir mypd virtual_addr false);
  if pte =? 0 then mret (-1) else
  v ← on_mach (load32 pte);
  if v =? 0 then mret (-1) else
  q ← inQ virtual_addr;
  (if q =? -1 then _ ← addClock virtual_addr; mret tt else mret tt);;
  v ← on_mach (load32 pte);
  on_mach (store32 pte (Z.land v (Z.lnot PTE_E)));;
  v ← on_mach (load32 pte);
  on_mach (store32 pte (Z.lor v PTE_P));;
  _ ← on_mach (uva2ka mypd virtual_addr);
  let virtual_addr := PGROUNDDOWN virtual_addr in
  kvp ← on_mach (uva2ka mypd virtual_addr);
  if kvp =? 0 then mret (-1) else
  b ← on_mach (load8 kvp);
  if b =? 0 then mret (-1) else
  on_mach (flip_bytes virtual_addr (Z.to_nat PGSIZE));;
  mret 0.

(** ** Reading the page table *)

(** Assignment to the bit-field of [w] bits at bit [lo] of the word at [a]. *)
Definition set_field (a lo w x : Z) : M mach unit :=
  v ← load32 a;
  store32 a (Z.lor (Z.land v (Z.lnot (Z.shiftl (Z.ones w) lo))) (Z.shiftl (Z.land x (Z.ones w)) lo)).

Definition b2z (b : bool) : Z := if b then 1 else 0.

(** The entry of [uva] written to [pt_entries[i]]: [pdx] and [ptx] are in the
    first word, the other fields in the second. *)
Definition fill_entry (e uva pte : Z) : M mach unit :=
  set_field e 0 10 (PDX uva);;
  set_field e 10 10 (PTX uva);;
  v ← load32 pte; set_field (u32 (e + 4)) 0 20 (Z.shiftr v PTXSHIFT);;
  v ← load32 pte; set_field (u32 (e + 4)) 20 1 (Z.land v PTE_P);;
  v ← load32 pte; set_field (u32 (e + 4)) 21 1 (b2z (0 <? Z.land v PTE_W));;
  v ← load32 pte; set_field (u32 (e + 4)) 23 1 (b2z (0 <? Z.land v PTE_E));;
  v ← load32 pte; set_field (u32 (e + 4)) 24 1 (b2z (0 <? Z.land v PTE_A)).

(** A [continue] at page 0 does not end the loop: it goes on at the top of
    the address space.  That run is [EFuel] here: the fuel is the number of
    pages from the first one down to page 0. *)
Fixpoint getpgtable_loop (fuel : nat) (pt_entries num : Z) (wsetOnly : bool) (uva i : Z) : M ustate Z :=
  match fuel with
  | O => raise EFuel
  | S fuel =>
    p ← myproc;
    pte ← on_mach (walkpgdir (p_pgdir p) uva false);
    v ← on_mach (load32 pte);
    let next := getpgtable_loop fuel pt_entries num wsetOnly (u32 (uva - PGSIZE)) in
    if negb (nz (Z.land v PTE_U)) || negb (nz (Z.land v (Z.lor PTE_P PTE_E))) then next i else
    q ← (if wsetOnly then inQ uva else mret 0);
    if wsetOnly && (q =? -1) then next i else
    on_mach (fill_entry (u32 (pt_entries + 8 * i)) uva pte);;
    if (uva =? 0) || (i + 1 =? num) then mret (i + 1) else next (i + 1)
  end.

Definition getpgtable (pt_entries num wsetOnly : Z) : M ustate Z :=
  if negb (wsetOnly =? 0) && negb (wsetOnly =? 1) then mret (-1) else
  curproc ← myproc;
  let uva :=
    if p_sz curproc mod PGSIZE =? 0 then u32 (p_sz curproc - PGSIZE) else PGROUNDDOWN (p_sz curproc) in
  getpgtable_loop (S (Z.to_nat (uva / PGSIZE))) pt_entries num (nz wsetOnly) uva 0.

Definition dump_rawphymem (physical_addr buffer : Z) : M ustate Z :=
  b ← on_mach (load8 buffer);
  on_mach (store8 buffer b);;
  p ← myproc;
  retval ← on_mach (copyout (p_pgdir p) buffer (PGROUNDDOWN (P2V physical_addr)) PGSIZE);
  if nz retval then mret (-1) else mret 0.

End Crypt.
