(* ===== verification/CryptSpec.v ===== *)
(** * Page encryption is transparent

    [plain] is the memory a process sees: the byte in the frame, decrypted if
    the page is.  The operations of [Crypt] move pages between the two forms
    and leave [plain] alone; each is specified by what it does to the entry
    and the frame of one page. *)

From S2P Require Import Prelude Mmu Mem Spinlock Kalloc Vm VmSpec VmUser VmKern ProcDefs Crypt.

Section CryptSpec.
Context {L : Linker}.

(** ** Steps on one page *)

(** From [s] to [s'] the entry of the user page of [va] becomes [e'] and its
    frame gets the contents [c]; nothing else changes. *)
Record page_step (pgdir va e' : Z) (c : Z → Z) (s : mach) (l : list Z) (s' : mach) : Prop := PageStep {
  x_inv : kalloc_inv s' l;
  x_as : aspace (m_mem s') pgdir l;
  x_hw : same_hw s s';
  x_tab i : tab (m_mem s') pgdir i = tab (m_mem s) pgdir i;
  x_pte va' : 0 ≤ va' < 2 ^ 32 → pte (m_mem s') pgdir va' =
    if va' / 4096 =? va / 4096 then e' else pte (m_mem s) pgdir va';
  x_frame o : 0 ≤ o < 4096 → rd (m_mem s') (PTE_ADDR (pte (m_mem s) pgdir va) + o) = c o;
  x_mem p x : page_ok p → ¬ is_table (m_mem s) pgdir p → p ≠ P2V (PTE_ADDR (pte (m_mem s) pgdir va)) →
    in_page p x → rd (m_mem s') x = rd (m_mem s) x;
}.

(** Contents of the frame of [va]. *)
Definition contents (m : mem) (pgdir va : Z) (o : Z) : Z := rd m (PTE_ADDR (pte m pgdir va) + o).

Lemma page_step_trans pgdir va e1 c1 e2 c2 s l s1 s2 :
  0 ≤ va < KERNBASE → PTE_ADDR e1 = PTE_ADDR (pte (m_mem s) pgdir va) →
  page_step pgdir va e1 c1 s l s1 → page_step pgdir va e2 c2 s1 l s2 →
  page_step pgdir va e2 c2 s l s2.
Proof.
  intros Hva He [A1 A2 A3 A4 A5 A6 A7] [B1 B2 B3 B4 B5 B6 B7]. unfold KERNBASE in Hva.
  assert (pte (m_mem s1) pgdir va = e1) as E1 by (rewrite A5, Z.eqb_refl by lia; done).
  rewrite E1, He in *. constructor; try done.
  - by etrans.
  - intros i. by rewrite B4.
  - intros va' Hva'. rewrite B5, A5 by done. by case_match.
  - intros p x Hp Hnt Hne Hx. rewrite (B7 p), (A7 p); try done.
    intros [->|[i Hi]]; apply Hnt; [by left | right; exists i; by rewrite <- A4].
Qed.

Lemma page_step_ext pgdir va e' c c' s l s' :
  (∀ o, 0 ≤ o < 4096 → c o = c' o) → page_step pgdir va e' c s l s' → page_step pgdir va e' c' s l s'.
Proof. intros Hc [X1 X2 X3 X4 X5 X6 X7]. constructor; try done. intros o Ho. rewrite <- Hc; auto. Qed.

(** Facts about a mapped user page. *)
Lemma user_frame m pgdir l va :
  aspace m pgdir l → 0 ≤ va < KERNBASE → mapped (pte m pgdir va) = true →
  ∃ t, tab m pgdir (PDX va) = Some t ∧ page_ok t ∧
    let f := P2V (PTE_ADDR (pte m pgdir va)) in
    page_ok f ∧ (f ∉ l) ∧ ¬ is_table m pgdir f ∧ V2P f = PTE_ADDR (pte m pgdir va) ∧
    slot_page m pgdir (SFrame (va / 4096)) = Some f.
Proof.
  intros Ha Hva Hm. pose proof (slot_frame _ _ _ Hva Hm) as Hs.
  destruct (as_page _ _ _ Ha _ _ Hs) as [Hf Hfl].
  destruct (tab m pgdir (PDX va)) as [t|] eqn:Et; [|unfold pte in Hm; by rewrite Et in Hm].
  exists t. cbv zeta. split_and!; try done.
  - by apply (as_page _ _ _ Ha (STab (PDX va))).
  - by eapply frame_not_table.
  - apply V2P_P2V, PTE_ADDR_range.
Qed.

(** Storing an entry with the same frame. *)
Lemma store_page s pgdir l va t v :
  kalloc_inv s l → aspace (m_mem s) pgdir l → 0 ≤ va < KERNBASE →
  mapped (pte (m_mem s) pgdir va) = true → tab (m_mem s) pgdir (PDX va) = Some t →
  0 ≤ v < 2 ^ 32 → PTE_ADDR v = PTE_ADDR (pte (m_mem s) pgdir va) →
  let s' := set_mem (st32 (m_mem s) (V2P t + 4 * PTX va) v) s in
  store32 (t + 4 * PTX va) v s = Ok (tt, s') ∧
  page_step pgdir va v (contents (m_mem s) pgdir va) s l s'.
Proof.
  intros Hk Ha Hva Hm Ht Hv Hva' s'.
  destruct (user_frame _ _ _ _ Ha Hva Hm) as (t' & Ht' & Hpt & Hf & Hfl & Hfn & Hfv & Hfs).
  simplify_eq. pose proof (PTX_range va) as Hj. unfold KERNBASE in Hva.
  assert (store32 (t + 4 * PTX va) v s = Ok (tt, s')) as E by (by apply store32_entry).
  split; [done |].
  assert (wp (store32 (t + 4 * PTX va) v) s (λ _ s', grows pgdir s l s' l ∧
    (∀ i, tab (m_mem s') pgdir i = tab (m_mem s) pgdir i) ∧
    ∀ va', 0 ≤ va' < 2 ^ 32 → pte (m_mem s') pgdir va' =
      if va' / 4096 =? va / 4096 then v else pte (m_mem s) pgdir va')) as Hw.
  { apply store_entry; try done; [lia |]. rewrite Hva'. intros _ _. split_and!; try done.
    intros sl Hsl. by eapply (as_inj _ _ _ Ha). }
  unfold wp in Hw. rewrite E in Hw. destruct Hw as ([G1 G2 G3 G4 G5 G6 G7 G8] & Htab & Hpte).
  assert (∀ p, is_table (m_mem s') pgdir p ↔ is_table (m_mem s) pgdir p) as Hist.
  { intros p. unfold is_table. by setoid_rewrite Htab. }
  constructor; try done.
  - intros o Ho. apply (G5 (P2V (PTE_ADDR (pte (m_mem s) pgdir va)))); [done | by rewrite Hist |].
    unfold in_page. rewrite Hfv. lia.
  - intros p x Hp Hnt _ Hx. apply (G5 p); [done | by rewrite Hist | done].
Qed.

(** Writing to the frame. *)
Lemma write_page s pgdir l va o b :
  kalloc_inv s l → aspace (m_mem s) pgdir l → 0 ≤ va < KERNBASE →
  mapped (pte (m_mem s) pgdir va) = true → 0 ≤ o < 4096 →
  let e := pte (m_mem s) pgdir va in
  page_step pgdir va e (λ o', if o' =? o then u8 b else contents (m_mem s) pgdir va o') s l
    (set_mem (wr (m_mem s) (PTE_ADDR e + o) b) s).
Proof.
  intros Hk Ha Hva Hm Ho e. set (s' := set_mem _ _).
  destruct (user_frame _ _ _ _ Ha Hva Hm) as (t & Ht & Hpt & Hf & Hfl & Hfn & Hfv & Hfs).
  fold e in Hf, Hfl, Hfn, Hfv, Hfs.
  assert (∀ p x, page_ok p → p ≠ P2V (PTE_ADDR e) → in_page p x → rd (m_mem s') x = rd (m_mem s) x) as Hout.
  { intros p x Hp Hne Hx. simpl. apply rd_wr_ne. intros ->.
    apply Hne, (in_page_disj p _ (PTE_ADDR e + o)); try done. unfold in_page. rewrite Hfv. lia. }
  assert (∀ p x, is_table (m_mem s) pgdir p → in_page p x → rd (m_mem s') x = rd (m_mem s) x) as Htb.
  { intros p x Hp Hx. apply (Hout p); [|by intros -> |done].
    destruct Hp as [->|[i Hi]]; [by apply (as_page _ _ _ Ha SDir) | by apply (as_page _ _ _ Ha (STab i))]. }
  assert (∀ va', pte (m_mem s') pgdir va' = pte (m_mem s) pgdir va') as Hpte by (intros; by apply pte_ext).
  unfold KERNBASE in Hva. constructor; try done.
  - eapply kalloc_inv_ext; [| | |exact Hk]; try done. intros p x Hp Hx.
    pose proof (ki_pages _ _ Hk) as Hpp. rewrite list.Forall_forall in Hpp.
    apply (Hout p); auto. by intros ->.
  - by eapply aspace_ext.
  - intros i. apply tab_ext. intros x. apply Htb. by left.
  - intros va' Hva'. rewrite Hpte. destruct (Z.eqb_spec (va' / 4096) (va / 4096)) as [E|]; [|done].
    unfold e. by apply pte_page; try lia.
  - intros o' Ho'. fold e. simpl. rewrite rd_wr. unfold contents. fold e.
    destruct (Z.eqb_spec o' o) as [->|]; case_cmp; try lia; done.
  - intros p x Hp _ Hne Hx. by apply (Hout p).
Qed.

(** ** User accesses *)

Lemma OFFSET_eq va : 0 ≤ va < 2 ^ 32 → OFFSET va = va mod 4096.
Proof. intros. unfold OFFSET. rewrite u32_id by lia. apply (land_ones_mod va 12). lia. Qed.

Lemma lor_A_range e : 0 ≤ e < 2 ^ 32 → 0 ≤ Z.lor e PTE_A < 2 ^ 32.
Proof. intros He. apply lor_range; unfold PTE_A; lia. Qed.

Lemma lor_A_bit e k : 0 ≤ k → k ≠ 5 → Z.testbit (Z.lor e PTE_A) k = Z.testbit e k.
Proof.
  intros Hk Hne. change PTE_A with (2 ^ 5). rewrite tb_set by lia.
  destruct (Z.eqb_spec 5 k); [lia | by rewrite orb_false_r].
Qed.

Lemma mapped_lor_A e : mapped (Z.lor e PTE_A) = mapped e.
Proof. unfold mapped. by rewrite !lor_A_bit. Qed.

Lemma lor_AA e : Z.lor (Z.lor e PTE_A) PTE_A = Z.lor e PTE_A.
Proof. by rewrite <- Z.lor_assoc, Z.lor_diag. Qed.

(** xor with 0xFF. *)
Lemma flip_eq b : 0 ≤ b < 256 → Z.lxor b 0xFF = 255 - b.
Proof.
  intros Hb. rewrite Z.sub_nocarry_ldiff.
  - bits i. change 0xFF with (Z.ones 8). rewrite Z.testbit_ones_nonneg by lia.
    destruct (Z.ltb_spec i 8); simpl; [btauto |]. rewrite (testbit_small b 8) by lia. done.
  - bits i. change 255 with (Z.ones 8). rewrite Z.testbit_ones_nonneg by lia.
    destruct (Z.ltb_spec i 8); simpl; [btauto |]. rewrite (testbit_small b 8) by lia. done.
Qed.

Lemma flip_flip b : 0 ≤ b < 256 → Z.lxor (Z.lxor b 0xFF) 0xFF = b.
Proof. intros Hb. rewrite !flip_eq by (rewrite ?flip_eq; lia). lia. Qed.

(** A present page can be read by the kernel through its user address, and
    written if it is writable; the access leaves the accessed bit set. *)
Lemma translate_user w s pgdir l va :
  kalloc_inv s l → aspace (m_mem s) pgdir l → m_cr3 s = V2P pgdir → 0 ≤ va < KERNBASE →
  let e := pte (m_mem s) pgdir va in
  Z.testbit e 0 = true → (w = true → Z.testbit e 1 = true) →
  ∃ s', mmu_translate w false va s = Ok (PTE_ADDR e + va mod 4096, s') ∧
    page_step pgdir va (Z.lor e PTE_A) (contents (m_mem s) pgdir va) s l s'.
Proof.
  intros Hk Ha Hc Hva e HP HW.
  assert (mapped e = true) as Hm by (unfold mapped; by rewrite HP).
  destruct (user_frame _ _ _ _ Ha Hva Hm) as (t & Ht & Hpt & Hf & Hfl & Hfn & Hfv & Hfs).
  destruct (as_page _ _ _ Ha SDir pgdir eq_refl) as [Hd _].
  pose proof (page_ok_facts pgdir Hd) as (_ & Hd0 & Hd1 & Hd2 & _ & _).
  pose proof (page_ok_facts t Hpt) as (_ & Ht0 & Ht1 & Ht2 & _ & _).
  destruct (as_rw _ _ _ Ha (PDX va) t Ht) as [HrW HrU]. unfold PHYSTOP in *.
  assert (Z.testbit (pde (m_mem s) pgdir (PDX va)) 0 = true ∧
          V2P t = PTE_ADDR (pde (m_mem s) pgdir (PDX va))) as [HrP Htv].
  { destruct (tab_some _ _ _ _ Ht) as [? ->]. split; [done |]. apply V2P_P2V, PTE_ADDR_range. }
  destruct (store_page s pgdir l va t (Z.lor e PTE_A)) as [_ Hst]; try done.
  { apply lor_A_range, pte_range. }
  { by apply PTE_ADDR_lor. }
  eexists. split; [|exact Hst]. unfold mmu_translate. rewrite Hc.
  rewrite PTE_ADDR_eq by lia. rewrite Hd2, Z.sub_0_r. fold (pde (m_mem s) pgdir (PDX va)).
  rewrite <- Htv.
  replace (ld32 (m_mem s) (V2P t + 4 * PTX va)) with e by (unfold e, pte; by rewrite Ht).
  rewrite !has_P, HP, HrP, !has_W, HrW. unfold KERNBASE in Hva. rewrite OFFSET_eq by lia.
  destruct w; cbn [andb implb]; [rewrite HW by done |]; reflexivity.
Qed.

Lemma kva_user w va : 0 ≤ va < KERNBASE → kva w va = mmu_translate w false va.
Proof.
  intros Hva. unfold kva, in_direct_map. destruct (Z.leb_spec KERNBASE va); [lia |]. cbn [andb].
  by destruct (Z.leb_spec 0 va), (Z.ltb_spec va KERNBASE); try lia.
Qed.

(** Flipping the byte at [va]. *)
Lemma flip_byte_spec s pgdir l va :
  kalloc_inv s l → aspace (m_mem s) pgdir l → m_cr3 s = V2P pgdir → 0 ≤ va < KERNBASE →
  let e := pte (m_mem s) pgdir va in
  Z.testbit e 0 = true → Z.testbit e 1 = true →
  wp (flip_byte va) s (λ _ s', page_step pgdir va (Z.lor e PTE_A)
    (λ o, if o =? va mod 4096 then Z.lxor (contents (m_mem s) pgdir va o) 0xFF
          else contents (m_mem s) pgdir va o) s l s').
Proof.
  intros Hk Ha Hc Hva e HP HW. unfold flip_byte, load8, store8. rewrite !kva_user by done.
  destruct (translate_user false s pgdir l va) as (s1 & E1 & X1); try done.
  apply wp_bind, wp_bind. eapply wp_intro; [exact E1 |]. apply wp_gets, wp_bind.
  pose proof X1 as [A1 A2 A3 A4 A5 A6 A7].
  assert (pte (m_mem s1) pgdir va = Z.lor e PTE_A) as P1
    by (rewrite A5, Z.eqb_refl by (unfold KERNBASE in *; lia); done).
  destruct (translate_user true s1 pgdir l va) as (s2 & E2 & X2); try done.
  { destruct A3 as (Hcr & _). by rewrite Hcr. }
  { rewrite P1, lor_A_bit by lia. done. }
  { intros _. rewrite P1, lor_A_bit by lia. done. }
  rewrite P1, lor_AA in X2. eapply wp_intro; [exact E2 |]. apply wp_modify.
  assert (page_step pgdir va (Z.lor e PTE_A) (contents (m_mem s1) pgdir va) s l s2) as X12.
  { eapply page_step_trans; [done | | exact X1 | exact X2]. by apply PTE_ADDR_lor. }
  pose proof X12 as [B1 B2 B3 B4 B5 B6 B7].
  assert (pte (m_mem s2) pgdir va = Z.lor e PTE_A) as P2
    by (rewrite B5, Z.eqb_refl by (unfold KERNBASE in *; lia); done).
  set (b := Z.lxor _ _).
  assert (mapped (pte (m_mem s2) pgdir va) = true) as Hm2
    by (rewrite P2, mapped_lor_A; unfold mapped; by rewrite HP).
  pose proof (Z.mod_pos_bound va 4096 ltac:(lia)) as Ho.
  pose proof (write_page s2 pgdir l va (va mod 4096) b B1 B2 Hva Hm2 Ho) as X3.
  cbv zeta in X3. rewrite P2, PTE_ADDR_lor in X3 by done.
  rewrite P1, PTE_ADDR_lor by done.
  eapply page_step_ext; [|eapply page_step_trans; [done | | exact X12 | exact X3]; by apply PTE_ADDR_lor].
  intros o Ho'. cbv beta. unfold contents at 1. rewrite P2, PTE_ADDR_lor by done.
  assert (∀ o, 0 ≤ o < 4096 → rd (m_mem s1) (PTE_ADDR e + o) = contents (m_mem s) pgdir va o) as C1 by done.
  assert (∀ o, 0 ≤ o < 4096 → rd (m_mem s2) (PTE_ADDR e + o) = contents (m_mem s) pgdir va o) as C2.
  { intros o' Ho2. unfold e. rewrite B6 by done. unfold contents at 1. rewrite P1, PTE_ADDR_lor by done. by apply C1. }
  rewrite C2 by done. case_match eqn:Eo; [|done]. apply Z.eqb_eq in Eo as ->.
  unfold b. rewrite C1 by done. apply u8_id. rewrite flip_eq by apply rd_range. pose proof (rd_range (m_mem s) (PTE_ADDR e + va mod 4096)).
  unfold contents. fold e. lia.
Qed.

(** The same step, by another address of the page. *)
Lemma page_step_page pgdir va va' e c s l s' :
  0 ≤ va < 2 ^ 32 → 0 ≤ va' < 2 ^ 32 → va / 4096 = va' / 4096 →
  page_step pgdir va e c s l s' → page_step pgdir va' e c s l s'.
Proof.
  intros H1 H2 E [X1 X2 X3 X4 X5 X6 X7].
  assert (pte (m_mem s) pgdir va' = pte (m_mem s) pgdir va) as Ep by (by apply pte_page).
  constructor; rewrite ?Ep; try done. intros va0 Hva0. by rewrite X5, E.
Qed.

Lemma page_step_refl pgdir va s l :
  kalloc_inv s l → aspace (m_mem s) pgdir l → 0 ≤ va < 2 ^ 32 →
  page_step pgdir va (pte (m_mem s) pgdir va) (contents (m_mem s) pgdir va) s l s.
Proof.
  intros Hk Ha Hva. constructor; try done. intros va' Hva'.
  destruct (Z.eqb_spec (va' / 4096) (va / 4096)); [by apply pte_page | done].
Qed.

Lemma flip_bytes_spec n s pgdir l va k :
  kalloc_inv s l → aspace (m_mem s) pgdir l → m_cr3 s = V2P pgdir →
  0 ≤ va < KERNBASE → va mod 4096 = 0 → 0 ≤ k → k + Z.of_nat n ≤ 4096 →
  let e := pte (m_mem s) pgdir va in
  Z.testbit e 0 = true → Z.testbit e 1 = true →
  wp (flip_bytes (va + k) n) s (λ _ s', page_step pgdir va (if bool_decide (n = 0%nat) then e else Z.lor e PTE_A)
    (λ o, if (k <=? o) && (o <? k + Z.of_nat n) then Z.lxor (contents (m_mem s) pgdir va o) 0xFF
          else contents (m_mem s) pgdir va o) s l s').
Proof.
  revert s k. induction n as [|n IH]; intros s k Hk Ha Hc Hva Hal Hk0 Hkn e HP HW; unfold KERNBASE in Hva; cbn [flip_bytes].
  { apply wp_ret. eapply page_step_ext; [|apply page_step_refl; [done.. | lia]].
    intros o Ho. case_cmp; simpl; lia || done. }
  assert (0 ≤ va + k < KERNBASE) as Hvk by (unfold KERNBASE; zdiv).
  assert ((va + k) / 4096 = va / 4096) as Hpg by zdiv. assert ((va + k) mod 4096 = k) as Hof by zdiv.
  assert (pte (m_mem s) pgdir (va + k) = e) as Ee by (apply pte_page; unfold KERNBASE in *; lia).
  apply wp_bind. eapply wp_mono; [apply (flip_byte_spec s pgdir l (va + k)); try done; by rewrite Ee |].
  intros [] s1 X1. rewrite Ee, Hof in X1. unfold KERNBASE in Hvk.
  apply (page_step_page _ _ va) in X1; [|lia..|done]. pose proof X1 as [A1 A2 A3 A4 A5 A6 A7].
  assert (pte (m_mem s1) pgdir va = Z.lor e PTE_A) as P1 by (rewrite A5, Z.eqb_refl by lia; done).
  rewrite u32_id, <- Z.add_assoc by lia. eapply wp_mono.
  { apply (IH s1 (k + 1)); try done; unfold KERNBASE; try lia.
    - destruct A3 as (Hcr & _). by rewrite Hcr.
    - by rewrite P1, lor_A_bit by lia.
    - by rewrite P1, lor_A_bit by lia. }
  intros [] s2 X2. cbv zeta in X2. rewrite P1, lor_AA in X2.
  replace (if bool_decide (n = 0%nat) then Z.lor e PTE_A else Z.lor e PTE_A) with (Z.lor e PTE_A) in X2
    by (by case_match).
  rewrite bool_decide_eq_false_2 by done. eapply page_step_ext.
  2:{ eapply page_step_trans; [unfold KERNBASE; lia | | exact X1 | exact X2]. by apply PTE_ADDR_lor. }
  intros o Ho. cbv beta. unfold contents at 1 2. rewrite P1, PTE_ADDR_lor by done.
  unfold e. rewrite A6 by done. unfold contents. fold e. rewrite Ee.
  case_cmp; simpl; try lia; done.
Qed.

(** ** Entries of encrypted pages *)

Definition enc_entry (e : Z) : Z := Z.land (Z.land (Z.lor e PTE_E) (Z.lnot PTE_P)) (Z.lnot PTE_A).
Definition dec_entry (e : Z) : Z := Z.lor (Z.land e (Z.lnot PTE_E)) PTE_P.

Lemma enc_entry_bit e k :
  0 ≤ k → Z.testbit (enc_entry e) k = (Z.testbit e k || (10 =? k)) && negb (0 =? k) && negb (5 =? k).
Proof.
  intros Hk. unfold enc_entry. change PTE_E with (2 ^ 10). change PTE_P with (2 ^ 0). change PTE_A with (2 ^ 5).
  by rewrite !tb_clr, tb_set by lia.
Qed.

Lemma dec_entry_bit e k :
  0 ≤ k → Z.testbit (dec_entry e) k = (Z.testbit e k && negb (10 =? k)) || (0 =? k).
Proof.
  intros Hk. unfold dec_entry. change PTE_E with (2 ^ 10). change PTE_P with (2 ^ 0).
  by rewrite tb_set, tb_clr by lia.
Qed.

Lemma enc_entry_facts e :
  0 ≤ e < 2 ^ 32 → 0 ≤ enc_entry e < 2 ^ 32 ∧ PTE_ADDR (enc_entry e) = PTE_ADDR e ∧ mapped (enc_entry e) = true.
Proof.
  intros He. split; [|split].
  - unfold enc_entry. do 2 (apply land_lnot_range; [lia |]). apply lor_range; unfold PTE_E; lia.
  - unfold enc_entry. by rewrite !PTE_ADDR_clear, PTE_ADDR_lor.
  - unfold mapped. by rewrite !enc_entry_bit, !orb_true_r by lia.
Qed.

Lemma dec_entry_facts e :
  0 ≤ e < 2 ^ 32 → 0 ≤ dec_entry e < 2 ^ 32 ∧ PTE_ADDR (dec_entry e) = PTE_ADDR e ∧ mapped (dec_entry e) = true.
Proof.
  intros He. split; [|split].
  - unfold dec_entry. apply lor_range; unfold PTE_P; try lia. apply land_lnot_range; lia.
  - unfold dec_entry. by rewrite PTE_ADDR_lor, PTE_ADDR_clear.
  - unfold mapped. rewrite (dec_entry_bit e 0) by lia. by rewrite orb_true_r.
Qed.

(** ** Translation in software *)

Definition user_ok (e : Z) : bool := mapped e && Z.testbit e 2.

Lemma uva2ka_spec s pgdir l va t :
  aspace (m_mem s) pgdir l → tab (m_mem s) pgdir (PDX va) = Some t →
  let e := pte (m_mem s) pgdir va in
  uva2ka pgdir va s = Ok (if user_ok e then P2V (PTE_ADDR e) else 0, s).
Proof.
  intros Ha Ht e. destruct (as_page _ _ _ Ha (STab (PDX va)) t Ht) as [Hpt _].
  pose proof (PTX_range va) as Hj. unfold uva2ka.
  erewrite bind_ok by (by eapply walkpgdir_find, aspace_dir_ok). rewrite Ht.
  assert (load32 (t + 4 * PTX va) s = Ok (e, s)) as El.
  { rewrite load32_entry by done. unfold e, pte. by rewrite Ht. }
  erewrite bind_ok by (exact El). rewrite <- Z.land_lor_distr_r, has_PE. unfold user_ok, mapped.
  destruct (Z.testbit e 0 || Z.testbit e 10); [|done]. cbn [negb andb].
  erewrite bind_ok by (exact El). rewrite has_U. destruct (Z.testbit e 2); [|done]. cbn [negb].
  by erewrite bind_ok by (exact El).
Qed.

(** Reading and writing the entry of [va] in the middle of a step. *)
Section Entry.
Context (pgdir va t : Z) (s0 : mach) (l : list Z).
Context (Hva : 0 ≤ va < KERNBASE) (Ht : tab (m_mem s0) pgdir (PDX va) = Some t).

Lemma wp_load_entry {A} e c s (k : Z → M mach A) Q :
  page_step pgdir va e c s0 l s → wp (k e) s Q → wp (load32 (t + 4 * PTX va) ≫= k) s Q.
Proof using Hva Ht.
  intros [X1 X2 _ X4 X5 _ _] Hw. assert (tab (m_mem s) pgdir (PDX va) = Some t) as Ht' by (by rewrite X4).
  destruct (as_page _ _ _ X2 (STab (PDX va)) t Ht') as [Hpt _].
  apply wp_bind. eapply wp_intro; [apply load32_entry; [done | apply PTX_range] |].
  replace (ld32 _ _) with e; [done |]. unfold KERNBASE in Hva. transitivity (pte (m_mem s) pgdir va).
  - by rewrite X5, Z.eqb_refl by lia.
  - unfold pte. by rewrite Ht'.
Qed.

Lemma wp_store_entry {A} e c s v (k : M mach A) Q :
  page_step pgdir va e c s0 l s → mapped e = true → PTE_ADDR e = PTE_ADDR (pte (m_mem s0) pgdir va) →
  0 ≤ v < 2 ^ 32 → PTE_ADDR v = PTE_ADDR e →
  (∀ s', page_step pgdir va v c s0 l s' → wp k s' Q) →
  wp (store32 (t + 4 * PTX va) v;; k) s Q.
Proof using Hva Ht.
  intros X Hm Hea Hv Hva' Hk. pose proof X as [X1 X2 _ X4 X5 X6 _].
  assert (tab (m_mem s) pgdir (PDX va) = Some t) as Ht' by (by rewrite X4).
  assert (pte (m_mem s) pgdir va = e) as Pe by (rewrite X5, Z.eqb_refl by (unfold KERNBASE in *; lia); done).
  destruct (store_page s pgdir l va t v) as [E Y]; rewrite ?Pe; try done.
  apply wp_bind. eapply wp_intro; [exact E |]. apply Hk. eapply page_step_ext.
  2:{ eapply page_step_trans; [done | exact Hea | exact X | exact Y]. }
  intros o Ho. unfold contents. rewrite Pe, Hea. by apply X6.
Qed.
End Entry.

(** A present user page that is not encrypted is marked; any other page is
    left alone and null is returned. *)
Lemma translate_and_set_spec s pgdir l va t :
  kalloc_inv s l → aspace (m_mem s) pgdir l → tab (m_mem s) pgdir (PDX va) = Some t → 0 ≤ va < KERNBASE →
  let e := pte (m_mem s) pgdir va in
  wp (translate_and_set pgdir va) s (λ r s',
    if Z.testbit e 0 && negb (Z.testbit e 10) && Z.testbit e 2 then
      r = P2V (PTE_ADDR e) ∧ page_step pgdir va (enc_entry e) (contents (m_mem s) pgdir va) s l s'
    else r = 0 ∧ s' = s).
Proof.
  intros Hk Ha Ht Hva e. pose proof (pte_range (m_mem s) pgdir va) as He. fold e in He.
  destruct (enc_entry_facts e He) as (R3 & Hea & Hem).
  assert (page_step pgdir va e (contents (m_mem s) pgdir va) s l s) as X0
    by (apply page_step_refl; unfold KERNBASE in *; done || lia).
  unfold translate_and_set. apply wp_bind. eapply wp_intro; [by eapply walkpgdir_find, aspace_dir_ok |].
  rewrite Ht. eapply wp_load_entry; [done.. |]. rewrite has_P, has_E, has_U.
  destruct (Z.testbit e 0) eqn:HP, (Z.testbit e 10) eqn:HE, (Z.testbit e 2) eqn:HU; cbn [negb andb];
    try (by apply wp_ret).
  assert (mapped e = true) as Hm by (unfold mapped; by rewrite HP).
  assert (mapped (Z.lor e PTE_E) = true) as Hm1.
  { unfold mapped. rewrite !Z.lor_spec. change (Z.testbit PTE_E 10) with true. by rewrite !orb_true_r. }
  assert (mapped (Z.land (Z.lor e PTE_E) (Z.lnot PTE_P)) = true) as Hm2.
  { unfold mapped. change PTE_P with (2 ^ 0). rewrite !tb_clr by lia. change PTE_E with (2 ^ 10).
    rewrite !tb_set by lia. cbn. by rewrite !orb_true_r. }
  assert (0 ≤ Z.lor e PTE_E < 2 ^ 32) as R1 by (apply lor_range; unfold PTE_E; lia).
  assert (0 ≤ Z.land (Z.lor e PTE_E) (Z.lnot PTE_P) < 2 ^ 32) as R2 by (apply land_lnot_range; lia).
  eapply wp_store_entry; [done.. | by apply PTE_ADDR_lor |]. intros s1 X1. eapply wp_load_entry; [done.. |].
  eapply wp_store_entry; [done | done | done | done | by apply PTE_ADDR_lor | done | by apply PTE_ADDR_clear |].
  intros s2 X2. eapply wp_load_entry; [done.. |].
  eapply wp_store_entry; [done | done | done | done | | done | |].
  { by rewrite PTE_ADDR_clear, PTE_ADDR_lor. }
  { by rewrite PTE_ADDR_clear. }
  intros s3 X3. fold (enc_entry e) in X3. eapply wp_load_entry; [done.. |]. apply wp_ret. by rewrite Hea.
Qed.

(** ** [mencrypt] *)

Lemma enc_entry_A e : enc_entry (Z.lor e PTE_A) = enc_entry e.
Proof.
  apply Z.bits_inj'. intros k Hk. rewrite !enc_entry_bit by lia. change PTE_A with (2 ^ 5).
  rewrite tb_set by lia. case_cmp; simpl; try lia; btauto.
Qed.

Definition flipped (c : Z → Z) (o : Z) : Z := Z.lxor (c o) 0xFF.

(** Encrypting one page that is present, writable, and the user's. *)
Lemma encrypt_page s pgdir l va :
  kalloc_inv s l → aspace (m_mem s) pgdir l → m_cr3 s = V2P pgdir → 0 ≤ va < KERNBASE → va mod 4096 = 0 →
  let e := pte (m_mem s) pgdir va in
  Z.testbit e 0 = true → Z.testbit e 1 = true → Z.testbit e 2 = true → Z.testbit e 10 = false →
  wp (flip_bytes va (Z.to_nat PGSIZE);; translate_and_set pgdir va) s (λ r s', r ≠ 0 ∧
    page_step pgdir va (enc_entry e) (flipped (contents (m_mem s) pgdir va)) s l s').
Proof.
  intros Hk Ha Hc Hva Hal e HP HW HU HE.
  assert (mapped e = true) as Hm by (unfold mapped; by rewrite HP).
  destruct (user_frame _ _ _ _ Ha Hva Hm) as (t & Ht & _ & Hf & _). fold e in Hf.
  pose proof (page_ok_facts _ Hf) as (_ & _ & _ & _ & Hf0 & _).
  apply wp_bind. eapply wp_mono.
  { replace va with (va + 0) at 1 by lia. by apply (flip_bytes_spec _ s pgdir l va 0). }
  intros [] s1 X1. cbv zeta in X1. fold e in X1. rewrite bool_decide_eq_false_2 in X1 by done.
  pose proof X1 as [A1 A2 _ A4 A5 A6 _]. unfold KERNBASE in Hva.
  assert (pte (m_mem s1) pgdir va = Z.lor e PTE_A) as P1 by (rewrite A5, Z.eqb_refl by lia; done).
  eapply wp_mono; [apply (translate_and_set_spec s1 pgdir l va t); try done; by rewrite ?A4 |].
  cbv zeta. rewrite P1, !lor_A_bit, HP, HE, HU, enc_entry_A, PTE_ADDR_lor by done. cbn [negb andb].
  intros r s2 [-> X2]. split; [lia |]. eapply page_step_ext.
  2:{ eapply page_step_trans; [unfold KERNBASE; lia | | exact X1 | exact X2]. by apply PTE_ADDR_lor. }
  intros o Ho. cbv beta. unfold contents at 1. rewrite P1, PTE_ADDR_lor by done. unfold e. rewrite A6 by done.
  unfold flipped. change (Z.of_nat (Z.to_nat PGSIZE)) with 4096. case_cmp; simpl; try lia; done.
Qed.

(** Every page of the range has a page table. *)
Definition tables_for (m : mem) (pgdir va n : Z) : Prop :=
  ∀ i, 0 ≤ i < n → tab m pgdir (PDX (va + 4096 * i)) ≠ None.

Lemma mencrypt_check_spec n s pgdir l va :
  aspace (m_mem s) pgdir l → 0 ≤ va → va mod 4096 = 0 → va + 4096 * Z.of_nat n ≤ KERNBASE →
  tables_for (m_mem s) pgdir va (Z.of_nat n) →
  ∃ b, mencrypt_check n pgdir va s = Ok (b, s) ∧
    (b = true ↔ ∀ i, 0 ≤ i < Z.of_nat n → user_ok (pte (m_mem s) pgdir (va + 4096 * i)) = true).
Proof.
  intros Ha. revert va. induction n as [|n IH]; intros va Hva Hal Hn Ht; cbn [mencrypt_check].
  { exists true. split; [done |]. split; [lia | done]. }
  assert (0 ≤ va < KERNBASE) as Hvk by lia. unfold KERNBASE in Hn.
  pose proof (Ht 0 ltac:(lia)) as Ht0. rewrite Z.mul_0_r, Z.add_0_r in Ht0.
  destruct (tab (m_mem s) pgdir (PDX va)) as [t|] eqn:Et; [|done].
  erewrite bind_ok by (by eapply uva2ka_spec). cbv zeta. set (e := pte (m_mem s) pgdir va).
  destruct (user_ok e) eqn:Hu.
  - assert (mapped e = true) as Hm by (by apply andb_true_iff in Hu as [? _]).
    destruct (user_frame _ _ _ _ Ha Hvk Hm) as (_ & _ & _ & Hf & _).
    pose proof (page_ok_facts _ Hf) as (_ & _ & _ & _ & Hf0 & _). fold e in Hf0.
    destruct (Z.eqb_spec (P2V (PTE_ADDR e)) 0); [lia |]. unfold PGSIZE. rewrite u32_id by lia.
    destruct (IH (va + 4096)) as (b & Eb & Hb); try (unfold KERNBASE; lia); [zdiv | |].
    { intros i Hi. specialize (Ht (i + 1) ltac:(lia)).
      by replace (va + 4096 + 4096 * i) with (va + 4096 * (i + 1)) by lia. }
    exists b. split; [done |]. rewrite Hb. split; intros H i Hi.
    + destruct (decide (i = 0)) as [->|]; [by rewrite Z.mul_0_r, Z.add_0_r |].
      replace (va + 4096 * i) with (va + 4096 + 4096 * (i - 1)) by lia. apply H. lia.
    + replace (va + 4096 + 4096 * i) with (va + 4096 * (i + 1)) by lia. apply H. lia.
  - rewrite Z.eqb_refl. exists false. split; [done |]. split; [done |]. intros H.
    specialize (H 0 ltac:(lia)). rewrite Z.mul_0_r, Z.add_0_r in H. fold e in H. congruence.
Qed.

(** The loop skips the pages that are encrypted already and encrypts the
    first one that is not; there it returns. *)
Lemma mencrypt_loop_spec n s pgdir l va k :
  kalloc_inv s l → aspace (m_mem s) pgdir l → m_cr3 s = V2P pgdir →
  0 ≤ va → va mod 4096 = 0 → va + 4096 * Z.of_nat n ≤ KERNBASE → (k ≤ n)%nat →
  (∀ i, 0 ≤ i < Z.of_nat n → user_ok (pte (m_mem s) pgdir (va + 4096 * i)) = true) →
  (∀ i, 0 ≤ i < Z.of_nat k → Z.testbit (pte (m_mem s) pgdir (va + 4096 * i)) 10 = true) →
  let vk := va + 4096 * Z.of_nat k in let e := pte (m_mem s) pgdir vk in
  ((k < n)%nat → Z.testbit e 10 = false ∧ Z.testbit e 1 = true) →
  wp (mencrypt_loop n pgdir va) s (λ r s',
    if decide (k < n)%nat then r = Some 0 ∧
      page_step pgdir vk (enc_entry e) (flipped (contents (m_mem s) pgdir vk)) s l s'
    else r = None ∧ s' = s).
Proof.
  intros Hk Ha Hc. revert va k. induction n as [|n IH]; intros va k Hva Hal Hn Hkn Hu HE vk e Hlast; cbn [mencrypt_loop].
  { apply wp_ret. case_decide; [lia | done]. }
  assert (0 ≤ va < KERNBASE) as Hvk by lia. unfold KERNBASE in Hn.
  pose proof (Hu 0 ltac:(lia)) as Hu0. rewrite Z.mul_0_r, Z.add_0_r in Hu0.
  set (e0 := pte (m_mem s) pgdir va) in *. pose proof Hu0 as [Hm0 HU0]%andb_true_iff.
  destruct (user_frame _ _ _ _ Ha Hvk Hm0) as (t & Ht & Hpt & _).
  apply wp_bind. eapply wp_intro; [by eapply uva2ka_spec |].
  apply wp_bind. eapply wp_intro; [by eapply walkpgdir_find, aspace_dir_ok |]. rewrite Ht.
  apply wp_bind. eapply wp_intro; [apply load32_entry; [done | apply PTX_range] |].
  replace (ld32 (m_mem s) (V2P t + 4 * PTX va)) with e0 by (unfold e0, pte; by rewrite Ht).
  rewrite has_E. destruct k as [|k].
  - subst vk e. rewrite Z.mul_0_r, Z.add_0_r in *. destruct (Hlast ltac:(lia)) as [HE0 HW0].
    fold e0 in HE0, HW0 |- *. rewrite HE0. unfold mapped in Hm0. rewrite HE0, orb_false_r in Hm0.
    eapply wp_bind_assoc, wp_bind, wp_mono;
      [apply (encrypt_page s pgdir l va); try done; unfold KERNBASE; lia |].
    intros r s1 [Hr X]. destruct (Z.eqb_spec r 0); [done |]. apply wp_ret. case_decide; [done | lia].
  - pose proof (HE 0 ltac:(lia)) as HE0. rewrite Z.mul_0_r, Z.add_0_r in HE0. fold e0 in HE0. rewrite HE0.
    unfold PGSIZE. rewrite u32_id by lia.
    assert (va + 4096 + 4096 * Z.of_nat k = vk) as Evk by (unfold vk; lia).
    eapply wp_mono; [apply (IH (va + 4096) k); unfold KERNBASE; try lia; try zdiv |].
    + intros i Hi. replace (va + 4096 + 4096 * i) with (va + 4096 * (i + 1)) by lia. apply Hu. lia.
    + intros i Hi. replace (va + 4096 + 4096 * i) with (va + 4096 * (i + 1)) by lia. apply HE. lia.
    + rewrite Evk. intros. apply Hlast. lia.
    + intros r s1. rewrite Evk. fold e. repeat case_decide; done || lia.
Qed.

(** The current process with its address space loaded. *)
Record uready (s : ustate) (l : list Z) : Prop := Uready {
  ur_inv : kalloc_inv (us_mach s) l;
  ur_as : aspace (m_mem (us_mach s)) (p_pgdir (us_proc s)) l;
  ur_cr3 : m_cr3 (us_mach s) = V2P (p_pgdir (us_proc s));
  ur_kstack : p_kstack (us_proc s) ≠ 0;
  ur_clock : length (p_clock (us_proc s)) = Z.to_nat CLOCKSIZE;
  ur_head : 0 ≤ p_head (us_proc s) < CLOCKSIZE;
  ur_aligned : Forall (λ c, c mod 4096 = 0) (p_clock (us_proc s));
}.

(** Entry of [va] in the current process. *)
Definition upte (s : ustate) (va : Z) : Z := pte (m_mem (us_mach s)) (p_pgdir (us_proc s)) va.

Definition ucontents (s : ustate) (va : Z) : Z → Z :=
  contents (m_mem (us_mach s)) (p_pgdir (us_proc s)) va.

(** A page step of the current process that leaves the process record alone. *)
Definition ustep (va e' : Z) (c : Z → Z) (s : ustate) (l : list Z) (s' : ustate) : Prop :=
  us_proc s' = us_proc s ∧ page_step (p_pgdir (us_proc s)) va e' c (us_mach s) l (us_mach s').

Lemma ustep_ready va e' c s l s' : ustep va e' c s l s' → uready s l → uready s' l.
Proof.
  intros [Hp [X1 X2 (Hc & _) _ _ _ _]] [U1 U2 U3 U4 U5 U6 U7]. constructor; rewrite ?Hp; try done. by rewrite Hc.
Qed.

Section Mencrypt.
Context (s : ustate) (l : list Z) (va len : Z).
Context (Hr : uready s l) (Hlen : 0 ≤ len).
Context (Hva : 0 ≤ va < 2 ^ 32) (Htop : PGROUNDDOWN va + 4096 * len ≤ KERNBASE).

Lemma round_va : 0 ≤ PGROUNDDOWN va ∧ PGROUNDDOWN va mod 4096 = 0.
Proof using Hva. rewrite PGROUNDDOWN_eq by done. split; zdiv. Qed.

(** A page that is not mapped for the user: nothing is done. *)
Lemma mencrypt_reject i :
  tables_for (m_mem (us_mach s)) (p_pgdir (us_proc s)) (PGROUNDDOWN va) len →
  0 ≤ i < len → user_ok (upte s (PGROUNDDOWN va + 4096 * i)) = false → mencrypt va len s = Ok (-1, s).
Proof using Hr Hlen Hva Htop.
  intros Ht Hi Hu. destruct round_va as [Hb Hal]. unfold mencrypt.
  erewrite bind_ok by reflexivity.
  destruct (mencrypt_check_spec (Z.to_nat len) (us_mach s) (p_pgdir (us_proc s)) l (PGROUNDDOWN va)) as (b & E & Hb');
    rewrite ?Z2Nat.id by lia; try done; [apply Hr |].
  erewrite bind_ok by (unfold on_mach, zoom; rewrite E, set_us_mach_id; reflexivity).
  destruct b; [|done]. rewrite Z2Nat.id in Hb' by lia. unfold upte in Hu.
  destruct Hb' as [Hb' _]. rewrite (Hb' eq_refl i) in Hu by done. done.
Qed.

Lemma check_ok :
  (∀ i, 0 ≤ i < len → user_ok (upte s (PGROUNDDOWN va + 4096 * i)) = true) →
  on_mach (mencrypt_check (Z.to_nat len) (p_pgdir (us_proc s)) (PGROUNDDOWN va)) s = Ok (true, s).
Proof using Hr Hlen Hva Htop.
  intros Hu. destruct round_va as [Hb Hal].
  destruct (mencrypt_check_spec (Z.to_nat len) (us_mach s) (p_pgdir (us_proc s)) l (PGROUNDDOWN va)) as (b & E & Hb');
    rewrite ?Z2Nat.id by lia; try done; [apply Hr | |].
  { intros i Hi. specialize (Hu i Hi). apply andb_true_iff in Hu as [Hm _]. unfold upte, pte in Hm.
    by destruct (tab _ _ _). }
  rewrite Z2Nat.id in Hb' by lia. destruct Hb' as [_ Hb']. rewrite (Hb' Hu) in E.
  unfold on_mach, zoom. by rewrite E, set_us_mach_id.
Qed.

(** The first page that is not encrypted is encrypted, and only that one. *)
Lemma mencrypt_first k :
  (∀ i, 0 ≤ i < len → user_ok (upte s (PGROUNDDOWN va + 4096 * i)) = true) →
  0 ≤ k < len → (∀ i, 0 ≤ i < k → Z.testbit (upte s (PGROUNDDOWN va + 4096 * i)) 10 = true) →
  let vk := PGROUNDDOWN va + 4096 * k in
  Z.testbit (upte s vk) 10 = false → Z.testbit (upte s vk) 1 = true →
  wp (mencrypt va len) s (λ r s', r = 0 ∧ ustep vk (enc_entry (upte s vk)) (flipped (ucontents s vk)) s l s').
Proof using Hr Hlen Hva Htop.
  intros Hu Hk HE vk HEk HWk. destruct round_va as [Hb Hal]. unfold mencrypt.
  apply wp_bind, wp_gets, wp_bind. eapply wp_intro; [by apply check_ok |]. cbn [negb].
  apply wp_bind, wp_zoom. eapply wp_mono.
  { apply (mencrypt_loop_spec (Z.to_nat len) (us_mach s) (p_pgdir (us_proc s)) l (PGROUNDDOWN va) (Z.to_nat k));
      rewrite ?Z2Nat.id by lia; try done; try apply Hr; lia. }
  rewrite !Z2Nat.id by lia. intros r s1. case_decide; [|lia]. intros [-> X]. apply wp_ret.
  split; [done |]. by split.
Qed.

(** If all of them are, the process is just switched to again. *)
Lemma mencrypt_none :
  (∀ i, 0 ≤ i < len → user_ok (upte s (PGROUNDDOWN va + 4096 * i)) = true) →
  (∀ i, 0 ≤ i < len → Z.testbit (upte s (PGROUNDDOWN va + 4096 * i)) 10 = true) →
  wp (mencrypt va len) s (λ r s', r = 0 ∧ us_proc s' = us_proc s ∧
    m_mem (us_mach s') = m_mem (us_mach s) ∧ uready s' l).
Proof using Hr Hlen Hva Htop.
  intros Hu HE. destruct round_va as [Hb Hal]. unfold mencrypt.
  apply wp_bind, wp_gets, wp_bind. eapply wp_intro; [by apply check_ok |]. cbn [negb].
  apply wp_bind, wp_zoom. eapply wp_mono.
  { apply (mencrypt_loop_spec (Z.to_nat len) (us_mach s) (p_pgdir (us_proc s)) l (PGROUNDDOWN va) (Z.to_nat len));
      rewrite ?Z2Nat.id by lia; try done; try apply Hr; lia. }
  intros r s1. case_decide; [lia |]. intros [-> ->]. apply wp_bind, wp_zoom.
  destruct Hr as [U1 U2 U3 U4 U5 U6 U7]. destruct (as_page _ _ _ U2 SDir _ eq_refl) as [Hd _].
  pose proof (page_ok_facts _ Hd) as (_ & _ & _ & _ & Hd0 & _). eapply wp_mono.
  { apply switchuvm_spec; [apply U1 | done | lia]. }
  intros [] s2 (Hm & Hkm & _ & Hcr & _ & Hck & _). apply wp_ret. split_and!; try done.
  constructor; try done; simpl; [|by rewrite Hm].
  destruct U1. constructor; rewrite ?Hm, ?Hkm; done.
Qed.
End Mencrypt.

End CryptSpec.
