(* ===== verification/ClockSpec.v ===== *)
(** * The clock queue and decryption on demand

    [inQ], [addClock] and [mdecrypt] of [vm.c].  A page that faults is
    decrypted in place and recorded in the queue; if the queue is full, the
    page at the head is encrypted and its slot reused.  What the process sees
    ([plain]) does not change. *)

From S2P Require Import Prelude Mmu Mem Spinlock Kalloc Vm VmSpec VmUser VmKern ProcDefs Crypt CryptSpec.

Section ClockSpec.
Context {L : Linker}.

(** ** What the process sees *)

Definition plain (s : ustate) (va : Z) : Z :=
  let b := ucontents s va (va mod 4096) in
  if Z.testbit (upte s va) 10 then Z.lxor b 0xFF else b.

(** The pages of a process in terms of entries and contents. *)
Record uview (s s' : ustate) (va e' : Z) (c : Z → Z) : Prop := Uview {
  v_pte va' : 0 ≤ va' < 2 ^ 32 → upte s' va' = if va' / 4096 =? va / 4096 then e' else upte s va';
  v_contents va' o : 0 ≤ va' < KERNBASE → mapped (upte s va') = true → 0 ≤ o < 4096 →
    ucontents s' va' o = if va' / 4096 =? va / 4096 then c o else ucontents s va' o;
}.

Lemma step_view va e' c s l s' :
  uready s l → p_pgdir (us_proc s') = p_pgdir (us_proc s) →
  page_step (p_pgdir (us_proc s)) va e' c (us_mach s) l (us_mach s') → 0 ≤ va < KERNBASE →
  mapped (upte s va) = true → PTE_ADDR e' = PTE_ADDR (upte s va) → uview s s' va e' c.
Proof.
  intros Hr Hp X Hva Hm He. pose proof X as [X1 X2 X3 X4 X5 X6 X7]. unfold KERNBASE in Hva.
  assert (∀ va', 0 ≤ va' < 2 ^ 32 → upte s' va' = if va' / 4096 =? va / 4096 then e' else upte s va') as Hpte.
  { intros va' Hva'. unfold upte. rewrite Hp. by apply X5. }
  constructor; [done |]. intros va' o Hva' Hm' Ho. unfold ucontents, contents.
  fold (upte s' va') (upte s va'). unfold KERNBASE in Hva'. rewrite Hpte by lia.
  destruct (Z.eqb_spec (va' / 4096) (va / 4096)) as [E|E].
  - rewrite He. by apply X6.
  - destruct Hr as [U1 U2 _ _ _ _ _].
    destruct (user_frame _ _ _ va' U2 ltac:(unfold KERNBASE; lia) Hm') as (t' & _ & _ & Hf & _ & Hfn & Hfv & Hfs).
    destruct (user_frame _ _ _ va U2 ltac:(unfold KERNBASE; lia) Hm) as (_ & _ & _ & _ & _ & _ & _ & Hfs0).
    apply (X7 (P2V (PTE_ADDR (upte s va')))); [done | done | | unfold in_page; unfold upte in *; rewrite Hfv; lia].
    intros Eq. unfold upte in Eq. rewrite Eq in Hfs.
    pose proof (as_inj _ _ _ U2 _ _ _ Hfs Hfs0). simplify_eq.
Qed.

Lemma ustep_view va e' c s l s' :
  uready s l → ustep va e' c s l s' → 0 ≤ va < KERNBASE →
  mapped (upte s va) = true → PTE_ADDR e' = PTE_ADDR (upte s va) → uview s s' va e' c.
Proof. intros Hr [Hp X] Hva Hm He. eapply step_view; try done. by rewrite Hp. Qed.

(** Encryption, decryption and changes of other flags keep [plain]. *)
Lemma uview_plain s s' va e' c :
  uview s s' va e' c → 0 ≤ va < KERNBASE → mapped (upte s va) = true →
  (∀ o, 0 ≤ o < 4096 → (if Z.testbit e' 10 then Z.lxor (c o) 0xFF else c o) =
     if Z.testbit (upte s va) 10 then Z.lxor (ucontents s va o) 0xFF else ucontents s va o) →
  ∀ va', 0 ≤ va' < KERNBASE → mapped (upte s va') = true → plain s' va' = plain s va'.
Proof.
  intros [V1 V2] Hva Hm Hc va' Hva' Hm'. unfold plain, KERNBASE in *.
  pose proof (Z.mod_pos_bound va' 4096 ltac:(lia)) as Ho.
  rewrite V1, V2 by (unfold KERNBASE; lia || done).
  destruct (Z.eqb_spec (va' / 4096) (va / 4096)) as [E|E]; [|done].
  assert (upte s va' = upte s va) as Eq by (unfold upte; by apply pte_page; try lia).
  rewrite Hc by done. rewrite Eq. unfold ucontents, contents. fold (upte s va') (upte s va). by rewrite Eq.
Qed.

(** ** [inQ] *)

Lemma clock_get_spec s l i :
  uready s l → 0 ≤ i < CLOCKSIZE → ∃ v, clock_get i s = Ok (v, s) ∧ p_clock (us_proc s) !! Z.to_nat i = Some v.
Proof.
  intros Hr Hi. destruct (lookup_lt_is_Some_2 (p_clock (us_proc s)) (Z.to_nat i)) as [v Hv].
  { rewrite (ur_clock _ _ Hr). unfold CLOCKSIZE in *. lia. }
  exists v. unfold clock_get. destruct (Z.leb_spec 0 i); [|lia]. by rewrite Hv.
Qed.

Lemma inQ_loop_spec n s l i virt :
  uready s l → 0 ≤ i →
  ∃ r, inQ_loop n i virt s = Ok (r, s) ∧
    ((r = -1 ∧ ∀ j, i ≤ j < i + Z.of_nat n → p_clock (us_proc s) !! Z.to_nat (j mod 8) ≠ Some virt) ∨
     (0 ≤ r < 8 ∧ p_clock (us_proc s) !! Z.to_nat r = Some virt)).
Proof.
  intros Hr. revert i. induction n as [|n IH]; intros i Hi; cbn [inQ_loop].
  { exists (-1). split; [done |]. left. split; [done | lia]. }
  rewrite Z.rem_mod_nonneg by (done || lia). pose proof (Z.mod_pos_bound i CLOCKSIZE ltac:(done)) as Hb.
  destruct (clock_get_spec s l (i mod CLOCKSIZE) Hr Hb) as (v & Ev & Hv). erewrite bind_ok by exact Ev.
  destruct (Z.eqb_spec v virt) as [->|Hne].
  - eexists. split; [done |]. by right.
  - destruct (IH (i + 1) ltac:(lia)) as (r & Er & Hrr). exists r. split; [done |].
    destruct Hrr as [[-> H]|H]; [left; split; [done |] | by right].
    intros j Hj. destruct (decide (j = i)) as [->|]; [|apply H; lia].
    change 8 with CLOCKSIZE. rewrite Hv. congruence.
Qed.

(** [inQ] finds a page exactly if a slot holds its address. *)
Lemma inQ_spec s l virt :
  uready s l → ∃ r, inQ virt s = Ok (r, s) ∧
    ((r = -1 ∧ virt ∉ p_clock (us_proc s)) ∨ (0 ≤ r < 8 ∧ p_clock (us_proc s) !! Z.to_nat r = Some virt)).
Proof.
  intros Hr. unfold inQ. erewrite bind_ok by reflexivity. pose proof (ur_head _ _ Hr) as Hh. unfold CLOCKSIZE in *.
  rewrite Z.rem_mod_nonneg by lia.
  destruct (inQ_loop_spec 8 s l (p_head (us_proc s) mod 8) virt Hr) as (r & E & H); [zdiv |].
  exists r. split; [done |]. destruct H as [[-> H]|H]; [left; split; [done |] | by right].
  intros (j & Hj)%list_elem_of_lookup. pose proof (lookup_lt_Some _ _ _ Hj) as Hlt. rewrite (ur_clock _ _ Hr) in Hlt.
  change (Z.to_nat CLOCKSIZE) with 8%nat in Hlt.
  set (h := p_head (us_proc s) mod 8) in *. assert (0 ≤ h < 8) as Hh8 by (unfold h; zdiv).
  apply (H (h + (Z.of_nat j - h) mod 8)); [zdiv |].
  replace ((h + (Z.of_nat j - h) mod 8) mod 8) with (Z.of_nat j) by zdiv. by rewrite Nat2Z.id.
Qed.

(** ** [addClock] *)

(** The queue with [va]'s page in slot [j]. *)
Definition enqueue (j va head : Z) (p : proc) : proc :=
  set_head head (set_clock (<[Z.to_nat j := PGROUNDDOWN va]> (p_clock p)) p).

Lemma uready_enqueue s l j va head m' :
  uready s l → 0 ≤ head < CLOCKSIZE → 0 ≤ va < KERNBASE →
  kalloc_inv m' l → aspace (m_mem m') (p_pgdir (us_proc s)) l → m_cr3 m' = m_cr3 (us_mach s) →
  uready (Ustate m' (enqueue j va head (us_proc s))) l.
Proof.
  intros [U1 U2 U3 U4 U5 U6 U7] Hh Hva Hk Ha Hc. unfold KERNBASE in Hva.
  constructor; try done; simpl; [by rewrite Hc | by rewrite length_insert |].
  apply Forall_insert; [done |]. rewrite PGROUNDDOWN_eq by lia. zdiv.
Qed.

Lemma clock_set_spec s l i v :
  uready s l → 0 ≤ i < CLOCKSIZE →
  clock_set i v s = Ok (tt, set_us_proc (set_clock (<[Z.to_nat i := v]> (p_clock (us_proc s))) (us_proc s)) s).
Proof.
  intros Hr Hi. unfold clock_set. rewrite (ur_clock _ _ Hr).
  destruct (Z.leb_spec 0 i), (Z.ltb_spec i (Z.of_nat (Z.to_nat CLOCKSIZE))); unfold CLOCKSIZE in *; try lia. done.
Qed.

Definition clear_A (e : Z) : Z := Z.land e (Z.lnot PTE_A).

Lemma clear_A_facts e : 0 ≤ e < 2 ^ 32 → 0 ≤ clear_A e < 2 ^ 32 ∧ PTE_ADDR (clear_A e) = PTE_ADDR e.
Proof. intros He. split; [apply land_lnot_range; lia | by apply PTE_ADDR_clear]. Qed.

Lemma clear_A_bit e k : 0 ≤ k → Z.testbit (clear_A e) k = Z.testbit e k && negb (5 =? k).
Proof. intros Hk. unfold clear_A. change PTE_A with (2 ^ 5). by apply tb_clr. Qed.

Lemma clear_A_ne e k : 0 ≤ k → k ≠ 5 → Z.testbit (clear_A e) k = Z.testbit e k.
Proof. intros Hk Hne. rewrite clear_A_bit by lia. destruct (Z.eqb_spec 5 k); [lia | by rewrite andb_true_r]. Qed.

Lemma mapped_clear_A e : mapped (clear_A e) = mapped e.
Proof. unfold mapped. rewrite !clear_A_bit by lia. simpl. by rewrite !andb_true_r. Qed.

Lemma enc_clear_A e : enc_entry (clear_A e) = enc_entry e.
Proof.
  apply Z.bits_inj'. intros k Hk. rewrite !enc_entry_bit, clear_A_bit by lia.
  case_cmp; simpl; try lia; btauto.
Qed.

(** Clearing the accessed bit of a page. *)
Lemma wp_clear_A {A} s l va t (k : M ustate A) Q :
  uready s l → 0 ≤ va < KERNBASE → mapped (upte s va) = true →
  tab (m_mem (us_mach s)) (p_pgdir (us_proc s)) (PDX va) = Some t →
  (∀ s', ustep va (clear_A (upte s va)) (ucontents s va) s l s' → wp k s' Q) →
  wp (on_mach (store32 (t + 4 * PTX va) (Z.land (upte s va) (Z.lnot PTE_A)));; k) s Q.
Proof.
  intros Hr Hva Hm Ht Hk. pose proof (pte_range (m_mem (us_mach s)) (p_pgdir (us_proc s)) va) as He.
  destruct (clear_A_facts _ He) as [R Ea].
  destruct (store_page (us_mach s) (p_pgdir (us_proc s)) l va t (clear_A (upte s va))) as [E X]; try done; try apply Hr.
  apply wp_bind, wp_zoom. eapply wp_intro; [exact E |]. apply Hk. by split.
Qed.

Lemma wp_load_upte {A} s l va t (k : Z → M ustate A) Q :
  uready s l → tab (m_mem (us_mach s)) (p_pgdir (us_proc s)) (PDX va) = Some t →
  wp (k (upte s va)) s Q → wp (on_mach (load32 (t + 4 * PTX va)) ≫= k) s Q.
Proof.
  intros Hr Ht Hk. destruct (as_page _ _ _ (ur_as _ _ Hr) (STab (PDX va)) t Ht) as [Hpt _].
  apply wp_bind, wp_zoom. eapply wp_intro; [apply load32_entry; [done | apply PTX_range] |].
  rewrite set_us_mach_id. replace (ld32 _ _) with (upte s va); [done |]. unfold upte, pte. by rewrite Ht.
Qed.

Lemma wp_walk {A} s l va (k : Z → M ustate A) Q :
  uready s l → wp (k (match tab (m_mem (us_mach s)) (p_pgdir (us_proc s)) (PDX va) with
                      Some t => t + 4 * PTX va | None => 0 end)) s Q →
  wp (on_mach (walkpgdir (p_pgdir (us_proc s)) va false) ≫= k) s Q.
Proof.
  intros Hr Hk. apply wp_bind, wp_zoom. eapply wp_intro; [eapply walkpgdir_find, aspace_dir_ok, Hr |].
  by rewrite set_us_mach_id.
Qed.

Lemma utab s l va :
  uready s l → 0 ≤ va < KERNBASE → mapped (upte s va) = true →
  ∃ t, tab (m_mem (us_mach s)) (p_pgdir (us_proc s)) (PDX va) = Some t ∧ page_ok t ∧
    page_ok (P2V (PTE_ADDR (upte s va))) ∧ V2P (P2V (PTE_ADDR (upte s va))) = PTE_ADDR (upte s va).
Proof.
  intros Hr Hva Hm. destruct (user_frame _ _ _ va (ur_as _ _ Hr) Hva Hm) as (t & Ht & Hpt & Hf & _ & _ & Hfv & _).
  by exists t.
Qed.

(** An empty slot is taken if there is one. *)
Lemma addClock_free_spec n s l i va :
  uready s l → Z.of_nat n ≤ i → 0 ≤ va < KERNBASE → mapped (upte s va) = true →
  wp (addClock_free n i va) s (λ b s',
    (b = false ∧ s' = s ∧ ∀ j, i - Z.of_nat n < j ≤ i → p_clock (us_proc s) !! Z.to_nat (j mod 8) ≠ Some 0) ∨
    (b = true ∧ ∃ j, 0 ≤ j < 8 ∧ p_clock (us_proc s) !! Z.to_nat j = Some 0 ∧
       us_proc s' = enqueue j va ((j + 1) mod 8) (us_proc s) ∧
       page_step (p_pgdir (us_proc s)) va (clear_A (upte s va)) (ucontents s va) (us_mach s) l (us_mach s'))).
Proof.
  intros Hr Hi Hva Hm. revert i Hi. induction n as [|n IH]; intros i Hi; cbn [addClock_free].
  { apply wp_ret. left. split_and!; try done. lia. }
  rewrite !Z.rem_mod_nonneg by (done || lia). pose proof (Z.mod_pos_bound i CLOCKSIZE ltac:(done)) as Hb.
  destruct (clock_get_spec s l (i mod CLOCKSIZE) Hr Hb) as (v & Ev & Hv).
  apply wp_bind. eapply wp_intro; [exact Ev |]. destruct (Z.eqb_spec v 0) as [->|Hne].
  - destruct (utab s l va Hr Hva Hm) as (t & Ht & Hpt & _).
    apply wp_bind. eapply wp_intro; [by apply (clock_set_spec s l) |]. apply wp_bind, wp_modify.
    set (s1 := set_us_proc _ _). cbn [us_proc set_us_proc] in s1.
    assert (us_proc s1 = enqueue (i mod 8) va ((i mod 8 + 1) mod 8) (us_proc s)) as Hp1.
    { unfold s1, enqueue. simpl. f_equal. unfold CLOCKSIZE. zdiv. }
    assert (uready s1 l) as Hr1.
    { replace s1 with (Ustate (us_mach s) (enqueue (i mod 8) va ((i mod 8 + 1) mod 8) (us_proc s)))
        by (rewrite <- Hp1; done).
      apply uready_enqueue; try done; try apply Hr. unfold CLOCKSIZE. zdiv. }
    assert (tab (m_mem (us_mach s1)) (p_pgdir (us_proc s1)) (PDX va) = Some t) as Ht1 by done.
    apply wp_bind, wp_gets. eapply wp_walk; [done |]. rewrite Ht1.
    eapply wp_load_upte; [done.. |]. eapply (wp_clear_A s1 l); [done.. |].
    intros s2 [Hp2 X]. apply wp_ret. right. split; [done |]. exists (i mod 8).
    rewrite Hp2, Hp1. unfold CLOCKSIZE in *. by split_and!; try lia.
  - eapply wp_mono; [apply (IH (i - 1)); lia |]. intros b s' [(-> & -> & H)|H]; [left | by right].
    split_and!; try done. intros j Hj. destruct (decide (j = i)) as [->|]; [|apply H; lia].
    change 8 with CLOCKSIZE. rewrite Hv. congruence.
Qed.

(** A page of the process that is decrypted, and may be encrypted again. *)
Definition resident (s : ustate) (w : Z) : Prop :=
  0 ≤ w < KERNBASE ∧ w mod 4096 = 0 ∧ user_ok (upte s w) = true ∧
  Z.testbit (upte s w) 1 = true ∧ Z.testbit (upte s w) 10 = false.

Lemma resident_mapped s w : resident s w → mapped (upte s w) = true.
Proof. intros (_ & _ & Hu & _). by apply andb_true_iff in Hu as [? _]. Qed.

Lemma mencrypt_page s l w :
  uready s l → resident s w →
  wp (mencrypt w 1) s (λ r s', r = 0 ∧ ustep w (enc_entry (upte s w)) (flipped (ucontents s w)) s l s').
Proof.
  intros Hr (Hw & Hal & Hu & HW & HE). unfold KERNBASE in Hw.
  assert (PGROUNDDOWN w = w) as Ew by (apply PGROUNDDOWN_id; lia).
  assert (w + 4096 * 0 = w) as E0 by lia.
  pose proof (mencrypt_first s l w 1 Hr ltac:(lia) ltac:(lia)) as H. rewrite Ew in H.
  specialize (H ltac:(unfold KERNBASE; zdiv) 0). rewrite E0 in H. apply H; try done; [|lia].
  intros i Hi. by replace (w + 4096 * i) with w by lia.
Qed.

(** The accessed bit is clear: encrypt and take the slot. *)
Lemma addClock_evict_now fuel s l j va w :
  uready s l → 0 ≤ j < 8 → resident s w → Z.testbit (upte s w) 5 = false →
  wp (addClock_evict (S fuel) j va w) s (λ _ s',
    us_proc s' = enqueue j va ((p_head (us_proc s) + 1) mod 8) (us_proc s) ∧
    page_step (p_pgdir (us_proc s)) w (enc_entry (upte s w)) (flipped (ucontents s w)) (us_mach s) l (us_mach s')).
Proof.
  intros Hr Hj Hw HA. pose proof (resident_mapped _ _ Hw) as Hm. pose proof Hw as (Hwk & _).
  destruct (utab s l w Hr Hwk Hm) as (t & Ht & _). cbn [addClock_evict].
  apply wp_bind, wp_gets. eapply wp_walk; [done |]. rewrite Ht. eapply wp_load_upte; [done.. |].
  rewrite has_A, HA. cbn [negb]. apply wp_bind. eapply wp_mono; [by apply (mencrypt_page s l) |].
  intros r s1 [-> Hst]. pose proof (ustep_ready _ _ _ _ _ _ Hst Hr) as Hr1. destruct Hst as [Hp1 X].
  apply wp_bind. eapply wp_intro; [by apply (clock_set_spec s1 l) |]. apply wp_modify. simpl.
  rewrite Hp1. split; [|done]. unfold enqueue. simpl. pose proof (ur_head _ _ Hr) as Hh.
  rewrite Z.rem_mod_nonneg by (unfold CLOCKSIZE; lia). done.
Qed.

(** Otherwise the bit is cleared, and the second round evicts the same page:
    [cur_va] is read again from the old head. *)
Lemma addClock_evict_spec s l va w :
  uready s l → p_clock (us_proc s) !! Z.to_nat (p_head (us_proc s)) = Some w → resident s w →
  wp (addClock_evict 2 (p_head (us_proc s)) va w) s (λ _ s',
    us_proc s' = enqueue (p_head (us_proc s)) va
      ((p_head (us_proc s) + (if Z.testbit (upte s w) 5 then 2 else 1)) mod 8) (us_proc s) ∧
    page_step (p_pgdir (us_proc s)) w (enc_entry (upte s w)) (flipped (ucontents s w)) (us_mach s) l (us_mach s')).
Proof.
  intros Hr Hc Hw. pose proof (ur_head _ _ Hr) as Hh. unfold CLOCKSIZE in Hh.
  destruct (Z.testbit (upte s w) 5) eqn:HA; [|by apply (addClock_evict_now 1 s l)].
  pose proof (resident_mapped _ _ Hw) as Hm. pose proof Hw as (Hwk & Hwal & Hwu & HwW & HwE).
  destruct (utab s l w Hr Hwk Hm) as (t & Ht & _). set (h := p_head (us_proc s)) in *.
  change (addClock_evict 2 h va w) with (p ← myproc;
    pte ← on_mach (walkpgdir (p_pgdir p) w false);
    v ← on_mach (load32 pte);
    if negb (nz (Z.land v PTE_A)) then
      _ ← mencrypt w 1; clock_set h (PGROUNDDOWN va);;
      upd_proc (λ p, set_head (Z.rem (p_head p + 1) CLOCKSIZE) p)
    else
      on_mach (store32 pte (Z.land v (Z.lnot PTE_A)));;
      upd_proc (λ p, set_head (Z.rem (p_head p + 1) CLOCKSIZE) p);;
      cur_va ← clock_get h; addClock_evict 1 h va cur_va).
  apply wp_bind, wp_gets. eapply wp_walk; [done |]. rewrite Ht. eapply wp_load_upte; [done.. |].
  rewrite has_A, HA. cbn [negb]. eapply (wp_clear_A s l); [done.. |]. intros s1 Hst.
  pose proof (ustep_ready _ _ _ _ _ _ Hst Hr) as Hr1.
  destruct (ustep_view _ _ _ _ _ _ Hr Hst Hwk Hm) as [V1 V2].
  { apply clear_A_facts, pte_range. }
  destruct Hst as [Hp1 X1]. apply wp_bind, wp_modify. rewrite Hp1. fold h.
  rewrite Z.rem_mod_nonneg by (unfold CLOCKSIZE; lia). set (s2 := set_us_proc _ s1).
  assert (uready s2 l) as Hr2.
  { destruct Hr1 as [U1 U2 U3 U4 U5 U6 U7]. rewrite Hp1 in *. constructor; try done. simpl. unfold CLOCKSIZE. zdiv. }
  assert (upte s2 w = clear_A (upte s w)) as P2.
  { transitivity (upte s1 w); [unfold upte; simpl; by rewrite Hp1 |].
    rewrite V1, Z.eqb_refl by (unfold KERNBASE in *; lia). done. }
  assert (clock_get h s2 = Ok (w, s2)) as Eg.
  { unfold clock_get. simpl. destruct (Z.leb_spec 0 h); [|lia]. by rewrite Hc. }
  apply wp_bind. eapply wp_intro; [exact Eg |].
  assert (resident s2 w) as Hw2.
  { unfold resident. rewrite P2. unfold user_ok in *. rewrite mapped_clear_A, !clear_A_ne by lia. done. }
  eapply wp_mono; [apply (addClock_evict_now 0 s2 l); try done; rewrite P2, clear_A_bit by lia; by rewrite andb_false_r |].
  intros [] s3 [Hp3 X3]. rewrite P2, enc_clear_A in X3. split.
  - rewrite Hp3. unfold enqueue. simpl.
    replace (((h + 1) mod CLOCKSIZE + 1) mod 8) with ((h + 2) mod 8) by (unfold CLOCKSIZE; zdiv).
    reflexivity.
  - eapply page_step_ext.
    2:{ eapply page_step_trans; [done | | exact X1 | exact X3]. apply clear_A_facts, pte_range. }
    intros o Ho. unfold flipped. f_equal. transitivity (ucontents s1 w o).
    + unfold ucontents. simpl. by rewrite Hp1.
    + rewrite V2 by done. by rewrite Z.eqb_refl.
Qed.

(** The slot at the head, when no slot is empty. *)
Definition victim (s : ustate) (w : Z) : Prop :=
  (0 ∉ p_clock (us_proc s)) ∧ p_clock (us_proc s) !! Z.to_nat (p_head (us_proc s)) = Some w.

(** [addClock] puts the page in an empty slot, or in place of the page at the
    head, which is encrypted. *)
Lemma addClock_spec s l va :
  uready s l → 0 ≤ va < KERNBASE → mapped (upte s va) = true →
  (∀ w, victim s w → resident s w) →
  wp (addClock va) s (λ r s', r = 0 ∧
    ((∃ j, 0 ≤ j < 8 ∧ p_clock (us_proc s) !! Z.to_nat j = Some 0 ∧
        us_proc s' = enqueue j va ((j + 1) mod 8) (us_proc s) ∧
        page_step (p_pgdir (us_proc s)) va (clear_A (upte s va)) (ucontents s va) (us_mach s) l (us_mach s')) ∨
     (∃ w, victim s w ∧
        us_proc s' = enqueue (p_head (us_proc s)) va
          ((p_head (us_proc s) + (if Z.testbit (upte s w) 5 then 2 else 1)) mod 8) (us_proc s) ∧
        page_step (p_pgdir (us_proc s)) w (enc_entry (upte s w)) (flipped (ucontents s w)) (us_mach s) l (us_mach s')))).
Proof.
  intros Hr Hva Hm Hw. pose proof (ur_head _ _ Hr) as Hh. unfold addClock. apply wp_bind, wp_gets, wp_bind.
  eapply wp_mono; [apply (addClock_free_spec _ s l); try done; unfold CLOCKSIZE in *; lia |].
  intros b s1 [(-> & -> & Hfull)|(-> & H)]; [|apply wp_ret; split; [done | by left]].
  destruct (clock_get_spec s l (p_head (us_proc s)) Hr Hh) as (w & Ew & Hcw).
  apply wp_bind. eapply wp_intro; [exact Ew |].
  assert (victim s w) as Hv.
  { split; [|done]. intros (j & Hj)%list_elem_of_lookup. pose proof (lookup_lt_Some _ _ _ Hj) as Hlt.
    rewrite (ur_clock _ _ Hr) in Hlt. change (Z.to_nat CLOCKSIZE) with 8%nat in *.
    unfold CLOCKSIZE in *. set (h := p_head (us_proc s)) in *.
    apply (Hfull (h + 8 - (h - Z.of_nat j) mod 8)); [zdiv |].
    replace ((h + 8 - (h - Z.of_nat j) mod 8) mod 8) with (Z.of_nat j) by zdiv. by rewrite Nat2Z.id. }
  apply wp_bind. eapply wp_mono; [apply (addClock_evict_spec s l); auto |].
  intros [] s2 [Hp X]. apply wp_ret. split; [done |]. right. by exists w.
Qed.

(** The page of [va] takes the place of an empty slot or of the victim. *)
Definition enters (s : ustate) (va : Z) (s' : ustate) : Prop :=
  ∃ j c, p_clock (us_proc s) !! j = Some c ∧ (c = 0 ∨ victim s c) ∧
    p_clock (us_proc s') = <[j := PGROUNDDOWN va]> (p_clock (us_proc s)).

Lemma enters_elem s va s' : enters s va s' → PGROUNDDOWN va ∈ p_clock (us_proc s').
Proof.
  intros (j & c & Hj & _ & ->). apply list_elem_of_lookup. exists j.
  apply list_lookup_insert_eq. by eapply lookup_lt_Some.
Qed.

(** The same, as seen by the process: the page is in the queue, [plain] is
    unchanged, and only the entry of the page itself or of the victim is. *)
Lemma addClock_view s l va :
  uready s l → 0 ≤ va < KERNBASE → mapped (upte s va) = true → Z.testbit (upte s va) 10 = true →
  (∀ w, victim s w → resident s w) →
  wp (addClock va) s (λ r s', r = 0 ∧ uready s' l ∧ enters s va s' ∧
    p_pgdir (us_proc s') = p_pgdir (us_proc s) ∧
    (∀ i, tab (m_mem (us_mach s')) (p_pgdir (us_proc s)) i = tab (m_mem (us_mach s)) (p_pgdir (us_proc s)) i) ∧
    (upte s' va = upte s va ∨ upte s' va = clear_A (upte s va)) ∧
    (∀ o, 0 ≤ o < 4096 → ucontents s' va o = ucontents s va o) ∧
    (∀ va', 0 ≤ va' < 2 ^ 32 → va' / 4096 ≠ va / 4096 → (∀ w, victim s w → va' / 4096 ≠ w / 4096) →
       upte s' va' = upte s va') ∧
    (∀ w, victim s w → upte s' w = enc_entry (upte s w)) ∧
    (∀ va', 0 ≤ va' < KERNBASE → mapped (upte s va') = true →
       mapped (upte s' va') = true ∧ plain s' va' = plain s va')).
Proof.
  intros Hr Hva Hm HE Hvic. eapply wp_mono; [by apply (addClock_spec s l) |].
  pose proof (ur_head _ _ Hr) as Hh. pose proof (ur_clock _ _ Hr) as Hlen. unfold CLOCKSIZE in *.
  intros r s1 [-> [(j & Hj & Hj0 & Hp & X)|(w & Hw & Hp & X)]].
  - assert (p_pgdir (us_proc s1) = p_pgdir (us_proc s)) as Hpd by (by rewrite Hp).
    assert (uview s s1 va (clear_A (upte s va)) (ucontents s va)) as V.
    { eapply step_view; [done | done | exact X | done | done | apply clear_A_facts, pte_range]. }
    pose proof V as [V1 V2]. split; [done | split].
    { replace s1 with (Ustate (us_mach s1) (us_proc s1)) by (by destruct s1). rewrite Hp.
      apply uready_enqueue; try done; try apply X. unfold CLOCKSIZE. zdiv. }
    unfold KERNBASE in *. split_and!; try done.
    + exists (Z.to_nat j), 0. rewrite Hp. auto.
    + by apply X.
    + right. rewrite V1, Z.eqb_refl by lia. done.
    + intros o Ho. rewrite V2 by (done || unfold KERNBASE; lia). by rewrite Z.eqb_refl.
    + intros va' Hva' Hne _. rewrite V1 by done. by destruct (Z.eqb_spec (va' / 4096) (va / 4096)).
    + intros w [H0 _]. destruct H0. apply list_elem_of_lookup. eauto.
    + intros va' Hva' Hm'. split; [rewrite V1 by lia; case_match; [by rewrite mapped_clear_A | done] |].
      eapply uview_plain; [exact V | done | done | | done | done]. intros o Ho. rewrite clear_A_ne by lia. done.
  - pose proof (Hvic w Hw) as Hres. pose proof (resident_mapped _ _ Hres) as Hmw.
    pose proof Hres as (Hwk & Hwal & Hwu & HwW & HwE).
    assert (p_pgdir (us_proc s1) = p_pgdir (us_proc s)) as Hpd by (by rewrite Hp).
    destruct (enc_entry_facts (upte s w)) as (_ & Hea & Hem); [apply pte_range |].
    assert (uview s s1 w (enc_entry (upte s w)) (flipped (ucontents s w))) as V by (by eapply step_view).
    pose proof V as [V1 V2]. unfold KERNBASE in *.
    assert (∀ w', victim s w' → w' = w) as Huniq.
    { intros w' [_ Hw']. destruct Hw as [_ Hw]. congruence. }
    assert (va / 4096 ≠ w / 4096) as Hne.
    { intros E. assert (upte s va = upte s w) as Eq by (unfold upte; apply pte_page; lia). congruence. }
    split; [done | split].
    { replace s1 with (Ustate (us_mach s1) (us_proc s1)) by (by destruct s1). rewrite Hp.
      apply uready_enqueue; try done; try apply X. unfold CLOCKSIZE. zdiv. }
    split_and!; try done.
    + exists (Z.to_nat (p_head (us_proc s))), w. rewrite Hp. split; [apply Hw | auto].
    + by apply X.
    + left. rewrite V1 by lia. by destruct (Z.eqb_spec (va / 4096) (w / 4096)).
    + intros o Ho. rewrite V2 by (done || unfold KERNBASE; lia). by destruct (Z.eqb_spec (va / 4096) (w / 4096)).
    + intros va' Hva' _ Hn. rewrite V1 by done. destruct (Z.eqb_spec (va' / 4096) (w / 4096)); [|done].
      by destruct (Hn w Hw).
    + intros w' ->%Huniq. rewrite V1, Z.eqb_refl by lia. done.
    + intros va' Hva' Hm'. split; [rewrite V1 by lia; by destruct (_ =? _) |].
      eapply uview_plain; [exact V | done | done | | done | done]. intros o Ho. unfold flipped. rewrite HwE, enc_entry_bit by lia.
      change (10 =? 10) with true. rewrite orb_true_r. cbn. apply flip_flip, rd_range.
Qed.

(** ** [mdecrypt] *)

(** Clearing [PTE_E], then setting [PTE_P]. *)
Lemma wp_dec_entry {A} s l va t (k : M ustate A) Q :
  uready s l → 0 ≤ va < KERNBASE → mapped (upte s va) = true →
  tab (m_mem (us_mach s)) (p_pgdir (us_proc s)) (PDX va) = Some t →
  (∀ s', ustep va (dec_entry (upte s va)) (ucontents s va) s l s' → wp k s' Q) →
  wp (v ← on_mach (load32 (t + 4 * PTX va));
      on_mach (store32 (t + 4 * PTX va) (Z.land v (Z.lnot PTE_E)));;
      v ← on_mach (load32 (t + 4 * PTX va));
      on_mach (store32 (t + 4 * PTX va) (Z.lor v PTE_P));; k) s Q.
Proof.
  intros Hr Hva Hm Ht Hk. pose proof (pte_range (m_mem (us_mach s)) (p_pgdir (us_proc s)) va) as He.
  fold (upte s va) in He. destruct (dec_entry_facts _ He) as (R & Ea & _).
  destruct (utab s l va Hr Hva Hm) as (t' & Ht' & Hpt & _). simplify_eq. pose proof (PTX_range va) as Hj.
  destruct (store_page (us_mach s) (p_pgdir (us_proc s)) l va t (dec_entry (upte s va))) as [_ X]; try done; try apply Hr.
  eapply wp_load_upte; [done.. |]. apply wp_bind, wp_zoom. eapply wp_intro; [by apply store32_entry |].
  apply wp_bind, wp_zoom. eapply wp_intro; [by apply load32_entry |]. apply wp_bind, wp_zoom.
  eapply wp_intro; [by apply store32_entry |]. simpl. rewrite st32_st32, ld32_st32, u32_id by (apply land_lnot_range; lia).
  apply Hk. by split.
Qed.

Lemma load8_kernel s p : page_ok p → load8 p s = Ok (rd (m_mem s) (V2P p), s).
Proof. intros Hp. unfold load8, kva. by rewrite page_ok_direct by (done || lia). Qed.

(** The entry of a page that was just decrypted. *)
Definition open_entry (e : Z) : Z := Z.lor (dec_entry e) PTE_A.

Lemma open_entry_bit e k :
  0 ≤ k → Z.testbit (open_entry e) k = (Z.testbit e k && negb (10 =? k)) || (0 =? k) || (5 =? k).
Proof. intros Hk. unfold open_entry. change PTE_A with (2 ^ 5). by rewrite tb_set, dec_entry_bit by lia. Qed.

(** [mdecrypt] after the queue was updated. *)
Lemma mdecrypt_tail s l va t :
  uready s l → 0 ≤ va < KERNBASE → mapped (upte s va) = true →
  tab (m_mem (us_mach s)) (p_pgdir (us_proc s)) (PDX va) = Some t →
  Z.testbit (upte s va) 2 = true → Z.testbit (upte s va) 1 = true →
  wp (v ← on_mach (load32 (t + 4 * PTX va));
      on_mach (store32 (t + 4 * PTX va) (Z.land v (Z.lnot PTE_E)));;
      v ← on_mach (load32 (t + 4 * PTX va));
      on_mach (store32 (t + 4 * PTX va) (Z.lor v PTE_P));;
      _ ← on_mach (uva2ka (p_pgdir (us_proc s)) va);
      let virtual_addr := PGROUNDDOWN va in
      kvp ← on_mach (uva2ka (p_pgdir (us_proc s)) virtual_addr);
      if kvp =? 0 then mret (-1) else
      b ← on_mach (load8 kvp);
      if b =? 0 then mret (-1) else
      on_mach (flip_bytes virtual_addr (Z.to_nat PGSIZE));;
      mret 0) s
    (λ r s', if ucontents s va 0 =? 0 then r = -1 ∧ ustep va (dec_entry (upte s va)) (ucontents s va) s l s'
             else r = 0 ∧ ustep va (open_entry (upte s va)) (flipped (ucontents s va)) s l s').
Proof.
  intros Hr Hva Hm Ht HU HW. set (e := upte s va) in *.
  eapply wp_dec_entry; [done.. |]. intros s1 Hst. pose proof (ustep_ready _ _ _ _ _ _ Hst Hr) as Hr1.
  destruct (dec_entry_facts e) as (R & Ea & Em); [apply pte_range |].
  destruct (ustep_view _ _ _ _ _ _ Hr Hst Hva Hm Ea) as [V1 V2]. destruct Hst as [Hp1 X1].
  unfold KERNBASE in Hva. set (pd := p_pgdir (us_proc s)) in *. set (b := PGROUNDDOWN va).
  assert (b = va - va mod 4096) as Eb by (apply PGROUNDDOWN_eq; lia).
  assert (0 ≤ b < KERNBASE ∧ b mod 4096 = 0 ∧ b / 4096 = va / 4096) as (Hbk & Hbal & Hbp)
    by (unfold KERNBASE; split_and!; zdiv).
  assert (∀ va', 0 ≤ va' < 2 ^ 32 → va' / 4096 = va / 4096 → pte (m_mem (us_mach s1)) pd va' = dec_entry e) as P1.
  { intros va' Hva' E. specialize (V1 va' Hva'). rewrite E, Z.eqb_refl in V1. unfold upte in V1.
    by rewrite Hp1 in V1. }
  assert (user_ok (dec_entry e) = true) as Hu1.
  { unfold user_ok. rewrite Em, dec_entry_bit by lia. by rewrite HU. }
  assert (∀ va', 0 ≤ va' < 2 ^ 32 → va' / 4096 = va / 4096 →
    uva2ka pd va' (us_mach s1) = Ok (P2V (PTE_ADDR e), us_mach s1)) as Huv.
  { intros va' Hva' E. destruct (tab (m_mem (us_mach s1)) pd (PDX va')) as [t'|] eqn:Et'.
    - erewrite uva2ka_spec; [|by destruct X1 | done]. cbv zeta. by rewrite P1, Hu1, Ea.
    - specialize (P1 va' Hva' E). unfold pte in P1. rewrite Et' in P1. by rewrite <- P1 in Em. }
  destruct (utab s l va Hr) as (_ & _ & _ & Hf & Hfv); [unfold KERNBASE; lia | done |]. fold e in Hf, Hfv.
  pose proof (page_ok_facts _ Hf) as (_ & _ & _ & _ & Hf0 & _).
  apply wp_bind, wp_zoom. eapply wp_intro; [apply Huv; lia |].
  rewrite set_us_mach_id. cbv zeta. unfold KERNBASE in Hbk. apply wp_bind, wp_zoom.
  eapply wp_intro; [apply Huv; lia |]. rewrite set_us_mach_id.
  destruct (Z.eqb_spec (P2V (PTE_ADDR e)) 0); [lia |].
  apply wp_bind, wp_zoom. eapply wp_intro; [by apply load8_kernel |]. rewrite set_us_mach_id, Hfv.
  assert (∀ o, 0 ≤ o < 4096 → rd (m_mem (us_mach s1)) (PTE_ADDR e + o) = ucontents s va o) as C1 by apply X1.
  pose proof (C1 0 ltac:(lia)) as C10. rewrite Z.add_0_r in C10. rewrite C10.
  destruct (Z.eqb_spec (ucontents s va 0) 0); [by apply wp_ret |].
  apply wp_bind, wp_zoom. pose proof X1 as [A1 A2 (A3 & _) _ _ _ _].
  assert (pte (m_mem (us_mach s1)) pd b = dec_entry e) as Pb by (apply P1; lia).
  eapply wp_mono.
  { replace b with (b + 0) at 1 by lia. apply (flip_bytes_spec _ (us_mach s1) pd l b 0); try done.
    - rewrite A3. apply Hr.
    - by rewrite Pb, dec_entry_bit, orb_true_r by lia.
    - rewrite Pb, dec_entry_bit by lia. by rewrite HW. }
  intros [] m2 X2. cbv zeta in X2. rewrite Pb, bool_decide_eq_false_2 in X2 by done. fold (open_entry e) in X2.
  apply wp_ret. split; [done |]. split; [done |]. simpl.
  apply (page_step_page _ _ va) in X2; [|lia..|done]. eapply page_step_ext.
  2:{ eapply page_step_trans; [unfold KERNBASE; lia | exact Ea | exact X1 | exact X2]. }
  intros o Ho. cbv beta. change (Z.of_nat (Z.to_nat PGSIZE)) with 4096. unfold contents. rewrite Pb, Ea, C1 by done.
  unfold flipped. case_cmp; cbn [andb]; lia || done.
Qed.

Lemma ustep_open s l va s' :
  uready s l → 0 ≤ va < KERNBASE → Z.testbit (upte s va) 10 = true →
  ustep va (open_entry (upte s va)) (flipped (ucontents s va)) s l s' →
  uready s' l ∧ us_proc s' = us_proc s ∧
  Z.testbit (upte s' va) 0 = true ∧ Z.testbit (upte s' va) 10 = false ∧
  (∀ va', 0 ≤ va' < 2 ^ 32 → va' / 4096 ≠ va / 4096 → upte s' va' = upte s va') ∧
  (∀ va', 0 ≤ va' < KERNBASE → mapped (upte s va') = true →
     mapped (upte s' va') = true ∧ plain s' va' = plain s va').
Proof.
  intros Hr Hva HE Hst. assert (mapped (upte s va) = true) as Hm by (unfold mapped; by rewrite HE, orb_true_r).
  destruct (dec_entry_facts (upte s va)) as (R & Ea & Em); [apply pte_range |].
  assert (PTE_ADDR (open_entry (upte s va)) = PTE_ADDR (upte s va)) as Eo.
  { unfold open_entry. by rewrite PTE_ADDR_lor, Ea by done. }
  assert (Z.testbit (open_entry (upte s va)) 0 = true) as B0.
  { rewrite open_entry_bit by lia. change (0 =? 0) with true. by rewrite !orb_true_r. }
  assert (Z.testbit (open_entry (upte s va)) 10 = false) as B10.
  { rewrite open_entry_bit by lia. change (10 =? 10) with true. by rewrite andb_false_r. }
  pose proof (ustep_view _ _ _ _ _ _ Hr Hst Hva Hm Eo) as V. pose proof V as [V1 V2].
  pose proof (ustep_ready _ _ _ _ _ _ Hst Hr) as Hr'. destruct Hst as [Hp _]. unfold KERNBASE in *.
  assert (upte s' va = open_entry (upte s va)) as P by (rewrite V1, Z.eqb_refl by lia; done).
  rewrite P. split_and!; try done.
  - intros va' Hva' Hne. rewrite V1 by done. by destruct (Z.eqb_spec (va' / 4096) (va / 4096)).
  - intros va' Hva' Hm'. split.
    + rewrite V1 by lia. destruct (_ =? _); [|done]. unfold mapped. by rewrite B0.
    + eapply uview_plain; [exact V | done | done | | done | done]. intros o Ho. by rewrite B10, HE.
Qed.

(** [mdecrypt] on an encrypted page: the queue first, then the page. *)
Lemma mdecrypt_run s l va Q :
  uready s l → 0 ≤ va < KERNBASE →
  Z.testbit (upte s va) 10 = true → Z.testbit (upte s va) 2 = true → Z.testbit (upte s va) 1 = true →
  (∀ w, victim s w → resident s w) →
  (∀ s1, uready s1 l → PGROUNDDOWN va ∈ p_clock (us_proc s1) →
     (s1 = s ∧ va ∈ p_clock (us_proc s) ∨
      enters s va s1 ∧ ∀ w, victim s w → upte s1 w = enc_entry (upte s w)) →
     (∀ k, 0 ≤ k → k ≠ 5 → Z.testbit (upte s1 va) k = Z.testbit (upte s va) k) →
     (∀ o, 0 ≤ o < 4096 → ucontents s1 va o = ucontents s va o) →
     (∀ va', 0 ≤ va' < 2 ^ 32 → va' / 4096 ≠ va / 4096 → (∀ w, victim s w → va' / 4096 ≠ w / 4096) →
        upte s1 va' = upte s va') →
     (∀ va', 0 ≤ va' < KERNBASE → mapped (upte s va') = true →
        mapped (upte s1 va') = true ∧ plain s1 va' = plain s va') →
     ∀ r s', (if ucontents s va 0 =? 0 then r = -1 ∧ ustep va (dec_entry (upte s1 va)) (ucontents s1 va) s1 l s'
              else r = 0 ∧ ustep va (open_entry (upte s1 va)) (flipped (ucontents s1 va)) s1 l s') → Q r s') →
  wp (mdecrypt va) s Q.
Proof.
  intros Hr Hva HE HU HW Hvic HQ.
  assert (mapped (upte s va) = true) as Hm by (unfold mapped; by rewrite HE, orb_true_r).
  destruct (utab s l va Hr Hva Hm) as (t & Ht & Hpt & _). unfold mdecrypt.
  apply wp_bind, wp_gets. eapply wp_walk; [done |]. rewrite Ht.
  destruct (entry_addr t (PTX va) Hpt (PTX_range va)) as (_ & _ & _ & Hn0).
  destruct (Z.eqb_spec (t + 4 * PTX va) 0); [lia |]. eapply wp_load_upte; [done.. |].
  destruct (Z.eqb_spec (upte s va) 0) as [E0|_]; [by rewrite E0, Z.bits_0 in HE |].
  destruct (inQ_spec s l va Hr) as (q & Eq & Hq). apply wp_bind. eapply wp_intro; [exact Eq |].
  apply wp_bind. destruct Hq as [[-> Hq]|[Hq1 Hq2]].
  - apply wp_bind. eapply wp_mono; [by apply (addClock_view s l va) |].
    intros r s1 (-> & Hr1 & Hin & Hpd & Htab & He1 & Hc1 & Hoth & Hve & Hpl). apply wp_ret.
    assert (∀ k, 0 ≤ k → k ≠ 5 → Z.testbit (upte s1 va) k = Z.testbit (upte s va) k) as Hbits.
    { intros k Hk Hk5. destruct He1 as [->| ->]; [done | by apply clear_A_ne]. }
    assert (mapped (upte s1 va) = true) as Hm1 by (unfold mapped; by rewrite !Hbits).
    rewrite <- Hpd in Ht. pose proof Ht as Ht1. rewrite Hpd, <- Htab, <- Hpd in Ht1. rewrite <- Hpd.
    eapply wp_mono; [apply (mdecrypt_tail s1 l va t); rewrite ?Hbits by lia; done |].
    rewrite Hc1 by lia. apply HQ; try done; [by eapply enters_elem | by right].
  - destruct (Z.eqb_spec q (-1)); [lia |]. apply wp_ret.
    eapply wp_mono; [by apply (mdecrypt_tail s l va t) |].
    assert (va ∈ p_clock (us_proc s)) as Hin by (apply list_elem_of_lookup; eauto). apply HQ; try done; [|by left].
    pose proof (ur_aligned _ _ Hr) as Hal. rewrite list.Forall_forall in Hal. specialize (Hal va Hin).
    unfold KERNBASE in Hva. by rewrite PGROUNDDOWN_id by lia.
Qed.

(** A fault on an encrypted page of the process.  The page becomes readable
    with the contents it had, unless its first byte as stored is zero. *)
Lemma mdecrypt_spec s l va :
  uready s l → 0 ≤ va < KERNBASE →
  Z.testbit (upte s va) 10 = true → Z.testbit (upte s va) 2 = true → Z.testbit (upte s va) 1 = true →
  (∀ w, victim s w → resident s w) → ucontents s va 0 ≠ 0 →
  wp (mdecrypt va) s (λ r s', r = 0 ∧ uready s' l ∧ PGROUNDDOWN va ∈ p_clock (us_proc s') ∧
    Z.testbit (upte s' va) 0 = true ∧ Z.testbit (upte s' va) 10 = false ∧
    (∀ va', 0 ≤ va' < 2 ^ 32 → va' / 4096 ≠ va / 4096 → (∀ w, victim s w → va' / 4096 ≠ w / 4096) →
       upte s' va' = upte s va') ∧
    (∀ va', 0 ≤ va' < KERNBASE → mapped (upte s va') = true →
       mapped (upte s' va') = true ∧ plain s' va' = plain s va')).
Proof.
  intros Hr Hva HE HU HW Hvic Hb0. eapply mdecrypt_run; [done.. |].
  intros s1 Hr1 Hin _ Hbits Hc1 Hoth Hpl r s2. destruct (Z.eqb_spec (ucontents s va 0) 0); [done |]. intros [-> Hst].
  destruct (ustep_open s1 l va s2) as (Hr2 & Hp2 & B0 & B10 & Ho2 & Hpl2); try done; [by rewrite Hbits by lia |].
  split_and!; try done; [by rewrite Hp2 | |].
  - intros va' Hva' Hne Hn. rewrite Ho2 by done. by apply Hoth.
  - intros va' Hva' Hm'. destruct (Hpl va' Hva' Hm') as [Hm'' Hpp].
    destruct (Hpl2 va' Hva' Hm'') as [? Hpp2]. split; [done | by rewrite Hpp2].
Qed.

(** A page that starts with the byte 0xFF is stored with a zero first byte.
    [mdecrypt] takes that for an error: it fails, and leaves the page
    present with its contents still encrypted. *)
Lemma mdecrypt_zero s l va :
  uready s l → 0 ≤ va < KERNBASE →
  Z.testbit (upte s va) 10 = true → Z.testbit (upte s va) 2 = true → Z.testbit (upte s va) 1 = true →
  (∀ w, victim s w → resident s w) → plain s (PGROUNDDOWN va) = 0xFF →
  wp (mdecrypt va) s (λ r s', r = -1 ∧ Z.testbit (upte s' va) 0 = true ∧ Z.testbit (upte s' va) 10 = false ∧
    ∀ o, 0 ≤ o < 4096 → ucontents s' va o = ucontents s va o).
Proof.
  intros Hr Hva HE HU HW Hvic Hpl0. unfold KERNBASE in Hva.
  assert (ucontents s va 0 = 0) as Hb0.
  { revert Hpl0. unfold plain. rewrite PGROUNDDOWN_eq by lia. set (b := va - va mod 4096).
    assert (upte s b = upte s va) as Eb by (unfold upte; apply pte_page; unfold b; zdiv).
    assert (b mod 4096 = 0) as E0 by (unfold b; zdiv).
    rewrite Eb, HE, E0. unfold ucontents, contents. fold (upte s b) (upte s va). rewrite Eb.
    rewrite flip_eq by apply rd_range. lia. }
  eapply mdecrypt_run; [done.. |].
  intros s1 Hr1 Hin _ Hbits Hc1 Hoth Hpl r s2. rewrite Hb0, Z.eqb_refl. intros [-> Hst].
  assert (mapped (upte s1 va) = true) as Hm1 by (unfold mapped; by rewrite (Hbits 10), HE, orb_true_r by lia).
  destruct (dec_entry_facts (upte s1 va)) as (R & Ea & Em); [apply pte_range |].
  destruct (ustep_view _ _ _ _ _ _ Hr1 Hst Hva Hm1 Ea) as [V1 V2].
  assert (upte s2 va = dec_entry (upte s1 va)) as P by (rewrite V1, Z.eqb_refl by lia; done).
  rewrite P, !dec_entry_bit by lia. change (10 =? 10) with true. change (0 =? 0) with true.
  rewrite orb_true_r, andb_false_r. split_and!; try done.
  intros o Ho. rewrite V2, Z.eqb_refl by done. by apply Hc1.
Qed.

End ClockSpec.
