(* ===== verification/Sample.v ===== *)
(** * A small machine

    A page directory with one table and one user page, or several, and one free
    page, at addresses of the kernel image in [kernel.sym].  The theorems of the other
    files are instantiated on it. *)

From S2P Require Import Prelude Mmu Mem Spinlock Kalloc Vm VmSpec VmUser VmKern ProcDefs Crypt CryptSpec ClockSpec.

#[global] Existing Instance xv6_linker.

(** Directory, table, frame and free page. *)
Definition sd : Z := 0x80400000.
Definition st : Z := 0x80401000.
Definition sf : Z := 0x80402000.
Definition sp : Z := 0x80403000.

(** User page number [v] with entry [e]; [b] is its first byte. *)
Definition smem (v e b : Z) : mem :=
  wr (st32 (st32 ∅ (V2P sd) (V2P st + 7)) (V2P st + 4 * v) e) (V2P sf) b.

Definition scpu : cpu := Cpu 0 true 0 false.
Definition smach (m : mem) : mach :=
  Mach m (V2P sd) scpu (Tss 0 0 0) (Kmem (Lock false None) true sp) 0.

(** Present, encrypted, and present after an access. *)
Definition e_present : Z := V2P sf + 7.
Definition e_crypt : Z := V2P sf + 0x406.
Definition e_touched : Z := V2P sf + 0x27.
Definition sentry (e : Z) : Prop := 0 ≤ e < 2 ^ 32 ∧ PTE_ADDR e = V2P sf.

Lemma sentries : sentry e_present ∧ sentry e_crypt ∧ sentry e_touched.
Proof. repeat split; vm_compute; reflexivity || discriminate. Qed.

Lemma spages : page_ok sd ∧ page_ok st ∧ page_ok sf ∧ page_ok sp.
Proof. repeat split; vm_compute; reflexivity || discriminate. Qed.

Lemma smem_pde v e b i : 0 ≤ v < 1024 → 0 ≤ i < 1024 → pde (smem v e b) sd i = if i =? 0 then V2P st + 7 else 0.
Proof.
  intros Hv Hi. unfold pde, smem. change (V2P sd) with 0x400000. change (V2P st) with 0x401000. change (V2P sf) with 0x402000.
  rewrite (ld32_ext (st32 (st32 ∅ 0x400000 (0x401000 + 7)) (0x401000 + 4 * v) e)).
  2:{ intros x Hx. apply rd_wr_ne. lia. }
  rewrite ld32_st32_ne by lia. destruct (Z.eqb_spec i 0) as [->|].
  - rewrite Z.mul_0_r, Z.add_0_r. apply ld32_st32.
  - rewrite ld32_st32_ne by lia. apply ld32_empty.
Qed.

Lemma smem_tab v e b i : 0 ≤ v < 1024 → tab (smem v e b) sd i = if i =? 0 then Some st else None.
Proof.
  intros Hv. unfold tab. destruct (Z.leb_spec 0 i), (Z.ltb_spec i 1024); cbn [andb].
  - rewrite smem_pde by lia. destruct (i =? 0); [done |]. by rewrite Z.bits_0.
  - by destruct (Z.eqb_spec i 0); [lia |].
  - by destruct (Z.eqb_spec i 0); [lia |].
  - by destruct (Z.eqb_spec i 0); [lia |].
Qed.

Lemma smem_pte v e b va :
  0 ≤ v < 1024 → 0 ≤ e < 2 ^ 32 → 0 ≤ va < 2 ^ 32 → pte (smem v e b) sd va = if va / 4096 =? v then e else 0.
Proof.
  intros Hv He Hva. unfold pte. rewrite smem_tab by done. destruct (Z.eqb_spec (PDX va) 0) as [Hp|Hp].
  2:{ rewrite PDX_eq in Hp by done. destruct (Z.eqb_spec (va / 4096) v); [zdiv | done]. }
  rewrite PDX_eq in Hp by done.
  assert (PTX va = va / 4096) as -> by (rewrite PTX_eq by done; apply Z.mod_small; zdiv).
  assert (0 ≤ va / 4096 < 1024) as Hr by zdiv. unfold smem.
  change (V2P sd) with 0x400000. change (V2P st) with 0x401000. change (V2P sf) with 0x402000.
  rewrite (ld32_ext (st32 (st32 ∅ 0x400000 (0x401000 + 7)) (0x401000 + 4 * v) e)).
  2:{ intros x Hx. apply rd_wr_ne. lia. }
  destruct (Z.eqb_spec (va / 4096) v) as [->|].
  - rewrite ld32_st32. by apply u32_id.
  - rewrite ld32_st32_ne by lia. rewrite ld32_st32_ne by lia. apply ld32_empty.
Qed.

(** What it owns. *)
Lemma smem_slot v e b sl p :
  0 ≤ v < 1024 → sentry e →
  slot_page (smem v e b) sd sl = Some p → (sl = SDir ∧ p = sd) ∨ (sl = STab 0 ∧ p = st) ∨ (sl = SFrame v ∧ p = sf).
Proof.
  intros Hv He. assert (0 ≤ e < 2 ^ 32 ∧ P2V (PTE_ADDR e) = sf) as [Hr Ha].
  { destruct He as [? ->]. done. }
  destruct sl as [|i|w]; simpl.
  - intros [= <-]. by left.
  - rewrite smem_tab by done. destruct (Z.eqb_spec i 0) as [->|]; [|done]. intros [= <-]. right. by left.
  - destruct (Z.leb_spec 0 w), (Z.ltb_spec w (2 ^ 19)); cbn [andb]; try done.
    rewrite smem_pte by lia. replace (4096 * w / 4096) with w by zdiv.
    destruct (Z.eqb_spec w v) as [->|]; [|done]. destruct (mapped e); [|done]. intros [= <-]. right. right. done.
Qed.

Lemma smem_aspace v e b : 0 ≤ v < 1024 → sentry e → aspace (smem v e b) sd [sp].
Proof.
  intros Hv He. destruct spages as (H1 & H2 & H3 & H4). constructor.
  - intros sl p Hs. apply smem_slot in Hs; [|done | done].
    destruct Hs as [[_ ->]|[[_ ->]|[_ ->]]]; (split; [done | by rewrite list_elem_of_singleton]).
  - intros sl1 sl2 p Hs1 Hs2. apply smem_slot in Hs1, Hs2; try done.
    destruct Hs1 as [[-> ->]|[[-> ->]|[-> ->]]], Hs2 as [[-> ?]|[[-> ?]|[-> ?]]]; done.
  - intros i Hi. rewrite smem_tab, smem_pde by done. destruct (i =? 0); [done |]. intros _. apply Z.bits_0.
  - intros i t. rewrite smem_tab by done. destruct (Z.eqb_spec i 0) as [->|]; [|done]. intros _.
    rewrite smem_pde by lia. done.
Qed.

Lemma smem_free v e b : 0 ≤ v < 1024 → ld32 (smem v e b) (V2P sp) = 0.
Proof.
  intros Hv. unfold smem. change (V2P sd) with 0x400000. change (V2P st) with 0x401000.
  change (V2P sf) with 0x402000. change (V2P sp) with 0x403000.
  rewrite (ld32_ext (st32 (st32 ∅ 0x400000 (0x401000 + 7)) (0x401000 + 4 * v) e)).
  2:{ intros x Hx. apply rd_wr_ne. lia. }
  rewrite ld32_st32_ne by lia. rewrite ld32_st32_ne by lia. apply ld32_empty.
Qed.

Lemma smach_inv v e b : 0 ≤ v < 1024 → kalloc_inv (smach (smem v e b)) [sp].
Proof.
  intros Hv. constructor; [split; [done | by apply smem_free] | | | done | done].
  - repeat constructor; apply spages.
  - apply NoDup_singleton.
Qed.

(** A process with the page, and the given clock queue. *)
Definition sproc (clock : list Z) : proc := set_clock clock (set_kstack sp (set_pgdir sd (set_sz 8192 proc_zero))).
Definition sstate (e b : Z) (clock : list Z) : ustate := Ustate (smach (smem 1 e b)) (sproc clock).

Definition no_clock : list Z := replicate 8 0.
Definition full_clock : list Z := replicate 8 0x1000.

Lemma sready e b clock :
  sentry e → length clock = 8%nat → Forall (λ c, c mod 4096 = 0) clock →
  uready (sstate e b clock) [sp].
Proof.
  intros He Hl Hc. constructor; try done.
  - by apply smach_inv.
  - by apply smem_aspace.
Qed.

Lemma supte e b clock va :
  0 ≤ e < 2 ^ 32 → 0 ≤ va < 2 ^ 32 → upte (sstate e b clock) va = if va / 4096 =? 1 then e else 0.
Proof. by apply smem_pte. Qed.

(** ** Several pages

    The same with the pages 0, 1, ... of entries [es], each with its frame. *)

Definition mframe (i : Z) : Z := 0x80404000 + 4096 * i.

Fixpoint mtab (k : Z) (es : list Z) (m : mem) : mem :=
  match es with
  | [] => m
  | e :: es => mtab (k + 1) es (st32 m (V2P st + 4 * k) e)
  end.
Definition mmem (es : list Z) : mem := mtab 0 es (st32 ∅ (V2P sd) (V2P st + 7)).

Lemma mtab_out k es m x :
  0 ≤ k → x + 4 ≤ V2P st + 4 * k ∨ V2P st + 4 * (k + Z.of_nat (length es)) ≤ x → ld32 (mtab k es m) x = ld32 m x.
Proof.
  revert k m. induction es as [|e es IH]; intros k m Hk Hx; [done |]. cbn [mtab length] in *.
  rewrite IH by lia. rewrite ld32_st32_ne; [done | lia].
Qed.

Lemma mtab_in k es m j :
  0 ≤ k ≤ j → Forall (λ e, 0 ≤ e < 2 ^ 32) es → j < k + Z.of_nat (length es) →
  ld32 (mtab k es m) (V2P st + 4 * j) = default 0 (es !! Z.to_nat (j - k)).
Proof.
  revert k m. induction es as [|e es IH]; intros k m Hk He Hj; cbn [mtab length] in *; [lia |].
  apply list.Forall_cons in He as [He Hes]. destruct (decide (j = k)) as [->|].
  - rewrite mtab_out, ld32_st32, Z.sub_diag by lia. by apply u32_id.
  - rewrite IH by (done || lia). replace (Z.to_nat (j - k)) with (S (Z.to_nat (j - (k + 1)))) by lia. done.
Qed.

(** Few pages, and entries that have the frame of their page if they are mapped. *)
Definition mentries (es : list Z) : Prop :=
  (length es ≤ 16)%nat ∧ Forall (λ e, 0 ≤ e < 2 ^ 32) es ∧
  ∀ i e, es !! i = Some e → mapped e = true → PTE_ADDR e = V2P (mframe (Z.of_nat i)).

Section Many.
Context (es : list Z) (Hes : mentries es).

Lemma mmem_pde i : 0 ≤ i < 1024 → pde (mmem es) sd i = if i =? 0 then V2P st + 7 else 0.
Proof.
  intros Hi. unfold pde, mmem. rewrite mtab_out; [|lia |]; change (V2P sd) with 0x400000; change (V2P st) with 0x401000; [|lia].
  destruct (Z.eqb_spec i 0) as [->|].
  - rewrite Z.mul_0_r, Z.add_0_r. apply ld32_st32.
  - rewrite ld32_st32_ne by lia. apply ld32_empty.
Qed.

Lemma mmem_tab i : tab (mmem es) sd i = if i =? 0 then Some st else None.
Proof.
  unfold tab. destruct (Z.leb_spec 0 i), (Z.ltb_spec i 1024); cbn [andb].
  - rewrite mmem_pde by lia. destruct (i =? 0); [done |]. by rewrite Z.bits_0.
  - by destruct (Z.eqb_spec i 0); [lia |].
  - by destruct (Z.eqb_spec i 0); [lia |].
  - by destruct (Z.eqb_spec i 0); [lia |].
Qed.

Lemma mmem_pte va : 0 ≤ va < 2 ^ 32 → pte (mmem es) sd va = default 0 (es !! Z.to_nat (va / 4096)).
Proof using Hes.
  destruct Hes as (Hl & He & _). intros Hva. unfold pte. rewrite mmem_tab. destruct (Z.eqb_spec (PDX va) 0) as [Hp|Hp].
  2:{ rewrite PDX_eq in Hp by done. rewrite lookup_ge_None_2; [done | zdiv]. }
  rewrite PDX_eq in Hp by done.
  assert (PTX va = va / 4096) as -> by (rewrite PTX_eq by done; apply Z.mod_small; zdiv).
  assert (0 ≤ va / 4096 < 1024) as Hr by zdiv. unfold mmem. destruct (decide (va / 4096 < Z.of_nat (length es))).
  - rewrite mtab_in by (done || lia). by rewrite Z.sub_0_r.
  - rewrite mtab_out by lia. change (V2P sd) with 0x400000. change (V2P st) with 0x401000.
    rewrite ld32_st32_ne by lia. rewrite lookup_ge_None_2 by lia. apply ld32_empty.
Qed.

Lemma mmem_slot sl p :
  slot_page (mmem es) sd sl = Some p →
  (sl = SDir ∧ p = sd) ∨ (sl = STab 0 ∧ p = st) ∨ ∃ w, sl = SFrame w ∧ 0 ≤ w < 16 ∧ p = mframe w.
Proof using Hes.
  destruct sl as [|i|w]; simpl.
  - intros [= <-]. by left.
  - rewrite mmem_tab. destruct (Z.eqb_spec i 0) as [->|]; [|done]. intros [= <-]. right. by left.
  - destruct (Z.leb_spec 0 w), (Z.ltb_spec w (2 ^ 19)); cbn [andb]; try done.
    rewrite mmem_pte by lia. replace (4096 * w / 4096) with w by zdiv. destruct Hes as (Hl & He & Hf).
    destruct (es !! Z.to_nat w) as [e|] eqn:E; simpl; [|done]. destruct (mapped e) eqn:Hm; [|done]. intros [= <-].
    pose proof (lookup_lt_Some _ _ _ E). right. right. exists w. rewrite (Hf _ _ E Hm), Z2Nat.id by done.
    split_and!; [done | lia | lia |]. unfold P2V, V2P, mframe, KERNBASE, u32. zdiv.
Qed.

Lemma mframe_ok w : 0 ≤ w < 16 → page_ok (mframe w).
Proof.
  intros Hw. assert (k_end ≤ mframe 0) as He by (by vm_compute). unfold page_ok, mframe, KERNBASE, PHYSTOP in *.
  split_and!; [zdiv | lia | lia].
Qed.

Lemma mmem_aspace : aspace (mmem es) sd [sp].
Proof using Hes.
  destruct spages as (G1 & G2 & _ & _). assert (∀ w, 0 ≤ w → mframe w ≠ sd ∧ mframe w ≠ st ∧ mframe w ≠ sp) as Hne.
  { intros w Hw. unfold mframe, sd, st, sp. lia. }
  constructor.
  - intros sl p Hs. rewrite list_elem_of_singleton.
    apply mmem_slot in Hs as [[_ ->]|[[_ ->]|(w & _ & Hw & ->)]]; [done | done |]. split; [by apply mframe_ok | apply Hne; lia].
  - intros sl1 sl2 p Hs1 Hs2. apply mmem_slot in Hs1, Hs2.
    destruct Hs1 as [[-> ->]|[[-> ->]|(w & -> & Hw & ->)]], Hs2 as [[-> E]|[[-> E]|(w' & -> & Hw' & E)]]; try done.
    + destruct (Hne w' ltac:(lia)). congruence.
    + destruct (Hne w' ltac:(lia)) as (_ & ? & _). congruence.
    + by destruct (Hne w ltac:(lia)).
    + by destruct (Hne w ltac:(lia)) as (_ & ? & _).
    + f_equal. unfold mframe in E. lia.
  - intros i Hi. rewrite mmem_tab, mmem_pde by done. destruct (i =? 0); [done |]. intros _. apply Z.bits_0.
  - intros i t. rewrite mmem_tab. destruct (Z.eqb_spec i 0) as [->|]; [|done]. intros _. by rewrite mmem_pde by lia.
Qed.

Definition mstate (clock : list Z) : ustate := Ustate (smach (mmem es)) (sproc clock).

Lemma mready clock :
  length clock = 8%nat → Forall (λ c, c mod 4096 = 0) clock → uready (mstate clock) [sp].
Proof using Hes.
  intros Hl Hc. constructor; try done; [|by apply mmem_aspace].
  constructor; [split; [done |] | | | done | done].
  - simpl. unfold mmem. destruct Hes as (Hle & _). rewrite mtab_out; change (V2P st) with 0x401000; change (V2P sp) with 0x403000; [|lia | lia].
    change (V2P sd) with 0x400000. rewrite ld32_st32_ne by lia. apply ld32_empty.
  - repeat constructor; apply spages.
  - apply NoDup_singleton.
Qed.
End Many.
