(* ===== verification/Bytes.v ===== *)
(** * Byte strings

    Structures on disk and strings are lists of bytes.  [slice] and [splice]
    are the [memmove]s out of and into a buffer; the [get]/[put] functions
    read and write little-endian fields. *)

From S2P Require Import Prelude.

Definition slice (off n : nat) (l : list Z) : list Z := take n (drop off l).

(** [bs] copied over [l] at [off]. *)
Definition splice (off : nat) (bs l : list Z) : list Z :=
  take off l ++ bs ++ drop (off + length bs) l.

Definition byte_at (l : list Z) (i : nat) : Z := default 0 (l !! i).

Definition get16 (l : list Z) (off : nat) : Z := byte_at l off + 2 ^ 8 * byte_at l (off + 1).
Definition get32 (l : list Z) (off : nat) : Z :=
  byte_at l off + 2 ^ 8 * byte_at l (off + 1) + 2 ^ 16 * byte_at l (off + 2) + 2 ^ 24 * byte_at l (off + 3).

Definition le16 (v : Z) : list Z := [v mod 256; v / 256 mod 256].
Definition le32 (v : Z) : list Z := [v mod 256; v / 2 ^ 8 mod 256; v / 2 ^ 16 mod 256; v / 2 ^ 24 mod 256].

Definition put16 (off : nat) (v : Z) (l : list Z) : list Z := splice off (le16 v) l.
Definition put32 (off : nat) (v : Z) (l : list Z) : list Z := splice off (le32 v) l.

(** Array of 32-bit words. *)
Definition get32s (l : list Z) (off n : nat) : list Z := (λ i, get32 l (off + 4 * i)) <$> seq 0 n.
Definition put32s (off : nat) (vs : list Z) (l : list Z) : list Z := splice off (mjoin (le32 <$> vs)) l.

Definition bytes_ok (l : list Z) : Prop := Forall (λ b, 0 ≤ b < 256) l.

(** ** Lemmas *)

Lemma length_slice off n l : (off + n ≤ length l)%nat → length (slice off n l) = n.
Proof. intros H. unfold slice. rewrite length_take, length_drop. lia. Qed.

Lemma length_splice off bs l : (off + length bs ≤ length l)%nat → length (splice off bs l) = length l.
Proof. intros H. unfold splice. rewrite !length_app, length_take, length_drop. lia. Qed.

Lemma lookup_splice off bs l i :
  (off + length bs ≤ length l)%nat →
  splice off bs l !! i =
    if decide (off ≤ i < off + length bs)%nat then bs !! (i - off)%nat else l !! i.
Proof.
  intros H. unfold splice. case_decide as Hd.
  - rewrite lookup_app_r by (rewrite length_take; lia). rewrite length_take.
    replace (off `min` length l)%nat with off by lia. apply lookup_app_l. lia.
  - destruct (decide (i < off)%nat).
    + rewrite lookup_app_l by (rewrite length_take; lia). apply lookup_take_lt. lia.
    + rewrite lookup_app_r, length_take by (rewrite length_take; lia).
      replace (off `min` length l)%nat with off by lia.
      rewrite lookup_app_r by lia. rewrite lookup_drop. f_equal. lia.
Qed.

Lemma slice_splice_eq off bs l :
  (off + length bs ≤ length l)%nat → slice off (length bs) (splice off bs l) = bs.
Proof.
  intros H. unfold slice, splice. rewrite drop_app_length' by (rewrite length_take; lia).
  by rewrite take_app_length.
Qed.

Lemma lookup_slice off n l i :
  slice off n l !! i = if decide (i < n)%nat then l !! (off + i)%nat else None.
Proof.
  unfold slice. case_decide.
  - rewrite lookup_take_lt by lia. by rewrite lookup_drop.
  - apply lookup_take_ge. lia.
Qed.

(** Reading away from the bytes written. *)
Lemma slice_splice_ne off bs l off' n :
  (off + length bs ≤ length l)%nat → (off' + n ≤ off ∨ off + length bs ≤ off')%nat →
  slice off' n (splice off bs l) = slice off' n l.
Proof.
  intros H Hd. apply list_eq. intros i. rewrite !lookup_slice. case_decide; [|done].
  rewrite lookup_splice by done. case_decide; [lia | done].
Qed.

Lemma byte_at_splice off bs l i :
  (off + length bs ≤ length l)%nat →
  byte_at (splice off bs l) i =
    if decide (off ≤ i < off + length bs)%nat then byte_at bs (i - off) else byte_at l i.
Proof. intros H. unfold byte_at. rewrite lookup_splice by done. by case_decide. Qed.

Lemma get32_put32 l off v :
  (off + 4 ≤ length l)%nat → 0 ≤ v < 2 ^ 32 → get32 (put32 off v l) off = v.
Proof.
  intros H Hv. unfold get32, put32. rewrite !byte_at_splice by (simpl; lia). simpl.
  repeat case_decide; try lia. replace (off - off)%nat with 0%nat by lia.
  replace (off + 1 - off)%nat with 1%nat by lia. replace (off + 2 - off)%nat with 2%nat by lia.
  replace (off + 3 - off)%nat with 3%nat by lia. unfold byte_at. simpl. zdiv.
Qed.

Lemma get32_put32_ne l off off' v :
  (off + 4 ≤ length l)%nat → (off' + 4 ≤ off ∨ off + 4 ≤ off')%nat →
  get32 (put32 off v l) off' = get32 l off'.
Proof.
  intros H Hd. unfold get32, put32. rewrite !byte_at_splice by (simpl; lia). simpl.
  repeat case_decide; lia || done.
Qed.

Lemma get16_put16 l off v :
  (off + 2 ≤ length l)%nat → 0 ≤ v < 2 ^ 16 → get16 (put16 off v l) off = v.
Proof.
  intros H Hv. unfold get16, put16. rewrite !byte_at_splice by (simpl; lia). simpl.
  repeat case_decide; try lia. replace (off - off)%nat with 0%nat by lia.
  replace (off + 1 - off)%nat with 1%nat by lia. unfold byte_at. simpl. zdiv.
Qed.

Lemma get16_put16_ne l off off' v :
  (off + 2 ≤ length l)%nat → (off' + 2 ≤ off ∨ off + 2 ≤ off')%nat →
  get16 (put16 off v l) off' = get16 l off'.
Proof.
  intros H Hd. unfold get16, put16. rewrite !byte_at_splice by (simpl; lia). simpl.
  repeat case_decide; lia || done.
Qed.

Lemma byte_at_ok l i : bytes_ok l → 0 ≤ byte_at l i < 256.
Proof.
  intros H. unfold byte_at. destruct (l !! i) eqn:E; simpl; [|lia].
  by eapply (Forall_lookup_1 _ _ _ _ H).
Qed.

Lemma get32_range l off : bytes_ok l → 0 ≤ get32 l off < 2 ^ 32.
Proof.
  intros H. unfold get32. pose proof (byte_at_ok l off H). pose proof (byte_at_ok l (off + 1) H).
  pose proof (byte_at_ok l (off + 2) H). pose proof (byte_at_ok l (off + 3) H). lia.
Qed.

Lemma length_put32 off v l : (off + 4 ≤ length l)%nat → length (put32 off v l) = length l.
Proof. intros H. apply length_splice. simpl. lia. Qed.
Lemma length_put16 off v l : (off + 2 ≤ length l)%nat → length (put16 off v l) = length l.
Proof. intros H. apply length_splice. simpl. lia. Qed.

Lemma bytes_ok_splice off bs l : bytes_ok bs → bytes_ok l → bytes_ok (splice off bs l).
Proof.
  intros Hb Hl. unfold bytes_ok, splice. rewrite !Forall_app.
  split_and!; [by apply Forall_take | done | by apply Forall_drop].
Qed.

Lemma bytes_ok_le32 v : bytes_ok (le32 v).
Proof. repeat constructor; apply Z.mod_pos_bound; lia. Qed.

Lemma bytes_ok_le16 v : bytes_ok (le16 v).
Proof. repeat constructor; apply Z.mod_pos_bound; lia. Qed.

Lemma length_le32s vs : length (mjoin (le32 <$> vs)) = (4 * length vs)%nat.
Proof.
  induction vs as [|v vs IH]; [done |].
  change (mjoin (le32 <$> v :: vs)) with (le32 v ++ mjoin (le32 <$> vs)).
  rewrite length_app, IH. simpl. lia.
Qed.

Lemma le32s_byte vs i k :
  (i < length vs)%nat → (k < 4)%nat →
  mjoin (le32 <$> vs) !! (4 * i + k)%nat = le32 (default 0 (vs !! i)) !! k.
Proof.
  revert i. induction vs as [|v vs IH]; intros i Hi Hk; [simpl in Hi; lia |].
  change (mjoin (le32 <$> v :: vs)) with (le32 v ++ mjoin (le32 <$> vs)).
  destruct i as [|i]; [by apply lookup_app_l |]. rewrite lookup_app_r by (simpl; lia).
  replace (4 * S i + k - length (le32 v))%nat with (4 * i + k)%nat by (simpl; lia).
  apply IH; [simpl in Hi; lia | done].
Qed.

(** An array read back. *)
Lemma get32s_put32s off vs l :
  (off + 4 * length vs ≤ length l)%nat → Forall (λ v, 0 ≤ v < 2 ^ 32) vs →
  get32s (put32s off vs l) off (length vs) = vs.
Proof.
  intros H Hv. apply list_eq. intros i. unfold get32s. rewrite list_lookup_fmap.
  destruct (decide (i < length vs)%nat) as [Hi|Hi].
  2:{ rewrite lookup_seq_ge by lia. by rewrite lookup_ge_None_2 by lia. }
  rewrite lookup_seq_lt by lia. cbn [fmap option_fmap option_map Nat.add].
  destruct (lookup_lt_is_Some_2 vs i Hi) as [v Ev]. rewrite Ev. f_equal.
  pose proof (Forall_lookup_1 _ _ _ _ Hv Ev) as Hr. cbv beta in Hr. unfold get32, put32s, byte_at.
  rewrite !lookup_splice by (rewrite length_le32s; lia). rewrite length_le32s.
  repeat case_decide; try lia.
  replace (off + 4 * i - off)%nat with (4 * i + 0)%nat by lia.
  replace (off + 4 * i + 1 - off)%nat with (4 * i + 1)%nat by lia.
  replace (off + 4 * i + 2 - off)%nat with (4 * i + 2)%nat by lia.
  replace (off + 4 * i + 3 - off)%nat with (4 * i + 3)%nat by lia.
  rewrite !le32s_byte by lia. rewrite Ev. simpl. zdiv.
Qed.
