(* ===== verification/Disk.v ===== *)
(** * Buffers, sleep locks and the disk ([buf.h], [sleeplock.c], [memide.c])

    [DiskDriver] is what the buffer cache needs of a driver; the RAM disk of
    [memide.c] is an instance, and so is any driver that also records the
    writes it was asked to make, which is how a crash is stated.

    Spin locks that an operation takes and gives back are not part of the
    states below: [Spin.acquire_release] shows that the pair leaves the lock
    and the CPU as they were.  A [sleep] ends the run with [EBlock]: only
    another process can end it. *)

From S2P Require Import Prelude Mmu Bytes.

Definition BSIZE : Z := 512.
Definition bsize : nat := Z.to_nat BSIZE.

(** ** Sleep locks *)

Record sleeplock : Type := Sleeplock {
  sl_locked : bool;
  sl_pid : Z;
}.

Definition initsleeplock : sleeplock := Sleeplock false 0.

(** [pid] is the current process's. *)
Definition acquiresleep (pid : Z) : M sleeplock unit := λ lk,
  if sl_locked lk then Err EBlock else Ok (tt, Sleeplock true pid).
Definition releasesleep : M sleeplock unit := λ _, Ok (tt, Sleeplock false 0).
Definition holdingsleep (pid : Z) (lk : sleeplock) : bool := sl_locked lk && (sl_pid lk =? pid).

Lemma acquiresleep_holding pid lk lk' :
  acquiresleep pid lk = Ok (tt, lk') → sl_locked lk = false ∧ holdingsleep pid lk' = true.
Proof.
  unfold acquiresleep. destruct (sl_locked lk); [done |]. intros [= <-]. split; [done |].
  unfold holdingsleep. simpl. apply Z.eqb_refl.
Qed.

(** ** Buffers *)

Record buf : Type := Buf {
  b_valid : bool;
  b_dirty : bool;
  b_dev : Z;
  b_blockno : Z;
  b_lock : sleeplock;
  b_refcnt : Z;
  b_data : list Z;
}.

Definition buf_zero : buf := Buf false false 0 0 initsleeplock 0 (replicate bsize 0).

Definition set_flags (v d : bool) (b : buf) : buf :=
  Buf v d (b_dev b) (b_blockno b) (b_lock b) (b_refcnt b) (b_data b).
Definition set_lock (lk : sleeplock) (b : buf) : buf :=
  Buf (b_valid b) (b_dirty b) (b_dev b) (b_blockno b) lk (b_refcnt b) (b_data b).
Definition set_refcnt (n : Z) (b : buf) : buf :=
  Buf (b_valid b) (b_dirty b) (b_dev b) (b_blockno b) (b_lock b) n (b_data b).
Definition set_data (x : list Z) (b : buf) : buf :=
  Buf (b_valid b) (b_dirty b) (b_dev b) (b_blockno b) (b_lock b) (b_refcnt b) x.

(** ** Drivers *)

(** [iderw pid b] syncs the buffer [b] for the process [pid] and gives the
    buffer back; [dblk] is the block a disk holds; [dwf] says that the disk's
    blocks have the right size. *)
Class DiskDriver (D : Type) := {
  iderw : Z → buf → M D buf;
  dblk : D → Z → option (list Z);
  dwf : D → Prop;
}.

(** What a driver promises for disk 1: a dirty buffer is written, any other
    is read; the buffer ends up valid and clean. *)
Class DiskLaws (D : Type) `{DiskDriver D} := {
  iderw_read d pid b x :
    dwf d → holdingsleep pid (b_lock b) = true → b_valid b = false → b_dirty b = false → b_dev b = 1 →
    dblk d (b_blockno b) = Some x →
    ∃ d', iderw pid b d = Ok (set_flags true false (set_data x b), d') ∧ dwf d' ∧ ∀ n, dblk d' n = dblk d n;
  iderw_write d pid b x :
    dwf d → holdingsleep pid (b_lock b) = true → b_dirty b = true → b_dev b = 1 →
    dblk d (b_blockno b) = Some x → length (b_data b) = bsize →
    ∃ d', iderw pid b d = Ok (set_flags true false b, d') ∧ dwf d' ∧
      ∀ n, dblk d' n = if n =? b_blockno b then Some (b_data b) else dblk d n;
  dblk_length d n x : dwf d → dblk d n = Some x → length x = bsize;
  dblk_neg d n : n < 0 → dblk d n = None;
}.

(** ** [memide.c] *)

(** [memdisk] as [disksize] blocks of [BSIZE] bytes. *)
Record memdisk : Type := Memdisk { md_blocks : list (list Z) }.

Definition md_get (d : memdisk) (n : Z) : option (list Z) :=
  if 0 <=? n then md_blocks d !! Z.to_nat n else None.

Definition ideintr : M memdisk unit := mret tt.

Definition mem_iderw (pid : Z) (b : buf) : M memdisk buf := λ d,
  if negb (holdingsleep pid (b_lock b)) then Err (EPanic "iderw: buf not locked") else
  if b_valid b && negb (b_dirty b) then Err (EPanic "iderw: nothing to do") else
  if negb (b_dev b =? 1) then Err (EPanic "iderw: request not for disk 1") else
  if Z.of_nat (length (md_blocks d)) <=? b_blockno b then Err (EPanic "iderw: block out of range") else
  if b_dirty b then
    Ok (set_flags true false b, Memdisk (<[Z.to_nat (b_blockno b) := b_data b]> (md_blocks d)))
  else
    Ok (set_flags true false (set_data (default (b_data b) (md_get d (b_blockno b))) b), d).

#[export] Instance memide_driver : DiskDriver memdisk := {
  iderw := mem_iderw;
  dblk := md_get;
  dwf := λ d, Forall (λ x, length x = bsize) (md_blocks d);
}.

Lemma md_get_range d n x : md_get d n = Some x → 0 ≤ n < Z.of_nat (length (md_blocks d)).
Proof.
  unfold md_get. destruct (Z.leb_spec 0 n); [|done]. intros H1%lookup_lt_Some. lia.
Qed.

#[export] Instance memide_laws : DiskLaws memdisk.
Proof.
  constructor; simpl.
  - intros d pid b x Hwf Hh Hv Hd Hdev Hx. unfold mem_iderw. rewrite Hh, Hv, Hd, Hdev, Hx. simpl.
    apply md_get_range in Hx. destruct (Z.leb_spec (Z.of_nat (length (md_blocks d))) (b_blockno b)); [lia |]. by exists d.
  - intros d pid b x Hwf Hh Hd Hdev Hx Hl. unfold mem_iderw. rewrite Hh, Hd, Hdev, andb_false_r. simpl.
    pose proof (md_get_range _ _ _ Hx) as Hr.
    destruct (Z.leb_spec (Z.of_nat (length (md_blocks d))) (b_blockno b)); [lia |].
    eexists. split_and!; [done | by apply Forall_insert |]. intros n. unfold md_get. simpl.
    destruct (Z.eqb_spec n (b_blockno b)) as [->|Hne].
    + destruct (Z.leb_spec 0 (b_blockno b)); [|lia]. apply list_lookup_insert_eq. lia.
    + destruct (Z.leb_spec 0 n); [|done]. apply list_lookup_insert_ne. lia.
  - intros d n x Hwf. unfold md_get. destruct (Z.leb_spec 0 n); [|done]. apply (Forall_lookup_1 _ _ _ _ Hwf).
  - intros d n Hn. unfold md_get. destruct (Z.leb_spec 0 n); [lia | done].
Qed.

(** ** A driver that keeps a record of its writes

    [dlog] lists the writes made, the last one first. *)

Class DiskTrace (D : Type) `{DiskDriver D} := {
  dlog : D → list (Z * list Z);
  dlog_write pid b d b' d' :
    iderw pid b d = Ok (b', d') → b_dirty b = true → dlog d' = (b_blockno b, b_data b) :: dlog d;
  dlog_read pid b d b' d' : iderw pid b d = Ok (b', d') → b_dirty b = false → dlog d' = dlog d;
}.

(** [d'] is [d] after at most one read. *)
Definition disk_read {D} `{DiskDriver D} (d d' : D) : Prop :=
  (d' = d ∨ ∃ pid b b', b_dirty b = false ∧ iderw pid b d = Ok (b', d')) ∧ ∀ n, dblk d' n = dblk d n.

Lemma disk_read_log {D} `{DiskTrace D} (d d' : D) : disk_read d d' → dlog d' = dlog d.
Proof. intros [[-> | (pid & b & b' & Hb & E)] _]; [done |]. by eapply dlog_read. Qed.

Record traced (D : Type) : Type := Traced {
  tr_disk : D;
  tr_log : list (Z * list Z);
}.
Arguments Traced {D} _ _.
Arguments tr_disk {D} _.
Arguments tr_log {D} _.

Section Traced.
Context {D : Type} `{DiskDriver D}.

Definition traced_iderw (pid : Z) (b : buf) : M (traced D) buf := λ d,
  match iderw pid b (tr_disk d) with
  | Ok (b', d') =>
    Ok (b', Traced d' (if b_dirty b then (b_blockno b, b_data b) :: tr_log d else tr_log d))
  | Err e => Err e
  end.

#[export] Instance traced_driver : DiskDriver (traced D) := {
  iderw := traced_iderw;
  dblk := λ d, dblk (tr_disk d);
  dwf := λ d, dwf (tr_disk d);
}.

#[export] Instance traced_laws `{!DiskLaws D} : DiskLaws (traced D).
Proof.
  constructor; simpl.
  - intros d pid b x Hwf Hh Hv Hd Hdev Hx. unfold traced_iderw.
    destruct (iderw_read (tr_disk d) pid b x) as (d' & E & Hw & Hb); try done.
    rewrite E, Hd. by eexists.
  - intros d pid b x Hwf Hh Hd Hdev Hx Hl. unfold traced_iderw.
    destruct (iderw_write (tr_disk d) pid b x) as (d' & E & Hw & Hb); try done.
    rewrite E, Hd. eexists. split_and!; [done | done |]. done.
  - intros d n x Hwf Hx. by eapply dblk_length.
  - intros d n Hn. by apply dblk_neg.
Qed.

#[export] Instance traced_trace : DiskTrace (traced D).
Proof.
  exists tr_log; intros pid b d b' d'; simpl; unfold traced_iderw;
    (destruct (iderw pid b (tr_disk d)) as [[c e]|]; [|done]); by intros [= <- <-] ->.
Defined.
End Traced.
