(* ===== verification/Bio.v ===== *)
(** * The buffer cache ([bio.c])

    The cache's linked list is the list [bs_lru] of buffer indices, most
    recently used first.  [lview] is the disk as seen through the cache: the
    data of the valid buffer of a block, or the block on disk.  Taking and
    giving back buffers does not change it. *)

From S2P Require Import Prelude Mmu Bytes Disk.

Record bst (D : Type) : Type := Bst {
  bs_disk : D;
  bs_bufs : list buf;
  bs_lru : list nat;
  bs_pid : Z;
}.
Arguments Bst {D} _ _ _ _.
Arguments bs_disk {D} _.
Arguments bs_bufs {D} _.
Arguments bs_lru {D} _.
Arguments bs_pid {D} _.

Section Bio.
Context {D : Type} `{DiskDriver D}.
Implicit Types s : bst D.

Definition set_bufs (l : list buf) (s : bst D) : bst D := Bst (bs_disk s) l (bs_lru s) (bs_pid s).
Definition set_lru (l : list nat) (s : bst D) : bst D := Bst (bs_disk s) (bs_bufs s) l (bs_pid s).
Definition set_disk (d : D) (s : bst D) : bst D := Bst d (bs_bufs s) (bs_lru s) (bs_pid s).

Definition buf_get (i : nat) : M (bst D) buf := λ s,
  match bs_bufs s !! i with Some b => Ok (b, s) | None => Err EUndef end.
Definition buf_upd (i : nat) (f : buf → buf) : M (bst D) unit :=
  b ← buf_get i; modify (λ s, set_bufs (<[i := f b]> (bs_bufs s)) s).

(** Each buffer is put in front of the list. *)
Fixpoint binit_loop (n i : nat) (s : bst D) : bst D :=
  match n with
  | O => s
  | S n => binit_loop n (S i)
      (set_lru (i :: bs_lru s) (set_bufs (alter (set_lock initsleeplock) i (bs_bufs s)) s))
  end.
Definition binit : M (bst D) unit := modify (λ s, binit_loop (length (bs_bufs s)) 0 (set_lru [] s)).

Definition is_block (dev blockno : Z) (b : buf) : bool := (b_dev b =? dev) && (b_blockno b =? blockno).
Definition is_free (b : buf) : bool := (b_refcnt b =? 0) && negb (b_dirty b).

(** The first buffer of the list with the property [p]. *)
Fixpoint scan (p : buf → bool) (l : list nat) : M (bst D) (option nat) :=
  match l with
  | [] => mret None
  | i :: l => b ← buf_get i; if p b then mret (Some i) else scan p l
  end.

Definition lock_buf (i : nat) : M (bst D) unit :=
  pid ← gets bs_pid;
  b ← buf_get i;
  match acquiresleep pid (b_lock b) with
  | Ok (_, lk) => buf_upd i (set_lock lk)
  | Err e => raise e
  end.

Definition bget (dev blockno : Z) : M (bst D) nat :=
  lru ← gets bs_lru;
  r ← scan (is_block dev blockno) lru;
  match r with
  | Some i => buf_upd i (λ b, set_refcnt (b_refcnt b + 1) b);; lock_buf i;; mret i
  | None =>
    r ← scan is_free (reverse lru);
    match r with
    | Some i => buf_upd i (λ b, Buf false false dev blockno (b_lock b) 1 (b_data b));; lock_buf i;; mret i
    | None => panic "bget: no buffers"
    end
  end.

(** [iderw] on buffer [i]. *)
Definition sync (i : nat) : M (bst D) unit := λ s,
  match bs_bufs s !! i with
  | None => Err EUndef
  | Some b =>
    match iderw (bs_pid s) b (bs_disk s) with
    | Ok (b', d) => Ok (tt, set_disk d (set_bufs (<[i := b']> (bs_bufs s)) s))
    | Err e => Err e
    end
  end.

Definition bread (dev blockno : Z) : M (bst D) nat :=
  i ← bget dev blockno;
  b ← buf_get i;
  (if b_valid b then mret tt else sync i);;
  mret i.

Definition bwrite (i : nat) : M (bst D) unit :=
  pid ← gets bs_pid;
  b ← buf_get i;
  if negb (holdingsleep pid (b_lock b)) then panic "bwrite" else
  buf_upd i (λ b, set_flags (b_valid b) true b);;
  sync i.

Definition brelse (i : nat) : M (bst D) unit :=
  pid ← gets bs_pid;
  b ← buf_get i;
  if negb (holdingsleep pid (b_lock b)) then panic "brelse" else
  buf_upd i (set_lock (Sleeplock false 0));;
  buf_upd i (λ b, set_refcnt (b_refcnt b - 1) b);;
  b ← buf_get i;
  if b_refcnt b =? 0 then
    modify (λ s, set_lru (i :: filter (λ j, j ≠ i) (bs_lru s)) s)
  else mret tt.

(** Reading and changing [b->data]. *)
Definition bdata (i : nat) : M (bst D) (list Z) := b ← buf_get i; mret (b_data b).
Definition bmodify (i : nat) (f : list Z → list Z) : M (bst D) unit :=
  buf_upd i (λ b, set_data (f (b_data b)) b).

(** ** Abstract view *)

(** The buffer of block [n] of disk 1. *)
Definition bufof (s : bst D) (n : Z) : option buf := snd <$> list_find (λ b, is_block 1 n b = true) (bs_bufs s).

(** The disk through the cache. *)
Definition lview (s : bst D) (n : Z) : option (list Z) :=
  match bufof s n with
  | Some b => if b_valid b then Some (b_data b) else dblk (bs_disk s) n
  | None => dblk (bs_disk s) n
  end.

(** Is the block modified and not written yet, and is it locked? *)
Definition dirtyv (s : bst D) (n : Z) : bool := from_option b_dirty false (bufof s n).
Definition lockedv (s : bst D) (n : Z) : bool := from_option (sl_locked ∘ b_lock) false (bufof s n).

Definition is_locked (b : buf) : bool := sl_locked (b_lock b).

(** A buffer that may be recycled now, or when its holder gives it back. *)
Definition is_spare (b : buf) : bool :=
  negb (b_dirty b) && (b_refcnt b =? if is_locked b then 1 else 0).

Definition cnt (p : buf → bool) (l : list buf) : nat := length (filter (λ b, p b = true) l).
Definition nlocked (s : bst D) : nat := cnt is_locked (bs_bufs s).
Definition nspare (s : bst D) : nat := cnt is_spare (bs_bufs s).

Record bc_inv (s : bst D) : Prop := BcInv {
  bi_wf : dwf (bs_disk s);
  bi_lru i : i ∈ bs_lru s ↔ (i < length (bs_bufs s))%nat;
  bi_uniq i j b b' : bs_bufs s !! i = Some b → bs_bufs s !! j = Some b' →
    b_dev b = 1 → b_dev b' = 1 → b_blockno b = b_blockno b' → i = j;
  bi_len i b : bs_bufs s !! i = Some b → length (b_data b) = bsize;
  bi_ref i b : bs_bufs s !! i = Some b → 0 ≤ b_refcnt b ∧ (b_refcnt b = 0 → is_locked b = false);
  bi_dirty i b : bs_bufs s !! i = Some b → b_dirty b = true → b_valid b = true;
  bi_dev i b : bs_bufs s !! i = Some b → b_valid b = true → b_dev b = 1;
  bi_disk i b : bs_bufs s !! i = Some b → b_valid b = true → is_Some (dblk (bs_disk s) (b_blockno b));
  bi_clean i b : bs_bufs s !! i = Some b → b_valid b = true → b_dirty b = false →
    is_locked b = false → dblk (bs_disk s) (b_blockno b) = Some (b_data b);
}.

Context `{!DiskLaws D}.

Lemma is_block_true dev n b : is_block dev n b = true ↔ b_dev b = dev ∧ b_blockno b = n.
Proof. unfold is_block. by rewrite andb_true_iff, !Z.eqb_eq. Qed.

Lemma bufof_Some s i b n :
  bc_inv s → bs_bufs s !! i = Some b → is_block 1 n b = true → bufof s n = Some b.
Proof.
  intros Hi Hb Hh. unfold bufof. destruct (list_find _ (bs_bufs s)) as [[j b']|] eqn:E; simpl.
  - apply list_find_Some in E as (Hj & Hh' & _). apply is_block_true in Hh as [Hd Hn], Hh' as [Hd' Hn'].
    assert (i = j) as <- by (eapply (bi_uniq s); try done; congruence). congruence.
  - apply list_find_None in E. rewrite list.Forall_forall in E. destruct (E b); [|done].
    apply list_elem_of_lookup. eauto.
Qed.

Lemma bufof_inv s n b : bufof s n = Some b → ∃ i, bs_bufs s !! i = Some b ∧ is_block 1 n b = true.
Proof.
  unfold bufof. destruct (list_find _ (bs_bufs s)) as [[j b']|] eqn:E; [|done]. simpl. intros [= ->].
  apply list_find_Some in E as (Hj & Hh' & _). eauto.
Qed.

Lemma bufof_None s n i b : bufof s n = None → bs_bufs s !! i = Some b → is_block 1 n b = false.
Proof.
  intros E Hb. destruct (is_block 1 n b) eqn:Hh; [|done]. unfold bufof in E. apply fmap_None in E.
  apply list_find_None in E. rewrite list.Forall_forall in E. destruct (E b); [|done].
  apply list_elem_of_lookup. eauto.
Qed.

(** The buffer of a block after a change of buffer [i]. *)
Lemma bufof_upd s i b b' n :
  bc_inv s → bc_inv (set_bufs (<[i := b']> (bs_bufs s)) s) → bs_bufs s !! i = Some b →
  bufof (set_bufs (<[i := b']> (bs_bufs s)) s) n =
    if is_block 1 n b' then Some b' else if is_block 1 n b then None else bufof s n.
Proof.
  intros Hi Hi' Hb. pose proof (lookup_lt_Some _ _ _ Hb) as Hlt. set (s' := set_bufs _ s) in *.
  assert (bs_bufs s' !! i = Some b') as Hb' by (by apply list_lookup_insert_eq).
  destruct (is_block 1 n b') eqn:E; [by eapply bufof_Some |].
  destruct (bufof s' n) as [c|] eqn:Ec.
  - apply bufof_inv in Ec as (j & Hj & Hc). destruct (decide (j = i)) as [->|Hne]; [congruence |].
    assert (bs_bufs s !! j = Some c) as Hj0 by (unfold s' in Hj; simpl in Hj; by rewrite list_lookup_insert_ne in Hj).
    destruct (is_block 1 n b) eqn:Eb; [|symmetry; by eapply bufof_Some].
    apply is_block_true in Hc as [? ?], Eb as [? ?]. destruct Hne. eapply (bi_uniq s); try done. congruence.
  - destruct (is_block 1 n b) eqn:Eb; [done |]. destruct (bufof s n) as [c|] eqn:Ec0; [|done].
    apply bufof_inv in Ec0 as (j & Hj & Hc). destruct (decide (j = i)) as [->|Hne]; [congruence |].
    rewrite (bufof_None s' n j c) in Hc; [done | done |]. unfold s'. simpl. by rewrite list_lookup_insert_ne.
Qed.

Lemma dblk_on_disk s n x : bc_inv s → lview s n = Some x → is_Some (dblk (bs_disk s) n) ∧ length x = bsize.
Proof.
  intros Hi. unfold lview. assert (∀ x, dblk (bs_disk s) n = Some x → is_Some (dblk (bs_disk s) n) ∧ length x = bsize) as Hd.
  { intros y Hy. split; [eauto |]. eapply dblk_length; [apply Hi | done]. }
  destruct (bufof s n) as [b|] eqn:E; [|apply Hd]. apply bufof_inv in E as (i & Hb & [_ Hn]%is_block_true).
  destruct (b_valid b) eqn:Hv; [|apply Hd]. intros [= <-].
  split; [rewrite <- Hn; by eapply (bi_disk s) | by eapply (bi_len s)].
Qed.

(** ** Updates *)

Lemma cnt_insert p (l : list buf) i b b' :
  l !! i = Some b → (cnt p (<[i := b']> l) + (if p b then 1 else 0) = cnt p l + (if p b' then 1 else 0))%nat.
Proof.
  revert i. induction l as [|c l IH]; intros [|i] Hb; simplify_eq/=; unfold cnt; rewrite !filter_cons.
  - destruct (p b) eqn:E1, (p b') eqn:E2; repeat case_decide; simpl; congruence || lia.
  - specialize (IH i Hb). unfold cnt in IH. case_decide; simpl; lia.
Qed.

Lemma cnt_pos p (l : list buf) : (0 < cnt p l)%nat → ∃ i b, l !! i = Some b ∧ p b = true.
Proof.
  unfold cnt. destruct (filter _ l) as [|b k] eqn:E; [simpl; lia |]. intros _.
  assert (b ∈ filter (λ b, p b = true) l) as [Hp Hb]%list_elem_of_filter by (rewrite E; by left).
  apply list_elem_of_lookup in Hb as [i Hi]. eauto.
Qed.

Lemma cnt_sub (p q r : buf → bool) l :
  (∀ b, b ∈ l → p b = true → q b = true ∨ r b = true) → (cnt p l ≤ cnt q l + cnt r l)%nat.
Proof.
  induction l as [|b l IH]; intros H0; [done |].
  assert (cnt p l ≤ cnt q l + cnt r l)%nat as IH' by (apply IH; intros c Hc; apply H0; by right).
  specialize (H0 b ltac:(by left)). unfold cnt in *. rewrite !filter_cons.
  destruct (p b), (q b), (r b); repeat case_decide; simpl; try lia; naive_solver.
Qed.

(** More spare buffers than locked ones: one can be recycled. *)
Lemma spare_free s : bc_inv s → (nlocked s < nspare s)%nat → ∃ i b, bs_bufs s !! i = Some b ∧ is_free b = true.
Proof.
  intros Hi Hlt. apply cnt_pos. pose proof (cnt_sub is_spare is_locked is_free (bs_bufs s)) as H0.
  unfold nlocked, nspare in Hlt. assert (0 < cnt is_free (bs_bufs s))%nat; [|done].
  enough (cnt is_spare (bs_bufs s) ≤ cnt is_locked (bs_bufs s) + cnt is_free (bs_bufs s))%nat by lia.
  apply H0. intros b _. unfold is_spare, is_free. destruct (is_locked b); [by left |].
  intros [? ?]%andb_true_iff. right. by apply andb_true_iff.
Qed.

Lemma buf_upd_ok i f s b :
  bs_bufs s !! i = Some b → buf_upd i f s = Ok (tt, set_bufs (<[i := f b]> (bs_bufs s)) s).
Proof. intros Hb. unfold buf_upd. by erewrite bind_ok by (unfold buf_get; by rewrite Hb). Qed.

(** Changing one buffer: what has to be checked. *)
Lemma bc_inv_upd s i b b' :
  bc_inv s → bs_bufs s !! i = Some b → length (b_data b') = bsize →
  0 ≤ b_refcnt b' → (b_refcnt b' = 0 → is_locked b' = false) →
  (b_dev b' = 1 → ∀ j c, j ≠ i → bs_bufs s !! j = Some c → b_dev c = 1 → b_blockno c ≠ b_blockno b') →
  (b_dirty b' = true → b_valid b' = true) →
  (b_valid b' = true → b_dev b' = 1 ∧ is_Some (dblk (bs_disk s) (b_blockno b'))) →
  (b_valid b' = true → b_dirty b' = false → is_locked b' = false →
     dblk (bs_disk s) (b_blockno b') = Some (b_data b')) →
  bc_inv (set_bufs (<[i := b']> (bs_bufs s)) s).
Proof.
  intros Hi Hb Hl H0 Hlk Hu Hdv Hv Hc. pose proof (lookup_lt_Some _ _ _ Hb) as Hlt.
  assert (∀ j c, <[i := b']> (bs_bufs s) !! j = Some c → (j = i ∧ c = b') ∨ (j ≠ i ∧ bs_bufs s !! j = Some c)) as Hlook.
  { intros j c Hj. destruct (decide (j = i)) as [->|Hne].
    - left. rewrite list_lookup_insert_eq in Hj by done. by simplify_eq.
    - right. by rewrite list_lookup_insert_ne in Hj. }
  destruct Hi as [I1 I2 I3 I4 I5 I6 I7 I8 I9]. constructor; simpl.
  - done.
  - intros j. by rewrite length_insert.
  - intros j k c c' Hj Hk Hd Hd' Hn.
    apply Hlook in Hj as [[-> ->]|[Hj1 Hj]], Hk as [[-> ->]|[Hk1 Hk]]; try done.
    + by destruct (Hu Hd k c' Hk1 Hk Hd').
    + by destruct (Hu Hd' j c Hj1 Hj Hd).
    + by eapply (I3 j k).
  - intros j c Hj. apply Hlook in Hj as [[-> ->]|[_ Hj]]; eauto.
  - intros j c Hj. apply Hlook in Hj as [[-> ->]|[_ Hj]]; eauto.
  - intros j c Hj. apply Hlook in Hj as [[-> ->]|[_ Hj]]; eauto.
  - intros j c Hj. apply Hlook in Hj as [[-> ->]|[_ Hj]]; [intros; by apply Hv | eauto].
  - intros j c Hj. apply Hlook in Hj as [[-> ->]|[_ Hj]]; [intros; by apply Hv | eauto].
  - intros j c Hj. apply Hlook in Hj as [[-> ->]|[_ Hj]]; eauto.
Qed.

(** ** Operations on a buffer the caller holds *)

(** Buffer [i] holds block [n] with contents [x] and dirty flag [d], locked by
    the caller. *)
Definition holds (s : bst D) (i : nat) (n : Z) (x : list Z) (d : bool) : Prop :=
  ∃ b, bs_bufs s !! i = Some b ∧ b_valid b = true ∧ b_dev b = 1 ∧ b_blockno b = n ∧ b_data b = x ∧
    b_dirty b = d ∧ b_lock b = Sleeplock true (bs_pid s) ∧ 1 ≤ b_refcnt b.

(** The step leaves the other buffers alone, and changes the views at block
    [n] to the given values. *)
Record bstep (s s' : bst D) (i : nat) (n : Z) (x dk : option (list Z)) (d l : bool) : Prop := Bstep {
  w_inv : bc_inv s';
  w_pid : bs_pid s' = bs_pid s;
  w_other j : j ≠ i → bs_bufs s' !! j = bs_bufs s !! j;
  w_lview m : lview s' m = if m =? n then x else lview s m;
  w_dblk m : dblk (bs_disk s') m = if m =? n then dk else dblk (bs_disk s) m;
  w_dirty m : dirtyv s' m = if m =? n then d else dirtyv s m;
  w_lock m : lockedv s' m = if m =? n then l else lockedv s m;
}.

Lemma holds_other s s' i j m n x dk d l y d' :
  bstep s s' i n x dk d l → j ≠ i → holds s j m y d' → holds s' j m y d'.
Proof.
  intros [_ Hp Ho _ _ _ _] Hne (b & Hb & H0). exists b. rewrite Ho, Hp by done. done.
Qed.

Lemma holds_view s i n x d :
  bc_inv s → holds s i n x d →
  ∃ b, bs_bufs s !! i = Some b ∧ bufof s n = Some b ∧ is_block 1 n b = true ∧ b_valid b = true ∧ b_data b = x ∧
    b_dirty b = d ∧ is_locked b = true ∧ b_lock b = Sleeplock true (bs_pid s) ∧ 1 ≤ b_refcnt b ∧
    lview s n = Some x ∧ dirtyv s n = d ∧ lockedv s n = true ∧ is_Some (dblk (bs_disk s) n).
Proof.
  intros Hi (b & Hb & Hv & Hd & Hn & Hx & Hdt & Hl & Hr). exists b.
  assert (is_block 1 n b = true) as Hblk by (by apply is_block_true).
  assert (bufof s n = Some b) as Hbo by (by eapply bufof_Some).
  assert (is_locked b = true) as Hlk by (unfold is_locked; by rewrite Hl).
  unfold lview, dirtyv, lockedv. rewrite Hbo, Hv. simpl. unfold is_locked in Hlk.
  split_and!; try done; [congruence |]. rewrite <- Hn. by eapply (bi_disk s).
Qed.

(** The views after replacing the buffer of block [n] by one of the same
    block. *)
Lemma views_upd s i n b b' :
  bc_inv s → bc_inv (set_bufs (<[i := b']> (bs_bufs s)) s) → bs_bufs s !! i = Some b →
  is_block 1 n b = true → is_block 1 n b' = true → b_valid b' = true →
  bstep s (set_bufs (<[i := b']> (bs_bufs s)) s) i n (Some (b_data b')) (dblk (bs_disk s) n) (b_dirty b') (is_locked b').
Proof.
  intros Hi Hi' Hb Hbn Hbn' Hv. pose proof (bufof_upd s i b b') as Hbo.
  assert (∀ m, bufof (set_bufs (<[i := b']> (bs_bufs s)) s) m = if m =? n then Some b' else bufof s m) as Hbm.
  { intros m. rewrite Hbo by done. apply is_block_true in Hbn as [Hd Hn], Hbn' as [Hd' Hn'].
    unfold is_block. rewrite Hd, Hd', Hn, Hn'. simpl. rewrite (Z.eqb_sym n m). by destruct (m =? n). }
  constructor; simpl; try done.
  - intros j Hne. by apply list_lookup_insert_ne.
  - intros m. unfold lview. rewrite Hbm. destruct (Z.eqb_spec m n) as [->|]; [by rewrite Hv | done].
  - intros m. by destruct (Z.eqb_spec m n) as [->|].
  - intros m. unfold dirtyv. rewrite Hbm. by destruct (m =? n).
  - intros m. unfold lockedv. rewrite Hbm. by destruct (m =? n).
Qed.

(** Changing the data of a held buffer changes the view. *)
Lemma bmodify_spec s i n x d f :
  bc_inv s → holds s i n x d → length (f x) = bsize →
  wp (bmodify i f) s (λ _ s', bstep s s' i n (Some (f x)) (dblk (bs_disk s) n) d true ∧ holds s' i n (f x) d ∧
    nlocked s' = nlocked s ∧ nspare s' = nspare s ∧ bs_disk s' = bs_disk s).
Proof.
  intros Hi Hh Hl. destruct (holds_view s i n x d Hi Hh) as
    (b & Hb & Hbo & Hblk & Hv & Hx & Hd & Hlk & Hlock & Hr & _ & _ & _ & Hdisk).
  pose proof Hblk as [Hdev Hn]%is_block_true. pose proof (lookup_lt_Some _ _ _ Hb) as Hlt.
  eapply wp_intro; [by apply buf_upd_ok |]. set (b' := set_data (f (b_data b)) b).
  assert (bc_inv (set_bufs (<[i := b']> (bs_bufs s)) s)) as Hi'.
  { eapply bc_inv_upd; try done; simpl; try (by rewrite ?Hx, ?Hn); try lia.
    - intros _ j c Hne Hc Hdc Hnc. destruct Hne. eapply (bi_uniq s); try done; congruence.
    - unfold is_locked in *. simpl. by rewrite Hlk. }
  split_and!.
  - rewrite <- Hx, <- Hd. rewrite <- Hlk. by apply (views_upd s i n b b').
  - exists b'. unfold b'. simpl. rewrite Hx. split_and!; try done. by apply list_lookup_insert_eq.
  - unfold nlocked. simpl. pose proof (cnt_insert is_locked (bs_bufs s) i b b' Hb) as E.
    change (is_locked b') with (is_locked b) in E. lia.
  - unfold nspare. simpl. pose proof (cnt_insert is_spare (bs_bufs s) i b b' Hb) as E.
    change (is_spare b') with (is_spare b) in E. lia.
  - done.
Qed.

(** A new contents [x] of block [n] on disk, with a clean buffer [b'] of it. *)
Lemma bc_inv_write s i n b b' dk :
  bc_inv s → bs_bufs s !! i = Some b → is_block 1 n b = true → is_block 1 n b' = true →
  length (b_data b') = bsize → 1 ≤ b_refcnt b' → b_valid b' = true → dwf dk →
  (∀ m, dblk dk m = if m =? n then Some (b_data b') else dblk (bs_disk s) m) →
  bc_inv (set_disk dk (set_bufs (<[i := b']> (bs_bufs s)) s)).
Proof.
  intros Hi Hb Hbn Hbn' Hl Hr Hv Hwf Hdk. pose proof (lookup_lt_Some _ _ _ Hb) as Hlt.
  apply is_block_true in Hbn as [Hd Hn], Hbn' as [Hd' Hn'].
  assert (∀ j c, <[i := b']> (bs_bufs s) !! j = Some c → (j = i ∧ c = b') ∨ (j ≠ i ∧ bs_bufs s !! j = Some c)) as Hlook.
  { intros j c Hj. destruct (decide (j = i)) as [->|Hne].
    - left. rewrite list_lookup_insert_eq in Hj by done. by simplify_eq.
    - right. by rewrite list_lookup_insert_ne in Hj. }
  destruct Hi as [I1 I2 I3 I4 I5 I6 I7 I8 I9].
  assert (∀ j c, j ≠ i → bs_bufs s !! j = Some c → b_dev c = 1 → b_blockno c ≠ n) as Huniq.
  { intros j c Hne Hc Hdc Hnc. destruct Hne. eapply (I3 j i); try done; congruence. }
  constructor; simpl; try done.
  - intros j. by rewrite length_insert.
  - intros j k c c' Hj Hk Hdc Hdc' Hnn.
    apply Hlook in Hj as [[-> ->]|[Hj1 Hj]], Hk as [[-> ->]|[Hk1 Hk]]; try done.
    + destruct (Huniq k c'); congruence.
    + destruct (Huniq j c); congruence.
    + by eapply (I3 j k).
  - intros j c Hj. apply Hlook in Hj as [[-> ->]|[_ Hj]]; eauto.
  - intros j c Hj. apply Hlook in Hj as [[-> ->]|[_ Hj]]; [lia | eauto].
  - intros j c Hj. apply Hlook in Hj as [[-> ->]|[_ Hj]]; eauto.
  - intros j c Hj. apply Hlook in Hj as [[-> ->]|[_ Hj]]; eauto.
  - intros j c Hj Hvc. rewrite Hdk. case_match; [done |]. apply Hlook in Hj as [[-> ->]|[_ Hj]]; [|eauto].
    apply Z.eqb_neq in H0. congruence.
  - intros j c Hj Hvc Hdc Hlc. rewrite Hdk. apply Hlook in Hj as [[-> ->]|[Hne Hj]].
    + by rewrite Hn', Z.eqb_refl.
    + destruct (Z.eqb_spec (b_blockno c) n); [|eauto]. destruct (Huniq j c); eauto.
Qed.

(** [bwrite] puts the buffer's contents on disk. *)
Lemma bwrite_spec s i n x d :
  bc_inv s → holds s i n x d →
  wp (bwrite i) s (λ _ s', bstep s s' i n (Some x) (Some x) false true ∧ holds s' i n x false ∧
    nlocked s' = nlocked s ∧ (nspare s ≤ nspare s')%nat).
Proof.
  intros Hi Hh. destruct (holds_view s i n x d Hi Hh) as
    (b & Hb & Hbo & Hblk & Hv & Hx & Hd & Hlk & Hlock & Hr & Hlv & _ & _ & [y Hdisk]).
  pose proof Hblk as [Hdev Hn]%is_block_true. pose proof (lookup_lt_Some _ _ _ Hb) as Hlt.
  pose proof (bi_len s Hi i b Hb) as Hlen.
  destruct (iderw_write (bs_disk s) (bs_pid s) (set_flags (b_valid b) true b) y) as (dk & E & Hwf & Hdk);
    try done; simpl; try (by rewrite ?Hn); [apply Hi | unfold holdingsleep; rewrite Hlock; apply Z.eqb_refl |].
  simpl in E, Hdk. rewrite Hn in Hdk. set (b' := set_flags true false b).
  change (set_flags true false (set_flags (b_valid b) true b)) with b' in E.
  set (s' := set_disk dk (set_bufs (<[i := b']> (bs_bufs s)) s)).
  assert (bwrite i s = Ok (tt, s')) as Ew.
  { unfold bwrite. erewrite bind_ok by reflexivity. erewrite bind_ok by (unfold buf_get; by rewrite Hb).
    unfold holdingsleep. rewrite Hlock. simpl. rewrite Z.eqb_refl. simpl.
    erewrite bind_ok by (by apply buf_upd_ok). unfold sync. simpl. rewrite list_lookup_insert_eq by done.
    rewrite E. unfold s', set_disk, set_bufs. simpl. by rewrite list_insert_insert_eq. }
  assert (bc_inv s') as Hi' by (eapply bc_inv_write; eauto).
  assert (bc_inv (set_bufs (<[i := b']> (bs_bufs s')) s')) as Hi''.
  { unfold s'. unfold set_disk, set_bufs. simpl. rewrite list_insert_insert_eq. done. }
  assert (bs_bufs s' !! i = Some b') as Hb' by (by apply list_lookup_insert_eq).
  assert (∀ m, m ≠ n → bufof s' m = bufof s m) as Hbm.
  { intros m Hne. destruct (bufof s' m) as [c|] eqn:Ec.
    - apply bufof_inv in Ec as (j & Hj & Hc). destruct (decide (j = i)) as [->|Hji].
      + simplify_eq. apply is_block_true in Hc as [_ Hc]. simpl in Hc. congruence.
      + symmetry. eapply bufof_Some; [done | | done]. unfold s' in Hj. simpl in Hj. by rewrite list_lookup_insert_ne in Hj.
    - destruct (bufof s m) as [c|] eqn:Ec0; [|done]. apply bufof_inv in Ec0 as (j & Hj & Hc).
      destruct (decide (j = i)) as [->|Hji].
      + simplify_eq. apply is_block_true in Hc as [_ Hc]. congruence.
      + rewrite (bufof_None s' m j c) in Hc; [done | done |]. unfold s'. simpl. by rewrite list_lookup_insert_ne. }
  assert (bufof s' n = Some b') as Hbn by (eapply bufof_Some; [done | done |]; by apply is_block_true).
  eapply wp_intro; [exact Ew |]. split_and!.
  - constructor; try done.
    + intros j Hne. simpl. by apply list_lookup_insert_ne.
    + intros m. unfold lview. destruct (Z.eqb_spec m n) as [->|Hne]; [rewrite Hbn; simpl; by rewrite Hx |].
      rewrite Hbm by done. simpl. rewrite Hdk. by destruct (Z.eqb_spec m n).
    + intros m. simpl. rewrite Hdk. by rewrite Hx.
    + intros m. unfold dirtyv. destruct (Z.eqb_spec m n) as [->|Hne]; [by rewrite Hbn | by rewrite Hbm].
    + intros m. unfold lockedv. destruct (Z.eqb_spec m n) as [->|Hne]; [by rewrite Hbn | by rewrite Hbm].
  - exists b'. by split_and!.
  - unfold nlocked. simpl. pose proof (cnt_insert is_locked (bs_bufs s) i b b' Hb) as Ec.
    change (is_locked b') with (is_locked b) in Ec. lia.
  - unfold nspare. simpl. pose proof (cnt_insert is_spare (bs_bufs s) i b b' Hb) as Ec. revert Ec.
    unfold is_spare. change (is_locked b') with (is_locked b). simpl.
    destruct (b_dirty b); simpl; destruct (_ =? _); lia.
Qed.

(** ** [brelse] *)

(** The order of the list does not show. *)
Lemma bstep_lru s s' i n x dk d l k :
  (∀ j, j ∈ k ↔ j ∈ bs_lru s') → bstep s s' i n x dk d l → bstep s (set_lru k s') i n x dk d l.
Proof.
  intros Hk [[I1 I2 I3 I4 I5 I6 I7 I8 I9] W2 W3 W4 W5 W6 W7]. constructor; try done.
  constructor; try done. intros j. simpl. by rewrite Hk.
Qed.

Lemma brelse_spec s i n x d :
  bc_inv s → holds s i n x d → d = true ∨ dblk (bs_disk s) n = Some x →
  wp (brelse i) s (λ _ s', bstep s s' i n (Some x) (dblk (bs_disk s) n) d false ∧
    nlocked s = S (nlocked s') ∧ nspare s' = nspare s ∧ bs_disk s' = bs_disk s).
Proof.
  intros Hi Hh Hdx. destruct (holds_view s i n x d Hi Hh) as
    (b & Hb & Hbo & Hblk & Hv & Hx & Hd & Hlk & Hlock & Hr & Hlv & _ & _ & Hdisk).
  pose proof Hblk as [Hdev Hn]%is_block_true. pose proof (lookup_lt_Some _ _ _ Hb) as Hlt.
  set (b' := set_refcnt (b_refcnt b - 1) (set_lock (Sleeplock false 0) b)).
  set (s1 := set_bufs (<[i := b']> (bs_bufs s)) s).
  assert (bs_bufs s1 !! i = Some b') as Hb1 by (by apply list_lookup_insert_eq).
  assert (bc_inv s1) as Hi1.
  { eapply bc_inv_upd; try done; simpl; try (by rewrite ?Hx, ?Hn); try lia.
    - by eapply (bi_len s).
    - intros _ j c Hne Hc Hdc Hnc. destruct Hne. eapply (bi_uniq s); try done; congruence.
    - intros _ Hdf _. rewrite Hn, Hx. destruct Hdx as [->|]; [congruence | done]. }
  assert (bstep s s1 i n (Some x) (dblk (bs_disk s) n) d false) as Hs1.
  { rewrite <- Hx, <- Hd. by apply (views_upd s i n b b'). }
  assert (nlocked s = S (nlocked s1) ∧ nspare s1 = nspare s) as [Hnl Hns].
  { unfold nlocked, nspare, s1. simpl. pose proof (cnt_insert is_locked (bs_bufs s) i b b' Hb) as E1.
    pose proof (cnt_insert is_spare (bs_bufs s) i b b' Hb) as E2. rewrite Hlk in E1.
    change (is_locked b') with false in E1. cbv iota in E1. split; [lia |]. revert E2. unfold is_spare.
    change (is_locked b') with false. rewrite Hlk. simpl.
    destruct (b_dirty b); simpl; destruct (Z.eqb_spec (b_refcnt b) 1), (Z.eqb_spec (b_refcnt b - 1) 0); lia. }
  unfold brelse. apply wp_bind, wp_gets, wp_bind. eapply wp_intro; [unfold buf_get; by rewrite Hb |].
  unfold holdingsleep. rewrite Hlock. simpl. rewrite Z.eqb_refl. simpl.
  apply wp_bind. eapply wp_intro; [by apply buf_upd_ok |]. apply wp_bind. eapply wp_intro.
  { apply buf_upd_ok. simpl. by apply list_lookup_insert_eq. }
  simpl. unfold set_bufs. simpl. rewrite list_insert_insert_eq.
  change (Bst _ _ _ _) with s1. apply wp_bind. eapply wp_intro; [unfold buf_get; by rewrite Hb1 |].
  destruct (b_refcnt b' =? 0); [apply wp_modify | by apply wp_ret].
  split_and!; try done. apply bstep_lru; [|done]. intros j. rewrite elem_of_cons, list_elem_of_filter.
  split; [|destruct (decide (j = i)); auto]. intros [->|[_ ?]]; [|done]. by apply Hi.
Qed.

(** ** [bread] *)

Lemma scan_spec p l s :
  (∀ i, i ∈ l → (i < length (bs_bufs s))%nat) →
  ∃ r, scan p l s = Ok (r, s) ∧
    match r with
    | Some i => i ∈ l ∧ ∃ b, bs_bufs s !! i = Some b ∧ p b = true
    | None => ∀ i b, i ∈ l → bs_bufs s !! i = Some b → p b = false
    end.
Proof.
  induction l as [|i l IH]; intros Hl; cbn [scan].
  { exists None. split; [done |]. set_solver. }
  destruct (lookup_lt_is_Some_2 (bs_bufs s) i) as [b Hb]; [apply Hl; by left |].
  erewrite bind_ok by (unfold buf_get; by rewrite Hb). destruct (p b) eqn:Hp.
  - exists (Some i). split; [done |]. split; [by left | by exists b].
  - destruct IH as (r & E & Hr); [intros j Hj; apply Hl; by right |]. exists r. split; [done |].
    destruct r as [j|]; [destruct Hr as [? ?]; split; [by right | done] |].
    intros j b' [->|Hj]%elem_of_cons Hb'; [congruence | by eapply Hr].
Qed.

Lemma lock_buf_ok s i b :
  bs_bufs s !! i = Some b → is_locked b = false →
  lock_buf i s = Ok (tt, set_bufs (<[i := set_lock (Sleeplock true (bs_pid s)) b]> (bs_bufs s)) s).
Proof.
  intros Hb Hl. unfold lock_buf. erewrite bind_ok by reflexivity.
  erewrite bind_ok by (unfold buf_get; by rewrite Hb). unfold acquiresleep, is_locked in *. rewrite Hl. by apply buf_upd_ok.
Qed.

(** The buffer [bget] returns, and what it was before: the block's, or one
    that is recycled. *)
Lemma bget_spec s n :
  bc_inv s → lockedv s n = false → bufof s n ≠ None ∨ (nlocked s < nspare s)%nat →
  ∃ i b b', bs_bufs s !! i = Some b ∧ is_locked b = false ∧
    bget 1 n s = Ok (i, set_bufs (<[i := b']> (bs_bufs s)) s) ∧
    b_lock b' = Sleeplock true (bs_pid s) ∧ is_block 1 n b' = true ∧ b_data b' = b_data b ∧
    ((bufof s n = Some b ∧ b_valid b' = b_valid b ∧ b_dirty b' = b_dirty b ∧ b_refcnt b' = b_refcnt b + 1) ∨
     (bufof s n = None ∧ is_free b = true ∧ b_valid b' = false ∧ b_dirty b' = false ∧ b_refcnt b' = 1)).
Proof.
  intros Hi Hul Hav. unfold bget. erewrite bind_ok by reflexivity.
  destruct (scan_spec (is_block 1 n) (bs_lru s) s) as (r & E & Hr); [by intros j; apply Hi |].
  erewrite bind_ok by exact E. destruct r as [i|].
  - destruct Hr as (_ & b & Hb & Hblk). pose proof (lookup_lt_Some _ _ _ Hb) as Hlt.
    pose proof (bufof_Some s i b n Hi Hb Hblk) as Hbo.
    assert (is_locked b = false) as Hlk by (unfold lockedv in Hul; by rewrite Hbo in Hul).
    erewrite bind_ok by (by apply buf_upd_ok). erewrite bind_ok.
    2:{ apply lock_buf_ok; [simpl; by apply list_lookup_insert_eq | done]. }
    simpl. rewrite list_insert_insert_eq. exists i, b. eexists. split_and!; [done | done | reflexivity | ..]; try done. by left.
  - assert (bufof s n = None) as Hnc.
    { destruct (bufof s n) as [b|] eqn:Eb; [|done]. apply bufof_inv in Eb as (i & Hb & Hblk).
      rewrite (Hr i b) in Hblk; [done | apply Hi; by eapply lookup_lt_Some | done]. }
    destruct (scan_spec is_free (reverse (bs_lru s)) s) as (r & E' & Hr').
    { intros j. rewrite elem_of_reverse. apply Hi. }
    erewrite bind_ok by exact E'. destruct r as [i|].
    + destruct Hr' as (_ & b & Hb & Hfr). pose proof (lookup_lt_Some _ _ _ Hb) as Hlt.
      pose proof Hfr as [Hrf%Z.eqb_eq _]%andb_true_iff.
      destruct (bi_ref s Hi i b Hb) as [_ Hlk]. specialize (Hlk Hrf).
      erewrite bind_ok by (by apply buf_upd_ok). erewrite bind_ok.
      2:{ apply lock_buf_ok; [simpl; by apply list_lookup_insert_eq | done]. }
      simpl. rewrite list_insert_insert_eq. exists i, b. eexists. split_and!; [done | done | reflexivity | ..]; try done.
      * apply is_block_true. done.
      * by right.
    + exfalso. destruct Hav as [|Hav]; [done |]. destruct (spare_free s Hi Hav) as (i & b & Hb & Hfr).
      rewrite (Hr' i b) in Hfr; [done | | done]. rewrite elem_of_reverse. apply Hi. by eapply lookup_lt_Some.
Qed.

(** The buffer [b] becomes [b2], which holds block [n] with the contents [x]. *)
Record fetched (s : bst D) (n : Z) (x : list Z) (b b2 : buf) : Prop := Fetched {
  ft_valid : b_valid b2 = true;
  ft_block : is_block 1 n b2 = true;
  ft_lock : b_lock b2 = Sleeplock true (bs_pid s);
  ft_data : b_data b2 = x;
  ft_ref : 1 ≤ b_refcnt b2;
  ft_dirty : b_dirty b2 = dirtyv s n;
  ft_old : (bufof s n = Some b ∧ b_dirty b2 = b_dirty b ∧ b_refcnt b2 = b_refcnt b + 1) ∨
           (bufof s n = None ∧ is_free b = true ∧ b_dirty b2 = false ∧ b_refcnt b2 = 1);
}.

(** [bread] reads the disk when the block is not in the cache. *)
Lemma bread_ok s n x :
  bc_inv s → lview s n = Some x → lockedv s n = false → bufof s n ≠ None ∨ (nlocked s < nspare s)%nat →
  ∃ i b b2 dk, bs_bufs s !! i = Some b ∧ is_locked b = false ∧ fetched s n x b b2 ∧
    bread 1 n s = Ok (i, set_disk dk (set_bufs (<[i := b2]> (bs_bufs s)) s)) ∧
    dwf dk ∧ disk_read (bs_disk s) dk.
Proof.
  intros Hi Hx Hul Hav. destruct (bget_spec s n Hi Hul Hav) as (i & b & b1 & Hb & Hlk & E & Hl1 & Hb1 & Hdat & Hcase).
  pose proof (lookup_lt_Some _ _ _ Hb) as Hlt. pose proof Hb1 as [Hd1 Hn1]%is_block_true.
  assert (1 ≤ b_refcnt b1) as Hr.
  { destruct (bi_ref s Hi i b Hb). destruct Hcase as [(_ & _ & _ & ->)|(_ & _ & _ & _ & ->)]; lia. }
  assert (b_dirty b1 = dirtyv s n) as Hdv.
  { unfold dirtyv. by destruct Hcase as [(-> & _ & -> & _)|(-> & _ & _ & -> & _)]. }
  unfold bread. erewrite bind_ok by exact E. erewrite bind_ok.
  2:{ unfold buf_get. simpl. by rewrite list_lookup_insert_eq. }
  destruct (b_valid b1) eqn:Hv.
  - exists i, b, b1, (bs_disk s). split_and!; try done; [|apply Hi | by split; [left |]].
    constructor; try done; [|naive_solver]. destruct Hcase as [(Hbo & Hv1 & _)|(_ & _ & ? & _)]; [|done].
    unfold lview in Hx. rewrite Hbo, <- Hv1, Hdat in *. congruence.
  - assert (b_dirty b1 = false ∧ dblk (bs_disk s) n = Some x) as [Hdty Hdx].
    { unfold lview in Hx. destruct Hcase as [(Hbo & Hv1 & -> & _)|(Hbo & _ & _ & -> & _)]; rewrite Hbo in Hx; [|done].
      rewrite <- Hv1 in Hx. split; [|done]. destruct (b_dirty b) eqn:Hdb; [|done].
      pose proof (bi_dirty s Hi i b Hb Hdb). congruence. }
    assert (holdingsleep (bs_pid s) (b_lock b1) = true) as Hh by (unfold holdingsleep; rewrite Hl1; apply Z.eqb_refl).
    destruct (iderw_read (bs_disk s) (bs_pid s) b1 x) as (dk & Ed & Hw & Hk); try done; [apply Hi | by rewrite Hn1 |].
    exists i, b, (set_flags true false (set_data x b1)), dk. split_and!; try done.
    + constructor; try done; simpl; [congruence | naive_solver congruence].
    + erewrite bind_ok; [reflexivity |]. unfold sync. simpl. rewrite list_lookup_insert_eq, Ed by done.
      unfold set_disk, set_bufs. simpl. by rewrite list_insert_insert_eq.
    + split; [right | done]. by exists (bs_pid s), b1, (set_flags true false (set_data x b1)).
Qed.

(** The block of a recycled buffer is as on disk. *)
Lemma fetched_old s i n x b b2 m :
  bc_inv s → bs_bufs s !! i = Some b → fetched s n x b b2 → m ≠ n → is_block 1 m b = true →
  bufof s m = Some b ∧ lview s m = dblk (bs_disk s) m ∧ b_dirty b = false.
Proof.
  intros Hi Hb Hf Hne Hbm. pose proof (bufof_Some s i b m Hi Hb Hbm) as Hbo. apply is_block_true in Hbm as [Hdb Hnb].
  destruct (ft_old _ _ _ _ _ Hf) as [(Hbo' & _)|(_ & Hfr & _)].
  { apply bufof_inv in Hbo' as (k & Hk & [_ ?]%is_block_true). congruence. }
  apply andb_true_iff in Hfr as [Hr%Z.eqb_eq Hnd%negb_true_iff]. split_and!; try done.
  unfold lview. rewrite Hbo. destruct (b_valid b) eqn:Hv; [|done]. rewrite <- Hnb. symmetry. eapply (bi_clean s); try done.
  by apply (bi_ref s Hi i b Hb).
Qed.

Lemma fetched_step s i n x b b2 :
  bc_inv s → bs_bufs s !! i = Some b → is_locked b = false → lview s n = Some x → fetched s n x b b2 →
  bstep s (set_bufs (<[i := b2]> (bs_bufs s)) s) i n (Some x) (dblk (bs_disk s) n) (dirtyv s n) true.
Proof.
  intros Hi Hb Hlk Hx Hf. destruct (dblk_on_disk s n x Hi Hx) as [Hdsk Hlx]. pose proof Hf as [Hv2 Hb2 Hl2 Hx2 Hr2 Hdv Hcase].
  pose proof Hb2 as [Hd2 Hn2]%is_block_true. set (s2 := set_bufs _ s).
  assert (is_locked b2 = true) as Hlk2 by (unfold is_locked; by rewrite Hl2).
  assert (bc_inv s2) as Hi2.
  { eapply bc_inv_upd; try done; rewrite ?Hx2, ?Hn2, ?Hl2; try done; try lia; [|by rewrite Hlk2].
    intros _ j c Hne Hc Hdc Hnc. assert (is_block 1 n c = true) as Hcb by (by apply is_block_true).
    destruct Hcase as [(Hbo & _)|(Hbo & _)]; [|by rewrite (bufof_None s n j c) in Hcb].
    apply bufof_inv in Hbo as (k & Hk & [? ?]%is_block_true). destruct Hne. eapply (bi_uniq s); try done; congruence. }
  assert (∀ m, bufof s2 m = if m =? n then Some b2 else if is_block 1 m b then None else bufof s m) as Hbm.
  { intros m. unfold s2. rewrite (bufof_upd s i b b2) by done. unfold is_block at 1. rewrite Hd2, Hn2. simpl.
    by rewrite (Z.eqb_sym n m). }
  constructor; try done.
  - intros j Hne. by apply list_lookup_insert_ne.
  - intros m. unfold lview at 1. rewrite Hbm. destruct (Z.eqb_spec m n) as [->|Hne]; [by rewrite Hv2, Hx2 |].
    destruct (is_block 1 m b) eqn:Hbm'; [|done]. by destruct (fetched_old s i n x b b2 m) as (_ & -> & _).
  - intros m. by destruct (Z.eqb_spec m n) as [->|].
  - intros m. unfold dirtyv at 1. rewrite Hbm. destruct (Z.eqb_spec m n) as [->|Hne]; [done |].
    destruct (is_block 1 m b) eqn:Hbm'; [|done]. destruct (fetched_old s i n x b b2 m) as (E & _ & Ed); try done.
    unfold dirtyv. by rewrite E.
  - intros m. unfold lockedv at 1. rewrite Hbm. destruct (Z.eqb_spec m n) as [->|Hne]; [done |].
    destruct (is_block 1 m b) eqn:Hbm'; [|done]. destruct (fetched_old s i n x b b2 m) as (E & _); try done.
    unfold lockedv. by rewrite E.
Qed.

Lemma fetched_counts s i n x b b2 :
  bs_bufs s !! i = Some b → is_locked b = false → fetched s n x b b2 →
  cnt is_locked (<[i := b2]> (bs_bufs s)) = S (nlocked s) ∧ cnt is_spare (<[i := b2]> (bs_bufs s)) = nspare s.
Proof.
  intros Hb Hlk [_ _ Hl2 _ _ _ Hcase]. assert (is_locked b2 = true) as Hlk2 by (unfold is_locked; by rewrite Hl2).
  pose proof (cnt_insert is_locked (bs_bufs s) i b b2 Hb) as E1. pose proof (cnt_insert is_spare (bs_bufs s) i b b2 Hb) as E2.
  unfold nlocked, nspare. rewrite Hlk, Hlk2 in E1. split; [lia |].
  revert E2. unfold is_spare. rewrite Hlk, Hlk2. destruct Hcase as [(_ & -> & ->)|(_ & Hfr & -> & ->)].
  - destruct (b_dirty b); simpl; destruct (Z.eqb_spec (b_refcnt b + 1) 1), (Z.eqb_spec (b_refcnt b) 0); lia.
  - apply andb_true_iff in Hfr as [Hrf Hnd%negb_true_iff]. rewrite Hrf, Hnd. simpl. lia.
Qed.

(** A read of the disk changes nothing that can be seen. *)
Lemma bstep_disk s s' i n x dk d l v :
  dwf v → (∀ m, dblk v m = dblk (bs_disk s') m) → bstep s s' i n x dk d l → bstep s (set_disk v s') i n x dk d l.
Proof.
  intros Hw Hk [[I1 I2 I3 I4 I5 I6 I7 I8 I9] W2 W3 W4 W5 W6 W7]. constructor; try done.
  - constructor; try done; simpl; intros j b Hb; rewrite Hk; eauto.
  - intros m. rewrite <- W4. unfold lview. simpl. change (bufof (set_disk v s') m) with (bufof s' m). by rewrite Hk.
  - intros m. simpl. by rewrite Hk.
Qed.

(** [bread] returns a buffer with the block's contents. *)
Lemma bread_spec s n x :
  bc_inv s → lview s n = Some x → lockedv s n = false → dirtyv s n = true ∨ (nlocked s < nspare s)%nat →
  wp (bread 1 n) s (λ i s', bstep s s' i n (Some x) (dblk (bs_disk s) n) (dirtyv s n) true ∧
    holds s' i n x (dirtyv s n) ∧ nlocked s' = S (nlocked s) ∧ nspare s' = nspare s ∧
    disk_read (bs_disk s) (bs_disk s') ∧ ∀ j m y d, holds s j m y d → j ≠ i).
Proof.
  intros Hi Hx Hul Hav. assert (bufof s n ≠ None ∨ (nlocked s < nspare s)%nat) as Hav'.
  { destruct Hav as [Hd|]; [left | by right]. intros E. unfold dirtyv in Hd. by rewrite E in Hd. }
  destruct (bread_ok s n x Hi Hx Hul Hav') as (i & b & b2 & dk & Hb & Hlk & Hf & E & Hw & Hr).
  pose proof (lookup_lt_Some _ _ _ Hb) as Hlt. destruct (fetched_counts s i n x b b2 Hb Hlk Hf).
  eapply wp_intro; [exact E |]. split_and!; try done.
  - apply bstep_disk; [done | apply Hr | by eapply fetched_step].
  - destruct Hf as [Hv2 Hb2 Hl2 Hx2 Hr2 Hdv _]. apply is_block_true in Hb2 as [? ?].
    exists b2. split_and!; try done. by apply list_lookup_insert_eq.
  - intros j m y d' (c & Hc & _ & _ & _ & _ & _ & Hlc & _) ->. unfold is_locked in Hlk. simplify_eq. by rewrite Hlc in Hlk.
Qed.

(** When every buffer is in use or waits for a commit, a block that is not
    cached cannot be read. *)
Lemma bread_full s n :
  bc_inv s → bufof s n = None → (∀ i b, bs_bufs s !! i = Some b → is_free b = false) →
  bread 1 n s = Err (EPanic "bget: no buffers").
Proof.
  intros Hi Hn Hfull. unfold bread. erewrite bind_err; [done |]. unfold bget. erewrite bind_ok by reflexivity.
  destruct (scan_spec (is_block 1 n) (bs_lru s) s) as (r & E & Hr); [by intros j; apply Hi |].
  erewrite bind_ok by exact E. destruct r as [i|].
  { destruct Hr as (_ & b & Hb & Hblk). by rewrite (bufof_None s n i b) in Hblk. }
  destruct (scan_spec is_free (reverse (bs_lru s)) s) as (r & E' & Hr').
  { intros j. rewrite elem_of_reverse. apply Hi. }
  erewrite bind_ok by exact E'. destruct r as [i|]; [|done].
  destruct Hr' as (_ & b & Hb & Hfr). by rewrite (Hfull i b) in Hfr.
Qed.

(** No buffer is locked: no block is. *)
Lemma unlocked s n : nlocked s = 0%nat → lockedv s n = false.
Proof.
  intros H0. unfold lockedv. destruct (bufof s n) as [b|] eqn:E; [|done]. simpl.
  apply bufof_inv in E as (i & Hb & _). destruct (sl_locked (b_lock b)) eqn:El; [|done].
  unfold nlocked, cnt in H0. apply nil_length_inv in H0.
  assert (b ∈ filter (λ b, is_locked b = true) (bs_bufs s)) as Hin.
  { apply list_elem_of_filter. split; [done |]. apply list_elem_of_lookup. eauto. }
  rewrite H0 in Hin. by apply elem_of_nil in Hin.
Qed.

Lemma bwrite_traced `{!DiskTrace D} s i n x d :
  bc_inv s → holds s i n x d →
  wp (bwrite i) s (λ _ s', bstep s s' i n (Some x) (Some x) false true ∧ holds s' i n x false ∧
    nlocked s' = nlocked s ∧ (nspare s ≤ nspare s')%nat ∧ dlog (bs_disk s') = (n, x) :: dlog (bs_disk s)).
Proof.
  intros Hi Hh. pose proof (bwrite_spec s i n x d Hi Hh) as (? & s' & E & HB)%wp_iff.
  apply wp_iff. eexists _, s'. split; [done |]. destruct HB as (H1 & H2 & H3 & H4). split_and!; try done.
  destruct (holds_view s i n x d Hi Hh) as (b & Hb & _ & Hblk & _ & Hx & _ & _ & Hlock & _).
  apply is_block_true in Hblk as [_ Hn]. pose proof (lookup_lt_Some _ _ _ Hb) as Hlt.
  unfold bwrite in E. erewrite bind_ok in E by reflexivity.
  erewrite bind_ok in E by (unfold buf_get; by rewrite Hb).
  unfold holdingsleep in E. rewrite Hlock, Z.eqb_refl in E. simpl in E.
  erewrite bind_ok in E by (by apply buf_upd_ok). unfold sync in E. simpl in E.
  rewrite list_lookup_insert_eq in E by done.
  destruct (iderw _ _ _) as [[b' d']|] eqn:Ew; [|done]. simplify_eq. simpl.
  by rewrite (dlog_write _ _ _ _ _ Ew eq_refl).
Qed.

End Bio.
