(* ===== verification/Console.v ===== *)
(** * The console ([console.c])

    The screen is the CGA text memory and the CRT controller's cursor; what
    goes to the serial port is kept in order.  Keys come from an interrupt as
    the list of characters the device had, up to the first negative one. *)

From S2P Require Import Prelude Mmu Spinlock.

Definition BACKSPACE : Z := 256.
Definition INPUT_BUF : Z := 128.
Definition ctrl (c : Z) : Z := c - 64.

Record cons : Type := Cons {
  cn_panicked : bool;
  cn_locking : bool;
  cn_crt : list Z;
  cn_pos : Z;
  cn_uart : list Z;
  cn_buf : list Z;
  cn_r : Z;
  cn_w : Z;
  cn_e : Z;
}.

Definition set_screen (crt : list Z) (pos : Z) (s : cons) : cons :=
  Cons (cn_panicked s) (cn_locking s) crt pos (cn_uart s) (cn_buf s) (cn_r s) (cn_w s) (cn_e s).
Definition set_input (buf : list Z) (r w e : Z) (s : cons) : cons :=
  Cons (cn_panicked s) (cn_locking s) (cn_crt s) (cn_pos s) (cn_uart s) buf r w e.
Definition uartputc (c : Z) (s : cons) : cons :=
  Cons (cn_panicked s) (cn_locking s) (cn_crt s) (cn_pos s) (cn_uart s ++ [u8 c]) (cn_buf s) (cn_r s) (cn_w s) (cn_e s).

(** ** Output *)

(** [crt[i] = v]; the text window has 16384 cells. *)
Definition crt_set (i v : Z) (crt : list Z) : M cons (list Z) :=
  if (i <? 0) || (Z.of_nat (length crt) <=? i) then raise EUndef
  else mret (<[Z.to_nat i := v]> crt).

Definition scroll (crt : list Z) : list Z :=
  take (Z.to_nat (23 * 80)) (drop 80 crt) ++ drop (Z.to_nat (23 * 80)) crt.
Definition blank (crt : list Z) (pos : Z) : list Z :=
  take (Z.to_nat pos) crt ++ replicate (Z.to_nat (24 * 80 - pos)) 0 ++ drop (Z.to_nat (24 * 80)) crt.

Definition cgaputc (c : Z) : M cons unit :=
  pos ← gets cn_pos;
  crt ← gets cn_crt;
  r ← (if c =? 10 then mret (crt, pos + (80 - pos mod 80))
       else if c =? BACKSPACE then mret (crt, if 0 <? pos then pos - 1 else pos)
       else crt ← crt_set pos (Z.lor (Z.land c 255) 1792) crt; mret (crt, pos + 1));
  let '(crt, pos) := r in
  if (pos <? 0) || (25 * 80 <? pos) then panic "pos under/overflow" else
  let '(crt, pos) :=
    if 24 <=? pos / 80 then (blank (scroll crt) (pos - 80), pos - 80) else (crt, pos) in
  crt ← crt_set pos (Z.lor 32 1792) crt;
  modify (set_screen crt pos).

Definition consputc (c : Z) : M cons unit :=
  p ← gets cn_panicked;
  if p : bool then raise EBlock else
  (if c =? BACKSPACE then modify (uartputc 8);; modify (uartputc 32);; modify (uartputc 8)
   else modify (uartputc c));;
  cgaputc c.

Fixpoint consputs (l : list Z) : M cons unit :=
  match l with
  | [] => mret tt
  | c :: l => consputc c;; consputs l
  end.

Definition digits (d : Z) : Z := if d <? 10 then 48 + d else 97 + (d - 10).

(** The digits of [x], last one first; a [uint] has at most 32 of them. *)
Fixpoint print_digits (fuel : nat) (x base : Z) : list Z :=
  match fuel with
  | O => []
  | S fuel => digits (x mod base) :: (if x / base =? 0 then [] else print_digits fuel (x / base) base)
  end.

(** What [printint] prints. *)
Definition printint_chars (xx base : Z) (sign : bool) : list Z :=
  let neg := sign && (s32 xx <? 0) in
  let x := if neg then u32 (- xx) else u32 xx in
  reverse (print_digits 32 x base ++ (if neg then [45] else [])).

Definition printint (xx base : Z) (sign : bool) : M cons unit := consputs (printint_chars xx base sign).

(** An argument of [cprintf]: a word, or a pointer to a string. *)
Inductive carg : Type :=
| AInt (v : Z)
| AStr (s : option (list Z)).

Definition null_str : list Z := [40; 110; 117; 108; 108; 41].

(** The loop over the format. *)
Fixpoint cprintf_loop (fmt : list Z) (args : list carg) : M cons unit :=
  match fmt with
  | [] => mret tt
  | 37 :: fmt =>
    match fmt with
    | [] => mret tt
    | c :: fmt =>
      if c =? 100 then
        match args with AInt v :: args => printint v 10 true;; cprintf_loop fmt args | _ => raise EUndef end
      else if (c =? 120) || (c =? 112) then
        match args with AInt v :: args => printint v 16 false;; cprintf_loop fmt args | _ => raise EUndef end
      else if c =? 115 then
        match args with
        | AStr s :: args => consputs (default null_str s);; cprintf_loop fmt args
        | _ => raise EUndef
        end
      else if c =? 99 then
        match args with AInt v :: args => consputc (u8 v);; cprintf_loop fmt args | _ => raise EUndef end
      else if c =? 37 then consputc 37;; cprintf_loop fmt args
      else consputc 37;; consputc c;; cprintf_loop fmt args
    end
  | c :: fmt => consputc c;; cprintf_loop fmt args
  end.

(** [cprintf] takes the console lock unless the CPU holds it, and gives it
    back in any case. *)
Definition con_state : Type := (cpu * spinlock) * cons.
Definition on_lock {A} (c : M (cpu * spinlock) A) : M con_state A := zoom fst (λ l s, (l, s.2)) c.
Definition on_cons {A} (c : M cons A) : M con_state A := zoom snd (λ k s, (s.1, k)) c.

Definition cprintf (fmt : option (list Z)) (args : list carg) : M con_state unit :=
  locking ← gets (λ s, cn_locking s.2);
  (if locking : bool then
     h ← on_lock Spin.holding; if h : bool then mret tt else on_lock Spin.acquire
   else mret tt);;
  match fmt with
  | None => panic "null fmt"
  | Some fmt => on_cons (cprintf_loop fmt args)
  end;;
  if locking : bool then on_lock Spin.release else mret tt.

(** ** Input *)

Definition buf_at (s : cons) (i : Z) : Z := default 0 (cn_buf s !! Z.to_nat (i mod INPUT_BUF)).

Definition erase : M cons unit :=
  modify (λ s, set_input (cn_buf s) (cn_r s) (cn_w s) (u32 (cn_e s - 1)) s);;
  consputc BACKSPACE.

(** Kill line: at most [e - w] characters. *)
Fixpoint kill_line (fuel : nat) : M cons unit :=
  match fuel with
  | O => mret tt
  | S fuel =>
    s ← gets id;
    if (cn_e s =? cn_w s) || (buf_at s (u32 (cn_e s - 1)) =? 10) then mret tt
    else erase;; kill_line fuel
  end.

(** One character; does it wake readers? *)
Definition put_char (c : Z) : M cons bool :=
  s ← gets id;
  if (c =? 0) || (INPUT_BUF <=? u32 (cn_e s - cn_r s)) then mret false else
  let c := if c =? 13 then 10 else c in
  let e := u32 (cn_e s + 1) in
  modify (set_input (<[Z.to_nat (cn_e s mod INPUT_BUF) := u8 c]> (cn_buf s)) (cn_r s) (cn_w s) e);;
  consputc c;;
  if (c =? 10) || (c =? ctrl 68) || (e =? u32 (cn_r s + INPUT_BUF)) then
    modify (λ s, set_input (cn_buf s) (cn_r s) (cn_e s) (cn_e s) s);; mret true
  else mret false.

(** The characters from [getc]; the result says whether to list the
    processes and whether [input.r] was woken. *)
Fixpoint consoleintr (cs : list Z) (dump woke : bool) : M cons (bool * bool) :=
  match cs with
  | [] => mret (dump, woke)
  | c :: cs =>
    if c <? 0 then mret (dump, woke) else
    if c =? ctrl 80 then consoleintr cs true woke
    else if c =? ctrl 85 then
      s ← gets id; kill_line (Z.to_nat (u32 (cn_e s - cn_w s)));; consoleintr cs dump woke
    else if (c =? ctrl 72) || (c =? 127) then
      s ← gets id;
      (if cn_e s =? cn_w s then mret tt else erase);;
      consoleintr cs dump woke
    else
      w ← put_char c; consoleintr cs dump (woke || w)
  end.

(** The loop of [consoleread]: the characters copied so far, or [false] when
    the process was killed while waiting. *)
Fixpoint consoleread_loop (killed : bool) (target n : nat) (acc : list Z) : M cons (bool * list Z) :=
  match n with
  | O => mret (true, acc)
  | S n' =>
    s ← gets id;
    if cn_r s =? cn_w s then (if killed then mret (false, acc) else raise EBlock) else
    let c := buf_at s (cn_r s) in
    let next := set_input (cn_buf s) (u32 (cn_r s + 1)) (cn_w s) (cn_e s) s in
    if c =? ctrl 68 then
      modify (λ _, if (n <? target)%nat then s else next);; mret (true, acc)
    else
      modify (λ _, next);;
      if c =? 10 then mret (true, acc ++ [c]) else consoleread_loop killed target n' (acc ++ [c])
  end.
