(* ===== verification/FsFormat.v ===== *)
(** * On-disk formats ([fs.h], [stat.h])

    The superblock, inodes and directory entries as fields of byte blocks,
    with the block and bit each object lives in. *)

From S2P Require Import Prelude Bytes Disk.

Definition ROOTINO : Z := 1.
Definition NDIRECT : nat := 12.
Definition NINDIRECT : nat := 128.
Definition MAXFILE : nat := NDIRECT + NINDIRECT.
Definition DIRSIZ : nat := 14.

Definition T_DIR : Z := 1.
Definition T_FILE : Z := 2.
Definition T_DEV : Z := 3.

Record superblock : Type := Superblock {
  sb_size : Z;
  sb_nblocks : Z;
  sb_ninodes : Z;
  sb_nlog : Z;
  sb_logstart : Z;
  sb_inodestart : Z;
  sb_bmapstart : Z;
}.

Definition get_superblock (d : list Z) : superblock :=
  Superblock (get32 d 0) (get32 d 4) (get32 d 8) (get32 d 12) (get32 d 16) (get32 d 20) (get32 d 24).

Definition put_superblock (sb : superblock) (d : list Z) : list Z :=
  put32s 0 [sb_size sb; sb_nblocks sb; sb_ninodes sb; sb_nlog sb; sb_logstart sb; sb_inodestart sb;
            sb_bmapstart sb] d.

(** A [short] is kept as its 16-bit pattern. *)
Record dinode : Type := Dinode {
  di_type : Z;
  di_major : Z;
  di_minor : Z;
  di_nlink : Z;
  di_size : Z;
  di_addrs : list Z;
}.

Definition dinode_size : nat := 64.

Definition get_dinode (d : list Z) (off : nat) : dinode :=
  Dinode (get16 d off) (get16 d (off + 2)) (get16 d (off + 4)) (get16 d (off + 6)) (get32 d (off + 8))
    (get32s d (off + 12) (NDIRECT + 1)).

Definition dinode_bytes (di : dinode) : list Z :=
  le16 (di_type di) ++ le16 (di_major di) ++ le16 (di_minor di) ++ le16 (di_nlink di) ++ le32 (di_size di) ++
  mjoin (le32 <$> di_addrs di).

Definition put_dinode (off : nat) (di : dinode) (d : list Z) : list Z := splice off (dinode_bytes di) d.

(** ** Where things are *)

Definition IPB : Z := BSIZE / 64.
Definition IBLOCK (i : Z) (sb : superblock) : Z := u32 (i / IPB + sb_inodestart sb).
Definition BPB : Z := BSIZE * 8.
Definition BBLOCK (b : Z) (sb : superblock) : Z := u32 (b / BPB + sb_bmapstart sb).

(** Offset of inode [i] in its block. *)
Definition ioff (i : Z) : nat := Z.to_nat (i mod IPB * 64).

(** ** Directory entries *)

Record dirent : Type := Dirent {
  de_inum : Z;
  de_name : list Z;
}.

Definition dirent_size : nat := 16.

Definition get_dirent (d : list Z) : dirent := Dirent (get16 d 0) (slice 2 DIRSIZ d).
Definition dirent_bytes (de : dirent) : list Z := le16 (de_inum de) ++ de_name de.

(** ** Round trips *)

Record dinode_ok (di : dinode) : Prop := DinodeOk {
  dk_type : 0 ≤ di_type di < 2 ^ 16;
  dk_major : 0 ≤ di_major di < 2 ^ 16;
  dk_minor : 0 ≤ di_minor di < 2 ^ 16;
  dk_nlink : 0 ≤ di_nlink di < 2 ^ 16;
  dk_size : 0 ≤ di_size di < 2 ^ 32;
  dk_addrs : Forall (λ a, 0 ≤ a < 2 ^ 32) (di_addrs di);
  dk_len : length (di_addrs di) = (NDIRECT + 1)%nat;
}.

Lemma length_dinode_bytes di : dinode_ok di → length (dinode_bytes di) = dinode_size.
Proof.
  intros Hd. unfold dinode_bytes. rewrite !length_app, length_le32s, (dk_len di Hd). done.
Qed.

Lemma get16_bytes bs l off k v :
  (off + length bs ≤ length l)%nat → (k + 2 ≤ length bs)%nat → slice k 2 bs = le16 v → 0 ≤ v < 2 ^ 16 →
  get16 (splice off bs l) (off + k) = v.
Proof.
  intros Hl Hk Hs Hv. unfold get16. rewrite !byte_at_splice by done. repeat case_decide; try lia.
  assert (∀ j, (j < 2)%nat → bs !! (k + j)%nat = le16 v !! j) as Hj.
  { intros j Hj. rewrite <- Hs, lookup_slice. by case_decide. }
  replace (off + k - off)%nat with (k + 0)%nat by lia. replace (off + k + 1 - off)%nat with (k + 1)%nat by lia.
  unfold byte_at. rewrite !Hj by lia. simpl. zdiv.
Qed.

Lemma get32_bytes bs l off k v :
  (off + length bs ≤ length l)%nat → (k + 4 ≤ length bs)%nat → slice k 4 bs = le32 v → 0 ≤ v < 2 ^ 32 →
  get32 (splice off bs l) (off + k) = v.
Proof.
  intros Hl Hk Hs Hv. unfold get32. rewrite !byte_at_splice by done. repeat case_decide; try lia.
  assert (∀ j, (j < 4)%nat → bs !! (k + j)%nat = le32 v !! j) as Hj.
  { intros j Hj. rewrite <- Hs, lookup_slice. by case_decide. }
  replace (off + k - off)%nat with (k + 0)%nat by lia. replace (off + k + 1 - off)%nat with (k + 1)%nat by lia.
  replace (off + k + 2 - off)%nat with (k + 2)%nat by lia. replace (off + k + 3 - off)%nat with (k + 3)%nat by lia.
  unfold byte_at. rewrite !Hj by lia. simpl. zdiv.
Qed.

Lemma slice_app_r off n (a b : list Z) : length a = off → slice (off + n) 4 (a ++ b) = slice n 4 b.
Proof. intros <-. unfold slice. by rewrite drop_app_add. Qed.

Lemma slice_le32s vs i : (i < length vs)%nat → slice (4 * i) 4 (mjoin (le32 <$> vs)) = le32 (default 0 (vs !! i)).
Proof.
  intros Hi. apply list_eq. intros j. rewrite lookup_slice. case_decide as Hj.
  - by apply le32s_byte.
  - rewrite lookup_ge_None_2; [done |]. simpl. lia.
Qed.

(** An inode written to a block is read back. *)
Lemma get_put_dinode di off d :
  dinode_ok di → (off + dinode_size ≤ length d)%nat → get_dinode (put_dinode off di d) off = di.
Proof.
  intros Hd Hl. pose proof (length_dinode_bytes di Hd) as Hb. unfold get_dinode, put_dinode.
  assert (off + length (dinode_bytes di) ≤ length d)%nat as Hl' by (rewrite Hb; done).
  assert (get16 (splice off (dinode_bytes di) d) off = di_type di) as E1.
  { rewrite <- (Nat.add_0_r off) at 2. apply get16_bytes; try done; [rewrite Hb; unfold dinode_size; lia | apply Hd]. }
  rewrite E1. rewrite (get16_bytes _ _ _ _ (di_major di)) by (done || (rewrite Hb; unfold dinode_size; lia) || apply Hd).
  rewrite (get16_bytes _ _ _ _ (di_minor di)) by (done || (rewrite Hb; unfold dinode_size; lia) || apply Hd).
  rewrite (get16_bytes _ _ _ _ (di_nlink di)) by (done || (rewrite Hb; unfold dinode_size; lia) || apply Hd).
  rewrite (get32_bytes _ _ _ _ (di_size di)) by (done || (rewrite Hb; unfold dinode_size; lia) || apply Hd).
  assert (get32s (splice off (dinode_bytes di) d) (off + 12) (NDIRECT + 1) = di_addrs di) as ->; [|by destruct di].
  apply list_eq. intros i. unfold get32s. rewrite list_lookup_fmap.
  destruct (decide (i < NDIRECT + 1)%nat) as [Hi|Hi].
  2:{ rewrite lookup_seq_ge by lia. rewrite lookup_ge_None_2; [done |]. rewrite (dk_len di Hd). lia. }
  rewrite lookup_seq_lt by lia. cbn [fmap option_fmap option_map Nat.add].
  destruct (lookup_lt_is_Some_2 (di_addrs di) i) as [a Ha]; [by rewrite (dk_len di Hd) |]. rewrite Ha. f_equal.
  rewrite <- Nat.add_assoc. apply get32_bytes; [done | rewrite Hb; unfold dinode_size, NDIRECT in *; lia | |].
  - unfold dinode_bytes. rewrite !app_assoc. rewrite slice_app_r by done.
    rewrite slice_le32s by (rewrite (dk_len di Hd); lia). by rewrite Ha.
  - apply (Forall_lookup_1 _ _ _ _ (dk_addrs di Hd) Ha).
Qed.

Lemma byte_at_splice_ne off bs l i :
  (off + length bs ≤ length l)%nat → (i < off ∨ off + length bs ≤ i)%nat → byte_at (splice off bs l) i = byte_at l i.
Proof. intros Hl Hi. rewrite byte_at_splice by done. case_decide; [lia | done]. Qed.

(** The other inodes of the block keep their values. *)
Lemma get_put_dinode_ne di off off' d :
  dinode_ok di → (off + dinode_size ≤ length d)%nat → (off' + dinode_size ≤ off ∨ off + dinode_size ≤ off')%nat →
  get_dinode (put_dinode off di d) off' = get_dinode d off'.
Proof.
  intros Hd Hl Hne. pose proof (length_dinode_bytes di Hd) as Hb. unfold get_dinode, put_dinode, get16, get32.
  assert (∀ k, (k < dinode_size)%nat → byte_at (splice off (dinode_bytes di) d) (off' + k) = byte_at d (off' + k)) as Hk.
  { intros k Hk. apply byte_at_splice_ne; rewrite Hb; lia. }
  rewrite <- !Nat.add_assoc. cbn [Nat.add]. unfold dinode_size in Hk. rewrite !Hk by lia.
  pose proof (Hk 0%nat ltac:(lia)) as H0. rewrite Nat.add_0_r in H0. rewrite H0. f_equal.
  unfold get32s. apply list_fmap_ext. intros j i Hi. apply lookup_seq in Hi as [-> Hi].
  unfold get32. rewrite <- !Nat.add_assoc. unfold NDIRECT in Hi. by rewrite !Hk by lia.
Qed.

(** Distinct inodes of one block do not overlap. *)
Lemma ioff_disjoint i j :
  0 ≤ i → 0 ≤ j → i / IPB = j / IPB → i ≠ j →
  (ioff j + dinode_size ≤ ioff i ∨ ioff i + dinode_size ≤ ioff j)%nat.
Proof.
  intros Hi Hj Hd Hne. unfold ioff, dinode_size. change IPB with 8 in *.
  assert (i mod 8 ≠ j mod 8) by (intros E; apply Hne; zdiv).
  assert (0 ≤ i mod 8 < 8) by zdiv. assert (0 ≤ j mod 8 < 8) by zdiv. lia.
Qed.

Lemma ioff_bound i : (ioff i + dinode_size ≤ bsize)%nat.
Proof.
  unfold ioff, dinode_size, bsize. change IPB with 8. change BSIZE with 512.
  assert (0 ≤ i mod 8 < 8) by zdiv. lia.
Qed.

Lemma get_put_dirent de :
  0 ≤ de_inum de < 2 ^ 16 → length (de_name de) = DIRSIZ → get_dirent (dirent_bytes de) = de.
Proof.
  intros Hi Hn. destruct de as [i n]. unfold get_dirent, dirent_bytes. simpl in *. f_equal.
  - unfold get16, byte_at. simpl. zdiv.
  - unfold slice. cbn [drop]. rewrite <- Hn. apply take_ge. done.
Qed.

Lemma length_dirent de : length (de_name de) = DIRSIZ → length (dirent_bytes de) = dirent_size.
Proof. intros Hn. unfold dirent_bytes. rewrite length_app, Hn. done. Qed.

(** The superblock read back from the block it was written to. *)
Lemma get_put_superblock sb d :
  (28 ≤ length d)%nat →
  Forall (λ v, 0 ≤ v < 2 ^ 32) [sb_size sb; sb_nblocks sb; sb_ninodes sb; sb_nlog sb; sb_logstart sb;
    sb_inodestart sb; sb_bmapstart sb] →
  get_superblock (put_superblock sb d) = sb.
Proof.
  intros Hl Hf. unfold get_superblock, put_superblock.
  set (vs := [_; _; _; _; _; _; _]) in *.
  pose proof (get32s_put32s 0 vs d Hl Hf) as E. set (x := put32s 0 vs d) in *.
  change (get32s x 0 (length vs)) with
    [get32 x 0; get32 x 4; get32 x 8; get32 x 12; get32 x 16; get32 x 20; get32 x 24] in E.
  unfold vs in E. injection E as -> -> -> -> -> -> ->. by destruct sb.
Qed.
