(* ===== verification/Log.v ===== *)
(** * The write-ahead log ([log.c])

    [commit] writes the modified blocks to the log, then the header, then the
    home blocks, then an empty header; [recover_from_log] installs what the
    header on disk names. *)

From S2P Require Import Prelude Mmu Bytes Disk Bio FsFormat.

(** Block numbers and [start] are kept as 32-bit patterns; [lh.n] and the
    counters are signed. *)
Record log : Type := Log {
  lg_start : Z;
  lg_size : Z;
  lg_outstanding : Z;
  lg_committing : bool;
  lg_dev : Z;
  lg_n : Z;
  lg_block : list Z;
}.

Definition log_zero : log := Log 0 0 0 false 0 0 (replicate (Z.to_nat LOGSIZE) 0).

Definition set_lh (n : Z) (block : list Z) (l : log) : log :=
  Log (lg_start l) (lg_size l) (lg_outstanding l) (lg_committing l) (lg_dev l) n block.
Definition set_ops (o : Z) (c : bool) (l : log) : log :=
  Log (lg_start l) (lg_size l) o c (lg_dev l) (lg_n l) (lg_block l).

(** The blocks of the current transaction. *)
Definition logged (l : log) : list Z := take (Z.to_nat (lg_n l)) (lg_block l).

Record lst (D : Type) : Type := Lst {
  ls_b : bst D;
  ls_log : log;
}.
Arguments Lst {D} _ _.
Arguments ls_b {D} _.
Arguments ls_log {D} _.

Section Log.
Context {D : Type} `{DiskDriver D}.

Definition set_ls_b (b : bst D) (s : lst D) : lst D := Lst b (ls_log s).
Definition on_b {A} (c : M (bst D) A) : M (lst D) A := zoom ls_b set_ls_b c.
Definition upd_log (f : log → log) : M (lst D) unit := modify (λ s, Lst (ls_b s) (f (ls_log s))).

(** [readsb] of [fs.c]. *)
Definition readsb (dev : Z) : M (bst D) superblock :=
  bp ← bread dev 1;
  d ← bdata bp;
  brelse bp;;
  mret (get_superblock d).

(** [log.lh.block[i]]. *)
Definition lh_block (i : nat) : M (lst D) Z := λ s,
  match lg_block (ls_log s) !! i with Some b => Ok (b, s) | None => Err EUndef end.

(** Block of the log that holds entry [i]. *)
Definition log_blk (l : log) (i : nat) : Z := u32 (lg_start l + Z.of_nat i + 1).

Definition install_trans : M (lst D) unit :=
  l ← gets ls_log;
  for_ (Z.to_nat (lg_n l)) 0 (λ tail,
    lbuf ← on_b (bread (lg_dev l) (log_blk l tail));
    blk ← lh_block tail;
    dbuf ← on_b (bread (lg_dev l) blk);
    x ← on_b (bdata lbuf);
    on_b (bmodify dbuf (λ _, x));;
    on_b (bwrite dbuf);;
    on_b (brelse lbuf);;
    on_b (brelse dbuf)).

Definition read_head : M (lst D) unit :=
  l ← gets ls_log;
  b ← on_b (bread (lg_dev l) (lg_start l));
  lh ← on_b (bdata b);
  let n := s32 (get32 lh 0) in
  if LOGSIZE <? n then raise EUndef else
  upd_log (λ l, set_lh n (splice 0 (get32s lh 4 (Z.to_nat n)) (lg_block l)) l);;
  on_b (brelse b).

(** The header block after [write_head]. *)
Definition put_head (l : log) (hb : list Z) : list Z := put32s 4 (logged l) (put32 0 (u32 (lg_n l)) hb).

Definition write_head : M (lst D) unit :=
  l ← gets ls_log;
  b ← on_b (bread (lg_dev l) (lg_start l));
  if LOGSIZE <? lg_n l then raise EUndef else
  on_b (bmodify b (put_head l));;
  on_b (bwrite b);;
  on_b (brelse b).

Definition clear_lh : M (lst D) unit := upd_log (λ l, set_lh 0 (lg_block l) l).

Definition recover_from_log : M (lst D) unit :=
  read_head;; install_trans;; clear_lh;; write_head.

Definition initlog (dev : Z) : M (lst D) unit :=
  if BSIZE <=? 4 + 4 * LOGSIZE then panic "initlog: too big logheader" else
  sb ← on_b (readsb dev);
  upd_log (λ l, Log (sb_logstart sb) (sb_nlog sb) (lg_outstanding l) (lg_committing l) dev (lg_n l) (lg_block l));;
  recover_from_log.

Definition begin_op : M (lst D) unit :=
  l ← gets ls_log;
  if lg_committing l then raise EBlock else
  if LOGSIZE <? lg_n l + (lg_outstanding l + 1) * MAXOPBLOCKS then raise EBlock else
  upd_log (set_ops (lg_outstanding l + 1) false).

Definition write_log : M (lst D) unit :=
  l ← gets ls_log;
  for_ (Z.to_nat (lg_n l)) 0 (λ tail,
    to ← on_b (bread (lg_dev l) (log_blk l tail));
    blk ← lh_block tail;
    from ← on_b (bread (lg_dev l) blk);
    x ← on_b (bdata from);
    on_b (bmodify to (λ _, x));;
    on_b (bwrite to);;
    on_b (brelse from);;
    on_b (brelse to)).

Definition commit : M (lst D) unit :=
  l ← gets ls_log;
  if 0 <? lg_n l then
    write_log;; write_head;; install_trans;; clear_lh;; write_head
  else mret tt.

Definition end_op : M (lst D) unit :=
  upd_log (λ l, set_ops (lg_outstanding l - 1) (lg_committing l) l);;
  l ← gets ls_log;
  if lg_committing l then panic "log.committing" else
  if lg_outstanding l =? 0 then
    upd_log (set_ops 0 true);;
    commit;;
    upd_log (λ l, set_ops (lg_outstanding l) false l)
  else mret tt.

(** Position at which [log_write] records a block. *)
Definition log_slot (blockno : Z) (l : log) : nat :=
  from_option fst (Z.to_nat (lg_n l)) (list_find (λ b, b = blockno) (logged l)).

Definition log_put (blockno : Z) (l : log) : log :=
  let i := log_slot blockno l in
  set_lh (if (i =? Z.to_nat (lg_n l))%nat then lg_n l + 1 else lg_n l) (<[i := blockno]> (lg_block l)) l.

Definition log_write (i : nat) : M (lst D) unit :=
  l ← gets ls_log;
  if (LOGSIZE <=? lg_n l) || (s32 (lg_size l) - 1 <=? lg_n l) then panic "too big a transaction" else
  if lg_outstanding l <? 1 then panic "log_write outside of trans" else
  b ← on_b (buf_get i);
  upd_log (log_put (b_blockno b));;
  on_b (buf_upd i (λ b, set_flags (b_valid b) true b)).

End Log.

(** A step of the cache inside an operation of the log. *)
Ltac lift C :=
  lazymatch type of C with wp (_ ≫= _) _ _ => apply wp_bind_inv in C | _ => idtac end;
  lazymatch goal with |- wp (_ ≫= _) _ _ => apply wp_bind | _ => idtac end; apply wp_zoom; eapply wp_mono; [exact C |]; clear C;
  intros ? ? C; cbv beta in C; cbn [ls_b set_ls_b ls_log].
