(* ===== verification/LogSpec.v ===== *)
(** * Correctness of the log ([log.c])

    [apply_writes] gives the disk after a list of writes, and [wrote] relates
    the states before and after synchronous writes.  [commit_spec] gives the
    writes of a commit in order. *)

From S2P Require Import Prelude Mmu Bytes Disk Bio FsFormat Log.

Abbreviation writes := (list (Z * list Z)).

Definition apply_writes (ws : writes) (f : Z → option (list Z)) : Z → option (list Z) :=
  foldl (λ f w m, if m =? w.1 then Some w.2 else f m) f ws.
Arguments apply_writes : simpl never.

Lemma apply_writes_app ws ws' f : apply_writes (ws ++ ws') f = apply_writes ws' (apply_writes ws f).
Proof. apply foldl_app. Qed.

Lemma apply_writes_cons n x ws f :
  apply_writes ((n, x) :: ws) f = apply_writes ws (λ m, if m =? n then Some x else f m).
Proof. done. Qed.

Lemma apply_writes_one n x f m : apply_writes [(n, x)] f m = if m =? n then Some x else f m.
Proof. done. Qed.

Lemma apply_writes_out ws f m : m ∉ ws.*1 → apply_writes ws f m = f m.
Proof.
  revert f. induction ws as [|[n x] ws IH]; intros f; [done |]. simpl. rewrite not_elem_of_cons. intros [Hne Hni].
  rewrite apply_writes_cons, IH by done. by destruct (Z.eqb_spec m n).
Qed.

Lemma apply_writes_in ws f m x : NoDup ws.*1 → (m, x) ∈ ws → apply_writes ws f m = Some x.
Proof.
  revert f. induction ws as [|[n y] ws IH]; intros f; simpl; [by intros _ ?%elem_of_nil |].
  rewrite list.NoDup_cons, elem_of_cons. intros [Hn Hd] [[= <- <-]|Hin].
  - rewrite apply_writes_cons, apply_writes_out by done. by rewrite Z.eqb_refl.
  - by apply IH.
Qed.

Lemma apply_writes_ext ws f g : (∀ m, f m = g m) → ∀ m, apply_writes ws f m = apply_writes ws g m.
Proof.
  revert f g. induction ws as [|[n x] ws IH]; intros f g He; [done |]. rewrite !apply_writes_cons. apply IH. intros m.
  by destruct (_ =? _).
Qed.

(** What is written does not depend on what was there. *)
Lemma apply_writes_base ws f g m : m ∈ ws.*1 → apply_writes ws f m = apply_writes ws g m.
Proof.
  revert f g. induction ws as [|[n x] ws IH]; intros f g; [by intros ?%elem_of_nil |]. rewrite !apply_writes_cons.
  destruct (decide (m ∈ ws.*1)) as [Hin|Hni]; [intros _; by apply IH |]. rewrite !apply_writes_out by done.
  intros [E|E]%elem_of_cons; [|done]. simpl in E. subst. by rewrite Z.eqb_refl.
Qed.

Lemma written_one m n (x : list Z) : bool_decide (m ∈ [(n, x)].*1) = (m =? n).
Proof. simpl. case_bool_decide as E; rewrite list_elem_of_singleton in E; lia. Qed.

Section LogSpec.
Context {D : Type} `{DiskLaws D, !DiskTrace D}.
Implicit Types s : bst D.

(** [s'] is [s] after the writes [ws]; no buffer is held. *)
Record wrote (s s' : bst D) (ws : writes) : Prop := Wrote {
  wr_inv : bc_inv s';
  wr_quiet : nlocked s' = 0%nat;
  wr_spare : (nspare s ≤ nspare s')%nat;
  wr_pid : bs_pid s' = bs_pid s;
  wr_view m : lview s' m = apply_writes ws (lview s) m;
  wr_disk m : dblk (bs_disk s') m = apply_writes ws (dblk (bs_disk s)) m;
  wr_dirty m : dirtyv s' m = if bool_decide (m ∈ ws.*1) then false else dirtyv s m;
  wr_log : dlog (bs_disk s') = rev ws ++ dlog (bs_disk s);
}.

Lemma wrote_refl s : bc_inv s → nlocked s = 0%nat → wrote s s [].
Proof. by constructor. Qed.

Lemma wrote_trans s s1 s2 ws ws' : wrote s s1 ws → wrote s1 s2 ws' → wrote s s2 (ws ++ ws').
Proof.
  intros [I1 Q1 S1 P1 V1 D1 T1 L1] [I2 Q2 S2 P2 V2 D2 T2 L2]. constructor; try done; try lia.
  - intros m. rewrite apply_writes_app, V2. by apply apply_writes_ext.
  - intros m. rewrite apply_writes_app, D2. by apply apply_writes_ext.
  - intros m. rewrite T2, T1, fmap_app, (bool_decide_ext _ _ (elem_of_app _ _ _)), bool_decide_or.
    by destruct (bool_decide (m ∈ ws.*1)), (bool_decide (m ∈ ws'.*1)).
  - by rewrite L2, L1, rev_app_distr, app_assoc.
Qed.

(** A block written in place. *)
Lemma update_spec s n x f :
  bc_inv s → nlocked s = 0%nat → lview s n = Some x → (0 < nspare s)%nat → length (f x) = bsize →
  wp (b ← bread 1 n; bmodify b f;; bwrite b;; brelse b) s (λ _ s', wrote s s' [(n, f x)]).
Proof.
  intros Hi Hq Hx Hs Hf. apply wp_bind. eapply wp_mono.
  { apply bread_spec; try done; [by apply unlocked | right; lia]. }
  intros b s1 (B1 & Hh1 & Hq1 & Hs1 & Hk1 & _). apply wp_bind. eapply wp_mono.
  { eapply bmodify_spec; [apply B1 | done | done]. }
  intros [] s2 (B2 & Hh2 & Hq2 & Hs2 & Hk2). apply wp_bind. eapply wp_mono.
  { eapply bwrite_traced; [apply B2 | done]. }
  intros [] s3 (B3 & Hh3 & Hq3 & Hs3 & Hk3). eapply wp_mono.
  { eapply brelse_spec; [apply B3 | done |]. right. rewrite (w_dblk _ _ _ _ _ _ _ _ B3). by rewrite Z.eqb_refl. }
  intros [] s4 (B4 & Hq4 & Hs4 & Hk4). destruct B1 as [I1 P1 O1 V1 K1 T1 L1], B2 as [I2 P2 O2 V2 K2 T2 L2].
  destruct B3 as [I3 P3 O3 V3 K3 T3 L3], B4 as [I4 P4 O4 V4 K4 T4 L4]. constructor; try done; try lia.
  - intros m. rewrite apply_writes_one, V4, V3, V2, V1. by destruct (m =? n).
  - intros m. rewrite apply_writes_one, K4, !K3, Z.eqb_refl, !K2, !K1. by destruct (m =? n).
  - intros m. rewrite written_one, T4, T3, T2, T1. by destruct (m =? n).
  - apply disk_read_log in Hk1. simpl. congruence.
Qed.

(** An unlocked block that is not dirty is the one on disk. *)
Lemma clean_disk s n : bc_inv s → nlocked s = 0%nat → dirtyv s n = false → dblk (bs_disk s) n = lview s n.
Proof.
  intros Hi Hq Hd. pose proof (unlocked s n Hq) as Hl. unfold lview, dirtyv, lockedv in *.
  destruct (bufof s n) as [b|] eqn:E; [|done]. simpl in *. destruct (b_valid b) eqn:Hv; [|done].
  apply bufof_inv in E as (i & Hb & [_ Hn]%is_block_true). rewrite <- Hn. by eapply (bi_clean s).
Qed.

(** Reading two blocks and copying one over the other. *)
Lemma read_two s a b x y :
  bc_inv s → nlocked s = 0%nat → (0 < nspare s)%nat → a ≠ b → lview s a = Some x → lview s b = Some y →
  dirtyv s b = true ∨ (1 < nspare s)%nat →
  wp (bread 1 a) s (λ i s1, wp (bread 1 b) s1 (λ j s2, i ≠ j ∧ bc_inv s2 ∧
    holds s2 i a x (dirtyv s a) ∧ holds s2 j b y (dirtyv s b) ∧ nlocked s2 = 2%nat ∧ nspare s2 = nspare s ∧
    (∀ m, dblk (bs_disk s2) m = dblk (bs_disk s) m) ∧ dlog (bs_disk s2) = dlog (bs_disk s) ∧
    bs_pid s2 = bs_pid s ∧ (∀ m, lview s2 m = lview s m) ∧ (∀ m, dirtyv s2 m = dirtyv s m))).
Proof.
  intros Hi Hq Hs Hne Ha Hb Hav. eapply wp_mono.
  { apply bread_spec; try done; [by apply unlocked | right; lia]. }
  intros i s1 (B1 & Hh1 & Hq1 & Hs1 & Hk1 & _). pose proof B1 as [I1 P1 O1 V1 K1 T1 L1].
  assert ((b =? a) = false) as Hba by lia. eapply wp_mono.
  { apply (bread_spec s1 b y I1).
    - by rewrite V1, Hba.
    - rewrite L1, Hba. by apply unlocked.
    - rewrite T1, Hba. destruct Hav; [by left | right; lia]. }
  intros j s2 (B2 & Hh2 & Hq2 & Hs2 & Hk2 & Ho2). pose proof B2 as [I2 P2 O2 V2 K2 T2 L2].
  rewrite T1, Hba in Hh2. pose proof (Ho2 _ _ _ _ Hh1) as Hij.
  pose proof (disk_read_log _ _ Hk1) as G1. pose proof (disk_read_log _ _ Hk2) as G2.
  split_and!; try done; try congruence.
  - by eapply holds_other.
  - intros m. by rewrite (proj2 Hk2), (proj2 Hk1).
  - intros m. rewrite V2, V1. destruct (Z.eqb_spec m b), (Z.eqb_spec m a); congruence.
  - intros m. rewrite T2, !T1, Hba. destruct (Z.eqb_spec m b), (Z.eqb_spec m a); congruence.
Qed.

(** Giving back two buffers. *)
Lemma release_two s i j a b x y d e :
  bc_inv s → i ≠ j → a ≠ b → holds s i a x d → holds s j b y e →
  d = true ∨ dblk (bs_disk s) a = Some x → e = true ∨ dblk (bs_disk s) b = Some y →
  wp (brelse i;; brelse j) s (λ _ s', bc_inv s' ∧ nlocked s = S (S (nlocked s')) ∧ nspare s' = nspare s ∧
    bs_disk s' = bs_disk s ∧ bs_pid s' = bs_pid s ∧ (∀ m, lview s' m = lview s m) ∧
    (∀ m, dirtyv s' m = dirtyv s m)).
Proof.
  intros Hi Hij Hne Ha Hb Hd He. apply wp_bind. eapply wp_mono; [by eapply brelse_spec |].
  intros [] s1 (B1 & Hq1 & Hs1 & Hk1). pose proof (holds_other _ _ _ j _ _ _ _ _ _ _ _ B1 ltac:(done) Hb) as Hb1.
  destruct (holds_view s i a x d Hi Ha) as (_ & _ & _ & _ & _ & _ & _ & _ & _ & _ & Va & Ta & _).
  destruct (holds_view s j b y e Hi Hb) as (_ & _ & _ & _ & _ & _ & _ & _ & _ & _ & Vb & Tb & _).
  destruct B1 as [I1 P1 O1 V1 K1 T1 L1]. eapply wp_mono; [eapply brelse_spec; [done | done |]; by rewrite Hk1 |].
  intros [] s2 (B2 & Hq2 & Hs2 & Hk2). destruct B2 as [I2 P2 O2 V2 K2 T2 L2]. split_and!; try done; try congruence.
  - intros m. rewrite V2, V1. destruct (Z.eqb_spec m b), (Z.eqb_spec m a); congruence.
  - intros m. rewrite T2, T1. destruct (Z.eqb_spec m b), (Z.eqb_spec m a); congruence.
Qed.

(** Copying buffer [j] over buffer [i] and writing it. *)
Lemma copy_write s i j a b x y d e :
  bc_inv s → i ≠ j → a ≠ b → holds s i a x d → holds s j b y e →
  e = true ∨ dblk (bs_disk s) b = Some y →
  wp (bdata j) s (λ z s1, s1 = s ∧ z = y) ∧
  wp (bmodify i (λ _, y)) s (λ _ s1, wp (bwrite i) s1 (λ _ s2, bc_inv s2 ∧
    nlocked s2 = nlocked s ∧ (nspare s ≤ nspare s2)%nat ∧ bs_pid s2 = bs_pid s ∧
    holds s2 i a y false ∧ holds s2 j b y e ∧ dblk (bs_disk s2) a = Some y ∧
    (e = true ∨ dblk (bs_disk s2) b = Some y) ∧
    (∀ m, lview s2 m = if m =? a then Some y else lview s m) ∧
    (∀ m, dblk (bs_disk s2) m = if m =? a then Some y else dblk (bs_disk s) m) ∧
    (∀ m, dirtyv s2 m = if m =? a then false else dirtyv s m) ∧
    dlog (bs_disk s2) = (a, y) :: dlog (bs_disk s))).
Proof.
  intros Hi Hij Hne Ha Hb He. destruct (holds_view s j b y e Hi Hb) as (c & Hc & _ & _ & _ & Hy & _).
  split.
  { unfold bdata. apply wp_bind. unfold wp, buf_get. by rewrite Hc. }
  pose proof (bi_len s Hi j c Hc) as Hly. rewrite Hy in Hly. eapply wp_mono; [by eapply bmodify_spec |].
  intros [] s1 (B1 & Hh1 & Hq1 & Hs1 & Hk1). eapply wp_mono; [eapply bwrite_traced; [apply B1 | done] |].
  intros [] s2 (B2 & Hh2 & Hq2 & Hs2 & Hk2).
  pose proof (holds_other _ _ _ j _ _ _ _ _ _ _ _ B1 ltac:(done) Hb) as Hb1.
  pose proof (holds_other _ _ _ j _ _ _ _ _ _ _ _ B2 ltac:(done) Hb1) as Hb2.
  destruct B1 as [I1 P1 O1 V1 K1 T1 L1], B2 as [I2 P2 O2 V2 K2 T2 L2]. rewrite Hk1 in *.
  assert ((b =? a) = false) as Hba by lia. split_and!; try done; try congruence; try lia.
  - by rewrite K2, Z.eqb_refl.
  - by rewrite K2, Hba.
  - intros m. rewrite V2, V1. by destruct (m =? a).
  - intros m. rewrite T2, T1. by destruct (m =? a).
Qed.

(** The copy loops' bodies: the second buffer over the first, and the first
    over the second. *)
Lemma copy_to_log s a b x y :
  bc_inv s → nlocked s = 0%nat → (0 < nspare s)%nat → a ≠ b → lview s a = Some x → lview s b = Some y →
  dirtyv s b = true →
  wp (bread 1 a) s (λ i s1, wp (bread 1 b) s1 (λ j s2,
    wp (z ← bdata j; bmodify i (λ _, z);; bwrite i;; brelse j;; brelse i) s2 (λ _ s', wrote s s' [(a, y)]))).
Proof.
  intros Hi Hq Hs Hne Ha Hb Hd. eapply wp_mono; [apply (read_two s a b x y); try done; by left |].
  intros i s1 W. eapply wp_mono; [exact W |]. clear W. intros j s2 (Hij & Hi2 & Hh1 & Hh2 & Hq2 & Hs2 & Hk2 & Hg2 & Hp2 & Hv2 & Ht2).
  destruct (copy_write s2 i j a b x y _ _ Hi2 Hij Hne Hh1 Hh2) as [C1 C2]; [by left |].
  apply wp_bind. eapply wp_mono; [exact C1 |]. intros z s3 [-> ->]. apply wp_bind. eapply wp_mono; [exact C2 |].
  intros [] s3 W. apply wp_bind. eapply wp_mono; [exact W |].
  intros [] s4 (I4 & Q4 & S4 & P4 & H4 & G4 & E4 & F4 & V4 & K4 & T4 & L4). eapply wp_mono.
  { eapply (release_two s4 j i b a); try done. by right. }
  intros [] s5 (I5 & Q5 & S5 & K5 & P5 & V5 & T5). constructor; try done; try lia.
  - intros m. rewrite V5, V4, Hv2. done.
  - intros m. rewrite K5, K4, Hk2. done.
  - intros m. rewrite T5, T4, Ht2, written_one. done.
  - by rewrite K5, L4, Hg2.
Qed.

Lemma copy_from_log s a b x y :
  bc_inv s → nlocked s = 0%nat → (0 < nspare s)%nat → a ≠ b → lview s a = Some x → lview s b = Some y →
  dirtyv s a = false → dirtyv s b = true ∨ (1 < nspare s)%nat →
  wp (bread 1 a) s (λ i s1, wp (bread 1 b) s1 (λ j s2,
    wp (z ← bdata i; bmodify j (λ _, z);; bwrite j;; brelse i;; brelse j) s2 (λ _ s', wrote s s' [(b, x)]))).
Proof.
  intros Hi Hq Hs Hne Ha Hb Hda Hd. eapply wp_mono; [by apply (read_two s a b x y) |].
  intros i s1 W. eapply wp_mono; [exact W |]. clear W. intros j s2 (Hij & Hi2 & Hh1 & Hh2 & Hq2 & Hs2 & Hk2 & Hg2 & Hp2 & Hv2 & Ht2).
  destruct (copy_write s2 j i b a y x _ _ Hi2 (not_eq_sym Hij) (not_eq_sym Hne) Hh2 Hh1) as [C1 C2].
  { right. rewrite Hk2, clean_disk; done. }
  apply wp_bind. eapply wp_mono; [exact C1 |]. intros z s3 [-> ->]. apply wp_bind. eapply wp_mono; [exact C2 |].
  intros [] s3 W. apply wp_bind. eapply wp_mono; [exact W |].
  intros [] s4 (I4 & Q4 & S4 & P4 & H4 & G4 & E4 & F4 & V4 & K4 & T4 & L4). eapply wp_mono.
  { eapply (release_two s4 i j a b); try done. by right. }
  intros [] s5 (I5 & Q5 & S5 & K5 & P5 & V5 & T5). constructor; try done; try lia.
  - intros m. rewrite V5, V4, Hv2. done.
  - intros m. rewrite K5, K4, Hk2. done.
  - intros m. rewrite T5, T4, Ht2, written_one. done.
  - by rewrite K5, L4, Hg2.
Qed.

(** ** The log's geometry *)

(** Is the block outside the log? *)
Definition home (l : log) (m : Z) : Prop := m < lg_start l ∨ lg_start l + lg_size l ≤ m.

Record log_ok (l : log) : Prop := LogOk {
  lo_dev : lg_dev l = 1;
  lo_n : 0 ≤ lg_n l ≤ LOGSIZE;
  lo_len : length (lg_block l) = Z.to_nat LOGSIZE;
  lo_size : lg_n l < lg_size l;
  lo_start : 0 ≤ lg_start l;
  lo_end : lg_start l + lg_size l < 2 ^ 31;
  lo_nodup : NoDup (logged l);
  lo_home m : m ∈ logged l → home l m;
  lo_block m : m ∈ logged l → 0 ≤ m < 2 ^ 32;
}.

Lemma length_logged l : log_ok l → length (logged l) = Z.to_nat (lg_n l).
Proof. intros []. unfold logged. rewrite length_take. unfold LOGSIZE in *. lia. Qed.

Lemma log_blk_eq l i : log_ok l → (i < Z.to_nat (lg_n l))%nat → log_blk l i = lg_start l + Z.of_nat i + 1.
Proof. intros [] Hi. unfold log_blk. apply u32_id. lia. Qed.

Lemma logged_lookup l i : log_ok l → (i < Z.to_nat (lg_n l))%nat → ∃ b, lg_block l !! i = Some b ∧ logged l !! i = Some b.
Proof.
  intros Hl Hi. destruct (lookup_lt_is_Some_2 (logged l) i) as [b Hb]; [by rewrite length_logged |].
  exists b. split; [|done]. unfold logged in Hb. by rewrite lookup_take_lt in Hb.
Qed.

(** A home block is not a block of the log. *)
Lemma home_log_blk l m i : log_ok l → home l m → (i < Z.to_nat (lg_n l))%nat → log_blk l i ≠ m.
Proof. intros Hl Hm Hi. rewrite log_blk_eq by done. destruct Hl. unfold home in Hm. lia. Qed.

(** The writes of [write_log] and of [install_trans]. *)
Definition log_ws (s : bst D) (l : log) : writes :=
  imap (λ i b, (log_blk l i, default [] (lview s b))) (logged l).
Definition install_ws (s : bst D) (l : log) : writes :=
  imap (λ i b, (b, default [] (lview s (log_blk l i)))) (logged l).

Lemma install_ws_blocks s l : (install_ws s l).*1 = logged l.
Proof.
  apply list_eq. intros i. unfold install_ws. rewrite list_lookup_fmap, list_lookup_imap.
  by destruct (logged l !! i).
Qed.

Lemma apply_writes_some ws f m : is_Some (f m) → is_Some (apply_writes ws f m).
Proof.
  revert f. induction ws as [|[n x] ws IH]; intros f Hf; [done |]. rewrite apply_writes_cons. apply IH.
  destruct (m =? n); [by eexists | done].
Qed.

Lemma take_written (ws : writes) k m : m ∈ (take k ws).*1 → ∃ i x, (i < k)%nat ∧ ws !! i = Some (m, x).
Proof.
  intros ([n x] & Hn & Hin)%list_elem_of_fmap. simpl in Hn. subst n.
  apply list_elem_of_lookup in Hin as [i Hi]. exists i, x. apply lookup_take_Some in Hi. naive_solver.
Qed.

Lemma write_log_spec s l :
  bc_inv s → nlocked s = 0%nat → (0 < nspare s)%nat → log_ok l →
  (∀ i, (i < Z.to_nat (lg_n l))%nat → is_Some (lview s (log_blk l i))) →
  (∀ b, b ∈ logged l → is_Some (lview s b) ∧ dirtyv s b = true) →
  wp write_log (Lst s l) (λ _ t, ls_log t = l ∧ wrote s (ls_b t) (log_ws s l)).
Proof.
  intros Hi Hq Hs Hl Hlog Hdirty. unfold write_log. wp_step. wp_step. cbn [ls_log].
  apply (wp_for (λ k t, ls_log t = l ∧ wrote s (ls_b t) (take k (log_ws s l)))).
  { split; [done |]. by apply wrote_refl. }
  2:{ intros t [E W]. split; [done |]. rewrite take_ge in W; [done |].
      unfold log_ws. rewrite length_imap, length_logged by done. lia. }
  intros k [t l'] Hk [El W]. cbn [ls_log ls_b] in *. subst l'. rewrite (lo_dev l Hl).
  destruct (logged_lookup l k Hl) as (b & Hb & Hb'); [lia |].
  assert (b ∈ logged l) as Hbl by (apply list_elem_of_lookup; eauto).
  destruct (Hdirty b Hbl) as [[y Hy] Hd]. pose proof (lo_home l Hl b Hbl) as Hhome.
  assert (b ∉ (take k (log_ws s l)).*1) as Hni.
  { intros (i & x & Hik & Hx)%take_written. unfold log_ws in Hx. rewrite list_lookup_imap in Hx.
    destruct (logged l !! i); [|done]. simplify_eq/=. eapply home_log_blk; [done | done | |done]. lia. }
  destruct (apply_writes_some (take k (log_ws s l)) (lview s) (log_blk l k)) as [x Hx]; [apply Hlog; lia |].
  rewrite <- (wr_view _ _ _ W) in Hx.
  assert (lview t b = Some y) as Hyt by (rewrite (wr_view _ _ _ W), apply_writes_out; done).
  assert (dirtyv t b = true) as Hdt.
  { rewrite (wr_dirty _ _ _ W). by rewrite bool_decide_eq_false_2. }
  pose proof (wr_spare _ _ _ W) as Hsp.
  pose proof (copy_to_log t (log_blk l k) b x y (wr_inv _ _ _ W) (wr_quiet _ _ _ W)) as C.
  apply wp_bind, wp_zoom. eapply wp_mono; [apply C; try done; [lia | apply (home_log_blk l); try done; lia] |].
  clear C. intros i t1 C. cbv beta in C. cbn [ls_b set_ls_b ls_log]. apply wp_bind. eapply wp_intro; [unfold lh_block; simpl; by rewrite Hb |].
  lift C. lift C. lift C. lift C. lift C. lift C. split; [done |].
  rewrite (take_S_r _ _ (log_blk l k, y)).
  - by eapply wrote_trans.
  - unfold log_ws. rewrite list_lookup_imap, Hb'. simpl. by rewrite Hy.
Qed.

Lemma install_trans_spec s l :
  bc_inv s → nlocked s = 0%nat → (0 < nspare s)%nat → log_ok l →
  (∀ i, (i < Z.to_nat (lg_n l))%nat → is_Some (lview s (log_blk l i)) ∧ dirtyv s (log_blk l i) = false) →
  (∀ b, b ∈ logged l → is_Some (lview s b) ∧ (dirtyv s b = true ∨ (1 < nspare s)%nat)) →
  wp install_trans (Lst s l) (λ _ t, ls_log t = l ∧ wrote s (ls_b t) (install_ws s l)).
Proof.
  intros Hi Hq Hs Hl Hlog Hdirty. unfold install_trans. wp_step. wp_step. cbn [ls_log].
  apply (wp_for (λ k t, ls_log t = l ∧ wrote s (ls_b t) (take k (install_ws s l)))).
  { split; [done |]. by apply wrote_refl. }
  2:{ intros t [E W]. split; [done |]. rewrite take_ge in W; [done |].
      unfold install_ws. rewrite length_imap, length_logged by done. lia. }
  intros k [t l'] Hk [El W]. cbn [ls_log ls_b] in *. subst l'. rewrite (lo_dev l Hl).
  destruct (logged_lookup l k Hl) as (b & Hb & Hb'); [lia |].
  assert (b ∈ logged l) as Hbl by (apply list_elem_of_lookup; eauto).
  destruct (Hlog k) as [[x Hx] Hdx]; [lia |]. destruct (Hdirty b Hbl) as [[y Hy] Hd].
  assert (∀ m, m ∈ (take k (install_ws s l)).*1 → m ∈ logged l ∧ m ≠ b) as Hin.
  { intros m (i & z & Hik & Hz)%take_written. unfold install_ws in Hz. rewrite list_lookup_imap in Hz.
    destruct (logged l !! i) as [c|] eqn:Hc; [|done]. simplify_eq/=. split; [apply list_elem_of_lookup; eauto |].
    intros ->. pose proof (NoDup_lookup _ _ _ _ (lo_nodup l Hl) Hc Hb'). lia. }
  assert (log_blk l k ≠ b) as Hne by (apply home_log_blk; [done | by apply lo_home | lia]).
  assert (log_blk l k ∉ (take k (install_ws s l)).*1) as Hni.
  { intros [Hm _]%Hin. apply (home_log_blk l _ k Hl (lo_home l Hl _ Hm)); [lia | done]. }
  assert (b ∉ (take k (install_ws s l)).*1) as Hnb by (intros [_ Hm]%Hin; done).
  pose proof (wr_spare _ _ _ W) as Hsp.
  pose proof (copy_from_log t (log_blk l k) b x y (wr_inv _ _ _ W) (wr_quiet _ _ _ W)) as C.
  rewrite !(wr_view _ _ _ W), !(wr_dirty _ _ _ W), !apply_writes_out, !bool_decide_eq_false_2 in C by done.
  assert (dirtyv s b = true ∨ (1 < nspare t)%nat) as Hd' by (destruct Hd; [by left | right; lia]).
  assert (0 < nspare t)%nat as Hs' by lia. specialize (C Hs' Hne Hx Hy Hdx Hd').
  lift C. apply wp_bind. eapply wp_intro; [unfold lh_block; simpl; by rewrite Hb |].
  lift C. lift C. lift C. lift C. lift C. lift C. split; [done |].
  rewrite (take_S_r _ _ (b, x)).
  - by eapply wrote_trans.
  - unfold install_ws. rewrite list_lookup_imap, Hb'. simpl. by rewrite Hx.
Qed.

Lemma length_put_head l x : log_ok l → length x = bsize → length (put_head l x) = bsize.
Proof.
  intros Hl Hx. unfold put_head, put32s. rewrite length_splice.
  - rewrite length_put32; [done | rewrite Hx; unfold bsize, BSIZE; lia].
  - rewrite length_le32s, length_logged, length_put32 by (done || (rewrite Hx; unfold bsize, BSIZE; lia)).
    rewrite Hx. pose proof (lo_n l Hl). unfold bsize, BSIZE, LOGSIZE, MAXOPBLOCKS in *. lia.
Qed.

Lemma write_head_spec s l x :
  bc_inv s → nlocked s = 0%nat → (0 < nspare s)%nat → log_ok l → lview s (lg_start l) = Some x →
  wp write_head (Lst s l) (λ _ t, ls_log t = l ∧ wrote s (ls_b t) [(lg_start l, put_head l x)]).
Proof.
  intros Hi Hq Hs Hl Hx. destruct (dblk_on_disk s _ x Hi Hx) as [_ Hlen].
  pose proof (update_spec s (lg_start l) x (put_head l) Hi Hq Hx Hs (length_put_head l x Hl Hlen)) as C.
  unfold write_head. wp_step. wp_step. cbn [ls_log]. rewrite (lo_dev l Hl). lift C.
  pose proof (lo_n l Hl). destruct (Z.ltb_spec LOGSIZE (lg_n l)); [lia |].
  lift C. lift C. lift C. done.
Qed.

(** The header read back. *)
Lemma get_put_head l x :
  log_ok l → length x = bsize →
  get32 (put_head l x) 0 = lg_n l ∧ s32 (get32 (put_head l x) 0) = lg_n l ∧
  get32s (put_head l x) 4 (Z.to_nat (lg_n l)) = logged l.
Proof.
  intros Hl Hx. pose proof (lo_n l Hl) as Hn. pose proof (length_logged l Hl) as Hll.
  assert (length (put32 0 (u32 (lg_n l)) x) = bsize) as Hp.
  { rewrite length_put32; [done | rewrite Hx; unfold bsize, BSIZE; lia]. }
  assert (4 + 4 * length (logged l) ≤ bsize)%nat as Hfit.
  { rewrite Hll. unfold bsize, BSIZE, LOGSIZE, MAXOPBLOCKS in *. lia. }
  unfold LOGSIZE, MAXOPBLOCKS in Hn.
  assert (get32 (put_head l x) 0 = lg_n l) as E0.
    { unfold put_head, put32s. rewrite <- (u32_id (lg_n l)) at 2 by lia.
      rewrite <- (get32_put32 x 0 (u32 (lg_n l))) at 2 by (apply u32_range || (rewrite Hx; unfold bsize, BSIZE; lia)).
      unfold get32. rewrite !byte_at_splice_ne; try done; rewrite ?length_le32s, ?Hp; lia. }
  split_and!; [done | |].
  - rewrite E0. unfold s32. rewrite u32_id by lia. destruct (Z.ltb_spec (lg_n l) (2 ^ 31)); lia.
  - rewrite <- Hll. apply get32s_put32s; [rewrite Hp; lia |].
    apply list.Forall_forall. intros b Hb. by apply (lo_block l Hl).
Qed.

(** ** Commit *)

(** Before a commit no buffer is held, and the dirty blocks are the logged
    ones; [x] is the header block. *)
Record commit_ready (s : bst D) (l : log) (x : list Z) : Prop := CommitReady {
  cr_inv : bc_inv s;
  cr_quiet : nlocked s = 0%nat;
  cr_spare : (0 < nspare s)%nat;
  cr_ok : log_ok l;
  cr_head : lview s (lg_start l) = Some x;
  cr_log i : (i < Z.to_nat (lg_n l))%nat → is_Some (lview s (log_blk l i));
  cr_home b : b ∈ logged l → is_Some (lview s b);
  cr_dirty m : dirtyv s m = true ↔ m ∈ logged l;
}.

Definition home_ws (s : bst D) (l : log) : writes := (λ b, (b, default [] (lview s b))) <$> logged l.
Definition cleared (l : log) : log := set_lh 0 (lg_block l) l.

Definition commit_ws (s : bst D) (l : log) (x : list Z) : writes :=
  log_ws s l ++ [(lg_start l, put_head l x)] ++ home_ws s l ++ [(lg_start l, put_head (cleared l) (put_head l x))].

Lemma log_ok_cleared l : log_ok l → log_ok (cleared l).
Proof.
  intros [H1 H2 H3 H4 H5 H6 H7 H8 H9]. assert (logged (cleared l) = []) as E by done.
  constructor; rewrite ?E; try done; try (intros m Hm%elem_of_nil; done); simpl; try lia.
  constructor.
Qed.

Lemma start_not_home l m : log_ok l → home l m → m ≠ lg_start l.
Proof. intros Hl Hm ->. pose proof (lo_n l Hl). pose proof (lo_size l Hl). unfold home in Hm. lia. Qed.

Lemma log_blk_start l i : log_ok l → (i < Z.to_nat (lg_n l))%nat → log_blk l i ≠ lg_start l.
Proof. intros Hl Hi. rewrite log_blk_eq by done. lia. Qed.

Lemma log_blk_inj l i j :
  log_ok l → (i < Z.to_nat (lg_n l))%nat → (j < Z.to_nat (lg_n l))%nat → log_blk l i = log_blk l j → i = j.
Proof. intros Hl Hi Hj. rewrite !log_blk_eq by done. lia. Qed.

Lemma log_ws_lookup s l i w :
  log_ws s l !! i = Some w → ∃ b, logged l !! i = Some b ∧ w = (log_blk l i, default [] (lview s b)).
Proof. unfold log_ws. rewrite list_lookup_imap. destruct (logged l !! i) eqn:E; simpl; naive_solver. Qed.

(** The blocks written by [write_log]. *)
Lemma log_ws_blocks s l k m :
  log_ok l → m ∈ (take k (log_ws s l)).*1 → ∃ i, (i < Z.to_nat (lg_n l))%nat ∧ m = log_blk l i.
Proof.
  intros Hl (i & x & _ & (b & Hb & [= -> _])%log_ws_lookup)%take_written. exists i. split; [|done].
  apply lookup_lt_Some in Hb. by rewrite length_logged in Hb.
Qed.

Lemma log_ws_home s l k m : log_ok l → home l m → m ∉ (take k (log_ws s l)).*1.
Proof. intros Hl Hm (i & Hi & ->)%log_ws_blocks; [|done]. by eapply home_log_blk. Qed.

Lemma log_ws_start s l k : log_ok l → lg_start l ∉ (take k (log_ws s l)).*1.
Proof. intros Hl (i & Hi & E)%log_ws_blocks; [|done]. by eapply log_blk_start. Qed.

Lemma length_log_ws s l : length (log_ws s l) = length (logged l).
Proof. apply length_imap. Qed.

Lemma log_ws_all s l : take (length (log_ws s l)) (log_ws s l) = log_ws s l.
Proof. by apply take_ge. Qed.

(** After [write_log] the log holds the new contents of the logged blocks. *)
Lemma log_ws_view s l f i b :
  log_ok l → logged l !! i = Some b → apply_writes (log_ws s l) f (log_blk l i) = Some (default [] (lview s b)).
Proof.
  intros Hl Hb. pose proof (length_logged l Hl) as Hll. apply apply_writes_in.
  - apply NoDup_alt. intros j k m. unfold log_ws. rewrite !list_lookup_fmap, !list_lookup_imap.
    destruct (logged l !! j) eqn:Ej, (logged l !! k) eqn:Ek; simpl; intros; simplify_eq.
    apply lookup_lt_Some in Ej, Ek. eapply log_blk_inj; [done | lia | lia | congruence].
  - apply list_elem_of_lookup. exists i. unfold log_ws. by rewrite list_lookup_imap, Hb.
Qed.

(** Installing from a disk that holds the log of [s]. *)
Lemma install_ws_home s t l :
  (∀ i b, logged l !! i = Some b → lview t (log_blk l i) = Some (default [] (lview s b))) →
  install_ws t l = home_ws s l.
Proof.
  intros Hv. apply list_eq. intros i. unfold install_ws, home_ws.
  rewrite list_lookup_imap, list_lookup_fmap. destruct (logged l !! i) as [b|] eqn:E; [|done].
  simpl. by rewrite (Hv i b E).
Qed.

Lemma home_ws_blocks s l : (home_ws s l).*1 = logged l.
Proof. unfold home_ws. rewrite <- list_fmap_compose. apply list_fmap_id. Qed.

Lemma commit_spec s l x :
  commit_ready s l x → 0 < lg_n l →
  wp commit (Lst s l) (λ _ t, ls_log t = cleared l ∧ wrote s (ls_b t) (commit_ws s l x)).
Proof.
  intros [Hi Hq Hs Hl Hx Hlog Hhome Hdirty] Hn. unfold commit. wp_step. wp_step. cbn [ls_log].
  destruct (Z.ltb_spec 0 (lg_n l)); [|lia]. apply wp_bind. eapply wp_mono.
  { apply write_log_spec; try done. intros b Hb. split; [by apply Hhome | by apply Hdirty]. }
  intros [] [s1 l1] [El W1]. cbn [ls_log ls_b] in *. subst l1. pose proof (wr_spare _ _ _ W1) as Hs1.
  apply wp_bind. eapply wp_mono.
  { apply (write_head_spec s1 l x); try apply W1; [lia | done |]. rewrite (wr_view _ _ _ W1), apply_writes_out; [done |].
    rewrite <- log_ws_all. by apply log_ws_start. }
  intros [] [s2 l2] [El W2]. cbn [ls_log ls_b] in *. subst l2. pose proof (wr_spare _ _ _ W2) as Hs2.
  pose proof (wrote_trans _ _ _ _ _ W1 W2) as W12. pose proof (length_logged l Hl) as Hll.
  assert (∀ i b, logged l !! i = Some b → lview s2 (log_blk l i) = Some (default [] (lview s b))) as Hv2.
  { intros i b Hb. rewrite (wr_view _ _ _ W2), apply_writes_out.
    - rewrite (wr_view _ _ _ W1). by apply log_ws_view.
    - simpl. rewrite list_elem_of_singleton. apply log_blk_start; [done |]. apply lookup_lt_Some in Hb. lia. }
  apply wp_bind. eapply wp_mono.
  { apply install_trans_spec; try apply W12; [lia | done | |].
    - intros i Hil. destruct (logged_lookup l i Hl Hil) as (b & _ & Hb). rewrite (Hv2 i b Hb). split; [done |].
      destruct (dirtyv s2 (log_blk l i)) eqn:E; [|done]. rewrite (wr_dirty _ _ _ W12) in E.
      case_bool_decide; [done |]. apply Hdirty in E. exfalso.
      by eapply (home_log_blk l); [done | apply (lo_home l Hl) | |].
    - intros b Hb. rewrite (wr_view _ _ _ W12), (wr_dirty _ _ _ W12). pose proof (lo_home l Hl b Hb) as Hhb.
      split; [by apply apply_writes_some, Hhome |]. left. rewrite bool_decide_eq_false_2; [by apply Hdirty |].
      rewrite fmap_app, elem_of_app. simpl. rewrite list_elem_of_singleton. intros [E|E].
      + rewrite <- log_ws_all in E. by eapply log_ws_home.
      + by eapply start_not_home. }
  intros [] [s3 l3] [El W3]. cbn [ls_log ls_b] in *. subst l3. pose proof (wr_spare _ _ _ W3) as Hs3.
  rewrite (install_ws_home s) in W3 by done. unfold clear_lh. apply wp_bind, wp_modify. cbn [ls_log ls_b].
  fold (cleared l). eapply wp_mono.
  { apply (write_head_spec s3 (cleared l) (put_head l x)); try apply W3; [lia | by apply log_ok_cleared |].
    change (lg_start (cleared l)) with (lg_start l). rewrite (wr_view _ _ _ W3), apply_writes_out.
    - by rewrite (wr_view _ _ _ W2), apply_writes_one, Z.eqb_refl.
    - rewrite home_ws_blocks. intros Hb. by eapply (start_not_home l); [|apply (lo_home l Hl)|]. }
  intros [] [s4 l4] [El W4]. cbn [ls_log ls_b] in *. split; [done |]. unfold commit_ws.
  eapply wrote_trans; [exact W1 |]. eapply wrote_trans; [exact W2 |]. by eapply wrote_trans.
Qed.

(** A commit does not change the file system seen through the cache, and
    makes it what the disk holds. *)
Lemma home_ws_view s l f m :
  (∃ x, commit_ready s l x) → home l m → (m ∉ logged l → f m = dblk (bs_disk s) m) →
  apply_writes (home_ws s l) f m = lview s m.
Proof.
  intros [x [Hi Hq Hs Hl Hx Hlog Hhome Hdirty]] Hm Hf.
  destruct (decide (m ∈ logged l)) as [Hin|Hni].
  - destruct (Hhome m Hin) as [y Hy]. rewrite Hy. apply apply_writes_in; [rewrite home_ws_blocks; apply Hl |].
    apply list_elem_of_fmap. exists m. by rewrite Hy.
  - rewrite apply_writes_out by (by rewrite home_ws_blocks). rewrite Hf by done. apply clean_disk; try done.
    destruct (dirtyv s m) eqn:E; [|done]. by apply Hdirty in E.
Qed.

End LogSpec.
