(* ===== verification/Recover.v ===== *)
(** * Crash recovery ([log.c])

    [boot] is the buffer cache after [binit].  [initlog_spec] gives the writes
    of recovery; [crash_recovery] says that a crash at any point of a commit
    is recovered to the file system before it or after it, and at which write
    the transaction takes effect. *)

From S2P Require Import Prelude Mmu Bytes Disk Bio FsFormat Log LogSpec.

Definition nbuf : nat := Z.to_nat NBUF.

Lemma elem_of_take_incl {A} (x : A) k l : x ∈ take k l → x ∈ l.
Proof. intros Hx. rewrite <- (take_drop k l), elem_of_app. by left. Qed.

Section Recover.
Context {D : Type} `{DiskLaws D, !DiskTrace D}.
Implicit Types s : bst D.

Definition boot (d : D) (pid : Z) : bst D := Bst d (replicate nbuf buf_zero) (rev (seq 0 nbuf)) pid.

Lemma binit_boot d pid : binit (Bst d (replicate nbuf buf_zero) [] pid) = Ok (tt, boot d pid).
Proof. reflexivity. Qed.

Lemma boot_bufs d pid i b : bs_bufs (boot d pid) !! i = Some b → b = buf_zero.
Proof. by intros [-> _]%lookup_replicate. Qed.

Lemma boot_inv d pid : dwf d → bc_inv (boot d pid).
Proof.
  intros Hd. constructor; [done | | intros i j b b' Hb _ Hdev | intros i b Hb | intros i b Hb | intros i b Hb
    | intros i b Hb | intros i b Hb | intros i b Hb]; try (apply boot_bufs in Hb as ->; done).
  intros i. change (bs_lru (boot d pid)) with (rev (seq 0 nbuf)).
  rewrite list_elem_of_In, <- in_rev, <- list_elem_of_In, elem_of_seq.
  change (bs_bufs (boot d pid)) with (replicate nbuf buf_zero). rewrite length_replicate. lia.
Qed.

Lemma boot_bufof d pid n : bufof (boot d pid) n = None.
Proof.
  destruct (bufof (boot d pid) n) as [b|] eqn:E; [|done].
  apply bufof_inv in E as (i & ->%boot_bufs & Hb). by apply is_block_true in Hb as [? _].
Qed.

Lemma boot_view d pid n : lview (boot d pid) n = dblk d n.
Proof. unfold lview. by rewrite boot_bufof. Qed.

Lemma boot_dirty d pid n : dirtyv (boot d pid) n = false.
Proof. unfold dirtyv. by rewrite boot_bufof. Qed.

Lemma boot_counts d pid : nlocked (boot d pid) = 0%nat ∧ nspare (boot d pid) = nbuf.
Proof. done. Qed.

(** ** Recovery *)

Lemma written_none m : bool_decide (m ∈ ([] : list (Z * list Z)).*1) = false.
Proof. apply bool_decide_eq_false_2, not_elem_of_nil. Qed.

Lemma read_spec s n x :
  bc_inv s → nlocked s = 0%nat → (0 < nspare s)%nat → lview s n = Some x → dirtyv s n = false →
  wp (bread 1 n) s (λ i s1, wp (bdata i) s1 (λ y s2, y = x ∧ wp (brelse i) s2 (λ _ s', wrote s s' []))).
Proof.
  intros Hi Hq Hs Hx Hd. eapply wp_mono; [apply bread_spec; try done; [by apply unlocked | right; lia] |].
  intros i s1 (B1 & Hh1 & Hq1 & Hs1 & Hk1 & _).
  pose proof (holds_view s1 i n x _ (w_inv _ _ _ _ _ _ _ _ B1) Hh1) as (b & Hb & _ & _ & _ & Hbx & _).
  unfold bdata. apply wp_bind. eapply wp_intro; [unfold buf_get; by rewrite Hb |]. apply wp_ret. split; [done |].
  eapply wp_mono; [eapply brelse_spec; [apply B1 | done |] |].
  { right. rewrite (proj2 Hk1). rewrite clean_disk; done. }
  intros [] s2 (B2 & Hq2 & Hs2 & Hk2). destruct B1 as [I1 P1 O1 V1 K1 T1 L1], B2 as [I2 P2 O2 V2 K2 T2 L2].
  constructor; try done; try lia.
  - intros m. rewrite V2, V1. unfold apply_writes. simpl. destruct (Z.eqb_spec m n); congruence.
  - intros m. by rewrite Hk2, (proj2 Hk1).
  - intros m. rewrite T2, T1, written_none. destruct (Z.eqb_spec m n); congruence.
  - by rewrite Hk2, (disk_read_log _ _ Hk1).
Qed.

(** The log as [read_head] finds it. *)
Definition loaded (l : log) (x : list Z) : log :=
  let n := s32 (get32 x 0) in set_lh n (splice 0 (get32s x 4 (Z.to_nat n)) (lg_block l)) l.

Lemma recover_spec s l x :
  bc_inv s → nlocked s = 0%nat → (1 < nspare s)%nat → lg_dev l = 1 → lview s (lg_start l) = Some x →
  (∀ m, dirtyv s m = false) → log_ok (loaded l x) →
  (∀ i, (i < Z.to_nat (lg_n (loaded l x)))%nat → is_Some (lview s (log_blk l i))) →
  (∀ b, b ∈ logged (loaded l x) → is_Some (lview s b)) →
  wp recover_from_log (Lst s l) (λ _ t, ls_log t = cleared (loaded l x) ∧
    wrote s (ls_b t) (install_ws s (loaded l x) ++ [(lg_start l, put_head (cleared (loaded l x)) x)])).
Proof.
  intros Hi Hq Hs Hdev Hx Hd Hl Hlog Hhome. unfold recover_from_log. apply wp_bind.
  pose proof (read_spec s (lg_start l) x Hi Hq ltac:(lia) Hx (Hd _)) as C.
  unfold read_head. wp_step. wp_step. cbn [ls_log]. rewrite Hdev.
  lift C. lift C. destruct C as [-> C]. cbv zeta. pose proof (lo_n _ Hl) as Hn.
  destruct (Z.ltb_spec LOGSIZE (s32 (get32 x 0))); [simpl in Hn; lia |].
  apply wp_bind, wp_modify. cbn [ls_log ls_b]. apply wp_zoom.
  eapply wp_mono; [exact C |]. clear C. intros [] s0 W0. change (set_ls_b s0 _) with (Lst s0 (loaded l x)).
  pose proof (wr_spare _ _ _ W0) as Hs0.
  assert (∀ m, lview s0 m = lview s m) as Hv0 by (intros m; by rewrite (wr_view _ _ _ W0)).
  assert (∀ m, dirtyv s0 m = false) as Hd0 by (intros m; by rewrite (wr_dirty _ _ _ W0), written_none).
  apply wp_bind. eapply wp_mono.
  { apply install_trans_spec; try apply W0; [lia | done | |].
    - intros i Hi0. rewrite Hv0, Hd0. split; [by apply Hlog | done].
    - intros b Hb. rewrite Hv0. split; [by apply Hhome | right; lia]. }
  intros [] [s1 l1] [El W1]. cbn [ls_log ls_b] in *. subst l1. pose proof (wr_spare _ _ _ W1) as Hs1.
  assert (install_ws s0 (loaded l x) = install_ws s (loaded l x)) as Ei.
  { apply imap_ext. intros i b _. by rewrite Hv0. }
  rewrite Ei in W1. apply wp_bind, wp_modify. cbn [ls_log ls_b]. fold (cleared (loaded l x)). eapply wp_mono.
  { apply (write_head_spec s1 (cleared (loaded l x)) x); try apply W1; [lia | by apply log_ok_cleared |].
    rewrite (wr_view _ _ _ W1), apply_writes_out; [by rewrite Hv0 |]. rewrite install_ws_blocks.
    intros Hb. by eapply (start_not_home (loaded l x)); [|apply (lo_home _ Hl)|]. }
  intros [] [s2 l2] [El W2]. cbn [ls_log ls_b] in *. split; [done |]. change (lg_start (cleared (loaded l x))) with (lg_start l) in W2.
  eapply (wrote_trans s s0 s2 []); [done |]. by eapply wrote_trans.
Qed.

(** ** The file system a disk stands for

    [f] gives the blocks of a disk, possibly in the middle of a commit. *)

(** The in-memory log before the header is read. *)
Definition boot_log (l : log) : log :=
  Log (lg_start l) (lg_size l) 0 false 1 0 (lg_block log_zero).

Definition found (l : log) (f : Z → option (list Z)) : log := loaded (boot_log l) (default [] (f (lg_start l))).

Definition replay (l : log) (f : Z → option (list Z)) : writes :=
  imap (λ i b, (b, default [] (f (log_blk l i)))) (logged (found l f)).

Definition logical (l : log) (f : Z → option (list Z)) (m : Z) : option (list Z) := apply_writes (replay l f) f m.

Record valid_log (l : log) (f : Z → option (list Z)) : Prop := ValidLog {
  vl_head : ∃ h, f (lg_start l) = Some h ∧ length h = bsize;
  vl_ok : log_ok (found l f);
  vl_log i : (i < Z.to_nat (lg_n (found l f)))%nat → is_Some (f (log_blk l i));
  vl_home b : b ∈ logged (found l f) → is_Some (f b);
}.

Lemma replay_blocks l f : (replay l f).*1 = logged (found l f).
Proof.
  apply list_eq. intros i. unfold replay. rewrite list_lookup_fmap, list_lookup_imap.
  by destruct (logged (found l f) !! i).
Qed.

(** Two disks with the same header find the same log. *)
Lemma found_ext l f g : f (lg_start l) = g (lg_start l) → found l f = found l g.
Proof. unfold found. by intros ->. Qed.

(** An empty header: nothing to replay. *)
Lemma found_empty l f :
  log_ok l → get32 (default [] (f (lg_start l))) 0 = 0 → log_ok (found l f) ∧ logged (found l f) = [] ∧ lg_n (found l f) = 0.
Proof.
  intros Hl E. unfold found, loaded. rewrite E. change (s32 0) with 0. simpl. split_and!; [|done | done].
  pose proof (lo_n l Hl). pose proof (lo_size l Hl). pose proof (lo_start l Hl). pose proof (lo_end l Hl).
  constructor; simpl; try done; try lia.
  - constructor.
  - by intros m ?%elem_of_nil.
  - by intros m ?%elem_of_nil.
Qed.

Lemma logical_empty l f m : logged (found l f) = [] → logical l f m = f m.
Proof. intros E. unfold logical, replay. by rewrite E. Qed.

(** The header of [l] finds [l]'s blocks. *)
Lemma found_head l f x :
  log_ok l → length x = bsize → f (lg_start l) = Some (put_head l x) →
  log_ok (found l f) ∧ logged (found l f) = logged l ∧ lg_n (found l f) = lg_n l.
Proof.
  intros Hl Hx E. destruct (get_put_head l x Hl Hx) as (_ & E1 & E2).
  pose proof (length_logged l Hl) as Hll. pose proof (lo_n l Hl) as Hn. unfold LOGSIZE, MAXOPBLOCKS in Hn.
  assert (lg_n (found l f) = lg_n l) as En by (unfold found, loaded; rewrite E; exact E1).
  assert (lg_block (found l f) = splice 0 (logged l) (lg_block log_zero)) as Eb.
  { unfold found, loaded. rewrite E. simpl. by rewrite E1, E2. }
  assert (logged (found l f) = logged l) as El.
  { unfold logged at 1. rewrite En, Eb. unfold splice. simpl. rewrite <- Hll. apply take_app_length. }
  split_and!; [|done | done]. destruct Hl. constructor; rewrite ?En, ?El; try done.
  rewrite Eb, length_splice; [done |]. rewrite Hll. change (length (lg_block log_zero)) with 30%nat. lia.
Qed.

Lemma replay_ext l f g :
  f (lg_start l) = g (lg_start l) → (∀ i, (i < Z.to_nat (lg_n (found l f)))%nat → f (log_blk l i) = g (log_blk l i)) →
  log_ok (found l f) → replay l f = replay l g.
Proof.
  intros Hs Hb Hl. unfold replay. rewrite <- (found_ext l f g Hs). apply imap_ext. intros i b Hi.
  rewrite Hb; [done |]. apply lookup_lt_Some in Hi. by rewrite length_logged in Hi.
Qed.

(** ** Recovery yields it *)

Lemma readsb_spec s z :
  bc_inv s → nlocked s = 0%nat → (0 < nspare s)%nat → lview s 1 = Some z → dirtyv s 1 = false →
  wp (readsb 1) s (λ sb s', sb = get_superblock z ∧ wrote s s' []).
Proof.
  intros Hi Hq Hs Hz Hd. unfold readsb. apply wp_bind. eapply wp_mono; [by apply (read_spec s 1 z) |].
  intros i s1 C. apply wp_bind. eapply wp_mono; [exact C |]. intros y s2 [-> C2].
  apply wp_bind. eapply wp_mono; [exact C2 |]. intros [] s3 W. by apply wp_ret.
Qed.

(** [initlog] after blocks were only read. *)
Lemma initlog_after l d pid z s :
  dwf d → dblk d 1 = Some z → sb_logstart (get_superblock z) = lg_start l → sb_nlog (get_superblock z) = lg_size l →
  valid_log l (dblk d) → wrote (boot d pid) s [] →
  wp (initlog 1) (Lst s log_zero) (λ _ t, ls_log t = cleared (found l (dblk d)) ∧
    wrote (boot d pid) (ls_b t)
      (replay l (dblk d) ++
        [(lg_start l, put_head (cleared (found l (dblk d))) (default [] (dblk d (lg_start l))))])).
Proof.
  intros Hd Hz Es En [(h & Hh & _) Hl Hlog Hhome] W. destruct (boot_counts d pid) as [_ Hs].
  assert (∀ s1 m, wrote (boot d pid) s1 [] → lview s1 m = dblk d m ∧ dirtyv s1 m = false) as Hq.
  { intros s1 m W1. rewrite (wr_view _ _ _ W1), (wr_dirty _ _ _ W1), written_none. split; [apply boot_view | apply boot_dirty]. }
  unfold initlog. destruct (Z.leb_spec BSIZE (4 + 4 * LOGSIZE)) as [Hb|_]; [done |].
  apply wp_bind, wp_zoom. eapply wp_mono.
  { apply (readsb_spec s z); [apply W | apply W | | rewrite (proj1 (Hq s 1 W)); done | by apply Hq].
    pose proof (wr_spare _ _ _ W) as Hsp. rewrite Hs in Hsp. change nbuf with 30%nat in Hsp. lia. }
  intros sb s1 [-> W0]. apply wp_bind, wp_modify. cbn [ls_b ls_log set_ls_b].
  rewrite Es, En. change (Log _ _ _ _ _ _ _) with (boot_log l).
  pose proof (wrote_trans _ _ _ _ _ W W0) as W1. simpl in W1. pose proof (wr_spare _ _ _ W1) as Hs1. rewrite Hs in Hs1.
  assert (∀ m, lview s1 m = dblk d m) as Hv by (intros m; by apply Hq).
  assert (found l (dblk d) = loaded (boot_log l) h) as Ef by (unfold found; by rewrite Hh).
  rewrite Ef in *. eapply wp_mono.
  { apply (recover_spec s1 (boot_log l) h); try apply W1; try done.
    - change nbuf with 30%nat in Hs1. lia.
    - by rewrite Hv.
    - intros i Hil. rewrite Hv. by apply Hlog.
    - intros b Hb. rewrite Hv. by apply Hhome. }
  intros [] t [El W2]. split; [done |]. rewrite Hh. eapply (wrote_trans _ s1 _ []); [done |].
  assert (install_ws s1 (loaded (boot_log l) h) = replay l (dblk d)) as Er; [|by rewrite Er in W2].
  unfold install_ws, replay. rewrite Ef. apply imap_ext. intros i b _. by rewrite Hv.
Qed.

Lemma initlog_spec l d pid z :
  dwf d → dblk d 1 = Some z → sb_logstart (get_superblock z) = lg_start l → sb_nlog (get_superblock z) = lg_size l →
  valid_log l (dblk d) →
  wp (initlog 1) (Lst (boot d pid) log_zero) (λ _ t, ls_log t = cleared (found l (dblk d)) ∧
    wrote (boot d pid) (ls_b t)
      (replay l (dblk d) ++
        [(lg_start l, put_head (cleared (found l (dblk d))) (default [] (dblk d (lg_start l))))])).
Proof.
  intros Hd Hz Es En Hv. apply (initlog_after l d pid z); try done. apply wrote_refl; [by apply boot_inv | apply boot_counts].
Qed.

(** ** Crashes *)

Lemma commit_ready_disk s l x :
  commit_ready s l x → dblk (bs_disk s) (lg_start l) = Some x ∧ length x = bsize ∧
    (∀ b, b ∈ logged l → is_Some (dblk (bs_disk s) b)).
Proof.
  intros [Hi Hq Hs Hl Hx Hlog Hhome Hdirty]. destruct (dblk_on_disk s _ x Hi Hx) as [_ Hlen]. split_and!; [|done |].
  - rewrite clean_disk; [done | done | done |]. destruct (dirtyv s (lg_start l)) eqn:E; [|done].
    apply Hdirty, (lo_home l Hl) in E. by apply (start_not_home l _ Hl) in E.
  - intros b [y Hy]%Hhome. by eapply dblk_on_disk.
Qed.

(** Before the header is written the disk stands for the old file system. *)
Lemma crash_before s l x k :
  commit_ready s l x → get32 x 0 = 0 → (k ≤ length (logged l))%nat →
  let f := apply_writes (take k (log_ws s l)) (dblk (bs_disk s)) in
  valid_log l f ∧ ∀ m, home l m → logical l f m = dblk (bs_disk s) m.
Proof.
  intros Hc Hz Hk f. destruct (commit_ready_disk s l x Hc) as (Hx & Hlen & _). pose proof (cr_ok _ _ _ Hc) as Hl.
  assert (f (lg_start l) = Some x) as Ex by (unfold f; rewrite apply_writes_out; [done | by apply log_ws_start]).
  destruct (found_empty l f Hl) as (Hok & Hlg & Hn); [by rewrite Ex |]. split.
  - constructor; rewrite ?Hlg, ?Hn; [eauto | done | intros i Hi; simpl in Hi; lia | by intros b ?%elem_of_nil].
  - intros m Hm. rewrite logical_empty by done.
    apply apply_writes_out. by apply log_ws_home.
Qed.

(** Once it is written, the new one. *)
Lemma crash_middle s l x g :
  commit_ready s l x → g (lg_start l) = Some (put_head l x) →
  (∀ i b, logged l !! i = Some b → g (log_blk l i) = Some (default [] (lview s b))) →
  (∀ b, b ∈ logged l → is_Some (g b)) → (∀ m, home l m → m ∉ logged l → g m = dblk (bs_disk s) m) →
  valid_log l g ∧ ∀ m, home l m → logical l g m = lview s m.
Proof.
  intros Hc Hh Hlog Hhome Hrest. destruct (commit_ready_disk s l x Hc) as (Hx & Hlen & Hb).
  pose proof (cr_ok _ _ _ Hc) as Hl. destruct (found_head l g x Hl Hlen Hh) as (Hok & Hlg & Hn). split.
  - constructor; rewrite ?Hlg, ?Hn; [|done | |done].
    + eexists. split; [done |]. by apply length_put_head.
    + intros i Hi. destruct (logged_lookup l i Hl Hi) as (b & _ & E). by rewrite (Hlog i b E).
  - intros m Hm. unfold logical. assert (replay l g = home_ws s l) as ->.
    { apply list_eq. intros i. unfold replay, home_ws. rewrite Hlg, list_lookup_imap, list_lookup_fmap.
      destruct (logged l !! i) as [b|] eqn:E; [|done]. simpl. by rewrite (Hlog i b E). }
    apply home_ws_view; [eauto | done |]. by apply Hrest.
Qed.

Lemma crash_installing s l x j :
  commit_ready s l x →
  let f := apply_writes (log_ws s l ++ [(lg_start l, put_head l x)] ++ take j (home_ws s l)) (dblk (bs_disk s)) in
  valid_log l f ∧ ∀ m, home l m → logical l f m = lview s m.
Proof.
  intros Hc f. destruct (commit_ready_disk s l x Hc) as (Hx & Hlen & Hb). pose proof (cr_ok _ _ _ Hc) as Hl.
  assert (∀ m, m ∈ (take j (home_ws s l)).*1 → m ∈ logged l) as Hsub.
  { intros m. rewrite fmap_take, home_ws_blocks. intros Hm. rewrite <- (take_drop j (logged l)), elem_of_app. by left. }
  apply (crash_middle s l x f Hc).
  - unfold f. rewrite !apply_writes_app, apply_writes_out, apply_writes_one, Z.eqb_refl; [done |].
    intros E%Hsub%(lo_home l Hl). by apply (start_not_home l _ Hl) in E.
  - intros i b Hi. pose proof (lookup_lt_Some _ _ _ Hi) as Hlt. rewrite length_logged in Hlt by done.
    unfold f. rewrite !apply_writes_app, apply_writes_out, apply_writes_one.
    + destruct (Z.eqb_spec (log_blk l i) (lg_start l)) as [E|_]; [by apply log_blk_start in E |]. by apply log_ws_view.
    + intros E%Hsub%(lo_home l Hl). by eapply home_log_blk.
  - intros b Hbl. by apply apply_writes_some, Hb.
  - intros m Hm Hni. unfold f. rewrite !apply_writes_app, apply_writes_out, apply_writes_one by (intros E%Hsub; done).
    destruct (Z.eqb_spec m (lg_start l)) as [E|_]; [by apply (start_not_home l m Hl) in E |].
    apply apply_writes_out. rewrite <- log_ws_all. by apply log_ws_home.
Qed.

Lemma crash_after s l x :
  commit_ready s l x →
  let f := apply_writes (commit_ws s l x) (dblk (bs_disk s)) in
  valid_log l f ∧ ∀ m, home l m → logical l f m = lview s m.
Proof.
  intros Hc f. destruct (commit_ready_disk s l x Hc) as (Hx & Hlen & Hb). pose proof (cr_ok _ _ _ Hc) as Hl.
  assert (f (lg_start l) = Some (put_head (cleared l) (put_head l x))) as Eh.
  { unfold f, commit_ws. by rewrite !apply_writes_app, apply_writes_one, Z.eqb_refl. }
  destruct (found_empty l f Hl) as (Hok & Hlg & Hn).
  { rewrite Eh. destruct (get_put_head (cleared l) (put_head l x)) as [E _];
      [by apply log_ok_cleared | by apply length_put_head | exact E]. }
  split.
  - constructor; rewrite ?Hlg, ?Hn; [|done | intros i Hi; simpl in Hi; lia | by intros b ?%elem_of_nil].
    eexists. split; [done |]. apply length_put_head; [by apply log_ok_cleared | by apply length_put_head].
  - intros m Hm. rewrite logical_empty by done. unfold f, commit_ws. rewrite !apply_writes_app, apply_writes_one.
    destruct (Z.eqb_spec m (lg_start l)) as [E|_]; [by apply (start_not_home l m Hl) in E |].
    apply home_ws_view; [eauto | done |]. intros _. rewrite apply_writes_one.
    destruct (Z.eqb_spec m (lg_start l)) as [E|_]; [by apply (start_not_home l m Hl) in E |].
    apply apply_writes_out. rewrite <- log_ws_all. by apply log_ws_home.
Qed.

(** A crash after any number of the writes of a commit: the disk stands for
    the old file system until the header is written, and for the new one from
    then on. *)
Lemma crash_commit s l x k :
  commit_ready s l x → get32 x 0 = 0 →
  let f := apply_writes (take k (commit_ws s l x)) (dblk (bs_disk s)) in
  valid_log l f ∧ ∀ m, home l m →
    logical l f m = if decide (k ≤ length (logged l))%nat then dblk (bs_disk s) m else lview s m.
Proof.
  intros Hc Hz. pose proof (length_log_ws s l) as HL. case_decide as Hk; cbv zeta.
  { unfold commit_ws. rewrite take_app_le by lia. by apply (crash_before s l x). }
  unfold commit_ws. rewrite take_app_ge by lia. rewrite HL.
  destruct (k - length (logged l))%nat as [|j] eqn:Ej; [lia |].
  change (take (S j) ([?h] ++ ?t)) with ([h] ++ take j t).
  assert (length (home_ws s l) = length (logged l)) as HH by apply length_fmap.
  destruct (decide (j ≤ length (home_ws s l))%nat).
  - rewrite take_app_le by done. by apply crash_installing.
  - rewrite take_ge by (rewrite length_app; simpl; lia). by apply crash_after.
Qed.

(** A crash in the middle of recovery: the disk stands for the same file
    system as before. *)
Lemma crash_recovery l f j :
  log_ok l → valid_log l f →
  let g := apply_writes (take j (replay l f ++
    [(lg_start l, put_head (cleared (found l f)) (default [] (f (lg_start l))))])) f in
  valid_log l g ∧ ∀ m, home l m → logical l g m = logical l f m.
Proof.
  intros Hl0 [(h & Hh & Hlen) Hl Hlog Hhome] g.
  assert (∀ b, b ∈ logged (found l f) → home l b) as Hhm by (intros b Hb; by apply (lo_home _ Hl)).
  destruct (decide (j ≤ length (replay l f))%nat) as [Hj|Hj].
  - assert (g = apply_writes (take j (replay l f)) f) as Eg by (unfold g; by rewrite take_app_le).
    assert (∀ m, m ∉ logged (found l f) → g m = f m) as Hout.
    { intros m Hm. rewrite Eg. apply apply_writes_out. rewrite fmap_take, replay_blocks. intros Hin.
      apply Hm. rewrite <- (take_drop j). apply elem_of_app. by left. }
    assert (g (lg_start l) = f (lg_start l)) as Es.
    { apply Hout. intros Hb%Hhm. by apply (start_not_home l _ Hl0) in Hb. }
    pose proof (found_ext l g f Es) as Ef. split.
    + constructor; rewrite ?Ef; [rewrite Es; eauto | done | |]; intros b Hb; rewrite Eg; by apply apply_writes_some; auto.
    + intros m Hm. unfold logical. rewrite (replay_ext l g f Es).
      * destruct (decide (m ∈ (replay l f).*1)) as [Hin|Hni]; [by apply apply_writes_base |].
        rewrite !apply_writes_out by done. apply Hout. by rewrite <- replay_blocks.
      * intros i Hi. apply Hout. rewrite Ef in Hi. intros Hb. by eapply (home_log_blk (found l f)); [|apply (lo_home _ Hl)|..].
      * by rewrite Ef.
  - assert (g (lg_start l) = Some (put_head (cleared (found l f)) h)) as Eh.
    { unfold g. rewrite take_ge by (rewrite length_app; simpl; lia).
      by rewrite apply_writes_app, apply_writes_one, Z.eqb_refl, Hh. }
    destruct (found_empty l g Hl0) as (Hok & Hlg & Hn).
    { rewrite Eh. destruct (get_put_head (cleared (found l f)) h) as [E _]; [by apply log_ok_cleared | done | exact E]. }
    split.
    + constructor; rewrite ?Hlg, ?Hn; [|done | intros i Hi; simpl in Hi; lia | by intros b ?%elem_of_nil].
      eexists. split; [done |]. apply length_put_head; [by apply log_ok_cleared | done].
    + intros m Hm. rewrite logical_empty by done. unfold g. rewrite take_ge by (rewrite length_app; simpl; lia).
      rewrite apply_writes_app, apply_writes_one.
      by destruct (Z.eqb_spec m (lg_start l)) as [E|_]; [apply (start_not_home l m Hl0) in E |].
Qed.

Lemma valid_log_ext l f g : (∀ m, f m = g m) → valid_log l f → valid_log l g.
Proof.
  intros E [V1 V2 V3 V4]. pose proof (found_ext l f g (E _)) as Ef. constructor; rewrite <- ?Ef.
  - by rewrite <- E.
  - done.
  - intros i Hi. rewrite <- E. by apply V3.
  - intros b Hb. rewrite <- E. by apply V4.
Qed.

Lemma logical_ext l f g m : (∀ m, f m = g m) → logical l f m = logical l g m.
Proof.
  intros E. pose proof (found_ext l f g (E _)) as Ef. unfold logical.
  assert (replay l f = replay l g) as ->; [|by apply apply_writes_ext].
  unfold replay. rewrite Ef. apply imap_ext. intros i b _. by rewrite E.
Qed.

(** Booting from a disk recovers what it stands for. *)
Lemma boot_recovers l d pid z :
  dwf d → dblk d 1 = Some z → sb_logstart (get_superblock z) = lg_start l → sb_nlog (get_superblock z) = lg_size l →
  log_ok l → valid_log l (dblk d) →
  wp (initlog 1) (Lst (boot d pid) log_zero) (λ _ t,
    ∀ m, home l m → dblk (bs_disk (ls_b t)) m = logical l (dblk d) m).
Proof.
  intros Hd Hz Es En Hl Hv. eapply wp_mono; [by apply (initlog_spec l d pid z) |]. intros [] t [_ W] m Hm.
  rewrite (wr_disk _ _ _ W), apply_writes_app, apply_writes_one.
  by destruct (Z.eqb_spec m (lg_start l)) as [E|_]; [apply (start_not_home l m Hl) in E |].
Qed.

(** A commit that runs to its end puts every block in place. *)
Lemma commit_home s l x m :
  commit_ready s l x → home l m → apply_writes (commit_ws s l x) (dblk (bs_disk s)) m = lview s m.
Proof.
  intros Hc Hm. pose proof (cr_ok _ _ _ Hc) as Hl. pose proof (start_not_home l m Hl Hm) as Hne. unfold commit_ws.
  rewrite !apply_writes_app, apply_writes_one. destruct (Z.eqb_spec m (lg_start l)); [done |].
  apply home_ws_view; [by exists x | done |]. intros _. rewrite apply_writes_one.
  destruct (Z.eqb_spec m (lg_start l)); [done |]. apply apply_writes_out. rewrite <- log_ws_all.
  by apply log_ws_home.
Qed.

(** A block that is not part of the transaction is not written, neither by
    recovery nor by a commit. *)
Lemma recovery_out l f j x m :
  log_ok l → home l m → m ∉ logged (found l f) →
  apply_writes (take j (replay l f ++ [(lg_start l, x)])) f m = f m.
Proof.
  intros Hl Hm Hni. apply apply_writes_out. rewrite fmap_take. intros Hin%elem_of_take_incl.
  rewrite fmap_app, elem_of_app, replay_blocks in Hin. simpl in Hin. rewrite list_elem_of_singleton in Hin.
  pose proof (start_not_home l m Hl Hm). tauto.
Qed.


Lemma commit_ws_out s l x k m :
  log_ok l → home l m → m ∉ logged l → apply_writes (take k (commit_ws s l x)) (dblk (bs_disk s)) m = dblk (bs_disk s) m.
Proof.
  intros Hl Hm Hni. apply apply_writes_out. rewrite fmap_take. intros Hin.
  assert (m ∈ (commit_ws s l x).*1) as Hc.
  { rewrite <- (take_drop k (commit_ws s l x)), fmap_app, elem_of_app, fmap_take. by left. }
  unfold commit_ws in Hc. rewrite !fmap_app, !elem_of_app, home_ws_blocks in Hc. simpl in Hc.
  rewrite list_elem_of_singleton in Hc. pose proof (start_not_home l m Hl Hm).
  rewrite <- log_ws_all in Hc. pose proof (log_ws_home s l (length (log_ws s l)) m Hl Hm). tauto.
Qed.

End Recover.
