(* ===== verification/LogOps.v ===== *)
(** * Transactions ([log.c])

    [log_write] adds a block to the transaction, once; [begin_op] reserves
    room for it.  [Reserve] is the log as a state machine of [begin_op],
    [log_write] and [end_op] steps. *)

From S2P Require Import Prelude Mmu Bytes Disk Bio FsFormat Log LogSpec.

(** ** [log_write] *)

Lemma logged_put n l :
  log_ok l → lg_n l < LOGSIZE → logged (log_put n l) = if decide (n ∈ logged l) then logged l else logged l ++ [n].
Proof.
  intros Hl Hn. pose proof (length_logged l Hl) as Hll. pose proof (lo_n l Hl). unfold log_put, log_slot.
  destruct (list_find _ (logged l)) as [[i b]|] eqn:E; simpl.
  - apply list_find_Some in E as (Hb & -> & _). pose proof (lookup_lt_Some _ _ _ Hb) as Hi.
    rewrite decide_True by (apply list_elem_of_lookup; eauto).
    destruct (Nat.eqb_spec i (Z.to_nat (lg_n l))); [lia |]. unfold logged. simpl.
    rewrite list_insert_id; [done |]. unfold logged in Hb. by rewrite lookup_take_lt in Hb by lia.
  - apply list_find_None in E. rewrite list.Forall_forall in E.
    rewrite decide_False by (intros Hin; by apply (E n)). rewrite Nat.eqb_refl. unfold logged. simpl.
    replace (Z.to_nat (lg_n l + 1)) with (S (Z.to_nat (lg_n l))) by lia.
    rewrite (take_S_r _ _ n).
    + by rewrite take_insert_ge by lia.
    + apply list_lookup_insert_eq. rewrite (lo_len l Hl). lia.
Qed.

Lemma lg_n_put n l :
  log_ok l → lg_n (log_put n l) = if decide (n ∈ logged l) then lg_n l else lg_n l + 1.
Proof.
  intros Hl. pose proof (length_logged l Hl) as Hll. pose proof (lo_n l Hl). unfold log_put, log_slot.
  destruct (list_find _ (logged l)) as [[i b]|] eqn:E; simpl.
  - apply list_find_Some in E as (Hb & -> & _). pose proof (lookup_lt_Some _ _ _ Hb) as Hi.
    rewrite decide_True by (apply list_elem_of_lookup; eauto). destruct (Nat.eqb_spec i (Z.to_nat (lg_n l))); [lia | done].
  - apply list_find_None in E. rewrite list.Forall_forall in E.
    rewrite decide_False by (intros Hin; by apply (E n)). by rewrite Nat.eqb_refl.
Qed.

Lemma log_ok_put n l :
  log_ok l → lg_n l < LOGSIZE → lg_n l < lg_size l - 1 → home l n → 0 ≤ n < 2 ^ 32 → log_ok (log_put n l).
Proof.
  intros Hl H1 H2 Hh Hr. pose proof (logged_put n l Hl H1) as Hp. pose proof (lg_n_put n l Hl) as Hn.
  pose proof (lo_n l Hl) as Hn0. pose proof (lo_home l Hl) as Hlh. pose proof (lo_block l Hl) as Hlb. constructor; try apply Hl.
  - rewrite Hn. case_decide; lia.
  - simpl. rewrite length_insert. apply Hl.
  - rewrite Hn. simpl. case_decide; lia.
  - rewrite Hp. case_decide; [apply Hl |]. apply list.NoDup_app. split_and!; [apply Hl | | apply NoDup_singleton].
    intros m Hm ->%list_elem_of_singleton. done.
  - intros m. rewrite Hp. case_decide; [apply Hlh |]. rewrite elem_of_app, list_elem_of_singleton.
    intros [Hm| ->]; [by apply Hlh | done].
  - intros m. rewrite Hp. case_decide; [apply Hlb |]. rewrite elem_of_app, list_elem_of_singleton.
    intros [Hm| ->]; [by apply Hlb | done].
Qed.

Section LogOps.
Context {D : Type} `{DiskLaws D}.
Implicit Types s : bst D.

(** Marking a held buffer dirty. *)
Lemma mark_dirty_spec s i n x d :
  bc_inv s → holds s i n x d →
  wp (buf_upd i (λ b, set_flags (b_valid b) true b)) s (λ _ s',
    bstep s s' i n (Some x) (dblk (bs_disk s) n) true true ∧ holds s' i n x true ∧
    nlocked s' = nlocked s ∧ (nspare s ≤ S (nspare s'))%nat ∧ (d = true → nspare s' = nspare s) ∧ bs_disk s' = bs_disk s).
Proof.
  intros Hi Hh. destruct (holds_view s i n x d Hi Hh) as
    (b & Hb & Hbo & Hblk & Hv & Hx & Hd & Hlk & Hlock & Hr & _ & _ & _ & Hdisk).
  pose proof Hblk as [Hdev Hn]%is_block_true. pose proof (lookup_lt_Some _ _ _ Hb) as Hlt.
  eapply wp_intro; [by apply buf_upd_ok |]. cbv beta. rewrite Hv. set (b' := set_flags true true b).
  assert (bc_inv (set_bufs (<[i := b']> (bs_bufs s)) s)) as Hi'.
  { eapply bc_inv_upd; try done; simpl; try (by rewrite ?Hx, ?Hn); try lia.
    - by eapply (bi_len s).
    - intros _ j c Hne Hc Hdc Hnc. destruct Hne. eapply (bi_uniq s); try done; congruence. }
  pose proof (cnt_insert is_locked (bs_bufs s) i b b' Hb) as E1.
  pose proof (cnt_insert is_spare (bs_bufs s) i b b' Hb) as E2.
  change (is_locked b') with (is_locked b) in E1. assert (is_spare b' = false) as E3 by done. rewrite E3 in E2. cbv iota in E2.
  split_and!.
  - rewrite <- Hx. change true with (b_dirty b') at 1. rewrite <- Hlk. by apply (views_upd s i n b b').
  - exists b'. split_and!; try done. by apply list_lookup_insert_eq.
  - unfold nlocked. simpl. destruct (is_locked b); lia.
  - unfold nspare. simpl. destruct (is_spare b); lia.
  - intros ->. unfold nspare. simpl. assert (is_spare b = false) as E4 by (unfold is_spare; by rewrite Hd).
    rewrite E4 in E2. lia.
  - done.
Qed.

(** [log_write] records the block, once, and marks it dirty; what the cache
    shows does not change. *)
Lemma log_write_spec s l i n x d :
  bc_inv s → holds s i n x d → log_ok l → lg_n l < LOGSIZE → lg_n l < lg_size l - 1 → 1 ≤ lg_outstanding l →
  home l n → 0 ≤ n < 2 ^ 32 →
  wp (log_write i) (Lst s l) (λ _ t, ls_log t = log_put n l ∧
    bstep s (ls_b t) i n (Some x) (dblk (bs_disk s) n) true true ∧ holds (ls_b t) i n x true ∧
    nlocked (ls_b t) = nlocked s ∧ (nspare s ≤ S (nspare (ls_b t)))%nat ∧
    (d = true → nspare (ls_b t) = nspare s) ∧ bs_disk (ls_b t) = bs_disk s).
Proof.
  intros Hi Hh Hl H1 H2 H3 Hn Hr. unfold log_write. wp_step. wp_step. cbn [ls_log].
  assert (s32 (lg_size l) = lg_size l) as ->.
  { pose proof (lo_n l Hl). pose proof (lo_size l Hl). pose proof (lo_start l Hl). pose proof (lo_end l Hl).
    unfold s32. rewrite u32_id by lia. destruct (Z.ltb_spec (lg_size l) (2 ^ 31)); lia. }
  destruct (Z.leb_spec LOGSIZE (lg_n l)); [lia |]. destruct (Z.leb_spec (lg_size l - 1) (lg_n l)); [lia |]. simpl.
  destruct (Z.ltb_spec (lg_outstanding l) 1); [lia |].
  destruct (holds_view s i n x d Hi Hh) as (b & Hb & _ & [_ Hbn]%is_block_true & _).
  apply wp_bind, wp_zoom. eapply wp_intro; [unfold buf_get; simpl; by rewrite Hb |]. cbn [set_ls_b ls_b ls_log].
  rewrite Hbn. apply wp_bind, wp_modify, wp_zoom. cbn [ls_b ls_log]. eapply wp_mono; [by eapply mark_dirty_spec |].
  intros [] s' HB. done.
Qed.

(** ** Reservation

    Operations in progress, with the number of blocks each may still add. *)

Abbreviation quotas := (list nat).
Definition total (qs : quotas) : nat := foldr Nat.add 0%nat qs.

(** The computation leaves the log alone. *)
Definition keeps_log {A} (c : M (lst D) A) : Prop := ∀ t a t', c t = Ok (a, t') → ls_log t' = ls_log t.

Lemma keeps_on_b {A} (c : M (bst D) A) : keeps_log (on_b c).
Proof. intros t a t'. unfold on_b, zoom. destruct (c (ls_b t)) as [[]|]; [|done]. by intros [= <- <-]. Qed.

Lemma keeps_bind {A B} (c : M (lst D) A) (k : A → M (lst D) B) :
  keeps_log c → (∀ a, keeps_log (k a)) → keeps_log (c ≫= k).
Proof. intros Hc Hk t b t' (a & t1 & E1 & E2)%bind_inv. rewrite (Hk a _ _ _ E2). by eapply Hc. Qed.

Lemma keeps_lh_block i : keeps_log (lh_block (D := D) i).
Proof. intros t a t'. unfold lh_block. destruct (lg_block (ls_log t) !! i); [|done]. by intros [= _ <-]. Qed.

Lemma keeps_for n i body : (∀ k, keeps_log (body k)) → keeps_log (for_ (T := lst D) n i body).
Proof.
  intros Hb. revert i. induction n as [|n IH]; intros i; cbn [for_]; [by intros t a t' [= _ <-] |].
  by apply keeps_bind.
Qed.

Lemma keeps_gets {A} (f : lst D → A) : keeps_log (gets f).
Proof. by intros t a t' [= _ <-]. Qed.

Lemma keeps_raise {A} e : keeps_log (raise e : M (lst D) A).
Proof. done. Qed.

Create HintDb keeps.
#[local] Hint Resolve keeps_on_b keeps_lh_block keeps_gets keeps_raise : keeps.

Ltac keeps :=
  repeat match goal with
  | |- ∀ _, _ => intros ?
  | |- keeps_log (_ ≫= _) => apply keeps_bind
  | |- keeps_log (for_ _ _ _) => apply keeps_for
  | |- keeps_log (if ?b then _ else _) => destruct b
  | |- _ => solve [auto with keeps]
  end.

Lemma keeps_write_log : keeps_log (write_log (D := D)).
Proof. unfold write_log. keeps. Qed.
Lemma keeps_install_trans : keeps_log (install_trans (D := D)).
Proof. unfold install_trans. keeps. Qed.
Lemma keeps_write_head : keeps_log (write_head (D := D)).
Proof. unfold write_head. keeps. Qed.

(** A commit empties the in-memory log. *)
Lemma commit_empties (t t' : lst D) :
  commit t = Ok (tt, t') → 0 ≤ lg_n (ls_log t) → ls_log t' = cleared (ls_log t).
Proof.
  unfold commit. erewrite bind_ok by reflexivity. intros E Hn. destruct (Z.ltb_spec 0 (lg_n (ls_log t))).
  - apply bind_inv in E as ([] & t1 & E1%keeps_write_log & E). apply bind_inv in E as ([] & t2 & E2%keeps_write_head & E).
    apply bind_inv in E as ([] & t3 & E3%keeps_install_trans & E). apply bind_inv in E as ([] & t4 & E4 & E5%keeps_write_head).
    injection E4 as <-. rewrite E5. simpl. by rewrite E3, E2, E1.
  - injection E as <-. unfold cleared, set_lh. destruct (ls_log t). simpl in *. f_equal. lia.
Qed.

Inductive op_step : lst D * quotas → lst D * quotas → Prop :=
| op_begin t t' qs : begin_op t = Ok (tt, t') → op_step (t, qs) (t', Z.to_nat MAXOPBLOCKS :: qs)
| op_write t t' qs i b q : log_write b t = Ok (tt, t') → qs !! i = Some (S q) → op_step (t, qs) (t', <[i := q]> qs)
| op_cache {A} (c : M (bst D) A) a t t' qs : on_b c t = Ok (a, t') → op_step (t, qs) (t', qs)
| op_end t t' qs i q : end_op t = Ok (tt, t') → qs !! i = Some q → op_step (t, qs) (t', delete i qs).

Record op_inv (w : lst D * quotas) : Prop := OpInv {
  oi_ok : length (lg_block (ls_log w.1)) = Z.to_nat LOGSIZE;
  oi_n : 0 ≤ lg_n (ls_log w.1);
  oi_ops : lg_outstanding (ls_log w.1) = Z.of_nat (length w.2);
  oi_quota q : q ∈ w.2 → (q ≤ Z.to_nat MAXOPBLOCKS)%nat;
  oi_room : lg_n (ls_log w.1) + Z.of_nat (total w.2) ≤ LOGSIZE;
}.

Lemma sum_quotas i q (qs : quotas) : qs !! i = Some q → (total (delete i qs) + q = total qs)%nat.
Proof.
  revert i. induction qs as [|p qs IH]; intros [|i] Hi; simplify_eq/=; [lia |]. specialize (IH i Hi). lia.
Qed.

Lemma sum_quotas_insert i q q' (qs : quotas) :
  qs !! i = Some q → (total (<[i := q']> qs) + q = total qs + q')%nat.
Proof.
  revert i. induction qs as [|p qs IH]; intros [|i] Hi; simplify_eq/=; [lia |]. specialize (IH i Hi). lia.
Qed.

Lemma sum_quotas_bound (qs : quotas) k : (∀ q, q ∈ qs → (q ≤ k)%nat) → (total qs ≤ length qs * k)%nat.
Proof.
  induction qs as [|p qs IH]; intros Hq; simpl; [lia |]. specialize (IH (λ q Hin, Hq q ltac:(by right))).
  specialize (Hq p ltac:(by left)). lia.
Qed.

Lemma log_put_n b l : 0 ≤ lg_n l → lg_n l ≤ lg_n (log_put b l) ≤ lg_n l + 1.
Proof. intros Hn. unfold log_put. simpl. destruct (_ =? _)%nat; lia. Qed.

Lemma op_step_inv (s s' : lst D * quotas) : op_inv s → op_step s s' → op_inv s'.
Proof.
  intros [O1 O2 O3 O4 O5] Hs. destruct Hs as [t t' qs E|t t' qs i b q E Hi|A c a t t' qs E|t t' qs i q E Hi]; simpl in *.
  - unfold begin_op in E. erewrite bind_ok in E by reflexivity. destruct (lg_committing _); [done |].
    destruct (Z.ltb_spec LOGSIZE (lg_n (ls_log t) + (lg_outstanding (ls_log t) + 1) * MAXOPBLOCKS)); [done |].
    injection E as <-. pose proof (sum_quotas_bound qs _ O4) as Hb. unfold MAXOPBLOCKS in *.
    constructor; simpl; try done; try lia. intros q [->|Hq]%elem_of_cons; [done | by apply O4].
  - apply bind_inv in E as (l & t0 & [= <- <-] & E). destruct (_ || _); [done |]. destruct (_ <? 1); [done |].
    apply bind_inv in E as (bb & t1 & E1%keeps_on_b & E). apply bind_inv in E as ([] & t2 & [= <-] & E%keeps_on_b).
    simpl in E. pose proof (sum_quotas_insert i (S q) q qs Hi) as Hsum.
    pose proof (log_put_n (b_blockno bb) (ls_log t) O2) as Hn. rewrite E1 in E. constructor; simpl; rewrite ?E.
    + simpl. by rewrite length_insert.
    + lia.
    + by rewrite length_insert.
    + intros p (j & Hj)%list_elem_of_lookup. apply list_lookup_insert_Some in Hj as [(_ & <- & _)|[_ Hj]].
      * specialize (O4 (S q) ltac:(apply list_elem_of_lookup; eauto)). lia.
      * apply O4, list_elem_of_lookup. eauto.
    + lia.
  - apply keeps_on_b in E. constructor; simpl; rewrite ?E; done.
  - pose proof (sum_quotas i q qs Hi) as Hsum. pose proof (length_delete qs i ltac:(eauto)) as Hlen.
    pose proof (lookup_lt_Some _ _ _ Hi) as Hlt.
    assert (∀ p, p ∈ delete i qs → (p ≤ Z.to_nat MAXOPBLOCKS)%nat) as Hq.
    { intros p Hp. apply O4. rewrite <- (take_drop_middle qs i q Hi). rewrite delete_take_drop, elem_of_app in Hp.
      rewrite elem_of_app, elem_of_cons. tauto. }
    unfold end_op in E. apply bind_inv in E as ([] & t1 & [= <-] & E). erewrite bind_ok in E by reflexivity. simpl in E.
    destruct (lg_committing _); [done |]. destruct (Z.eqb_spec (lg_outstanding (ls_log t) - 1) 0).
    + apply bind_inv in E as ([] & t2 & [= <-] & E). apply bind_inv in E as ([] & t3 & E%commit_empties & [= <-]); [|done].
      simpl in E. constructor; simpl; rewrite ?E; simpl; try done; try lia.
    + injection E as <-. constructor; simpl; try done; try lia.
Qed.

(** The operations in progress never overfill an on-disk log with room
    for [LOGSIZE] blocks: as long as an operation keeps to its quota,
    [log_write] does not find the log full. *)
Lemma log_never_full (s0 s : lst D * quotas) i q :
  op_inv s0 → rtc op_step s0 s → LOGSIZE < s32 (lg_size (ls_log s.1)) → s.2 !! i = Some (S q) →
  (LOGSIZE <=? lg_n (ls_log s.1)) || (s32 (lg_size (ls_log s.1)) - 1 <=? lg_n (ls_log s.1)) = false.
Proof.
  intros Hi0 Hr Hsz Hq. assert (op_inv s) as [O1 O2 O3 O4 O5].
  { clear Hsz Hq. induction Hr; [done |]. eauto using op_step_inv. }
  pose proof (sum_quotas i _ _ Hq). apply orb_false_iff. rewrite !Z.leb_gt. lia.
Qed.

End LogOps.

(** ** A log that is too small

    [begin_op] counts on [LOGSIZE] blocks; with [size = LOGSIZE] the log on disk
    has room for one less, the header being one of them. *)

Section Small.
Context {D : Type}.

Definition log_all (bs : list nat) : M (lst D) unit := foldr (λ i c, log_write i;; c) (mret tt) bs.

Lemma logged_fresh n l :
  length (lg_block l) = Z.to_nat LOGSIZE → 0 ≤ lg_n l < LOGSIZE → n ∉ logged l →
  lg_n (log_put n l) = lg_n l + 1 ∧ logged (log_put n l) = logged l ++ [n].
Proof.
  intros Hl Hn Hin. assert (length (logged l) = Z.to_nat (lg_n l)) as Hll by (unfold logged; rewrite length_take; lia).
  unfold log_put, log_slot. destruct (list_find _ (logged l)) as [[i b]|] eqn:E; simpl.
  { apply list_find_Some in E as (Hb & -> & _). destruct Hin. apply list_elem_of_lookup. eauto. }
  rewrite Nat.eqb_refl. split; [done |]. unfold logged. simpl.
  replace (Z.to_nat (lg_n l + 1)) with (S (Z.to_nat (lg_n l))) by lia. rewrite (take_S_r _ _ n).
  - by rewrite take_insert_ge by lia.
  - apply list_lookup_insert_eq. lia.
Qed.

(** The numbers of the blocks in the buffers [bs]. *)
Definition in_bufs (t : lst D) (bs : list nat) (ns : list Z) : Prop :=
  Forall2 (λ i n, ∃ b, bs_bufs (ls_b t) !! i = Some b ∧ b_blockno b = n) bs ns.

Lemma in_bufs_dirty (t : lst D) i b l bs ns :
  bs_bufs (ls_b t) !! i = Some b → in_bufs t bs ns →
  in_bufs (Lst (set_bufs (<[i := set_flags (b_valid b) true b]> (bs_bufs (ls_b t))) (ls_b t)) l) bs ns.
Proof.
  intros Hb. apply Forall2_impl. intros j n (c & Hc & <-). cbn [ls_b set_bufs bs_bufs].
  destruct (decide (j = i)) as [->|]; [|exists c; by rewrite list_lookup_insert_ne].
  rewrite list_lookup_insert_eq by (by eapply lookup_lt_Some). simplify_eq. eauto.
Qed.

(** [log_write] of a new block, with the log not full. *)
Lemma log_write_fresh (t : lst D) i b :
  let l := ls_log t in
  length (lg_block l) = Z.to_nat LOGSIZE → 0 ≤ lg_n l < LOGSIZE - 1 → lg_size l = LOGSIZE → 1 ≤ lg_outstanding l →
  bs_bufs (ls_b t) !! i = Some b →
  log_write i t = Ok (tt, Lst (set_bufs (<[i := set_flags (b_valid b) true b]> (bs_bufs (ls_b t))) (ls_b t)) (log_put (b_blockno b) l)).
Proof.
  intros l Hl Hn Hs Ho Hb. unfold log_write. erewrite bind_ok by reflexivity. fold l. rewrite Hs. change (s32 LOGSIZE) with LOGSIZE.
  destruct (Z.leb_spec LOGSIZE (lg_n l)); [lia |]. destruct (Z.leb_spec (LOGSIZE - 1) (lg_n l)); [lia |]. simpl.
  destruct (Z.ltb_spec (lg_outstanding l) 1); [lia |].
  unfold mbind, M_bind, on_b, zoom, buf_get, upd_log, modify, buf_upd, mret, M_ret. rewrite Hb. simpl.
  unfold mbind, M_bind, buf_get, modify. simpl. by rewrite Hb.
Qed.

Lemma log_all_panics bs ns (t : lst D) :
  let l := ls_log t in
  length (lg_block l) = Z.to_nat LOGSIZE → 0 ≤ lg_n l ≤ LOGSIZE - 1 → lg_size l = LOGSIZE → 1 ≤ lg_outstanding l →
  in_bufs t bs ns → NoDup (logged l ++ ns) → LOGSIZE ≤ lg_n l + Z.of_nat (length bs) →
  log_all bs t = Err (EPanic "too big a transaction").
Proof.
  revert ns t. induction bs as [|i bs IH]; intros ns t l Hl Hn Hs Ho Hb Hnd Hc; [simpl in Hc; lia |].
  apply Forall2_cons_inv_l in Hb as (n & ns' & (b & Hb & <-) & Hbs & ->).
  change (log_all (i :: bs) t) with ((log_write i;; log_all bs) t). destruct (decide (lg_n l = LOGSIZE - 1)) as [E|].
  { unfold log_write, mbind at 1, M_bind at 1. erewrite bind_ok by reflexivity. fold l. rewrite Hs, E. reflexivity. }
  erewrite bind_ok; [|apply log_write_fresh; done || (fold l; lia)]. fold l.
  assert (b_blockno b ∉ logged l) as Hin.
  { intros Hin. apply list.NoDup_app in Hnd as (_ & Hd & _). by apply (Hd _ Hin), list_elem_of_here. }
  destruct (logged_fresh _ l Hl ltac:(lia) Hin) as [E1 E2].
  apply (IH ns'); cbn [ls_log]; rewrite ?E1, ?E2; try done; try lia.
  - simpl. by rewrite length_insert.
  - by apply in_bufs_dirty.
  - by rewrite <- app_assoc.
  - simpl in Hc. lia.
Qed.
End Small.
