(* ===== verification/FsTx.v ===== *)
(** * Blocks of a transaction

    Between [begin_op] and [end_op] the file system reads and changes blocks
    through the buffer cache; [tx f lk t] says that it sees the blocks [f] and
    holds the buffers of the blocks [lk].  Each step of [bread], change of
    the data, [log_write] and [brelse] is specified by what it does to
    them. *)

From S2P Require Import Prelude Mmu Bytes Disk Bio FsFormat Log LogSpec LogOps.

(** Blocks the log has room for. *)
Definition room (l : log) : Z := Z.min LOGSIZE (lg_size l - 1) - lg_n l.

Section FsTx.
Context {D : Type} `{DiskLaws D}.

Record tx (f : Z → option (list Z)) (lk : list Z) (t : lst D) : Prop := Tx {
  tx_inv : bc_inv (ls_b t);
  tx_log : log_ok (ls_log t);
  tx_out : 1 ≤ lg_outstanding (ls_log t);
  tx_view m : lview (ls_b t) m = f m;
  tx_lock m : lockedv (ls_b t) m = bool_decide (m ∈ lk);
  tx_nlock : nlocked (ls_b t) = length lk;
  tx_dirty m : dirtyv (ls_b t) m = bool_decide (m ∈ logged (ls_log t));
  tx_spare : (3 ≤ nspare (ls_b t))%nat;
}.

(** Buffers for the blocks of the transaction and those that are read *)
Definition bufs (t : lst D) : Z := Z.of_nat (nspare (ls_b t)) + lg_n (ls_log t).

(** There is room for the blocks [B], and one more, in the log and in the cache. *)
Definition fits (t : lst D) (B : list Z) : Prop :=
  Z.of_nat (size (list_to_set (logged (ls_log t) ++ B) : gset Z)) <
    Z.min (Z.min LOGSIZE (lg_size (ls_log t) - 1)) (bufs t - 2).

Lemma fits_sub t B B' : (∀ m, m ∈ B' → m ∈ logged (ls_log t) ∨ m ∈ B) → fits t B → fits t B'.
Proof.
  unfold fits. intros Hs Hf. eapply Z.le_lt_trans; [|exact Hf]. apply inj_le, subseteq_size.
  intros m. rewrite !elem_of_list_to_set, !elem_of_app. intros [?|?%Hs]; tauto.
Qed.

Lemma fits_room t n :
  log_ok (ls_log t) → fits t [n] →
  0 < room (ls_log t) ∧ (n ∉ logged (ls_log t) → (4 ≤ nspare (ls_b t))%nat).
Proof.
  intros Hl Hf. pose proof (lo_n _ Hl) as Hn. split.
  - apply (fits_sub _ _ []) in Hf; [|by intros m ?%elem_of_nil]. unfold fits, room in *.
    rewrite app_nil_r, size_list_to_set, (length_logged _ Hl) in Hf by apply Hl. lia.
  - intros Hin. unfold fits, bufs in Hf. rewrite size_list_to_set, length_app, (length_logged _ Hl) in Hf.
    + simpl in Hf. lia.
    + apply list.NoDup_app. split_and!; [apply Hl | | apply NoDup_singleton].
      intros m Hm ->%list_elem_of_singleton. done.
Qed.

(** Buffer [i] is held, with block [n] and contents [x]. *)
Definition held (t : lst D) (i : nat) (n : Z) (x : list Z) : Prop := ∃ d, holds (ls_b t) i n x d.

(** The disk does not change before the commit. *)
Definition same_disk (t t' : lst D) : Prop :=
  (∀ n, dblk (bs_disk (ls_b t')) n = dblk (bs_disk (ls_b t)) n) ∧ bs_pid (ls_b t') = bs_pid (ls_b t).

#[export] Instance same_disk_preorder : PreOrder same_disk.
Proof.
  split; [done |]. intros t1 t2 t3 [H1 H2] [H3 H4]. split; [|congruence]. intros n. by rewrite H3, H1.
Qed.

Lemma same_disk_eq t t' :
  bs_disk (ls_b t') = bs_disk (ls_b t) → bs_pid (ls_b t') = bs_pid (ls_b t) → same_disk t t'.
Proof. intros H1 H2. split; [|done]. intros n. by rewrite H1. Qed.

Lemma held_ne t i j n m x y : held t i n x → held t j m y → m ≠ n → j ≠ i.
Proof.
  intros (d & b & Hb & _ & _ & Hn & _) (d' & b' & Hb' & _ & _ & Hm & _) Hne ->. simplify_eq.
Qed.

Lemma tx_held f lk t i n x : tx f lk t → held t i n x → f n = Some x ∧ n ∈ lk ∧ length x = bsize ∧
  holds (ls_b t) i n x (bool_decide (n ∈ logged (ls_log t))).
Proof.
  intros Ht (d & Hh). pose proof (tx_inv _ _ _ Ht) as Hi.
  destruct (holds_view _ _ _ _ _ Hi Hh) as (b & Hb & _ & _ & _ & Hbx & _ & _ & _ & _ & Hv & Hd & Hl & _).
  rewrite (tx_view _ _ _ Ht) in Hv. rewrite (tx_dirty _ _ _ Ht) in Hd. rewrite (tx_lock _ _ _ Ht) in Hl.
  apply bool_decide_eq_true in Hl. split_and!; [done | done | | by rewrite Hd].
  rewrite <- Hbx. by eapply (bi_len _ Hi).
Qed.

(** [bread] *)
Lemma tx_bread f lk t n x :
  tx f lk t → (length lk ≤ 2)%nat → n ∉ lk → f n = Some x →
  wp (on_b (bread 1 n)) t (λ i t', tx f (n :: lk) t' ∧ held t' i n x ∧ ls_log t' = ls_log t ∧ same_disk t t' ∧
    nspare (ls_b t') = nspare (ls_b t) ∧ ∀ j m y, held t j m y → held t' j m y).
Proof.
  intros Ht Hl Hn Hx. pose proof Ht as [T1 T2 T3 T4 T5 T6 T7 T8].
  apply wp_zoom. eapply wp_mono.
  { apply (bread_spec (ls_b t) n x); [done | by rewrite T4 | by rewrite T5, bool_decide_eq_false_2 |].
    right. lia. }
  intros i s' (B & Hh & Hq & Hs & Hd & Ho). pose proof B as [B1 B2 B3 B4 B5 B6 B7]. split_and!; try done.
  - constructor; simpl; try done.
    + intros m. rewrite B4. destruct (Z.eqb_spec m n) as [->|]; [by rewrite Hx | done].
    + intros m. rewrite B7, T5. destruct (Z.eqb_spec m n) as [->|].
      * rewrite bool_decide_eq_true_2; [done | by left].
      * apply bool_decide_ext. rewrite elem_of_cons. naive_solver.
    + by rewrite Hq, T6.
    + intros m. rewrite B6, !T7. by destruct (Z.eqb_spec m n) as [->|].
    + by rewrite Hs.
  - by exists (dirtyv (ls_b t) n).
  - split; [apply Hd | done].
  - intros j m y (d & Hj). exists d. eapply holds_other; [exact B | by eapply Ho | done].
Qed.

Lemma tx_bdata t i n x : held t i n x → on_b (bdata i) t = Ok (x, t).
Proof.
  intros (d & b & Hb & _ & _ & _ & Hx & _). unfold on_b, zoom, bdata.
  erewrite bind_ok by (unfold buf_get; by rewrite Hb). rewrite Hx. by destruct t.
Qed.

(** A change of the data *)
Lemma tx_bmodify f lk t i n x g :
  tx f lk t → held t i n x → length (g x) = bsize →
  wp (on_b (bmodify i g)) t (λ _ t', tx (apply_writes [(n, g x)] f) lk t' ∧ held t' i n (g x) ∧
    ls_log t' = ls_log t ∧ same_disk t t' ∧ nspare (ls_b t') = nspare (ls_b t) ∧
    ∀ j m y, m ≠ n → held t j m y → held t' j m y).
Proof.
  intros Ht Hh Hg. pose proof Ht as [T1 T2 T3 T4 T5 T6 T7 T8].
  destruct (tx_held _ _ _ _ _ _ Ht Hh) as (Hf & Hin & _ & Hh').
  apply wp_zoom. eapply wp_mono; [by eapply bmodify_spec |].
  intros [] s' (B & Hh1 & Hq & Hs & Hd). pose proof B as [B1 B2 B3 B4 B5 B6 B7]. split_and!; try done.
  - constructor; simpl; try done.
    + intros m. rewrite apply_writes_one, B4, T4. by destruct (m =? n).
    + intros m. rewrite B7, T5. destruct (Z.eqb_spec m n) as [->|]; [|done]. by rewrite bool_decide_eq_true_2.
    + by rewrite Hq.
    + intros m. rewrite B6, T7. by destruct (Z.eqb_spec m n) as [->|].
    + by rewrite Hs.
  - by eexists.
  - by apply same_disk_eq.
  - intros j m y Hne Hj. pose proof (held_ne _ _ _ _ _ _ _ Hh Hj Hne). destruct Hj as (d & Hj). exists d.
    by eapply holds_other.
Qed.

Lemma room_put n l :
  log_ok l → lg_n l < LOGSIZE → room (log_put n l) = room l - (if decide (n ∈ logged l) then 0 else 1).
Proof. intros Hl Hn. unfold room. rewrite (lg_n_put n l Hl). simpl. case_decide; lia. Qed.

Lemma elem_of_put n m l : log_ok l → lg_n l < LOGSIZE → m ∈ logged (log_put n l) ↔ m = n ∨ m ∈ logged l.
Proof.
  intros Hl Hn. rewrite logged_put by done. case_decide; [naive_solver |].
  rewrite elem_of_app, list_elem_of_singleton. naive_solver.
Qed.

Lemma tx_log_write f lk t i n x :
  tx f lk t → held t i n x → fits t [n] → home (ls_log t) n → 0 ≤ n < 2 ^ 32 →
  wp (log_write i) t (λ _ t', tx f lk t' ∧ held t' i n x ∧ ls_log t' = log_put n (ls_log t) ∧ same_disk t t' ∧
    bufs t ≤ bufs t' ∧ ∀ j m y, m ≠ n → held t j m y → held t' j m y).
Proof.
  intros Ht Hh Hfit Hm Hn. pose proof Ht as [T1 T2 T3 T4 T5 T6 T7 T8].
  destruct (tx_held _ _ _ _ _ _ Ht Hh) as (Hf & Hin & _ & Hh'). destruct (fits_room _ _ T2 Hfit) as [Hr H4]. unfold room in Hr.
  destruct t as [s l]. simpl in *. eapply wp_mono; [eapply (log_write_spec s l i n x); try done; lia |].
  intros [] [s' l'] (El & B & Hh1 & Hq & Hs & Hs' & Hd). pose proof B as [B1 B2 B3 B4 B5 B6 B7]. simpl in *. subst l'.
  split_and!; try done.
  - constructor; simpl; try done.
    + apply log_ok_put; try done; lia.
    + intros m. rewrite B4, <- !T4. destruct (Z.eqb_spec m n) as [->|]; [|done]. by rewrite T4, Hf.
    + intros m. rewrite B7, T5. destruct (Z.eqb_spec m n) as [->|]; [|done]. by rewrite bool_decide_eq_true_2.
    + by rewrite Hq.
    + intros m. rewrite B6, T7. destruct (Z.eqb_spec m n) as [->|].
      * rewrite bool_decide_eq_true_2; [done |]. apply elem_of_put; [done | lia | by left].
      * apply bool_decide_ext. rewrite elem_of_put by (done || lia). naive_solver.
    + destruct (decide (n ∈ logged l)) as [E|E]; [|specialize (H4 E); lia].
      rewrite Hs' by (by apply bool_decide_eq_true). lia.
  - by eexists.
  - by apply same_disk_eq.
  - unfold bufs. cbn [ls_b ls_log]. rewrite (lg_n_put n l T2). destruct (decide (n ∈ logged l)) as [E|E]; [|lia].
    rewrite Hs' by (by apply bool_decide_eq_true). lia.
  - intros j m y Hne Hj. pose proof (held_ne _ _ _ _ _ _ _ Hh Hj Hne). destruct Hj as (d & Hj). exists d.
    by eapply holds_other.
Qed.

(** The buffer is given back with contents that are logged or on disk. *)
Lemma tx_brelse f lk t i n x :
  tx f (n :: lk) t → n ∉ lk → held t i n x →
  n ∈ logged (ls_log t) ∨ dblk (bs_disk (ls_b t)) n = Some x →
  wp (on_b (brelse i)) t (λ _ t', tx f lk t' ∧ ls_log t' = ls_log t ∧ same_disk t t' ∧
    nspare (ls_b t') = nspare (ls_b t) ∧ ∀ j m y, m ≠ n → held t j m y → held t' j m y).
Proof.
  intros Ht Hn Hh Hdk. pose proof Ht as [T1 T2 T3 T4 T5 T6 T7 T8].
  destruct (tx_held _ _ _ _ _ _ Ht Hh) as (Hf & Hin & _ & Hh').
  apply wp_zoom. eapply wp_mono.
  { eapply brelse_spec; [done | done |]. destruct Hdk; [left; by apply bool_decide_eq_true | by right]. }
  intros [] s' (B & Hq & Hs & Hd). pose proof B as [B1 B2 B3 B4 B5 B6 B7]. split_and!; try done.
  - constructor; simpl; try done.
    + intros m. rewrite B4. destruct (Z.eqb_spec m n) as [->|]; [by rewrite Hf | done].
    + intros m. rewrite B7, T5. destruct (Z.eqb_spec m n) as [->|].
      * by rewrite bool_decide_eq_false_2.
      * apply bool_decide_ext. rewrite elem_of_cons. naive_solver.
    + rewrite T6 in Hq. simpl in Hq. lia.
    + intros m. rewrite B6, T7. by destruct (Z.eqb_spec m n) as [->|].
    + by rewrite Hs.
  - by apply same_disk_eq.
  - intros j m y Hne Hj. pose proof (held_ne _ _ _ _ _ _ _ Hh Hj Hne). destruct Hj as (d & Hj). exists d.
    by eapply holds_other.
Qed.

(** A block that is not held and not logged is the one on disk. *)
Lemma tx_clean f lk t n x :
  tx f lk t → n ∉ lk → f n = Some x → n ∈ logged (ls_log t) ∨ dblk (bs_disk (ls_b t)) n = Some x.
Proof.
  intros Ht Hn Hx. destruct (decide (n ∈ logged (ls_log t))) as [|Hl]; [by left | right].
  rewrite <- (tx_view _ _ _ Ht) in Hx. pose proof (tx_lock _ _ _ Ht n) as Hk. pose proof (tx_dirty _ _ _ Ht n) as Hd.
  rewrite bool_decide_eq_false_2 in Hk, Hd by done. rewrite <- Hx. unfold lview, dirtyv, lockedv in *.
  destruct (bufof (ls_b t) n) as [b|] eqn:E; [|done]. simpl in *. destruct (b_valid b) eqn:Hv; [|done].
  apply bufof_inv in E as (i & Hb & [_ <-]%is_block_true). by eapply (bi_clean _ (tx_inv _ _ _ Ht)).
Qed.

(** ** Whole operations *)

(** The place of the log on disk and the operations in progress. *)
Definition same_place (l l' : log) : Prop :=
  lg_start l' = lg_start l ∧ lg_size l' = lg_size l ∧ lg_outstanding l' = lg_outstanding l ∧
  lg_committing l' = lg_committing l.

Lemma home_place l l' m : same_place l l' → home l m → home l' m.
Proof. unfold home. by intros (-> & -> & _). Qed.

(** From [t] to [t'] the blocks [ws] were changed. *)
Record did (f : Z → option (list Z)) (lk : list Z) (t : lst D) (ws : writes) (t' : lst D) : Prop := Did {
  d_tx : tx (apply_writes ws f) lk t';
  d_place : same_place (ls_log t) (ls_log t');
  d_log m : m ∈ logged (ls_log t') ↔ m ∈ logged (ls_log t) ∨ m ∈ ws.*1;
  d_disk : same_disk t t';
  d_bufs : bufs t ≤ bufs t';
  d_held j m y : held t j m y → held t' j m y;
}.

Lemma did_refl f lk t : tx f lk t → did f lk t [] t.
Proof. intros Ht. constructor; try done. intros m. simpl. rewrite elem_of_nil. tauto. Qed.

Lemma did_trans f lk t ws t1 ws' t2 :
  did f lk t ws t1 → did (apply_writes ws f) lk t1 ws' t2 → did f lk t (ws ++ ws') t2.
Proof.
  intros [A1 (Ap1 & Ap2 & Ap3 & Ap4) A2 A3 A4 A5] [B1 (Bp1 & Bp2 & Bp3 & Bp4) B2 B3 B4 B5]. constructor.
  - by rewrite apply_writes_app.
  - split_and!; congruence.
  - intros m. rewrite B2, A2, fmap_app, elem_of_app. tauto.
  - by etrans.
  - lia.
  - auto.
Qed.

(** The same while the buffer [i] of block [n] is held, with contents [x]. *)
Record having (f : Z → option (list Z)) (lk : list Z) (t : lst D) (ws : writes) (i : nat) (n : Z) (x : list Z)
    (t' : lst D) : Prop := Having {
  h_did : did f (n :: lk) t ws t';
  h_here : held t' i n x;
  h_clean : n ∈ logged (ls_log t') ∨ dblk (bs_disk (ls_b t)) n = Some x;
  h_new : n ∉ lk;
}.

Lemma having_bread f lk t n x :
  tx f lk t → (length lk ≤ 2)%nat → n ∉ lk → f n = Some x →
  wp (on_b (bread 1 n)) t (λ i t', having f lk t [] i n x t').
Proof.
  intros Ht Hl Hn Hx. eapply wp_mono; [by apply (tx_bread f lk t n x) |].
  intros i t' (Ht' & Hh & El & Hd & Hs & Hk). constructor; try done.
  - constructor; try done; [by rewrite El | | unfold bufs; rewrite El, Hs; lia].
    intros m. rewrite El. simpl. rewrite elem_of_nil. tauto.
  - rewrite El. by apply (tx_clean f lk).
Qed.

Lemma having_did f lk t ws i n x t1 ws' t2 :
  having f lk t ws i n x t1 → did (apply_writes ws f) (n :: lk) t1 ws' t2 → having f lk t (ws ++ ws') i n x t2.
Proof.
  intros [A1 A2 A3 A4] B. constructor; [by eapply did_trans | by apply B | | done].
  destruct A3 as [A3|]; [left | by right]. apply B. by left.
Qed.

(** Nobody else holds the block. *)
Lemma not_held f lk t n j m y : tx f lk t → n ∉ lk → held t j m y → m ≠ n.
Proof. intros Ht Hn Hh ->. destruct (tx_held _ _ _ _ _ _ Ht Hh) as (_ & Hin & _). done. Qed.

(** Giving the buffer back as it is. *)
Lemma having_brelse f lk t ws i n x t1 :
  tx f lk t → having f lk t ws i n x t1 → wp (on_b (brelse i)) t1 (λ _ t', did f lk t ws t').
Proof.
  intros Ht [[A1 (Ap1 & Ap2 & Ap3 & Ap4) A2 A3 A4 A5] Hh Hc Hn]. eapply wp_mono.
  { apply (tx_brelse _ lk t1 i n x A1 Hn Hh). rewrite (proj1 A3). done. }
  intros [] t' (Ht' & El & Hd & Hs & Hk). constructor; try done; rewrite ?El; try done.
  - by etrans.
  - unfold bufs in *. rewrite El, Hs. lia.
  - intros j m y Hj. apply Hk; [apply (not_held _ _ _ _ _ _ _ Ht Hn Hj) | auto].
Qed.

(** Changing the block, logging it and giving the buffer back. *)
Lemma having_update f lk t ws i n x t1 g :
  tx f lk t → having f lk t ws i n x t1 → length (g x) = bsize →
  fits t1 [n] → home (ls_log t) n → 0 ≤ n < 2 ^ 32 →
  wp (on_b (bmodify i g)) t1 (λ _ t2, wp (log_write i) t2 (λ _ t3, wp (on_b (brelse i)) t3 (λ _ t',
    did f lk t (ws ++ [(n, g x)]) t'))).
Proof.
  intros Ht [[A1 Ap A2 A3 A4 A5] Hh Hc Hn] Hg Hr Hm Hnr.
  eapply wp_mono; [by apply (tx_bmodify (apply_writes ws f) (n :: lk) t1 i n x) |].
  intros [] t2 (T2 & Hh2 & El2 & Hd2 & Hs2 & Hk2). eapply wp_mono.
  { apply (tx_log_write _ _ t2 i n (g x) T2 Hh2); rewrite ?El2; [| | done]; [|by eapply home_place].
    unfold fits, bufs. by rewrite El2, Hs2. }
  intros [] t3 (T3 & Hh3 & El3 & Hd3 & Hs3 & Hk3). rewrite El2 in El3.
  destruct (fits_room _ _ (tx_log _ _ _ A1) Hr) as [Hroom _]. unfold room in Hroom.
  assert (∀ m, m ∈ logged (ls_log t3) ↔ m = n ∨ m ∈ logged (ls_log t1)) as Hin.
  { intros m. rewrite El3. apply elem_of_put; [apply A1 | lia]. }
  eapply wp_mono; [apply (tx_brelse _ lk t3 i n (g x) T3 Hn Hh3); left; apply Hin; by left |].
  intros [] t' (T' & El' & Hd' & Hs' & Hk'). destruct Ap as (Ap1 & Ap2 & Ap3 & Ap4). constructor.
  - by rewrite apply_writes_app.
  - rewrite El', El3. done.
  - intros m. rewrite El', Hin, A2, fmap_app, elem_of_app. simpl. rewrite list_elem_of_singleton. tauto.
  - do 3 (etrans; [eassumption |]). done.
  - unfold bufs in *. rewrite El', Hs'. rewrite El2, Hs2 in Hs3. lia.
  - intros j m y Hj. pose proof (not_held _ _ _ _ _ _ _ Ht Hn Hj) as Hne. auto 6.
Qed.

Lemma did_fits f lk t ws t' B : did f lk t ws t' → fits t (ws.*1 ++ B) → fits t' B.
Proof.
  intros [A1 (Ap1 & Ap2 & _) A2 _ A4 _] Hf. unfold fits in *. rewrite Ap2.
  eapply Z.le_lt_trans; [|eapply Z.lt_le_trans; [exact Hf | lia]]. apply inj_le, subseteq_size.
  intros m. rewrite !elem_of_list_to_set, !elem_of_app, A2. tauto.
Qed.

End FsTx.
