(* ===== verification/Fs.v ===== *)
(** * The file system ([fs.c])

    Blocks, inodes, directories and paths.  The in-memory inodes are the list
    [fs_inodes], and a pointer to one is its index.  Data moves as byte lists:
    [readi] returns what it copies to [dst], [writei] takes what it copies
    from [src].  The cwd and the killed flag are those of the current
    process. *)

From S2P Require Import Prelude Mmu Bytes Disk Bio FsFormat Log Console.

Definition CONSOLE : Z := 1.

(** A 16-bit pattern as a [short]. *)
Definition s16 (x : Z) : Z := if x <? 2 ^ 15 then x else x - 2 ^ 16.

Record inode : Type := Inode {
  i_dev : Z;
  i_inum : Z;
  i_ref : Z;
  i_lock : sleeplock;
  i_valid : bool;
  i_d : dinode;
}.

Definition dinode_zero : dinode := Dinode 0 0 0 0 0 (replicate (NDIRECT + 1) 0).
Definition inode_zero : inode := Inode 0 0 0 initsleeplock false dinode_zero.

Definition set_i_ref (n : Z) (ip : inode) : inode := Inode (i_dev ip) (i_inum ip) n (i_lock ip) (i_valid ip) (i_d ip).
Definition set_i_lock (l : sleeplock) (ip : inode) : inode := Inode (i_dev ip) (i_inum ip) (i_ref ip) l (i_valid ip) (i_d ip).
Definition set_i_valid (v : bool) (ip : inode) : inode := Inode (i_dev ip) (i_inum ip) (i_ref ip) (i_lock ip) v (i_d ip).
Definition set_i_d (d : dinode) (ip : inode) : inode := Inode (i_dev ip) (i_inum ip) (i_ref ip) (i_lock ip) (i_valid ip) d.

Definition set_type (t : Z) (d : dinode) : dinode := Dinode t (di_major d) (di_minor d) (di_nlink d) (di_size d) (di_addrs d).
Definition set_nlink (n : Z) (d : dinode) : dinode := Dinode (di_type d) (di_major d) (di_minor d) n (di_size d) (di_addrs d).
Definition set_devno (a b : Z) (d : dinode) : dinode := Dinode (di_type d) a b (di_nlink d) (di_size d) (di_addrs d).
Definition set_size (n : Z) (d : dinode) : dinode := Dinode (di_type d) (di_major d) (di_minor d) (di_nlink d) n (di_addrs d).
Definition set_addr (i : nat) (a : Z) (d : dinode) : dinode :=
  Dinode (di_type d) (di_major d) (di_minor d) (di_nlink d) (di_size d) (<[i := a]> (di_addrs d)).

(** The device functions that [devsw] can point to. *)
Inductive device : Type := DevConsole.

Record stat : Type := Stat {
  st_type : Z;
  st_dev : Z;
  st_ino : Z;
  st_nlink : Z;
  st_size : Z;
}.

Record fsys (D : Type) : Type := Fsys {
  fs_l : lst D;
  fs_sb : superblock;
  fs_inodes : list inode;
  fs_devsw : list (option device);
  fs_cons : cons;
  fs_cwd : option nat;
  fs_killed : bool;
}.
Arguments Fsys {D} _ _ _ _ _ _ _.
Arguments fs_l {D} _.
Arguments fs_sb {D} _.
Arguments fs_inodes {D} _.
Arguments fs_devsw {D} _.
Arguments fs_cons {D} _.
Arguments fs_cwd {D} _.
Arguments fs_killed {D} _.

Section Fs.
Context {D : Type} `{DiskDriver D}.

Definition set_fs_l (l : lst D) (s : fsys D) : fsys D :=
  Fsys l (fs_sb s) (fs_inodes s) (fs_devsw s) (fs_cons s) (fs_cwd s) (fs_killed s).
Definition set_fs_sb (b : superblock) (s : fsys D) : fsys D :=
  Fsys (fs_l s) b (fs_inodes s) (fs_devsw s) (fs_cons s) (fs_cwd s) (fs_killed s).
Definition set_fs_inodes (l : list inode) (s : fsys D) : fsys D :=
  Fsys (fs_l s) (fs_sb s) l (fs_devsw s) (fs_cons s) (fs_cwd s) (fs_killed s).
Definition set_fs_cons (k : cons) (s : fsys D) : fsys D :=
  Fsys (fs_l s) (fs_sb s) (fs_inodes s) (fs_devsw s) k (fs_cwd s) (fs_killed s).

Definition on_l {A} (c : M (lst D) A) : M (fsys D) A := zoom fs_l set_fs_l c.
Definition on_c {A} (c : M (bst D) A) : M (fsys D) A := on_l (on_b c).
Definition on_console {A} (c : M cons A) : M (fsys D) A := zoom fs_cons set_fs_cons c.

Definition cur_pid (s : fsys D) : Z := bs_pid (ls_b (fs_l s)).

Definition i_get (i : nat) : M (fsys D) inode := λ s,
  match fs_inodes s !! i with Some ip => Ok (ip, s) | None => Err EUndef end.
Definition i_upd (i : nat) (f : inode → inode) : M (fsys D) unit :=
  ip ← i_get i; modify (λ s, set_fs_inodes (<[i := f ip]> (fs_inodes s)) s).
Definition d_upd (i : nat) (f : dinode → dinode) : M (fsys D) unit :=
  i_upd i (λ ip, set_i_d (f (i_d ip)) ip).

(** ** Blocks *)

Definition bzero (dev bno : Z) : M (fsys D) unit :=
  bp ← on_c (bread dev bno);
  on_c (bmodify bp (λ _, replicate bsize 0));;
  on_l (log_write bp);;
  on_c (brelse bp).

(** Bit [bi] of a bitmap block. *)
Definition bit_mask (bi : Z) : Z := Z.shiftl 1 (bi mod 8).
Definition bit_used (data : list Z) (bi : Z) : bool := nz (Z.land (byte_at data (Z.to_nat (bi / 8))) (bit_mask bi)).
Definition bit_set (data : list Z) (bi : Z) : list Z :=
  <[Z.to_nat (bi / 8) := Z.lor (byte_at data (Z.to_nat (bi / 8))) (bit_mask bi)]> data.
Definition bit_clear (data : list Z) (bi : Z) : list Z :=
  <[Z.to_nat (bi / 8) := Z.land (byte_at data (Z.to_nat (bi / 8))) (Z.lnot (bit_mask bi))]> data.

(** The inner loop of [balloc]: the first free bit from [bi] on. *)
Fixpoint find_free (n : nat) (size b bi : Z) (data : list Z) : option Z :=
  match n with
  | O => None
  | S n =>
    if size <=? b + bi then None
    else if bit_used data bi then find_free n size b (bi + 1) data
    else Some bi
  end.

(** The outer loop; [sb.size / BPB + 1] rounds are enough. *)
Fixpoint balloc_loop (fuel : nat) (dev b : Z) : M (fsys D) Z :=
  match fuel with
  | O => raise EFuel
  | S fuel =>
    sb ← gets fs_sb;
    if sb_size sb <=? b then panic "balloc: out of blocks" else
    bp ← on_c (bread dev (BBLOCK b sb));
    data ← on_c (bdata bp);
    match find_free (Z.to_nat BPB) (sb_size sb) b 0 data with
    | Some bi =>
      on_c (bmodify bp (λ data, bit_set data bi));;
      on_l (log_write bp);;
      on_c (brelse bp);;
      bzero dev (b + bi);;
      mret (b + bi)
    | None =>
      on_c (brelse bp);;
      balloc_loop fuel dev (b + BPB)
    end
  end.

Definition balloc (dev : Z) : M (fsys D) Z :=
  sb ← gets fs_sb;
  balloc_loop (Z.to_nat (sb_size sb / BPB + 2)) dev 0.

Definition bfree (dev b : Z) : M (fsys D) unit :=
  sb ← gets fs_sb;
  bp ← on_c (bread dev (BBLOCK b sb));
  data ← on_c (bdata bp);
  let bi := b mod BPB in
  if negb (bit_used data bi) then panic "freeing free block" else
  on_c (bmodify bp (λ data, bit_clear data bi));;
  on_l (log_write bp);;
  on_c (brelse bp).

(** ** Inodes *)

Definition iinit (dev : Z) : M (fsys D) unit :=
  modify (λ s, set_fs_inodes (set_i_lock initsleeplock <$> fs_inodes s) s);;
  sb ← on_c (readsb dev);
  modify (set_fs_sb sb).

(** Position of the inode in use for [inum], and of the first free slot. *)
Fixpoint iget_scan (dev inum : Z) (i : nat) (l : list inode) (empty : option nat) : option nat * option nat :=
  match l with
  | [] => (None, empty)
  | ip :: l =>
    if (0 <? i_ref ip) && (i_dev ip =? dev) && (i_inum ip =? inum) then (Some i, empty)
    else iget_scan dev inum (S i) l
      (match empty with None => if i_ref ip =? 0 then Some i else None | _ => empty end)
  end.

Definition iget (dev inum : Z) : M (fsys D) nat :=
  l ← gets fs_inodes;
  match iget_scan dev inum 0 l None with
  | (Some i, _) => i_upd i (λ ip, set_i_ref (i_ref ip + 1) ip);; mret i
  | (None, None) => panic "iget: no inodes"
  | (None, Some i) => i_upd i (λ ip, Inode dev inum 1 (i_lock ip) false (i_d ip));; mret i
  end.

Fixpoint ialloc_loop (fuel : nat) (dev type inum : Z) : M (fsys D) nat :=
  match fuel with
  | O => panic "ialloc: no inodes"
  | S fuel =>
    sb ← gets fs_sb;
    bp ← on_c (bread dev (IBLOCK inum sb));
    data ← on_c (bdata bp);
    if di_type (get_dinode data (ioff inum)) =? 0 then
      on_c (bmodify bp (put_dinode (ioff inum) (set_type (u16 type) dinode_zero)));;
      on_l (log_write bp);;
      on_c (brelse bp);;
      iget dev inum
    else
      on_c (brelse bp);;
      ialloc_loop fuel dev type (inum + 1)
  end.

(** [inum] goes from 1 to [sb.ninodes - 1]. *)
Definition ialloc (dev type : Z) : M (fsys D) nat :=
  sb ← gets fs_sb;
  ialloc_loop (Z.to_nat (sb_ninodes sb - 1)) dev type 1.

Definition iupdate (i : nat) : M (fsys D) unit :=
  ip ← i_get i;
  sb ← gets fs_sb;
  bp ← on_c (bread (i_dev ip) (IBLOCK (i_inum ip) sb));
  on_c (bmodify bp (put_dinode (ioff (i_inum ip)) (i_d ip)));;
  on_l (log_write bp);;
  on_c (brelse bp).

Definition idup (i : nat) : M (fsys D) nat :=
  i_upd i (λ ip, set_i_ref (i_ref ip + 1) ip);; mret i.

Definition i_acquire (i : nat) : M (fsys D) unit :=
  pid ← gets cur_pid;
  ip ← i_get i;
  match acquiresleep pid (i_lock ip) with
  | Ok (_, lk) => i_upd i (set_i_lock lk)
  | Err e => raise e
  end.
Definition i_release (i : nat) : M (fsys D) unit := i_upd i (set_i_lock (Sleeplock false 0)).

Definition ilock (i : nat) : M (fsys D) unit :=
  ip ← i_get i;
  if i_ref ip <? 1 then panic "ilock" else
  i_acquire i;;
  if i_valid ip then mret tt else
  sb ← gets fs_sb;
  bp ← on_c (bread (i_dev ip) (IBLOCK (i_inum ip) sb));
  data ← on_c (bdata bp);
  let di := get_dinode data (ioff (i_inum ip)) in
  d_upd i (λ _, di);;
  on_c (brelse bp);;
  i_upd i (set_i_valid true);;
  if di_type di =? 0 then panic "ilock: no type" else mret tt.

Definition iunlock (i : nat) : M (fsys D) unit :=
  pid ← gets cur_pid;
  ip ← i_get i;
  if negb (holdingsleep pid (i_lock ip)) || (i_ref ip <? 1) then panic "iunlock" else
  i_release i.

(** ** Inode content *)

Definition bmap (i : nat) (bn : Z) : M (fsys D) Z :=
  ip ← i_get i;
  if bn <? Z.of_nat NDIRECT then
    let addr := default 0 (di_addrs (i_d ip) !! Z.to_nat bn) in
    if addr =? 0 then
      a ← balloc (i_dev ip); d_upd i (set_addr (Z.to_nat bn) a);; mret a
    else mret addr
  else
  let bn := bn - Z.of_nat NDIRECT in
  if bn <? Z.of_nat NINDIRECT then
    let ind := default 0 (di_addrs (i_d ip) !! NDIRECT) in
    ind ← (if ind =? 0 then a ← balloc (i_dev ip); d_upd i (set_addr NDIRECT a);; mret a else mret ind);
    bp ← on_c (bread (i_dev ip) ind);
    data ← on_c (bdata bp);
    let addr := get32 data (4 * Z.to_nat bn) in
    addr ← (if addr =? 0 then
              a ← balloc (i_dev ip);
              on_c (bmodify bp (put32 (4 * Z.to_nat bn) a));;
              on_l (log_write bp);;
              mret a
            else mret addr);
    on_c (brelse bp);;
    mret addr
  else panic "bmap: out of range".

Definition itrunc (i : nat) : M (fsys D) unit :=
  for_ NDIRECT 0 (λ k,
    ip ← i_get i;
    let a := default 0 (di_addrs (i_d ip) !! k) in
    if a =? 0 then mret tt else bfree (i_dev ip) a;; d_upd i (set_addr k 0));;
  ip ← i_get i;
  let ind := default 0 (di_addrs (i_d ip) !! NDIRECT) in
  (if ind =? 0 then mret tt else
   bp ← on_c (bread (i_dev ip) ind);
   for_ NINDIRECT 0 (λ j,
     data ← on_c (bdata bp);
     let a := get32 data (4 * j) in
     if a =? 0 then mret tt else bfree (i_dev ip) a);;
   on_c (brelse bp);;
   bfree (i_dev ip) ind;;
   d_upd i (set_addr NDIRECT 0));;
  d_upd i (set_size 0);;
  iupdate i.

Definition iput (i : nat) : M (fsys D) unit :=
  i_acquire i;;
  ip ← i_get i;
  (if i_valid ip && (di_nlink (i_d ip) =? 0) && (i_ref ip =? 1) then
     itrunc i;;
     d_upd i (set_type 0);;
     iupdate i;;
     i_upd i (set_i_valid false)
   else mret tt);;
  i_release i;;
  i_upd i (λ ip, set_i_ref (i_ref ip - 1) ip).

Definition iunlockput (i : nat) : M (fsys D) unit := iunlock i;; iput i.

Definition stati (i : nat) : M (fsys D) stat :=
  ip ← i_get i;
  mret (Stat (di_type (i_d ip)) (i_dev ip) (i_inum ip) (di_nlink (i_d ip)) (di_size (i_d ip))).

(** [devsw[major].read] or [.write], if there is one. *)
Definition dev_fn (major : Z) : M (fsys D) (option device) :=
  l ← gets fs_devsw;
  if (s16 major <? 0) || (NDEV <=? s16 major) then mret None
  else mret (mjoin (l !! Z.to_nat (s16 major))).

(** [consoleread] and [consolewrite] of [console.c]; [n] is an [int]. *)
Definition consoleread (i : nat) (n : Z) : M (fsys D) (Z * list Z) :=
  iunlock i;;
  killed ← gets fs_killed;
  r ← on_console (consoleread_loop killed (Z.to_nat n) (Z.to_nat n) []);
  ilock i;;
  mret (if r.1 : bool then Z.of_nat (length r.2) else -1, r.2).

Definition consolewrite (i : nat) (src : list Z) : M (fsys D) Z :=
  iunlock i;;
  on_console (consputs src);;
  ilock i;;
  mret (Z.of_nat (length src)).

Definition consoleinit : M (fsys D) unit :=
  modify (λ s, Fsys (fs_l s) (fs_sb s) (fs_inodes s) (<[Z.to_nat CONSOLE := Some DevConsole]> (fs_devsw s))
    (let c := fs_cons s in Cons (cn_panicked c) true (cn_crt c) (cn_pos c) (cn_uart c) (cn_buf c) (cn_r c) (cn_w c) (cn_e c))
    (fs_cwd s) (fs_killed s)).

(** One round copies at least a byte. *)
Fixpoint readi_loop (fuel : nat) (i : nat) (off n : Z) (acc : list Z) : M (fsys D) (list Z) :=
  match fuel with
  | O => raise EFuel
  | S fuel =>
    if n <=? 0 then mret acc else
    ip ← i_get i;
    a ← bmap i (off / BSIZE);
    bp ← on_c (bread (i_dev ip) a);
    let m := Z.min n (BSIZE - off mod BSIZE) in
    data ← on_c (bdata bp);
    on_c (brelse bp);;
    readi_loop fuel i (off + m) (n - m) (acc ++ slice (Z.to_nat (off mod BSIZE)) (Z.to_nat m) data)
  end.

Definition readi (i : nat) (off n : Z) : M (fsys D) (Z * list Z) :=
  ip ← i_get i;
  if di_type (i_d ip) =? T_DEV then
    d ← dev_fn (di_major (i_d ip));
    match d with None => mret (-1, []) | Some DevConsole => consoleread i (s32 n) end
  else
  let size := di_size (i_d ip) in
  if (size <? off) || (u32 (off + n) <? off) then mret (-1, []) else
  let n := if size <? u32 (off + n) then size - off else n in
  bs ← readi_loop (S (Z.to_nat n)) i off n [];
  mret (n, bs).

Fixpoint writei_loop (fuel : nat) (i : nat) (off : Z) (src : list Z) : M (fsys D) Z :=
  match fuel with
  | O => raise EFuel
  | S fuel =>
    match src with
    | [] => mret off
    | _ =>
      ip ← i_get i;
      a ← bmap i (off / BSIZE);
      bp ← on_c (bread (i_dev ip) a);
      let m := Z.min (Z.of_nat (length src)) (BSIZE - off mod BSIZE) in
      on_c (bmodify bp (splice (Z.to_nat (off mod BSIZE)) (take (Z.to_nat m) src)));;
      on_l (log_write bp);;
      on_c (brelse bp);;
      writei_loop fuel i (off + m) (drop (Z.to_nat m) src)
    end
  end.

Definition writei (i : nat) (src : list Z) (off : Z) : M (fsys D) Z :=
  let n := Z.of_nat (length src) in
  ip ← i_get i;
  if di_type (i_d ip) =? T_DEV then
    d ← dev_fn (di_major (i_d ip));
    match d with None => mret (-1) | Some DevConsole => consolewrite i src end
  else
  if (di_size (i_d ip) <? off) || (u32 (off + n) <? off) then mret (-1) else
  if Z.of_nat MAXFILE * BSIZE <? u32 (off + n) then mret (-1) else
  off ← writei_loop (S (length src)) i off src;
  ip ← i_get i;
  (if (0 <? n) && (di_size (i_d ip) <? off) then d_upd i (set_size off);; iupdate i else mret tt);;
  mret n.

(** ** Directories *)

(** [strncmp] of [string.c] on strings given as lists; a list ends in a NUL. *)
Fixpoint str_ncmp (n : nat) (p q : list Z) : Z :=
  match n with
  | O => 0
  | S n =>
    let a := byte_at p 0 in
    let b := byte_at q 0 in
    if nz a && (a =? b) then str_ncmp n (drop 1 p) (drop 1 q) else a - b
  end.

Definition namecmp (s t : list Z) : Z := str_ncmp DIRSIZ s t.

(** [strncpy(de.name, name, DIRSIZ)]: cut or padded with NULs. *)
Definition dirname (name : list Z) : list Z := take DIRSIZ (name ++ replicate DIRSIZ 0).

(** Rounds of the loops over the entries of a directory. *)
Definition nentries (size : Z) : nat := Z.to_nat ((size + 15) / 16).

Fixpoint dirlookup_loop (fuel : nat) (i : nat) (name : list Z) (off : Z) : M (fsys D) (option (nat * Z)) :=
  match fuel with
  | O => mret None
  | S fuel =>
    r ← readi i off 16;
    if negb (r.1 =? 16) then panic "dirlookup read" else
    let de := get_dirent r.2 in
    if de_inum de =? 0 then dirlookup_loop fuel i name (off + 16)
    else if namecmp name (de_name de) =? 0 then
      dp ← i_get i;
      ip ← iget (i_dev dp) (de_inum de);
      mret (Some (ip, off))
    else dirlookup_loop fuel i name (off + 16)
  end.

Definition dirlookup (i : nat) (name : list Z) : M (fsys D) (option (nat * Z)) :=
  dp ← i_get i;
  if negb (di_type (i_d dp) =? T_DIR) then panic "dirlookup not DIR" else
  dirlookup_loop (nentries (di_size (i_d dp))) i name 0.

(** Offset of the first free entry, or the end. *)
Fixpoint free_entry (fuel : nat) (i : nat) (off : Z) : M (fsys D) Z :=
  match fuel with
  | O => mret off
  | S fuel =>
    r ← readi i off 16;
    if negb (r.1 =? 16) then panic "dirlink read" else
    if de_inum (get_dirent r.2) =? 0 then mret off else free_entry fuel i (off + 16)
  end.

Definition dirlink (i : nat) (name : list Z) (inum : Z) : M (fsys D) Z :=
  r ← dirlookup i name;
  match r with
  | Some (ip, _) => iput ip;; mret (-1)
  | None =>
    dp ← i_get i;
    off ← free_entry (nentries (di_size (i_d dp))) i 0;
    n ← writei i (dirent_bytes (Dirent (u16 inum) (dirname name))) off;
    if negb (n =? 16) then panic "dirlink" else mret 0
  end.

(** ** Paths *)

Definition slash : Z := 47.

Fixpoint skip_slashes (p : list Z) : list Z :=
  match p with
  | c :: p' => if c =? slash then skip_slashes p' else p
  | [] => []
  end.

(** The characters up to the next slash, and the rest. *)
Fixpoint span_elem (p : list Z) : list Z * list Z :=
  match p with
  | c :: p' => if c =? slash then ([], p) else let r := span_elem p' in (c :: r.1, r.2)
  | [] => ([], [])
  end.

(** The rest of the path and the name. *)
Definition skipelem (path : list Z) : option (list Z * list Z) :=
  match skip_slashes path with
  | [] => None
  | p => let r := span_elem p in Some (skip_slashes r.2, take DIRSIZ r.1)
  end.

(** Each round takes a character off the path. *)
Fixpoint namex_loop (fuel : nat) (path : list Z) (nameiparent : bool) (name : list Z) (i : nat) :
    M (fsys D) (option (nat * list Z)) :=
  match fuel with
  | O => raise EFuel
  | S fuel =>
    match skipelem path with
    | None => if nameiparent then iput i;; mret None else mret (Some (i, name))
    | Some (path, name) =>
      ilock i;;
      ip ← i_get i;
      if negb (di_type (i_d ip) =? T_DIR) then iunlockput i;; mret None else
      if nameiparent && bool_decide (path = []) then iunlock i;; mret (Some (i, name)) else
      r ← dirlookup i name;
      match r with
      | None => iunlockput i;; mret None
      | Some (next, _) => iunlockput i;; namex_loop fuel path nameiparent name next
      end
    end
  end.

Definition namex (path : list Z) (nameiparent : bool) : M (fsys D) (option (nat * list Z)) :=
  i ← (if bool_decide (head path = Some slash) then iget ROOTDEV ROOTINO
       else cwd ← gets fs_cwd; match cwd with Some c => idup c | None => raise EUndef end);
  namex_loop (S (length path)) path nameiparent [] i.

Definition namei (path : list Z) : M (fsys D) (option nat) :=
  r ← namex path false; mret (fst <$> r).
Definition nameiparent (path : list Z) : M (fsys D) (option (nat * list Z)) := namex path true.

End Fs.
