(* ===== verification/FsStep.v ===== *)
(** * Steps of the file system

    The steps of [FsTx] on the state of [fs.c], in the form the code has
    them: [bread], a look at the data, a change, [log_write], [brelse], and
    what follows. *)

From S2P Require Import Prelude Mmu Bytes Disk Bio FsFormat Log LogSpec LogOps FsTx Console Fs.

Section FsStep.
Context {D : Type} `{DiskLaws D}.

(** Only the blocks changed, by [ws]. *)
Definition fdid (f : Z → option (list Z)) (lk : list Z) (s : fsys D) (ws : writes) (s' : fsys D) : Prop :=
  ∃ t', s' = set_fs_l t' s ∧ did f lk (fs_l s) ws t'.

(** The same, and buffer [i] is held. *)
Definition fhaving (f : Z → option (list Z)) (lk : list Z) (s : fsys D) (ws : writes) (i : nat) (n : Z) (x : list Z)
    (s' : fsys D) : Prop :=
  ∃ t', s' = set_fs_l t' s ∧ having f lk (fs_l s) ws i n x t'.

Lemma fdid_refl f lk s : tx f lk (fs_l s) → fdid f lk s [] s.
Proof. intros Ht. exists (fs_l s). split; [by destruct s | by apply did_refl]. Qed.

Lemma fdid_trans f lk s ws s1 ws' s2 :
  fdid f lk s ws s1 → fdid (apply_writes ws f) lk s1 ws' s2 → fdid f lk s (ws ++ ws') s2.
Proof. intros (t1 & -> & A) (t2 & -> & B). exists t2. split; [done |]. by eapply did_trans. Qed.

Lemma fdid_tx f lk s ws s' : fdid f lk s ws s' → tx (apply_writes ws f) lk (fs_l s').
Proof. intros (t' & -> & A). apply A. Qed.

Lemma fdid_frame f lk s ws s' :
  fdid f lk s ws s' → fs_sb s' = fs_sb s ∧ fs_inodes s' = fs_inodes s ∧ fs_devsw s' = fs_devsw s ∧
    fs_cons s' = fs_cons s ∧ fs_cwd s' = fs_cwd s ∧ fs_killed s' = fs_killed s.
Proof. by intros (t' & -> & _). Qed.

Lemma fhaving_did f lk s ws i n x s1 ws' s2 :
  fhaving f lk s ws i n x s1 → fdid (apply_writes ws f) (n :: lk) s1 ws' s2 → fhaving f lk s (ws ++ ws') i n x s2.
Proof. intros (t1 & -> & A) (t2 & -> & B). exists t2. split; [done |]. by eapply having_did. Qed.

Lemma fhaving_fdid f lk s ws i n x s1 : fhaving f lk s ws i n x s1 → fdid f (n :: lk) s ws s1.
Proof. intros (t1 & -> & A). exists t1. split; [done | apply A]. Qed.

Lemma fhaving_tx f lk s ws i n x s1 : fhaving f lk s ws i n x s1 → tx (apply_writes ws f) (n :: lk) (fs_l s1).
Proof. intros (t1 & -> & A). apply A. Qed.

(** Room left, and the log's place. *)
Lemma fdid_fits f lk s ws s' B :
  fdid f lk s ws s' → fits (fs_l s) (ws.*1 ++ B) → fits (fs_l s') B.
Proof. intros (t' & -> & A). by apply (did_fits f lk (fs_l s) ws t'). Qed.

Lemma fdid_home f lk s ws s' m : fdid f lk s ws s' → home (ls_log (fs_l s)) m → home (ls_log (fs_l s')) m.
Proof. intros (t' & -> & A). apply home_place, A. Qed.

Lemma wp_on_l {A} (c : M (lst D) A) s Q : wp c (fs_l s) (λ a t, Q a (set_fs_l t s)) → wp (on_l c) s Q.
Proof. apply wp_zoom. Qed.

(** A unit computation at the end. *)
Lemma wp_last {S} (c : M S unit) s Q : wp (c;; mret tt) s Q → wp c s Q.
Proof. unfold wp, mbind, M_bind. by destruct (c s) as [[[] ?]|]. Qed.

Section Steps.
Context {A : Type} (Q : A → fsys D → Prop).

Lemma f_bread f lk s n x (k : nat → M (fsys D) A) :
  tx f lk (fs_l s) → (length lk ≤ 2)%nat → n ∉ lk → f n = Some x →
  (∀ i s', fhaving f lk s [] i n x s' → wp (k i) s' Q) → wp (on_c (bread 1 n) ≫= k) s Q.
Proof.
  intros Ht Hl Hn Hx Hk. apply wp_bind, wp_on_l. eapply wp_mono; [by apply (having_bread f lk (fs_l s) n x) |].
  intros i t' Hh. apply Hk. by exists t'.
Qed.

Lemma f_bdata f lk s0 ws i n x s (k : list Z → M (fsys D) A) :
  fhaving f lk s0 ws i n x s → wp (k x) s Q → wp (on_c (bdata i) ≫= k) s Q.
Proof.
  intros (t & -> & Hh) Hk. apply wp_bind. eapply wp_intro; [|exact Hk]. unfold on_c, on_l, zoom.
  simpl. by rewrite (tx_bdata t i n x (h_here _ _ _ _ _ _ _ _ Hh)).
Qed.

Lemma f_brelse f lk s0 ws i n x s (k : M (fsys D) A) :
  tx f lk (fs_l s0) → fhaving f lk s0 ws i n x s →
  (∀ s', fdid f lk s0 ws s' → wp k s' Q) → wp (on_c (brelse i);; k) s Q.
Proof.
  intros Ht (t & -> & Hh) Hk. apply wp_bind, wp_on_l. eapply wp_mono; [by apply (having_brelse f lk (fs_l s0) ws i n x) |].
  intros [] t' Hd. apply Hk. by exists t'.
Qed.

Lemma f_update f lk s0 ws i n x s g (k : M (fsys D) A) :
  tx f lk (fs_l s0) → fhaving f lk s0 ws i n x s → length (g x) = bsize →
  fits (fs_l s0) (ws.*1 ++ [n]) → home (ls_log (fs_l s0)) n → 0 ≤ n < 2 ^ 32 →
  (∀ s', fdid f lk s0 (ws ++ [(n, g x)]) s' → wp k s' Q) →
  wp (on_c (bmodify i g);; on_l (log_write i);; on_c (brelse i);; k) s Q.
Proof.
  intros Ht (t & -> & Hh) Hg Hr Hm Hn Hk.
  assert (fits t [n]) as Hr' by (eapply did_fits; [apply Hh | done]).
  apply wp_bind, wp_on_l. eapply wp_mono; [by apply (having_update f lk (fs_l s0) ws i n x t g) |].
  intros [] t2 W. apply wp_bind, wp_on_l. eapply wp_mono; [exact W |].
  intros [] t3 W'. apply wp_bind, wp_on_l. eapply wp_mono; [exact W' |].
  intros [] t' Hd. apply Hk. by exists t'.
Qed.

End Steps.

Lemma f_update_end f lk s0 ws i n x s g Q :
  tx f lk (fs_l s0) → fhaving f lk s0 ws i n x s → length (g x) = bsize →
  fits (fs_l s0) (ws.*1 ++ [n]) → home (ls_log (fs_l s0)) n → 0 ≤ n < 2 ^ 32 →
  (∀ s', fdid f lk s0 (ws ++ [(n, g x)]) s' → Q tt s') →
  wp (on_c (bmodify i g);; on_l (log_write i);; on_c (brelse i)) s Q.
Proof.
  intros Ht Hh Hg Hr Hm Hn HQ. apply wp_last.
  pose proof (f_update (λ _ s', Q tt s') f lk s0 ws i n x s g (mret tt) Ht Hh Hg Hr Hm Hn HQ) as W.
  revert W. unfold wp, mbind, M_bind. destruct (on_c (bmodify i g) s) as [[[] s1]|]; [|done].
  destruct (on_l (log_write i) s1) as [[[] s2]|]; [|done]. by destruct (on_c (brelse i) s2) as [[[] s3]|].
Qed.

(** The steps as equations. *)
Lemma f_bread_ok f lk (s : fsys D) n x :
  tx f lk (fs_l s) → (length lk ≤ 2)%nat → n ∉ lk → f n = Some x →
  ∃ i s', on_c (bread 1 n) s = Ok (i, s') ∧ fhaving f lk s [] i n x s'.
Proof.
  intros Ht Hl Hn Hx. apply wp_iff, wp_on_l. eapply wp_mono; [by apply (having_bread f lk (fs_l s) n x) |].
  intros i t' Hh. by exists t'.
Qed.

Lemma f_bdata_ok f lk (s0 : fsys D) ws i n x s : fhaving f lk s0 ws i n x s → on_c (bdata i) s = Ok (x, s).
Proof.
  intros (t & -> & Hh). unfold on_c, on_l, zoom. simpl. by rewrite (tx_bdata t i n x (h_here _ _ _ _ _ _ _ _ Hh)).
Qed.

Lemma f_brelse_ok f lk (s0 : fsys D) ws i n x s :
  tx f lk (fs_l s0) → fhaving f lk s0 ws i n x s → ∃ s', on_c (brelse i) s = Ok (tt, s') ∧ fdid f lk s0 ws s'.
Proof.
  intros Ht (t & -> & Hh).
  assert (wp (on_c (brelse i)) (set_fs_l t s0) (λ _ s', fdid f lk s0 ws s')) as ([] & s' & E & Hd)%wp_iff.
  { apply wp_on_l. eapply wp_mono; [by apply (having_brelse f lk (fs_l s0) ws i n x) |]. intros [] t' Hd. by exists t'. }
  by exists s'.
Qed.

End FsStep.
