(* ===== verification/FsAlloc.v ===== *)
(** * Allocation of disk blocks ([fs.c]: [bzero], [balloc], [bfree])

    The bitmap as the set of blocks in use; [balloc] takes the first free
    block, marks it and clears it, [bfree] gives one back. *)

From S2P Require Import Prelude Mmu Bytes Disk Bio FsFormat Log LogSpec LogOps FsTx Console Fs FsStep.

(** ** The bitmap *)

Lemma bit_mask_eq bi : bit_mask bi = 2 ^ (bi mod 8).
Proof. unfold bit_mask. rewrite Z.shiftl_1_l. done. Qed.

Lemma bit_used_eq d bi : 0 ≤ bi → bit_used d bi = Z.testbit (byte_at d (Z.to_nat (bi / 8))) (bi mod 8).
Proof. intros Hb. unfold bit_used. rewrite bit_mask_eq. apply land_pow2_nz. zdiv. Qed.

Lemma byte_at_insert d i j v :
  (i < length d)%nat → byte_at (<[i := v]> d) j = if decide (j = i) then v else byte_at d j.
Proof.
  intros Hi. unfold byte_at. case_decide as E; [subst; by rewrite list_lookup_insert_eq |].
  by rewrite list_lookup_insert_ne.
Qed.

Lemma same_bit a b : 0 ≤ a → 0 ≤ b → Z.to_nat (a / 8) = Z.to_nat (b / 8) → a mod 8 = b mod 8 → a = b.
Proof. intros Ha Hb E1 E2. apply Z2Nat.inj in E1; zdiv. Qed.

Lemma bit_used_set d a b :
  length d = bsize → 0 ≤ a < BPB → 0 ≤ b < BPB → bit_used (bit_set d a) b = (a =? b) || bit_used d b.
Proof.
  intros Hl Ha Hb. unfold BPB, BSIZE in *. rewrite !bit_used_eq by lia. unfold bit_set. rewrite bit_mask_eq.
  rewrite byte_at_insert by (rewrite Hl; unfold bsize, BSIZE; zdiv). case_decide as E.
  - rewrite E, Z.lor_spec, Z.pow2_bits_eqb by zdiv. rewrite orb_comm. f_equal.
    destruct (Z.eqb_spec a b) as [->|Hne]; [apply Z.eqb_refl |]. apply Z.eqb_neq. intros Em.
    apply Hne, same_bit; lia || done.
  - destruct (Z.eqb_spec a b) as [->|]; done.
Qed.

Lemma bit_used_clear d a b :
  length d = bsize → 0 ≤ a < BPB → 0 ≤ b < BPB → bit_used (bit_clear d a) b = negb (a =? b) && bit_used d b.
Proof.
  intros Hl Ha Hb. unfold BPB, BSIZE in *. rewrite !bit_used_eq by lia. unfold bit_clear. rewrite bit_mask_eq.
  rewrite byte_at_insert by (rewrite Hl; unfold bsize, BSIZE; zdiv). case_decide as E.
  - rewrite E, Z.land_spec, Z.lnot_spec, Z.pow2_bits_eqb by zdiv. rewrite andb_comm. do 2 f_equal.
    destruct (Z.eqb_spec a b) as [->|Hne]; [apply Z.eqb_refl |]. apply Z.eqb_neq. intros Em.
    apply Hne, same_bit; lia || done.
  - destruct (Z.eqb_spec a b) as [->|]; done.
Qed.

(** The first free bit below [size]. *)
Lemma find_free_spec n size b bi data :
  match find_free n size b bi data with
  | Some k => bi ≤ k < bi + Z.of_nat n ∧ b + k < size ∧ bit_used data k = false ∧
      ∀ j, bi ≤ j < k → bit_used data j = true
  | None => ∀ j, bi ≤ j < bi + Z.of_nat n → b + j < size → bit_used data j = true
  end.
Proof.
  revert bi. induction n as [|n IH]; intros bi; cbn [find_free]; [lia |].
  destruct (Z.leb_spec size (b + bi)); [lia |]. destruct (bit_used data bi) eqn:Hu.
  - specialize (IH (bi + 1)). destruct (find_free n size b (bi + 1) data) as [k|].
    + destruct IH as (H1 & H2 & H3 & H4). split_and!; try done; try lia.
      intros j Hj. destruct (decide (j = bi)) as [->|]; [done | apply H4; lia].
    + intros j Hj Hs. destruct (decide (j = bi)) as [->|]; [done | apply IH; lia].
  - split_and!; try done; lia.
Qed.

Section FsAlloc.
Context {D : Type} `{DiskLaws D}.

Lemma tx_length f lk (t : lst D) n x : tx f lk t → f n = Some x → length x = bsize.
Proof.
  intros Ht Hx. rewrite <- (tx_view _ _ _ Ht) in Hx. by destruct (dblk_on_disk _ _ _ (tx_inv _ _ _ Ht) Hx).
Qed.

Lemma bzero_spec f lk (s : fsys D) b y :
  tx f lk (fs_l s) → (length lk ≤ 2)%nat → b ∉ lk → f b = Some y →
  fits (fs_l s) [b] → home (ls_log (fs_l s)) b → 0 ≤ b < 2 ^ 32 →
  wp (bzero 1 b) s (λ _ s', fdid f lk s [(b, replicate bsize 0)] s').
Proof.
  intros Ht Hl Hb Hy Hr Hm Hn. unfold bzero. eapply f_bread; [done.. |]. intros i s' Hh.
  by eapply (f_update_end f lk s [] i b y s' (λ _, replicate bsize 0)).
Qed.

(** Every block of the disk has its bit in a block of the file system. *)
Record bitmap (f : Z → option (list Z)) (lk : list Z) (l : log) (sb : superblock) : Prop := Bitmap {
  bm_size : 0 < sb_size sb < 2 ^ 31;
  bm_start : 0 ≤ sb_bmapstart sb < 2 ^ 31;
  bm_block b : 0 ≤ b < sb_size sb → is_Some (f (BBLOCK b sb));
  bm_free b : 0 ≤ b < sb_size sb → BBLOCK b sb ∉ lk;
  bm_home b : 0 ≤ b < sb_size sb → home l (BBLOCK b sb);
}.

Lemma bitmap_place f lk l l' sb : same_place l l' → bitmap f lk l sb → bitmap f lk l' sb.
Proof. intros Hp [M1 M2 M3 M4 M5]. constructor; try done. intros b Hb. by eapply home_place, M5. Qed.

Lemma bitmap_did f lk (s : fsys D) s' sb :
  fdid f lk s [] s' → bitmap f lk (ls_log (fs_l s)) sb → bitmap f lk (ls_log (fs_l s')) sb.
Proof. intros (t & -> & Hd). apply bitmap_place, Hd. Qed.

Definition used (f : Z → option (list Z)) (sb : superblock) (b : Z) : bool :=
  bit_used (default [] (f (BBLOCK b sb))) (b mod BPB).

Lemma BBLOCK_range b sb : 0 ≤ BBLOCK b sb < 2 ^ 32.
Proof. apply u32_range. Qed.

Lemma BBLOCK_same b j sb : b mod BPB = 0 → 0 ≤ j < BPB → BBLOCK (b + j) sb = BBLOCK b sb ∧ (b + j) mod BPB = j.
Proof. unfold BBLOCK, BPB, BSIZE. intros Hb Hj. split; [do 2 f_equal; zdiv | zdiv]. Qed.

Lemma BBLOCK_inj f lk l sb b c :
  bitmap f lk l sb → 0 ≤ b < sb_size sb → 0 ≤ c < sb_size sb → BBLOCK b sb = BBLOCK c sb →
  b / BPB = c / BPB ∧ (c mod BPB = b mod BPB → b = c).
Proof.
  intros [M1 M2 _ _ _] Hb Hc. unfold BBLOCK, BPB, BSIZE. rewrite !u32_id by zdiv. intros E. split; [lia |]. zdiv.
Qed.

(** What [balloc] writes: the bit, and the cleared block. *)
Definition alloc_ws (f : Z → option (list Z)) (sb : superblock) (b : Z) : writes :=
  [(BBLOCK b sb, bit_set (default [] (f (BBLOCK b sb))) (b mod BPB)); (b, replicate bsize 0)].

Lemma length_bit_set d bi : length (bit_set d bi) = length d.
Proof. apply length_insert. Qed.
Lemma length_bit_clear d bi : length (bit_clear d bi) = length d.
Proof. apply length_insert. Qed.

Lemma balloc_loop_spec fuel f lk (s : fsys D) b b0 :
  tx f lk (fs_l s) → (length lk ≤ 2)%nat → bitmap f lk (ls_log (fs_l s)) (fs_sb s) →
  0 ≤ b → b mod BPB = 0 → sb_size (fs_sb s) < b + Z.of_nat fuel * BPB →
  b ≤ b0 < sb_size (fs_sb s) → used f (fs_sb s) b0 = false → (∀ j, b ≤ j < b0 → used f (fs_sb s) j = true) →
  is_Some (f b0) → b0 ∉ lk → home (ls_log (fs_l s)) b0 →
  fits (fs_l s) [BBLOCK b0 (fs_sb s); b0] →
  wp (balloc_loop fuel 1 b) s (λ r s', r = b0 ∧ fdid f lk s (alloc_ws f (fs_sb s) b0) s').
Proof.
  revert s b. induction fuel as [|fuel IH]; intros s b Ht Hl Hbm Hb Hbm0 Hfuel Hb0 Hfree Hused [y Hy] Hlk Hh Hr;
    [unfold BPB, BSIZE in *; lia |].
  pose proof (bm_size _ _ _ _ Hbm) as Hsz. cbn [balloc_loop]. apply wp_bind, wp_gets.
  destruct (Z.leb_spec (sb_size (fs_sb s)) b); [lia |].
  destruct (bm_block _ _ _ _ Hbm b) as [x Hx]; [lia |]. pose proof (tx_length _ _ _ _ _ Ht Hx) as Hlx.
  eapply f_bread; [done | done | apply (bm_free _ _ _ _ Hbm); lia | done |]. intros i s1 Hs1.
  eapply f_bdata; [exact Hs1 |].
  assert (∀ j, 0 ≤ j < BPB → used f (fs_sb s) (b + j) = bit_used x j) as Hu.
  { intros j Hj. unfold used. destruct (BBLOCK_same b j (fs_sb s) Hbm0 Hj) as [-> ->]. by rewrite Hx. }
  assert (Z.of_nat (Z.to_nat BPB) = BPB) as EB by done.
  pose proof (find_free_spec (Z.to_nat BPB) (sb_size (fs_sb s)) b 0 x) as Hff. rewrite EB in Hff.
  destruct (find_free _ _ _ _ _) as [k|].
  - destruct Hff as (Hk & Hks & Hkf & Hkb). assert (b + k = b0) as Ek.
    { destruct (Z.lt_trichotomy (b + k) b0) as [Hlt|[|Hgt]]; [|done|]; exfalso.
      - specialize (Hused (b + k) ltac:(lia)). rewrite Hu in Hused by lia. congruence.
      - specialize (Hkb (b0 - b) ltac:(lia)). rewrite <- Hu in Hkb by lia. replace (b + (b0 - b)) with b0 in Hkb by lia.
        congruence. }
    destruct (BBLOCK_same b k (fs_sb s) Hbm0 ltac:(lia)) as [EBB Emod]. rewrite Ek in EBB, Emod.
    eapply (f_update _ f lk s [] i _ x s1 (λ data, bit_set data k)); [done | exact Hs1 | by rewrite length_bit_set | | |
      apply BBLOCK_range |].
    + eapply fits_sub; [|exact Hr]. cbn [fmap list_fmap app]. rewrite EBB. set_solver.
    + apply (bm_home _ _ _ _ Hbm). lia.
    + intros s2 Hs2. cbn [app] in Hs2. rewrite Ek. apply wp_bind. eapply wp_mono.
      { eapply (bzero_spec _ lk s2 b0); [by eapply fdid_tx | done | done | | | by eapply fdid_home | lia].
        2:{ eapply fdid_fits; [exact Hs2 |]. cbn [fmap list_fmap app fst]. by rewrite <- EBB. }
        rewrite apply_writes_one. instantiate (1 := if b0 =? BBLOCK b (fs_sb s) then bit_set x k else y).
        by destruct (b0 =? BBLOCK b (fs_sb s)). }
      intros [] s3 Hs3. apply wp_ret. split; [done |]. unfold alloc_ws. rewrite EBB, Emod, Hx.
      exact (fdid_trans _ _ _ _ _ _ _ Hs2 Hs3).
  - assert (b + BPB ≤ b0) as Hbb.
    { destruct (Z.le_gt_cases (b + BPB) b0) as [|Hgt]; [done |]. exfalso.
      specialize (Hff (b0 - b) ltac:(lia) ltac:(lia)). rewrite <- Hu in Hff by lia.
      replace (b + (b0 - b)) with b0 in Hff by lia. congruence. }
    eapply f_brelse; [exact Ht | exact Hs1 |]. intros s2 Hs2.
    pose proof (fdid_tx _ _ _ _ _ Hs2) as Ht2.
    destruct (fdid_frame _ _ _ _ _ Hs2) as (Esb & _). eapply wp_mono.
    { apply (IH s2 (b + BPB)); rewrite ?Esb; [done | done | | | | | lia | done | | by eexists | done | by eapply fdid_home | by eapply fdid_fits].
      - by eapply bitmap_did.
      - unfold BPB, BSIZE. lia.
      - unfold BPB, BSIZE in *. clear -Hbm0. zdiv.
      - clear -Hfuel. lia.
      - intros j Hj. apply Hused. unfold BPB, BSIZE in *. lia. }
    intros r s3 [-> Hs3]. rewrite Esb in Hs3. split; [done |]. exact (fdid_trans _ _ _ _ _ _ _ Hs2 Hs3).
Qed.

(** The first free block below the end of the disk. *)
Definition first_free (f : Z → option (list Z)) (sb : superblock) (b : Z) : Prop :=
  0 ≤ b < sb_size sb ∧ used f sb b = false ∧ ∀ j, 0 ≤ j < b → used f sb j = true.

Lemma balloc_spec f lk (s : fsys D) b :
  tx f lk (fs_l s) → (length lk ≤ 2)%nat → bitmap f lk (ls_log (fs_l s)) (fs_sb s) → first_free f (fs_sb s) b →
  is_Some (f b) → b ∉ lk → home (ls_log (fs_l s)) b →
  fits (fs_l s) [BBLOCK b (fs_sb s); b] →
  wp (balloc 1) s (λ r s', r = b ∧ fdid f lk s (alloc_ws f (fs_sb s) b) s').
Proof.
  intros Ht Hl Hbm (Hb & Hf & Hu) Hy Hlk Hh Hr. unfold balloc. apply wp_bind, wp_gets.
  apply balloc_loop_spec; try done. pose proof (bm_size _ _ _ _ Hbm) as Hsz. unfold BPB, BSIZE.
  rewrite Z2Nat.id by zdiv. zdiv.
Qed.

(** No free block: the kernel stops. *)
Lemma balloc_loop_full fuel f lk (s : fsys D) b :
  tx f lk (fs_l s) → (length lk ≤ 2)%nat → bitmap f lk (ls_log (fs_l s)) (fs_sb s) →
  0 ≤ b → b mod BPB = 0 → sb_size (fs_sb s) + BPB ≤ b + Z.of_nat fuel * BPB →
  (∀ j, b ≤ j < sb_size (fs_sb s) → used f (fs_sb s) j = true) →
  balloc_loop fuel 1 b s = Err (EPanic "balloc: out of blocks") ∨ sb_size (fs_sb s) + BPB ≤ b.
Proof.
  revert s b. induction fuel as [|fuel IH]; intros s b Ht Hl Hbm Hb Hbm0 Hfuel Hused; [right; lia | left; cbn [balloc_loop]].
  erewrite bind_ok by reflexivity. destruct (Z.leb_spec (sb_size (fs_sb s)) b); [done |].
  destruct (bm_block _ _ _ _ Hbm b) as [x Hx]; [lia |].
  destruct (f_bread_ok f lk s (BBLOCK b (fs_sb s)) x) as (i & s1 & E1 & Hs1); [done | done | | done |].
  { apply (bm_free _ _ _ _ Hbm). lia. }
  erewrite bind_ok by exact E1. erewrite bind_ok by (by eapply f_bdata_ok).
  pose proof (find_free_spec (Z.to_nat BPB) (sb_size (fs_sb s)) b 0 x) as Hff.
  assert (Z.of_nat (Z.to_nat BPB) = BPB) as EB by done. rewrite EB in Hff.
  destruct (find_free _ _ _ _ _) as [k|].
  { exfalso. destruct Hff as (Hk & Hks & Hkf & _). specialize (Hused (b + k) ltac:(lia)). unfold used in Hused.
    destruct (BBLOCK_same b k (fs_sb s) Hbm0 ltac:(lia)) as [E2 E3]. rewrite E2, E3, Hx in Hused.
    simpl in Hused. congruence. }
  destruct (f_brelse_ok f lk s [] i (BBLOCK b (fs_sb s)) x s1 Ht Hs1) as (s2 & E2 & Hs2).
  erewrite bind_ok by exact E2. destruct (fdid_frame _ _ _ _ _ Hs2) as (Esb & _).
  destruct (IH s2 (b + BPB)) as [|Hx2]; rewrite ?Esb in *; [exact (fdid_tx _ _ _ _ _ Hs2) | done | by eapply bitmap_did | | | | | done |].
  - unfold BPB, BSIZE. lia.
  - unfold BPB, BSIZE in *. clear -Hbm0. zdiv.
  - clear -Hfuel. lia.
  - intros j Hj. apply Hused. unfold BPB, BSIZE in *. lia.
  - unfold BPB, BSIZE in *. lia.
Qed.

Lemma balloc_full f lk (s : fsys D) :
  tx f lk (fs_l s) → (length lk ≤ 2)%nat → bitmap f lk (ls_log (fs_l s)) (fs_sb s) →
  (∀ j, 0 ≤ j < sb_size (fs_sb s) → used f (fs_sb s) j = true) →
  balloc 1 s = Err (EPanic "balloc: out of blocks").
Proof.
  intros Ht Hl Hbm Hu. pose proof (bm_size _ _ _ _ Hbm) as Hsz. unfold balloc. erewrite bind_ok by reflexivity.
  destruct (balloc_loop_full (Z.to_nat (sb_size (fs_sb s) / BPB + 2)) f lk s 0) as [|Hx]; try done.
  - unfold BPB, BSIZE. rewrite Z2Nat.id by zdiv. zdiv.
  - unfold BPB, BSIZE in *. lia.
Qed.

(** ** [bfree] *)

Definition free_ws (f : Z → option (list Z)) (sb : superblock) (b : Z) : writes :=
  [(BBLOCK b sb, bit_clear (default [] (f (BBLOCK b sb))) (b mod BPB))].

Lemma bfree_spec f lk (s : fsys D) b :
  tx f lk (fs_l s) → (length lk ≤ 2)%nat → bitmap f lk (ls_log (fs_l s)) (fs_sb s) →
  0 ≤ b < sb_size (fs_sb s) → used f (fs_sb s) b = true → fits (fs_l s) [BBLOCK b (fs_sb s)] →
  wp (bfree 1 b) s (λ _ s', fdid f lk s (free_ws f (fs_sb s) b) s').
Proof.
  intros Ht Hl Hbm Hb Hu Hr. destruct (bm_block _ _ _ _ Hbm b Hb) as [x Hx].
  unfold bfree. apply wp_bind, wp_gets.
  eapply f_bread; [done | done | by apply (bm_free _ _ _ _ Hbm) | done |]. intros i s1 Hs1.
  eapply f_bdata; [exact Hs1 |]. cbv zeta. unfold used in Hu. rewrite Hx in Hu. simpl in Hu. rewrite Hu. cbn [negb].
  eapply (f_update_end f lk s [] i _ x s1 (λ data, bit_clear data (b mod BPB))); [done | exact Hs1 | | done | | apply BBLOCK_range |].
  - rewrite length_bit_clear. by apply (tx_length f lk (fs_l s) (BBLOCK b (fs_sb s))).
  - by apply (bm_home _ _ _ _ Hbm).
  - intros s' Hs'. unfold free_ws. by rewrite Hx.
Qed.

(** ** The bitmap after each *)

Lemma used_alloc f lk (t : lst D) sb b c :
  tx f lk t → bitmap f lk (ls_log t) sb → 0 ≤ b < sb_size sb → 0 ≤ c < sb_size sb →
  (∀ c, 0 ≤ c < sb_size sb → BBLOCK c sb ≠ b) →
  used (apply_writes (alloc_ws f sb b) f) sb c = (c =? b) || used f sb c.
Proof.
  intros Ht Hbm Hb Hc Hne. unfold used, alloc_ws.
  change [?a; ?b] with ([a] ++ [b]). rewrite apply_writes_app, !apply_writes_one.
  destruct (Z.eqb_spec (BBLOCK c sb) b) as [E|_]; [by apply Hne in E; lia |].
  destruct (Z.eqb_spec (BBLOCK c sb) (BBLOCK b sb)) as [E|E].
  - rewrite <- E. destruct (bm_block _ _ _ _ Hbm c Hc) as [x Hx]. rewrite Hx. simpl.
    rewrite bit_used_set; [|by eapply tx_length | unfold BPB, BSIZE; zdiv..]. f_equal.
    destruct (BBLOCK_inj _ _ _ _ c b Hbm Hc Hb E) as [? Em].
    destruct (Z.eqb_spec c b) as [->|Hcb]; [by rewrite Z.eqb_refl |]. apply Z.eqb_neq. intros E'. apply Hcb. by apply Em.
  - destruct (Z.eqb_spec c b) as [->|]; done.
Qed.

Lemma used_free f lk (t : lst D) sb b c :
  tx f lk t → bitmap f lk (ls_log t) sb → 0 ≤ b < sb_size sb → 0 ≤ c < sb_size sb →
  used (apply_writes (free_ws f sb b) f) sb c = negb (c =? b) && used f sb c.
Proof.
  intros Ht Hbm Hb Hc. unfold used, free_ws. rewrite apply_writes_one.
  destruct (Z.eqb_spec (BBLOCK c sb) (BBLOCK b sb)) as [E|E].
  - rewrite <- E. destruct (bm_block _ _ _ _ Hbm c Hc) as [x Hx]. rewrite Hx. simpl.
    rewrite bit_used_clear; [|by eapply tx_length | unfold BPB, BSIZE; zdiv..]. do 2 f_equal.
    destruct (BBLOCK_inj _ _ _ _ c b Hbm Hc Hb E) as [? Em].
    destruct (Z.eqb_spec c b) as [->|Hcb]; [by rewrite Z.eqb_refl |]. apply Z.eqb_neq. intros E'. apply Hcb. by apply Em.
  - destruct (Z.eqb_spec c b) as [->|]; done.
Qed.

End FsAlloc.
