(* ===== verification/FsFile.v ===== *)
(** * File contents ([fs.c]: [bmap] of a block that exists, [readi])

    A file is a map from offsets to bytes, given by its inode and the blocks
    ([content]); [readi] returns a part of it. *)

From S2P Require Import Prelude Mmu Bytes Disk Bio FsFormat Log LogSpec LogOps FsTx Console Fs FsStep FsAlloc.

(** ** The blocks of a file *)

Definition indirect (di : dinode) : Z := default 0 (di_addrs di !! NDIRECT).

(** Address of block [k] of the file; 0 if there is none. *)
Definition addr_of (f : Z → option (list Z)) (di : dinode) (k : Z) : Z :=
  if k <? Z.of_nat NDIRECT then default 0 (di_addrs di !! Z.to_nat k)
  else if indirect di =? 0 then 0
  else get32 (default [] (f (indirect di))) (4 * Z.to_nat (k - Z.of_nat NDIRECT)).

(** Byte [off] of the file; a block it does not have counts as zero. *)
Definition content (f : Z → option (list Z)) (di : dinode) (off : Z) : Z :=
  if addr_of f di (off / BSIZE) =? 0 then 0 else
  byte_at (default [] (f (addr_of f di (off / BSIZE)))) (Z.to_nat (off mod BSIZE)).

(** Block [k] exists, and nobody holds the buffers it takes to read it. *)
Record mapped_block (f : Z → option (list Z)) (lk : list Z) (di : dinode) (k : Z) : Prop := MappedBlock {
  mb_range : 0 ≤ k < Z.of_nat MAXFILE;
  mb_addr : addr_of f di k ≠ 0;
  mb_block : is_Some (f (addr_of f di k));
  mb_free : addr_of f di k ∉ lk;
  mb_ind : Z.of_nat NDIRECT ≤ k → is_Some (f (indirect di)) ∧ indirect di ∉ lk;
}.

Lemma slice_bytes x a m :
  0 ≤ a → 0 ≤ m → a + m ≤ Z.of_nat (length x) →
  slice (Z.to_nat a) (Z.to_nat m) x = (λ j, byte_at x (Z.to_nat j)) <$> seqZ a m.
Proof.
  intros Ha Hm Hl. apply list_eq. intros i. rewrite lookup_slice, list_lookup_fmap.
  case_decide as Hi.
  - rewrite lookup_seqZ_lt by lia. simpl. unfold byte_at.
    replace (Z.to_nat (a + Z.of_nat i)) with (Z.to_nat a + i)%nat by lia.
    destruct (x !! (Z.to_nat a + i)%nat) eqn:E; [done |]. apply lookup_ge_None in E. lia.
  - rewrite lookup_seqZ_ge by lia. done.
Qed.

Section FsFile.
Context {D : Type} `{DiskLaws D}.

Lemma wp_i_get {A} (s : fsys D) i ip (k : inode → M (fsys D) A) Q :
  fs_inodes s !! i = Some ip → wp (k ip) s Q → wp (i_get i ≫= k) s Q.
Proof. intros Hi Hk. apply wp_bind. eapply wp_intro; [|exact Hk]. unfold i_get. by rewrite Hi. Qed.

(** ** [bmap] of a block that exists *)

Lemma bmap_mapped f lk (s : fsys D) i ip k :
  tx f lk (fs_l s) → (length lk ≤ 2)%nat → fs_inodes s !! i = Some ip → i_dev ip = 1 →
  mapped_block f lk (i_d ip) k →
  wp (bmap i k) s (λ a s', a = addr_of f (i_d ip) k ∧ fdid f lk s [] s').
Proof.
  intros Ht Hl Hi Hd [Hk Ha Hb Hf Hind]. unfold bmap. eapply wp_i_get; [done |].
  unfold addr_of, indirect in *. destruct (Z.ltb_spec k (Z.of_nat NDIRECT)) as [Hlt|Hge].
  { destruct (Z.eqb_spec (default 0 (di_addrs (i_d ip) !! Z.to_nat k)) 0); [done |].
    apply wp_ret. split; [done | by apply fdid_refl]. }
  unfold MAXFILE in Hk. destruct (Z.ltb_spec (k - Z.of_nat NDIRECT) (Z.of_nat NINDIRECT)); [|lia].
  destruct (Z.eqb_spec (default 0 (di_addrs (i_d ip) !! NDIRECT)) 0) as [|Hn0]; [done |].
  destruct (Hind Hge) as [[x Hx] Hni]. rewrite Hx in Ha |- *. cbn [default] in *. rewrite Hd.
  apply wp_bind, wp_ret. eapply f_bread; [done.. |]. intros b s1 Hs1. eapply f_bdata; [exact Hs1 |]. cbv zeta.
  destruct (Z.eqb_spec (get32 x (4 * Z.to_nat (k - Z.of_nat NDIRECT))) 0); [done |].
  apply wp_bind, wp_ret. eapply f_brelse; [exact Ht | exact Hs1 |]. intros s2 Hs2. by apply wp_ret.
Qed.

(** ** [readi] *)

Lemma fmap_seqZ_shift {A} (g : Z → A) a b m : g <$> seqZ (a + b) m = (λ j, g (a + j)) <$> seqZ b m.
Proof.
  apply list_eq. intros i. rewrite !list_lookup_fmap. destruct (decide (Z.of_nat i < m)).
  - rewrite !lookup_seqZ_lt by lia. simpl. do 2 f_equal. lia.
  - rewrite !lookup_seqZ_ge by lia. done.
Qed.

(** Part of one block of the file. *)
Lemma content_chunk f di off m x :
  0 ≤ off → 0 ≤ m → off mod BSIZE + m ≤ BSIZE → addr_of f di (off / BSIZE) ≠ 0 → f (addr_of f di (off / BSIZE)) = Some x → length x = bsize →
  slice (Z.to_nat (off mod BSIZE)) (Z.to_nat m) x = content f di <$> seqZ off m.
Proof.
  intros Ho Hm Hb Ha Hx Hl. unfold BSIZE in *. pose proof (Z.mod_pos_bound off 512 ltac:(lia)) as Hr.
  rewrite slice_bytes by (try lia; rewrite Hl; change (Z.of_nat bsize) with 512; lia).
  replace (seqZ off m) with (seqZ (off - off mod 512 + off mod 512) m) by (f_equal; lia).
  rewrite fmap_seqZ_shift. apply list_fmap_ext. intros i j (-> & Hij)%lookup_seqZ.
  unfold content, BSIZE. replace ((off - off mod 512 + (off mod 512 + Z.of_nat i)) / 512) with (off / 512) by zdiv.
  replace ((off - off mod 512 + (off mod 512 + Z.of_nat i)) mod 512) with (off mod 512 + Z.of_nat i) by zdiv.
  destruct (Z.eqb_spec (addr_of f di (off / 512)) 0); [done |]. by rewrite Hx.
Qed.

Lemma readi_loop_spec fuel f lk (s : fsys D) i ip off n acc :
  tx f lk (fs_l s) → (length lk ≤ 2)%nat → fs_inodes s !! i = Some ip → i_dev ip = 1 →
  (Z.to_nat n < fuel)%nat → 0 ≤ off → 0 ≤ n →
  (∀ k, off / BSIZE ≤ k → BSIZE * k < off + n → mapped_block f lk (i_d ip) k) →
  wp (readi_loop fuel i off n acc) s (λ r s', r = acc ++ (content f (i_d ip) <$> seqZ off n) ∧ fdid f lk s [] s').
Proof.
  revert s off n acc. induction fuel as [|fuel IH]; intros s off n acc Ht Hl Hi Hd Hfuel Ho Hn Hmap; [lia |].
  cbn [readi_loop]. destruct (Z.leb_spec n 0) as [Hle|Hgt].
  { apply wp_ret. replace n with 0 by lia. simpl. rewrite app_nil_r. split; [done | by apply fdid_refl]. }
  eapply wp_i_get; [done |]. unfold BSIZE in *.
  pose proof (Z.mod_pos_bound off 512 ltac:(lia)) as Hr.
  assert (mapped_block f lk (i_d ip) (off / 512)) as Hm by (apply Hmap; zdiv).
  apply wp_bind. eapply wp_mono; [by apply (bmap_mapped f lk s i ip) |]. intros a s1 [-> Hs1].
  pose proof (fdid_tx _ _ _ _ _ Hs1) as Ht1. destruct (mb_block _ _ _ _ Hm) as [x Hx]. rewrite Hd.
  eapply f_bread; [exact Ht1 | done | apply Hm | done |]. intros b s2 Hs2. cbv zeta.
  eapply f_bdata; [exact Hs2 |]. eapply f_brelse; [exact Ht1 | exact Hs2 |]. intros s3 Hs3.
  pose proof (fdid_trans _ _ _ _ _ _ _ Hs1 Hs3) as Hs13. destruct (fdid_frame _ _ _ _ _ Hs13) as (_ & Ei & _).
  set (m := n `min` (512 - off mod 512)). assert (0 < m ≤ n ∧ off mod 512 + m ≤ 512) as [Hm1 Hm2] by (unfold m; lia).
  eapply wp_mono.
  { apply (IH s3); [exact (fdid_tx _ _ _ _ _ Hs13) | done | by rewrite Ei | done | lia | lia | lia |].
    intros k Hk1 Hk2. apply Hmap; [|lia]. zdiv. }
  intros r s4 [-> Hs4]. split; [|exact (fdid_trans _ _ _ _ _ _ _ Hs13 Hs4)].
  rewrite <- app_assoc. f_equal.
  assert (length x = bsize) as Hlx by (by eapply (tx_length f lk (fs_l s))).
  pose proof (content_chunk f (i_d ip) off m x Ho ltac:(lia) Hm2 (mb_addr _ _ _ _ Hm) Hx Hlx) as Ec. unfold BSIZE in Ec. rewrite Ec.
  rewrite <- fmap_app. f_equal. replace n with (m + (n - m)) at 2 by lia. by rewrite seqZ_app by lia.
Qed.

(** [readi] of a file: the part of its contents inside the range asked for. *)
Lemma readi_spec f lk (s : fsys D) i ip off n :
  tx f lk (fs_l s) → (length lk ≤ 2)%nat → fs_inodes s !! i = Some ip → i_dev ip = 1 →
  di_type (i_d ip) ≠ T_DEV → 0 ≤ off → 0 ≤ n → off + n < 2 ^ 32 →
  (∀ k, 0 ≤ k → BSIZE * k < di_size (i_d ip) → mapped_block f lk (i_d ip) k) →
  let m := Z.min n (di_size (i_d ip) - off) in
  wp (readi i off n) s (λ r s', fdid f lk s [] s' ∧
    if di_size (i_d ip) <? off then r = (-1, []) else r = (m, content f (i_d ip) <$> seqZ off m)).
Proof.
  intros Ht Hl Hi Hd Hty Ho Hn Hov Hmap m. unfold readi. eapply wp_i_get; [done |].
  destruct (Z.eqb_spec (di_type (i_d ip)) T_DEV); [done |]. cbv zeta. rewrite u32_id by lia.
  destruct (Z.ltb_spec (di_size (i_d ip)) off) as [Hlt|Hge].
  { apply wp_ret. split; [by apply fdid_refl | done]. }
  destruct (Z.ltb_spec (off + n) off); [lia |]. cbn [orb].
  assert ((if di_size (i_d ip) <? off + n then di_size (i_d ip) - off else n) = m) as ->.
  { unfold m. destruct (Z.ltb_spec (di_size (i_d ip)) (off + n)); lia. }
  apply wp_bind. eapply wp_mono.
  { apply (readi_loop_spec _ f lk s i ip off m []); try done; unfold m; try lia.
    intros k Hk1 Hk2. apply Hmap; unfold BSIZE in *; try lia. zdiv. }
  intros r s' [-> Hs']. by apply wp_ret.
Qed.

End FsFile.
