(* ===== verification/FsGrow.v ===== *)
(** * Growing a file ([fs.c]: [bmap])

    The blocks of the file system are free or in use, and a file's blocks
    are its own ([fs_ok], [file_ok]).  [bmap] finds the block of a file, or
    takes a free one for it; the contents of the file stay the same, as does
    everything else on the disk. *)

From S2P Require Import Prelude Mmu Bytes Disk Bio FsFormat Log LogSpec LogOps FsTx Console Fs FsStep FsAlloc FsFile.

Lemma byte_at_zeros n i : byte_at (replicate n 0) i = 0.
Proof. unfold byte_at. destruct (replicate n 0 !! i) eqn:E; [|done]. by apply lookup_replicate in E as [-> _]. Qed.

Lemma get32_zeros n i : get32 (replicate n 0) i = 0.
Proof. unfold get32. by rewrite !byte_at_zeros. Qed.

(** ** Blocks free and in use *)

(** The blocks of the bitmap *)
Definition bmblocks (sb : superblock) : list Z :=
  (λ j, u32 (j + sb_bmapstart sb)) <$> seqZ 0 ((sb_size sb - 1) / BPB + 1).

Lemma BBLOCK_bmblocks b sb : 0 ≤ b < sb_size sb → BBLOCK b sb ∈ bmblocks sb.
Proof.
  intros Hb. unfold BBLOCK, bmblocks. apply list_elem_of_fmap. exists (b / BPB). split; [done |].
  apply elem_of_seqZ. unfold BPB, BSIZE. zdiv.
Qed.

Lemma bmblocks_BBLOCK m sb : 0 < sb_size sb → m ∈ bmblocks sb → ∃ c, 0 ≤ c < sb_size sb ∧ m = BBLOCK c sb.
Proof.
  intros Hs (j & -> & Hj%elem_of_seqZ)%list_elem_of_fmap. exists (j * BPB). unfold BBLOCK, BPB, BSIZE in *.
  rewrite Z.div_mul by lia. split; [zdiv | done].
Qed.

(** A block outside the bitmap that a file may have *)
Record block_ok (f : Z → option (list Z)) (lk : list Z) (l : log) (sb : superblock) (b : Z) : Prop := BlockOk {
  bo_range : 0 < b < sb_size sb;
  bo_block : is_Some (f b);
  bo_lock : b ∉ lk;
  bo_home : home l b;
  bo_data : b ∉ bmblocks sb;
}.

Record fs_ok (f : Z → option (list Z)) (lk : list Z) (l : log) (sb : superblock) : Prop := FsOk {
  fo_map : bitmap f lk l sb;
  fo_free b : 0 ≤ b < sb_size sb → used f sb b = false → block_ok f lk l sb b;
}.

Definition free_count (f : Z → option (list Z)) (sb : superblock) : nat :=
  length (filter (λ b, used f sb b = false) (seqZ 0 (sb_size sb))).

Lemma free_count_ext f f' sb :
  (∀ c, 0 ≤ c < sb_size sb → used f sb c = used f' sb c) → free_count f sb = free_count f' sb.
Proof.
  intros Hu. unfold free_count. f_equal.
  assert (∀ c, c ∈ seqZ 0 (sb_size sb) → used f sb c = used f' sb c) as Hl by (intros c ?%elem_of_seqZ; apply Hu; lia).
  induction (seqZ 0 (sb_size sb)) as [|c r IH]; [done |].
  rewrite !filter_cons, (Hl c) by (by left). rewrite IH; [done |]. intros d Hd. apply Hl. by right.
Qed.

Lemma first_free_exists f sb : (1 ≤ free_count f sb)%nat → ∃ b, first_free f sb b.
Proof.
  unfold free_count. set (P := λ b, used f sb b = false). intros Hl.
  destruct (filter P (seqZ 0 (sb_size sb))) as [|x r] eqn:E; [simpl in Hl; lia |].
  assert (x ∈ filter P (seqZ 0 (sb_size sb))) as [Hx Hin]%list_elem_of_filter by (rewrite E; by left).
  destruct (list_find_elem_of P _ _ Hin Hx) as [[i b] Hf].
  apply list_find_Some in Hf as ([-> Hi]%lookup_seqZ & Hb & Hmin).
  exists (0 + Z.of_nat i). split_and!; [lia | lia | done |]. intros j Hj.
  destruct (used f sb j) eqn:Hu; [done |]. exfalso. apply (Hmin (Z.to_nat j) j); [|lia | done].
  apply lookup_seqZ. lia.
Qed.

(** A free block [b] was taken by the writes [ws]. *)
Record took (f : Z → option (list Z)) (sb : superblock) (b : Z) (ws : writes) : Prop := Took {
  tk_range : 0 ≤ b < sb_size sb;
  tk_free : used f sb b = false;
  tk_zero : apply_writes ws f b = Some (replicate bsize 0);
  tk_used c : 0 ≤ c < sb_size sb → used (apply_writes ws f) sb c = (c =? b) || used f sb c;
  tk_same m : m ≠ b → m ∉ bmblocks sb → apply_writes ws f m = f m;
  tk_some m : is_Some (f m) → is_Some (apply_writes ws f m);
  tk_ws m : m ∈ ws.*1 → m = b ∨ m ∈ bmblocks sb;
}.

Lemma block_ok_mono f lk l sb f' lk' l' b :
  block_ok f lk l sb b → is_Some (f' b) → same_place l l' → (b ∈ lk' → b ∈ lk) → block_ok f' lk' l' sb b.
Proof. intros [B1 B2 B3 B4 B5] Hs Hp Hl. constructor; try done; [tauto | by eapply home_place]. Qed.

Lemma fs_ok_took f lk l l' sb b ws :
  fs_ok f lk l sb → took f sb b ws → same_place l l' → fs_ok (apply_writes ws f) lk l' sb.
Proof.
  intros [M F] T Hp. constructor.
  - destruct (bitmap_place _ _ _ _ _ Hp M) as [M1 M2 M3 M4 M5]. constructor; try done. intros c Hc.
    by apply (tk_some _ _ _ _ T), M3.
  - intros c Hc Hu. rewrite (tk_used _ _ _ _ T c Hc) in Hu. apply orb_false_iff in Hu as [_ Hu].
    pose proof (F c Hc Hu) as B. eapply block_ok_mono; try done. apply (tk_some _ _ _ _ T), B.
Qed.

Lemma length_filter_drop `{EqDecision A} (P Q : A → Prop) `{!∀ x, Decision (P x)} `{!∀ x, Decision (Q x)} (l : list A) b :
  NoDup l → b ∈ l → P b → (∀ x, x ∈ l → Q x ↔ P x ∧ x ≠ b) → length (filter P l) = S (length (filter Q l)).
Proof.
  intros Hnd Hb HP Hq. assert (filter P l ≡ₚ b :: filter Q l) as ->; [|done].
  apply NoDup_Permutation; [by apply list.NoDup_filter | |].
  - apply list.NoDup_cons. split; [|by apply list.NoDup_filter]. rewrite list_elem_of_filter. intros [Hx _].
    by apply Hq in Hx as [_ Hx].
  - intros x. rewrite elem_of_cons, !list_elem_of_filter. split.
    + intros [Hx Hin]. rewrite Hq by done. destruct (decide (x = b)); [by left | by right].
    + intros [->|[Hx Hin]]; [done |]. split; [by apply Hq | done].
Qed.

Lemma free_count_took f sb b ws :
  took f sb b ws → free_count f sb = S (free_count (apply_writes ws f) sb).
Proof.
  intros T. unfold free_count. apply (length_filter_drop _ _ _ b).
  - apply NoDup_seqZ.
  - apply elem_of_seqZ. pose proof (tk_range _ _ _ _ T). lia.
  - apply (tk_free _ _ _ _ T).
  - intros x Hx%elem_of_seqZ. rewrite (tk_used _ _ _ _ T x) by lia. rewrite orb_false_iff, Z.eqb_neq. tauto.
Qed.

(** Room in the log for the bitmap and [n] blocks more *)
Definition fits_more {D} (l : lst D) (sb : superblock) (n : nat) : Prop :=
  ∀ C, (length C ≤ n)%nat → fits l (bmblocks sb ++ C).

Lemma fits_more_le {D} (l : lst D) sb n n' : (n' ≤ n)%nat → fits_more l sb n → fits_more l sb n'.
Proof. intros Hn Hf C HC. apply Hf. lia. Qed.

(** ** The blocks of a file *)

(** Slot -1 is the indirect block, slot [k] block [k] of the file. *)
Definition slot (f : Z → option (list Z)) (di : dinode) (k : Z) : Z :=
  if k =? -1 then indirect di else addr_of f di k.

Definition slot_range (k : Z) : Prop := -1 ≤ k < Z.of_nat MAXFILE.

Record file_ok (f : Z → option (list Z)) (lk : list Z) (l : log) (sb : superblock) (di : dinode) : Prop := FileOk {
  fi_len : length (di_addrs di) = (NDIRECT + 1)%nat;
  fi_slot k : slot_range k → slot f di k ≠ 0 → block_ok f lk l sb (slot f di k) ∧ used f sb (slot f di k) = true;
  fi_inj k k' : slot_range k → slot_range k' → slot f di k ≠ 0 → slot f di k = slot f di k' → k = k';
}.

(** The file changed by [ws], in the slots [K]; other blocks in use stay as they are. *)
Record grew (f : Z → option (list Z)) (sb : superblock) (di : dinode) (ws : writes) (di' : dinode) (K : list Z) : Prop := Grew {
  gr_keep k : slot_range k → slot f di k ≠ 0 → slot (apply_writes ws f) di' k = slot f di k;
  gr_new k : slot_range k → slot f di k = 0 → slot (apply_writes ws f) di' k ≠ 0 →
    0 ≤ slot (apply_writes ws f) di' k < sb_size sb ∧ used f sb (slot (apply_writes ws f) di' k) = false;
  gr_frame b : 0 ≤ b < sb_size sb → used f sb b = true → b ∉ bmblocks sb →
    (∀ k, slot_range k → slot f di k ≠ 0 → slot f di k ≠ b) → apply_writes ws f b = f b;
  gr_used b : 0 ≤ b < sb_size sb → used f sb b = true → used (apply_writes ws f) sb b = true;
  gr_ws m : m ∈ ws.*1 → m ∈ bmblocks sb ∨ ∃ k, k ∈ K ∧ slot_range k ∧ m = slot (apply_writes ws f) di' k ∧ m ≠ 0;
  gr_meta : di' = Dinode (di_type di) (di_major di) (di_minor di) (di_nlink di) (di_size di) (di_addrs di');
}.

Lemma grew_refl f sb di K : grew f sb di [] di K.
Proof.
  constructor; try done; [|by destruct di]. intros m Hm. by apply elem_of_nil in Hm.
Qed.

Lemma grew_trans f sb di ws di1 K1 ws' di2 K2 :
  grew f sb di ws di1 K1 → grew (apply_writes ws f) sb di1 ws' di2 K2 → grew f sb di (ws ++ ws') di2 (K1 ++ K2).
Proof.
  intros A B. constructor.
  - intros k Hk Hs. rewrite apply_writes_app. pose proof (gr_keep _ _ _ _ _ _ A k Hk Hs) as E1.
    rewrite <- E1. apply (gr_keep _ _ _ _ _ _ B); [done | congruence].
  - intros k Hk Hs. rewrite apply_writes_app. intros Hn.
    destruct (decide (slot (apply_writes ws f) di1 k = 0)) as [E1|E1].
    + destruct (gr_new _ _ _ _ _ _ B k Hk E1 Hn) as [Hr Hu]. split; [done |].
      destruct (used f sb _) eqn:Hu'; [|done]. apply (gr_used _ _ _ _ _ _ A) in Hu'; [congruence | done].
    + rewrite (gr_keep _ _ _ _ _ _ B k Hk E1). by apply (gr_new _ _ _ _ _ _ A).
  - intros b Hb Hu Hm Hs. rewrite apply_writes_app, <- (gr_frame _ _ _ _ _ _ A b Hb Hu Hm Hs).
    apply (gr_frame _ _ _ _ _ _ B); [done | by apply (gr_used _ _ _ _ _ _ A) | done |]. intros k Hk Hn E.
    destruct (decide (slot f di k = 0)) as [E0|E0].
    + destruct (gr_new _ _ _ _ _ _ A k Hk E0 Hn) as [_ Hu']. congruence.
    + apply (Hs k Hk E0). by rewrite <- (gr_keep _ _ _ _ _ _ A k Hk E0).
  - intros b Hb Hu. rewrite apply_writes_app. by apply (gr_used _ _ _ _ _ _ B), (gr_used _ _ _ _ _ _ A).
  - intros m. rewrite fmap_app, elem_of_app, apply_writes_app. intros [Hm|Hm].
    + apply (gr_ws _ _ _ _ _ _ A) in Hm as [?|(k & Hk & Hr & -> & Hn)]; [by left |]. right. exists k.
      rewrite (gr_keep _ _ _ _ _ _ B k Hr Hn). set_solver.
    + apply (gr_ws _ _ _ _ _ _ B) in Hm as [?|(k & Hk & Hr & -> & Hn)]; [by left |]. right. exists k. set_solver.
  - rewrite (gr_meta _ _ _ _ _ _ B), (gr_meta _ _ _ _ _ _ A). done.
Qed.

(** Blocks still to take for the indirect block *)
Definition need_ind (di : dinode) : nat := if indirect di =? 0 then 1 else 0.

(** What [bmap] establishes: [ws] and [di'] give slot [k] a block and change no contents; [c] blocks more than
    the indirect block were taken. *)
Record grown (f : Z → option (list Z)) (lk : list Z) (l' : log) (sb : superblock) (di : dinode) (k : Z)
    (ws : writes) (di' : dinode) (c : nat) : Prop := Grown {
  gn_grew : grew f sb di ws di' [-1; k];
  gn_fs : fs_ok (apply_writes ws f) lk l' sb;
  gn_file : file_ok (apply_writes ws f) lk l' sb di';
  gn_slot : slot (apply_writes ws f) di' k ≠ 0;
  gn_content off : 0 ≤ off < Z.of_nat MAXFILE * BSIZE → content (apply_writes ws f) di' off = content f di off;
  gn_count : (free_count f sb + need_ind di' ≤ c + (free_count (apply_writes ws f) sb + need_ind di))%nat;
}.

(** A block is taken for slot [k]. *)
Section Extend.
Variables (f : Z → option (list Z)) (lk : list Z) (l l' : log) (sb : superblock) (di di' : dinode) (k b : Z).
Variables (ws ws2 : writes).
Hypothesis (Hok : file_ok f lk l sb di) (Hfs : fs_ok f lk l sb) (T : took f sb b ws) (Hp : same_place l l').
Hypothesis (Hk : slot_range k) (Hs : slot f di k = 0).
Let f1 := apply_writes ws f.
Let f2 := apply_writes (ws ++ ws2) f.
Hypothesis (H2 : ∀ m, m ≠ indirect di ∨ indirect di = 0 → f2 m = f1 m) (H2s : is_Some (f1 (indirect di)) → is_Some (f2 (indirect di))).
Hypothesis (H2w : ∀ m, m ∈ ws2.*1 → m = indirect di ∧ m ≠ 0).
Hypothesis (Hk' : slot f2 di' k = b) (Ho : ∀ j, slot_range j → j ≠ k → slot f2 di' j = slot f di j).
Hypothesis (Hl : length (di_addrs di') = (NDIRECT + 1)%nat).
Hypothesis (Hmeta : di' = Dinode (di_type di) (di_major di) (di_minor di) (di_nlink di) (di_size di) (di_addrs di')).

Lemma fresh_slot j : slot_range j → slot f di j ≠ 0 → slot f di j ≠ b.
Proof using Hok T. intros Hj Hn E. destruct (fi_slot _ _ _ _ _ Hok j Hj Hn) as [_ Hu]. pose proof (tk_free _ _ _ _ T). congruence. Qed.

Lemma fresh_ok : block_ok f lk l sb b.
Proof using Hfs T. apply (fo_free _ _ _ _ Hfs); [apply T | by apply (tk_free _ _ _ _ T)]. Qed.

Lemma ind_slot : slot f di (-1) = indirect di.
Proof using. done. Qed.

Lemma ind_not_fresh : indirect di ≠ b.
Proof using Hok Hfs T.
  clear Hl. destruct (decide (indirect di = 0)) as [->|Hn]; [pose proof (bo_range _ _ _ _ _ fresh_ok); lia |].
  apply (fresh_slot (-1)); [unfold slot_range; lia | done].
Qed.

Lemma ind_not_bitmap m : m ∈ bmblocks sb → indirect di ≠ 0 → m ≠ indirect di.
Proof using Hok.
  clear Hl. intros Hm Hn ->. destruct (fi_slot _ _ _ _ _ Hok (-1)) as [B _]; [unfold slot_range; lia | done |].
  by apply (bo_data _ _ _ _ _ B).
Qed.

Lemma ext_bitmap m : m ∈ bmblocks sb → f2 m = f1 m.
Proof using Hok H2.
  intros Hm. apply H2. destruct (decide (indirect di = 0)); [by right | left]. by apply ind_not_bitmap.
Qed.

Lemma ext_used c : 0 ≤ c < sb_size sb → used f2 sb c = (c =? b) || used f sb c.
Proof using Hok H2 T.
  intros Hc. rewrite <- (tk_used _ _ _ _ T c Hc). unfold used.
  rewrite (ext_bitmap (BBLOCK c sb)); [done | by apply BBLOCK_bmblocks].
Qed.

Lemma ext_same m : m ≠ b → m ∉ bmblocks sb → m ≠ indirect di ∨ indirect di = 0 → f2 m = f m.
Proof using H2 T. intros Hb Hm Hi. rewrite (H2 m Hi). by apply (tk_same _ _ _ _ T). Qed.

Lemma ext_some m : is_Some (f m) → is_Some (f2 m).
Proof using H2 H2s T.
  intros Hm. apply (tk_some _ _ _ _ T) in Hm. destruct (decide (m = indirect di)) as [->|Hn]; [by apply H2s |].
  rewrite H2; [done | by left].
Qed.

Lemma ext_fs_ok : fs_ok f2 lk l' sb.
Proof using All.
  pose proof Hfs as [M F]. constructor.
  - destruct (bitmap_place _ _ _ _ _ Hp M) as [M1 M2 M3 M4 M5]. constructor; try done. intros c Hc.
    by apply ext_some, M3.
  - intros c Hc Hu. rewrite ext_used in Hu by done. apply orb_false_iff in Hu as [_ Hu].
    pose proof (F c Hc Hu) as B. eapply block_ok_mono; try done. apply ext_some, B.
Qed.

Lemma ext_file_ok : file_ok f2 lk l' sb di'.
Proof using All.
  assert (∀ j, slot_range j → slot f2 di' j = slot f di j ∨ j = k) as Hj.
  { intros j Hj. destruct (decide (j = k)); [by right | left; by apply Ho]. }
  constructor; [done | |].
  - intros j Hr Hn. destruct (Hj j Hr) as [E| ->].
    + rewrite E in Hn |- *. destruct (fi_slot _ _ _ _ _ Hok j Hr Hn) as [B Hu]. split.
      * eapply block_ok_mono; try done. apply ext_some, B.
      * rewrite ext_used by (pose proof (bo_range _ _ _ _ _ B); lia). rewrite Hu. apply orb_true_r.
    + rewrite Hk'. split.
      * eapply block_ok_mono; [apply fresh_ok | | done | done]. apply ext_some, fresh_ok.
      * rewrite ext_used by apply T. by rewrite Z.eqb_refl.
  - intros j j' Hr Hr' Hn E. destruct (Hj j Hr) as [E1| ->], (Hj j' Hr') as [E2| ->]; try done.
    + rewrite E1 in Hn, E. apply (fi_inj _ _ _ _ _ Hok); congruence.
    + rewrite Hk', E1 in E. rewrite E1 in Hn. by apply fresh_slot in E.
    + rewrite Hk', E2 in E. symmetry in E. apply fresh_slot in E; [done | done |].
      rewrite E. pose proof (bo_range _ _ _ _ _ fresh_ok). lia.
Qed.

Lemma ext_grew : grew f sb di (ws ++ ws2) di' [-1; k].
Proof using All.
  clear Hl. constructor; [| | | | |done]; fold f2.
  - intros j Hj Hn. destruct (decide (j = k)) as [->|]; [done | by apply Ho].
  - intros j Hj Hz Hn. destruct (decide (j = k)) as [->|]; [|rewrite Ho in Hn; done]. rewrite Hk'.
    split; apply T.
  - intros c Hc Hu Hm Hns. apply ext_same; [|done |].
    + intros ->. rewrite (tk_free _ _ _ _ T) in Hu. done.
    + destruct (decide (indirect di = 0)) as [|Hn]; [by right | left]. intros ->.
      by apply (Hns (-1)); [unfold slot_range; lia | ..].
  - intros c Hc Hu. rewrite ext_used by done. rewrite Hu. apply orb_true_r.
  - intros m. rewrite fmap_app, elem_of_app. intros [Hm|Hm].
    + apply (tk_ws _ _ _ _ T) in Hm as [->|]; [right | by left]. exists k. split_and!; [set_solver | done | done |].
      pose proof (bo_range _ _ _ _ _ fresh_ok). lia.
    + apply H2w in Hm as [-> Hn]. right. exists (-1). split_and!; [set_solver | unfold slot_range; lia | | done].
      rewrite Ho; [done | unfold slot_range; lia |]. intros <-. by rewrite ind_slot in Hs.
Qed.

Lemma ext_content off : 0 ≤ off < Z.of_nat MAXFILE * BSIZE → content f2 di' off = content f di off.
Proof using All.
  clear Hl. intros Ho'. set (j := off / BSIZE).
  assert (0 ≤ j < Z.of_nat MAXFILE) as Hj by (unfold j, BSIZE in *; zdiv).
  assert (∀ g d, slot g d j = addr_of g d j) as Ea.
  { intros g d. unfold slot. destruct (Z.eqb_spec j (-1)); [lia | done]. }
  unfold content. fold j. rewrite <- !Ea. destruct (decide (j = k)) as [E|Hne].
  - rewrite E, Hk', Hs. simpl. destruct (Z.eqb_spec b 0); [done |].
    rewrite (H2 b) by (left; intros Eb; by apply ind_not_fresh). unfold f1. rewrite (tk_zero _ _ _ _ T). cbn [default].
    apply byte_at_zeros.
  - assert (slot_range j) as Hr by (unfold slot_range; lia). rewrite Ho by done.
    destruct (Z.eqb_spec (slot f di j) 0) as [|Hn]; [done |].
    rewrite ext_same; [done | by apply fresh_slot | |].
    + destruct (fi_slot _ _ _ _ _ Hok j Hr Hn) as [B _]. apply B.
    + left. intros E. apply (fi_inj _ _ _ _ _ Hok j (-1)) in E; [lia | done | unfold slot_range; lia | done].
Qed.

Lemma ext_grown c : (S (need_ind di') ≤ c + need_ind di)%nat → grown f lk l' sb di k (ws ++ ws2) di' c.
Proof using All.
  intros Hn. constructor; fold f2.
  - apply ext_grew.
  - apply ext_fs_ok.
  - apply ext_file_ok.
  - rewrite Hk'. pose proof (bo_range _ _ _ _ _ fresh_ok). lia.
  - apply ext_content.
  - rewrite (free_count_took _ _ _ _ T). fold f1. assert (free_count f2 sb = free_count f1 sb) as ->; [|lia].
    apply free_count_ext. intros e He. rewrite ext_used by lia. unfold f1. by rewrite (tk_used _ _ _ _ T).
Qed.

End Extend.

Lemma addr_direct f di k : 0 ≤ k < Z.of_nat NDIRECT → slot f di k = default 0 (di_addrs di !! Z.to_nat k).
Proof.
  intros Hk. unfold slot, addr_of. destruct (Z.eqb_spec k (-1)); [lia |].
  by destruct (Z.ltb_spec k (Z.of_nat NDIRECT)); [|lia].
Qed.

Lemma addr_indirect f di k :
  Z.of_nat NDIRECT ≤ k → indirect di ≠ 0 →
  slot f di k = get32 (default [] (f (indirect di))) (4 * Z.to_nat (k - Z.of_nat NDIRECT)).
Proof.
  intros Hk Hn. unfold slot, addr_of. destruct (Z.eqb_spec k (-1)); [lia |].
  destruct (Z.ltb_spec k (Z.of_nat NDIRECT)); [lia |]. by destruct (Z.eqb_spec (indirect di) 0).
Qed.

Lemma addr_no_indirect f di k : Z.of_nat NDIRECT ≤ k → indirect di = 0 → slot f di k = 0.
Proof.
  intros Hk Hn. unfold slot, addr_of. destruct (Z.eqb_spec k (-1)); [lia |].
  destruct (Z.ltb_spec k (Z.of_nat NDIRECT)); [lia |]. by rewrite Hn.
Qed.

(** Slots after the direct addresses changed, with the same indirect block *)
Lemma slot_same f f' di di' j :
  slot_range j → (j < Z.of_nat NDIRECT → 0 ≤ j → di_addrs di' !! Z.to_nat j = di_addrs di !! Z.to_nat j) →
  indirect di' = indirect di → (indirect di ≠ 0 → f' (indirect di) = f (indirect di)) → slot f' di' j = slot f di j.
Proof.
  intros Hj Hd Hi Hf. destruct (decide (j = -1)) as [->|]; [done |]. unfold slot_range in Hj.
  destruct (decide (j < Z.of_nat NDIRECT)).
  - rewrite !addr_direct by lia. by rewrite Hd by lia.
  - destruct (decide (indirect di = 0)) as [E|E].
    + rewrite !addr_no_indirect by lia || congruence. done.
    + rewrite !addr_indirect by lia || congruence. by rewrite Hi, Hf.
Qed.

Section Grown.
Variables (f : Z → option (list Z)) (lk : list Z) (l l' : log) (sb : superblock) (di : dinode) (b : Z) (ws : writes).
Hypothesis (Hok : file_ok f lk l sb di) (Hfs : fs_ok f lk l sb) (T : took f sb b ws) (Hp : same_place l l').

Lemma ind_kept : indirect di ≠ 0 → apply_writes ws f (indirect di) = f (indirect di).
Proof using Hok Hfs T.
  intros Hn. apply (tk_same _ _ _ _ T); [by apply (ind_not_fresh f lk l sb di b ws) |].
  intros Hm. by apply (ind_not_bitmap f lk l sb di Hok _ Hm Hn).
Qed.

Lemma fresh_nonzero : b ≠ 0.
Proof using Hfs T. pose proof (bo_range _ _ _ _ _ (fresh_ok f lk l sb b ws Hfs T)). lia. Qed.

Lemma grown_direct k :
  0 ≤ k < Z.of_nat NDIRECT → slot f di k = 0 → grown f lk l' sb di k ws (set_addr (Z.to_nat k) b di) 1.
Proof using All.
  intros Hk Hs. pose proof (fi_len _ _ _ _ _ Hok) as Hlen. set (di' := set_addr (Z.to_nat k) b di).
  assert (indirect di' = indirect di) as Ei.
  { unfold indirect, di'. simpl. rewrite list_lookup_insert_ne; [done |]. lia. }
  assert (slot_range k) as Hkr by (unfold slot_range, MAXFILE; lia).
  assert (slot (apply_writes ws f) di' k = b) as Hk'.
  { rewrite addr_direct by done. unfold di'. simpl. rewrite list_lookup_insert_eq by lia. done. }
  assert (∀ j, slot_range j → j ≠ k → slot (apply_writes ws f) di' j = slot f di j) as Ho.
  { intros j Hj Hne. apply slot_same; [done | | done | apply ind_kept]. intros Hj1 Hj0. unfold di'. simpl.
    apply list_lookup_insert_ne. lia. }
  assert (length (di_addrs di') = (NDIRECT + 1)%nat) as Hl by (unfold di'; simpl; by rewrite length_insert).
  rewrite <- (app_nil_r ws) in Hk', Ho |- *.
  eapply (ext_grown f lk l l' sb di di' k b ws []); try done; [by rewrite app_nil_r.. | set_solver |].
  unfold need_ind. by rewrite Ei.
Qed.

Lemma grown_ind : indirect di = 0 → grown f lk l' sb di (-1) ws (set_addr NDIRECT b di) 0.
Proof using All.
  intros Hi. pose proof (fi_len _ _ _ _ _ Hok) as Hlen. set (di' := set_addr NDIRECT b di).
  assert (indirect di' = b) as Ei.
  { unfold indirect, di'. simpl. rewrite list_lookup_insert_eq by (rewrite Hlen; lia). done. }
  assert (∀ j, slot_range j → j ≠ -1 → slot (apply_writes ws f) di' j = slot f di j) as Ho.
  { intros j Hj Hne. unfold slot_range in Hj. destruct (decide (j < Z.of_nat NDIRECT)).
    - rewrite !addr_direct by lia. unfold di'. simpl. rewrite list_lookup_insert_ne by lia. done.
    - rewrite (addr_no_indirect f di) by lia || done.
      rewrite addr_indirect by (try lia; rewrite Ei; apply fresh_nonzero). rewrite Ei, (tk_zero _ _ _ _ T).
      apply get32_zeros. }
  rewrite <- (app_nil_r ws) in Ho |- *.
  eapply (ext_grown f lk l l' sb di di' (-1) b ws []); try done; [by rewrite app_nil_r.. | set_solver | |].
  - unfold di'. simpl. by rewrite length_insert.
  - unfold need_ind. rewrite Hi, Ei. destruct (Z.eqb_spec b 0); [by apply fresh_nonzero in e | simpl; lia].
Qed.

Lemma grown_entry k x :
  Z.of_nat NDIRECT ≤ k < Z.of_nat MAXFILE → indirect di ≠ 0 → f (indirect di) = Some x → length x = bsize →
  slot f di k = 0 →
  grown f lk l' sb di k (ws ++ [(indirect di, put32 (4 * Z.to_nat (k - Z.of_nat NDIRECT)) b x)]) di 1.
Proof using All.
  intros Hk Hi Hx Hlx Hs. set (x' := put32 _ b x).
  assert (∀ m, apply_writes (ws ++ [(indirect di, x')]) f m =
    if m =? indirect di then Some x' else apply_writes ws f m) as Em.
  { intros m. by rewrite apply_writes_app, apply_writes_one. }
  assert (∀ j, slot_range j → slot (apply_writes (ws ++ [(indirect di, x')]) f) di j = if j =? k then b else slot f di j) as Hsl.
  { intros j Hj. unfold slot_range in Hj. destruct (decide (j < Z.of_nat NDIRECT)).
    - destruct (Z.eqb_spec j k); [lia |]. destruct (decide (j = -1)) as [->|]; [done |].
      by rewrite !addr_direct by lia.
    - rewrite !addr_indirect by lia || done. rewrite Em, Z.eqb_refl, Hx. cbn [default id]. unfold x'.
      unfold MAXFILE, NINDIRECT, NDIRECT, bsize, BSIZE in *.
      destruct (Z.eqb_spec j k) as [->|].
      + apply get32_put32; [rewrite Hlx; lia |].
        pose proof (bo_range _ _ _ _ _ (fresh_ok f lk l sb b ws Hfs T)).
        pose proof (bm_size _ _ _ _ (fo_map _ _ _ _ Hfs)). lia.
      + apply get32_put32_ne; [rewrite Hlx; lia |]. lia. }
  eapply (ext_grown f lk l l' sb di di k b ws [(indirect di, x')]); try done.
  - unfold slot_range. lia.
  - intros m Hm. rewrite Em. destruct (Z.eqb_spec m (indirect di)) as [->|]; [|done]. by destruct Hm.
  - intros _. rewrite Em, Z.eqb_refl. done.
  - intros m. cbn [fmap list_fmap fst]. rewrite list_elem_of_singleton. intros ->. done.
  - rewrite Hsl by (unfold slot_range; lia). by rewrite Z.eqb_refl.
  - intros j Hj Hne. rewrite Hsl by done. by destruct (Z.eqb_spec j k).
  - apply (fi_len _ _ _ _ _ Hok).
  - by destruct di.
Qed.

End Grown.

Lemma grew_slots f sb di ws di' K K' : (∀ k, k ∈ K → k ∈ K') → grew f sb di ws di' K → grew f sb di ws di' K'.
Proof.
  intros Hs [A1 A2 A3 A4 A5 A6]. constructor; try done. intros m Hm.
  destruct (A5 m Hm) as [?|(k & ? & ?)]; [by left |]. right. exists k. split; [by apply Hs | done].
Qed.

Lemma grown_refl f lk l sb di k :
  fs_ok f lk l sb → file_ok f lk l sb di → slot f di k ≠ 0 → grown f lk l sb di k [] di 0.
Proof. intros Hfs Hok Hs. constructor; try done. apply grew_refl. Qed.

Lemma grown_weaken f lk l sb di k ws di' c c' :
  (c ≤ c')%nat → grown f lk l sb di k ws di' c → grown f lk l sb di k ws di' c'.
Proof. intros Hc [A1 A2 A3 A4 A5 A6]. constructor; try done. lia. Qed.

Lemma grown_trans f lk l l' sb di ws di1 k c ws' di2 :
  grown f lk l sb di (-1) ws di1 0 → grown (apply_writes ws f) lk l' sb di1 k ws' di2 c →
  grown f lk l' sb di k (ws ++ ws') di2 c.
Proof.
  intros [A1 A2 A3 A4 A5 A6] [B1 B2 B3 B4 B5 B6]. rewrite <- apply_writes_app in *. constructor; try done.
  - eapply grew_slots; [|by eapply grew_trans]. set_solver.
  - intros off Ho. rewrite B5, A5; done.
  - lia.
Qed.

Lemma fs_ok_place f lk l l' sb : same_place l l' → fs_ok f lk l sb → fs_ok f lk l' sb.
Proof.
  intros Hp [M F]. constructor; [by eapply bitmap_place |]. intros b Hb Hu.
  eapply block_ok_mono; [by apply F | apply F; done | done | done].
Qed.

Lemma file_ok_place f lk l l' sb di : same_place l l' → file_ok f lk l sb di → file_ok f lk l' sb di.
Proof.
  intros Hp [A1 A2 A3]. constructor; try done. intros k Hk Hs. destruct (A2 k Hk Hs) as [B Hu].
  split; [|done]. eapply block_ok_mono; [exact B | apply B | done | done].
Qed.

Lemma grown_place f lk l l' sb di k ws di' c :
  same_place l l' → grown f lk l sb di k ws di' c → grown f lk l' sb di k ws di' c.
Proof.
  intros Hp [A1 A2 A3 A4 A5 A6]. constructor; try done; [by eapply fs_ok_place | by eapply file_ok_place].
Qed.

(** A block in use is held. *)
Lemma fs_ok_lock f lk l sb n :
  n ∉ bmblocks sb → used f sb n = true → fs_ok f lk l sb → fs_ok f (n :: lk) l sb.
Proof.
  intros Hn Hu [[M1 M2 M3 M4 M5] F]. constructor.
  - constructor; try done. intros c Hc. rewrite not_elem_of_cons. split; [|by apply M4].
    intros E. apply Hn. rewrite <- E. by apply BBLOCK_bmblocks.
  - intros c Hc Huc. eapply block_ok_mono; [by apply F | apply F; done | done |]. rewrite elem_of_cons.
    intros [->|]; [congruence | done].
Qed.

(** Room in the log to give the file [n] blocks: for the bitmap, the indirect block, and them *)
Definition ind_list (di : dinode) : list Z := if indirect di =? 0 then [] else [indirect di].

Lemma ind_list_some di : indirect di ≠ 0 → ind_list di = [indirect di].
Proof. intros Hn. unfold ind_list. by destruct (Z.eqb_spec (indirect di) 0). Qed.

Definition fits_file {D} (l : lst D) (sb : superblock) (di : dinode) (n : nat) : Prop :=
  ∀ C, (length C ≤ n + need_ind di)%nat → fits l (bmblocks sb ++ ind_list di ++ C).

Lemma fits_file_more {D} (l : lst D) sb di n : fits_file l sb di n → fits_more l sb n.
Proof. intros Hf C HC. eapply fits_sub; [|apply (Hf C); lia]. set_solver. Qed.

(** Writes to the bitmap, the indirect block, and [a] *)
Lemma fits_file_ws {D} (l : lst D) sb di (ws : writes) di' a n C :
  (indirect di ≠ 0 → indirect di' = indirect di) →
  (∀ m, m ∈ ws.*1 → m ∈ bmblocks sb ∨ m ∈ ind_list di' ∨ m = a) →
  fits_file l sb di (S n) → (length C ≤ n + need_ind di')%nat →
  fits l (ws.*1 ++ bmblocks sb ++ ind_list di' ++ a :: C).
Proof.
  intros Hi Hw Hf HC. destruct (decide (indirect di = 0)) as [E|E].
  - eapply fits_sub; [|apply (Hf (ind_list di' ++ a :: C))].
    + intros m. rewrite !elem_of_app, !elem_of_cons. naive_solver.
    + rewrite length_app. simpl. revert HC. unfold need_ind, ind_list. rewrite E.
      destruct (Z.eqb_spec (indirect di') 0); simpl; lia.
  - revert HC Hw. unfold need_ind, ind_list. rewrite (Hi E). intros HC Hw.
    eapply fits_sub; [|apply (Hf (a :: C))].
    + intros m. unfold ind_list. rewrite !elem_of_app, !elem_of_cons. naive_solver.
    + unfold need_ind. destruct (Z.eqb_spec (indirect di) 0); [done | simpl; lia].
Qed.

Lemma grew_indirect f sb di ws di' K : grew f sb di ws di' K → indirect di ≠ 0 → indirect di' = indirect di.
Proof. intros G. apply (gr_keep _ _ _ _ _ _ G (-1)). unfold slot_range, MAXFILE. lia. Qed.

Lemma grew_ws f sb di ws di' k m :
  grew f sb di ws di' [-1; k] → m ∈ ws.*1 →
  m ∈ bmblocks sb ∨ m ∈ ind_list di' ∨ m = slot (apply_writes ws f) di' k.
Proof.
  intros G [?|(j & Hj & _ & -> & Hn)]%(gr_ws _ _ _ _ _ _ G); [by left |].
  apply elem_of_cons in Hj as [->|Hj]; [|by apply list_elem_of_singleton in Hj as ->; do 2 right].
  right; left. unfold ind_list. change (slot (apply_writes ws f) di' (-1)) with (indirect di') in *.
  destruct (Z.eqb_spec (indirect di') 0); [done | by left].
Qed.

Section FsGrow.
Context {D : Type} `{DiskLaws D}.

(** [f]'s blocks and the cached inode [i], with its file *)
Record file_st (f : Z → option (list Z)) (lk : list Z) (s : fsys D) (i : nat) (ip : inode) : Prop := FileSt {
  ft_tx : tx f lk (fs_l s);
  ft_fs : fs_ok f lk (ls_log (fs_l s)) (fs_sb s);
  ft_file : file_ok f lk (ls_log (fs_l s)) (fs_sb s) (i_d ip);
  ft_ip : fs_inodes s !! i = Some ip;
  ft_dev : i_dev ip = 1;
}.

(** Blocks [ws] were written and the cached inode became [di']. *)
Definition fstep (f : Z → option (list Z)) (lk : list Z) (s : fsys D) (i : nat) (ip : inode) (ws : writes)
    (di' : dinode) (s' : fsys D) : Prop :=
  ∃ t', s' = set_fs_inodes (<[i := set_i_d di' ip]> (fs_inodes s)) (set_fs_l t' s) ∧ did f lk (fs_l s) ws t'.

Lemma fdid_fstep f lk s i ip ws s' :
  fs_inodes s !! i = Some ip → fdid f lk s ws s' → fstep f lk s i ip ws (i_d ip) s'.
Proof.
  intros Hi (t' & -> & Hd). exists t'. split; [|done]. replace (set_i_d (i_d ip) ip) with ip by (by destruct ip).
  rewrite list_insert_id by done. by destruct s.
Qed.

Lemma fstep_trans f lk s i ip ws di1 s1 ws' di2 s2 :
  fstep f lk s i ip ws di1 s1 → fstep (apply_writes ws f) lk s1 i (set_i_d di1 ip) ws' di2 s2 →
  fstep f lk s i ip (ws ++ ws') di2 s2.
Proof.
  intros (t1 & -> & A) (t2 & -> & B). exists t2. split; [|by eapply did_trans].
  unfold set_fs_inodes, set_fs_l. simpl. by rewrite list_insert_insert_eq.
Qed.

Lemma fstep_ip f lk s i ip ws di' s' :
  fs_inodes s !! i = Some ip → fstep f lk s i ip ws di' s' → fs_inodes s' !! i = Some (set_i_d di' ip).
Proof. intros Hi%lookup_lt_Some (t' & -> & _). simpl. by rewrite list_lookup_insert_eq. Qed.

Lemma fstep_place f lk s i ip ws di' s' :
  fstep f lk s i ip ws di' s' → same_place (ls_log (fs_l s)) (ls_log (fs_l s')) ∧ fs_sb s' = fs_sb s.
Proof. intros (t' & -> & Hd). split; [apply Hd | done]. Qed.

Lemma fstep_tx f lk s i ip ws di' s' : fstep f lk s i ip ws di' s' → tx (apply_writes ws f) lk (fs_l s').
Proof. intros (t' & -> & Hd). apply Hd. Qed.

Lemma fstep_more f lk s i ip ws di' s' sb E n :
  fstep f lk s i ip ws di' s' → (∀ m, m ∈ ws.*1 → m ∈ bmblocks sb ∨ m ∈ E) →
  fits_more (fs_l s) sb (length E + n) → fits_more (fs_l s') sb n.
Proof.
  intros (t' & -> & Hd) Hw Hf C HC. eapply (did_fits _ _ _ _ _ _ Hd). eapply fits_sub; [|apply (Hf (E ++ C))].
  - intros m. rewrite !elem_of_app. naive_solver.
  - rewrite length_app. lia.
Qed.

(** The file's state after its blocks grew *)
Lemma file_st_grown f lk s i ip k ws di' s' c :
  file_st f lk s i ip → fstep f lk s i ip ws di' s' →
  grown f lk (ls_log (fs_l s')) (fs_sb s) (i_d ip) k ws di' c →
  file_st (apply_writes ws f) lk s' i (set_i_d di' ip).
Proof.
  intros Hf Hs G. pose proof (fstep_place _ _ _ _ _ _ _ _ Hs) as [_ Esb]. split.
  - by eapply fstep_tx.
  - rewrite Esb. apply G.
  - rewrite Esb. apply G.
  - eapply fstep_ip; [apply Hf | exact Hs].
  - apply (ft_dev _ _ _ _ _ Hf).
Qed.

Lemma wp_d_upd {A} (s : fsys D) i ip g (k : M (fsys D) A) Q :
  fs_inodes s !! i = Some ip → wp k (set_fs_inodes (<[i := set_i_d (g (i_d ip)) ip]> (fs_inodes s)) s) Q →
  wp (d_upd i g;; k) s Q.
Proof. intros Hi Hk. unfold d_upd, i_upd. apply wp_assoc. eapply wp_i_get; [done |]. by apply wp_bind, wp_modify. Qed.

Lemma balloc_ok f lk (s : fsys D) :
  tx f lk (fs_l s) → (length lk ≤ 2)%nat → fs_ok f lk (ls_log (fs_l s)) (fs_sb s) →
  (1 ≤ free_count f (fs_sb s))%nat → fits_more (fs_l s) (fs_sb s) 1 →
  wp (balloc 1) s (λ b s', ∃ ws, took f (fs_sb s) b ws ∧ fdid f lk s ws s').
Proof.
  intros Ht Hl [M F] Hc Hf. destruct (first_free_exists _ _ Hc) as [b Hb]. pose proof Hb as (Hr & Hu & _).
  pose proof (F b Hr Hu) as [B1 B2 B3 B4 B5]. eapply wp_mono.
  { eapply (balloc_spec f lk s b); try done. eapply fits_sub; [|apply (Hf [b]); simpl; lia].
    intros m. rewrite !elem_of_cons, elem_of_nil, elem_of_app, list_elem_of_singleton.
    pose proof (BBLOCK_bmblocks b _ Hr). naive_solver. }
  intros r s' [-> Hs']. exists (alloc_ws f (fs_sb s) b). split; [|done].
  pose proof (BBLOCK_bmblocks b _ Hr) as Hbb.
  assert (∀ m, apply_writes (alloc_ws f (fs_sb s) b) f m = if m =? b then Some (replicate bsize 0) else
    if m =? BBLOCK b (fs_sb s) then Some (bit_set (default [] (f (BBLOCK b (fs_sb s)))) (b mod BPB)) else f m) as Em.
  { intros m. unfold alloc_ws. change [?a; ?b] with ([a] ++ [b]). by rewrite apply_writes_app, !apply_writes_one. }
  constructor; try done.
  - by rewrite Em, Z.eqb_refl.
  - intros c Hcr. eapply used_alloc; try done. intros c' Hc' <-. apply B5. by apply BBLOCK_bmblocks.
  - intros m Hm Hmm. rewrite Em. destruct (Z.eqb_spec m b); [done |].
    destruct (Z.eqb_spec m (BBLOCK b (fs_sb s))) as [->|]; done.
  - intros m Hm. rewrite Em. by repeat case_match.
  - intros m. unfold alloc_ws. cbn [fmap list_fmap fst]. rewrite !elem_of_cons, elem_of_nil. naive_solver.
Qed.

(** The result of [bmap], for slot [k] *)
Definition bmapped (f : Z → option (list Z)) (lk : list Z) (s : fsys D) (i : nat) (ip : inode) (k : Z) (c : nat)
    (a : Z) (s' : fsys D) : Prop :=
  ∃ ws di', fstep f lk s i ip ws di' s' ∧ grown f lk (ls_log (fs_l s')) (fs_sb s) (i_d ip) k ws di' c ∧
    a = slot (apply_writes ws f) di' k.

(** A block from [balloc] for an address of the inode *)
Lemma balloc_addr f lk s i ip k n c :
  file_st f lk s i ip → (length lk ≤ 2)%nat → (1 ≤ free_count f (fs_sb s))%nat →
  fits_more (fs_l s) (fs_sb s) 1 →
  (∀ b ws l', took f (fs_sb s) b ws → same_place (ls_log (fs_l s)) l' →
    grown f lk l' (fs_sb s) (i_d ip) k ws (set_addr n b (i_d ip)) c ∧
    slot (apply_writes ws f) (set_addr n b (i_d ip)) k = b) →
  wp (a ← balloc (i_dev ip); d_upd i (set_addr n a);; mret a) s (bmapped f lk s i ip k c).
Proof.
  intros Hf Hl Hc Hm Hg. rewrite (ft_dev _ _ _ _ _ Hf). apply wp_bind. eapply wp_mono.
  { apply (balloc_ok f lk s); try done; apply Hf. }
  intros b s1 (ws & T & Hs1). destruct Hs1 as (t1 & -> & Hd1).
  destruct (Hg b ws (ls_log t1) T) as [G E]; [apply Hd1 |].
  eapply wp_d_upd; [apply Hf |]. apply wp_ret. exists ws, (set_addr n b (i_d ip)). split_and!; [|done | done].
  exists t1. split; [done | exact Hd1].
Qed.

Lemma bmap_direct f lk s i ip k :
  file_st f lk s i ip → (length lk ≤ 2)%nat → 0 ≤ k < Z.of_nat NDIRECT →
  (1 ≤ free_count f (fs_sb s))%nat → fits_more (fs_l s) (fs_sb s) 1 →
  wp (bmap i k) s (bmapped f lk s i ip k 1).
Proof.
  intros Hf Hl Hk Hc Hm. unfold bmap. eapply wp_i_get; [apply Hf |].
  destruct (Z.ltb_spec k (Z.of_nat NDIRECT)); [|lia].
  rewrite <- (addr_direct f (i_d ip) k) by done. cbv zeta.
  destruct (Z.eqb_spec (slot f (i_d ip) k) 0) as [E|E].
  - apply balloc_addr; try done. intros b ws l' T Hp. split; [eapply grown_direct; try done; apply Hf |].
    rewrite addr_direct by done. simpl. rewrite list_lookup_insert_eq; [done |].
    rewrite (fi_len _ _ _ _ _ (ft_file _ _ _ _ _ Hf)). lia.
  - apply wp_ret. exists [], (i_d ip). split_and!; [|apply (grown_weaken _ _ _ _ _ _ _ _ 0); [lia |]; apply grown_refl; try done; apply Hf | done].
    apply fdid_fstep; [apply Hf |]. by apply fdid_refl, Hf.
Qed.

(** The first half of [bmap] for a block of the indirect block *)
Lemma bmap_ind f lk s i ip :
  file_st f lk s i ip → (length lk ≤ 2)%nat →
  (need_ind (i_d ip) ≤ free_count f (fs_sb s))%nat → fits_more (fs_l s) (fs_sb s) 1 →
  let ind := default 0 (di_addrs (i_d ip) !! NDIRECT) in
  wp (if ind =? 0 then a ← balloc (i_dev ip); d_upd i (set_addr NDIRECT a);; mret a else mret ind) s
    (bmapped f lk s i ip (-1) 0).
Proof.
  intros Hf Hl Hc Hm ind. change ind with (indirect (i_d ip)). clear ind. unfold need_ind in Hc.
  destruct (Z.eqb_spec (indirect (i_d ip)) 0) as [E|E].
  - apply balloc_addr; try done. intros b ws l' T Hp. split; [eapply grown_ind; try done; apply Hf |].
    unfold slot, indirect. simpl. rewrite list_lookup_insert_eq; [done |].
    rewrite (fi_len _ _ _ _ _ (ft_file _ _ _ _ _ Hf)). lia.
  - apply wp_ret. exists [], (i_d ip). split_and!; [|apply grown_refl; try done; apply Hf | done].
    apply fdid_fstep; [apply Hf |]. by apply fdid_refl, Hf.
Qed.

Lemma wp_update_then {A} (bp : nat) g (a : A) (s : fsys D) Q :
  wp (on_c (bmodify bp g);; on_l (log_write bp);; on_c (brelse bp);; mret a) s Q →
  wp ((on_c (bmodify bp g);; on_l (log_write bp);; mret a) ≫= λ v, on_c (brelse bp);; mret v) s Q.
Proof.
  unfold wp, mbind, M_bind. destruct (on_c (bmodify bp g) s) as [[[] s1]|]; [|done].
  by destruct (on_l (log_write bp) s1) as [[[] s2]|].
Qed.

(** The second half, with the indirect block's buffer held over [balloc] *)
Lemma bmap_entry f lk s i ip k :
  file_st f lk s i ip → (length lk ≤ 1)%nat → Z.of_nat NDIRECT ≤ k < Z.of_nat MAXFILE → indirect (i_d ip) ≠ 0 →
  (1 ≤ free_count f (fs_sb s))%nat → (∀ b, fits (fs_l s) (bmblocks (fs_sb s) ++ [b; indirect (i_d ip)])) →
  let bn := k - Z.of_nat NDIRECT in
  wp (bp ← on_c (bread (i_dev ip) (indirect (i_d ip)));
      data ← on_c (bdata bp);
      let addr := get32 data (4 * Z.to_nat bn) in
      addr ← (if addr =? 0 then
                a ← balloc (i_dev ip);
                on_c (bmodify bp (put32 (4 * Z.to_nat bn) a));;
                on_l (log_write bp);;
                mret a
              else mret addr);
      on_c (brelse bp);;
      mret addr) s (bmapped f lk s i ip k 1).
Proof.
  intros Hf Hl Hk Hn Hc Hfit bn. pose proof Hf as [Ht Hfs Hok Hi Hd].
  destruct (fi_slot _ _ _ _ _ Hok (-1)) as [[Br [x Hx] Bl Bh Bd] Hu]; [unfold slot_range; lia | done |].
  change (slot f (i_d ip) (-1)) with (indirect (i_d ip)) in *. rewrite Hd.
  pose proof (tx_length _ _ _ _ _ Ht Hx) as Hlx.
  eapply f_bread; [exact Ht | lia | exact Bl | exact Hx |]. intros bp s1 Hs1.
  eapply f_bdata; [exact Hs1 |]. cbv zeta.
  assert (slot f (i_d ip) k = get32 x (4 * Z.to_nat bn)) as Ek by (rewrite addr_indirect, Hx by lia || done; done).
  rewrite <- Ek. destruct (Z.eqb_spec (slot f (i_d ip) k) 0) as [E|E].
  2:{ apply wp_bind, wp_ret. eapply f_brelse; [exact Ht | exact Hs1 |]. intros s2 Hs2. apply wp_ret.
      destruct Hs2 as (t2 & -> & Hd2).
      exists [], (i_d ip). split_and!; [by apply fdid_fstep; [|exists t2] | | done].
      apply (grown_weaken _ _ _ _ _ _ _ _ 0); [lia |].
      apply (grown_place _ _ (ls_log (fs_l s))); [apply Hd2 | by apply grown_refl]. }
  pose proof (fhaving_tx _ _ _ _ _ _ _ _ Hs1) as Ht1. pose proof (fhaving_fdid _ _ _ _ _ _ _ _ Hs1) as Hd1.
  apply wp_assoc, wp_bind. pose proof (fdid_frame _ _ _ _ _ Hd1) as (Esb & _). destruct Hd1 as (t1 & Es1 & Hd1).
  eapply wp_mono.
  { apply (balloc_ok f (indirect (i_d ip) :: lk) s1); [exact Ht1 | simpl; lia | | by rewrite Esb |].
    - rewrite Esb. apply fs_ok_lock; [done | done |]. rewrite Es1. eapply fs_ok_place; [apply Hd1 | done].
    - intros C HC. rewrite Esb, Es1. eapply (did_fits _ _ _ _ _ _ Hd1). cbn [fmap list_fmap app].
      eapply fits_sub; [|apply (Hfit (default 0 (C !! 0%nat)))]. intros m.
      destruct C as [|c []]; [set_solver | set_solver | simpl in HC; lia]. }
  rewrite Esb. intros b s2 (ws & T & Hs2). pose proof (fhaving_did _ _ _ _ _ _ _ _ _ _ Hs1 Hs2) as Hh2.
  cbn [app] in Hh2. apply wp_update_then. eapply f_update; [exact Ht | exact Hh2 | | | exact Bh | |].
  - rewrite length_put32; [done |]. rewrite Hlx. unfold bn, bsize, BSIZE, MAXFILE, NINDIRECT, NDIRECT in *. lia.
  - eapply fits_sub; [|apply (Hfit b)]. intros m. rewrite !elem_of_app, !elem_of_cons.
    intros [Hm%(tk_ws _ _ _ _ T)|Hm]; naive_solver.
  - pose proof (bm_size _ _ _ _ (fo_map _ _ _ _ Hfs)). lia.
  - intros s3 Hs3. apply wp_ret. destruct Hs3 as (t3 & -> & Hd3). eexists _, (i_d ip).
    assert (grown f lk (ls_log t3) (fs_sb s) (i_d ip) k (ws ++ [(indirect (i_d ip), put32 (4 * Z.to_nat bn) b x)]) (i_d ip) 1) as G.
    { eapply grown_entry; try done. apply Hd3. }
    split_and!; [apply fdid_fstep; [done | by exists t3] | exact G |].
    rewrite addr_indirect by lia || done. rewrite apply_writes_app, apply_writes_one, Z.eqb_refl. cbn [default id].
    symmetry. apply get32_put32.
    + rewrite Hlx. unfold bn, bsize, BSIZE, MAXFILE, NINDIRECT, NDIRECT in *. lia.
    + pose proof (tk_range _ _ _ _ T). pose proof (bm_size _ _ _ _ (fo_map _ _ _ _ Hfs)). lia.
Qed.

(** [bmap] gives block [k] of the file, taking a free block for it (and one for the indirect block) if it has
    none. *)
Lemma bmap_spec f lk s i ip k :
  file_st f lk s i ip → (length lk ≤ 1)%nat → 0 ≤ k < Z.of_nat MAXFILE →
  (1 + need_ind (i_d ip) ≤ free_count f (fs_sb s))%nat → fits_file (fs_l s) (fs_sb s) (i_d ip) 1 →
  wp (bmap i k) s (bmapped f lk s i ip k 1).
Proof.
  intros Hf Hl Hk Hc Hm. destruct (decide (k < Z.of_nat NDIRECT)).
  { apply bmap_direct; try done; try lia. by eapply fits_file_more. }
  unfold bmap. eapply wp_i_get; [apply Hf |]. destruct (Z.ltb_spec k (Z.of_nat NDIRECT)); [lia |]. cbv zeta.
  destruct (Z.ltb_spec (k - Z.of_nat NDIRECT) (Z.of_nat NINDIRECT)) as [_|Hx]; [|unfold MAXFILE in Hk; lia].
  apply wp_bind. eapply wp_mono.
  { apply (bmap_ind f lk s i ip); try done; try lia. by eapply fits_file_more. }
  intros a s1 (ws & di1 & Hs1 & G & ->). pose proof (file_st_grown _ _ _ _ _ _ _ _ _ _ Hf Hs1 G) as Hf1.
  pose proof (fstep_place _ _ _ _ _ _ _ _ Hs1) as [Hp1 Esb]. pose proof (gn_count _ _ _ _ _ _ _ _ _ G) as Hcc.
  change (i_dev ip) with (i_dev (set_i_d di1 ip)).
  eapply wp_mono; [eapply (bmap_entry _ lk s1 i (set_i_d di1 ip) k Hf1 Hl) |].
  - lia.
  - apply (gn_slot _ _ _ _ _ _ _ _ _ G).
  - rewrite Esb. lia.
  - intros b. rewrite Esb. destruct Hs1 as (t1 & -> & Hd1). eapply (did_fits _ _ _ _ _ _ Hd1).
    pose proof (gn_grew _ _ _ _ _ _ _ _ _ G) as G1.
    pose proof (ind_list_some di1 (gn_slot _ _ _ _ _ _ _ _ _ G)) as Ei.
    eapply fits_sub; [|apply (fits_file_ws _ (fs_sb s) (i_d ip) ws di1 b 0 [])].
    + rewrite Ei. set_solver.
    + by eapply grew_indirect.
    + intros m Hw. destruct (grew_ws _ _ _ _ _ _ _ G1 Hw) as [?|[?| ->]]; [tauto | tauto |].
      right; left. rewrite Ei. by left.
    + done.
    + simpl. lia.
  - intros a s2 (ws2 & di2 & Hs2 & G2 & ->). rewrite Esb in G2. exists (ws ++ ws2), di2. split_and!.
    + by eapply fstep_trans.
    + eapply grown_trans; [exact G | exact G2].
    + by rewrite apply_writes_app.
Qed.

End FsGrow.
