(* ===== verification/FsWrite.v ===== *)
(** * Writing files ([fs.c]: [writei], [iupdate], [ilock])

    [writei] of [n] bytes changes the contents of the file in the range
    written and nowhere else, takes blocks for it from the free ones, and
    leaves every other block in use as it was. *)

From S2P Require Import Prelude Mmu Bytes Disk Bio FsFormat Log LogSpec LogOps FsTx Console Fs FsStep FsAlloc FsFile FsGrow.

(** ** A change of one block *)

(** Contents with [bs] written at [off] *)
Definition overwrite (g : Z → Z) (off : Z) (bs : list Z) (o : Z) : Z :=
  if (off <=? o) && (o <? off + Z.of_nat (length bs)) then byte_at bs (Z.to_nat (o - off)) else g o.

Lemma overwrite_app g off bs bs' o :
  overwrite (overwrite g off bs) (off + Z.of_nat (length bs)) bs' o = overwrite g off (bs ++ bs') o.
Proof.
  unfold overwrite, byte_at. rewrite length_app, lookup_app.
  destruct (Z.leb_spec off o), (Z.leb_spec (off + Z.of_nat (length bs)) o); simpl; try lia; try done.
  - destruct (Z.ltb_spec o (off + Z.of_nat (length bs) + Z.of_nat (length bs'))),
      (Z.ltb_spec o (off + Z.of_nat (length bs + length bs'))), (Z.ltb_spec o (off + Z.of_nat (length bs)));
      try lia; try done.
    rewrite (lookup_ge_None_2 bs) by lia. do 3 f_equal. lia.
  - destruct (Z.ltb_spec o (off + Z.of_nat (length bs))), (Z.ltb_spec o (off + Z.of_nat (length bs + length bs'))); try lia.
    by destruct (lookup_lt_is_Some_2 bs (Z.to_nat (o - off)) ltac:(lia)) as [v ->].
Qed.

Lemma overwrite_nil g off o : overwrite g off [] o = g o.
Proof. unfold overwrite. destruct (Z.leb_spec off o); [|done]. destruct (Z.ltb_spec o (off + Z.of_nat (length (A:=Z) []))); [simpl in *; lia | done]. Qed.

Lemma overwrite_ext g g' off bs o : g o = g' o → overwrite g off bs o = overwrite g' off bs o.
Proof. intros E. unfold overwrite. by rewrite E. Qed.

(** The data of a block [a] changes that is not the indirect block. *)
Section Patch.
Variables (f : Z → option (list Z)) (lk : list Z) (l : log) (sb : superblock) (di : dinode) (a : Z) (x' : list Z).
Hypothesis (Hok : file_ok f lk l sb di) (Hfs : fs_ok f lk l sb) (Hbm : a ∉ bmblocks sb).
Hypothesis (Hind : indirect di ≠ 0 → indirect di ≠ a).
Let f' := apply_writes [(a, x')] f.

Lemma patch_same m : m ≠ a → f' m = f m.
Proof using All. intros Hm. unfold f'. rewrite apply_writes_one. by destruct (Z.eqb_spec m a). Qed.

Lemma patch_some m : is_Some (f m) → is_Some (f' m).
Proof using All. intros Hm. unfold f'. rewrite apply_writes_one. by destruct (m =? a). Qed.

Lemma patch_slot j : slot_range j → slot f' di j = slot f di j.
Proof using All. intros Hj. apply slot_same; try done. intros Hn. by apply patch_same, Hind. Qed.

Lemma patch_used c : 0 ≤ c < sb_size sb → used f' sb c = used f sb c.
Proof using All.
  intros Hc. unfold used. rewrite patch_same; [done |]. intros E. apply Hbm. rewrite <- E. by apply BBLOCK_bmblocks.
Qed.

Lemma patch_fs_ok : fs_ok f' lk l sb.
Proof using All.
  destruct Hfs as [M F]. constructor.
  - destruct M as [M1 M2 M3 M4 M5]. constructor; try done. intros c Hc. by apply patch_some, M3.
  - intros c Hc Hu. rewrite patch_used in Hu by done. eapply block_ok_mono; [by apply F | | done | done].
    apply patch_some, F; done.
Qed.

Lemma patch_file_ok : file_ok f' lk l sb di.
Proof using All.
  pose proof Hok as [A1 A2 A3]. constructor; [done | |].
  - intros j Hj. rewrite patch_slot by done. intros Hn. destruct (A2 j Hj Hn) as [B Hu]. split.
    + eapply block_ok_mono; [exact B | | done | done]. apply patch_some, B.
    + rewrite patch_used; [done |]. pose proof (bo_range _ _ _ _ _ B). lia.
  - intros j j' Hj Hj'. rewrite !patch_slot by done. by apply A3.
Qed.

Lemma patch_count : free_count f' sb = free_count f sb.
Proof using All. apply free_count_ext. intros c Hc. by apply patch_used. Qed.

(** The file does not have the block. *)
Lemma patch_other o :
  (∀ k, slot_range k → slot f di k ≠ 0 → slot f di k ≠ a) → 0 ≤ o < Z.of_nat MAXFILE * BSIZE →
  content f' di o = content f di o.
Proof using All.
  intros Hs Ho. unfold content. set (j := o / BSIZE).
  assert (0 ≤ j < Z.of_nat MAXFILE) as Hj by (unfold j, BSIZE in *; zdiv).
  assert (∀ g, addr_of g di j = slot g di j) as Ea.
  { intros g. unfold slot. destruct (Z.eqb_spec j (-1)); [lia | done]. }
  rewrite !Ea, patch_slot by (unfold slot_range; lia). destruct (Z.eqb_spec (slot f di j) 0) as [|Hn]; [done |].
  rewrite patch_same; [done |]. apply Hs; [unfold slot_range; lia | done].
Qed.

End Patch.

(** Block [k] of the file changes. *)
Section PatchSlot.
Variables (f : Z → option (list Z)) (lk : list Z) (l : log) (sb : superblock) (di : dinode) (k : Z) (x' : list Z).
Hypothesis (Hok : file_ok f lk l sb di) (Hfs : fs_ok f lk l sb) (Hk : 0 ≤ k < Z.of_nat MAXFILE).
Let a := slot f di k.
Hypothesis (Ha : a ≠ 0).
Let f' := apply_writes [(a, x')] f.

Lemma patch_range : slot_range k.
Proof using All. unfold slot_range. lia. Qed.

Lemma slot_not_bitmap : a ∉ bmblocks sb.
Proof using All. destruct (fi_slot _ _ _ _ _ Hok k patch_range Ha) as [B _]. apply B. Qed.

Lemma slot_not_indirect : indirect di ≠ 0 → indirect di ≠ a.
Proof using All.
  intros Hn E. assert (-1 = k); [|lia].
  apply (fi_inj _ _ _ _ _ Hok); [unfold slot_range; lia | apply patch_range | done | done].
Qed.

Lemma pslot_slot j : slot_range j → slot f' di j = slot f di j.
Proof using All. by apply (patch_slot f lk l sb di a x' Hok Hfs slot_not_bitmap slot_not_indirect). Qed.

Lemma pslot_same m : m ≠ a → f' m = f m.
Proof using All. by apply (patch_same f lk l sb di a x' Hok Hfs slot_not_bitmap slot_not_indirect). Qed.

Lemma pslot_used c : 0 ≤ c < sb_size sb → used f' sb c = used f sb c.
Proof using All. by apply (patch_used f lk l sb di a x' Hok Hfs slot_not_bitmap slot_not_indirect). Qed.

Lemma pslot_grew : grew f sb di [(a, x')] di [-1; k].
Proof using All.
  constructor; fold f'; [| | | | |by destruct di].
  - intros j Hj _. by apply pslot_slot.
  - intros j Hj Hz. by rewrite pslot_slot.
  - intros b Hb Hu Hm Hs. apply pslot_same. intros ->. by apply (Hs k patch_range).
  - intros b Hb. by rewrite pslot_used.
  - intros m. cbn [fmap list_fmap fst]. rewrite list_elem_of_singleton. intros ->. right. exists k.
    rewrite pslot_slot by apply patch_range. split_and!; [set_solver | apply patch_range | done | done].
Qed.

Lemma pslot_content off bs x o :
  k = off / BSIZE → 0 ≤ off → off mod BSIZE + Z.of_nat (length bs) ≤ BSIZE → f a = Some x → length x = bsize →
  x' = splice (Z.to_nat (off mod BSIZE)) bs x → 0 ≤ o < Z.of_nat MAXFILE * BSIZE →
  content f' di o = overwrite (content f di) off bs o.
Proof using All.
  intros Ek Ho Hb Hx Hlx Ex Hr. set (j := o / BSIZE).
  assert (0 ≤ j < Z.of_nat MAXFILE) as Hj by (unfold j, BSIZE in *; zdiv).
  assert (∀ g, addr_of g di j = slot g di j) as Ea.
  { intros g. unfold slot. destruct (Z.eqb_spec j (-1)); [lia | done]. }
  unfold content at 1. fold j. rewrite !Ea, pslot_slot by (unfold slot_range; lia).
  unfold overwrite. assert (0 ≤ off mod BSIZE < BSIZE) as Hm by (unfold BSIZE; zdiv).
  assert (0 ≤ o mod BSIZE < BSIZE) as Hmo by (unfold BSIZE; zdiv).
  assert (off = BSIZE * k + off mod BSIZE) as Eoff by (rewrite Ek; unfold BSIZE; zdiv).
  assert (o = BSIZE * j + o mod BSIZE) as Eo by (unfold j, BSIZE; zdiv).
  destruct (decide (j = k)) as [Ejk|Hne].
  - rewrite Ejk. fold a. destruct (Z.eqb_spec a 0); [done |].
    unfold f'. rewrite apply_writes_one, Z.eqb_refl, Ex. cbn [default id].
    assert (content f di o = byte_at x (Z.to_nat (o mod BSIZE))) as ->.
    { unfold content. fold j. rewrite Ea, Ejk. fold a. by destruct (Z.eqb_spec a 0); [|rewrite Hx]. }
    rewrite byte_at_splice by (rewrite Hlx; change bsize with (Z.to_nat BSIZE); lia). case_decide as Hin.
    + destruct (Z.leb_spec off o), (Z.ltb_spec o (off + Z.of_nat (length bs))); simpl; try lia. f_equal. lia.
    + destruct (Z.leb_spec off o), (Z.ltb_spec o (off + Z.of_nat (length bs))); simpl; try lia; done.
  - assert ((off <=? o) && (o <? off + Z.of_nat (length bs)) = false) as ->.
    { destruct (Z.leb_spec off o), (Z.ltb_spec o (off + Z.of_nat (length bs))); try done. unfold BSIZE in *. lia. }
    unfold content. fold j. rewrite Ea. destruct (Z.eqb_spec (slot f di j) 0) as [|Hn]; [done |].
    rewrite pslot_same; [done |]. intros E. apply Hne.
    apply (fi_inj _ _ _ _ _ Hok); [unfold slot_range; lia | apply patch_range | done | done].
Qed.

End PatchSlot.

Section FsWrite.
Context {D : Type} `{DiskLaws D}.

(** [bs] was written at [off], in the blocks [K], and [c] blocks were taken. *)
Record written (f : Z → option (list Z)) (lk : list Z) (s : fsys D) (i : nat) (ip : inode) (off : Z) (bs : list Z)
    (K : list Z) (c : nat) (ws : writes) (di' : dinode) (s' : fsys D) : Prop := Written {
  wr_step : fstep f lk s i ip ws di' s';
  wr_st : file_st (apply_writes ws f) lk s' i (set_i_d di' ip);
  wr_grew : grew f (fs_sb s) (i_d ip) ws di' (-1 :: K);
  wr_content o : 0 ≤ o < Z.of_nat MAXFILE * BSIZE →
    content (apply_writes ws f) di' o = overwrite (content f (i_d ip)) off bs o;
  wr_count : (free_count f (fs_sb s) + need_ind di' ≤
    c + (free_count (apply_writes ws f) (fs_sb s) + need_ind (i_d ip)))%nat;
  wr_mapped k : k ∈ K → 0 ≤ k < Z.of_nat MAXFILE ∧ slot (apply_writes ws f) di' k ≠ 0;
}.

Lemma written_nil f lk s i ip off : file_st f lk s i ip → written f lk s i ip off [] [] 0 [] (i_d ip) s.
Proof.
  intros Hf. constructor.
  - apply fdid_fstep; [apply Hf |]. by apply fdid_refl, Hf.
  - by replace (set_i_d (i_d ip) ip) with ip by (by destruct ip).
  - apply grew_refl.
  - intros o _. by rewrite overwrite_nil.
  - done.
  - intros k Hk. by apply elem_of_nil in Hk.
Qed.

Lemma written_app f lk s i ip off bs K c ws di1 s1 bs' K' c' ws' di2 s2 :
  written f lk s i ip off bs K c ws di1 s1 →
  written (apply_writes ws f) lk s1 i (set_i_d di1 ip) (off + Z.of_nat (length bs)) bs' K' c' ws' di2 s2 →
  written f lk s i ip off (bs ++ bs') (K ++ K') (c + c') (ws ++ ws') di2 s2.
Proof.
  intros [A1 A2 A3 A4 A5 A6] [B1 B2 B3 B4 B5 B6]. pose proof (fstep_place _ _ _ _ _ _ _ _ A1) as [_ Esb].
  rewrite Esb in B3, B5. simpl in B4, B5. constructor; rewrite ?apply_writes_app.
  - by eapply fstep_trans.
  - exact B2.
  - eapply grew_slots; [|by eapply grew_trans]. set_solver.
  - intros o Ho. rewrite B4 by done. rewrite <- overwrite_app. by apply overwrite_ext, A4.
  - lia.
  - intros k [Hk|Hk]%elem_of_app; [|by apply B6]. destruct (A6 k Hk) as [Hr Hn]. split; [done |].
    rewrite (gr_keep _ _ _ _ _ _ B3); [done | unfold slot_range; lia | done].
Qed.

Lemma written_slots f lk s i ip off bs K K' c ws di' s' :
  (∀ k, k ∈ K ↔ k ∈ K') → written f lk s i ip off bs K c ws di' s' → written f lk s i ip off bs K' c ws di' s'.
Proof.
  intros HK [A1 A2 A3 A4 A5 A6]. constructor; try done.
  - eapply grew_slots; [|exact A3]. set_solver.
  - intros k. rewrite <- HK. apply A6.
Qed.

Lemma bmapped_written f lk s i ip k off a s' :
  file_st f lk s i ip → 0 ≤ k < Z.of_nat MAXFILE → bmapped f lk s i ip k 1 a s' →
  ∃ ws di', written f lk s i ip off [] [k] 1 ws di' s' ∧ a = slot (apply_writes ws f) di' k ∧ a ≠ 0 ∧
    ∀ m, m ∈ ws.*1 → m ∈ bmblocks (fs_sb s) ∨ m ∈ ind_list di' ∨ m = a.
Proof.
  intros Hf Hk (ws & di' & Hs & G & ->). exists ws, di'. split_and!; [|done | apply (gn_slot _ _ _ _ _ _ _ _ _ G) |].
  - constructor; [done | by eapply file_st_grown | apply G | | apply (gn_count _ _ _ _ _ _ _ _ _ G) |].
    + intros o Ho. rewrite overwrite_nil. by apply (gn_content _ _ _ _ _ _ _ _ _ G).
    + intros j ->%list_elem_of_singleton. split; [done | apply (gn_slot _ _ _ _ _ _ _ _ _ G)].
  - intros m. apply (grew_ws _ _ _ _ _ _ _ (gn_grew _ _ _ _ _ _ _ _ _ G)).
Qed.

(** The data of one block is written. *)
Lemma patch_written f lk s i ip off bs x s' :
  file_st f lk s i ip → 0 ≤ off / BSIZE < Z.of_nat MAXFILE → 0 ≤ off → off mod BSIZE + Z.of_nat (length bs) ≤ BSIZE →
  let a := slot f (i_d ip) (off / BSIZE) in
  a ≠ 0 → f a = Some x → fdid f lk s [(a, splice (Z.to_nat (off mod BSIZE)) bs x)] s' →
  written f lk s i ip off bs [off / BSIZE] 0 [(a, splice (Z.to_nat (off mod BSIZE)) bs x)] (i_d ip) s'.
Proof.
  intros Hf Hk Ho Hb a Ha Hx Hs'. pose proof Hf as [Ht Hfs Hok Hi Hd]. pose proof (tx_length _ _ _ _ _ Ht Hx) as Hlx.
  pose proof Hs' as (t' & Es' & Hd'). pose proof (slot_not_bitmap _ _ _ _ _ _ [] Hok Hfs Hk Ha) as Hbm.
  pose proof (slot_not_indirect _ _ _ _ _ _ [] Hok Hfs Hk Ha) as Hind.
  constructor.
  - by apply fdid_fstep.
  - replace (set_i_d (i_d ip) ip) with ip by (by destruct ip). rewrite Es'. constructor; try done; [apply Hd' | |].
    + simpl. eapply fs_ok_place; [apply Hd' |]. by eapply patch_fs_ok.
    + simpl. eapply file_ok_place; [apply Hd' |]. by eapply patch_file_ok.
  - by eapply pslot_grew.
  - intros o Hr. by eapply pslot_content.
  - simpl. unfold a. erewrite patch_count by done. done.
  - intros j ->%list_elem_of_singleton. split; [done |]. unfold a. erewrite pslot_slot; try done. unfold slot_range. lia.
Qed.

(** One round of the loop *)
Lemma write_block f lk s i ip off bs :
  file_st f lk s i ip → (length lk ≤ 1)%nat → 0 ≤ off → (off + Z.of_nat (length bs)) ≤ Z.of_nat MAXFILE * BSIZE →
  bs ≠ [] → off mod BSIZE + Z.of_nat (length bs) ≤ BSIZE →
  (1 + need_ind (i_d ip) ≤ free_count f (fs_sb s))%nat → fits_file (fs_l s) (fs_sb s) (i_d ip) 1 →
  wp (a ← bmap i (off / BSIZE);
      bp ← on_c (bread (i_dev ip) a);
      on_c (bmodify bp (splice (Z.to_nat (off mod BSIZE)) bs));;
      on_l (log_write bp);;
      on_c (brelse bp)) s
    (λ _ s', ∃ ws di', written f lk s i ip off bs [off / BSIZE] 1 ws di' s').
Proof.
  intros Hf Hl Ho Hmax Hne Hb Hc Hfit. set (k := off / BSIZE).
  assert (length bs ≠ 0%nat) as Hlen by (by destruct bs).
  assert (0 ≤ k < Z.of_nat MAXFILE) as Hk by (unfold k, BSIZE in *; zdiv).
  apply wp_bind. eapply wp_mono; [by apply (bmap_spec f lk s i ip k) |].
  intros a s1 (ws & di1 & W & Ea & Hn & Hw)%(bmapped_written _ _ _ _ _ _ off _ _ Hf Hk).
  pose proof W as [Hs1 Hf1 G1 _ _ _]. pose proof (fstep_place _ _ _ _ _ _ _ _ Hs1) as [Hp1 Esb].
  pose proof Hf1 as [Ht1 Hfs1 Hok1 Hi1 Hd1]. simpl in Hok1.
  destruct (fi_slot _ _ _ _ _ Hok1 k) as [[Br [x Hx] Bl Bh Bd] Hu]; [unfold slot_range; lia | by rewrite <- Ea |].
  rewrite <- Ea in Br, Hx, Bl, Bh, Bd, Hu. rewrite (ft_dev _ _ _ _ _ Hf).
  pose proof (tx_length _ _ _ _ _ Ht1 Hx) as Hlx.
  eapply f_bread; [exact Ht1 | lia | exact Bl | exact Hx |]. intros bp s2 Hs2.
  eapply (f_update_end _ lk s1 [] bp a x s2); [exact Ht1 | exact Hs2 | | | exact Bh | |].
  - rewrite length_splice; [done |]. rewrite Hlx. unfold bsize. unfold BSIZE in *. zdiv.
  - destruct Hs1 as (t1 & -> & Hd). eapply (did_fits _ _ _ _ _ _ Hd).
    eapply fits_sub; [|apply (fits_file_ws _ (fs_sb s) (i_d ip) ws di1 a 0 [])]; try done.
    + cbn [fmap list_fmap app]. set_solver.
    + by eapply grew_indirect.
    + simpl. lia.
  - pose proof (bm_size _ _ _ _ (fo_map _ _ _ _ Hfs1)). lia.
  - intros s3 Hs3. cbn [app] in Hs3. subst a.
    pose proof (patch_written _ _ _ _ _ off bs x s3 Hf1 Hk Ho Hb Hn Hx Hs3) as W2.
    eexists _, _. eapply (written_slots _ _ _ _ _ _ _ ([k] ++ [k])); [set_solver |].
    eapply (written_app _ _ _ _ _ off [] [k] 1 ws di1 s1 bs [k] 0 _ _ s3 W).
    cbn [length]. rewrite Z.add_0_r. exact W2.
Qed.

(** Blocks from [off] on that [n] bytes are in *)
Definition nblocks (off : Z) (n : nat) : nat :=
  if decide (n = 0%nat) then 0 else Z.to_nat ((off + Z.of_nat n - 1) / BSIZE - off / BSIZE + 1).

Lemma nblocks_step off n :
  0 ≤ off → (0 < n)%nat → let m := Z.to_nat (Z.min (Z.of_nat n) (BSIZE - off mod BSIZE)) in
  (0 < m ≤ n)%nat ∧ off mod BSIZE + Z.of_nat m ≤ BSIZE ∧ nblocks off n = S (nblocks (off + Z.of_nat m) (n - m)) ∧
  ((n - m)%nat ≠ 0%nat → (off + Z.of_nat m) / BSIZE = off / BSIZE + 1).
Proof.
  intros Ho Hn m. unfold nblocks. assert (0 ≤ off mod BSIZE < BSIZE) as Hm by (unfold BSIZE; zdiv).
  destruct (decide (n = 0%nat)); [lia |]. destruct (Z.le_gt_cases (Z.of_nat n) (BSIZE - off mod BSIZE)) as [Hle|Hgt].
  - assert (m = n) as -> by (unfold m; lia). rewrite Nat.sub_diag. simpl. split_and!; try lia.
    unfold BSIZE in *. zdiv.
  - assert (Z.of_nat m = BSIZE - off mod BSIZE) as Em by (unfold m; lia). rewrite Em.
    destruct (decide ((n - m)%nat = 0%nat)); [lia |]. rewrite Nat2Z.inj_sub, Em by lia.
    unfold BSIZE in *. split_and!; try lia; zdiv.
Qed.

Lemma fits_file_written f lk s i ip off bs k c ws di' s' n :
  written f lk s i ip off bs [k] c ws di' s' → fits_file (fs_l s) (fs_sb s) (i_d ip) (S n) →
  fits_file (fs_l s') (fs_sb s') di' n.
Proof.
  intros [(t' & -> & Hd) _ G _ _ _] Hf C HC. simpl. eapply (did_fits _ _ _ _ _ _ Hd).
  eapply fits_sub; [|apply (fits_file_ws _ (fs_sb s) (i_d ip) ws di' (slot (apply_writes ws f) di' k) n C)]; try done.
  - set_solver.
  - by eapply grew_indirect.
  - intros m. by eapply grew_ws.
Qed.

Lemma wp_round {A} i k dev g (next : M (fsys D) A) s Q :
  wp ((a ← bmap i k; bp ← on_c (bread dev a); on_c (bmodify bp g);; on_l (log_write bp);; on_c (brelse bp));; next) s Q →
  wp (a ← bmap i k; bp ← on_c (bread dev a); on_c (bmodify bp g);; on_l (log_write bp);; on_c (brelse bp);; next) s Q.
Proof.
  unfold wp, mbind, M_bind. destruct (bmap i k s) as [[a s1]|]; [|done].
  destruct (on_c (bread dev a) s1) as [[bp s2]|]; [|done]. destruct (on_c (bmodify bp g) s2) as [[[] s3]|]; [|done].
  by destruct (on_l (log_write bp) s3) as [[[] s4]|].
Qed.

Lemma writei_loop_spec fuel f lk s i ip off src :
  file_st f lk s i ip → (length lk ≤ 1)%nat → 0 ≤ off → off + Z.of_nat (length src) ≤ Z.of_nat MAXFILE * BSIZE →
  (length src < fuel)%nat →
  let n := nblocks off (length src) in
  (n + need_ind (i_d ip) ≤ free_count f (fs_sb s))%nat → fits_file (fs_l s) (fs_sb s) (i_d ip) n →
  wp (writei_loop fuel i off src) s (λ r s', r = off + Z.of_nat (length src) ∧
    ∃ ws di', written f lk s i ip off src (seqZ (off / BSIZE) (Z.of_nat n)) n ws di' s').
Proof.
  revert f s ip off src. induction fuel as [|fuel IH]; intros f s ip off src Hf Hl Ho Hmax Hfuel n Hc Hfit; [lia |].
  cbn [writei_loop]. destruct (decide (src = [])) as [->|Hne].
  { apply wp_ret. split; [simpl; lia |]. eexists _, _. by apply written_nil. }
  assert (0 < length src)%nat as Hls by (by destruct src; simpl; [|lia]).
  destruct (nblocks_step off (length src) Ho Hls) as (Hm & Hmb & En & Ediv). 
  destruct src as [|c0 src']; [done |]. set (src := c0 :: src') in *. clearbody src. clear c0 src' Hne Hls.
  eapply wp_i_get; [apply Hf |]. cbv zeta.
  set (m := Z.to_nat (Z.of_nat (length src) `min` (BSIZE - off mod BSIZE))) in *.
  assert (length (take m src) = m) as Hlt by (rewrite length_take; lia).
  apply wp_round. apply wp_bind. eapply wp_mono.
  { apply (write_block f lk s i ip off (take m src)); rewrite ?Hlt; try done; try lia.
    - intros E. rewrite E in Hlt. simpl in Hlt. lia.
    - unfold n in Hfit. rewrite En in Hfit. intros C HC. apply Hfit. lia. }
  intros [] s1 (ws & di1 & W). pose proof (fstep_place _ _ _ _ _ _ _ _ (wr_step _ _ _ _ _ _ _ _ _ _ _ _ W)) as [_ Esb].
  pose proof (wr_count _ _ _ _ _ _ _ _ _ _ _ _ W) as Hcc.
  set (n' := nblocks (off + Z.of_nat m) (length src - m)) in *. unfold n in Hc, Hfit. rewrite En in Hc, Hfit.
  replace (off + Z.of_nat (length src) `min` (BSIZE - off mod BSIZE)) with (off + Z.of_nat m) by (unfold m; lia).
  assert (length (drop m src) = (length src - m)%nat) as Hld by apply length_drop.
  eapply wp_mono.
  { apply (IH (apply_writes ws f) s1 (set_i_d di1 ip) (off + Z.of_nat m) (drop m src)); rewrite ?Hld; fold n'; try lia.
    - apply W.
    - rewrite Esb. simpl. lia.
    - by eapply fits_file_written. }
  rewrite Hld. fold n'. intros r s2 (-> & ws2 & di2 & W2). split; [lia |]. exists (ws ++ ws2), di2.
  rewrite <- (take_drop m src) at 1.
  replace (seqZ (off / BSIZE) (Z.of_nat n)) with ([off / BSIZE] ++ seqZ ((off + Z.of_nat m) / BSIZE) (Z.of_nat n')).
  - replace n with (1 + n')%nat by (unfold n; lia). eapply written_app; [exact W |]. by rewrite Hlt.
  - unfold n. rewrite En. rewrite (seqZ_cons _ (Z.of_nat (S n'))) by lia. simpl app. f_equal.
    replace (Z.pred (Z.of_nat (S n'))) with (Z.of_nat n') by lia.
    destruct (decide ((length src - m)%nat = 0%nat)) as [Ez|Ez]; [|by rewrite Ediv].
    unfold n', nblocks. by rewrite decide_True.
Qed.

(** ** The inode on disk *)

(** The inode's block, which no file has *)
Record inode_block (f : Z → option (list Z)) (lk : list Z) (l : log) (sb : superblock) (di : dinode) (ib : Z) : Prop :=
  InodeBlock {
  ib_range : 0 ≤ ib < sb_size sb;
  ib_block : is_Some (f ib);
  ib_lock : ib ∉ lk;
  ib_home : home l ib;
  ib_bitmap : ib ∉ bmblocks sb;
  ib_used : used f sb ib = true;
  ib_slot k : slot_range k → slot f di k ≠ 0 → slot f di k ≠ ib;
}.

Lemma iupdate_spec f lk s i ip x :
  tx f lk (fs_l s) → (length lk ≤ 2)%nat → fs_inodes s !! i = Some ip → i_dev ip = 1 →
  let ib := IBLOCK (i_inum ip) (fs_sb s) in
  f ib = Some x → ib ∉ lk → home (ls_log (fs_l s)) ib → fits (fs_l s) [ib] → dinode_ok (i_d ip) →
  wp (iupdate i) s (λ _ s', fdid f lk s [(ib, put_dinode (ioff (i_inum ip)) (i_d ip) x)] s').
Proof.
  intros Ht Hl Hi Hd ib Hx Hlk Hh Hfit Hdi. unfold iupdate. eapply wp_i_get; [done |]. apply wp_bind, wp_gets.
  rewrite Hd. fold ib. eapply f_bread; [exact Ht | lia | exact Hlk | exact Hx |]. intros bp s1 Hs1.
  eapply (f_update_end f lk s [] bp ib x s1); [exact Ht | exact Hs1 | | done | done | |done].
  - unfold put_dinode. rewrite length_splice; [by eapply tx_length |].
    rewrite length_dinode_bytes by done. rewrite (tx_length _ _ _ _ _ Ht Hx). apply ioff_bound.
  - unfold ib, IBLOCK, u32. apply Z.mod_pos_bound. done.
Qed.

Lemma wp_i_upd {A} s i ip g (k : M (fsys D) A) Q :
  fs_inodes s !! i = Some ip → wp k (set_fs_inodes (<[i := g ip]> (fs_inodes s)) s) Q → wp (i_upd i g;; k) s Q.
Proof. intros Hi Hk. unfold i_upd. apply wp_assoc. eapply wp_i_get; [done |]. by apply wp_bind, wp_modify. Qed.

Lemma wp_i_acquire {A} s i ip (k : M (fsys D) A) Q :
  fs_inodes s !! i = Some ip → sl_locked (i_lock ip) = false →
  wp k (set_fs_inodes (<[i := set_i_lock (Sleeplock true (cur_pid s)) ip]> (fs_inodes s)) s) Q →
  wp (i_acquire i;; k) s Q.
Proof.
  intros Hi Hl Hk. unfold i_acquire. apply wp_bind. unfold i_get, i_upd, i_get, acquiresleep, gets, modify, wp, mbind, M_bind.
  rewrite Hi, Hl. cbn. unfold i_upd, i_get, modify, mbind, M_bind. rewrite Hi. exact Hk.
Qed.

(** [ilock] of an inode that is not in memory reads it from its block. *)
Lemma ilock_spec f lk s i ip x :
  tx f lk (fs_l s) → (length lk ≤ 2)%nat → fs_inodes s !! i = Some ip → i_dev ip = 1 → 1 ≤ i_ref ip →
  sl_locked (i_lock ip) = false → i_valid ip = false →
  let ib := IBLOCK (i_inum ip) (fs_sb s) in
  let di := get_dinode x (ioff (i_inum ip)) in
  f ib = Some x → ib ∉ lk → di_type di ≠ 0 →
  wp (ilock i) s (λ _ s', ∃ s1, fdid f lk s [] s1 ∧
    s' = set_fs_inodes (<[i := Inode 1 (i_inum ip) (i_ref ip) (Sleeplock true (cur_pid s)) true di]> (fs_inodes s)) s1).
Proof.
  intros Ht Hl Hi Hd Hr Hlk Hv ib di Hx Hn Hty. unfold ilock. eapply wp_i_get; [done |].
  destruct (Z.ltb_spec (i_ref ip) 1); [lia |]. eapply wp_i_acquire; [done | done |]. rewrite Hv.
  set (ip1 := set_i_lock (Sleeplock true (cur_pid s)) ip). set (s1 := set_fs_inodes (<[i:=ip1]> (fs_inodes s)) s).
  pose proof (lookup_lt_Some _ _ _ Hi) as Hil.
  apply wp_bind, wp_gets. rewrite Hd. change (fs_sb s1) with (fs_sb s). fold ib.
  eapply (f_bread _ f lk s1); [exact Ht | done | exact Hn | exact Hx |]. intros bp s2 Hs2.
  eapply f_bdata; [exact Hs2 |]. cbv zeta. fold di.
  pose proof (fhaving_fdid _ _ _ _ _ _ _ _ Hs2) as Hd2. destruct (fdid_frame _ _ _ _ _ Hd2) as (_ & Ei & _).
  eapply (wp_d_upd s2 i ip1).
  { rewrite Ei. by apply list_lookup_insert_eq. }
  destruct Hs2 as (t2 & -> & Hh2).
  apply wp_bind, wp_on_l. eapply wp_mono; [apply (having_brelse f lk (fs_l s1) [] bp ib x t2 Ht Hh2) |].
  intros [] t3 Hd3. eapply (wp_i_upd _ i (set_i_d di ip1)).
  { simpl. by rewrite list_lookup_insert_eq by (by rewrite length_insert). }
  destruct (Z.eqb_spec (di_type di) 0); [done |]. apply wp_ret. exists (set_fs_l t3 s). split.
  - by exists t3.
  - unfold set_fs_inodes, set_fs_l. simpl. rewrite !list_insert_insert_eq. unfold set_i_valid, set_i_d. simpl. by rewrite Hd.
Qed.

(** ** [writei] *)

(** The file after [writei]: its contents, its size, its inode on disk if it grew; and the blocks that are not
    the file's. *)
Record writei_post (f : Z → option (list Z)) (lk : list Z) (s : fsys D) (i : nat) (ip : inode) (off : Z) (src : list Z)
    (ws : writes) (di' : dinode) (s' : fsys D) : Prop := WriteiPost {
  wp_step : fstep f lk s i ip ws di' s';
  wp_st : file_st (apply_writes ws f) lk s' i (set_i_d di' ip);
  wp_meta : di' = Dinode (di_type (i_d ip)) (di_major (i_d ip)) (di_minor (i_d ip)) (di_nlink (i_d ip))
    (Z.max (di_size (i_d ip)) (off + Z.of_nat (length src))) (di_addrs di');
  wp_content o : 0 ≤ o < Z.of_nat MAXFILE * BSIZE →
    content (apply_writes ws f) di' o = overwrite (content f (i_d ip)) off src o;
  wp_mapped k : slot_range k →
    slot f (i_d ip) k ≠ 0 ∨ off / BSIZE ≤ k ∧ BSIZE * k < off + Z.of_nat (length src) ∧ src ≠ [] →
    slot (apply_writes ws f) di' k ≠ 0;
  wp_frame b : 0 ≤ b < sb_size (fs_sb s) → used f (fs_sb s) b = true → b ∉ bmblocks (fs_sb s) →
    b ≠ IBLOCK (i_inum ip) (fs_sb s) → (∀ k, slot_range k → slot f (i_d ip) k ≠ 0 → slot f (i_d ip) k ≠ b) →
    apply_writes ws f b = f b;
  wp_inode : di_size (i_d ip) < off + Z.of_nat (length src) →
    get_dinode (default [] (apply_writes ws f (IBLOCK (i_inum ip) (fs_sb s)))) (ioff (i_inum ip)) = di';
  wp_logged m : m ∈ ws.*1 → m ∈ bmblocks (fs_sb s) ∨ m = IBLOCK (i_inum ip) (fs_sb s) ∨
    ∃ k, k ∈ -1 :: seqZ (off / BSIZE) (Z.of_nat (nblocks off (length src))) ∧ m = slot (apply_writes ws f) di' k;
}.

Lemma elem_of_blocks off n k :
  0 ≤ off → (0 < n)%nat →
  k ∈ seqZ (off / BSIZE) (Z.of_nat (nblocks off n)) ↔ off / BSIZE ≤ k ∧ BSIZE * k < off + Z.of_nat n.
Proof.
  intros Ho Hn. rewrite elem_of_seqZ. unfold nblocks. rewrite decide_False by lia. unfold BSIZE. rewrite Z2Nat.id by zdiv.
  split; intros; zdiv.
Qed.

(** The loop alone, when the file does not grow *)
Lemma writei_post_same f lk s i ip off src c ws di' s' :
  0 ≤ off → off + Z.of_nat (length src) ≤ di_size (i_d ip) →
  written f lk s i ip off src (seqZ (off / BSIZE) (Z.of_nat (nblocks off (length src)))) c ws di' s' →
  writei_post f lk s i ip off src ws di' s'.
Proof.
  intros Ho Hs [A1 A2 A3 A4 A5 A6]. constructor; try done; [| | |lia |].
  - rewrite Z.max_l by lia. apply A3.
  - intros k Hk [Hn|(Hk1 & Hk2 & Hne)]; [by rewrite (gr_keep _ _ _ _ _ _ A3) |].
    apply A6, elem_of_blocks; [done | by destruct src; simpl; [|lia] | done].
  - intros b Hb Hu Hm _ Hns. by apply (gr_frame _ _ _ _ _ _ A3).
  - intros m [?|(k & Hk & _ & Em & _)]%(gr_ws _ _ _ _ _ _ A3); [by left | right; right; eauto].
Qed.

Lemma addrs_ok f lk l sb di :
  file_ok f lk l sb di → fs_ok f lk l sb → Forall (λ a, 0 ≤ a < 2 ^ 32) (di_addrs di).
Proof.
  intros Hok Hfs. apply list.Forall_lookup. intros j a Hj. pose proof (lookup_lt_Some _ _ _ Hj) as Hl.
  rewrite (fi_len _ _ _ _ _ Hok) in Hl.
  assert (∃ k, slot_range k ∧ slot f di k = a) as (k & Hk & <-).
  { destruct (decide (j = NDIRECT)) as [->|].
    - exists (-1). split; [unfold slot_range, MAXFILE; lia |]. unfold slot, indirect. simpl. by rewrite Hj.
    - exists (Z.of_nat j). split; [unfold slot_range, MAXFILE; lia |]. rewrite addr_direct by lia.
      by rewrite Nat2Z.id, Hj. }
  destruct (decide (slot f di k = 0)) as [->|Hn]; [lia |].
  destruct (fi_slot _ _ _ _ _ Hok k Hk Hn) as [B _]. pose proof (bo_range _ _ _ _ _ B).
  pose proof (bm_size _ _ _ _ (fo_map _ _ _ _ Hfs)). lia.
Qed.

(** The inode's block while the file's blocks are written *)
Lemma inode_block_grew f lk l l' sb di ws di' K ib :
  inode_block f lk l sb di ib → grew f sb di ws di' K → same_place l l' →
  inode_block (apply_writes ws f) lk l' sb di' ib ∧ apply_writes ws f ib = f ib.
Proof.
  intros [I1 I2 I3 I4 I5 I6 I7] G Hp. assert (apply_writes ws f ib = f ib) as E by (by apply (gr_frame _ _ _ _ _ _ G)).
  split; [|done]. constructor; try done.
  - by rewrite E.
  - by eapply home_place.
  - by apply (gr_used _ _ _ _ _ _ G).
  - intros k Hk Hn. destruct (decide (slot f di k = 0)) as [Hz|Hz].
    + destruct (gr_new _ _ _ _ _ _ G k Hk Hz Hn) as [_ Hu]. congruence.
    + rewrite (gr_keep _ _ _ _ _ _ G k Hk Hz). by apply I7.
Qed.

Lemma set_size_file_ok f lk l sb di n : file_ok f lk l sb di → file_ok f lk l sb (set_size n di).
Proof. intros [A1 A2 A3]. constructor; [exact A1 | exact A2 | exact A3]. Qed.

(** The size changes, and the inode is written. *)
Lemma writei_post_grow f lk s i ip off src K c ws di1 s1 x n :
  written f lk s i ip off src K c ws di1 s1 → 0 ≤ off → dinode_ok (i_d ip) → 0 ≤ n < 2 ^ 32 →
  let ib := IBLOCK (i_inum ip) (fs_sb s) in
  let di2 := set_size n di1 in
  inode_block (apply_writes ws f) lk (ls_log (fs_l s1)) (fs_sb s) di1 ib →
  apply_writes ws f ib = Some x → fits (fs_l s1) [ib] → (length lk ≤ 1)%nat →
  wp (iupdate i) (set_fs_inodes (<[i := set_i_d di2 ip]> (fs_inodes s1)) s1)
    (λ _ s2, let ws2 := [(ib, put_dinode (ioff (i_inum ip)) di2 x)] in
      fstep f lk s i ip (ws ++ ws2) di2 s2 ∧ dinode_ok di2 ∧
      file_st (apply_writes (ws ++ ws2) f) lk s2 i (set_i_d di2 ip)).
Proof.
  intros W Ho Hdi Hn ib di2 Hib Hx Hfit Hl. pose proof W as [Hs1 [Ht1 Hfs1 Hok1 Hi1 Hd1] G _ _ _].
  pose proof (fstep_place _ _ _ _ _ _ _ _ Hs1) as [Hp1 Esb]. simpl in Hok1, Hd1.
  set (s1' := set_fs_inodes (<[i := set_i_d di2 ip]> (fs_inodes s1)) s1).
  pose proof (lookup_lt_Some _ _ _ Hi1) as Hil.
  assert (dinode_ok di2) as Hdi2.
  { pose proof (addrs_ok _ _ _ _ _ Hok1 Hfs1) as Ha. pose proof (fi_len _ _ _ _ _ Hok1) as Hlen. unfold di2.
    rewrite (gr_meta _ _ _ _ _ _ G). destruct Hdi as [A1 A2 A3 A4 A5 A6 A7]. by constructor. }
  eapply wp_mono.
  { eapply (iupdate_spec (apply_writes ws f) lk s1' i (set_i_d di2 ip) x); simpl; try done; try lia.
    - by apply list_lookup_insert_eq.
    - by rewrite Esb.
    - rewrite Esb. apply Hib.
    - rewrite Esb. apply Hib.
    - by rewrite Esb. }
  simpl. rewrite Esb. fold ib. intros [] s2 Hs2. split_and!; [| done |].
  - destruct Hs1 as (t1 & Es1 & Hd1'). destruct Hs2 as (t2 & -> & Hd2). exists t2. split.
    + unfold s1'. rewrite Es1. unfold set_fs_inodes, set_fs_l. simpl. by rewrite list_insert_insert_eq.
    + eapply did_trans; [exact Hd1' |]. unfold s1' in Hd2. by rewrite Es1 in Hd2.
  - rewrite apply_writes_app. destruct Hs2 as (t2 & -> & Hd2).
    assert (indirect di1 ≠ 0 → indirect di1 ≠ ib) as Hind.
    { intros Hne. apply (ib_slot _ _ _ _ _ _ Hib (-1)); [unfold slot_range, MAXFILE; lia | done]. }
    rewrite Esb in Hfs1, Hok1.
    constructor; simpl; [apply Hd2 | | | by apply list_lookup_insert_eq | done]; rewrite Esb.
    + eapply fs_ok_place; [apply Hd2 |]. eapply patch_fs_ok; try done. apply Hib.
    + eapply file_ok_place; [apply Hd2 |]. apply set_size_file_ok. eapply patch_file_ok; try done. apply Hib.
Qed.

(** Room for one block more when the file's are written *)
Lemma fits_written f lk s i ip off bs K c ws di' s' m :
  written f lk s i ip off bs K c ws di' s' → fits_file (fs_l s) (fs_sb s) (i_d ip) (S (length K)) →
  fits (fs_l s') [m].
Proof.
  intros [(t' & -> & Hd) _ G _ _ _] Hf. simpl. eapply (did_fits _ _ _ _ _ _ Hd).
  set (S' := slot (apply_writes ws f) di').
  assert (∀ b, b ∈ ws.*1 → b ∈ bmblocks (fs_sb s) ∨ (b = indirect di' ∧ b ≠ 0) ∨ b ∈ S' <$> K) as Hw.
  { intros b [?|(k & Hk & _ & -> & Hn)]%(gr_ws _ _ _ _ _ _ G); [by left | right].
    apply elem_of_cons in Hk as [->|Hk]; [by left | right]. apply list_elem_of_fmap. by exists k. }
  destruct (decide (indirect (i_d ip) = 0)) as [E|E].
  - eapply fits_sub; [|apply (Hf (m :: indirect di' :: (S' <$> K)))].
    + intros b. rewrite !elem_of_app, !elem_of_cons, elem_of_nil. naive_solver.
    + simpl. rewrite length_fmap. unfold need_ind. rewrite E. simpl. lia.
  - eapply fits_sub; [|apply (Hf (m :: (S' <$> K)))].
    + intros b. rewrite (ind_list_some _ E), !elem_of_app, !elem_of_cons, elem_of_nil.
      rewrite (grew_indirect _ _ _ _ _ _ G E) in Hw. naive_solver.
    + simpl. rewrite length_fmap. lia.
Qed.

(** The post condition, when the file grew *)
Lemma writei_post_more f lk s i ip off src c ws di1 s1 x s2 :
  0 ≤ off ≤ di_size (i_d ip) → let n := off + Z.of_nat (length src) in di_size (i_d ip) < n →
  written f lk s i ip off src (seqZ (off / BSIZE) (Z.of_nat (nblocks off (length src)))) c ws di1 s1 →
  let ib := IBLOCK (i_inum ip) (fs_sb s) in
  let di2 := set_size n di1 in
  let ws2 := [(ib, put_dinode (ioff (i_inum ip)) di2 x)] in
  inode_block (apply_writes ws f) lk (ls_log (fs_l s1)) (fs_sb s) di1 ib → length x = bsize → dinode_ok di2 →
  fstep f lk s i ip (ws ++ ws2) di2 s2 → file_st (apply_writes (ws ++ ws2) f) lk s2 i (set_i_d di2 ip) →
  writei_post f lk s i ip off src (ws ++ ws2) di2 s2.
Proof.
  intros Ho n Hn [A1 A2 A3 A4 A5 A6] ib di2 ws2 Hib Hlx Hdi2 Hs2 Hf2.
  pose proof (fstep_place _ _ _ _ _ _ _ _ A1) as [_ Esb]. pose proof A2 as [_ Hfs1 Hok1 _ _]. rewrite Esb in Hfs1, Hok1.
  assert (indirect di1 ≠ 0 → indirect di1 ≠ ib) as Hind.
  { intros Hne. apply (ib_slot _ _ _ _ _ _ Hib (-1)); [unfold slot_range, MAXFILE; lia | done]. }
  assert (∀ k, slot_range k → slot (apply_writes (ws ++ ws2) f) di2 k = slot (apply_writes ws f) di1 k) as Hsl.
  { intros k Hk. rewrite apply_writes_app. change (slot (apply_writes ws2 (apply_writes ws f)) di1 k = slot (apply_writes ws f) di1 k).
    eapply patch_slot; try done. apply Hib. }
  constructor; try done.
  - fold n. rewrite Z.max_r by lia. unfold di2. rewrite (gr_meta _ _ _ _ _ _ A3). done.
  - intros o Hr. rewrite <- A4 by done. rewrite apply_writes_app.
    change (content (apply_writes ws2 (apply_writes ws f)) di1 o = content (apply_writes ws f) di1 o).
    eapply patch_other; try done; apply Hib.
  - intros k Hk Hc. rewrite Hsl by done. destruct Hc as [Hz|(Hk1 & Hk2 & Hne)]; [by rewrite (gr_keep _ _ _ _ _ _ A3) |].
    apply A6, elem_of_blocks; [lia | by destruct src; simpl; [|lia] | done].
  - intros b Hb Hu Hm Hne Hns. rewrite apply_writes_app. unfold ws2. rewrite apply_writes_one.
    destruct (Z.eqb_spec b ib); [done |]. by apply (gr_frame _ _ _ _ _ _ A3).
  - intros _. fold ib. rewrite apply_writes_app. unfold ws2. rewrite apply_writes_one, Z.eqb_refl. cbn [default id].
    apply get_put_dinode; [done |]. rewrite Hlx. apply ioff_bound.
  - intros m. rewrite fmap_app, elem_of_app. intros [[?|(k & Hk & Hr & -> & _)]%(gr_ws _ _ _ _ _ _ A3)|Hm]; [by left | |].
    + right. right. exists k. split; [done | by rewrite Hsl].
    + right. left. by apply list_elem_of_singleton in Hm.
Qed.

Lemma writei_spec f lk s i ip off src :
  file_st f lk s i ip → (length lk ≤ 1)%nat → dinode_ok (i_d ip) → di_type (i_d ip) ≠ T_DEV →
  inode_block f lk (ls_log (fs_l s)) (fs_sb s) (i_d ip) (IBLOCK (i_inum ip) (fs_sb s)) →
  0 ≤ off ≤ di_size (i_d ip) → off + Z.of_nat (length src) ≤ Z.of_nat MAXFILE * BSIZE →
  let n := nblocks off (length src) in
  (n + need_ind (i_d ip) ≤ free_count f (fs_sb s))%nat → fits_file (fs_l s) (fs_sb s) (i_d ip) (S n) →
  wp (writei i src off) s (λ r s', r = Z.of_nat (length src) ∧
    ∃ ws di', writei_post f lk s i ip off src ws di' s').
Proof.
  intros Hf Hl Hdi Hty Hib Ho Hmax n Hc Hfit. unfold writei. cbv zeta. eapply wp_i_get; [apply Hf |].
  destruct (Z.eqb_spec (di_type (i_d ip)) T_DEV); [done |].
  assert (Z.of_nat MAXFILE * BSIZE < 2 ^ 32) as Hm32 by done. rewrite u32_id by lia.
  destruct (Z.ltb_spec (di_size (i_d ip)) off); [lia |].
  destruct (Z.ltb_spec (off + Z.of_nat (length src)) off); [lia |]. cbn [orb].
  destruct (Z.ltb_spec (Z.of_nat MAXFILE * BSIZE) (off + Z.of_nat (length src))); [lia |].
  apply wp_bind. eapply wp_mono.
  { apply (writei_loop_spec _ f lk s i ip off src); try done; try lia. intros C HC. apply Hfit. lia. }
  intros r s1 (-> & ws & di1 & W). pose proof W as [Hs1 Hf1 G _ _ _].
  eapply wp_i_get; [apply Hf1 |]. cbn [i_d set_i_d].
  assert (di_size di1 = di_size (i_d ip)) as Esz by (by rewrite (gr_meta _ _ _ _ _ _ G)). rewrite Esz.
  destruct (Z.ltb_spec (di_size (i_d ip)) (off + Z.of_nat (length src))) as [Hg|Hg].
  2:{ rewrite andb_false_r. apply wp_bind, wp_ret, wp_ret. split; [done |]. exists ws, di1.
      eapply writei_post_same; [lia | lia | exact W]. }
  destruct (Z.ltb_spec 0 (Z.of_nat (length src))); [|lia]. cbn [andb].
  pose proof (fstep_place _ _ _ _ _ _ _ _ Hs1) as [Hp1 Esb].
  destruct (inode_block_grew _ _ _ _ _ _ _ _ _ _ Hib G Hp1) as [Hib1 Eib]. destruct (ib_block _ _ _ _ _ _ Hib1) as [x Hx].
  apply wp_bind. eapply wp_d_upd; [apply Hf1 |]. eapply wp_mono.
  { eapply (writei_post_grow f lk s i ip off src _ _ ws di1 s1 x (off + Z.of_nat (length src)) W); try done; try lia.
    eapply fits_written; [exact W |]. rewrite length_seqZ, Nat2Z.id. exact Hfit. }
  intros [] s2 (Hs2 & Hdi2 & Hf2). apply wp_ret. split; [done |]. eexists _, _.
  eapply writei_post_more; [done | done | exact W | exact Hib1 | | exact Hdi2 | exact Hs2 | exact Hf2].
  by eapply (tx_length _ _ (fs_l s1)); [apply Hf1 |].
Qed.

(** ** Reading what was written *)

Definition no_holes (f : Z → option (list Z)) (di : dinode) : Prop :=
  di_size di ≤ Z.of_nat MAXFILE * BSIZE ∧ ∀ k, 0 ≤ k → BSIZE * k < di_size di → slot f di k ≠ 0.

Lemma file_mapped f lk s i ip k :
  file_st f lk s i ip → no_holes f (i_d ip) → 0 ≤ k → BSIZE * k < di_size (i_d ip) → mapped_block f lk (i_d ip) k.
Proof.
  intros [Ht Hfs Hok Hi Hd] [Hmax Hh] Hk0 Hk. pose proof (Hh k Hk0 Hk) as Hn.
  assert (0 ≤ k < Z.of_nat MAXFILE) as Hkr by (unfold BSIZE in *; lia).
  destruct (fi_slot _ _ _ _ _ Hok k) as [B _]; [unfold slot_range; lia | done |].
  assert (slot f (i_d ip) k = addr_of f (i_d ip) k) as Ea.
  { unfold slot. destruct (Z.eqb_spec k (-1)); [lia | done]. }
  rewrite Ea in B, Hn. constructor; try done; [apply B | apply B |]. intros Hd12.
  assert (indirect (i_d ip) ≠ 0) as Hin.
  { intros E. apply Hn. rewrite <- Ea. by apply addr_no_indirect. }
  destruct (fi_slot _ _ _ _ _ Hok (-1)) as [B1 _]; [unfold slot_range; lia | done |]. split; apply B1.
Qed.

Lemma no_holes_written f lk s i ip off src ws di' s' :
  0 ≤ off ≤ di_size (i_d ip) → off + Z.of_nat (length src) ≤ Z.of_nat MAXFILE * BSIZE →
  no_holes f (i_d ip) → writei_post f lk s i ip off src ws di' s' → no_holes (apply_writes ws f) di'.
Proof.
  intros Ho Hmax [Hm Hh] W. pose proof (wp_meta _ _ _ _ _ _ _ _ _ _ W) as Em.
  assert (di_size di' = Z.max (di_size (i_d ip)) (off + Z.of_nat (length src))) as Es by (by rewrite Em).
  split; [lia |]. intros k Hk Hks. rewrite Es in Hks.
  apply (wp_mapped _ _ _ _ _ _ _ _ _ _ W); [unfold slot_range, BSIZE in *; lia |].
  destruct (Z.lt_ge_cases (BSIZE * k) (di_size (i_d ip))); [left; by apply Hh | right].
  unfold BSIZE in *. split_and!; [zdiv | lia |]. intros ->. simpl in *. lia.
Qed.

Lemma overwrite_read g off src : overwrite g off src <$> seqZ off (Z.of_nat (length src)) = src.
Proof.
  apply list_eq. intros j. rewrite list_lookup_fmap. destruct (decide (j < length src)%nat) as [Hj|Hj].
  - rewrite lookup_seqZ_lt by lia. simpl. unfold overwrite.
    destruct (Z.leb_spec off (off + Z.of_nat j)), (Z.ltb_spec (off + Z.of_nat j) (off + Z.of_nat (length src))); try lia.
    simpl. replace (Z.to_nat (off + Z.of_nat j - off)) with j by lia. unfold byte_at.
    by destruct (lookup_lt_is_Some_2 src j Hj) as [v ->].
  - rewrite lookup_seqZ_ge by lia. symmetry. apply lookup_ge_None. lia.
Qed.

Lemma readi_written f lk s i ip off src ws di' s' :
  0 ≤ off ≤ di_size (i_d ip) → off + Z.of_nat (length src) ≤ Z.of_nat MAXFILE * BSIZE → (length lk ≤ 1)%nat →
  no_holes f (i_d ip) → di_type (i_d ip) ≠ T_DEV → writei_post f lk s i ip off src ws di' s' →
  wp (readi i off (Z.of_nat (length src))) s' (λ r _, r = (Z.of_nat (length src), src)).
Proof.
  intros Ho Hmax Hl Hh Hty W. pose proof (wp_st _ _ _ _ _ _ _ _ _ _ W) as Hf'.
  pose proof (no_holes_written _ _ _ _ _ _ _ _ _ _ Ho Hmax Hh W) as Hh'.
  pose proof (wp_meta _ _ _ _ _ _ _ _ _ _ W) as Em.
  assert (di_size di' = Z.max (di_size (i_d ip)) (off + Z.of_nat (length src))) as Es by (by rewrite Em).
  assert (Z.of_nat MAXFILE * BSIZE < 2 ^ 32) as Hm32 by done.
  eapply wp_mono.
  { apply (readi_spec (apply_writes ws f) lk s' i (set_i_d di' ip) off (Z.of_nat (length src))); try lia.
    - apply Hf'.
    - apply Hf'.
    - apply (ft_dev _ _ _ _ _ Hf').
    - simpl. by rewrite Em.
    - intros k Hk Hks. by eapply file_mapped. }
  simpl. intros r s2 [_ Hr]. rewrite Es in Hr.
  destruct (Z.ltb_spec (di_size (i_d ip) `max` (off + Z.of_nat (length src))) off); [lia |]. rewrite Hr.
  rewrite Z.min_l by lia. f_equal. rewrite <- (overwrite_read (content f (i_d ip)) off src) at 2.
  apply list_fmap_ext. intros j o (-> & Hj)%lookup_seqZ. apply (wp_content _ _ _ _ _ _ _ _ _ _ W). lia.
Qed.

End FsWrite.
