(* ===== verification/FsDir.v ===== *)
(** * Directories ([fs.c]: [iget], [dirlookup], [dirlink], [skipelem])

    The inode cache has at most one entry in use for an inode.  A directory
    is its entries, in order; [dirlookup] finds the first one with a name and
    [dirlink] adds one. *)

From S2P Require Import Prelude Mmu Bytes Disk Bio FsFormat Log LogSpec LogOps FsTx Console Fs FsStep FsAlloc FsFile FsGrow FsWrite.

(** ** The inode cache *)

Definition in_use (dev inum : Z) (ip : inode) : Prop := 0 < i_ref ip ∧ i_dev ip = dev ∧ i_inum ip = inum.

Definition icache_ok (l : list inode) : Prop :=
  ∀ i j ip jp dev inum, l !! i = Some ip → l !! j = Some jp → in_use dev inum ip → in_use dev inum jp → i = j.

Lemma in_use_test dev inum ip :
  (0 <? i_ref ip) && (i_dev ip =? dev) && (i_inum ip =? inum) = true ↔ in_use dev inum ip.
Proof. unfold in_use. rewrite !andb_true_iff, Z.ltb_lt, !Z.eqb_eq. tauto. Qed.

(** What the scan finds *)
Lemma iget_scan_spec dev inum i l e :
  match iget_scan dev inum i l e with
  | (Some j, _) => (i ≤ j)%nat ∧ ∃ jp, l !! (j - i)%nat = Some jp ∧ in_use dev inum jp
  | (None, e') => (∀ k jp, l !! k = Some jp → ¬ in_use dev inum jp) ∧
      match e' with
      | Some j => e = Some j ∨ (i ≤ j)%nat ∧ ∃ jp, l !! (j - i)%nat = Some jp ∧ i_ref jp = 0
      | None => e = None ∧ ∀ k jp, l !! k = Some jp → i_ref jp ≠ 0
      end
  end.
Proof.
  revert i e. induction l as [|ip l IH]; intros i e; cbn [iget_scan].
  { split; [done |]. destruct e; [by left | done]. }
  destruct ((0 <? i_ref ip) && (i_dev ip =? dev) && (i_inum ip =? inum)) eqn:Et.
  { split; [done |]. exists ip. rewrite Nat.sub_diag. split; [done | by apply in_use_test]. }
  set (e1 := match e with None => _ | _ => _ end). specialize (IH (S i) e1).
  destruct (iget_scan dev inum (S i) l e1) as [[j|] e'].
  { destruct IH as [Hj (jp & Hl & Hu)]. split; [lia |]. exists jp.
    replace (j - i)%nat with (S (j - S i)) by lia. done. }
  destruct IH as [Hn He]. split.
  { intros [|k] jp; [intros [= <-] ?%in_use_test; congruence | apply Hn]. }
  destruct e' as [j|].
  - destruct He as [He|(Hj & jp & Hl & Hr)].
    + unfold e1 in He. destruct e as [|]; [by left |]. right. destruct (Z.eqb_spec (i_ref ip) 0); [|done].
      simplify_eq. split; [done |]. exists ip. by rewrite Nat.sub_diag.
    + right. split; [lia |]. exists jp. by replace (j - i)%nat with (S (j - S i)) by lia.
  - destruct He as [He Hr]. unfold e1 in He. destruct e as [|]; [done |]. split; [done |].
    intros [|k] jp; [intros [= <-] | apply Hr]. by destruct (Z.eqb_spec (i_ref ip) 0).
Qed.

(** An entry becomes one of inode [inum]. *)
Lemma icache_ok_insert l j jp jp' dev inum :
  icache_ok l → l !! j = Some jp → in_use dev inum jp' →
  in_use dev inum jp ∨ (∀ k kp, l !! k = Some kp → ¬ in_use dev inum kp) → icache_ok (<[j := jp']> l).
Proof.
  intros Hok Hj Hu Hor.
  assert (∀ b bp d n, l !! b = Some bp → in_use d n jp' → in_use d n bp → j = b) as Hnew.
  { intros b bp d n Hb (_ & Ed & En) Hub. destruct Hu as (_ & <- & <-). rewrite Ed, En in *.
    destruct Hor as [Hor|Hor]; [by eapply (Hok j b jp bp) | by destruct (Hor b bp Hb Hub)]. }
  intros a b ap bp d n Ha Hb Hua Hub.
  apply list_lookup_insert_Some in Ha as [(<- & <- & _)|[Hna Ha]];
    apply list_lookup_insert_Some in Hb as [(<- & <- & _)|[Hnb Hb]]; [done | by eapply Hnew | |].
  - symmetry. by eapply Hnew.
  - by eapply (Hok a b).
Qed.

Section FsDir.
Context {D : Type} `{DiskLaws D}.

(** An inode of the cache got one more reference, or a free entry was made one for it. *)
Definition got (l : list inode) (dev inum : Z) (j : nat) (jp' : inode) : Prop :=
  ∃ jp, l !! j = Some jp ∧
    (in_use dev inum jp ∧ jp' = set_i_ref (i_ref jp + 1) jp ∨
     (∀ k kp, l !! k = Some kp → ¬ in_use dev inum kp) ∧ i_ref jp = 0 ∧ jp' = Inode dev inum 1 (i_lock jp) false (i_d jp)).

Lemma got_in_use l dev inum j jp' : got l dev inum j jp' → in_use dev inum jp'.
Proof.
  intros (jp & _ & [[(? & ? & ?) ->]|(_ & _ & ->)]); unfold in_use; simpl; [|done]. split_and!; [lia | done | done].
Qed.

Lemma got_ok l dev inum j jp' : icache_ok l → got l dev inum j jp' → icache_ok (<[j := jp']> l).
Proof.
  intros Hok G. pose proof (got_in_use _ _ _ _ _ G) as Hu. destruct G as (jp & Hj & G).
  eapply icache_ok_insert; [done | done | done |]. destruct G as [[? _]|[? _]]; tauto.
Qed.

(** [iget] succeeds, or there is no entry for it. *)
Lemma iget_ok (s : fsys D) dev inum j s' :
  iget dev inum s = Ok (j, s') →
  ∃ jp', got (fs_inodes s) dev inum j jp' ∧ s' = set_fs_inodes (<[j := jp']> (fs_inodes s)) s.
Proof.
  unfold iget. erewrite bind_ok by reflexivity. pose proof (iget_scan_spec dev inum 0 (fs_inodes s) None) as Hs.
  unfold i_upd, i_get, modify, mbind, M_bind, mret, M_ret.
  destruct (iget_scan dev inum 0 (fs_inodes s) None) as [[k|] [e|]]; [| | |done].
  1,2: destruct Hs as [_ (jp & Hj & Hu)]; rewrite Nat.sub_0_r in Hj; rewrite Hj; intros [= <- <-];
    eexists; split; [exists jp; split; [done | by left] | done].
  destruct Hs as [Hn [?|(_ & jp & Hj & Hz)]]; [done |]. rewrite Nat.sub_0_r in Hj. rewrite Hj. intros [= <- <-].
  eexists. split; [exists jp; split; [done | by right] | done].
Qed.

Lemma iget_err (s : fsys D) dev inum e :
  iget dev inum s = Err e →
  e = EPanic "iget: no inodes" ∧ ∀ k kp, fs_inodes s !! k = Some kp → i_ref kp ≠ 0 ∧ ¬ in_use dev inum kp.
Proof.
  unfold iget. erewrite bind_ok by reflexivity. pose proof (iget_scan_spec dev inum 0 (fs_inodes s) None) as Hs.
  unfold i_upd, i_get, modify, mbind, M_bind, mret, M_ret.
  destruct (iget_scan dev inum 0 (fs_inodes s) None) as [[k|] [e0|]].
  1,2: destruct Hs as [_ (jp & Hj & Hu)]; rewrite Nat.sub_0_r in Hj; by rewrite Hj.
  - destruct Hs as [Hn [?|(_ & jp & Hj & Hz)]]; [done |]. rewrite Nat.sub_0_r in Hj. by rewrite Hj.
  - intros [= <-]. destruct Hs as (Hn & _ & Hz). split; [done |]. intros k kp Hk. split; [by eapply Hz | by eapply Hn].
Qed.

Lemma iget_spec (s : fsys D) dev inum :
  (∃ k kp, fs_inodes s !! k = Some kp ∧ i_ref kp = 0) →
  wp (iget dev inum) s (λ j s', ∃ jp', got (fs_inodes s) dev inum j jp' ∧
    s' = set_fs_inodes (<[j := jp']> (fs_inodes s)) s).
Proof.
  intros (k & kp & Hk & Hr). destruct (iget dev inum s) as [[j s']|e] eqn:E.
  - eapply wp_intro; [exact E |]. by apply iget_ok.
  - apply iget_err in E as [_ Hn]. by apply Hn in Hk as [? _].
Qed.

(** ** Entries *)

Definition dentry (f : Z → option (list Z)) (di : dinode) (k : Z) : dirent :=
  get_dirent (content f di <$> seqZ (16 * k) 16).

(** Does entry [k] have the name? *)
Definition dmatch (f : Z → option (list Z)) (di : dinode) (name : list Z) (k : Z) : bool :=
  negb (de_inum (dentry f di k) =? 0) && (namecmp name (de_name (dentry f di k)) =? 0).

(** Inode [i] is a directory of [n] entries. *)
Record dir_st (f : Z → option (list Z)) (lk : list Z) (s : fsys D) (i : nat) (ip : inode) (n : Z) : Prop := DirSt {
  ds_file : file_st f lk s i ip;
  ds_lock : (length lk ≤ 1)%nat;
  ds_type : di_type (i_d ip) = T_DIR;
  ds_size : di_size (i_d ip) = 16 * n;
  ds_holes : no_holes f (i_d ip);
}.

Lemma file_st_did f lk s i ip s' : file_st f lk s i ip → fdid f lk s [] s' → file_st f lk s' i ip.
Proof.
  intros [A1 A2 A3 A4 A5] (t' & -> & Hd).
  constructor; [apply Hd | eapply fs_ok_place; [apply Hd | done] | eapply file_ok_place; [apply Hd | done] | done | done].
Qed.

Lemma dir_st_did f lk s i ip n s' : dir_st f lk s i ip n → fdid f lk s [] s' → dir_st f lk s' i ip n.
Proof. intros [A1 A2 A3 A4 A5] Hd. constructor; try done. by eapply file_st_did. Qed.

Lemma dir_read f lk s i ip n k :
  dir_st f lk s i ip n → 0 ≤ k < n →
  wp (readi i (16 * k) 16) s (λ r s', r = (16, content f (i_d ip) <$> seqZ (16 * k) 16) ∧ fdid f lk s [] s').
Proof.
  intros [A1 A2 A3 A4 A5] Hk. pose proof (proj1 A5) as Hmax. assert (Z.of_nat MAXFILE * BSIZE < 2 ^ 31) as Hm by done.
  eapply wp_mono.
  { apply (readi_spec f lk s i ip (16 * k) 16); try lia; [apply A1 | apply A1 | apply (ft_dev _ _ _ _ _ A1) | by rewrite A3 |].
    intros j Hj Hjs. by eapply file_mapped. }
  cbv beta. intros r s' [Hd Hr]. rewrite A4 in Hr. destruct (Z.ltb_spec (16 * n) (16 * k)); [lia |].
  rewrite Z.min_l in Hr by lia. done.
Qed.

Lemma dirlookup_loop_none fuel f lk s i ip n name k :
  dir_st f lk s i ip n → 0 ≤ k → k + Z.of_nat fuel = n → (∀ j, k ≤ j < n → dmatch f (i_d ip) name j = false) →
  wp (dirlookup_loop fuel i name (16 * k)) s (λ r s', r = None ∧ fdid f lk s [] s').
Proof.
  revert s k. induction fuel as [|fuel IH]; intros s k Hd Hk Hn Hm; cbn [dirlookup_loop].
  { apply wp_ret. split; [done |]. apply fdid_refl, Hd. }
  apply wp_bind. eapply wp_mono; [apply (dir_read f lk s i ip n k); [done | lia] |].
  intros r s1 [-> Hs1]. cbn [fst snd Z.eqb Pos.eqb negb].
  fold (dentry f (i_d ip) k). pose proof (Hm k ltac:(lia)) as Hmk. unfold dmatch in Hmk.
  assert (wp (dirlookup_loop fuel i name (16 * k + 16)) s1 (λ r s', r = None ∧ fdid f lk s [] s')) as W.
  { replace (16 * k + 16) with (16 * (k + 1)) by lia. eapply wp_mono.
    - apply (IH s1 (k + 1)); [by eapply dir_st_did | lia | lia |]. intros j Hj. apply Hm. lia.
    - intros r s2 [-> Hs2]. split; [done |]. exact (fdid_trans _ _ _ _ _ _ _ Hs1 Hs2). }
  destruct (de_inum (dentry f (i_d ip) k) =? 0); [exact W |]. cbn [negb andb] in Hmk. by rewrite Hmk.
Qed.

Lemma dirlookup_loop_some fuel f lk s i ip n name k m :
  dir_st f lk s i ip n → 0 ≤ k ≤ m → m < n → k + Z.of_nat fuel = n →
  dmatch f (i_d ip) name m = true → (∀ j, k ≤ j < m → dmatch f (i_d ip) name j = false) →
  (∃ e ep, fs_inodes s !! e = Some ep ∧ i_ref ep = 0) →
  wp (dirlookup_loop fuel i name (16 * k)) s (λ r s', ∃ j jp' s1, r = Some (j, 16 * m) ∧ fdid f lk s [] s1 ∧
    got (fs_inodes s) 1 (de_inum (dentry f (i_d ip) m)) j jp' ∧ s' = set_fs_inodes (<[j := jp']> (fs_inodes s)) s1).
Proof.
  revert s k. induction fuel as [|fuel IH]; intros s k Hd Hk Hmn Hn Hmm Hm He; cbn [dirlookup_loop]; [lia |].
  apply wp_bind. eapply wp_mono; [apply (dir_read f lk s i ip n k); [done | lia] |].
  intros r s1 [-> Hs1]. cbn [fst snd Z.eqb Pos.eqb negb].
  fold (dentry f (i_d ip) k). pose proof (fdid_frame _ _ _ _ _ Hs1) as (_ & Ei & _).
  destruct (decide (k = m)) as [->|Hne].
  - unfold dmatch in Hmm. apply andb_true_iff in Hmm as [Hi0%negb_true_iff Hcmp]. rewrite Hi0, Hcmp.
    pose proof (dir_st_did _ _ _ _ _ _ _ Hd Hs1) as [F1 _ _ _ _]. eapply wp_i_get; [apply F1 |].
    rewrite (ft_dev _ _ _ _ _ F1). apply wp_bind. eapply wp_mono; [apply (iget_spec s1); by rewrite Ei |].
    rewrite Ei. intros j s2 (jp' & G & ->). apply wp_ret. by exists j, jp', s1.
  - pose proof (Hm k ltac:(lia)) as Hmk. unfold dmatch in Hmk.
    assert (wp (dirlookup_loop fuel i name (16 * k + 16)) s1 (λ r s', ∃ j jp' s2, r = Some (j, 16 * m) ∧ fdid f lk s [] s2 ∧
      got (fs_inodes s) 1 (de_inum (dentry f (i_d ip) m)) j jp' ∧ s' = set_fs_inodes (<[j := jp']> (fs_inodes s)) s2)) as W.
    { replace (16 * k + 16) with (16 * (k + 1)) by lia. eapply wp_mono.
      - apply (IH s1 (k + 1)); [by eapply dir_st_did | lia | lia | lia | done | | by rewrite Ei]. intros j Hj. apply Hm. lia.
      - rewrite Ei. intros r s2 (j & jp' & s3 & -> & Hs3 & G & ->). exists j, jp', s3. split_and!; try done.
        exact (fdid_trans _ _ _ _ _ _ _ Hs1 Hs3). }
    destruct (de_inum (dentry f (i_d ip) k) =? 0); [exact W |]. cbn [negb andb] in Hmk. by rewrite Hmk.
Qed.

Lemma nentries_eq n : 0 ≤ n → nentries (16 * n) = Z.to_nat n.
Proof. intros Hn. unfold nentries. f_equal. zdiv. Qed.

Lemma dir_start {A} f lk s i ip n (c : nat → M (fsys D) A) Q :
  dir_st f lk s i ip n → wp (c (Z.to_nat n)) s Q →
  wp (dp ← i_get i; if negb (di_type (i_d dp) =? T_DIR) then panic "dirlookup not DIR" else
      c (nentries (di_size (i_d dp)))) s Q.
Proof.
  intros [A1 A2 A3 A4 A5] Hc. eapply wp_i_get; [apply A1 |]. rewrite A3, A4. cbn [Z.eqb Pos.eqb negb T_DIR].
  assert (nentries (16 * n) = Z.to_nat n) as ->; [|done]. unfold nentries. zdiv.
Qed.

Lemma dirlookup_none f lk s i ip n name :
  dir_st f lk s i ip n → 0 ≤ n → (∀ j, 0 ≤ j < n → dmatch f (i_d ip) name j = false) →
  wp (dirlookup i name) s (λ r s', r = None ∧ fdid f lk s [] s').
Proof.
  intros Hd Hn Hm. unfold dirlookup. eapply (dir_start _ _ _ _ _ _ (λ k, dirlookup_loop k i name 0)); [done |].
  apply (dirlookup_loop_none _ f lk s i ip n name 0); [done | lia | lia | done].
Qed.

Lemma dirlookup_some f lk s i ip n name m :
  dir_st f lk s i ip n → 0 ≤ m < n → dmatch f (i_d ip) name m = true →
  (∀ j, 0 ≤ j < m → dmatch f (i_d ip) name j = false) → (∃ e ep, fs_inodes s !! e = Some ep ∧ i_ref ep = 0) →
  wp (dirlookup i name) s (λ r s', ∃ j jp' s1, r = Some (j, 16 * m) ∧ fdid f lk s [] s1 ∧
    got (fs_inodes s) 1 (de_inum (dentry f (i_d ip) m)) j jp' ∧ s' = set_fs_inodes (<[j := jp']> (fs_inodes s)) s1).
Proof.
  intros Hd Hm Hmm Hf He. unfold dirlookup. eapply (dir_start _ _ _ _ _ _ (λ k, dirlookup_loop k i name 0)); [done |].
  apply (dirlookup_loop_some _ f lk s i ip n name 0 m); try done; lia.
Qed.

(** Entry [m] is the first free one, or the end. *)
Definition first_entry (f : Z → option (list Z)) (di : dinode) (n m : Z) : Prop :=
  0 ≤ m ≤ n ∧ (m < n → de_inum (dentry f di m) = 0) ∧ ∀ j, 0 ≤ j < m → de_inum (dentry f di j) ≠ 0.

Lemma free_entry_spec fuel f lk s i ip n k :
  dir_st f lk s i ip n → 0 ≤ k → k + Z.of_nat fuel = n → (∀ j, 0 ≤ j < k → de_inum (dentry f (i_d ip) j) ≠ 0) →
  wp (free_entry fuel i (16 * k)) s (λ r s', ∃ m, r = 16 * m ∧ first_entry f (i_d ip) n m ∧ fdid f lk s [] s').
Proof.
  revert s k. induction fuel as [|fuel IH]; intros s k Hd Hk Hn Hj; cbn [free_entry].
  { apply wp_ret. exists k. split_and!; [done | | by apply fdid_refl, Hd]. split_and!; [lia | lia | lia | done]. }
  apply wp_bind. eapply wp_mono; [apply (dir_read f lk s i ip n k); [done | lia] |].
  intros r s1 [-> Hs1]. cbn [fst snd Z.eqb Pos.eqb negb]. fold (dentry f (i_d ip) k).
  destruct (Z.eqb_spec (de_inum (dentry f (i_d ip) k)) 0) as [E|E].
  { apply wp_ret. exists k. split_and!; [done | | done]. split_and!; [lia | lia | done | done]. }
  replace (16 * k + 16) with (16 * (k + 1)) by lia. eapply wp_mono.
  - apply (IH s1 (k + 1)); [by eapply dir_st_did | lia | lia |]. intros j Hj'. destruct (decide (j = k)) as [->|]; [done |].
    apply Hj. lia.
  - intros r s2 (m & -> & Hm & Hs2). exists m. split_and!; [done | done |]. exact (fdid_trans _ _ _ _ _ _ _ Hs1 Hs2).
Qed.

(** ** A new entry *)

Lemma str_ncmp_pad n p : str_ncmp n p (take n (p ++ replicate n 0)) = 0.
Proof.
  revert p. induction n as [|n IH]; intros p; [done |]. cbn [str_ncmp].
  destruct p as [|c p].
  - cbn [app replicate take]. unfold byte_at. simpl. done.
  - cbn [app take]. unfold byte_at. cbn [lookup list_lookup default id drop]. rewrite Z.eqb_refl, andb_true_r, !drop_0.
    destruct (nz c); [|apply Z.sub_diag].
    replace (take n (p ++ replicate (S n) 0)) with (take n (p ++ replicate n 0)); [apply IH |].
    replace (S n) with (n + 1)%nat by lia. rewrite replicate_add, app_assoc, (take_app_le (_ ++ _)); [done |].
    rewrite length_app, length_replicate. lia.
Qed.

Lemma namecmp_dirname name : namecmp name (dirname name) = 0.
Proof. apply str_ncmp_pad. Qed.

Lemma length_dirname name : length (dirname name) = DIRSIZ.
Proof. unfold dirname. rewrite length_take, length_app, length_replicate. lia. Qed.

Lemma nblocks_entry m : 0 ≤ m → nblocks (16 * m) 16 = 1%nat.
Proof. intros Hm. unfold nblocks. rewrite decide_False by done. unfold BSIZE. zdiv. Qed.

(** The entries after [writei] of entry [m] *)
Lemma dentry_written f lk s i ip m de ws di' s' j :
  writei_post f lk s i ip (16 * m) (dirent_bytes de) ws di' s' → length (de_name de) = DIRSIZ → 0 ≤ de_inum de < 2 ^ 16 →
  0 ≤ m → 0 ≤ j → 16 * j + 16 ≤ Z.of_nat MAXFILE * BSIZE →
  dentry (apply_writes ws f) di' j = if j =? m then de else dentry f (i_d ip) j.
Proof.
  intros W Hl Hi Hm Hj Hmax. pose proof (length_dirent de Hl) as Hld. unfold dentry.
  assert (content (apply_writes ws f) di' <$> seqZ (16 * j) 16 =
    overwrite (content f (i_d ip)) (16 * m) (dirent_bytes de) <$> seqZ (16 * j) 16) as ->.
  { apply list_fmap_ext. intros k o (-> & Hk)%lookup_seqZ. apply (wp_content _ _ _ _ _ _ _ _ _ _ W). lia. }
  destruct (Z.eqb_spec j m) as [->|Hne].
  - rewrite <- (get_put_dirent de Hi Hl) at 2. f_equal.
    rewrite <- (overwrite_read (content f (i_d ip)) (16 * m) (dirent_bytes de)) at 2. by rewrite Hld.
  - f_equal. apply list_fmap_ext. intros k o (-> & Hk)%lookup_seqZ. unfold overwrite. rewrite Hld. unfold dirent_size.
    destruct (Z.leb_spec (16 * m) (16 * j + Z.of_nat k)), (Z.ltb_spec (16 * j + Z.of_nat k) (16 * m + Z.of_nat 16)); try done; lia.
Qed.

Lemma dirlink_spec f lk s i ip n name inum :
  dir_st f lk s i ip n → 0 ≤ n → dinode_ok (i_d ip) →
  inode_block f lk (ls_log (fs_l s)) (fs_sb s) (i_d ip) (IBLOCK (i_inum ip) (fs_sb s)) →
  16 * n + 16 ≤ Z.of_nat MAXFILE * BSIZE → (1 + need_ind (i_d ip) ≤ free_count f (fs_sb s))%nat →
  fits_file (fs_l s) (fs_sb s) (i_d ip) 2 → (∀ j, 0 ≤ j < n → dmatch f (i_d ip) name j = false) →
  wp (dirlink i name inum) s (λ r s', r = 0 ∧ ∃ s1 m ws di', fdid f lk s [] s1 ∧ first_entry f (i_d ip) n m ∧
    writei_post f lk s1 i ip (16 * m) (dirent_bytes (Dirent (u16 inum) (dirname name))) ws di' s').
Proof.
  intros Hd Hn Hdi Hib Hmax Hc Hfit Hm. unfold dirlink. apply wp_bind.
  eapply wp_mono; [by apply (dirlookup_none f lk s i ip n name) |]. intros r s1 [-> Hs1]. cbv beta iota.
  pose proof (dir_st_did _ _ _ _ _ _ _ Hd Hs1) as Hd1. eapply wp_i_get; [apply Hd1 |].
  rewrite (ds_size _ _ _ _ _ _ Hd), nentries_eq by done. apply wp_bind.
  eapply wp_mono; [apply (free_entry_spec _ f lk s1 i ip n 0); [done | lia | lia | lia] |].
  intros off s2 (m & -> & Hm2 & Hs2'). pose proof (fdid_trans _ _ _ _ _ _ _ Hs1 Hs2') as Hs2.
  pose proof (dir_st_did _ _ _ _ _ _ _ Hd1 Hs2') as [F1 F2 F3 F4 F5]. pose proof Hm2 as ([Hm0 Hmn] & _ & _).
  pose proof (fdid_frame _ _ _ _ _ Hs2) as (Esb & _).
  assert (length (dirent_bytes (Dirent (u16 inum) (dirname name))) = 16%nat) as Hlen by (apply length_dirent, length_dirname).
  apply wp_bind. eapply wp_mono.
  { apply (writei_spec f lk s2 i ip (16 * m)); rewrite ?Hlen, ?nblocks_entry, ?Esb by lia; try done; try lia.
    - by rewrite F3.
    - destruct Hs2 as (t2 & -> & Hd2). destruct Hib as [I1 I2 I3 I4 I5 I6 I7]. constructor; try done.
      eapply home_place; [apply Hd2 | done].
    - destruct Hs2 as (t2 & -> & Hd2). intros C HC. by apply (did_fits _ _ _ _ _ _ Hd2), Hfit. }
  rewrite Hlen. intros r s3 (-> & ws & di' & W). apply wp_ret. split; [done |]. by exists s2, m, ws, di'.
Qed.

(** The directory with the new entry *)
Lemma dir_linked f lk s i ip n m de ws di' s1 s' :
  dir_st f lk s i ip n → fdid f lk s [] s1 → 0 ≤ m ≤ n → length (de_name de) = DIRSIZ → 16 * n + 16 ≤ Z.of_nat MAXFILE * BSIZE →
  writei_post f lk s1 i ip (16 * m) (dirent_bytes de) ws di' s' →
  dir_st (apply_writes ws f) lk s' i (set_i_d di' ip) (Z.max n (m + 1)).
Proof.
  intros [A1 A2 A3 A4 A5] Hd Hm Hl Hmax W. pose proof (wp_meta _ _ _ _ _ _ _ _ _ _ W) as Em.
  pose proof (length_dirent de Hl) as Hld. unfold dirent_size in Hld. rewrite Hld in Em.
  assert (di_size di' = 16 * Z.max n (m + 1)) as Es by (rewrite Em; simpl; lia).
  constructor; [apply W | done | simpl; by rewrite Em | done |].
  eapply no_holes_written; [| | exact A5 | exact W]; [lia | rewrite Hld; lia].
Qed.

Lemma dirlookup_linked f lk s i ip n m name inum ws di' s1 s' :
  dir_st f lk s i ip n → fdid f lk s [] s1 → first_entry f (i_d ip) n m → 16 * n + 16 ≤ Z.of_nat MAXFILE * BSIZE →
  0 < inum < 2 ^ 16 → (∀ j, 0 ≤ j < n → dmatch f (i_d ip) name j = false) →
  (∃ e ep, fs_inodes s !! e = Some ep ∧ i_ref ep = 0) →
  writei_post f lk s1 i ip (16 * m) (dirent_bytes (Dirent inum (dirname name))) ws di' s' →
  wp (dirlookup i name) s' (λ r s2, ∃ j jp, r = Some (j, 16 * m) ∧ fs_inodes s2 !! j = Some jp ∧ in_use 1 inum jp).
Proof.
  intros Hd Hs1 (Hmn & _ & _) Hmax Hin Hno (e & ep & He & Hr) W. set (de := Dirent inum (dirname name)) in *.
  pose proof (length_dirname name) as Hl.
  pose proof (dir_linked _ _ _ _ _ _ _ de _ _ _ _ Hd Hs1 Hmn Hl Hmax W) as Hd'.
  assert (∀ j, 0 ≤ j ≤ n → dentry (apply_writes ws f) di' j = if j =? m then de else dentry f (i_d ip) j) as Hde.
  { intros j Hj. eapply dentry_written; try done; simpl; lia. }
  assert (dmatch (apply_writes ws f) di' name m = true) as Hmm.
  { unfold dmatch. rewrite (Hde m), Z.eqb_refl by lia. simpl de_name. rewrite namecmp_dirname. simpl.
    destruct (Z.eqb_spec inum 0); [lia | done]. }
  eapply wp_mono.
  { eapply (dirlookup_some _ lk s' i (set_i_d di' ip) _ name m Hd'); [lia | exact Hmm | |].
    - intros j Hj. cbn [i_d set_i_d]. unfold dmatch. rewrite Hde by lia. destruct (Z.eqb_spec j m); [lia |]. apply Hno. lia.
    - destruct (fdid_frame _ _ _ _ _ Hs1) as (_ & Ei & _).
      destruct (wp_step _ _ _ _ _ _ _ _ _ _ W) as (t' & -> & _). cbn [set_fs_inodes fs_inodes]. rewrite Ei.
      destruct (decide (e = i)) as [->|Hne].
      + exists i, (set_i_d di' ip). rewrite (ft_ip _ _ _ _ _ (ds_file _ _ _ _ _ _ Hd)) in He. simplify_eq.
        split; [|done]. apply list_lookup_insert_eq. eapply lookup_lt_Some, Hd.
      + exists e, ep. by rewrite list_lookup_insert_ne. }
  cbn [i_d set_i_d]. rewrite Hde, Z.eqb_refl by lia.
  intros r s2 (j & jp & s3 & -> & _ & G & ->). exists j, jp. split_and!; [done | | by eapply got_in_use].
  simpl. apply list_lookup_insert_eq. destruct G as (jp0 & Hj & _). by eapply lookup_lt_Some.
Qed.

End FsDir.

(** ** Paths *)

(** The elements of a path: what is between the slashes, without the empty ones *)
Fixpoint split_path (p : list Z) : list (list Z) :=
  match p with
  | [] => [[]]
  | c :: p =>
    if c =? slash then [] :: split_path p
    else match split_path p with e :: es => (c :: e) :: es | [] => [[c]] end
  end.

Definition elems (p : list Z) : list (list Z) := filter (λ e, e ≠ []) (split_path p).

Lemma split_path_cons p : ∃ e es, split_path p = e :: es.
Proof. destruct p as [|c p]; simpl; [eauto |]. destruct (c =? slash); [eauto |]. destruct (split_path p); eauto. Qed.

Lemma elems_skip p : elems (skip_slashes p) = elems p ∧ head (skip_slashes p) ≠ Some slash ∧ (length (skip_slashes p) ≤ length p)%nat.
Proof.
  induction p as [|c p (IH1 & IH2 & IH3)]; [done |]. cbn [skip_slashes]. destruct (Z.eqb_spec c slash) as [->|Hne].
  - split_and!; [|done | simpl; lia]. rewrite IH1. unfold elems. cbn [split_path]. rewrite Z.eqb_refl. by rewrite filter_cons_False by auto.
  - split_and!; [done | simpl; congruence | done].
Qed.

Lemma split_span p : split_path p = (span_elem p).1 :: match (span_elem p).2 with [] => [] | _ :: q => split_path q end.
Proof.
  induction p as [|c p IH]; [done |]. cbn [split_path span_elem]. destruct (c =? slash) eqn:E; [done |].
  rewrite IH. done.
Qed.

Lemma span_length p : length p = (length (span_elem p).1 + length (span_elem p).2)%nat.
Proof. induction p as [|c p IH]; [done |]. cbn [span_elem]. destruct (c =? slash); [done |]. simpl. lia. Qed.

Lemma span_rest p c q : (span_elem p).2 = c :: q → c = slash.
Proof. induction p as [|d p IH]; [done |]. cbn [span_elem]. destruct (Z.eqb_spec d slash); [by intros [= <- _] | done]. Qed.

Lemma elems_rest p : elems (span_elem p).2 = filter (λ e, e ≠ []) (match (span_elem p).2 with [] => [] | _ :: q => split_path q end).
Proof.
  destruct (span_elem p).2 as [|c q] eqn:E; [done |]. apply span_rest in E as ->.
  unfold elems. cbn [split_path]. rewrite Z.eqb_refl. by rewrite filter_cons_False by auto.
Qed.

(** [skipelem] takes the first element off the path, or finds that there is none. *)
Lemma skipelem_spec path :
  match skipelem path, elems path with
  | None, [] => True
  | Some (rest, name), e :: es =>
    name = take DIRSIZ e ∧ elems rest = es ∧ head rest ≠ Some slash ∧ (length rest < length path)%nat
  | _, _ => False
  end.
Proof.
  unfold skipelem. destruct (elems_skip path) as (E & Hh & Hl). rewrite <- E.
  destruct (skip_slashes path) as [|c p] eqn:Ep; [done |]. simpl in Hh.
  unfold elems at 1. rewrite split_span. cbn [span_elem]. destruct (Z.eqb_spec c slash); [congruence |]. cbn [fst snd].
  rewrite filter_cons_True by done. rewrite <- elems_rest. destruct (elems_skip (span_elem p).2) as (E2 & Hh2 & Hl2).
  split_and!; [done | done | done |]. pose proof (span_length p). simpl in Hl. lia.
Qed.
