(* ===== verification/NameSpec.v ===== *)
(** * Walking paths ([fs.c])

    [namex] walks a path through the directories of the disk.  [walk] is the
    walk on the blocks alone.  [icache] is what holds of the inode cache: an
    inode is there once, no lock is held but the one named, and an inode read
    from the disk is as on the disk.  [refs] counts the references to an
    inode, [spare] the unused entries of the cache. *)

From S2P Require Import Prelude Mmu Bytes Disk Bio FsFormat Log LogSpec LogOps FsTx Fs FsStep FsAlloc FsFile FsGrow FsWrite FsDir.

Abbreviation blocks := (Z → option (list Z)).

(** ** The tree on the disk *)

Definition dino (f : blocks) (sb : superblock) (i : Z) : dinode := get_dinode (default [] (f (IBLOCK i sb))) (ioff i).

(** The inode that directory [i] has under a name. *)
Definition lookup_name (f : blocks) (sb : superblock) (i : Z) (name : list Z) : option Z :=
  let di := dino f sb i in
  (λ x, de_inum (dentry f di x.2)) <$> list_find (λ k, dmatch f di name k = true) (seqZ 0 (di_size di / 16)).

(** The inode at the end of a path, with the last name; or the directory
    before it. *)
Fixpoint walk (f : blocks) (sb : superblock) (parent : bool) (i : Z) (name : list Z) (es : list (list Z)) : option (Z * list Z) :=
  match es with
  | [] => if parent then None else Some (i, name)
  | e :: es =>
    let e := take DIRSIZ e in
    if negb (di_type (dino f sb i) =? T_DIR) then None else
    if parent && bool_decide (es = []) then Some (i, e) else
    match lookup_name f sb i e with
    | None => None
    | Some i' => walk f sb parent i' e es
    end
  end.

(** An inode in use; a directory has whole entries in blocks of its own. *)
Record good_inode (f : blocks) (l : log) (sb : superblock) (i : Z) : Prop := GoodInode {
  gi_block : is_Some (f (IBLOCK i sb));
  gi_type : di_type (dino f sb i) ≠ 0;
  gi_nlink : di_nlink (dino f sb i) ≠ 0;
  gi_dir : di_type (dino f sb i) = T_DIR →
    file_ok f [] l sb (dino f sb i) ∧ no_holes f (dino f sb i) ∧ 0 ≤ di_size (dino f sb i) ∧ di_size (dino f sb i) mod 16 = 0;
}.

(** The inodes [P] are in use, and the entries of their directories lead to
    inodes of [P]. *)
Record fs_tree (f : blocks) (l : log) (sb : superblock) (P : Z → Prop) : Prop := FsTree {
  tr_good i : P i → good_inode f l sb i;
  tr_closed i k : P i → di_type (dino f sb i) = T_DIR → 0 ≤ k < di_size (dino f sb i) / 16 →
    de_inum (dentry f (dino f sb i) k) ≠ 0 → P (de_inum (dentry f (dino f sb i) k));
}.

Lemma fs_tree_place f l l' sb P : same_place l l' → fs_tree f l sb P → fs_tree f l' sb P.
Proof.
  intros Hp [T1 T2]. constructor; [|done]. intros i Hi. destruct (T1 i Hi) as [G1 G2 G3 G4]. constructor; try done.
  intros Ht. destruct (G4 Ht) as (F & R). split; [by eapply file_ok_place | done].
Qed.

Lemma lookup_name_in f l sb P i name i' :
  fs_tree f l sb P → P i → di_type (dino f sb i) = T_DIR → lookup_name f sb i name = Some i' → P i'.
Proof.
  intros [_ T2] Hi Ht. unfold lookup_name. destruct (list_find _ _) as [[j k]|] eqn:E; [|done]. intros [= <-].
  apply list_find_Some in E as ([-> Hk]%lookup_seqZ & Hm & _). simpl. apply T2; [done | done | lia |].
  unfold dmatch in Hm. apply andb_true_iff in Hm as [Hm _]. by apply negb_true_iff, Z.eqb_neq in Hm.
Qed.

(** ** The cache *)

Definition lsum (g : inode → Z) (l : list inode) : Z := foldr (λ ip n, g ip + n) 0 l.

Lemma lsum_insert g l j jp jp' : l !! j = Some jp → lsum g (<[j := jp']> l) = lsum g l + (g jp' - g jp).
Proof. revert j. induction l as [|x l IH]; intros [|j] E; simpl in *; simplify_eq/=; [lia |]. rewrite IH by done. lia. Qed.

Definition ref_to (k : Z) (ip : inode) : Z := if (i_dev ip =? 1) && (i_inum ip =? k) then i_ref ip else 0.
Definition unused (ip : inode) : Z := if i_ref ip =? 0 then 1 else 0.

Definition refs (l : list inode) (k : Z) : Z := lsum (ref_to k) l.
Definition spare (l : list inode) : Z := lsum unused l.

Lemma spare_exists l : 0 < spare l → ∃ e ep, l !! e = Some ep ∧ i_ref ep = 0.
Proof.
  unfold spare. induction l as [|x l IH]; simpl; [lia |]. unfold unused at 1. destruct (Z.eqb_spec (i_ref x) 0) as [E|E].
  - intros _. by exists 0%nat, x.
  - intros Hl. destruct IH as (e & ep & He & Hr); [lia |]. by exists (S e), ep.
Qed.

Record entry_ok (f : blocks) (sb : superblock) (ip : inode) : Prop := EntryOk {
  en_ref : 0 ≤ i_ref ip;
  en_dev : 0 < i_ref ip → i_dev ip = 1;
  en_disk : 0 < i_ref ip → i_valid ip = true → i_d ip = dino f sb (i_inum ip);
}.

Record icache (f : blocks) (sb : superblock) (pid : Z) (lk : option nat) (l : list inode) : Prop := Icache {
  ic_uniq : icache_ok l;
  ic_entry j jp : l !! j = Some jp → entry_ok f sb jp;
  ic_lock j jp : l !! j = Some jp → i_lock jp = if bool_decide (lk = Some j) then Sleeplock true pid else initsleeplock;
}.

Lemma ref_to_other k ip : i_inum ip ≠ k → ref_to k ip = 0.
Proof. intros Hn. unfold ref_to. apply Z.eqb_neq in Hn. by rewrite Hn, andb_false_r. Qed.

Lemma ref_to_self ip : i_dev ip = 1 → ref_to (i_inum ip) ip = i_ref ip.
Proof. intros Hd. unfold ref_to. by rewrite Hd, !Z.eqb_refl. Qed.

Lemma icache_insert f sb pid lk lk' l j jp jp' :
  icache f sb pid lk l → l !! j = Some jp → entry_ok f sb jp' →
  (0 < i_ref jp' → in_use (i_dev jp') (i_inum jp') jp ∨ ∀ k kp, l !! k = Some kp → ¬ in_use (i_dev jp') (i_inum jp') kp) →
  i_lock jp' = (if bool_decide (lk' = Some j) then Sleeplock true pid else initsleeplock) →
  (∀ k, k ≠ j → bool_decide (lk = Some k) = bool_decide (lk' = Some k)) →
  icache f sb pid lk' (<[j := jp']> l).
Proof.
  intros [C1 C2 C3] Hj He Hu Hl Hk. constructor.
  - intros a b ip ip' dev inum Ha Hb Hia Hib. pose proof (lookup_lt_Some _ _ _ Hj) as Hlt.
    destruct (decide (a = j)) as [->|Hna], (decide (b = j)) as [->|Hnb]; [done | | |].
    + rewrite list_lookup_insert_eq in Ha by done. rewrite list_lookup_insert_ne in Hb by done. injection Ha as <-.
      destruct Hia as (Hr & <- & <-). destruct (Hu Hr) as [Hx|Hx]; [|by destruct (Hx b ip')].
      by apply (C1 j b jp ip' (i_dev jp') (i_inum jp')).
    + rewrite list_lookup_insert_eq in Hb by done. rewrite list_lookup_insert_ne in Ha by done. injection Hb as <-.
      destruct Hib as (Hr & <- & <-). destruct (Hu Hr) as [Hx|Hx]; [|by destruct (Hx a ip)].
      by apply (C1 a j ip jp (i_dev jp') (i_inum jp')).
    + rewrite list_lookup_insert_ne in Ha, Hb by done. by apply (C1 a b ip ip' dev inum).
  - intros a ip Ha. apply list_lookup_insert_Some in Ha as [(_ & <- & _)|(_ & Ha)]; [done | by eapply C2].
  - intros a ip Ha. apply list_lookup_insert_Some in Ha as [(<- & <- & _)|(Hn & Ha)]; [done |].
    by rewrite (C3 a ip Ha), Hk.
Qed.

(** The inode without its lock and one reference. *)
Definition put_ip (ip : inode) : inode := Inode (i_dev ip) (i_inum ip) (i_ref ip - 1) initsleeplock (i_valid ip) (i_d ip).

(** A reference was taken. *)
Lemma got_icache f sb pid lk l inum j jp' :
  icache f sb pid lk l → got l 1 inum j jp' →
  icache f sb pid lk (<[j := jp']> l) ∧ in_use 1 inum jp' ∧ (j < length l)%nat ∧
  (∀ k, refs (<[j := jp']> l) k = refs l k + if k =? inum then 1 else 0) ∧
  spare (<[j := jp']> l) = spare l - unused (put_ip jp') ∧
  (∀ i, i ≠ j → <[j := jp']> l !! i = l !! i) ∧
  (i_ref jp' ≠ 1 → ∃ jp, l !! j = Some jp ∧ jp' = set_i_ref (i_ref jp + 1) jp ∧ in_use 1 inum jp).
Proof.
  intros C G. pose proof (got_in_use _ _ _ _ _ G) as Hu. destruct G as (jp & Hj & G).
  pose proof (ic_entry _ _ _ _ _ C j jp Hj) as [E1 E2 E3]. pose proof (ic_lock _ _ _ _ _ C j jp Hj) as El.
  assert (ref_to inum jp' = ref_to inum jp + 1 ∧ (∀ k, k ≠ inum → ref_to k jp' = ref_to k jp) ∧
    unused jp' - unused jp = - unused (put_ip jp')) as (R1 & R2 & R3).
  { destruct G as [[(Hr & Hd & Hi) ->]|(Hn & Hr & ->)]; unfold ref_to, unused; simpl.
    - rewrite Hd, Hi, !Z.eqb_refl. simpl. split_and!; [done | |].
      + intros k Hk. destruct (Z.eqb_spec inum k); congruence.
      + destruct (Z.eqb_spec (i_ref jp + 1) 0), (Z.eqb_spec (i_ref jp) 0), (Z.eqb_spec (i_ref jp + 1 - 1) 0); lia.
    - rewrite Hr, !Z.eqb_refl. simpl. split_and!; [by destruct (_ && _) | |done].
      intros k Hk. destruct (Z.eqb_spec inum k); [congruence |]. by destruct (_ && _). }
  split_and!; try done.
  - apply (icache_insert f sb pid lk lk l j jp jp' C Hj); try done.
    + destruct G as [[(Hr & Hd & Hi) ->]|(Hn & Hr & ->)]; constructor; simpl; try done; try lia.
      intros _. by apply E3.
    + intros _. destruct Hu as (_ & -> & ->). destruct G as [[Hx _]|(Hn & _)]; [by left | by right].
    + rewrite <- El. by destruct G as [[_ ->]|(_ & _ & ->)].
  - by eapply lookup_lt_Some.
  - intros k. unfold refs. rewrite (lsum_insert _ _ _ jp) by done.
    destruct (Z.eqb_spec k inum) as [->|Hk]; [lia |]. rewrite R2 by done. lia.
  - unfold spare. rewrite (lsum_insert _ _ _ jp) by done. lia.
  - intros i Hij. by apply list_lookup_insert_ne.
  - intros Hr. destruct G as [[Hx ->]|(Hn & Hr0 & ->)]; [by exists jp | done].
Qed.

(** The lock of [i] was released and a reference given back. *)
Lemma put_icache f sb pid lk l i ip :
  icache f sb pid lk l → l !! i = Some ip → 0 < i_ref ip → (∀ k, k ≠ i → lk ≠ Some k) →
  icache f sb pid None (<[i := put_ip ip]> l) ∧
  (∀ k, refs (<[i := put_ip ip]> l) k = refs l k - if k =? i_inum ip then 1 else 0) ∧
  spare (<[i := put_ip ip]> l) = spare l + unused (put_ip ip).
Proof.
  intros C Hi Hr Hlk. pose proof (ic_entry _ _ _ _ _ C i ip Hi) as [E1 E2 E3]. split_and!.
  - apply (icache_insert f sb pid lk None l i ip); try done.
    + constructor; simpl; [lia | by auto |]. intros _. by apply E3.
    + intros _. left. split_and!; done.
    + intros k Hk. rewrite !bool_decide_eq_false_2; [done | done | by apply Hlk].
  - intros k. unfold refs. rewrite (lsum_insert _ _ _ ip) by done. unfold ref_to. simpl. rewrite E2 by done. simpl.
    destruct (Z.eqb_spec (i_inum ip) k), (Z.eqb_spec k (i_inum ip)); simpl; lia.
  - unfold spare. rewrite (lsum_insert _ _ _ ip) by done. assert (unused ip = 0) as ->; [|lia].
    unfold unused. by destruct (Z.eqb_spec (i_ref ip) 0); [lia |].
Qed.

(** ** The steps of [namex] *)

Section Name.
Context {D : Type} `{DiskLaws D} (f : blocks) (s0 : fsys D) (P : Z → Prop).
Context (Ht : tx f [] (fs_l s0)) (Hfs : fs_ok f [] (ls_log (fs_l s0)) (fs_sb s0)).
Context (Htree : fs_tree f (ls_log (fs_l s0)) (fs_sb s0) P).

Abbreviation sb := (fs_sb s0).
Abbreviation pid := (cur_pid s0).

(** Blocks were only read; the cache is [l]. *)
Definition nst (l : list inode) (s : fsys D) : Prop :=
  ∃ t, s = set_fs_inodes l (set_fs_l t s0) ∧ did f [] (fs_l s0) [] t.

Lemma nst_refl : nst (fs_inodes s0) s0.
Proof using Ht. exists (fs_l s0). split; [clear; by destruct s0 | by apply did_refl]. Qed.

Lemma nst_did l s s' : nst l s → fdid f [] s [] s' → nst l s'.
Proof using. clear Ht Hfs Htree. intros (t & -> & A) (t' & -> & B). exists t'. split; [done |]. apply (did_trans _ _ _ [] _ [] _ A B). Qed.

Lemma nst_inodes l s l' : nst l s → nst l' (set_fs_inodes l' s).
Proof using. clear Ht Hfs Htree. intros (t & -> & A). by exists t. Qed.

Lemma nst_facts l s :
  nst l s → fs_inodes s = l ∧ fs_sb s = sb ∧ cur_pid s = pid ∧ tx f [] (fs_l s) ∧ same_place (ls_log (fs_l s0)) (ls_log (fs_l s)).
Proof using.
  clear Ht Hfs Htree. intros (t & -> & A). split_and!; [done | done | | apply A | apply A].
  unfold cur_pid. simpl. apply (d_disk _ _ _ _ _ A).
Qed.

Definition locked_ip (ip : inode) : inode := Inode 1 (i_inum ip) (i_ref ip) (Sleeplock true pid) true (dino f sb (i_inum ip)).

Lemma ilock_name l s i ip :
  nst l s → icache f sb pid None l → l !! i = Some ip → 0 < i_ref ip → P (i_inum ip) →
  wp (ilock i) s (λ _ s', nst (<[i := locked_ip ip]> l) s').
Proof using All.
  intros Hn C Hi Hr HP. destruct (nst_facts l s Hn) as (Ei & Esb & Ep & Ht' & _).
  pose proof (ic_entry _ _ _ _ _ C i ip Hi) as [E1 E2 E3]. pose proof (ic_lock _ _ _ _ _ C i ip Hi) as El.
  rewrite bool_decide_eq_false_2 in El by done. pose proof (tr_good _ _ _ _ Htree _ HP) as [[x Hx] G2 G3 _].
  destruct (i_valid ip) eqn:Ev.
  - unfold ilock. eapply wp_i_get; [by rewrite Ei |]. destruct (Z.ltb_spec (i_ref ip) 1); [lia |].
    eapply wp_i_acquire; [by rewrite Ei | by rewrite El |]. rewrite Ev, Ei, Ep. apply wp_ret.
    assert (set_i_lock (Sleeplock true pid) ip = locked_ip ip) as ->; [|by eapply nst_inodes].
    unfold locked_ip, set_i_lock. rewrite <- E3 by done. rewrite E2 by done. by rewrite Ev.
  - eapply wp_mono; [apply (ilock_spec f [] s i ip x); rewrite ?Ei, ?Esb, ?El; try done; [simpl; lia | by apply E2 | lia | apply not_elem_of_nil |] |].
    + unfold dino in G2. by rewrite Hx in G2.
    + intros [] s' (s1 & Hd & ->). rewrite Ei, Ep. unfold locked_ip, dino. rewrite Hx. simpl. apply nst_inodes with (l := l).
      by eapply nst_did.
Qed.

Lemma ilock_icache l i ip :
  icache f sb pid None l → l !! i = Some ip → 0 < i_ref ip → icache f sb pid (Some i) (<[i := locked_ip ip]> l).
Proof using.
  clear Ht Hfs Htree. intros C Hi Hr. pose proof (ic_entry _ _ _ _ _ C i ip Hi) as [E1 E2 E3].
  apply (icache_insert f sb pid None (Some i) l i ip); try done.
  - intros _. left. simpl. split_and!; [done | by apply E2 | done].
  - by rewrite bool_decide_eq_true_2.
  - intros k Hk. rewrite !bool_decide_eq_false_2 by congruence. done.
Qed.

(** [iunlockput] of an inode with links. *)
Lemma iunlockput_name l s i ip :
  nst l s → l !! i = Some ip → i_lock ip = Sleeplock true pid → 0 < i_ref ip → di_nlink (i_d ip) ≠ 0 →
  wp (iunlockput i) s (λ _ s', nst (<[i := put_ip ip]> l) s').
Proof using.
  clear Ht Hfs Htree. intros Hn Hi El Hr Hl. destruct (nst_facts l s Hn) as (Ei & _ & Ep & _ & _). pose proof (lookup_lt_Some _ _ _ Hi) as Hlt.
  unfold iunlockput, iunlock. apply wp_bind, wp_bind, wp_gets. eapply wp_i_get; [by rewrite Ei |].
  rewrite El, Ep. unfold holdingsleep. simpl sl_locked. simpl sl_pid. rewrite Z.eqb_refl. simpl andb.
  destruct (Z.ltb_spec (i_ref ip) 1); [lia |]. simpl orb. cbv iota. apply wp_last. eapply wp_i_upd; [by rewrite Ei |]. apply wp_ret.
  unfold iput. eapply wp_i_acquire; [simpl; by rewrite Ei, list_lookup_insert_eq | done |].
  eapply wp_i_get; [simpl; by rewrite Ei, list_insert_insert_eq, list_lookup_insert_eq |]. simpl i_valid. simpl i_d.
  apply Z.eqb_neq in Hl. rewrite Hl, andb_false_r. simpl andb. cbv iota. apply wp_bind, wp_ret. apply wp_bind, wp_last.
  eapply wp_i_upd; [simpl; by rewrite Ei, list_insert_insert_eq, list_lookup_insert_eq |]. apply wp_ret. apply wp_last.
  eapply wp_i_upd; [simpl; by rewrite Ei, !list_insert_insert_eq, list_lookup_insert_eq |]. apply wp_ret.
  simpl. rewrite Ei, !list_insert_insert_eq. destruct Hn as (t & -> & A). by exists t.
Qed.
(** [iput] of an inode with links, as the end of a path that has no parent. *)
Lemma iput_name l s i ip :
  nst l s → l !! i = Some ip → i_lock ip = initsleeplock → (i_valid ip = true → di_nlink (i_d ip) ≠ 0) →
  wp (iput i) s (λ _ s', nst (<[i := put_ip ip]> l) s').
Proof using.
  clear Ht Hfs Htree. intros Hn Hi El Hl. destruct (nst_facts l s Hn) as (Ei & _ & Ep & _ & _). pose proof (lookup_lt_Some _ _ _ Hi) as Hlt.
  unfold iput. eapply wp_i_acquire; [by rewrite Ei | by rewrite El |].
  eapply wp_i_get; [simpl; by rewrite Ei, list_lookup_insert_eq |]. simpl i_valid. simpl i_d.
  assert (i_valid ip && (di_nlink (i_d ip) =? 0) = false) as ->.
  { destruct (i_valid ip); [|done]. by apply Z.eqb_neq, Hl. }
  simpl andb. cbv iota. apply wp_bind, wp_ret. apply wp_bind, wp_last.
  eapply wp_i_upd; [simpl; by rewrite Ei, list_lookup_insert_eq |]. apply wp_ret. apply wp_last.
  eapply wp_i_upd; [simpl; by rewrite Ei, !list_insert_insert_eq, list_lookup_insert_eq |]. apply wp_ret.
  simpl. rewrite Ei, !list_insert_insert_eq. destruct Hn as (t & -> & A). by exists t.
Qed.

(** [dirlookup] of the directory that is locked. *)
Lemma dirlookup_name l s i ip name :
  nst l s → l !! i = Some (locked_ip ip) → P (i_inum ip) → di_type (dino f sb (i_inum ip)) = T_DIR → 0 < spare l →
  wp (dirlookup i name) s (λ r s',
    match lookup_name f sb (i_inum ip) name with
    | None => r = None ∧ nst l s'
    | Some i' => ∃ j jp' off, r = Some (j, off) ∧ got l 1 i' j jp' ∧ nst (<[j := jp']> l) s'
    end).
Proof using All.
  intros Hn Hi HP Hty Hsp. destruct (nst_facts l s Hn) as (Ei & Esb & _ & Ht' & Hpl).
  destruct (gi_dir _ _ _ _ (tr_good _ _ _ _ Htree _ HP) Hty) as (F1 & F2 & F3 & F4).
  set (di := dino f sb (i_inum ip)) in *. set (n := di_size di / 16).
  assert (dir_st f [] s i (locked_ip ip) n) as Hd.
  { constructor; [constructor; rewrite ?Esb, ?Ei; try done | simpl; lia | done | change (i_d (locked_ip ip)) with di; unfold n; clear - F4; zdiv | done].
    - by eapply fs_ok_place.
    - by eapply file_ok_place. }
  assert (0 ≤ n) as Hn0 by (unfold n; zdiv). unfold lookup_name. fold di n.
  destruct (list_find _ _) as [[k m]|] eqn:E; simpl.
  - apply list_find_Some in E as ([-> Hk]%lookup_seqZ & Hmm & Hmin).
    eapply wp_mono; [apply (dirlookup_some f [] s i (locked_ip ip) n name (0 + Z.of_nat k) Hd); try done; [lia | |] |].
    + intros j Hj. destruct (dmatch f (i_d (locked_ip ip)) name j) eqn:Hdj; [|done]. exfalso.
      apply (Hmin (Z.to_nat j) j); [|lia | done]. apply lookup_seqZ. lia.
    + rewrite Ei. by apply spare_exists.
    + intros r s' (j & jp' & s1 & -> & Hs1 & G & ->). rewrite Ei in *. exists j, jp', (16 * (0 + Z.of_nat k)). split_and!; [done | done |].
      apply nst_inodes with (l := l). by eapply nst_did.
  - apply list_find_None in E. rewrite list.Forall_forall in E. eapply wp_mono; [apply (dirlookup_none f [] s i (locked_ip ip) n name Hd Hn0) |].
    + intros j Hj. apply not_true_is_false, E, elem_of_seqZ. lia.
    + intros r s' [-> Hs1]. split; [done |]. by eapply nst_did.
Qed.

(** The walk holds one reference more than [R], on inode [I] in entry [i]. *)
Record at_inode (R : Z → Z) (l : list inode) (i : nat) (I : Z) : Prop := AtInode {
  at_cache : icache f sb pid None l;
  at_ip : ∃ ip, l !! i = Some ip ∧ in_use 1 I ip ∧ 2 ≤ spare l + unused (put_ip ip);
  at_refs k : refs l k = R k + if k =? I then 1 else 0;
  at_tree : P I;
}.

Lemma unused_put_locked ip : unused (put_ip (locked_ip ip)) = unused (put_ip ip).
Proof using. done. Qed.

Lemma spare_pos l ip : 2 ≤ spare l + unused (put_ip ip) → 0 < spare l.
Proof using. clear. unfold unused. destruct (_ =? _); lia. Qed.

(** [ilock] changes no count. *)
Lemma locked_counts l i ip :
  icache f sb pid None l → l !! i = Some ip → 0 < i_ref ip →
  (∀ k, refs (<[i := locked_ip ip]> l) k = refs l k) ∧ spare (<[i := locked_ip ip]> l) = spare l.
Proof using.
  clear Ht Hfs Htree. intros C Hi Hr. pose proof (ic_entry _ _ _ _ _ C i ip Hi) as [_ E2 _]. unfold refs, spare. split.
  - intros k. rewrite (lsum_insert _ _ _ ip) by done. unfold ref_to. simpl. rewrite E2 by done. simpl. lia.
  - rewrite (lsum_insert _ _ _ ip) by done. unfold unused. simpl. lia.
Qed.

(** The lock is given back, and the reference. *)
Lemma leave_inode R l i I ip s :
  at_inode R l i I → l !! i = Some ip → nst (<[i := locked_ip ip]> l) s →
  wp (iunlockput i) s (λ _ s', ∃ l', nst l' s' ∧ icache f sb pid None l' ∧ ∀ k, refs l' k = R k).
Proof using All.
  intros [A1 (ip0 & Hip & (Hr & Hd & Hnum) & Hsp) A3 A4] Hi Hn. assert (ip0 = ip) as -> by congruence. subst I. pose proof (lookup_lt_Some _ _ _ Hi) as Hlt.
  pose proof (ilock_icache l i ip A1 Hi Hr) as C. assert (<[i:=locked_ip ip]> l !! i = Some (locked_ip ip)) as Hi1 by (by apply list_lookup_insert_eq).
  eapply wp_mono; [apply (iunlockput_name _ s i (locked_ip ip) Hn Hi1); try done; apply (tr_good _ _ _ _ Htree _ A4) |].
  intros [] s' Hn'. eexists. split; [exact Hn' |]. destruct (put_icache f sb pid (Some i) _ i (locked_ip ip) C Hi1 Hr) as (C' & Hrefs & _); [congruence |].
  split; [done |]. intros k. rewrite Hrefs, (proj1 (locked_counts l i ip A1 Hi Hr)), A3. simpl. lia.
Qed.

(** A reference taken while [i] is locked, perhaps to [i] itself. *)
Lemma got_locked l i ip j jp' I' :
  l !! i = Some (locked_ip ip) → 0 < i_ref ip → got l 1 I' j jp' →
  ∃ ip2, <[j := jp']> l !! i = Some ip2 ∧ i_lock ip2 = Sleeplock true pid ∧ i_inum ip2 = i_inum ip ∧ i_d ip2 = dino f sb (i_inum ip) ∧
    (i = j ∧ ip2 = jp' ∧ i_ref jp' = i_ref ip + 1 ∧ I' = i_inum ip ∨ i ≠ j ∧ ip2 = locked_ip ip).
Proof using.
  clear Ht Hfs Htree. intros Hi Hr (jp & Hjp & G). pose proof (lookup_lt_Some _ _ _ Hi) as Hlt. destruct (decide (i = j)) as [->|Hne].
  - rewrite Hi in Hjp. injection Hjp as <-. destruct G as [[(_ & _ & Hx) ->]|(_ & Hx & _)]; [|simpl in Hx; lia].
    eexists. rewrite list_lookup_insert_eq by done. split_and!; try done. left. done.
  - exists (locked_ip ip). rewrite list_lookup_insert_ne by done. split_and!; try done. by right.
Qed.

(** The reference moves on to an entry of the directory. *)
Lemma next_inode R l i I ip j jp' I' s :
  at_inode R l i I → l !! i = Some ip → P I' → got (<[i := locked_ip ip]> l) 1 I' j jp' →
  nst (<[j := jp']> (<[i := locked_ip ip]> l)) s →
  wp (iunlockput i) s (λ _ s', ∃ l', nst l' s' ∧ at_inode R l' j I').
Proof using All.
  intros [A1 (ip0 & Hip & (Hr & Hd & Hnum) & Hsp) A3 A4] Hi HP G Hn. assert (ip0 = ip) as -> by congruence. subst I. pose proof (lookup_lt_Some _ _ _ Hi) as Hlt.
  destruct (locked_counts l i ip A1 Hi Hr) as [Lr Ls]. set (l1 := <[i:=locked_ip ip]> l) in *.
  assert (l1 !! i = Some (locked_ip ip)) as Hi1 by (by apply list_lookup_insert_eq).
  destruct (got_icache f sb pid (Some i) l1 I' j jp' (ilock_icache l i ip A1 Hi Hr) G) as (C2 & Hu & Hj & Hrefs & Hspare & Hother & Hold).
  set (l2 := <[j:=jp']> l1) in *.
  destruct (got_locked l1 i ip j jp' I' Hi1 Hr G) as (ip2 & Hi2 & El2 & En2 & Ed2 & Hcase). fold l2 in Hi2.
  assert (0 < i_ref ip2) as Hr2 by (destruct Hcase as [(_ & -> & Hx & _)|(_ & ->)]; simpl; lia).
  eapply wp_mono; [apply (iunlockput_name l2 s i ip2 Hn Hi2 El2 Hr2); rewrite Ed2; apply (tr_good _ _ _ _ Htree _ A4) |].
  intros [] s' Hn'. eexists. split; [exact Hn' |].
  destruct (put_icache f sb pid (Some i) l2 i ip2 C2 Hi2 Hr2) as (C3 & Hrefs3 & Hsp3); [congruence |].
  constructor; [done | | |done].
  - destruct Hcase as [(<- & -> & Hx & ->)|(Hne & ->)].
    + exists (put_ip jp'). rewrite list_lookup_insert_eq by (by apply lookup_lt_Some in Hi2). split_and!; [done | |].
      * destruct Hu as (_ & Hu1 & Hu2). split_and!; simpl; [lia | done | done].
      * rewrite Hsp3, Hspare, Ls. revert Hsp. unfold unused, put_ip. simpl. rewrite Hx.
        replace (i_ref ip + 1 - 1) with (i_ref ip) by lia. destruct (i_ref ip =? 0), (i_ref ip - 1 =? 0); lia.
    + exists jp'. rewrite list_lookup_insert_ne by done. split_and!; [by apply list_lookup_insert_eq | done |].
      rewrite Hsp3, Hspare, Ls, unused_put_locked. lia.
  - intros k. rewrite Hrefs3, Hrefs, Lr, A3, En2. lia.
Qed.

(** [iunlock] of the directory before the last element. *)
Lemma iunlock_name R l i I ip s :
  at_inode R l i I → l !! i = Some ip → nst (<[i := locked_ip ip]> l) s →
  wp (iunlock i) s (λ _ s', ∃ l', nst l' s' ∧ at_inode R l' i I).
Proof using All.
  intros [A1 (ip0 & Hip & (Hr & Hd & Hnum) & Hsp) A3 A4] Hi Hn. assert (ip0 = ip) as -> by congruence. subst I.
  pose proof (lookup_lt_Some _ _ _ Hi) as Hlt. destruct (nst_facts _ s Hn) as (Ei & _ & Ep & _ & _).
  assert (<[i:=locked_ip ip]> l !! i = Some (locked_ip ip)) as Hi1 by (by apply list_lookup_insert_eq).
  unfold iunlock. apply wp_bind, wp_gets. eapply wp_i_get; [by rewrite Ei |]. rewrite Ep. unfold holdingsleep. simpl sl_locked. simpl sl_pid.
  rewrite Z.eqb_refl. simpl andb. destruct (Z.ltb_spec (i_ref (locked_ip ip)) 1); [simpl in *; lia |]. simpl orb. cbv iota.
  apply wp_last. eapply wp_i_upd; [by rewrite Ei |]. apply wp_ret. rewrite Ei, list_insert_insert_eq.
  set (ip' := set_i_lock _ _). exists (<[i := ip']> l). split; [by eapply nst_inodes |].
  constructor; [| | |done].
  - apply (icache_insert f sb pid None None l i ip ip' A1 Hi); try done.
    + constructor; [simpl; lia | done | done].
    + intros _. by left.
  - exists ip'. rewrite list_lookup_insert_eq by done. split_and!; [done | done |]. unfold spare. rewrite (lsum_insert _ _ _ ip) by done.
    assert (unused ip' = unused ip) as -> by done. change (unused (put_ip ip')) with (unused (put_ip ip)). fold (spare l). lia.
  - intros k. unfold refs. rewrite (lsum_insert _ _ _ ip) by done. fold (refs l k). rewrite A3. unfold ref_to. simpl. rewrite Hd. simpl. lia.
Qed.

(** What [namex] returns. *)
Definition walked (R : Z → Z) (res : option (Z * list Z)) (r : option (nat * list Z)) (s' : fsys D) : Prop :=
  match res with
  | None => r = None ∧ ∃ l', nst l' s' ∧ icache f sb pid None l' ∧ ∀ k, refs l' k = R k
  | Some (inum, name) => ∃ j l', r = Some (j, name) ∧ nst l' s' ∧ at_inode R l' j inum
  end.

(** An empty path has no parent. *)
Lemma no_parent R l i I s :
  nst l s → at_inode R l i I → wp (iput i;; mret None) s (walked R None).
Proof using All.
  intros Hn [A1 (ip & Hi & (Hr & Hd & <-) & _) A3 A4]. pose proof (ic_entry _ _ _ _ _ A1 i ip Hi) as [E1 E2 E3].
  apply wp_bind. eapply wp_mono.
  { apply (iput_name l s i ip Hn Hi); [apply (ic_lock _ _ _ _ _ A1 i ip Hi) |]. intros Hv. rewrite E3 by done.
    apply (tr_good _ _ _ _ Htree _ A4). }
  intros [] s' Hn'. apply wp_ret. split; [done |]. eexists. split; [exact Hn' |].
  destruct (put_icache f sb pid None l i ip A1 Hi Hr) as (C & Hrefs & _); [done |]. split; [done |].
  intros k. rewrite Hrefs, A3. lia.
Qed.

Lemma elems_nil p : head p ≠ Some slash → elems p = [] → p = [].
Proof using.
  destruct p as [|c q]; [done |]. simpl. intros Hhead. unfold elems. cbn [split_path]. destruct (Z.eqb_spec c slash); [congruence |].
  destruct (split_path_cons q) as (e' & es' & ->). by rewrite filter_cons_True.
Qed.

Lemma namex_loop_spec fuel R l i I s path parent name :
  nst l s → at_inode R l i I → (length path < fuel)%nat →
  wp (namex_loop fuel path parent name i) s (walked R (walk f sb parent I name (elems path))).
Proof using All.
  revert l i I s path name. induction fuel as [|fuel IH]; intros l i I s path name Hn A Hfuel; [lia |].
  cbn [namex_loop]. pose proof (skipelem_spec path) as Hsk. destruct (skipelem path) as [[rest nm]|], (elems path) as [|e es]; try done.
  2:{ destruct parent; [by apply (no_parent R l i I) | apply wp_ret; by exists i, l]. }
  destruct Hsk as (-> & Hes & Hhead & Hlen). cbn [walk]. pose proof A as [A1 (ip & Hi & (Hr & Hd & Hnum) & Hsp) A3 A4].
  pose proof (lookup_lt_Some _ _ _ Hi) as Hlt. rewrite <- Hnum in A4.
  apply wp_bind. eapply wp_mono; [by apply (ilock_name l s i ip) |]. intros [] s1 Hn1. rewrite Hnum in A4.
  assert (<[i:=locked_ip ip]> l !! i = Some (locked_ip ip)) as Hi1 by (by apply list_lookup_insert_eq).
  eapply wp_i_get; [rewrite (proj1 (nst_facts _ _ Hn1)); exact Hi1 |]. cbn [i_d locked_ip]. rewrite Hnum.
  destruct (Z.eqb_spec (di_type (dino f sb I)) T_DIR) as [Hty|Hty]; cbn [negb].
  2:{ apply wp_bind. eapply wp_mono; [by apply (leave_inode R l i I ip) |]. intros [] s' Hl. apply wp_ret. by split. }
  assert (bool_decide (rest = []) = bool_decide (es = [])) as ->.
  { apply bool_decide_ext. rewrite <- Hes. split; [by intros -> | by apply elems_nil]. }
  destruct (parent && bool_decide (es = [])).
  { apply wp_bind. eapply wp_mono; [by apply (iunlock_name R l i I ip) |]. intros [] s' (l' & Hn' & A'). apply wp_ret. by exists i, l'. }
  apply wp_bind. eapply wp_mono.
  { apply (dirlookup_name _ s1 i ip (take DIRSIZ e) Hn1 Hi1); rewrite ?Hnum; try done.
    rewrite (proj2 (locked_counts l i ip A1 Hi Hr)). by eapply spare_pos. }
  rewrite Hnum. destruct (lookup_name f sb I (take DIRSIZ e)) as [I'|] eqn:El.
  - intros r s2 (j & jp' & off & -> & G & Hn2). pose proof (lookup_name_in _ _ _ _ _ _ _ Htree A4 Hty El) as HP'.
    apply wp_bind. eapply wp_mono; [by apply (next_inode R l i I ip j jp' I') |]. intros [] s3 (l3 & Hn3 & A').
    rewrite <- Hes. apply (IH l3 j I'); [done | done | lia].
  - intros r s2 [-> Hn2]. apply wp_bind. eapply wp_mono; [by apply (leave_inode R l i I ip) |]. intros [] s' Hl. apply wp_ret. by split.
Qed.

(** Where the walk starts. *)
Definition start (path : list Z) : Z :=
  if bool_decide (head path = Some slash) then ROOTINO
  else default 0 (i_inum <$> (fs_cwd s0 ≫= λ c, fs_inodes s0 !! c)).

(** The directory of the process, if the path is relative. *)
Definition cwd_ok (path : list Z) : Prop :=
  head path ≠ Some slash → ∃ c cp, fs_cwd s0 = Some c ∧ fs_inodes s0 !! c = Some cp ∧ 0 < i_ref cp.

Lemma namex_spec path parent :
  icache f sb pid None (fs_inodes s0) → 2 ≤ spare (fs_inodes s0) → P (start path) → cwd_ok path →
  wp (namex path parent) s0 (walked (refs (fs_inodes s0)) (walk f sb parent (start path) [] (elems path))).
Proof using All.
  intros C Hsp HP Hcwd. pose proof nst_refl as Hn. unfold namex, start in *. case_bool_decide as Habs.
  - apply wp_bind. eapply wp_mono; [apply iget_spec, spare_exists; lia |]. intros j s1 (jp' & G & ->).
    destruct (got_icache f sb pid None _ _ _ _ C G) as (C1 & Hu & Hj & Hrefs & Hspare & _ & _).
    apply (namex_loop_spec _ _ (<[j := jp']> (fs_inodes s0))); [by eapply nst_inodes | | lia].
    constructor; try done. exists jp'. rewrite list_lookup_insert_eq by done. split_and!; [done | done |]. lia.
  - destruct (Hcwd Habs) as (c & cp & Ec & Hc & Hr). 
    assert (default 0 (i_inum <$> (fs_cwd s0 ≫= λ c, fs_inodes s0 !! c)) = i_inum cp) as Es by (rewrite Ec; simpl; by rewrite Hc).
    rewrite Es in *.
    pose proof (ic_entry _ _ _ _ _ C c cp Hc) as [E1 E2 E3]. apply wp_bind, wp_bind, wp_gets. rewrite Ec.
    unfold idup. eapply wp_i_upd; [done |]. apply wp_ret. set (cp' := set_i_ref _ cp).
    assert (got (fs_inodes s0) 1 (i_inum cp) c cp') as G by (exists cp; split; [done |]; left; repeat split; auto).
    destruct (got_icache f sb pid None _ _ _ _ C G) as (C1 & Hu & Hj & Hrefs & Hspare & _ & _).
    apply (namex_loop_spec _ _ (<[c := cp']> (fs_inodes s0))); [by eapply nst_inodes | | lia].
    constructor; try done. exists cp'. rewrite list_lookup_insert_eq by done. split_and!; [done | done |]. lia.
Qed.

End Name.
