(* ===== verification/Kernel.v ===== *)
(** * The kernel's state

    The parts of the kernel's memory that system calls work on: the machine,
    the file system, the open files and pipes, and the process table.  A
    pipe's fields are kept by the address of its page; a process's trap frame
    and context, which live on its kernel stack, are kept in its record. *)

From S2P Require Import Prelude Mmu Mem Spinlock Kalloc Vm ProcDefs Crypt Bytes Disk Bio FsFormat Log Console Fs.

(** ** Open files and pipes ([file.h], [pipe.c]) *)

Inductive ftype : Type := FD_NONE | FD_PIPE | FD_INODE.

#[global] Instance ftype_eq_dec : EqDecision ftype.
Proof. solve_decision. Defined.

Record file : Type := File {
  f_type : ftype;
  f_ref : Z;
  f_readable : bool;
  f_writable : bool;
  f_pipe : Z;
  f_ip : nat;
  f_off : Z;
}.

Definition file_zero : file := File FD_NONE 0 false false 0 0 0.
Definition set_f_ref (n : Z) (f : file) : file :=
  File (f_type f) n (f_readable f) (f_writable f) (f_pipe f) (f_ip f) (f_off f).
Definition set_f_off (n : Z) (f : file) : file :=
  File (f_type f) (f_ref f) (f_readable f) (f_writable f) (f_pipe f) (f_ip f) n.

Definition PIPESIZE : Z := 512.

Record pipe : Type := Pipe {
  pp_data : list Z;
  pp_nread : Z;
  pp_nwrite : Z;
  pp_readopen : bool;
  pp_writeopen : bool;
}.

Record kst (D : Type) : Type := Kst {
  k_mach : mach;
  k_fs : fsys D;
  k_files : list file;
  k_pipes : gmap Z pipe;
  k_procs : list proc;
  k_nextpid : Z;
  k_initproc : option nat;
  k_cur : option nat;
  k_ticks : Z;
}.
Arguments Kst {D} _ _ _ _ _ _ _ _ _.
Arguments k_mach {D} _.
Arguments k_fs {D} _.
Arguments k_files {D} _.
Arguments k_pipes {D} _.
Arguments k_procs {D} _.
Arguments k_nextpid {D} _.
Arguments k_initproc {D} _.
Arguments k_cur {D} _.
Arguments k_ticks {D} _.

Section Kernel.
Context {D : Type} `{DiskDriver D} {L : Linker}.

Definition set_k_mach (m : mach) (s : kst D) : kst D :=
  Kst m (k_fs s) (k_files s) (k_pipes s) (k_procs s) (k_nextpid s) (k_initproc s) (k_cur s) (k_ticks s).
Definition set_k_fs (f : fsys D) (s : kst D) : kst D :=
  Kst (k_mach s) f (k_files s) (k_pipes s) (k_procs s) (k_nextpid s) (k_initproc s) (k_cur s) (k_ticks s).
Definition set_k_files (l : list file) (s : kst D) : kst D :=
  Kst (k_mach s) (k_fs s) l (k_pipes s) (k_procs s) (k_nextpid s) (k_initproc s) (k_cur s) (k_ticks s).
Definition set_k_pipes (l : gmap Z pipe) (s : kst D) : kst D :=
  Kst (k_mach s) (k_fs s) (k_files s) l (k_procs s) (k_nextpid s) (k_initproc s) (k_cur s) (k_ticks s).
Definition set_k_procs (l : list proc) (s : kst D) : kst D :=
  Kst (k_mach s) (k_fs s) (k_files s) (k_pipes s) l (k_nextpid s) (k_initproc s) (k_cur s) (k_ticks s).
Definition set_k_nextpid (n : Z) (s : kst D) : kst D :=
  Kst (k_mach s) (k_fs s) (k_files s) (k_pipes s) (k_procs s) n (k_initproc s) (k_cur s) (k_ticks s).
Definition set_k_initproc (i : option nat) (s : kst D) : kst D :=
  Kst (k_mach s) (k_fs s) (k_files s) (k_pipes s) (k_procs s) (k_nextpid s) i (k_cur s) (k_ticks s).
Definition set_k_cur (i : option nat) (s : kst D) : kst D :=
  Kst (k_mach s) (k_fs s) (k_files s) (k_pipes s) (k_procs s) (k_nextpid s) (k_initproc s) i (k_ticks s).
Definition set_k_ticks (n : Z) (s : kst D) : kst D :=
  Kst (k_mach s) (k_fs s) (k_files s) (k_pipes s) (k_procs s) (k_nextpid s) (k_initproc s) (k_cur s) n.

(** The current process, [mycpu()->proc]. *)
Definition cur_proc (s : kst D) : option proc := i ← k_cur s; k_procs s !! i.

Definition kmyproc : M (kst D) proc := λ s,
  match cur_proc s with Some p => Ok (p, s) | None => Err EUndef end.

Definition p_get (i : nat) : M (kst D) proc := λ s,
  match k_procs s !! i with Some p => Ok (p, s) | None => Err EUndef end.
Definition p_upd (i : nat) (f : proc → proc) : M (kst D) unit :=
  p ← p_get i; modify (λ s, set_k_procs (<[i := f p]> (k_procs s)) s).
Definition me_upd (f : proc → proc) : M (kst D) unit := λ s,
  match k_cur s with Some i => p_upd i f s | None => Err EUndef end.

(** The machine alone; the machine with the current process; the file system,
    working for the current process. *)
Definition on_m {A} (c : M mach A) : M (kst D) A := zoom k_mach set_k_mach c.

Definition on_u {A} (c : M ustate A) : M (kst D) A := λ s,
  match k_cur s, cur_proc s with
  | Some i, Some p =>
    match c (Ustate (k_mach s) p) with
    | Ok (a, u) => Ok (a, set_k_mach (us_mach u) (set_k_procs (<[i := us_proc u]> (k_procs s)) s))
    | Err e => Err e
    end
  | _, _ => Err EUndef
  end.

Definition fs_for (p : option proc) (f : fsys D) : fsys D :=
  let b := ls_b (fs_l f) in
  Fsys (Lst (Bst (bs_disk b) (bs_bufs b) (bs_lru b) (from_option p_pid 0 p)) (ls_log (fs_l f)))
    (fs_sb f) (fs_inodes f) (fs_devsw f) (fs_cons f) (p ≫= p_cwd) (from_option p_killed false p).

Definition on_fs {A} (c : M (fsys D) A) : M (kst D) A :=
  zoom (λ s, fs_for (cur_proc s) (k_fs s)) set_k_fs c.
Definition on_log {A} (c : M (lst D) A) : M (kst D) A := on_fs (on_l c).

(** ** User memory

    An access of the kernel to a user page that is encrypted faults; the
    handler ([T_PGFLT] in [trap]) decrypts the page and the access is made
    again, or the process exits. *)

Definition faulting {A} (c : M ustate A) : M ustate A := λ s,
  match c s with
  | Err (EFault va) =>
    match mdecrypt va s with
    | Ok (r, s') => if r =? 0 then c s' else Err EExit
    | Err e => Err e
    end
  | r => r
  end.

Definition uload8 (va : Z) : M (kst D) Z := on_u (faulting (on_mach (load8 va))).
Definition ustore8 (va v : Z) : M (kst D) unit := on_u (faulting (on_mach (store8 va v))).

(** A word may lie on two pages. *)
Definition uload32 (va : Z) : M (kst D) Z := on_u (faulting (faulting (on_mach (load32 va)))).
Definition ustore32 (va v : Z) : M (kst D) unit := on_u (faulting (faulting (on_mach (store32 va v)))).

Fixpoint ustore_bytes (va : Z) (bs : list Z) : M (kst D) unit :=
  match bs with
  | [] => mret tt
  | b :: bs => ustore8 va b;; ustore_bytes (u32 (va + 1)) bs
  end.

Fixpoint uload_bytes (va : Z) (n : nat) : M (kst D) (list Z) :=
  match n with
  | O => mret []
  | S n => b ← uload8 va; bs ← uload_bytes (u32 (va + 1)) n; mret (b :: bs)
  end.

(** ** Sleeping and waking ([proc.c]) *)

(** [wakeup1] on the process table. *)
Definition wake (c : option chan) (p : proc) : proc :=
  if decide (p_state p = SLEEPING ∧ p_chan p = c) then set_state RUNNABLE p else p.
Definition wakeup1 (c : option chan) : M (kst D) unit := modify (λ s, set_k_procs (wake c <$> k_procs s) s).
Definition wakeup (c : chan) : M (kst D) unit := wakeup1 (Some c).

(** [kill] of the first process with the given pid. *)
Fixpoint kill_scan (pid : Z) (ps : list proc) : option (list proc) :=
  match ps with
  | [] => None
  | p :: ps =>
    if p_pid p =? pid then
      Some ((if decide (p_state p = SLEEPING) then set_state RUNNABLE (set_killed true p) else set_killed true p) :: ps)
    else (p ::.) <$> kill_scan pid ps
  end.

Definition kill (pid : Z) : M (kst D) Z :=
  ps ← gets k_procs;
  match kill_scan pid ps with
  | Some ps => modify (set_k_procs ps);; mret 0
  | None => mret (-1)
  end.

End Kernel.
