(* ===== verification/File.v ===== *)
(** * Open files and pipes ([file.c], [pipe.c])

    A pointer to a [struct file] is an index of [k_files]; buffers in user
    memory are given by their address. *)

From S2P Require Import Prelude Mmu Mem Spinlock Kalloc Vm ProcDefs Crypt Bytes Disk Bio FsFormat Log Console Fs Kernel.

Section File.
Context {D : Type} `{DiskDriver D} {L : Linker}.

Definition f_get (i : nat) : M (kst D) file := λ s,
  match k_files s !! i with Some f => Ok (f, s) | None => Err EUndef end.
Definition f_upd (i : nat) (g : file → file) : M (kst D) unit :=
  f ← f_get i; modify (λ s, set_k_files (<[i := g f]> (k_files s)) s).

Definition filealloc : M (kst D) (option nat) :=
  l ← gets k_files;
  match list_find (λ f, f_ref f = 0) l with
  | Some (i, _) => f_upd i (set_f_ref 1);; mret (Some i)
  | None => mret None
  end.

Definition filedup (i : nat) : M (kst D) nat :=
  f ← f_get i;
  if f_ref f <? 1 then panic "filedup" else
  f_upd i (λ f, set_f_ref (f_ref f + 1) f);; mret i.

(** ** Pipes *)

Definition pipe_get (p : Z) : M (kst D) pipe := λ s,
  match k_pipes s !! p with Some pp => Ok (pp, s) | None => Err EUndef end.
Definition pipe_set (p : Z) (pp : pipe) : M (kst D) unit := modify (λ s, set_k_pipes (<[p := pp]> (k_pipes s)) s).

(** A byte into, and out of, the buffer. *)
Definition pipe_full (pp : pipe) : bool := pp_nwrite pp =? u32 (pp_nread pp + PIPESIZE).
Definition pipe_empty (pp : pipe) : bool := pp_nread pp =? pp_nwrite pp.
Definition pipe_put (b : Z) (pp : pipe) : pipe :=
  Pipe (<[Z.to_nat (pp_nwrite pp mod PIPESIZE) := u8 b]> (pp_data pp)) (pp_nread pp) (u32 (pp_nwrite pp + 1))
    (pp_readopen pp) (pp_writeopen pp).
Definition pipe_take (pp : pipe) : Z * pipe :=
  (default 0 (pp_data pp !! Z.to_nat (pp_nread pp mod PIPESIZE)),
   Pipe (pp_data pp) (u32 (pp_nread pp + 1)) (pp_nwrite pp) (pp_readopen pp) (pp_writeopen pp)).

Definition pipeclose (p : Z) (writable : bool) : M (kst D) unit :=
  pp ← pipe_get p;
  let pp := Pipe (pp_data pp) (pp_nread pp) (pp_nwrite pp)
              (if writable then pp_readopen pp else false) (if writable then false else pp_writeopen pp) in
  pipe_set p pp;;
  wakeup (if writable then ChRead p else ChWrite p);;
  if negb (pp_readopen pp) && negb (pp_writeopen pp) then
    modify (λ s, set_k_pipes (delete p (k_pipes s)) s);; on_m (kfree p)
  else mret tt.

Fixpoint pipewrite_loop (p addr : Z) (i : Z) (n : nat) : M (kst D) bool :=
  match n with
  | O => mret true
  | S n =>
    pp ← pipe_get p;
    if pipe_full pp then
      me ← kmyproc;
      if negb (pp_readopen pp) || p_killed me then mret false else raise EBlock
    else
      b ← uload8 (u32 (addr + i));
      pipe_set p (pipe_put b pp);;
      pipewrite_loop p addr (i + 1) n
  end.

Definition pipewrite (p addr n : Z) : M (kst D) Z :=
  ok ← pipewrite_loop p addr 0 (Z.to_nat n);
  if ok : bool then wakeup (ChRead p);; mret n else mret (-1).

Fixpoint piperead_loop (p addr : Z) (i : Z) (n : nat) : M (kst D) Z :=
  match n with
  | O => mret i
  | S n =>
    pp ← pipe_get p;
    if pipe_empty pp then mret i else
    let '(b, pp) := pipe_take pp in
    pipe_set p pp;;
    ustore8 (u32 (addr + i)) b;;
    piperead_loop p addr (i + 1) n
  end.

Definition piperead (p addr n : Z) : M (kst D) Z :=
  pp ← pipe_get p;
  if pipe_empty pp && pp_writeopen pp then
    me ← kmyproc;
    if p_killed me then mret (-1) else raise EBlock
  else
    i ← piperead_loop p addr 0 (Z.to_nat n);
    wakeup (ChWrite p);;
    mret i.

(** ** Files *)

Definition fileclose (i : nat) : M (kst D) unit :=
  f ← f_get i;
  if f_ref f <? 1 then panic "fileclose" else
  if 0 <? f_ref f - 1 then f_upd i (set_f_ref (f_ref f - 1)) else
  f_upd i (λ f, File FD_NONE 0 (f_readable f) (f_writable f) (f_pipe f) (f_ip f) (f_off f));;
  match f_type f with
  | FD_PIPE => pipeclose (f_pipe f) (f_writable f)
  | FD_INODE => on_log begin_op;; on_fs (iput (f_ip f));; on_log end_op
  | FD_NONE => mret tt
  end.

(** [None] when the files or the memory run out; what was allocated is given
    back. *)
Definition pipealloc : M (kst D) (option (nat * nat)) :=
  f0 ← filealloc;
  match f0 with
  | None => mret None
  | Some f0 =>
    f1 ← filealloc;
    match f1 with
    | None => fileclose f0;; mret None
    | Some f1 =>
      p ← on_m kalloc;
      if p =? 0 then fileclose f0;; fileclose f1;; mret None else
      data ← on_m (gets (λ m, (λ i, rd (m_mem m) (V2P p + Z.of_nat i)) <$> seq 0 (Z.to_nat PIPESIZE)));
      pipe_set p (Pipe data 0 0 true true);;
      f_upd f0 (λ f, File FD_PIPE (f_ref f) true false p (f_ip f) (f_off f));;
      f_upd f1 (λ f, File FD_PIPE (f_ref f) false true p (f_ip f) (f_off f));;
      mret (Some (f0, f1))
    end
  end.

Definition filestat (i : nat) : M (kst D) (option stat) :=
  f ← f_get i;
  match f_type f with
  | FD_INODE =>
    on_fs (ilock (f_ip f));;
    st ← on_fs (stati (f_ip f));
    on_fs (iunlock (f_ip f));;
    mret (Some st)
  | _ => mret None
  end.

Definition fileread (i : nat) (addr n : Z) : M (kst D) Z :=
  f ← f_get i;
  if negb (f_readable f) then mret (-1) else
  match f_type f with
  | FD_PIPE => piperead (f_pipe f) addr n
  | FD_INODE =>
    on_fs (ilock (f_ip f));;
    r ← on_fs (readi (f_ip f) (f_off f) (u32 n));
    ustore_bytes addr r.2;;
    (if 0 <? r.1 then f_upd i (λ f, set_f_off (u32 (f_off f + r.1)) f) else mret tt);;
    on_fs (iunlock (f_ip f));;
    mret r.1
  | FD_NONE => panic "fileread"
  end.

(** Blocks per transaction: half of what is left of [MAXOPBLOCKS] after the
    inode, the indirect block and slop. *)
Definition write_max : Z := (MAXOPBLOCKS - 1 - 1 - 2) / 2 * 512.

Fixpoint filewrite_loop (fuel : nat) (fi : nat) (addr i n : Z) : M (kst D) Z :=
  match fuel with
  | O => raise EFuel
  | S fuel =>
    if n <=? i then mret i else
    let n1 := if write_max <? n - i then write_max else n - i in
    f ← f_get fi;
    on_log begin_op;;
    on_fs (ilock (f_ip f));;
    src ← uload_bytes (u32 (addr + i)) (Z.to_nat n1);
    r ← on_fs (writei (f_ip f) src (f_off f));
    (if 0 <? r then f_upd fi (λ f, set_f_off (u32 (f_off f + r)) f) else mret tt);;
    on_fs (iunlock (f_ip f));;
    on_log end_op;;
    if r <? 0 then mret i else
    if negb (r =? n1) then panic "short filewrite" else
    filewrite_loop fuel fi addr (i + r) n
  end.

Definition filewrite (fi : nat) (addr n : Z) : M (kst D) Z :=
  f ← f_get fi;
  if negb (f_writable f) then mret (-1) else
  match f_type f with
  | FD_PIPE => pipewrite (f_pipe f) addr n
  | FD_INODE =>
    i ← filewrite_loop (S (Z.to_nat n)) fi addr 0 n;
    mret (if i =? n then n else -1)
  | FD_NONE => panic "filewrite"
  end.

End File.
