(* ===== verification/Proc.v ===== *)
(** * Processes ([proc.c])

    The current process is [k_cur].  A routine that gives up the CPU ends at
    the call of [swtch]: [exit] leaves its process a zombie, [yield] leaves it
    runnable, [sleep_on] leaves it asleep; what happens next is a step of
    [schedule]. *)

From S2P Require Import Prelude Mmu Mem Spinlock Kalloc Vm ProcDefs Crypt Bytes Disk Bio FsFormat Log Console Fs Kernel File.

Definition SEG_UCODE : Z := 3.
Definition SEG_UDATA : Z := 4.

Section Proc.
Context {D : Type} `{DiskDriver D} {L : Linker}.

(** Entry points of [forkret] and [trapret] and the image of [initcode]: the
    linker's. *)
Context (forkret_addr initcode_start initcode_size : Z).

(** Bytes of a trap frame and of a context. *)
Definition tf_bytes : Z := 76.
Definition context_bytes : Z := 20.

Definition allocproc : M (kst D) (option nat) :=
  ps ← gets k_procs;
  match list_find (λ p, p_state p = UNUSED) ps with
  | None => mret None
  | Some (i, _) =>
    pid ← gets k_nextpid;
    p_upd i (λ p, set_pid pid (set_state EMBRYO p));;
    modify (set_k_nextpid (pid + 1));;
    stk ← on_m kalloc;
    p_upd i (set_kstack stk);;
    if stk =? 0 then p_upd i (set_state UNUSED);; mret None else
    p_upd i (set_context (Context 0 0 0 0 forkret_addr));;
    mret (Some i)
  end.

Definition init_name : list Z := [105; 110; 105; 116; 99; 111; 100; 101].

(** The characters before the first NUL. *)
Fixpoint cstr (s : list Z) : list Z :=
  match s with
  | c :: s => if c =? 0 then [] else c :: cstr s
  | [] => []
  end.

(** [safestrcpy] into [p->name]: at most 15 characters; a NUL that is copied
    is followed by the final one. *)
Definition proc_name (old s : list Z) : list Z :=
  let s := take 15 (cstr s) in
  let s := s ++ (if (length s <? 15)%nat then [0; 0] else [0]) in
  s ++ drop (length s) old.

Definition userinit : M (kst D) unit :=
  i ← allocproc;
  match i with
  | None => raise EUndef
  | Some i =>
    modify (set_k_initproc (Some i));;
    pgdir ← on_m setupkvm;
    p_upd i (set_pgdir pgdir);;
    if pgdir =? 0 then panic "userinit: out of memory?" else
    on_m (inituvm pgdir initcode_start initcode_size);;
    p_upd i (set_sz PGSIZE);;
    let cs := Z.lor (Z.shiftl SEG_UCODE 3) DPL_USER in
    let ds := Z.lor (Z.shiftl SEG_UDATA 3) DPL_USER in
    p_upd i (set_tf (Trapframe 0 0 0 0 0 0 0 0 0 0 ds ds 0 0 0 cs FL_IF PGSIZE ds));;
    p_upd i (λ p, set_name (proc_name (p_name p) init_name) p);;
    cwd ← on_fs (namei [slash]);
    p_upd i (set_cwd cwd);;
    p_upd i (set_state RUNNABLE)
  end.

(** [for(; a < curproc->sz + n; a += PGSIZE) mencrypt(a, 1)]. *)
Fixpoint grow_encrypt (fuel : nat) (a last : Z) : M (kst D) unit :=
  match fuel with
  | O => raise EFuel
  | S fuel =>
    if a <? last then _ ← on_u (mencrypt a 1); grow_encrypt fuel (u32 (a + PGSIZE)) last else mret tt
  end.

Definition growproc (n : Z) : M (kst D) Z :=
  me ← kmyproc;
  let sz := p_sz me in
  r ← (if 0 <? n then
         sz' ← on_m (allocuvm (p_pgdir me) sz (u32 (sz + n)));
         if sz' =? 0 then mret None else
         let n := if nz (n mod PGSIZE) then PGROUNDUP n else n in
         grow_encrypt (S (Z.to_nat (n / PGSIZE))) sz (u32 (sz + n));;
         mret (Some sz')
       else if n <? 0 then
         sz' ← on_m (deallocuvm (p_pgdir me) sz (u32 (sz + n)));
         mret (if sz' =? 0 then None else Some sz')
       else mret (Some sz));
  match r with
  | None => mret (-1)
  | Some sz =>
    me_upd (set_sz sz);;
    me ← kmyproc;
    on_m (switchuvm (Some (p_kstack me, p_pgdir me)));;
    mret 0
  end.

(** The clock queue a child gets: its slots emptied, then the parent's pages
    copied slot by slot from the head on. *)
Fixpoint copy_clock (n : nat) (i : Z) (src dst : list Z) : list Z :=
  match n with
  | O => dst
  | S n =>
    let k := Z.to_nat (Z.rem i CLOCKSIZE) in
    let v := default 0 (src !! k) in
    copy_clock n (i + 1) src (if v =? 0 then dst else <[k := v]> dst)
  end.

Fixpoint dup_files (fds : list (option nat)) : M (kst D) (list (option nat)) :=
  match fds with
  | [] => mret []
  | None :: fds => l ← dup_files fds; mret (None :: l)
  | Some f :: fds => f ← filedup f; l ← dup_files fds; mret (Some f :: l)
  end.

(** A child slot keeps what was in the descriptors the parent does not use. *)
Definition merge_fds (old new : list (option nat)) : list (option nat) :=
  zip_with (λ o n, match n with Some f => Some f | None => o end) old new.

Definition fork : M (kst D) Z :=
  np ← allocproc;
  match np with
  | None => mret (-1)
  | Some np =>
    me ← kmyproc;
    pgdir ← on_m (copyuvm (p_pgdir me) (p_sz me));
    p_upd np (set_pgdir pgdir);;
    if pgdir =? 0 then
      c ← p_get np;
      on_m (kfree (p_kstack c));;
      p_upd np (λ p, set_state UNUSED (set_kstack 0 p));;
      mret (-1)
    else
    cur ← gets k_cur;
    p_upd np (λ p, set_parent cur (set_sz (p_sz me) p));;
    p_upd np (set_tf (p_tf me));;
    p_upd np (λ p, set_head (p_head me)
      (set_clock (copy_clock (Z.to_nat CLOCKSIZE) (p_head me) (p_clock me) (replicate (Z.to_nat CLOCKSIZE) 0)) p));;
    p_upd np (λ p, set_tf (tf_set_eax 0 (p_tf p)) p);;
    fds ← dup_files (p_ofile me);
    p_upd np (λ p, set_ofile (merge_fds (p_ofile p) fds) p);;
    match p_cwd me with
    | None => raise EUndef
    | Some cwd =>
      cwd ← on_fs (idup cwd);
      p_upd np (set_cwd (Some cwd));;
      p_upd np (λ p, set_name (proc_name (p_name p) (p_name me)) p);;
      c ← p_get np;
      p_upd np (set_state RUNNABLE);;
      mret (p_pid c)
    end
  end.

Fixpoint close_files (n fd : nat) : M (kst D) unit :=
  match n with
  | O => mret tt
  | S n =>
    me ← kmyproc;
    (match mjoin (p_ofile me !! fd) with
     | None => mret tt
     | Some f => fileclose f;; me_upd (λ p, set_ofile (<[fd := None]> (p_ofile p)) p)
     end);;
    close_files n (S fd)
  end.

(** [for] over the table: each child is passed on, and [init] woken for each
    zombie. *)
Fixpoint abandon (n k : nat) (i : nat) : M (kst D) unit :=
  match n with
  | O => mret tt
  | S n =>
    p ← p_get k;
    (if bool_decide (p_parent p = Some i) then
       init ← gets k_initproc;
       p_upd k (set_parent init);;
       if bool_decide (p_state p = ZOMBIE) then wakeup1 (ChProc <$> init) else mret tt
     else mret tt);;
    abandon n (S k) i
  end.

(** [sched()], with the check that concerns the process, the switch and the
    end of the scheduler's round ([switchkvm], [c->proc = 0]).  The checks on
    [ptable.lock] and on interrupts are not part of this state. *)
Definition sched : M (kst D) unit :=
  me ← kmyproc;
  if decide (p_state me = RUNNING) then panic "sched running" else
  modify (set_k_cur None);;
  on_m switchkvm.

Definition exit : M (kst D) unit :=
  cur ← gets k_cur;
  init ← gets k_initproc;
  if decide (cur = init) then panic "init exiting" else
  close_files (Z.to_nat NOFILE) 0;;
  on_log begin_op;;
  me ← kmyproc;
  match p_cwd me, cur with
  | Some cwd, Some i =>
    on_fs (iput cwd);;
    on_log end_op;;
    me_upd (set_cwd None);;
    wakeup1 (ChProc <$> p_parent me);;
    ps ← gets k_procs;
    abandon (length ps) 0 i;;
    me_upd (set_state ZOMBIE);;
    sched
  | _, _ => raise EUndef
  end.

(** Scan of the table in [wait]: the first zombie child, and whether there
    are children. *)
Fixpoint wait_scan (cur : nat) (ps : list proc) (k : nat) (kids : bool) : option nat * bool :=
  match ps with
  | [] => (None, kids)
  | p :: ps =>
    if decide (p_parent p = Some cur) then
      if decide (p_state p = ZOMBIE) then (Some k, true) else wait_scan cur ps (S k) true
    else wait_scan cur ps (S k) kids
  end.

(** [None] is going to sleep, to look again when woken. *)
Definition wait : M (kst D) (option Z) :=
  cur ← gets k_cur;
  ps ← gets k_procs;
  match cur with
  | None => raise EUndef
  | Some cur =>
    match wait_scan cur ps 0 false with
    | (Some k, _) =>
      p ← p_get k;
      on_m (kfree (p_kstack p));;
      p_upd k (set_kstack 0);;
      on_m (freevm (p_pgdir p));;
      p_upd k (λ p, set_state UNUSED (set_killed false (set_name (<[0%nat := 0]> (p_name p)) (set_parent None (set_pid 0 p)))));;
      mret (Some (p_pid p))
    | (None, kids) =>
      me ← kmyproc;
      if negb kids || p_killed me then mret (Some (-1)) else
      me_upd (λ p, set_state SLEEPING (set_chan (Some (ChProc cur)) p));;
      sched;;
      mret None
    end
  end.

Definition yield : M (kst D) unit := me_upd (set_state RUNNABLE);; sched.

(** [sleep(chan, lk)] up to the switch, and after it. *)
Definition sleep_on (c : chan) : M (kst D) unit :=
  me_upd (λ p, set_state SLEEPING (set_chan (Some c) p));; sched.
Definition awake : M (kst D) unit := me_upd (set_chan None).

(** One choice of the scheduler: the process at [i], if it is runnable. *)
Definition schedule (i : nat) : M (kst D) bool :=
  p ← p_get i;
  if decide (p_state p = RUNNABLE) then
    modify (set_k_cur (Some i));;
    on_m (switchuvm (Some (p_kstack p, p_pgdir p)));;
    p_upd i (set_state RUNNING);;
    mret true
  else mret false.

(** The first run of a process; [first] is the static flag. *)
Definition forkret (first : bool) : M (kst D) bool :=
  if first then on_fs (iinit ROOTDEV);; on_log (initlog ROOTDEV);; mret false else mret false.

End Proc.
