(* ===== verification/Exec.v ===== *)
(** * Running a program ([exec.c], [elf.h])

    The arguments are given as the strings the kernel reads from user
    memory. *)

From S2P Require Import Prelude Mmu Mem Spinlock Kalloc Vm ProcDefs Crypt Bytes Disk Bio FsFormat Log Console Fs Kernel File Proc.

Definition ELF_MAGIC : Z := 0x464C457F.
Definition ELF_PROG_LOAD : Z := 1.

(** The fields of the headers that [exec] uses. *)
Record elfhdr : Type := Elfhdr {
  e_magic : Z;
  e_entry : Z;
  e_phoff : Z;
  e_phnum : Z;
}.
Definition elfhdr_size : Z := 52.
Definition get_elfhdr (d : list Z) : elfhdr := Elfhdr (get32 d 0) (get32 d 24) (get32 d 28) (get16 d 44).

Record proghdr : Type := Proghdr {
  ph_type : Z;
  ph_off : Z;
  ph_vaddr : Z;
  ph_filesz : Z;
  ph_memsz : Z;
}.
Definition proghdr_size : Z := 32.
Definition get_proghdr (d : list Z) : proghdr :=
  Proghdr (get32 d 0) (get32 d 4) (get32 d 8) (get32 d 16) (get32 d 20).

Section Exec.
Context {D : Type} `{DiskDriver D} {L : Linker}.

Fixpoint kput_bytes (va : Z) (bs : list Z) : M mach unit :=
  match bs with
  | [] => mret tt
  | b :: bs => store8 va b;; kput_bytes (u32 (va + 1)) bs
  end.

(** [readi] into kernel memory. *)
Definition readi_to (ip : nat) (dst off n : Z) : M (kst D) Z :=
  r ← on_fs (readi ip off n);
  on_m (kput_bytes dst r.2);;
  mret r.1.

(** [copyout] of the given bytes. *)
Fixpoint copyout_bytes (fuel : nat) (pgdir va : Z) (bs : list Z) : M mach Z :=
  match fuel with
  | O => raise EFuel
  | S fuel =>
    match bs with
    | [] => mret 0
    | _ =>
      let va0 := PGROUNDDOWN va in
      pa0 ← uva2ka pgdir va0;
      if pa0 =? 0 then mret (-1) else
      let n := Z.min (PGSIZE - (va - va0)) (Z.of_nat (length bs)) in
      kput_bytes (u32 (pa0 + (va - va0))) (take (Z.to_nat n) bs);;
      copyout_bytes fuel pgdir (u32 (va0 + PGSIZE)) (drop (Z.to_nat n) bs)
    end
  end.

Definition kcopyout (pgdir va : Z) (bs : list Z) : M (kst D) Z :=
  on_m (copyout_bytes (S (length bs)) pgdir va bs).

(** The loop over the program headers: the size of the image, or [None]. *)
Fixpoint load_segments (n : nat) (ip : nat) (pgdir off sz : Z) : M (kst D) (option Z) :=
  match n with
  | O => mret (Some sz)
  | S n =>
    r ← on_fs (readi ip off proghdr_size);
    if negb (r.1 =? proghdr_size) then mret None else
    let ph := get_proghdr r.2 in
    let off := off + proghdr_size in
    if negb (ph_type ph =? ELF_PROG_LOAD) then load_segments n ip pgdir off sz else
    if ph_memsz ph <? ph_filesz ph then mret None else
    if u32 (ph_vaddr ph + ph_memsz ph) <? ph_vaddr ph then mret None else
    sz ← on_m (allocuvm pgdir sz (u32 (ph_vaddr ph + ph_memsz ph)));
    if sz =? 0 then mret None else
    if nz (ph_vaddr ph mod PGSIZE) then mret None else
    r ← loaduvm (λ A, on_m) (readi_to ip) pgdir (ph_vaddr ph) (ph_off ph) (ph_filesz ph);
    if r <? 0 then mret None else load_segments n ip pgdir off sz
  end.

(** The new page directory (0 when there is none), with the size and entry
    point of the image if it was loaded. *)
Definition load_image (ip : nat) : M (kst D) (Z * option (Z * Z)) :=
  r ← on_fs (readi ip 0 elfhdr_size);
  if negb (r.1 =? elfhdr_size) then mret (0, None) else
  let elf := get_elfhdr r.2 in
  if negb (e_magic elf =? ELF_MAGIC) then mret (0, None) else
  pgdir ← on_m setupkvm;
  if pgdir =? 0 then mret (0, None) else
  r ← load_segments (Z.to_nat (e_phnum elf)) ip pgdir (e_phoff elf) 0;
  mret (pgdir, (λ sz, (sz, e_entry elf)) <$> r).

(** Pushing the argument strings: the addresses they got, and the stack. *)
Fixpoint push_args (argc : Z) (pgdir sp : Z) (argv : list (list Z)) (acc : list Z) :
    M (kst D) (option (list Z * Z)) :=
  match argv with
  | [] => mret (Some (acc, sp))
  | s :: argv =>
    if MAXARG <=? argc then mret None else
    let sp := Z.land (u32 (sp - (Z.of_nat (length s) + 1))) (Z.lnot 3) in
    r ← kcopyout pgdir sp (s ++ [0]);
    if r <? 0 then mret None else push_args (argc + 1) pgdir sp argv (acc ++ [sp])
  end.

(** The rest of the stack: a fake return address, [argc], [argv], and the
    pointers with a final null. *)
Definition push_ustack (pgdir sp : Z) (ptrs : list Z) : M (kst D) (option Z) :=
  let argc := Z.of_nat (length ptrs) in
  let ustack := [0xffffffff; argc; u32 (sp - (argc + 1) * 4)] ++ ptrs ++ [0] in
  let sp := u32 (sp - (3 + argc + 1) * 4) in
  r ← kcopyout pgdir sp (mjoin (le32 <$> ustack));
  mret (if r <? 0 then None else Some sp).

(** What follows the last slash. *)
Fixpoint last_elem (path last : list Z) : list Z :=
  match path with
  | [] => last
  | c :: path => last_elem path (if c =? slash then path else last)
  end.

Definition exec_bad (pgdir : Z) (ip : option nat) : M (kst D) Z :=
  (if pgdir =? 0 then mret tt else on_m (freevm pgdir));;
  (match ip with Some ip => on_fs (iunlockput ip);; on_log end_op | None => mret tt end);;
  mret (-1).

(** Encrypting the new image of [sz] bytes, all but the page below the stack. *)
Definition exec_encrypt (sz : Z) : M ustate unit :=
  let t := if nz (sz mod PGSIZE) then sz / PGSIZE + 1 else sz / PGSIZE in
  _ ← mencrypt 0 (t - 2);
  _ ← mencrypt (u32 ((t - 1) * PGSIZE)) 1;
  mret tt.

(** Switching to the new image and encrypting it. *)
Definition exec_commit (path : list Z) (pgdir sz entry sp : Z) : M (kst D) Z :=
  me_upd (λ p, set_name (proc_name (p_name p) (last_elem path path)) p);;
  me ← kmyproc;
  me_upd (λ p, set_tf (tf_set_entry entry sp (p_tf p)) (set_sz sz (set_pgdir pgdir p)));;
  on_m (switchuvm (Some (p_kstack me, pgdir)));;
  me_upd (λ p, set_head 0 (set_clock (replicate (Z.to_nat CLOCKSIZE) 0) p));;
  on_u (exec_encrypt sz);;
  on_m (freevm (p_pgdir me));;
  mret 0.

Definition exec (path : list Z) (argv : list (list Z)) : M (kst D) Z :=
  me_upd (set_head 0);;
  on_log begin_op;;
  ip ← on_fs (namei path);
  match ip with
  | None => on_log end_op;; mret (-1)
  | Some ip =>
    on_fs (ilock ip);;
    r ← load_image ip;
    match r with
    | (pgdir, None) => exec_bad pgdir (Some ip)
    | (pgdir, Some (sz, entry)) =>
      on_fs (iunlockput ip);;
      on_log end_op;;
      let sz := PGROUNDUP sz in
      sz ← on_m (allocuvm pgdir sz (u32 (sz + 2 * PGSIZE)));
      if sz =? 0 then exec_bad pgdir None else
      on_m (clearpteu pgdir (u32 (sz - 2 * PGSIZE)));;
      a ← push_args 0 pgdir sz argv [];
      match a with
      | None => exec_bad pgdir None
      | Some (ptrs, sp) =>
        r ← push_ustack pgdir sp ptrs;
        match r with
        | None => exec_bad pgdir None
        | Some sp => exec_commit path pgdir sz entry sp
        end
      end
    end
  end.

End Exec.
