(* ===== verification/Sysfile.v ===== *)
(** * System calls on files ([sysfile.c], with the argument fetching of
    [syscall.c])

    A string argument is returned as the bytes the kernel reads; the kernel's
    later reads of the same string are not repeated. *)

From S2P Require Import Prelude Mmu Mem Spinlock Kalloc Vm ProcDefs Crypt Bytes Disk Bio FsFormat Log Console Fs Kernel File Proc Exec.

Definition O_RDONLY : Z := 0x000.
Definition O_WRONLY : Z := 0x001.
Definition O_RDWR : Z := 0x002.
Definition O_CREATE : Z := 0x200.

Section Sysfile.
Context {D : Type} `{DiskDriver D} {L : Linker}.

(** ** Arguments *)

Definition fetchint (addr : Z) : M (kst D) (option Z) :=
  me ← kmyproc;
  if (p_sz me <=? addr) || (p_sz me <? u32 (addr + 4)) then mret None else
  v ← uload32 addr;
  mret (Some v).

Fixpoint fetchstr_loop (n : nat) (s : Z) (acc : list Z) : M (kst D) (option (list Z)) :=
  match n with
  | O => mret None
  | S n => b ← uload8 s; if b =? 0 then mret (Some acc) else fetchstr_loop n (s + 1) (acc ++ [b])
  end.

Definition fetchstr (addr : Z) : M (kst D) (option (list Z)) :=
  me ← kmyproc;
  if p_sz me <=? addr then mret None else fetchstr_loop (Z.to_nat (p_sz me - addr)) addr [].

Definition argint (n : Z) : M (kst D) (option Z) :=
  me ← kmyproc; fetchint (u32 (tf_esp (p_tf me) + 4 + 4 * n)).

(** [size] is an [int]. *)
Definition argptr (n size : Z) : M (kst D) (option Z) :=
  i ← argint n;
  me ← kmyproc;
  match i with
  | None => mret None
  | Some i =>
    if (size <? 0) || (p_sz me <=? i) || (p_sz me <? u32 (i + size)) then mret None else mret (Some i)
  end.

Definition argstr (n : Z) : M (kst D) (option (list Z)) :=
  a ← argint n;
  match a with None => mret None | Some a => fetchstr a end.

(** The descriptor and its file. *)
Definition argfd (n : Z) : M (kst D) (option (nat * nat)) :=
  fd ← argint n;
  me ← kmyproc;
  match fd with
  | None => mret None
  | Some fd =>
    let fd := s32 fd in
    if (fd <? 0) || (NOFILE <=? fd) then mret None else
    match mjoin (p_ofile me !! Z.to_nat fd) with
    | None => mret None
    | Some f => mret (Some (Z.to_nat fd, f))
    end
  end.

Definition fdalloc (f : nat) : M (kst D) (option nat) :=
  me ← kmyproc;
  match list_find (λ o, o = None) (p_ofile me) with
  | Some (fd, _) => me_upd (λ p, set_ofile (<[fd := Some f]> (p_ofile p)) p);; mret (Some fd)
  | None => mret None
  end.

(** ** Calls on descriptors *)

Definition sys_dup : M (kst D) Z :=
  f ← argfd 0;
  match f with
  | None => mret (-1)
  | Some (_, f) =>
    fd ← fdalloc f;
    match fd with
    | None => mret (-1)
    | Some fd => _ ← filedup f; mret (Z.of_nat fd)
    end
  end.

Definition sys_read : M (kst D) Z :=
  f ← argfd 0;
  match f with
  | None => mret (-1)
  | Some (_, f) =>
    n ← argint 2;
    match n with
    | None => mret (-1)
    | Some n =>
      p ← argptr 1 (s32 n);
      match p with None => mret (-1) | Some p => fileread f p (s32 n) end
    end
  end.

Definition sys_write : M (kst D) Z :=
  f ← argfd 0;
  match f with
  | None => mret (-1)
  | Some (_, f) =>
    n ← argint 2;
    match n with
    | None => mret (-1)
    | Some n =>
      p ← argptr 1 (s32 n);
      match p with None => mret (-1) | Some p => filewrite f p (s32 n) end
    end
  end.

Definition sys_close : M (kst D) Z :=
  f ← argfd 0;
  match f with
  | None => mret (-1)
  | Some (fd, f) =>
    me_upd (λ p, set_ofile (<[fd := None]> (p_ofile p)) p);;
    fileclose f;;
    mret 0
  end.

(** [struct stat]: type, dev, ino, nlink, size, with the compiler's padding
    left as it is. *)
Definition ustore_stat (a : Z) (st : stat) : M (kst D) unit :=
  ustore_bytes a (le16 (st_type st));;
  ustore_bytes (u32 (a + 4)) (le32 (st_dev st));;
  ustore_bytes (u32 (a + 8)) (le32 (st_ino st));;
  ustore_bytes (u32 (a + 12)) (le16 (st_nlink st));;
  ustore_bytes (u32 (a + 16)) (le32 (st_size st)).

Definition sys_fstat : M (kst D) Z :=
  f ← argfd 0;
  match f with
  | None => mret (-1)
  | Some (_, f) =>
    a ← argptr 1 20;
    match a with
    | None => mret (-1)
    | Some a =>
      st ← filestat f;
      match st with None => mret (-1) | Some st => ustore_stat a st;; mret 0 end
    end
  end.

(** ** Calls on paths *)

Definition link_bad (ip : nat) : M (kst D) Z :=
  on_fs (ilock ip);;
  on_fs (d_upd ip (λ d, set_nlink (u16 (di_nlink d - 1)) d));;
  on_fs (iupdate ip);;
  on_fs (iunlockput ip);;
  on_log end_op;;
  mret (-1).

Definition sys_link : M (kst D) Z :=
  old ← argstr 0;
  match old with
  | None => mret (-1)
  | Some old =>
  new ← argstr 1;
  match new with
  | None => mret (-1)
  | Some new =>
    on_log begin_op;;
    ip ← on_fs (namei old);
    match ip with
    | None => on_log end_op;; mret (-1)
    | Some ip =>
      on_fs (ilock ip);;
      i ← on_fs (i_get ip);
      if di_type (i_d i) =? T_DIR then on_fs (iunlockput ip);; on_log end_op;; mret (-1) else
      on_fs (d_upd ip (λ d, set_nlink (u16 (di_nlink d + 1)) d));;
      on_fs (iupdate ip);;
      on_fs (iunlock ip);;
      r ← on_fs (nameiparent new);
      match r with
      | None => link_bad ip
      | Some (dp, name) =>
        on_fs (ilock dp);;
        d ← on_fs (i_get dp);
        i ← on_fs (i_get ip);
        ok ← (if i_dev d =? i_dev i then r ← on_fs (dirlink dp name (i_inum i)); mret (negb (r <? 0)) else mret false);
        on_fs (iunlockput dp);;
        if negb ok then link_bad ip else
        on_fs (iput ip);;
        on_log end_op;;
        mret 0
      end
    end
  end
  end.

Fixpoint isdirempty_loop (n : nat) (dp : nat) (off : Z) : M (fsys D) bool :=
  match n with
  | O => mret true
  | S n =>
    r ← readi dp off 16;
    if negb (r.1 =? 16) then panic "isdirempty: readi" else
    if negb (de_inum (get_dirent r.2) =? 0) then mret false else isdirempty_loop n dp (off + 16)
  end.

Definition isdirempty (dp : nat) : M (fsys D) bool :=
  d ← i_get dp;
  isdirempty_loop (nentries (di_size (i_d d) - 32)) dp 32.

Definition dot : list Z := [46].
Definition dotdot : list Z := [46; 46].

Definition unlink_bad (dp : nat) : M (kst D) Z :=
  on_fs (iunlockput dp);; on_log end_op;; mret (-1).

Definition sys_unlink : M (kst D) Z :=
  path ← argstr 0;
  match path with
  | None => mret (-1)
  | Some path =>
    on_log begin_op;;
    r ← on_fs (nameiparent path);
    match r with
    | None => on_log end_op;; mret (-1)
    | Some (dp, name) =>
      on_fs (ilock dp);;
      if (namecmp name dot =? 0) || (namecmp name dotdot =? 0) then unlink_bad dp else
      r ← on_fs (dirlookup dp name);
      match r with
      | None => unlink_bad dp
      | Some (ip, off) =>
        on_fs (ilock ip);;
        i ← on_fs (i_get ip);
        if s16 (di_nlink (i_d i)) <? 1 then panic "unlink: nlink < 1" else
        let isdir := di_type (i_d i) =? T_DIR in
        empty ← (if isdir then on_fs (isdirempty ip) else mret true);
        if negb empty then on_fs (iunlockput ip);; unlink_bad dp else
        n ← on_fs (writei dp (replicate 16 0) off);
        if negb (n =? 16) then panic "unlink: writei" else
        (if isdir then
           on_fs (d_upd dp (λ d, set_nlink (u16 (di_nlink d - 1)) d));; on_fs (iupdate dp)
         else mret tt);;
        on_fs (iunlockput dp);;
        on_fs (d_upd ip (λ d, set_nlink (u16 (di_nlink d - 1)) d));;
        on_fs (iupdate ip);;
        on_fs (iunlockput ip);;
        on_log end_op;;
        mret 0
      end
    end
  end.

(** The inode is returned locked. *)
Definition create (path : list Z) (type major minor : Z) : M (fsys D) (option nat) :=
  r ← nameiparent path;
  match r with
  | None => mret None
  | Some (dp, name) =>
    ilock dp;;
    r ← dirlookup dp name;
    match r with
    | Some (ip, _) =>
      iunlockput dp;;
      ilock ip;;
      i ← i_get ip;
      if (type =? T_FILE) && (di_type (i_d i) =? T_FILE) then mret (Some ip)
      else iunlockput ip;; mret None
    | None =>
      d ← i_get dp;
      ip ← ialloc (i_dev d) type;
      ilock ip;;
      d_upd ip (λ d, set_nlink 1 (set_devno (u16 major) (u16 minor) d));;
      iupdate ip;;
      i ← i_get ip;
      (if type =? T_DIR then
         d_upd dp (λ d, set_nlink (u16 (di_nlink d + 1)) d);;
         iupdate dp;;
         a ← dirlink ip dot (i_inum i);
         if a <? 0 then panic "create dots" else
         b ← dirlink ip dotdot (i_inum d);
         if b <? 0 then panic "create dots" else mret tt
       else mret tt);;
      r ← dirlink dp name (i_inum i);
      if r <? 0 then panic "create: dirlink" else
      iunlockput dp;;
      mret (Some ip)
    end
  end.

(** A descriptor for the locked inode [ip], inside a transaction. *)
Definition open_inode (ip : nat) (omode : Z) : M (kst D) Z :=
  f ← filealloc;
  fd ← (match f with None => mret None | Some f => fdalloc f end);
  match f, fd with
  | Some f, Some fd =>
    on_fs (iunlock ip);;
    on_log end_op;;
    f_upd f (λ g, File FD_INODE (f_ref g) (negb (nz (Z.land omode O_WRONLY)))
      (nz (Z.land omode O_WRONLY) || nz (Z.land omode O_RDWR)) (f_pipe g) ip 0);;
    mret (Z.of_nat fd)
  | _, _ =>
    (match f with Some f => fileclose f | None => mret tt end);;
    on_fs (iunlockput ip);;
    on_log end_op;;
    mret (-1)
  end.

Definition sys_open : M (kst D) Z :=
  path ← argstr 0;
  match path with
  | None => mret (-1)
  | Some path =>
  omode ← argint 1;
  match omode with
  | None => mret (-1)
  | Some omode =>
    on_log begin_op;;
    if nz (Z.land omode O_CREATE) then
      ip ← on_fs (create path T_FILE 0 0);
      match ip with
      | None => on_log end_op;; mret (-1)
      | Some ip => open_inode ip omode
      end
    else
      ip ← on_fs (namei path);
      match ip with
      | None => on_log end_op;; mret (-1)
      | Some ip =>
        on_fs (ilock ip);;
        i ← on_fs (i_get ip);
        if (di_type (i_d i) =? T_DIR) && negb (omode =? O_RDONLY) then
          on_fs (iunlockput ip);; on_log end_op;; mret (-1)
        else open_inode ip omode
      end
  end
  end.

(** [sys_mkdir] and [sys_mknod] begin the transaction before they fetch their
    arguments. *)
Definition make_node (path : option (list Z)) (type major minor : Z) : M (kst D) Z :=
  match path with
  | None => on_log end_op;; mret (-1)
  | Some path =>
    ip ← on_fs (create path type major minor);
    match ip with
    | None => on_log end_op;; mret (-1)
    | Some ip => on_fs (iunlockput ip);; on_log end_op;; mret 0
    end
  end.

Definition sys_mkdir : M (kst D) Z :=
  on_log begin_op;;
  path ← argstr 0;
  make_node path T_DIR 0 0.

Definition sys_mknod : M (kst D) Z :=
  on_log begin_op;;
  path ← argstr 0;
  match path with
  | None => make_node None T_DEV 0 0
  | _ =>
    major ← argint 1;
    match major with
    | None => make_node None T_DEV 0 0
    | Some major =>
      minor ← argint 2;
      match minor with
      | None => make_node None T_DEV 0 0
      | Some minor => make_node path T_DEV major minor
      end
    end
  end.

Definition sys_chdir : M (kst D) Z :=
  on_log begin_op;;
  path ← argstr 0;
  ip ← (match path with None => mret None | Some path => on_fs (namei path) end);
  match ip with
  | None => on_log end_op;; mret (-1)
  | Some ip =>
    on_fs (ilock ip);;
    i ← on_fs (i_get ip);
    if negb (di_type (i_d i) =? T_DIR) then on_fs (iunlockput ip);; on_log end_op;; mret (-1) else
    on_fs (iunlock ip);;
    me ← kmyproc;
    match p_cwd me with
    | None => raise EUndef
    | Some cwd =>
      on_fs (iput cwd);;
      on_log end_op;;
      me_upd (set_cwd (Some ip));;
      mret 0
    end
  end.

(** The argument vector: at most [MAXARG] pointers, the last one null. *)
Fixpoint fetch_argv (n : nat) (uargv : Z) (acc : list (list Z)) : M (kst D) (option (list (list Z))) :=
  match n with
  | O => mret None
  | S n =>
    uarg ← fetchint uargv;
    match uarg with
    | None => mret None
    | Some uarg =>
      if uarg =? 0 then mret (Some acc) else
      s ← fetchstr uarg;
      match s with
      | None => mret None
      | Some s => fetch_argv n (u32 (uargv + 4)) (acc ++ [s])
      end
    end
  end.

Definition sys_exec : M (kst D) Z :=
  path ← argstr 0;
  match path with
  | None => mret (-1)
  | Some path =>
    uargv ← argint 1;
    match uargv with
    | None => mret (-1)
    | Some uargv =>
      argv ← fetch_argv (Z.to_nat MAXARG) uargv [];
      match argv with None => mret (-1) | Some argv => exec path argv end
    end
  end.

Definition sys_pipe : M (kst D) Z :=
  fd ← argptr 0 8;
  match fd with
  | None => mret (-1)
  | Some fd =>
    fs ← pipealloc;
    match fs with
    | None => mret (-1)
    | Some (rf, wf) =>
      fd0 ← fdalloc rf;
      fd1 ← (match fd0 with None => mret None | Some _ => fdalloc wf end);
      match fd0, fd1 with
      | Some fd0, Some fd1 =>
        ustore32 fd (Z.of_nat fd0);; ustore32 (u32 (fd + 4)) (Z.of_nat fd1);; mret 0
      | _, _ =>
        (match fd0 with
         | Some fd0 => me_upd (λ p, set_ofile (<[fd0 := None]> (p_ofile p)) p)
         | None => mret tt
         end);;
        fileclose rf;; fileclose wf;; mret (-1)
      end
    end
  end.

End Sysfile.
