(* ===== verification/Trap.v ===== *)
(** * System calls and traps ([sysproc.c], [syscall.c], [syscall.h], [trap.c])

    [syscall] dispatches on the number in [eax]; [trap] handles a trap taken
    with the given trap frame.  A call that has to wait ends in [EBlock],
    except [wait], which leaves its process asleep. *)

From S2P Require Import Prelude Mmu Mem Spinlock Kalloc Vm ProcDefs Crypt Bytes Disk Bio FsFormat Log Console Fs Kernel File Proc Exec Sysfile.

Inductive sysno : Type :=
| SYS_fork | SYS_exit | SYS_wait | SYS_pipe | SYS_read | SYS_kill | SYS_exec | SYS_fstat | SYS_chdir
| SYS_dup | SYS_getpid | SYS_sbrk | SYS_sleep | SYS_uptime | SYS_open | SYS_write | SYS_mknod | SYS_unlink
| SYS_link | SYS_mkdir | SYS_close | SYS_mencrypt | SYS_getpgtable | SYS_dump_rawphymem.

(** The table [syscalls[]], from index 1. *)
Definition syscalls : list sysno :=
  [SYS_fork; SYS_exit; SYS_wait; SYS_pipe; SYS_read; SYS_kill; SYS_exec; SYS_fstat; SYS_chdir;
   SYS_dup; SYS_getpid; SYS_sbrk; SYS_sleep; SYS_uptime; SYS_open; SYS_write; SYS_mknod; SYS_unlink;
   SYS_link; SYS_mkdir; SYS_close; SYS_mencrypt; SYS_getpgtable; SYS_dump_rawphymem].

Section Trap.
Context {D : Type} `{DiskDriver D} {L : Linker}.
Context (forkret_addr : Z).

Definition sys_kill : M (kst D) Z :=
  pid ← argint 0;
  match pid with None => mret (-1) | Some pid => kill (s32 pid) end.

Definition sys_getpid : M (kst D) Z := me ← kmyproc; mret (p_pid me).

Definition sys_sbrk : M (kst D) Z :=
  n ← argint 0;
  match n with
  | None => mret (-1)
  | Some n =>
    me ← kmyproc;
    r ← growproc (s32 n);
    mret (if r <? 0 then -1 else p_sz me)
  end.

(** [ticks - ticks0 < n] compares as unsigned. *)
Definition sys_sleep : M (kst D) Z :=
  n ← argint 0;
  match n with
  | None => mret (-1)
  | Some n =>
    if 0 <? n then
      me ← kmyproc;
      if p_killed me then mret (-1) else raise EBlock
    else mret 0
  end.

Definition sys_uptime : M (kst D) Z := gets k_ticks.

Definition sys_mencrypt : M (kst D) Z :=
  len ← argint 1;
  match len with
  | None => mret (-1)
  | Some len =>
    if s32 len <=? 0 then mret (-1) else
    va ← argptr 0 1;
    match va with
    | None => mret (-1)
    | Some va => if P2V PHYSTOP <=? va then mret (-1) else on_u (mencrypt va (s32 len))
    end
  end.

Definition sys_getpgtable : M (kst D) Z :=
  num ← argint 1;
  match num with
  | None => mret (-1)
  | Some num =>
    ws ← argint 2;
    match ws with
    | None => mret (-1)
    | Some ws =>
      e ← argptr 0 (s32 (s32 num * 8));
      match e with
      | None => mret (-1)
      | Some e => on_u (getpgtable e (s32 num) (s32 ws))
      end
    end
  end.

Definition sys_dump_rawphymem : M (kst D) Z :=
  buffer ← argptr 1 PGSIZE;
  match buffer with
  | None => mret (-1)
  | Some buffer =>
    pa ← argint 0;
    match pa with None => mret (-1) | Some pa => on_u (faulting (dump_rawphymem pa buffer)) end
  end.

(** [None] when the call does not return to the caller: [exit], or [wait]
    going to sleep. *)
Definition do_syscall (n : sysno) : M (kst D) (option Z) :=
  match n with
  | SYS_fork => Some <$> fork forkret_addr
  | SYS_exit => exit;; mret None
  | SYS_wait => wait
  | SYS_pipe => Some <$> sys_pipe
  | SYS_read => Some <$> sys_read
  | SYS_kill => Some <$> sys_kill
  | SYS_exec => Some <$> sys_exec
  | SYS_fstat => Some <$> sys_fstat
  | SYS_chdir => Some <$> sys_chdir
  | SYS_dup => Some <$> sys_dup
  | SYS_getpid => Some <$> sys_getpid
  | SYS_sbrk => Some <$> sys_sbrk
  | SYS_sleep => Some <$> sys_sleep
  | SYS_uptime => Some <$> sys_uptime
  | SYS_open => Some <$> sys_open
  | SYS_write => Some <$> sys_write
  | SYS_mknod => Some <$> sys_mknod
  | SYS_unlink => Some <$> sys_unlink
  | SYS_link => Some <$> sys_link
  | SYS_mkdir => Some <$> sys_mkdir
  | SYS_close => Some <$> sys_close
  | SYS_mencrypt => Some <$> sys_mencrypt
  | SYS_getpgtable => Some <$> sys_getpgtable
  | SYS_dump_rawphymem => Some <$> sys_dump_rawphymem
  end.

Definition lookup_syscall (num : Z) : option sysno :=
  if 0 <? num then syscalls !! Z.to_nat (num - 1) else None.

(** Did the call return? *)
Definition syscall : M (kst D) bool :=
  me ← kmyproc;
  match lookup_syscall (s32 (tf_eax (p_tf me))) with
  | Some n =>
    r ← do_syscall n;
    match r with
    | Some v => me_upd (λ p, set_tf (tf_set_eax (u32 v) (p_tf p)) p);; mret true
    | None => mret false
    end
  | None => me_upd (λ p, set_tf (tf_set_eax (u32 (-1)) (p_tf p)) p);; mret true
  end.

(** ** Traps *)

Definition T_PGFLT : Z := 14.
Definition T_SYSCALL : Z := 64.
Definition T_IRQ0 : Z := 32.
Definition IRQ_TIMER : Z := 0.
Definition IRQ_KBD : Z := 1.
Definition IRQ_COM1 : Z := 4.
Definition IRQ_IDE : Z := 14.
Definition IRQ_SPURIOUS : Z := 31.

(** What the interrupt controller and devices hand over: the CPU's number,
    the faulting address, and the characters waiting at the keyboard or the
    serial port. *)
Record hw : Type := Hw {
  hw_cpu : Z;
  hw_cr2 : Z;
  hw_keys : list Z;
  hw_serial : list Z;
}.

Definition console_input (cs : list Z) : M (kst D) unit :=
  r ← on_fs (on_console (consoleintr cs false false));
  if r.2 : bool then wakeup ChInput else mret tt.

(** The switch of [trap]; [true] when the handler called [exit]. *)
Definition handle (h : hw) (tf : trapframe) : M (kst D) bool :=
  let n := tf_trapno tf in
  if n =? T_IRQ0 + IRQ_TIMER then
    (if hw_cpu h =? 0 then modify (λ s, set_k_ticks (u32 (k_ticks s + 1)) s);; wakeup ChTicks else mret tt);;
    mret false
  else if (n =? T_IRQ0 + IRQ_IDE) || (n =? T_IRQ0 + IRQ_IDE + 1) then mret false
  else if n =? T_IRQ0 + IRQ_KBD then console_input (hw_keys h);; mret false
  else if n =? T_IRQ0 + IRQ_COM1 then console_input (hw_serial h);; mret false
  else if (n =? T_IRQ0 + 7) || (n =? T_IRQ0 + IRQ_SPURIOUS) then mret false
  else if n =? T_PGFLT then
    r ← on_u (mdecrypt (hw_cr2 h));
    if nz r then exit;; mret true else mret false
  else
    cur ← gets k_cur;
    if bool_decide (cur = None) || (Z.land (tf_cs tf) 3 =? 0) then panic "trap" else
    me_upd (set_killed true);; mret false.

(** Exit if the process was killed and the trap came from user space. *)
Definition exit_if_killed (tf : trapframe) : M (kst D) bool :=
  p ← gets cur_proc;
  match p with
  | Some p => if p_killed p && (Z.land (tf_cs tf) 3 =? DPL_USER) then exit;; mret true else mret false
  | None => mret false
  end.

Definition trap (h : hw) (tf : trapframe) : M (kst D) unit :=
  if tf_trapno tf =? T_SYSCALL then
    me ← kmyproc;
    if p_killed me then exit else
    me_upd (set_tf tf);;
    returned ← syscall;
    if negb returned then mret tt else
    me ← kmyproc;
    if p_killed me then exit else mret tt
  else
    gone ← handle h tf;
    if gone : bool then mret tt else
    gone ← exit_if_killed tf;
    if gone : bool then mret tt else
    p ← gets cur_proc;
    match p with
    | Some p =>
      if bool_decide (p_state p = RUNNING) && (tf_trapno tf =? T_IRQ0 + IRQ_TIMER) then yield
      else _ ← exit_if_killed tf; mret tt
    | None => mret tt
    end.

End Trap.
