(* ===== verification/Access.v ===== *)
(** * User memory under encryption

    The program's own view: loads and stores go through the page fault
    handler, and behave as on a memory that was never encrypted ([plain]).
    [crypt_inv] ties the clock queue to the page table; it holds between any
    two accesses.

    The accesses of the program go through the translation cache (the TLB):
    one that finds the page there does not look at the page table.  What the
    cache holds at each access is an argument, and the results are for caches
    that agree with the page table ([coherent]); [CryptProps] has what happens
    with one that does not.  The accesses of the handler itself walk the page
    table. *)

From S2P Require Import Prelude Mmu Mem Spinlock Kalloc Vm VmSpec VmUser ProcDefs Crypt CryptSpec ClockSpec Bytes Disk Bio Console FsFormat Log Fs Kernel.

(** A translation in the cache: the frame, and whether it may be written and
    used in user mode.  The cache is a map from page numbers. *)
Record tlbe : Type := Tlbe { te_frame : Z; te_w : bool; te_u : bool }.
Abbreviation tlb := (gmap Z tlbe).

Section Access.
Context {L : Linker}.

Record crypt_inv (s : ustate) (l : list Z) : Prop := CryptInv {
  ci_ready : uready s l;
  ci_queue c : c ∈ p_clock (us_proc s) → c ≠ 0 → resident s c;
  ci_once i j c : p_clock (us_proc s) !! i = Some c → p_clock (us_proc s) !! j = Some c → c ≠ 0 → i = j;
  ci_excl va : 0 ≤ va < KERNBASE → Z.testbit (upte s va) 0 = true → Z.testbit (upte s va) 10 = false;
}.

(** A page other than page 0 that is not encrypted, and one that is not even in
    the queue, from which it could be evicted. *)
Definition in_clear (s : ustate) (va : Z) : Prop :=
  0 < va < KERNBASE ∧ va mod 4096 = 0 ∧ user_ok (upte s va) = true ∧ Z.testbit (upte s va) 10 = false.
Definition loose (s : ustate) (va : Z) : Prop := in_clear s va ∧ va ∉ p_clock (us_proc s).
Definition no_looser (s s' : ustate) : Prop := ∀ va, loose s' va → loose s va.

(** What a process may access. *)
Definition user_page (s : ustate) (va : Z) : Prop :=
  0 ≤ va < KERNBASE ∧ user_ok (upte s va) = true ∧ Z.testbit (upte s va) 1 = true.

(** The access rights, and the memory as the process sees it. *)
Definition same_view (s s' : ustate) : Prop :=
  ∀ va, user_page s va → user_page s' va ∧ plain s' va = plain s va.

Lemma same_view_trans s1 s2 s3 : same_view s1 s2 → same_view s2 s3 → same_view s1 s3.
Proof. intros H12 H23 va Hva. destruct (H12 va Hva) as [Hu E]. rewrite <- E. by apply H23. Qed.

Lemma page_base va : 0 ≤ va < KERNBASE → PGROUNDDOWN va = pgbase va ∧ 0 ≤ pgbase va < KERNBASE ∧
  pgbase va mod 4096 = 0 ∧ pgbase va / 4096 = va / 4096.
Proof.
  unfold KERNBASE, pgbase. intros Hva. rewrite PGROUNDDOWN_eq by lia. split_and!; zdiv.
Qed.

Lemma upte_page s va va' :
  0 ≤ va < KERNBASE → 0 ≤ va' < KERNBASE → va / 4096 = va' / 4096 → upte s va = upte s va'.
Proof. unfold KERNBASE. intros H1 H2 E. unfold upte. apply pte_page; lia. Qed.

(** Only accessed bits changed. *)
Lemma no_looser_bits s s' :
  p_clock (us_proc s') = p_clock (us_proc s) →
  (∀ va k, 0 ≤ va < KERNBASE → 0 ≤ k → k ≠ 5 → Z.testbit (upte s' va) k = Z.testbit (upte s va) k) →
  no_looser s s'.
Proof.
  intros Hq Hb va [(Hva & Hal & Hu & HE) Hin]. rewrite Hq in Hin. split; [|done].
  unfold in_clear, user_ok, mapped in *. rewrite !Hb in Hu by lia. by rewrite Hb in HE by lia.
Qed.

Lemma crypt_inv_bits s s' l :
  crypt_inv s l → uready s' l → p_clock (us_proc s') = p_clock (us_proc s) →
  (∀ va k, 0 ≤ va < KERNBASE → 0 ≤ k → k ≠ 5 → Z.testbit (upte s' va) k = Z.testbit (upte s va) k) →
  crypt_inv s' l.
Proof.
  intros [C1 C2 C3 C4] Hr Hq Hb. constructor; rewrite ?Hq; try done.
  - intros c Hc Hc0. destruct (C2 c Hc Hc0) as (Hk & Hal & Hu & HW & HE). unfold resident, user_ok, mapped in *.
    rewrite !Hb by lia. done.
  - intros va Hva. rewrite !Hb by lia. by apply C4.
Qed.

(** ** Accesses *)

Definition tlb_translate (c : tlb) (write user : bool) (va : Z) : M mach Z :=
  match c !! (va / 4096) with
  | Some e =>
    if implb write (te_w e) && implb user (te_u e) then mret (te_frame e + va mod 4096) else raise (EFault va)
  | None => mmu_translate write user va
  end.

(** A byte load and a byte store of an instruction, in user mode or not. *)
Definition mmu_load (c : tlb) (user : bool) (va : Z) : M mach Z :=
  pa ← tlb_translate c false user va; gets (λ s, rd (m_mem s) pa).
Definition mmu_store (c : tlb) (user : bool) (va v : Z) : M mach unit :=
  pa ← tlb_translate c true user va; modify (λ s, set_mem (wr (m_mem s) pa v) s).

(** The translation of an entry of the page table. *)
Definition cached (e : Z) : tlbe := Tlbe (PTE_ADDR e) (Z.testbit e 1) (Z.testbit e 2).

(** The cache has no translation but those in the page table. *)
Definition coherent (s : ustate) (c : tlb) : Prop :=
  ∀ va e, 0 ≤ va < KERNBASE → c !! (va / 4096) = Some e → Z.testbit (upte s va) 0 = true ∧ e = cached (upte s va).

Lemma load8_user va : 0 ≤ va < KERNBASE → load8 va = mmu_load ∅ false va.
Proof. intros Hva. unfold load8, mmu_load, tlb_translate. by rewrite kva_user, lookup_empty. Qed.
Lemma store8_user va v : 0 ≤ va < KERNBASE → store8 va v = mmu_store ∅ false va v.
Proof. intros Hva. unfold store8, mmu_store, tlb_translate. by rewrite kva_user, lookup_empty. Qed.

(** The entries the hardware reads are those of the process. *)
Lemma mmu_entries s l va :
  uready s l →
  let m := m_mem (us_mach s) in
  let pde := ld32 m (PTE_ADDR (m_cr3 (us_mach s)) + 4 * PDX va) in
  if Z.testbit pde 0 then
    ld32 m (PTE_ADDR pde + 4 * PTX va) = upte s va ∧ Z.testbit pde 2 = true
  else upte s va = 0.
Proof.
  intros [_ Ha Hc _ _ _ _] m. destruct (as_page _ _ _ Ha SDir _ eq_refl) as [Hd _].
  pose proof (page_ok_facts _ Hd) as (_ & Hd0 & Hd1 & Hd2 & _ & _). unfold PHYSTOP in *.
  rewrite Hc, PTE_ADDR_eq, Hd2, Z.sub_0_r by lia. fold (pde m (p_pgdir (us_proc s)) (PDX va)). cbv zeta.
  destruct (Z.testbit _ 0) eqn:HP.
  - assert (tab m (p_pgdir (us_proc s)) (PDX va) = Some (P2V (PTE_ADDR (pde m (p_pgdir (us_proc s)) (PDX va))))) as Ht.
    { unfold tab. rewrite HP. pose proof (PDX_range va). by case_cmp; try lia. }
    split; [|by apply (as_rw _ _ _ Ha _ _ Ht)]. unfold upte, pte. fold m. rewrite Ht.
    by rewrite V2P_P2V by apply PTE_ADDR_range.
  - unfold upte, pte, tab. fold m. by rewrite HP, andb_false_r.
Qed.

Lemma translate_fault s l w u va :
  uready s l → Z.testbit (upte s va) 0 = false → mmu_translate w u va (us_mach s) = Err (EFault va).
Proof.
  intros Hr HP. pose proof (mmu_entries s l va Hr) as He. cbv zeta in He. unfold mmu_translate.
  destruct (Z.testbit _ 0) eqn:Hd in He; rewrite !has_P, Hd; [|done]. destruct He as [-> _]. by rewrite HP.
Qed.

Lemma translate_mode s l w u va :
  uready s l → Z.testbit (upte s va) 2 = true →
  mmu_translate w u va (us_mach s) = mmu_translate w false va (us_mach s).
Proof.
  intros Hr HU. pose proof (mmu_entries s l va Hr) as He. cbv zeta in He. unfold mmu_translate.
  destruct (Z.testbit _ 0) eqn:Hd in He; rewrite !has_P, Hd; [|done]. destruct He as [-> Hd2].
  destruct u; [|done]. rewrite !has_U, Hd2, HU. by cbn [implb andb].
Qed.

Lemma tlb_fault s l c w u va :
  uready s l → coherent s c → 0 ≤ va < KERNBASE → Z.testbit (upte s va) 0 = false →
  tlb_translate c w u va (us_mach s) = Err (EFault va).
Proof.
  intros Hr Hc Hva HP. unfold tlb_translate. destruct (c !! (va / 4096)) as [e|] eqn:E; [|by eapply translate_fault].
  destruct (Hc va e Hva E). congruence.
Qed.

(** ** A byte of a decrypted page *)

(** A translation: the frame of the page, and at most the accessed bit is set. *)
Lemma tlb_present s l c w u va :
  uready s l → coherent s c → user_page s va → Z.testbit (upte s va) 0 = true →
  ∃ m1 e', tlb_translate c w u va (us_mach s) = Ok (PTE_ADDR (upte s va) + va mod 4096, m1) ∧
    (e' = upte s va ∨ e' = Z.lor (upte s va) PTE_A) ∧
    page_step (p_pgdir (us_proc s)) va e' (ucontents s va) (us_mach s) l m1.
Proof.
  intros Hr Hc (Hva & Hu & HW) HP. apply andb_true_iff in Hu as [_ HU]. unfold tlb_translate.
  destruct (c !! (va / 4096)) as [e|] eqn:E.
  - destruct (Hc va e Hva E) as [_ ->]. cbn [cached te_w te_u te_frame]. rewrite HU, HW, !implb_true_r. cbn [andb].
    exists (us_mach s), (upte s va). split_and!; [done | by left |]. constructor; try done; try apply Hr.
    intros va' Hva'. destruct (Z.eqb_spec (va' / 4096) (va / 4096)) as [Ep|]; [|done].
    unfold upte. apply pte_page; [lia | unfold KERNBASE in *; lia | done].
  - destruct (translate_user w (us_mach s) (p_pgdir (us_proc s)) l va) as (m1 & Et & X); try done; try apply Hr.
    exists m1, (Z.lor (upte s va) PTE_A). rewrite (translate_mode s l) by done. split_and!; [done | by right | done].
Qed.

(** An access that leaves [c] in the page. *)
Lemma access_step s l va e' c s' :
  crypt_inv s l → user_page s va → Z.testbit (upte s va) 0 = true →
  (e' = upte s va ∨ e' = Z.lor (upte s va) PTE_A) → ustep va e' c s l s' →
  crypt_inv s' l ∧ no_looser s s' ∧ ∀ va', user_page s va' → user_page s' va' ∧
    plain s' va' = if va' / 4096 =? va / 4096 then c (va' mod 4096) else plain s va'.
Proof.
  intros Hc (Hva & Hu & HW) HP He Hst. pose proof (ci_ready _ _ Hc) as Hr. pose proof (ci_excl _ _ Hc va Hva HP) as HE.
  assert (mapped (upte s va) = true) as Hm by (unfold mapped; by rewrite HP).
  assert (PTE_ADDR e' = PTE_ADDR (upte s va)) as Ea by (destruct He as [->| ->]; [done | by apply PTE_ADDR_lor]).
  destruct (ustep_view _ _ _ _ _ _ Hr Hst Hva Hm Ea) as [V1 V2].
  assert (∀ va' k, 0 ≤ va' < KERNBASE → 0 ≤ k → k ≠ 5 → Z.testbit (upte s' va') k = Z.testbit (upte s va') k) as Hb.
  { intros va' k Hva' Hk Hk5. rewrite V1 by (unfold KERNBASE in *; lia).
    destruct (Z.eqb_spec (va' / 4096) (va / 4096)) as [Ep|]; [|done].
    rewrite (upte_page s va' va) by done. destruct He as [->| ->]; [done | by rewrite lor_A_bit by lia]. }
  assert (p_clock (us_proc s') = p_clock (us_proc s)) as Hq by (by destruct Hst as [-> _]).
  split; [by apply (crypt_inv_bits s); [| eapply ustep_ready | |] |]. split; [by apply no_looser_bits |].
  intros va' (Hva' & Hu' & HW'). split.
  { unfold user_page, user_ok, mapped in *. by rewrite !Hb by lia. }
  pose proof (Z.mod_pos_bound va' 4096 ltac:(lia)) as Ho. apply andb_true_iff in Hu' as [Hm' _].
  unfold plain. rewrite Hb, V2 by (done || lia). destruct (Z.eqb_spec (va' / 4096) (va / 4096)) as [Ep|]; [|done].
  by rewrite (upte_page s va' va), HE.
Qed.

Lemma load_present s l c u va :
  crypt_inv s l → coherent s c → user_page s va → Z.testbit (upte s va) 0 = true →
  wp (on_mach (mmu_load c u va)) s (λ r s', r = plain s va ∧ crypt_inv s' l ∧ no_looser s s' ∧ same_view s s').
Proof.
  intros Hc Hco Hp HP. pose proof Hp as (Hva & Hu & HW). pose proof (ci_ready _ _ Hc) as Hr.
  pose proof (ci_excl _ _ Hc va Hva HP) as HE.
  destruct (tlb_present s l c false u va) as (m1 & e' & E & He & X); [done.. |].
  apply wp_zoom. unfold mmu_load. apply wp_bind. eapply wp_intro; [exact E |]. apply wp_gets.
  destruct (access_step s l va e' (ucontents s va) (set_us_mach m1 s)) as (Hc' & Hl & Hv); [done.. |].
  pose proof (Z.mod_pos_bound va 4096 ltac:(lia)) as Ho. split_and!; [| done | done |].
  - unfold plain. rewrite HE. by apply X.
  - intros va' Hp'. destruct (Hv va' Hp') as [? ->]. split; [done |].
    destruct (Z.eqb_spec (va' / 4096) (va / 4096)) as [Ep|]; [|done]. destruct Hp' as (Hva' & _).
    unfold plain, ucontents, contents. fold (upte s va') (upte s va). by rewrite (upte_page s va' va), HE.
Qed.

(** [v] was stored at [va]. *)
Definition stored (s : ustate) (va v : Z) (s' : ustate) : Prop :=
  ∀ va', user_page s va' → user_page s' va' ∧ plain s' va' = if va' =? va then u8 v else plain s va'.

Lemma store_present s l c u va v :
  crypt_inv s l → coherent s c → user_page s va → Z.testbit (upte s va) 0 = true →
  wp (on_mach (mmu_store c u va v)) s (λ _ s', crypt_inv s' l ∧ no_looser s s' ∧ stored s va v s').
Proof.
  intros Hc Hco Hp HP. pose proof Hp as (Hva & Hu & HW). pose proof (ci_ready _ _ Hc) as Hr.
  pose proof (ci_excl _ _ Hc va Hva HP) as HE.
  destruct (tlb_present s l c true u va) as (m1 & e' & E & He & X); [done.. |].
  apply wp_zoom. unfold mmu_store. apply wp_bind. eapply wp_intro; [exact E |]. apply wp_modify.
  assert (PTE_ADDR e' = PTE_ADDR (upte s va)) as Ea by (destruct He as [->| ->]; [done | by apply PTE_ADDR_lor]).
  pose proof X as [B1 B2 _ _ B5 B6 _]. fold (upte s va) in B6.
  assert (pte (m_mem m1) (p_pgdir (us_proc s)) va = e') as P1 by (by rewrite B5, Z.eqb_refl by (unfold KERNBASE in *; lia)).
  pose proof (Z.mod_pos_bound va 4096 ltac:(lia)) as Ho.
  assert (mapped (pte (m_mem m1) (p_pgdir (us_proc s)) va) = true) as Hm1.
  { rewrite P1. assert (mapped (upte s va) = true) as Hm by (unfold mapped; by rewrite HP).
    destruct He as [->| ->]; [done | by rewrite mapped_lor_A]. }
  pose proof (write_page m1 (p_pgdir (us_proc s)) l va (va mod 4096) v B1 B2 Hva Hm1 Ho) as X3.
  cbv zeta in X3. rewrite P1, Ea in X3.
  pose proof (page_step_trans _ _ _ _ _ _ _ _ _ _ Hva Ea X X3) as X13.
  destruct (access_step s l va e' _ (set_us_mach _ s) Hc Hp HP He (conj eq_refl X13)) as (Hc' & Hl & Hv). split_and!; [done | done |].
  intros va' Hp'. destruct (Hv va' Hp') as [? ->]. split; [done |]. destruct Hp' as (Hva' & _).
  destruct (Z.eqb_spec (va' / 4096) (va / 4096)) as [Ep|Ep]; cycle 1.
  { destruct (Z.eqb_spec va' va) as [->|]; done. }
  pose proof (Z.mod_pos_bound va' 4096 ltac:(lia)) as Ho'.
  destruct (Z.eqb_spec (va' mod 4096) (va mod 4096)) as [Em|Em], (Z.eqb_spec va' va) as [->|]; try done; try zdiv.
  unfold contents at 1. rewrite P1, Ea, B6 by done. unfold plain, ucontents, contents.
  fold (upte s va') (upte s va). by rewrite (upte_page s va' va), HE.
Qed.

(** ** The page fault *)

Lemma first_byte s va :
  0 ≤ va < KERNBASE → Z.testbit (upte s va) 10 = true → plain s (pgbase va) ≠ 0xFF → ucontents s va 0 ≠ 0.
Proof.
  intros Hva HE Hpl E. apply Hpl. destruct (page_base va Hva) as (_ & Hb & Hal & Hpg).
  unfold plain, ucontents, contents in *. fold (upte s (pgbase va)) (upte s va) in *.
  by rewrite (upte_page s (pgbase va) va), HE, Hal, E.
Qed.

(** After the fault on [va] its page is decrypted, and the victim, if there
    was one, is encrypted. *)
Record opened (s : ustate) (va : Z) (s' : ustate) : Prop := Opened {
  o_clock : (p_clock (us_proc s') = p_clock (us_proc s) ∧ va ∈ p_clock (us_proc s)) ∨
    enters s va s' ∧ ∀ w, victim s w → upte s' w = enc_entry (upte s w);
  o_va k : 0 ≤ k → k ≠ 5 → Z.testbit (upte s' va) k = (Z.testbit (upte s va) k && negb (10 =? k)) || (0 =? k);
  o_other va' : 0 ≤ va' < KERNBASE → va' / 4096 ≠ va / 4096 → (∀ w, victim s w → va' / 4096 ≠ w / 4096) →
    upte s' va' = upte s va';
}.

Lemma victim_resident s l w : crypt_inv s l → victim s w → resident s w.
Proof.
  intros Hc [Hw0 Hw]. apply (ci_queue _ _ Hc); [apply list_elem_of_lookup; eauto |].
  intros ->. apply Hw0, list_elem_of_lookup. eauto.
Qed.

Lemma mdecrypt_opens s l va :
  crypt_inv s l → user_page s va → Z.testbit (upte s va) 10 = true → plain s (pgbase va) ≠ 0xFF →
  wp (mdecrypt va) s (λ r s', r = 0 ∧ uready s' l ∧ opened s va s' ∧
    ∀ va', 0 ≤ va' < KERNBASE → mapped (upte s va') = true →
      mapped (upte s' va') = true ∧ plain s' va' = plain s va').
Proof.
  intros Hc (Hva & Hu & HW) HE Hff. pose proof (ci_ready _ _ Hc) as Hr.
  apply andb_true_iff in Hu as [Hm HU]. pose proof (first_byte s va Hva HE Hff) as Hb0.
  assert (∀ w, victim s w → resident s w) as Hvic by (intros w Hw; by eapply victim_resident).
  eapply mdecrypt_run; [done.. |].
  intros s1 Hr1 Hin Hq Hbits Hc1 Hoth Hpl r s2. destruct (Z.eqb_spec (ucontents s va 0) 0); [done |]. intros [-> Hst].
  assert (Z.testbit (upte s1 va) 10 = true) as HE1 by (by rewrite Hbits by lia).
  assert (mapped (upte s1 va) = true) as Hm1 by (unfold mapped; by rewrite HE1, orb_true_r).
  destruct (ustep_open s1 l va s2) as (Hr2 & Hp2 & _ & _ & Ho2 & Hpl2); try done.
  assert (upte s2 va = open_entry (upte s1 va)) as P2.
  { destruct (dec_entry_facts (upte s1 va)) as (_ & Ea & _); [apply pte_range |].
    destruct (ustep_view _ _ _ _ _ _ Hr1 Hst Hva Hm1) as [V1 _].
    - unfold open_entry. by rewrite PTE_ADDR_lor, Ea by done.
    - by rewrite V1, Z.eqb_refl by (unfold KERNBASE in *; lia). }
  split_and!; try done.
  - constructor.
    + destruct Hq as [[-> ?]|[He Hv]]; [left; by rewrite Hp2 | right]. split.
      * destruct He as (j & c & ? & ? & ?). exists j, c. by rewrite Hp2.
      * intros w Hw. destruct (Hvic w Hw) as (Hwk & _ & _ & _ & HwE).
        rewrite Ho2; [by apply Hv | unfold KERNBASE in *; lia |]. intros E. rewrite (upte_page s w va) in HwE by done.
        congruence.
    + intros k Hk Hk5. rewrite P2, open_entry_bit, Hbits by lia. destruct (Z.eqb_spec 5 k); [lia |].
      by rewrite orb_false_r.
    + intros va' Hva' Hne Hn. unfold KERNBASE in *. rewrite Ho2 by (done || lia). apply Hoth; (done || lia).
  - intros va' Hva' Hm'. destruct (Hpl va' Hva' Hm') as [Hm'' Hpp].
    destruct (Hpl2 va' Hva' Hm'') as [? Hpp2]. split; [done | by rewrite Hpp2].
Qed.

Section Opened.
Context (s : ustate) (l : list Z) (va : Z) (s' : ustate).
Context (Hc : crypt_inv s l) (Hp : user_page s va) (HE : Z.testbit (upte s va) 10 = true).
Context (Ho : opened s va s').

Lemma victim_unique w w' : victim s w → victim s w' → w = w'.
Proof. intros [_ H1] [_ H2]. congruence. Qed.

(** The page is not in the queue before, page 0 apart. *)
Lemma opened_new c : c ∈ p_clock (us_proc s) → c ≠ 0 → c / 4096 ≠ va / 4096.
Proof using Hc Hp HE.
  clear Ho. intros Hin H0 E. destruct Hp as (Hva & _). destruct (ci_queue _ _ Hc c Hin H0) as (Hk & _ & _ & _ & HcE).
  rewrite (upte_page s c va) in HcE by done. congruence.
Qed.

Lemma opened_found : va ∈ p_clock (us_proc s) → va = 0 ∧ ∀ w, ¬ victim s w.
Proof using Hc Hp HE.
  clear Ho. intros Hin. destruct (decide (va = 0)) as [->|Hne]; [|by destruct (opened_new va Hin)].
  split; [done |]. by intros w [H0 _].
Qed.

Lemma opened_bits :
  user_ok (upte s' va) = true ∧ Z.testbit (upte s' va) 0 = true ∧
  Z.testbit (upte s' va) 1 = true ∧ Z.testbit (upte s' va) 10 = false.
Proof using Hp Ho.
  destruct Hp as (_ & Hu & HW). apply andb_true_iff in Hu as [_ HU]. unfold user_ok, mapped.
  rewrite !(o_va _ _ _ Ho), HU, HW, orb_true_r, andb_false_r by lia. done.
Qed.

(** Entries of the other pages. *)
Lemma opened_entry va' :
  0 ≤ va' < KERNBASE → va' / 4096 ≠ va / 4096 →
  upte s' va' = upte s va' ∧ (∀ w, victim s w → va' / 4096 ≠ w / 4096) ∨
  victim s (pgbase va') ∧ upte s' va' = enc_entry (upte s va').
Proof using Hc Hp HE Ho.
  intros Hva' Hne. destruct (page_base va' Hva') as (_ & Hbk & Hbal & Hbp). destruct Ho as [Oq _ Oo].
  destruct (decide (victim s (pgbase va'))) as [Hv|Hv].
  - right. split; [done |]. destruct Oq as [[_ Hin]|[_ Oq]]; [by destruct (proj2 (opened_found Hin) _ Hv) |].
    specialize (Oq _ Hv). by rewrite !(upte_page _ (pgbase va') va') in Oq by done.
  - left. assert (∀ w, victim s w → va' / 4096 ≠ w / 4096) as Hn; [|split; [by apply Oo | done]].
    intros w Hw E. apply Hv. destruct (victim_resident s l w Hc Hw) as (Hwk & Hwal & _).
    replace (pgbase va') with w; [done |]. unfold pgbase. zdiv.
Qed.

(** Slots of the queue: the new one, and those that stay. *)
Lemma opened_queue :
  (pgbase va = 0 ∨ pgbase va ∈ p_clock (us_proc s')) ∧
  ∃ j, (∀ i c, p_clock (us_proc s') !! i = Some c → c ≠ 0 →
         i = j ∧ c = pgbase va ∨ p_clock (us_proc s) !! i = Some c ∧ ¬ victim s c) ∧
       (∀ c, c ∈ p_clock (us_proc s) → c ≠ 0 → ¬ victim s c → c ∈ p_clock (us_proc s')).
Proof using Hc Hp HE Ho.
  destruct Hp as (Hva & _). destruct (page_base va Hva) as (Eb & Hbk & Hbal & Hbp).
  destruct Ho as [[[Eq Hin]|[He _]] _ _].
  - destruct (opened_found Hin) as [-> Hn]. split; [by left |]. exists 0%nat. rewrite Eq. split; [|done].
    intros i c Hi _. right. split; [done | apply Hn].
  - split; [right; rewrite <- Eb; by eapply enters_elem |]. destruct He as (j & c0 & Hj & Hc0 & Eq).
    exists j. rewrite Eq, <- Eb. split.
    + intros i c Hi H0. apply list_lookup_insert_Some in Hi as [(-> & <- & _)|[Hne Hi]]; [by left |].
      right. split; [done |]. intros Hv. destruct Hc0 as [->|Hc0].
      * destruct Hv as [Hv _]. apply Hv, list_elem_of_lookup. eauto.
      * rewrite (victim_unique _ _ Hc0 Hv) in Hj. by apply Hne, (ci_once _ _ Hc _ _ c).
    + intros c (i & Hi)%list_elem_of_lookup H0 Hv. apply list_elem_of_lookup. exists i.
      rewrite list_lookup_insert_ne; [done |]. intros ->. destruct Hc0 as [->|Hc0]; congruence.
Qed.

(** The queue and the page table still agree. *)
Lemma opened_inv : uready s' l → crypt_inv s' l.
Proof using Hc Hp HE Ho.
  intros Hr'. destruct opened_bits as (Bu & B0 & B1 & B10). destruct opened_queue as (Q0 & j & Qi & Qk).
  pose proof Hp as (Hva & Hu & HW). destruct (page_base va Hva) as (Eb & Hbk & Hbal & Hbp).
  assert (∀ i c, p_clock (us_proc s) !! i = Some c → c ≠ 0 → resident s c) as Hres.
  { intros i c Hi. apply (ci_queue _ _ Hc), list_elem_of_lookup. eauto. }
  constructor; [done | | |].
  - intros c (i & Hi)%list_elem_of_lookup H0. destruct (Qi i c Hi H0) as [[_ ->]|[Hi' Hnv]].
    + unfold resident. by rewrite (upte_page s' (pgbase va) va).
    + pose proof (Hres i c Hi' H0) as (Hk & Hal & Hrest). unfold resident.
      destruct (opened_entry c Hk) as [[-> _]|[Hv _]]; [|done|].
      * apply opened_new; [|done]. apply list_elem_of_lookup. eauto.
      * destruct Hnv. replace c with (pgbase c); [done |]. unfold pgbase. zdiv.
  - intros i i' c Hi Hi' H0. destruct (Qi i c Hi H0) as [[-> Ec]|[H1 _]], (Qi i' c Hi' H0) as [[-> Ec']|[H2 _]]; try subst c.
    + done.
    + destruct (opened_new (pgbase va)); [|done..]. apply list_elem_of_lookup. eauto.
    + destruct (opened_new (pgbase va)); [|done..]. apply list_elem_of_lookup. eauto.
    + by apply (ci_once _ _ Hc _ _ c).
  - intros va' Hva' H0. destruct (decide (va' / 4096 = va / 4096)) as [E|E]; [by rewrite (upte_page s' va' va) |].
    destruct (opened_entry va' Hva' E) as [[Eq _]|[_ Eq]]; rewrite Eq in *; [by apply (ci_excl _ _ Hc) |].
    by rewrite enc_entry_bit, andb_false_r in H0.
Qed.

(** The page decrypted is in the queue, and a page leaves the queue encrypted. *)
Lemma opened_loose : no_looser s s'.
Proof using Hc Hp HE Ho.
  destruct opened_queue as (Q0 & _ & _ & Qk). intros va' [(Hva' & Hal & Hu' & H10) Hin].
  assert (pgbase va' = va') as Eb by (unfold pgbase; zdiv).
  destruct (decide (va' / 4096 = va / 4096)) as [E|E].
  { assert (pgbase va = va') as Ev by (unfold pgbase; zdiv). rewrite Ev in Q0. destruct Q0; [lia | done]. }
  destruct (opened_entry va' ltac:(lia) E) as [[Eq Hn]|[_ Eq]]; rewrite Eq in *.
  - split; [done |]. intros Hq. apply Hin, Qk; [done | lia |]. intros Hv. by apply (Hn va').
  - by rewrite enc_entry_bit, orb_true_r in H10 by lia.
Qed.

End Opened.

Lemma opened_view s l va s' :
  crypt_inv s l → user_page s va → Z.testbit (upte s va) 10 = true → opened s va s' →
  ∀ va', user_page s va' → mapped (upte s' va') = true → user_page s' va'.
Proof.
  intros Hc Hp HE Ho va' (Hva' & Hu' & HW') Hm'. destruct (opened_bits s va s' Hp Ho) as (Bu & _ & B1 & _).
  pose proof Hp as (Hva & _). unfold user_page, user_ok in *. rewrite Hm'.
  destruct (decide (va' / 4096 = va / 4096)) as [E|E].
  - rewrite (upte_page s' va' va) by done. by apply andb_true_iff in Bu as [_ ->].
  - apply andb_true_iff in Hu' as [_ HU']. destruct (opened_entry s l va s' Hc Hp HE Ho va' Hva' E) as [[-> _]|[_ ->]].
    + by rewrite HU', HW'.
    + by rewrite !enc_entry_bit, HU', HW' by lia.
Qed.

(** ** Accesses with page faults *)

Lemma wp_faulting {A} (c : M ustate A) s va Q :
  c s = Err (EFault va) → wp (mdecrypt va) s (λ r s', r = 0 ∧ wp c s' Q) → wp (faulting c) s Q.
Proof. unfold wp, faulting. intros ->. destruct (mdecrypt va s) as [[r s']|]; [|done]. by intros [-> H]. Qed.

Lemma wp_no_fault {A} (c : M ustate A) s Q : wp c s Q → wp (faulting c) s Q.
Proof. unfold wp, faulting. by destruct (c s) as [[]|]. Qed.

(** An access that works on a decrypted page works on any page, up to what
    the process sees. *)
Lemma access_any {A} (c : M ustate A) s l va (Q : A → ustate → Prop) :
  crypt_inv s l → user_page s va → plain s (pgbase va) ≠ 0xFF →
  (uready s l → Z.testbit (upte s va) 0 = false → c s = Err (EFault va)) →
  (∀ t, crypt_inv t l → no_looser s t → same_view s t → Z.testbit (upte t va) 0 = true → wp c t Q) →
  wp (faulting c) s Q.
Proof.
  intros Hc Hp Hff Hfault Hok. pose proof Hp as (Hva & Hu & HW).
  destruct (Z.testbit (upte s va) 0) eqn:HP.
  { apply wp_no_fault, Hok; [done | by intros va' ? | by intros va' ? | done]. }
  assert (Z.testbit (upte s va) 10 = true) as HE.
  { apply andb_true_iff in Hu as [Hm _]. unfold mapped in Hm. by rewrite HP in Hm. }
  eapply wp_faulting; [by apply Hfault; [apply Hc |] |].
  eapply wp_mono; [by apply (mdecrypt_opens s l) |]. intros r t (-> & Hr' & Ho & Hpl). split; [done |].
  apply Hok; [by apply (opened_inv s l va) | by apply (opened_loose s l va) | | by apply (opened_bits s va t Hp)].
  intros va' Hp'. pose proof Hp' as (Hva' & Hu' & _). apply andb_true_iff in Hu' as [Hm' _].
  destruct (Hpl va' Hva' Hm') as [? ->]. split; [by apply (opened_view s l va t) | done].
Qed.

(** The access [c] with what the cache [C] holds then. *)
Definition via {A} (C : ustate → tlb) (c : tlb → M mach A) : M ustate A := λ s, on_mach (c (C s)) s.

Lemma via_fault {A} C (c : tlb → M mach A) s va :
  c (C s) (us_mach s) = Err (EFault va) → via C c s = Err (EFault va).
Proof. unfold via, on_mach, zoom. by intros ->. Qed.

Lemma load_any C s l u va :
  (∀ t, coherent t (C t)) → crypt_inv s l → user_page s va → plain s (pgbase va) ≠ 0xFF →
  wp (faulting (via C (λ c, mmu_load c u va))) s
    (λ r s', r = plain s va ∧ crypt_inv s' l ∧ no_looser s s' ∧ same_view s s').
Proof.
  intros HC Hc Hp Hff. pose proof Hp as (Hva & _). apply (access_any _ s l va); [done.. | |].
  - intros Hr HP. apply via_fault. unfold mmu_load. by erewrite bind_err by (by eapply tlb_fault).
  - intros t Ht Hl Hv HP. destruct (Hv va Hp) as [Hp' Epl]. unfold wp, via. eapply (wp_mono _ t); [by apply (load_present t l) |].
    intros r t' (-> & Hc' & Hl' & Hv'). split_and!; [done | done | intros a Ha; auto | by eapply same_view_trans].
Qed.

Lemma store_any C s l u va v :
  (∀ t, coherent t (C t)) → crypt_inv s l → user_page s va → plain s (pgbase va) ≠ 0xFF →
  wp (faulting (via C (λ c, mmu_store c u va v))) s (λ _ s', crypt_inv s' l ∧ no_looser s s' ∧ stored s va v s').
Proof.
  intros HC Hc Hp Hff. pose proof Hp as (Hva & _). apply (access_any _ s l va); [done.. | |].
  - intros Hr HP. apply via_fault. unfold mmu_store. by erewrite bind_err by (by eapply tlb_fault).
  - intros t Ht Hl Hv HP. destruct (Hv va Hp) as [Hp' Epl]. unfold wp, via. eapply (wp_mono _ t); [by apply (store_present t l) |].
    intros _ t' (Hc' & Hl' & Hs'). split_and!; [done | intros a Ha; auto |]. intros va' Hp0. destruct (Hv va' Hp0) as [Hp1 E1].
    destruct (Hs' va' Hp1) as [? ->]. by rewrite E1.
Qed.

(** ** Runs of accesses *)

Inductive uop : Type :=
| ULoad (va : Z)
| UStore (va v : Z).

(** The accesses of a program, in user mode or by the kernel on its behalf,
    and the values its loads return.  [C i s] is what the cache holds at the
    [i]-th access in state [s], also when the access is made again after a
    page fault. *)
Fixpoint run_uops (u : bool) (C : nat → ustate → tlb) (ops : list uop) : M ustate (list Z) :=
  match ops with
  | [] => mret []
  | ULoad va :: ops =>
    b ← faulting (via (C 0%nat) (λ c, mmu_load c u va)); bs ← run_uops u (λ i, C (S i)) ops; mret (b :: bs)
  | UStore va v :: ops => faulting (via (C 0%nat) (λ c, mmu_store c u va v));; run_uops u (λ i, C (S i)) ops
  end.

(** The same on a memory without encryption. *)
Fixpoint plain_uops (f : Z → Z) (ops : list uop) : list Z :=
  match ops with
  | [] => []
  | ULoad va :: ops => f va :: plain_uops f ops
  | UStore va v :: ops => plain_uops (λ a, if a =? va then u8 v else f a) ops
  end.

(** Accesses to pages of the process that never put 0xFF at the start of a
    page. *)
Definition uop_ok (D : Z → Prop) (o : uop) : Prop :=
  match o with
  | ULoad va => D va
  | UStore va v => D va ∧ (va mod 4096 = 0 → u8 v ≠ 0xFF)
  end.

Definition no_ff (s : ustate) : Prop := ∀ va, user_page s va → va mod 4096 = 0 → plain s va ≠ 0xFF.

Lemma base_page s va : user_page s va → user_page s (pgbase va) ∧ pgbase va mod 4096 = 0.
Proof.
  intros (Hva & Hu & HW). destruct (page_base va Hva) as (_ & Hb & Hal & Hpg). split; [|done].
  unfold user_page. by rewrite (upte_page s (pgbase va) va).
Qed.

(** On the addresses [D] the process sees the memory [f]. *)
Definition sees (D : Z → Prop) (f : Z → Z) (s : ustate) : Prop :=
  ∀ va, D va → user_page s va ∧ D (pgbase va) ∧ pgbase va mod 4096 = 0 ∧ plain s va = f va ∧
    (va mod 4096 = 0 → f va ≠ 0xFF).

Lemma run_uops_plain D u C ops s l f :
  (∀ i t, coherent t (C i t)) → crypt_inv s l → sees D f s → Forall (uop_ok D) ops →
  wp (run_uops u C ops) s (λ r s', r = plain_uops f ops ∧ crypt_inv s' l ∧ no_looser s s').
Proof.
  revert C s f. induction ops as [|[va|va v] ops IH]; intros C s f HC Hc Hs Ho; cbn [run_uops plain_uops].
  - apply wp_ret. split_and!; [done | done | by intros a].
  - apply list.Forall_cons in Ho as [Hd Ho]. destruct (Hs va Hd) as (Hp & Hb & Hal & Ef & _).
    destruct (Hs _ Hb) as (_ & _ & _ & Eb & Hff).
    apply wp_bind. eapply wp_mono; [apply (load_any (C 0%nat) s l); try done; rewrite Eb; auto |].
    intros r t (-> & Hc' & Hl & Hv). apply wp_bind. eapply wp_mono.
    { apply (IH (λ i, C (S i)) t f); [done | done | | done]. intros a Ha. destruct (Hs a Ha) as (Hpa & ? & ? & <- & ?).
      destruct (Hv a Hpa) as [? ->]. done. }
    intros r t' (-> & Hc'' & Hl'). apply wp_ret. rewrite Ef. split_and!; [done | done | intros a Ha; auto].
  - apply list.Forall_cons in Ho as [[Hd Hvff] Ho]. destruct (Hs va Hd) as (Hp & Hb & Hal & Ef & _).
    destruct (Hs _ Hb) as (_ & _ & _ & Eb & Hff).
    apply wp_bind. eapply wp_mono; [apply (store_any (C 0%nat) s l); try done; rewrite Eb; auto |].
    intros _ t (Hc' & Hl & Hst). eapply wp_mono.
    { apply (IH (λ i, C (S i)) t); [done | done | | done]. intros a Ha. destruct (Hs a Ha) as (Hpa & ? & ? & Efa & ?).
      destruct (Hst a Hpa) as [? ->]. rewrite Efa. split_and!; try done.
      cbv beta. destruct (Z.eqb_spec a va) as [->|]; done. }
    intros r t' (-> & Hc'' & Hl'). split_and!; [done | done | intros a Ha; auto].
Qed.

End Access.
