(* ===== verification/VmProps.v ===== *)
(** * Memory management: what the kernel promises

    The locks, the page allocator and address spaces.  Each theorem is
    followed by an instance on the machine of [Sample]. *)

From S2P Require Import Prelude Mmu Mem Spinlock Kalloc Vm VmSpec VmUser VmKern VmCopy ProcDefs Crypt CryptSpec ClockSpec Sample.

(** ** Locks *)

(** C16. Mutual exclusion: in every interleaving of any number of CPUs at most
    one of them is between the end of [acquire]'s loop and the end of
    [release], the lock is marked as taken then, and that CPU runs with
    interrupts off. *)
Theorem lock_mutual_exclusion s i j :
  Smp.reachable s → Smp.owner (Smp.sm_pc s i) = true →
  locked (Smp.sm_lk s) = true ∧ eflags_if (Smp.sm_cpu s i) = false ∧
  (Smp.owner (Smp.sm_pc s j) = true → i = j).
Proof.
  intros Hr Hi. apply Smp.reachable_inv in Hr as [Hc Hn Ho Hl _].
  split; [by eapply Hl | split]; [|by apply Ho].
  destruct (Hc i) as [_ [_ Hif]]. apply Hif, Hn. by destruct (Smp.sm_pc s i).
Qed.

Definition smp0 : Smp.smp := Smp.Smp (λ _, Smp.Idle) (λ i, Cpu i true 0 false) Spin.initlock.
Definition smp1 : Smp.smp :=
  Smp.Smp (Smp.upd (Smp.sm_pc smp0) 0 Smp.Spinning) (Smp.upd (Smp.sm_cpu smp0) 0 (Cpu 0 false 1 true)) Spin.initlock.
Definition smp2 : Smp.smp :=
  Smp.Smp (Smp.upd (Smp.sm_pc smp1) 0 Smp.Got) (Smp.upd (Smp.sm_cpu smp1) 0 (Cpu 0 false 1 true)) (Lock true None).

Lemma smp2_reachable : Smp.reachable smp2.
Proof.
  exists smp0. split; [done |]. eapply rtc_l; [eapply (Smp.step_enter _ _ 0); [done |] |].
  { exists (Cpu 0 false 1 true), Spin.initlock. by split. }
  apply rtc_once, (Smp.step_got _ _ 0); [done |]. exists (Cpu 0 false 1 true), (Lock true None). by split.
Qed.

Lemma lock_mutual_exclusion_witness :
  locked (Smp.sm_lk smp2) = true ∧ eflags_if (Smp.sm_cpu smp2 0) = false ∧
  (Smp.owner (Smp.sm_pc smp2 1) = true → 0 = 1).
Proof. apply (lock_mutual_exclusion smp2 0 1); [apply smp2_reachable | reflexivity]. Defined.

(** [pushcli] and [popcli] nest: after any number of [pushcli]s the same
    number of [popcli]s succeeds and gives back the interrupt flag and the
    nesting depth there was before. *)
Theorem cli_nests n c :
  Spin.cpu_ok c → (0 < n)%nat →
  ∃ c', (Spin.times n Spin.pushcli;; Spin.times n Spin.popcli) c = Ok (tt, c') ∧
        eflags_if c' = eflags_if c ∧ ncli c' = ncli c ∧ (0 < ncli c → intena c' = intena c).
Proof. intros Hc Hn. destruct (Spin.push_pop n c Hc Hn) as (c' & H & ? & ? & _ & ?). by exists c'. Qed.

Lemma cli_nests_witness :
  ∃ c', (Spin.times 3 Spin.pushcli;; Spin.times 3 Spin.popcli) scpu = Ok (tt, c') ∧
        eflags_if c' = eflags_if scpu ∧ ncli c' = ncli scpu ∧ (0 < ncli scpu → intena c' = intena scpu).
Proof. apply (cli_nests 3 scpu); [done | lia]. Defined.

(** ** The page allocator *)

(** After [kinit1] and [kinit2] the free list holds every page from the
    end of the kernel to the end of physical memory, once each, and the
    allocator locks from then on. *)
Theorem kinit_frees_all {L : Linker} s :
  freelist (m_kmem s) = 0 → Spin.cpu_ok (m_cpu s) →
  wp (kinit1 k_end (P2V (4 * 1024 * 1024));; kinit2 (P2V (4 * 1024 * 1024)) (P2V PHYSTOP)) s
    (λ _ s', use_lock (m_kmem s') = true ∧ ∃ l, kalloc_inv s' l ∧
       ∀ q, q ∈ l ↔ q mod 4096 = 0 ∧ k_end ≤ q ∧ q + 4096 ≤ KERNBASE + PHYSTOP).
Proof. apply kinit_spec. Qed.

Definition smach0 : mach := Mach ∅ 0 scpu (Tss 0 0 0) (Kmem (Lock false None) false 0) 0.

Lemma kinit_frees_all_witness :
  wp (kinit1 k_end (P2V (4 * 1024 * 1024));; kinit2 (P2V (4 * 1024 * 1024)) (P2V PHYSTOP)) smach0
    (λ _ s', use_lock (m_kmem s') = true ∧ ∃ l, kalloc_inv s' l ∧
       ∀ q, q ∈ l ↔ q mod 4096 = 0 ∧ k_end ≤ q ∧ q + 4096 ≤ KERNBASE + PHYSTOP).
Proof. apply (kinit_frees_all smach0); done. Defined.

(** A page given to [kfree] is the next one [kalloc] returns.  The
    allocator is then as it was, and no memory outside the page was written. *)
Theorem kfree_kalloc {L : Linker} s l v :
  kalloc_inv s l → page_ok v → v ∉ l →
  wp (kfree v;; kalloc) s (λ r s', r = v ∧ kalloc_inv s' l ∧ same_hw s s' ∧
    ∀ x, ¬ in_page v x → rd (m_mem s') x = rd (m_mem s) x).
Proof.
  intros Hk Hv Hn. apply wp_bind. eapply wp_mono; [by apply kfree_spec |].
  intros _ s1 (Hk1 & Hh1 & Hm1). eapply wp_mono; [by apply kalloc_spec |].
  intros r s2 (Hm & Hh2 & -> & Hk2). split_and!; [done | done | by etrans |]. by rewrite Hm.
Qed.

Lemma kfree_kalloc_witness :
  let s := smach (smem 1 e_present 7) in
  wp (kfree sf;; kalloc) s (λ r s', r = sf ∧ kalloc_inv s' [sp] ∧ same_hw s s' ∧
    ∀ x, ¬ in_page sf x → rd (m_mem s') x = rd (m_mem s) x).
Proof.
  intros s. apply (kfree_kalloc s [sp] sf); [by apply smach_inv | apply spages |].
  by rewrite list_elem_of_singleton.
Defined.

(** ** Address spaces *)

(** [setupkvm] makes a directory that maps exactly the kernel's areas of
    [kmap] and no user page, out of free pages of which none is lost; or it
    returns null and every page is back in the free list. *)
Theorem setupkvm_correct {L : Linker} s l :
  kalloc_inv s l →
  wp setupkvm s (λ r s',
    (r = 0 ∧ nothing_done s l s') ∨
    (r ≠ 0 ∧ ∃ l', new_dir r (λ va, kview kmap va 0) s l s' l')).
Proof. apply setupkvm_spec. Qed.

Lemma setupkvm_correct_witness :
  wp setupkvm (smach (smem 1 e_present 7)) (λ r s',
    (r = 0 ∧ nothing_done (smach (smem 1 e_present 7)) [sp] s') ∨
    (r ≠ 0 ∧ ∃ l', new_dir r (λ va, kview kmap va 0) (smach (smem 1 e_present 7)) [sp] s' l')).
Proof. apply (setupkvm_correct (smach (smem 1 e_present 7)) [sp]). by apply smach_inv. Defined.



(** [deallocuvm] removes exactly the pages of the range that are mapped,
    encrypted ones included: their entries are cleared and their frames
    are in the free list; nothing else changes. *)
Theorem deallocuvm_correct {L : Linker} s pgdir l oldsz newsz :
  kalloc_inv s l → aspace (m_mem s) pgdir l → 0 ≤ newsz < oldsz → oldsz ≤ KERNBASE →
  wp (deallocuvm pgdir oldsz newsz) s (λ r s', r = newsz ∧
    ∃ k, frees pgdir (PGROUNDUP newsz) oldsz s l s' k).
Proof. apply deallocuvm_spec. Qed.

Lemma deallocuvm_correct_witness :
  let s := smach (smem 1 e_crypt 7) in
  wp (deallocuvm sd 8192 100) s (λ r s', r = 100 ∧ ∃ k, frees sd (PGROUNDUP 100) 8192 s [sp] s' k).
Proof. intros s. apply (deallocuvm_correct s sd [sp]); [by apply smach_inv | apply smem_aspace; [lia | apply sentries] | done | done]. Defined.

(** Growing an address space and shrinking it again gives the old page
    table back: when [allocuvm] succeeds, [deallocuvm] to the old size leaves
    every entry outside the range as it was and unmaps the range, and
    every page that was free is free again or serves as a page table. *)
Theorem alloc_dealloc {L : Linker} s l pgdir oldsz newsz :
  kalloc_inv s l → aspace (m_mem s) pgdir l → 0 ≤ oldsz < newsz → newsz < KERNBASE →
  (∀ va, PGROUNDUP oldsz ≤ pgbase va < newsz → mapped (pte (m_mem s) pgdir va) = false) →
  wp (r ← allocuvm pgdir oldsz newsz; if r =? 0 then mret 0 else deallocuvm pgdir newsz oldsz) s
    (λ r s', (r = 0 ∨ r = oldsz) ∧ ∃ l', kalloc_inv s' l' ∧ aspace (m_mem s') pgdir l' ∧
      (∀ va, 0 ≤ va < 2 ^ 32 → pte (m_mem s') pgdir va = pte (m_mem s) pgdir va ∨
         mapped (pte (m_mem s') pgdir va) = false ∧ mapped (pte (m_mem s) pgdir va) = false) ∧
      (∀ p, p ∈ l → p ∈ l' ∨ is_table (m_mem s') pgdir p)).
Proof.
  intros Hk Ha Ho Hn Hfree. apply wp_bind. eapply wp_mono; [apply (allocuvm_spec s l); auto; lia |].
  intros r s1 (l1 & [[-> X]|[-> X]]).
  2:{ apply wp_ret. split; [by left |]. exists l1. split_and!; [apply X | apply X | |].
      - intros va Hva. destruct (decide (PGROUNDUP oldsz ≤ pgbase va < newsz)) as [Hr|Hr].
        + right. split; [by apply X | by apply Hfree].
        + left. by apply X.
      - intros p Hp. destruct (u_leak _ _ _ _ _ _ _ _ X p Hp) as [?|[Hh|?]]; auto. by apply elem_of_nil in Hh. }
  destruct (Z.eqb_spec newsz 0); [lia |].
  eapply wp_mono; [apply (deallocuvm_spec s1 pgdir l1); [apply X | apply X | lia | lia] |].
  intros r s2 (-> & k & F). split; [by right |]. exists (k ++ l1). split_and!; [apply F | apply F | |].
  - intros va Hva. rewrite (f_pte _ _ _ _ _ _ _ F) by done.
    destruct (decide (PGROUNDUP oldsz ≤ pgbase va < newsz)) as [Hr|Hr].
    + right. split; [|by apply Hfree]. case_cmp; try lia. cbn [andb]. by destruct (mapped (pte (m_mem s1) pgdir va)) eqn:E.
    + left. case_cmp; try lia; cbn [andb]; by apply X.
  - intros p Hp. destruct (e_leak _ _ _ _ _ _ _ _ X p Hp) as [?|[Hh|[[->|[i Ht]]|(v & Hv & Hs)]]].
    + left. rewrite list.elem_of_app. by right.
    + by apply elem_of_nil in Hh.
    + right. by left.
    + right. right. exists i. by rewrite (f_tab _ _ _ _ _ _ _ F).
    + left. rewrite list.elem_of_app. left. apply (f_freed _ _ _ _ _ _ _ F). by exists v.
Qed.

Lemma alloc_dealloc_witness :
  let s := smach (smem 1 e_crypt 7) in
  wp (r ← allocuvm sd 8192 12000; if r =? 0 then mret 0 else deallocuvm sd 12000 8192) s
    (λ r s', (r = 0 ∨ r = 8192) ∧ ∃ l', kalloc_inv s' l' ∧ aspace (m_mem s') sd l' ∧
      (∀ va, 0 ≤ va < 2 ^ 32 → pte (m_mem s') sd va = pte (m_mem s) sd va ∨
         mapped (pte (m_mem s') sd va) = false ∧ mapped (pte (m_mem s) sd va) = false) ∧
      (∀ p, p ∈ [sp] → p ∈ l' ∨ is_table (m_mem s') sd p)).
Proof.
  intros s. apply (alloc_dealloc s [sp] sd 8192 12000); [by apply smach_inv | apply smem_aspace; [lia | apply sentries] | done | done |].
  intros va [H1 H2]. change (PGROUNDUP 8192) with 8192 in H1. unfold pgbase in *.
  assert (va / 4096 = 2) as E by zdiv. simpl. rewrite smem_pte by (done || zdiv). by rewrite E.
Defined.

(** C25. [freevm] gives back every page of an address space, the directory, its
    tables and its frames, once each, and touches no other page. *)
Theorem freevm_correct {L : Linker} s l pgdir :
  kalloc_inv s l → aspace (m_mem s) pgdir l →
  wp (freevm pgdir) s (λ _ s', ∃ k, kalloc_inv s' (k ++ l) ∧ same_hw s s' ∧
    (∀ p, p ∈ k ↔ ∃ sl, slot_page (m_mem s) pgdir sl = Some p) ∧
    (∀ p x, page_ok p → p ∉ k → in_page p x → rd (m_mem s') x = rd (m_mem s) x)).
Proof. apply freevm_spec. Qed.

Lemma freevm_correct_witness :
  let s := smach (smem 1 e_crypt 7) in
  wp (freevm sd) s (λ _ s', ∃ k, kalloc_inv s' (k ++ [sp]) ∧ same_hw s s' ∧
    (∀ p, p ∈ k ↔ ∃ sl, slot_page (m_mem s) sd sl = Some p) ∧
    (∀ p x, page_ok p → p ∉ k → in_page p x → rd (m_mem s') x = rd (m_mem s) x)).
Proof. intros s. apply (freevm_correct s [sp] sd); [by apply smach_inv | apply smem_aspace; [lia | apply sentries]]. Defined.

(** C17. [copyuvm], the memory part of [fork], gives the child a directory with
    the kernel's mappings and, page by page, a copy of the parent's memory
    under the same flags, so that encrypted pages stay encrypted; or it
    returns null with nothing allocated.  The parent is not touched. *)
Theorem copyuvm_correct {L : Linker} pgdir sz s l :
  kalloc_inv s l → aspace (m_mem s) pgdir l → 0 ≤ sz ≤ KERNBASE →
  (∀ va, 0 ≤ va → pgbase va < sz → mapped (pte (m_mem s) pgdir va) = true) →
  wp (copyuvm pgdir sz) s (λ r s',
    (r = 0 ∧ nothing_done s l s') ∨ (r ≠ 0 ∧ ∃ l', copied r pgdir sz s l s' l' [] 0)).
Proof. apply copyuvm_spec. Qed.

Lemma copyuvm_correct_witness :
  let s := smach (smem 0 e_crypt 7) in
  wp (copyuvm sd 4096) s (λ r s',
    (r = 0 ∧ nothing_done s [sp] s') ∨ (r ≠ 0 ∧ ∃ l', copied r sd 4096 s [sp] s' l' [] 0)).
Proof.
  intros s. apply (copyuvm_correct sd 4096 s [sp]); [by apply smach_inv | apply smem_aspace; [lia | apply sentries] | done |].
  intros va Hva Hb. unfold pgbase in Hb. assert (va / 4096 = 0) as E by zdiv.
  simpl. rewrite smem_pte by (done || zdiv). by rewrite E.
Defined.
