(* ===== verification/CryptProps.v ===== *)
(** * Page encryption: what a process can rely on

    Properties of [mencrypt], [mdecrypt] and the clock queue, on the machine
    of [Sample] where an instance is given. *)

From S2P Require Import Prelude Mmu Mem Spinlock Kalloc Vm VmSpec VmUser VmKern ProcDefs Crypt CryptSpec ClockSpec Sample Kernel Exec Access.

(** ** The sample process *)

Lemma suser e b clock va :
  sentry e → user_ok e = true → Z.testbit e 1 = true →
  user_page (sstate e b clock) va ↔ va / 4096 = 1.
Proof.
  intros [He _] Hu HW. unfold user_page, KERNBASE. split.
  - intros (Hva & Hu' & _). rewrite supte in Hu' by lia. by destruct (Z.eqb_spec (va / 4096) 1).
  - intros E. assert (0 ≤ va < 0x80000000) as Hva by zdiv. split; [done |].
    rewrite supte, E by lia. done.
Qed.

Lemma scrypt_user b va : user_page (sstate e_crypt b no_clock) va ↔ va / 4096 = 1.
Proof. apply suser; [apply sentries | reflexivity..]. Qed.

Lemma scrypt_pte b clock va :
  0 ≤ va < 2 ^ 32 → upte (sstate e_crypt b clock) va = if va / 4096 =? 1 then e_crypt else 0.
Proof. apply supte, sentries. Qed.

Lemma scrypt b : crypt_inv (sstate e_crypt b no_clock) [sp].
Proof.
  constructor.
  - apply sready; [apply sentries | done |]. by repeat constructor.
  - intros c Hc H0. simpl in Hc. by apply elem_of_replicate in Hc as [-> _].
  - intros i j c Hi _ H0. simpl in Hi. by apply lookup_replicate in Hi as [-> _].
  - intros va Hva. unfold KERNBASE in Hva. rewrite scrypt_pte by lia. by case_match.
Qed.

(** Its first byte. *)
Lemma sfirst b clock va :
  0 ≤ b < 256 → va / 4096 = 1 → ucontents (sstate e_crypt b clock) va 0 = b.
Proof.
  intros Hb Hva. unfold ucontents, contents. fold (upte (sstate e_crypt b clock) va).
  rewrite scrypt_pte, Hva by zdiv. change (PTE_ADDR (if 1 =? 1 then e_crypt else 0) + 0) with (V2P sf).
  simpl. unfold smem. by rewrite rd_wr, u8_id.
Qed.

Lemma splain b clock : 0 ≤ b < 256 → plain (sstate e_crypt b clock) 0x1000 = Z.lxor b 0xFF.
Proof.
  intros Hb. unfold plain. rewrite scrypt_pte by lia. change (0x1000 mod 4096) with 0. by rewrite sfirst.
Qed.

Lemma sno_ff b : 0 < b < 256 → no_ff (sstate e_crypt b no_clock).
Proof.
  intros Hb va Hp Hal. apply scrypt_user in Hp. replace va with 0x1000 by zdiv.
  rewrite splain, flip_eq by lia. lia.
Qed.

(** ** Transparency *)

(** C1. Encryption is transparent to loads and stores, under three conditions: no
    page starts with the byte 0xFF, neither before the run nor by a store of
    it; the process is the one of the page directory in use, with a queue that
    agrees with its page table; and at every access the translation cache
    holds no translation but those in the page table.  Then any sequence of
    loads and stores to writable pages of the process, in user mode or by the
    kernel, whose page faults [mdecrypt] serves, evicting and encrypting other
    pages as it goes, returns what it would return on a memory without
    encryption, and the queue agrees with the page table afterwards. *)
Theorem encryption_transparent {L : Linker} u C ops s l :
  (∀ i t, coherent t (C i t)) → crypt_inv s l → no_ff s → Forall (uop_ok (user_page s)) ops →
  wp (run_uops u C ops) s (λ r s', r = plain_uops (plain s) ops ∧ crypt_inv s' l).
Proof.
  intros HC Hc Hn Ho. eapply wp_mono; [apply (run_uops_plain (user_page s) u C ops s l (plain s)); [done | done | | done] |].
  - intros va Hp. destruct (base_page s va Hp). split_and!; try done. by apply Hn.
  - by intros r s' (-> & Hc' & _).
Qed.

(** A cache that holds the translation of page 1 whenever the page is present. *)
Definition page1_cache (s : ustate) : tlb :=
  if Z.testbit (upte s 0x1000) 0 then {[ 1 := cached (upte s 0x1000) ]} else ∅.

Lemma page1_coherent s : coherent s (page1_cache s).
Proof.
  intros va e Hva. unfold page1_cache. destruct (Z.testbit (upte s 0x1000) 0) eqn:HP; [|by rewrite lookup_empty].
  intros [E <-]%lookup_singleton_Some. by rewrite (upte_page s va 0x1000) by (done || (unfold KERNBASE; lia)).
Qed.

Lemma encryption_transparent_witness :
  let s := sstate e_crypt 7 no_clock in
  let ops := [ULoad 0x1000; UStore 0x1005 42; ULoad 0x1005] in
  wp (run_uops true (λ _, page1_cache) ops) s (λ r s', r = plain_uops (plain s) ops ∧ crypt_inv s' [sp]).
Proof.
  intros s ops. apply (encryption_transparent true (λ _, page1_cache) ops s [sp]); [intros _; apply page1_coherent | apply scrypt | by apply sno_ff |].
  repeat constructor; simpl; try (by apply scrypt_user); done.
Defined.

(** C3. The handler leaves few pages in the clear.  Under the conditions of
    transparency, no run of accesses decrypts a page without putting it in the
    queue or drops one from the queue without encrypting it: a page other than
    page 0 that is decrypted and not in the queue afterwards was so before.
    Of the other pages at most [CLOCKSIZE] are decrypted, and those are the
    ones in the queue. *)
Theorem decrypted_bounded {L : Linker} u C ops s l :
  (∀ i t, coherent t (C i t)) → crypt_inv s l → no_ff s → Forall (uop_ok (user_page s)) ops →
  wp (run_uops u C ops) s (λ _ s', (∀ va, loose s' va → loose s va) ∧ ∀ vs,
    NoDup vs → Forall (λ va, in_clear s' va ∧ ¬ loose s va) vs →
    (∀ va, va ∈ vs → va ∈ p_clock (us_proc s')) ∧ (length vs ≤ Z.to_nat CLOCKSIZE)%nat).
Proof.
  intros HC Hc Hn Ho. eapply wp_mono.
  { apply (run_uops_plain (user_page s) u C ops s l (plain s)); [done | done | | done].
    intros va Hp. destruct (base_page s va Hp). split_and!; try done. by apply Hn. }
  intros r s' (_ & Hc' & Hl). split; [done |]. intros vs Hnd Hall.
  assert (∀ va, va ∈ vs → va ∈ p_clock (us_proc s')) as Hsub.
  { intros va Hin. rewrite list.Forall_forall in Hall. destruct (Hall va Hin) as [Hcl Hnl].
    destruct (decide (va ∈ p_clock (us_proc s'))) as [|Hq]; [done |]. destruct Hnl. by apply Hl. }
  split; [done |]. rewrite <- (ur_clock _ _ (ci_ready _ _ Hc')). apply submseteq_length, NoDup_submseteq; done.
Qed.

Lemma decrypted_bounded_witness :
  let s := sstate e_crypt 7 no_clock in
  wp (run_uops true (λ _, page1_cache) [ULoad 0x1000]) s (λ _ s', (∀ va, loose s' va → loose s va) ∧ ∀ vs,
    NoDup vs → Forall (λ va, in_clear s' va ∧ ¬ loose s va) vs →
    (∀ va, va ∈ vs → va ∈ p_clock (us_proc s')) ∧ (length vs ≤ Z.to_nat CLOCKSIZE)%nat).
Proof.
  intros s. apply (decrypted_bounded true (λ _, page1_cache) _ s [sp]); [intros _; apply page1_coherent | apply scrypt | by apply sno_ff |].
  by apply list.Forall_singleton, scrypt_user.
Defined.

(** With a stale translation the process sees encrypted bytes: [mencrypt]
    returns from its loop, before the [switchuvm] that would empty the
    translation cache.  If the cache holds the page just encrypted, through
    which [mencrypt] itself wrote it, a load in user mode does not fault as one
    by the page table does, and returns the byte flipped. *)
Theorem stale_translation {L : Linker} s l va c a :
  uready s l → 0 ≤ va < KERNBASE → va mod 4096 = 0 → user_ok (upte s va) = true →
  Z.testbit (upte s va) 10 = false → Z.testbit (upte s va) 1 = true →
  c !! (va / 4096) = Some (cached (upte s va)) → a / 4096 = va / 4096 →
  wp (mencrypt va 1) s (λ r s', r = 0 ∧ mmu_load ∅ true a (us_mach s') = Err (EFault a) ∧
    mmu_load c true a (us_mach s') = Ok (Z.lxor (plain s a) 0xFF, us_mach s')).
Proof.
  intros Hr Hva Hal Hu HE HW Hc Ha.
  assert (PGROUNDDOWN va + 4096 * 0 = va) as Eb by (rewrite PGROUNDDOWN_eq by (unfold KERNBASE in *; lia); lia).
  assert (0 ≤ a < KERNBASE) as Hak by (unfold KERNBASE in *; zdiv).
  pose proof (upte_page s a va Hak Hva Ha) as Eup. pose proof Hu as [Hm HU]%andb_true_iff.
  destruct (enc_entry_facts (upte s va)) as (_ & Ea & _); [apply pte_range |].
  eapply wp_mono.
  { apply (mencrypt_first s l va 1 Hr ltac:(lia) ltac:(unfold KERNBASE in *; lia) ltac:(unfold KERNBASE in *; zdiv) 0); rewrite ?Eb; try done; try lia.
    intros i Hi. replace i with 0 by lia. by rewrite Eb. }
  cbv zeta. rewrite Eb. intros r s' [-> Hst]. pose proof (ustep_ready _ _ _ _ _ _ Hst Hr) as Hr'.
  destruct (ustep_view _ _ _ _ _ _ Hr Hst Hva Hm Ea) as [V1 V2]. split_and!; [done | |].
  - unfold mmu_load, tlb_translate. rewrite lookup_empty. erewrite bind_err; [done |]. apply (translate_fault s' l); [done |].
    rewrite V1, (proj2 (Z.eqb_eq _ _) Ha), enc_entry_bit by (unfold KERNBASE in *; lia). by rewrite andb_false_r.
  - unfold mmu_load, tlb_translate. rewrite Ha, Hc. cbn [cached te_w te_u te_frame implb]. rewrite HU. cbn [implb andb].
    unfold mbind, M_bind, mret, M_ret, gets. pose proof (Z.mod_pos_bound a 4096 ltac:(lia)) as Ho.
    destruct Hst as [_ X]. rewrite (x_frame _ _ _ _ _ _ _ X) by done. unfold flipped, plain. rewrite Eup, HE.
    unfold ucontents, contents. fold (upte s a) (upte s va). by rewrite Eup.
Qed.

Lemma stale_translation_witness :
  let s := sstate e_present 7 no_clock in
  wp (mencrypt 0x1000 1) s (λ r s', r = 0 ∧ mmu_load ∅ true 0x1000 (us_mach s') = Err (EFault 0x1000) ∧
    mmu_load {[ 1 := cached e_present ]} true 0x1000 (us_mach s') = Ok (Z.lxor (plain s 0x1000) 0xFF, us_mach s')).
Proof.
  intros s. apply (stale_translation s [sp] 0x1000 {[ 1 := cached e_present ]} 0x1000);
    try (unfold s; rewrite supte by (lia || apply sentries); reflexivity); try done.
  - apply sready; [apply sentries | done |]. by repeat constructor.
Defined.

(** ** The operations one by one *)

(** C32. A page fault on an encrypted page of the process that is writable and
    whose first plaintext byte is not 0xFF, with a page to evict, if any, that
    is resident: [mdecrypt] succeeds,
    the page is present, no longer marked encrypted and in the queue, the
    memory the process sees is the same, and the only other entry that
    changes is that of the page evicted. *)
Theorem mdecrypt_correct {L : Linker} s l va :
  uready s l → 0 ≤ va < KERNBASE →
  Z.testbit (upte s va) 10 = true → Z.testbit (upte s va) 2 = true → Z.testbit (upte s va) 1 = true →
  (∀ w, victim s w → resident s w) → ucontents s va 0 ≠ 0 →
  wp (mdecrypt va) s (λ r s', r = 0 ∧ uready s' l ∧ PGROUNDDOWN va ∈ p_clock (us_proc s') ∧
    Z.testbit (upte s' va) 0 = true ∧ Z.testbit (upte s' va) 10 = false ∧
    (∀ va', 0 ≤ va' < 2 ^ 32 → va' / 4096 ≠ va / 4096 → (∀ w, victim s w → va' / 4096 ≠ w / 4096) →
       upte s' va' = upte s va') ∧
    (∀ va', 0 ≤ va' < KERNBASE → mapped (upte s va') = true →
       mapped (upte s' va') = true ∧ plain s' va' = plain s va')).
Proof. apply mdecrypt_spec. Qed.

Lemma no_victim e b w : ¬ victim (sstate e b no_clock) w.
Proof. intros [H0 _]. apply H0. by left. Qed.

Lemma mdecrypt_correct_witness :
  let s := sstate e_crypt 7 no_clock in
  wp (mdecrypt 0x1234) s (λ r s', r = 0 ∧ uready s' [sp] ∧ PGROUNDDOWN 0x1234 ∈ p_clock (us_proc s') ∧
    Z.testbit (upte s' 0x1234) 0 = true ∧ Z.testbit (upte s' 0x1234) 10 = false ∧
    (∀ va', 0 ≤ va' < 2 ^ 32 → va' / 4096 ≠ 0x1234 / 4096 → (∀ w, victim s w → va' / 4096 ≠ w / 4096) →
       upte s' va' = upte s va') ∧
    (∀ va', 0 ≤ va' < KERNBASE → mapped (upte s va') = true →
       mapped (upte s' va') = true ∧ plain s' va' = plain s va')).
Proof.
  intros s. apply (mdecrypt_correct s [sp] 0x1234); try (unfold s; rewrite scrypt_pte by lia; reflexivity).
  - apply scrypt.
  - done.
  - intros w Hw. by destruct (no_victim _ _ _ Hw).
  - unfold s. by rewrite sfirst.
Defined.

(** C35. [mdecrypt] fails on a page whose first byte is 0xFF, that is, whose first
    stored byte is 0: it returns -1, yet leaves the page present and no
    longer marked encrypted, with the encrypted bytes in it. *)
Theorem mdecrypt_ff {L : Linker} s l va :
  uready s l → 0 ≤ va < KERNBASE →
  Z.testbit (upte s va) 10 = true → Z.testbit (upte s va) 2 = true → Z.testbit (upte s va) 1 = true →
  (∀ w, victim s w → resident s w) → plain s (PGROUNDDOWN va) = 0xFF →
  wp (mdecrypt va) s (λ r s', r = -1 ∧ Z.testbit (upte s' va) 0 = true ∧ Z.testbit (upte s' va) 10 = false ∧
    ∀ o, 0 ≤ o < 4096 → ucontents s' va o = ucontents s va o).
Proof. apply mdecrypt_zero. Qed.

Lemma mdecrypt_ff_witness :
  let s := sstate e_crypt 0 no_clock in
  wp (mdecrypt 0x1234) s (λ r s', r = -1 ∧ Z.testbit (upte s' 0x1234) 0 = true ∧
    Z.testbit (upte s' 0x1234) 10 = false ∧ ∀ o, 0 ≤ o < 4096 → ucontents s' 0x1234 o = ucontents s 0x1234 o).
Proof.
  intros s. apply (mdecrypt_ff s [sp] 0x1234); try (unfold s; rewrite scrypt_pte by lia; reflexivity).
  - apply scrypt.
  - done.
  - intros w Hw. by destruct (no_victim _ _ _ Hw).
  - change (PGROUNDDOWN 0x1234) with 0x1000. by apply splain.
Defined.

(** C33. [mencrypt] on pages that are all mapped encrypts the first of them that
    is not encrypted yet, and no other: that page's bytes are flipped,
    [PTE_E] is set and [PTE_P] cleared; every other entry and page stays. *)
Theorem mencrypt_encrypts_first {L : Linker} s l va len k :
  uready s l → 0 ≤ len → 0 ≤ va < 2 ^ 32 → PGROUNDDOWN va + 4096 * len ≤ KERNBASE →
  (∀ i, 0 ≤ i < len → user_ok (upte s (PGROUNDDOWN va + 4096 * i)) = true) →
  0 ≤ k < len → (∀ i, 0 ≤ i < k → Z.testbit (upte s (PGROUNDDOWN va + 4096 * i)) 10 = true) →
  let vk := PGROUNDDOWN va + 4096 * k in
  Z.testbit (upte s vk) 10 = false → Z.testbit (upte s vk) 1 = true →
  wp (mencrypt va len) s (λ r s', r = 0 ∧ ustep vk (enc_entry (upte s vk)) (flipped (ucontents s vk)) s l s').
Proof. intros Hr Hl Hva Ht. by apply (mencrypt_first s l va len). Qed.

Lemma mencrypt_encrypts_first_witness :
  let s := sstate e_present 7 no_clock in
  let vk := PGROUNDDOWN 0x1234 + 4096 * 0 in
  wp (mencrypt 0x1234 1) s (λ r s', r = 0 ∧ ustep vk (enc_entry (upte s vk)) (flipped (ucontents s vk)) s [sp] s').
Proof.
  intros s. apply (mencrypt_encrypts_first s [sp] 0x1234 1 0); try lia;
    try (unfold s; rewrite supte by (lia || apply sentries); reflexivity).
  - apply sready; [apply sentries | done |]. by repeat constructor.
  - by vm_compute.
  - intros i Hi. replace i with 0 by lia. unfold s. by rewrite supte by (by vm_compute).
Defined.

(** [mencrypt] is all or nothing on errors: if a page of the range is not a
    mapped user page (but has a page table) it returns -1 and changes nothing at all. *)
Theorem mencrypt_rejects {L : Linker} s l va len i :
  uready s l → 0 ≤ len → 0 ≤ va < 2 ^ 32 → PGROUNDDOWN va + 4096 * len ≤ KERNBASE →
  tables_for (m_mem (us_mach s)) (p_pgdir (us_proc s)) (PGROUNDDOWN va) len →
  0 ≤ i < len → user_ok (upte s (PGROUNDDOWN va + 4096 * i)) = false → mencrypt va len s = Ok (-1, s).
Proof. intros Hr Hl Hva Ht. apply (mencrypt_reject s l va len Hr Hl Hva Ht). Qed.

Lemma mencrypt_rejects_witness :
  mencrypt 0x1000 3 (sstate e_present 7 no_clock) = Ok (-1, sstate e_present 7 no_clock).
Proof.
  apply (mencrypt_rejects (sstate e_present 7 no_clock) [sp] 0x1000 3 1); try lia.
  - apply sready; [apply sentries | done |]. by repeat constructor.
  - by vm_compute.
  - intros i Hi. change (PGROUNDDOWN 0x1000) with 0x1000. rewrite PDX_eq by lia.
    replace ((0x1000 + 4096 * i) / 2 ^ 22) with 0 by zdiv. simpl. by rewrite smem_tab.
  - by rewrite supte by (by vm_compute).
Defined.

(** C34. With a full queue [addClock] always evicts the page at the head, whether
    its accessed bit is set or not: the bit only makes the head advance
    twice, and the second look is at the same page. *)
Theorem addClock_evicts_head {L : Linker} s l va w :
  uready s l → 0 ≤ va < KERNBASE → mapped (upte s va) = true →
  victim s w → resident s w →
  wp (addClock va) s (λ r s', r = 0 ∧
    us_proc s' = enqueue (p_head (us_proc s)) va
      ((p_head (us_proc s) + (if Z.testbit (upte s w) 5 then 2 else 1)) mod 8) (us_proc s) ∧
    page_step (p_pgdir (us_proc s)) w (enc_entry (upte s w)) (flipped (ucontents s w)) (us_mach s) l (us_mach s')).
Proof.
  intros Hr Hva Hm Hv Hw. assert (∀ w', victim s w' → w' = w) as Hu by (intros w' ?; by eapply victim_unique).
  eapply wp_mono; [apply (addClock_spec s l); try done; by intros w' ->%Hu |].
  intros r s' [-> [(j & _ & Hj & _)|(w' & ->%Hu & ? & ?)]]; [|done].
  destruct Hv as [[] _]. apply list_elem_of_lookup. eauto.
Qed.

Lemma addClock_evicts_head_witness :
  let s := sstate e_touched 7 full_clock in
  wp (addClock 0x1000) s (λ r s', r = 0 ∧
    us_proc s' = enqueue (p_head (us_proc s)) 0x1000
      ((p_head (us_proc s) + (if Z.testbit (upte s 0x1000) 5 then 2 else 1)) mod 8) (us_proc s) ∧
    page_step (p_pgdir (us_proc s)) 0x1000 (enc_entry (upte s 0x1000)) (flipped (ucontents s 0x1000)) (us_mach s) [sp] (us_mach s')).
Proof.
  intros s. assert (resident s 0x1000) as Hw.
  { unfold resident, s. rewrite supte by (lia || apply sentries). done. }
  apply (addClock_evicts_head s [sp] 0x1000 0x1000); [| done | by apply resident_mapped | | done].
  - apply sready; [apply sentries | done |]. by repeat constructor.
  - split; [|done]. intros [E _]%elem_of_replicate. done.
Defined.

(** What [exec] encrypts of a new image of [t] pages, of which the last but one
    is the guard page: page 0 and the page of the stack.  As [mencrypt] stops at
    the first page, those in between stay in the clear, and are not in the
    queue, which [exec] has just emptied. *)
Theorem exec_leaves_clear {L : Linker} s l t :
  uready s l → 3 ≤ t → 4096 * t ≤ KERNBASE → p_clock (us_proc s) = replicate (Z.to_nat CLOCKSIZE) 0 →
  (∀ i, 0 ≤ i < t - 2 ∨ i = t - 1 → user_ok (upte s (4096 * i)) = true ∧ Z.testbit (upte s (4096 * i)) 1 = true ∧
    Z.testbit (upte s (4096 * i)) 10 = false) →
  wp (exec_encrypt (4096 * t)) s (λ _ s', Z.testbit (upte s' 0) 10 = true ∧ Z.testbit (upte s' (4096 * (t - 1))) 10 = true ∧
    ∀ i, 0 < i < t - 2 → loose s' (4096 * i)).
Proof.
  intros Hr Ht Hmax Hq Hpg. unfold KERNBASE in Hmax. unfold exec_encrypt, PGSIZE.
  rewrite (Z.mul_comm 4096 t), Z_mod_mult, Z_div_mult by lia. cbn [nz Z.eqb negb].
  assert (u32 ((t - 1) * 4096) = 4096 * (t - 1)) as -> by (rewrite u32_id; lia).
  change (PGROUNDDOWN 0) with 0. apply wp_bind. eapply wp_mono.
  { apply (mencrypt_first s l 0 (t - 2) Hr ltac:(lia) ltac:(lia) ltac:(unfold KERNBASE; change (PGROUNDDOWN 0) with 0; lia) 0);
      change (PGROUNDDOWN 0) with 0; [| lia | lia | apply (Hpg 0); lia | apply (Hpg 0); lia].
    intros i Hi. apply Hpg. lia. }
  change (PGROUNDDOWN 0 + 4096 * 0) with 0. intros r s1 [_ Hst]. pose proof (ustep_ready _ _ _ _ _ _ Hst Hr) as Hr1.
  destruct (Hpg 0 ltac:(lia)) as (Hu0 & _ & _). change (4096 * 0) with 0 in Hu0. apply andb_true_iff in Hu0 as [Hm0 _].
  destruct (enc_entry_facts (upte s 0)) as (_ & Ea & _); [apply pte_range |].
  destruct (ustep_view _ _ _ _ _ _ Hr Hst ltac:(unfold KERNBASE; lia) Hm0 Ea) as [V1 _].
  assert (∀ i, 0 < i < t → upte s1 (4096 * i) = upte s (4096 * i)) as Hs1.
  { intros i Hi. rewrite V1 by lia. destruct (Z.eqb_spec (4096 * i / 4096) (0 / 4096)); [zdiv | done]. }
  assert (PGROUNDDOWN (4096 * (t - 1)) = 4096 * (t - 1)) as Eb by (rewrite PGROUNDDOWN_eq by lia; zdiv).
  destruct (Hpg (t - 1) ltac:(lia)) as (Hu & HW & HE). rewrite <- Hs1 in Hu, HW, HE by lia. apply wp_bind. eapply wp_mono.
  { apply (mencrypt_first s1 l (4096 * (t - 1)) 1 Hr1 ltac:(lia) ltac:(lia) ltac:(unfold KERNBASE; rewrite Eb; lia) 0);
      rewrite ?Eb, ?Z.mul_0_r, ?Z.add_0_r; [|lia | lia | done | done].
    intros i Hi. replace i with 0 by lia. by rewrite Z.mul_0_r, Z.add_0_r. }
  cbv zeta. rewrite Eb, Z.mul_0_r, Z.add_0_r. intros r2 s2 [_ Hst2]. apply andb_true_iff in Hu as [Hm _].
  destruct (enc_entry_facts (upte s1 (4096 * (t - 1)))) as (_ & Ea2 & _); [apply pte_range |].
  destruct (ustep_view _ _ _ _ _ _ Hr1 Hst2 ltac:(unfold KERNBASE; lia) Hm Ea2) as [V2 _].
  apply wp_ret. split_and!.
  - rewrite V2 by lia. destruct (Z.eqb_spec (0 / 4096) (4096 * (t - 1) / 4096)); [zdiv |].
    by rewrite V1, Z.eqb_refl, enc_entry_bit, orb_true_r by lia.
  - by rewrite V2, Z.eqb_refl, enc_entry_bit, orb_true_r by lia.
  - intros i Hi. assert (upte s2 (4096 * i) = upte s (4096 * i)) as Ei.
    { rewrite V2 by lia. destruct (Z.eqb_spec (4096 * i / 4096) (4096 * (t - 1) / 4096)); [zdiv |]. apply Hs1. lia. }
    destruct (Hpg i ltac:(lia)) as (Hui & HWi & HEi). split.
    + unfold in_clear, KERNBASE. rewrite Ei. split_and!; [lia | lia | zdiv | done | done].
    + destruct Hst2 as [-> _]. destruct Hst as [-> _]. rewrite Hq. intros [? _]%elem_of_replicate. lia.
Qed.

(** Two pages of text and data, the guard page and the stack. *)
Definition four_pages : list Z := [V2P (mframe 0) + 7; V2P (mframe 1) + 7; V2P (mframe 2) + 3; V2P (mframe 3) + 7].

Lemma four_pages_ok : mentries four_pages.
Proof.
  split_and!; [simpl; lia | repeat constructor; by vm_compute |].
  intros [|[|[|[|i]]]] e [= <-] _; by vm_compute.
Qed.

Lemma exec_leaves_clear_witness :
  wp (exec_encrypt 0x4000) (mstate four_pages no_clock) (λ _ s', Z.testbit (upte s' 0) 10 = true ∧ Z.testbit (upte s' 0x3000) 10 = true ∧
    ∀ i, 0 < i < 2 → loose s' (4096 * i)).
Proof.
  apply (exec_leaves_clear (mstate four_pages no_clock) [sp] 4); try done.
  - apply mready; [apply four_pages_ok | done |]. by repeat constructor.
  - intros i Hi. unfold upte, mstate. cbn [us_mach us_proc m_mem smach p_pgdir sproc set_clock set_kstack set_pgdir].
    rewrite (mmem_pte four_pages four_pages_ok) by lia. assert (i = 0 ∨ i = 1 ∨ i = 3) as [->|[->| ->]] by lia; by vm_compute.
Defined.
