(* ===== verification/LogProps.v ===== *)
(** * The disk, the buffer cache and the log: what they guarantee

    Each theorem is followed by an instance on a small disk. *)

From S2P Require Import Prelude Mmu Bytes Disk Bio FsFormat Log LogSpec Recover LogOps.

(** ** A small disk

    80 blocks with the log of [mkfs] at block 2; block 1 is the superblock.
    Block 50 was modified by a transaction that is about to commit. *)
Definition sblock : list Z := put_superblock (Superblock 80 40 20 LOGSIZE 2 32 36) (replicate bsize 0).
Definition sdisk : memdisk := Memdisk (replicate bsize 0 :: sblock :: replicate 78 (replicate bsize 0)).
Definition tdisk : traced memdisk := Traced sdisk [].
Definition dbuf : buf := Buf true true 1 50 initsleeplock 0 (replicate bsize 7).
Definition cacheb (b : buf) : bst (traced memdisk) := Bst tdisk (b :: replicate (nbuf - 1) buf_zero) (seq 0 nbuf) 1.
Definition cache1 : bst (traced memdisk) := cacheb dbuf.
Definition log1 : log := Log 2 LOGSIZE 0 false 1 1 (50 :: replicate (Z.to_nat LOGSIZE - 1) 0).

Lemma sblock_log : sb_logstart (get_superblock sblock) = 2 ∧ sb_nlog (get_superblock sblock) = LOGSIZE.
Proof. by vm_compute. Qed.

Lemma sdisk_blk n : 0 ≤ n < 80 → n ≠ 1 → dblk tdisk n = Some (replicate bsize 0).
Proof.
  intros Hn H1. change (dblk tdisk n) with (md_get sdisk n). unfold md_get, sdisk.
  destruct (Z.leb_spec 0 n); [|lia]. cbn [md_blocks].
  destruct (Z.to_nat n) as [|[|k]] eqn:E; [done | lia |].
  change (replicate 78 (replicate bsize 0) !! k = Some (replicate bsize 0)). apply lookup_replicate_2. lia.
Qed.

Lemma sdisk_wf : dwf tdisk.
Proof. constructor; [done |]. constructor; [done |]. by apply Forall_replicate. Qed.

Lemma cacheb_bufs b0 i b :
  bs_bufs (cacheb b0) !! i = Some b → i = 0%nat ∧ b = b0 ∨ i ≠ 0%nat ∧ b = buf_zero.
Proof.
  destruct i as [|i]; [intros [= <-]; by left |]. intros Hb.
  change (replicate (nbuf - 1) buf_zero !! i = Some b) in Hb. apply lookup_replicate in Hb as [-> _]. by right.
Qed.

(** A valid buffer of block 50 that is dirty, or locked. *)
Definition sbuf (b : buf) : Prop :=
  b_valid b = true ∧ b_dev b = 1 ∧ b_blockno b = 50 ∧ length (b_data b) = bsize ∧ 0 ≤ b_refcnt b ∧
  (b_refcnt b = 0 → is_locked b = false) ∧ (b_dirty b = true ∨ is_locked b = true).

Lemma cacheb_inv b0 : sbuf b0 → bc_inv (cacheb b0).
Proof.
  intros (Hv & Hd & Hn & Hl & Hr & Hrl & Hdl). constructor.
  - apply sdisk_wf.
  - intros i. change (bs_lru (cacheb b0)) with (seq 0 nbuf). rewrite elem_of_seq.
    change (length (bs_bufs (cacheb b0))) with nbuf. lia.
  - intros i j b b' [[-> ->]|[_ ->]]%cacheb_bufs [[-> ->]|[_ ->]]%cacheb_bufs; done.
  - intros i b [[-> ->]|[_ ->]]%cacheb_bufs; done.
  - intros i b [[-> ->]|[_ ->]]%cacheb_bufs; done.
  - intros i b [[-> ->]|[_ ->]]%cacheb_bufs; done.
  - intros i b [[-> ->]|[_ ->]]%cacheb_bufs; done.
  - intros i b [[-> ->]|[_ ->]]%cacheb_bufs; [|done]. intros _. rewrite Hn. simpl. eauto.
  - intros i b [[-> ->]|[_ ->]]%cacheb_bufs; [|done]. intros _ E1 E2. destruct Hdl; congruence.
Qed.

Lemma cacheb_bufof b0 n : sbuf b0 → bufof (cacheb b0) n = if n =? 50 then Some b0 else None.
Proof.
  intros (_ & Hd & Hn & _). unfold bufof. change (bs_bufs (cacheb b0)) with (b0 :: replicate (nbuf - 1) buf_zero).
  cbn [list_find]. unfold is_block. rewrite Hd, Hn.
  rewrite (Z.eqb_sym 50 n). destruct (Z.eqb_spec n 50) as [->|]; cbn [andb].
  - by rewrite decide_True.
  - rewrite decide_False by done. replace (list_find _ _) with (@None (nat * buf)); [done |].
    symmetry. apply list_find_None, Forall_replicate. done.
Qed.

Lemma dbuf_ok : sbuf dbuf.
Proof. repeat split; vm_compute; auto; discriminate. Qed.

Lemma cache1_bufof n : bufof cache1 n = if n =? 50 then Some dbuf else None.
Proof. apply cacheb_bufof, dbuf_ok. Qed.

Lemma log1_logged : logged log1 = [50].
Proof. reflexivity. Qed.

Lemma log1_ok : log_ok log1.
Proof.
  constructor; rewrite ?log1_logged; try done.
  - apply NoDup_singleton.
  - intros m ->%list_elem_of_singleton. right. done.
  - by intros m ->%list_elem_of_singleton.
Qed.

Lemma cache1_ready : commit_ready cache1 log1 (replicate bsize 0).
Proof.
  constructor.
  - apply cacheb_inv, dbuf_ok.
  - reflexivity.
  - vm_compute. lia.
  - apply log1_ok.
  - unfold lview. rewrite cache1_bufof. apply sdisk_blk; done.
  - intros i Hi. change (Z.to_nat (lg_n log1)) with 1%nat in Hi. assert (i = 0)%nat as -> by lia.
    unfold lview. rewrite cache1_bufof. change (dblk (bs_disk cache1)) with (dblk tdisk).
    change (log_blk log1 0) with 3. rewrite sdisk_blk by done. eauto.
  - intros b. rewrite log1_logged. intros ->%list_elem_of_singleton. unfold lview. rewrite cache1_bufof. simpl. eauto.
  - intros m. rewrite log1_logged, list_elem_of_singleton. unfold dirtyv. rewrite cache1_bufof.
    by destruct (Z.eqb_spec m 50).
Qed.

(** ** Atomic commit *)

(** C2. A commit is atomic under crashes.  [commit] succeeds and puts the
    transaction's blocks in place; and if the machine stops after any number
    of its disk writes, then [initlog] at the next boot, run on the disk as
    it was left, ends with every block outside the log as it was before the
    transaction, or with every one as the transaction left it in the
    cache. *)
Theorem commit_crash_safe {D} `{DiskLaws D, !DiskTrace D} (s : bst D) l x z pid :
  commit_ready s l x → get32 x 0 = 0 → 0 < lg_n l →
  home l 1 → 1 ∉ logged l → dblk (bs_disk s) 1 = Some z →
  sb_logstart (get_superblock z) = lg_start l → sb_nlog (get_superblock z) = lg_size l →
  wp commit (Lst s l) (λ _ t, ls_log t = cleared l ∧
    (∀ m, home l m → dblk (bs_disk (ls_b t)) m = lview s m) ∧
    ∃ ws, dlog (bs_disk (ls_b t)) = rev ws ++ dlog (bs_disk s) ∧
      ∀ k (d' : D), dwf d' → (∀ m, dblk d' m = apply_writes (take k ws) (dblk (bs_disk s)) m) →
        wp (initlog 1) (Lst (boot d' pid) log_zero) (λ _ t',
          (∀ m, home l m → dblk (bs_disk (ls_b t')) m = dblk (bs_disk s) m) ∨
          (∀ m, home l m → dblk (bs_disk (ls_b t')) m = lview s m))).
Proof.
  intros Hc Hx Hn H1 Hn1 Hz Es En. pose proof (cr_ok _ _ _ Hc) as Hl.
  eapply wp_mono; [by apply commit_spec |]. intros [] t [El W]. split; [done | split].
  { intros m Hm. rewrite (wr_disk _ _ _ W). by apply commit_home. }
  exists (commit_ws s l x). split; [apply W |]. intros k d' Hwf Hd.
  destruct (crash_commit s l x k Hc Hx) as [Hv Hlog]. set (f := apply_writes _ _) in *.
  assert (∀ m, f m = dblk d' m) as Hf by done.
  eapply wp_mono; [apply (boot_recovers l d' pid z); try done |].
  - rewrite Hd. unfold f. by rewrite commit_ws_out.
  - by eapply valid_log_ext.
  - intros [] t' Ht. destruct (decide (k ≤ length (logged l))%nat) in Hlog; [left | right]; intros m Hm;
      by rewrite Ht, <- (logical_ext l f _ m Hf), Hlog.
Qed.

Lemma commit_crash_safe_witness :
  wp commit (Lst cache1 log1) (λ _ t, ls_log t = cleared log1 ∧
    (∀ m, home log1 m → dblk (bs_disk (ls_b t)) m = lview cache1 m) ∧
    ∃ ws, dlog (bs_disk (ls_b t)) = rev ws ++ dlog (bs_disk cache1) ∧
      ∀ k (d' : traced memdisk), dwf d' → (∀ m, dblk d' m = apply_writes (take k ws) (dblk (bs_disk cache1)) m) →
        wp (initlog 1) (Lst (boot d' 1) log_zero) (λ _ t',
          (∀ m, home log1 m → dblk (bs_disk (ls_b t')) m = dblk (bs_disk cache1) m) ∨
          (∀ m, home log1 m → dblk (bs_disk (ls_b t')) m = lview cache1 m))).
Proof.
  apply (commit_crash_safe cache1 log1 (replicate bsize 0) sblock 1).
  - apply cache1_ready.
  - by vm_compute.
  - by vm_compute.
  - by left.
  - by rewrite log1_logged, list_elem_of_singleton.
  - reflexivity.
  - apply sblock_log.
  - apply sblock_log.
Defined.

(** C4. Recovery can itself be interrupted: [initlog] installs the committed
    transaction found in the log, and if the machine stops after any number
    of the writes of that recovery, the next boot ends with the same
    blocks. *)
Theorem recovery_restartable {D} `{DiskLaws D, !DiskTrace D} l (d : D) pid z :
  dwf d → dblk d 1 = Some z → sb_logstart (get_superblock z) = lg_start l → sb_nlog (get_superblock z) = lg_size l →
  log_ok l → valid_log l (dblk d) → home l 1 → 1 ∉ logged (found l (dblk d)) →
  wp (initlog 1) (Lst (boot d pid) log_zero) (λ _ t,
    lg_n (ls_log t) = 0 ∧
    (∀ m, home l m → dblk (bs_disk (ls_b t)) m = logical l (dblk d) m) ∧
    ∃ ws, dlog (bs_disk (ls_b t)) = rev ws ++ dlog d ∧
      ∀ k (d' : D), dwf d' → (∀ m, dblk d' m = apply_writes (take k ws) (dblk d) m) →
        wp (initlog 1) (Lst (boot d' pid) log_zero) (λ _ t',
          ∀ m, home l m → dblk (bs_disk (ls_b t')) m = logical l (dblk d) m)).
Proof.
  intros Hd Hz Es En Hl Hv H1 Hn1. eapply wp_mono; [by apply (initlog_spec l d pid z) |].
  intros [] t [El W]. split_and!.
  - by rewrite El.
  - intros m Hm. rewrite (wr_disk _ _ _ W), apply_writes_app, apply_writes_one.
    by destruct (Z.eqb_spec m (lg_start l)) as [E|_]; [apply (start_not_home l m Hl) in E |].
  - eexists. split; [apply W |]. intros k d' Hwf Hd'.
    destruct (crash_recovery l (dblk d) k Hl Hv) as [Hv' Hlog]. set (g := apply_writes _ _) in *.
    assert (∀ m, g m = dblk d' m) as Hg by done.
    eapply wp_mono; [apply (boot_recovers l d' pid z); try done |].
    + rewrite Hd', <- Hz. by apply recovery_out.
    + by eapply valid_log_ext.
    + intros [] t' Ht m Hm. rewrite Ht, <- (logical_ext l g _ m Hg) by done. by apply Hlog.
Qed.

(** The disk after a crash of that commit, once the header is written. *)
Definition crashed : traced memdisk :=
  Traced (Memdisk (<[2%nat := put_head log1 (replicate bsize 0)]> (<[3%nat := replicate bsize 7]> (md_blocks sdisk)))) [].

Lemma crashed_blk m :
  dblk crashed m = apply_writes (take 2 (commit_ws cache1 log1 (replicate bsize 0))) (dblk (bs_disk cache1)) m.
Proof.
  change (take 2 _) with ([(3, replicate bsize 7)] ++ [(2, put_head log1 (replicate bsize 0))]).
  rewrite apply_writes_app, !apply_writes_one. change (dblk crashed m) with (md_get (tr_disk crashed) m).
  change (dblk (bs_disk cache1) m) with (md_get sdisk m). unfold md_get, crashed. cbn [tr_disk md_blocks].
  destruct (Z.leb_spec 0 m).
  - destruct (Z.eqb_spec m 2) as [->|]; [done |]. rewrite list_lookup_insert_ne by lia.
    destruct (Z.eqb_spec m 3) as [->|]; [done |]. by rewrite list_lookup_insert_ne by lia.
  - destruct (Z.eqb_spec m 2); [lia |]. by destruct (Z.eqb_spec m 3); [lia |].
Qed.

Lemma crashed_wf : dwf crashed.
Proof. apply Forall_insert; [|by vm_compute]. apply Forall_insert; [apply sdisk_wf | done]. Qed.

Lemma recovery_restartable_witness :
  wp (initlog 1) (Lst (boot crashed 1) log_zero) (λ _ t,
    lg_n (ls_log t) = 0 ∧
    (∀ m, home log1 m → dblk (bs_disk (ls_b t)) m = logical log1 (dblk crashed) m) ∧
    ∃ ws, dlog (bs_disk (ls_b t)) = rev ws ++ dlog crashed ∧
      ∀ k (d' : traced memdisk), dwf d' → (∀ m, dblk d' m = apply_writes (take k ws) (dblk crashed) m) →
        wp (initlog 1) (Lst (boot d' 1) log_zero) (λ _ t',
          ∀ m, home log1 m → dblk (bs_disk (ls_b t')) m = logical log1 (dblk crashed) m)).
Proof.
  apply (recovery_restartable log1 crashed 1 sblock).
  - apply crashed_wf.
  - reflexivity.
  - apply sblock_log.
  - apply sblock_log.
  - apply log1_ok.
  - eapply valid_log_ext; [intros m; symmetry; apply crashed_blk |].
    apply crash_commit; [apply cache1_ready | by vm_compute].
  - by left.
  - change (logged (found log1 (dblk crashed))) with [50]. by rewrite list_elem_of_singleton.
Defined.

(** ** Room in the log *)

(** C36. [begin_op] reserves enough room: in any interleaving of [begin_op],
    [log_write], [end_op] and uses of the buffer cache, an operation that has
    logged fewer than [MAXOPBLOCKS] blocks never finds the log full, provided
    the log on disk has more than [LOGSIZE] blocks. *)
Theorem log_never_overflows {D} `{DiskLaws D} (s0 s : lst D * list nat) i q b :
  op_inv s0 → rtc op_step s0 s → LOGSIZE < s32 (lg_size (ls_log s.1)) → s.2 !! i = Some (S q) →
  log_write b s.1 ≠ Err (EPanic "too big a transaction").
Proof.
  intros Hi Hr Hsz Hq. pose proof (log_never_full s0 s i q Hi Hr Hsz Hq) as Hg.
  unfold log_write. erewrite bind_ok by reflexivity. rewrite Hg. destruct (lg_outstanding _ <? 1); [done |].
  unfold mbind, M_bind, on_b, zoom, buf_get, upd_log, modify, buf_upd, mret, M_ret.
  destruct (bs_bufs (ls_b s.1) !! b) as [c|] eqn:E; [|done]. simpl. unfold mbind, M_bind, buf_get, modify.
  simpl. by rewrite E.
Qed.

Definition big_log : lst (traced memdisk) :=
  Lst cache1 (Log 2 (LOGSIZE + 1) 0 false 1 0 (replicate (Z.to_nat LOGSIZE) 0)).
Definition big_log' : lst (traced memdisk) :=
  Lst cache1 (Log 2 (LOGSIZE + 1) 1 false 1 0 (replicate (Z.to_nat LOGSIZE) 0)).

Lemma log_never_overflows_witness : log_write 0 big_log' ≠ Err (EPanic "too big a transaction").
Proof.
  apply (log_never_overflows (big_log, []) (big_log', [Z.to_nat MAXOPBLOCKS]) 0 9); [| |done..].
  - constructor; try done. by intros q ?%elem_of_nil.
  - by apply rtc_once, op_begin.
Defined.

(** [log_write] adds the block to the transaction unless it is in it already
    (absorption), keeps the log well formed, and pins the buffer by marking
    it dirty; neither the disk nor what the cache shows changes. *)
Theorem log_write_correct {D} `{DiskLaws D} (s : bst D) l i n x d :
  bc_inv s → holds s i n x d → log_ok l → lg_n l < LOGSIZE → lg_n l < lg_size l - 1 → 1 ≤ lg_outstanding l →
  home l n → 0 ≤ n < 2 ^ 32 →
  wp (log_write i) (Lst s l) (λ _ t,
    logged (ls_log t) = (if decide (n ∈ logged l) then logged l else logged l ++ [n]) ∧ log_ok (ls_log t) ∧
    bc_inv (ls_b t) ∧ holds (ls_b t) i n x true ∧ bs_disk (ls_b t) = bs_disk s ∧
    ∀ m, lview (ls_b t) m = lview s m).
Proof.
  intros Hi Hh Hl Hn1 Hn2 Ho Hm Hr. eapply wp_mono; [by eapply log_write_spec |].
  intros [] t (El & B & Hh' & _ & _ & _ & Hd). rewrite El. split_and!; try done; [by apply logged_put | | apply B |].
  - by apply log_ok_put.
  - intros m. rewrite (w_lview _ _ _ _ _ _ _ _ B). destruct (Z.eqb_spec m n) as [->|]; [|done].
    by destruct (holds_view s i n x d Hi Hh) as (b & _ & _ & _ & _ & _ & _ & _ & _ & _ & -> & _).
Qed.

Definition hbuf : buf := Buf true false 1 50 (Sleeplock true 1) 1 (replicate bsize 7).
Definition log0 : log := Log 2 LOGSIZE 1 false 1 0 (replicate (Z.to_nat LOGSIZE) 0).

Lemma log_write_correct_witness :
  wp (log_write 0) (Lst (cacheb hbuf) log0) (λ _ t,
    logged (ls_log t) = (if decide (50 ∈ logged log0) then logged log0 else logged log0 ++ [50]) ∧ log_ok (ls_log t) ∧
    bc_inv (ls_b t) ∧ holds (ls_b t) 0 50 (replicate bsize 7) true ∧ bs_disk (ls_b t) = bs_disk (cacheb hbuf) ∧
    ∀ m, lview (ls_b t) m = lview (cacheb hbuf) m).
Proof.
  apply (log_write_correct (cacheb hbuf) log0 0 50 (replicate bsize 7) false); try done.
  - apply cacheb_inv. repeat split; vm_compute; auto; discriminate.
  - exists hbuf. done.
  - constructor; try done; change (logged log0) with (@nil Z).
    + constructor.
    + by intros m ?%elem_of_nil.
    + by intros m ?%elem_of_nil.
  - by right.
Defined.
