(* ===== verification/FsProps.v ===== *)
(** * The file system: what its operations guarantee

    Each theorem is followed by an instance on a small file system: 80
    blocks, the log of [mkfs] at block 2, inodes from block 32, the bitmap in
    block 36, a file of 10 bytes in block 37 and a directory in block 38. *)

From S2P Require Import Prelude Mmu Bytes Disk Bio FsFormat Log LogSpec Recover LogOps FsTx Console Fs FsStep FsAlloc FsFile FsGrow FsWrite FsDir NameSpec ProcDefs Kernel File.

(** ** A small file system *)

Definition fsb : superblock := Superblock 80 43 20 LOGSIZE 2 32 36.
Definition fdi : dinode := Dinode T_FILE 0 0 1 10 (37 :: replicate NDIRECT 0).
Definition ddi : dinode := Dinode T_DIR 0 0 1 32 (38 :: replicate NDIRECT 0).
Definition fbits : list Z := [255; 255; 255; 255; 127] ++ replicate (bsize - 5) 0.
Definition zblock : list Z := replicate bsize 0.
Definition iblock : list Z := put_dinode (ioff 3) ddi (put_dinode (ioff 2) fdi zblock).
Definition dblock : list Z :=
  dirent_bytes (Dirent 3 (dirname [46])) ++ dirent_bytes (Dirent 2 (dirname [97])) ++ replicate (bsize - 32) 0.
Definition fblocks : list (list Z) :=
  zblock :: put_superblock fsb zblock :: replicate 30 zblock ++
  iblock :: replicate 3 zblock ++ fbits :: replicate bsize 9 :: dblock :: replicate 41 zblock.
Definition fdisk : traced memdisk := Traced (Memdisk fblocks) [].
Definition flog : log := Log 2 LOGSIZE 1 false 1 0 (replicate (Z.to_nat LOGSIZE) 0).
Definition fip : inode := Inode 1 2 1 (Sleeplock true 1) true fdi.
Definition fst0 : fsys (traced memdisk) :=
  Fsys (Lst (boot fdisk 1) flog) fsb (fip :: replicate 49 inode_zero) (replicate 10 None)
    (Cons false false [] 0 [] [] 0 0 0) None false.
Definition ff : Z → option (list Z) := dblk fdisk.

Lemma fdisk_wf : dwf fdisk.
Proof.
  change (Forall (λ b, length b = bsize) fblocks). unfold fblocks.
  repeat first [apply Forall_replicate | apply list.Forall_cons; split | apply list.Forall_app; split];
    vm_compute; reflexivity.
Qed.

Lemma flog_ok : log_ok flog.
Proof. constructor; try done; [apply NoDup_nil_2 | ..]; intros m Hm; by apply elem_of_nil in Hm. Qed.

Lemma fst0_tx : tx ff [] (fs_l fst0).
Proof.
  destruct (boot_counts fdisk 1) as [Hq Hs]. constructor; cbn [fs_l fst0 ls_b ls_log].
  - apply boot_inv, fdisk_wf.
  - apply flog_ok.
  - done.
  - intros m. apply boot_view.
  - intros m. unfold lockedv. by rewrite boot_bufof.
  - done.
  - intros m. apply boot_dirty.
  - rewrite Hs. vm_compute. lia.
Qed.

Lemma ff_some b : 0 ≤ b < 80 → is_Some (ff b).
Proof.
  intros Hb. change (is_Some (md_get (Memdisk fblocks) b)). unfold md_get. destruct (Z.leb_spec 0 b); [|lia].
  apply lookup_lt_is_Some_2. assert (length fblocks = 80%nat) as E by reflexivity. cbn [md_blocks]. lia.
Qed.

Lemma forallb_seqZ (g : Z → bool) a n b : forallb g (seqZ a n) = true → a ≤ b < a + n → g b = true.
Proof. rewrite forallb_forall. intros Hf Hb. apply Hf, list_elem_of_In, elem_of_seqZ. lia. Qed.

Lemma ff_used b : 0 ≤ b < 80 → used ff fsb b = (b <? 39).
Proof.
  intros Hb. apply eqb_prop. apply (forallb_seqZ (λ b, Bool.eqb (used ff fsb b) (b <? 39)) 0 80); [by vm_compute | lia].
Qed.

Lemma fsb_bitmap b : 0 ≤ b < 80 → BBLOCK b fsb = 36.
Proof. intros Hb. unfold BBLOCK, BPB, BSIZE. simpl. rewrite Z.div_small by lia. done. Qed.

Lemma fsb_bmblocks : bmblocks fsb = [36].
Proof. reflexivity. Qed.

Lemma ff_block b : 32 ≤ b < 80 → b ≠ 36 → block_ok ff [] flog fsb b.
Proof.
  intros Hb Hne. constructor; [simpl; lia | apply ff_some; lia | by intros ?%elem_of_nil | right; simpl; unfold LOGSIZE, MAXOPBLOCKS; lia |].
  by rewrite fsb_bmblocks, list_elem_of_singleton.
Qed.

Lemma ff_fs : fs_ok ff [] flog fsb.
Proof.
  constructor.
  - constructor; simpl; try lia; intros b Hb; rewrite fsb_bitmap by done; [by apply ff_some | by intros ?%elem_of_nil |].
    by right.
  - intros b Hb Hu. change (sb_size fsb) with 80 in Hb. rewrite ff_used in Hu by done. apply Z.ltb_ge in Hu. apply ff_block; lia.
Qed.

Lemma fdi_slot k : slot_range k → slot ff fdi k = if k =? 0 then 37 else 0.
Proof.
  intros Hk. apply Z.eqb_eq.
  apply (forallb_seqZ (λ k, slot ff fdi k =? if k =? 0 then 37 else 0) (-1) (Z.of_nat MAXFILE + 1)); [by vm_compute |].
  unfold slot_range in Hk. lia.
Qed.

Lemma fdi_file : file_ok ff [] flog fsb fdi.
Proof.
  constructor; [done | |].
  - intros k Hk. rewrite fdi_slot by done. destruct (k =? 0); [|done]. intros _.
    split; [by apply ff_block | by rewrite ff_used].
  - intros k k' Hk Hk'. rewrite !fdi_slot by done. destruct (Z.eqb_spec k 0), (Z.eqb_spec k' 0); lia.
Qed.

Lemma fst0_file : file_st ff [] fst0 0 fip.
Proof. constructor; [apply fst0_tx | apply ff_fs | apply fdi_file | done | done]. Qed.

Lemma fdi_ok : dinode_ok fdi.
Proof. constructor; try done. repeat constructor; lia. Qed.

Lemma ff_inode : inode_block ff [] flog fsb fdi (IBLOCK 2 fsb).
Proof.
  change (IBLOCK 2 fsb) with 32. destruct (ff_block 32) as [B1 B2 B3 B4 B5]; [lia | lia |].
  constructor; [simpl; lia | done | done | done | done | by rewrite ff_used |].
  intros k Hk. rewrite fdi_slot by done. by destruct (k =? 0).
Qed.

Lemma ff_free : free_count ff fsb = 41%nat.
Proof. vm_compute. reflexivity. Qed.

Lemma size_list_to_set_le (l : list Z) : (size (list_to_set l : gset Z) ≤ length l)%nat.
Proof.
  induction l as [|x l IH]; [done |]. simpl. rewrite size_union_alt.
  assert (size ({[x]} : gset Z) = 1%nat) as -> by apply size_singleton.
  etrans; [|apply le_n_S, IH]. simpl. apply le_n_S, subseteq_size. set_solver.
Qed.

(** Room by counting *)
Lemma fits_count {D} (t : lst D) B :
  Z.of_nat (length (logged (ls_log t)) + length B) < Z.min (Z.min LOGSIZE (lg_size (ls_log t) - 1)) (bufs t - 2) →
  fits t B.
Proof.
  intros Hl. unfold fits. pose proof (size_list_to_set_le (logged (ls_log t) ++ B)) as Hs. rewrite length_app in Hs. lia.
Qed.

Lemma fits_file_count {D} (t : lst D) sb di n :
  Z.of_nat (length (logged (ls_log t)) + length (bmblocks sb) + n + 1) <
    Z.min (Z.min LOGSIZE (lg_size (ls_log t) - 1)) (bufs t - 2) →
  fits_file t sb di n.
Proof.
  intros Hl C HC. apply fits_count. rewrite !length_app. revert HC. unfold need_ind, ind_list.
  destruct (indirect di =? 0); simpl; lia.
Qed.

Lemma fst0_bufs : bufs (fs_l fst0) = 30.
Proof. unfold bufs. destruct (boot_counts fdisk 1) as [_ Hs]. cbn [fs_l fst0 ls_b ls_log]. rewrite Hs. reflexivity. Qed.

Lemma fst0_fits n : (n ≤ 25)%nat → fits_file (fs_l fst0) fsb fdi n.
Proof. intros Hn. apply fits_file_count. rewrite fst0_bufs, fsb_bmblocks. simpl. unfold LOGSIZE, MAXOPBLOCKS. lia. Qed.

(** ** Files *)

(** C7. [writei] of a file, with room in the log and enough free blocks,
    writes all of [src] at [off]: afterwards the contents of the file are
    [src] in that range and what they were elsewhere, its size has grown to
    the end of the range if that lies beyond it, and then the inode on disk
    is the one in memory; the free blocks taken are the file's own; the
    bitmap, the file and the cache are consistent again; and every other
    block in use is unchanged. *)
Theorem writei_correct {D} `{DiskLaws D} f lk (s : fsys D) i ip off src :
  file_st f lk s i ip → (length lk ≤ 1)%nat → dinode_ok (i_d ip) → di_type (i_d ip) ≠ T_DEV →
  inode_block f lk (ls_log (fs_l s)) (fs_sb s) (i_d ip) (IBLOCK (i_inum ip) (fs_sb s)) →
  0 ≤ off ≤ di_size (i_d ip) → off + Z.of_nat (length src) ≤ Z.of_nat MAXFILE * BSIZE →
  (nblocks off (length src) + need_ind (i_d ip) ≤ free_count f (fs_sb s))%nat →
  fits_file (fs_l s) (fs_sb s) (i_d ip) (S (nblocks off (length src))) →
  wp (writei i src off) s (λ r s', r = Z.of_nat (length src) ∧
    ∃ ws di', writei_post f lk s i ip off src ws di' s').
Proof. apply writei_spec. Qed.

Definition fsrc : list Z := replicate 600 5.

Lemma writei_correct_witness :
  wp (writei 0 fsrc 10) fst0 (λ r s', r = Z.of_nat (length fsrc) ∧
    ∃ ws di', writei_post ff [] fst0 0 fip 10 fsrc ws di' s').
Proof.
  apply (writei_correct ff [] fst0 0 fip 10 fsrc).
  - apply fst0_file.
  - simpl. lia.
  - apply fdi_ok.
  - done.
  - apply ff_inode.
  - simpl. lia.
  - by vm_compute.
  - change (fs_sb fst0) with fsb. rewrite ff_free. vm_compute. lia.
  - apply fst0_fits. vm_compute. lia.
Defined.

(** C29. What [writei] wrote, [readi] reads back. *)
Theorem writei_readi {D} `{DiskLaws D} f lk (s : fsys D) i ip off src :
  file_st f lk s i ip → (length lk ≤ 1)%nat → dinode_ok (i_d ip) → di_type (i_d ip) ≠ T_DEV → no_holes f (i_d ip) →
  inode_block f lk (ls_log (fs_l s)) (fs_sb s) (i_d ip) (IBLOCK (i_inum ip) (fs_sb s)) →
  0 ≤ off ≤ di_size (i_d ip) → off + Z.of_nat (length src) ≤ Z.of_nat MAXFILE * BSIZE →
  (nblocks off (length src) + need_ind (i_d ip) ≤ free_count f (fs_sb s))%nat →
  fits_file (fs_l s) (fs_sb s) (i_d ip) (S (nblocks off (length src))) →
  wp (writei i src off;; readi i off (Z.of_nat (length src))) s (λ r _, r = (Z.of_nat (length src), src)).
Proof.
  intros Hf Hl Hdi Hty Hh Hib Ho Hmax Hc Hfit. apply wp_bind. eapply wp_mono; [by apply (writei_spec f lk s i ip off src) |].
  intros r s' (_ & ws & di' & W). by eapply readi_written.
Qed.

Lemma fdi_no_holes : no_holes ff fdi.
Proof.
  split; [by vm_compute |]. intros k Hk Hs. unfold BSIZE in Hs. change (di_size fdi) with 10 in Hs.
  assert (k = 0) as -> by lia. by rewrite fdi_slot.
Qed.

Lemma writei_readi_witness :
  wp (writei 0 fsrc 10;; readi 0 10 (Z.of_nat (length fsrc))) fst0 (λ r _, r = (Z.of_nat (length fsrc), fsrc)).
Proof.
  apply (writei_readi ff [] fst0 0 fip 10 fsrc).
  - apply fst0_file.
  - simpl. lia.
  - apply fdi_ok.
  - done.
  - apply fdi_no_holes.
  - apply ff_inode.
  - simpl. lia.
  - by vm_compute.
  - change (fs_sb fst0) with fsb. rewrite ff_free. vm_compute. lia.
  - apply fst0_fits. vm_compute. lia.
Defined.

(** [readi] of a file returns the part of its contents inside the range
    asked for, and fails if the range starts beyond the end; it changes no
    block. *)
Theorem readi_correct {D} `{DiskLaws D} f lk (s : fsys D) i ip off n :
  file_st f lk s i ip → (length lk ≤ 1)%nat → di_type (i_d ip) ≠ T_DEV → no_holes f (i_d ip) →
  0 ≤ off → 0 ≤ n → off + n < 2 ^ 32 →
  let m := Z.min n (di_size (i_d ip) - off) in
  wp (readi i off n) s (λ r s', fdid f lk s [] s' ∧
    if di_size (i_d ip) <? off then r = (-1, []) else r = (m, content f (i_d ip) <$> seqZ off m)).
Proof.
  intros Hf Hl Hty Hh Ho Hn Hov m.
  apply readi_spec; try done; [apply Hf | lia | apply Hf | apply (ft_dev _ _ _ _ _ Hf) |].
  intros k Hk Hks. by eapply file_mapped.
Qed.

Lemma readi_correct_witness :
  wp (readi 0 4 100) fst0 (λ r s', fdid ff [] fst0 [] s' ∧ r = (6, content ff fdi <$> seqZ 4 6)).
Proof.
  apply (readi_correct ff [] fst0 0 fip 4 100).
  - apply fst0_file.
  - simpl. lia.
  - done.
  - apply fdi_no_holes.
  - lia.
  - lia.
  - lia.
Defined.

Lemma chunk_fits {D} (t : lst D) sb di off n :
  0 ≤ off → Z.of_nat n ≤ write_max → sb_size sb ≤ BPB →
  Z.of_nat (length (logged (ls_log t))) + MAXOPBLOCKS ≤ Z.min (Z.min LOGSIZE (lg_size (ls_log t) - 1)) (bufs t - 2) →
  (nblocks off n ≤ 4)%nat ∧ (length (bmblocks sb) ≤ 1)%nat ∧ fits_file t sb di (S (nblocks off n)).
Proof.
  intros Ho Hn Hsb Hc. assert (nblocks off n ≤ 4)%nat as Hb.
  { unfold nblocks. case_decide; [lia |]. unfold write_max, MAXOPBLOCKS in Hn. unfold BSIZE. zdiv. }
  assert (length (bmblocks sb) ≤ 1)%nat as Hm.
  { unfold bmblocks. rewrite length_fmap, length_seqZ. unfold BPB, BSIZE in *. zdiv. }
  split_and!; [done | done |]. apply fits_file_count. unfold MAXOPBLOCKS in Hc. lia.
Qed.

(** [writei] logs the bitmap, the inode, the indirect block and the blocks it
    writes to, and nothing else. *)
Lemma writei_logs {D} `{DiskLaws D} f lk (s : fsys D) i ip off src ws di' s' :
  tx f lk (fs_l s) → writei_post f lk s i ip off src ws di' s' →
  lg_n (ls_log (fs_l s')) ≤ lg_n (ls_log (fs_l s)) + Z.of_nat (length (bmblocks (fs_sb s)) + 2 + nblocks off (length src)).
Proof.
  intros Ht P. destruct (wp_step _ _ _ _ _ _ _ _ _ _ P) as (t' & -> & Hd). pose proof (tx_log _ _ _ (d_tx _ _ _ _ _ Hd)) as Hl'.
  set (B := bmblocks (fs_sb s) ++ IBLOCK (i_inum ip) (fs_sb s) ::
    (slot (apply_writes ws f) di' <$> -1 :: seqZ (off / BSIZE) (Z.of_nat (nblocks off (length src))))).
  assert (length (logged (ls_log t')) ≤ length (logged (ls_log (fs_l s)) ++ B))%nat as Hc.
  { apply submseteq_length, NoDup_submseteq; [apply Hl' |]. intros m [Hm|Hm]%(d_log _ _ _ _ _ Hd); apply elem_of_app; [by left | right].
    unfold B. rewrite elem_of_app, elem_of_cons. destruct (wp_logged _ _ _ _ _ _ _ _ _ _ P m Hm) as [?|[?|(k & Hk & ->)]]; [by left | by right; left |].
    right. right. apply list_elem_of_fmap. by exists k. }
  rewrite (length_logged _ Hl'), length_app, (length_logged _ (tx_log _ _ _ Ht)) in Hc. unfold B in Hc.
  rewrite length_app in Hc. cbn [length fmap list_fmap] in Hc. rewrite length_fmap, length_seqZ, Nat2Z.id in Hc.
  pose proof (lo_n _ Hl'). pose proof (lo_n _ (tx_log _ _ _ Ht)). cbn [fs_l set_fs_l set_fs_inodes]. lia.
Qed.

Lemma begin_op_reserves {D} (t t1 : lst D) :
  begin_op t = Ok (tt, t1) → 0 ≤ lg_outstanding (ls_log t) →
  lg_n (ls_log t1) + MAXOPBLOCKS ≤ LOGSIZE ∧ lg_n (ls_log t1) = lg_n (ls_log t) ∧ lg_size (ls_log t1) = lg_size (ls_log t) ∧ ls_b t1 = ls_b t.
Proof.
  unfold begin_op. erewrite bind_ok by reflexivity. destruct (lg_committing _); [done |].
  destruct (Z.ltb_spec LOGSIZE (lg_n (ls_log t) + (lg_outstanding (ls_log t) + 1) * MAXOPBLOCKS)); [done |].
  intros [= <-] Ho. cbn. unfold MAXOPBLOCKS in *. split_and!; [lia | done..].
Qed.

(** C31. The [max] of [filewrite] is small enough: when [begin_op] has admitted
    the operation, with the bitmap in one block, a log on the disk with room for
    [MAXOPBLOCKS] blocks more (which [begin_op] does not test) and that many
    spare buffers and two, [writei] of that many bytes at any offset of the
    file writes them all, and the log has then at most [MAXOPBLOCKS] blocks
    more. *)
Theorem filewrite_chunk_fits {D} `{DiskLaws D} f lk (s : fsys D) t1 i ip off src :
  begin_op (fs_l s) = Ok (tt, t1) → 0 ≤ lg_outstanding (ls_log (fs_l s)) →
  lg_n (ls_log (fs_l s)) + MAXOPBLOCKS < lg_size (ls_log (fs_l s)) → MAXOPBLOCKS + 2 ≤ Z.of_nat (nspare (ls_b (fs_l s))) → sb_size (fs_sb s) ≤ BPB →
  let s1 := set_fs_l t1 s in
  file_st f lk s1 i ip → (length lk ≤ 1)%nat → dinode_ok (i_d ip) → di_type (i_d ip) ≠ T_DEV →
  inode_block f lk (ls_log t1) (fs_sb s) (i_d ip) (IBLOCK (i_inum ip) (fs_sb s)) →
  0 ≤ off ≤ di_size (i_d ip) → off + Z.of_nat (length src) ≤ Z.of_nat MAXFILE * BSIZE →
  (nblocks off (length src) + need_ind (i_d ip) ≤ free_count f (fs_sb s))%nat → Z.of_nat (length src) ≤ write_max →
  wp (writei i src off) s1 (λ r s', r = Z.of_nat (length src) ∧ (∃ ws di', writei_post f lk s1 i ip off src ws di' s') ∧
    lg_n (ls_log (fs_l s')) ≤ lg_n (ls_log (fs_l s)) + MAXOPBLOCKS).
Proof.
  intros Hb0 Hout Hsz Hsp Hsb s1 Hf Hl Hdi Hty Hib Ho Hmax Hfree Hn.
  destruct (begin_op_reserves _ _ Hb0 Hout) as (Hres & En & Es & Eb).
  pose proof (tx_log _ _ _ (ft_tx _ _ _ _ _ Hf)) as Hlog. cbn [s1 fs_l set_fs_l] in Hlog. pose proof (lo_n _ Hlog) as Hn0.
  destruct (chunk_fits t1 (fs_sb s) (i_d ip) off (length src)) as (Hb & Hm & Hfit); [lia | done | done | |].
  { unfold bufs. rewrite (length_logged _ Hlog), Es, Eb. lia. }
  eapply wp_mono; [by apply (writei_spec f lk s1 i ip off src) |]. intros r s' (-> & ws & di' & P).
  split_and!; [done | by exists ws, di' |]. pose proof (writei_logs f lk s1 i ip off src ws di' s' (ft_tx _ _ _ _ _ Hf) P) as Hlg.
  cbn [s1 fs_l set_fs_l fs_sb] in Hlg. rewrite En in Hlg. unfold MAXOPBLOCKS. lia.
Qed.

Definition chunk : list Z := replicate 1536 5.

(** Before the operation began. *)
Definition fst_idle : fsys (traced memdisk) := set_fs_l (Lst (ls_b (fs_l fst0)) (set_ops 0 false flog)) fst0.

Lemma filewrite_chunk_fits_witness :
  wp (writei 0 chunk 10) (set_fs_l (fs_l fst0) fst_idle) (λ r s', r = Z.of_nat (length chunk) ∧
    (∃ ws di', writei_post ff [] (set_fs_l (fs_l fst0) fst_idle) 0 fip 10 chunk ws di' s') ∧
    lg_n (ls_log (fs_l s')) ≤ lg_n (ls_log (fs_l fst_idle)) + MAXOPBLOCKS).
Proof.
  apply (filewrite_chunk_fits ff [] fst_idle (fs_l fst0) 0 fip 10 chunk).
  - reflexivity.
  - simpl. lia.
  - by vm_compute.
  - destruct (boot_counts fdisk 1) as [_ Hs]. change (ls_b (fs_l fst_idle)) with (ls_b (fs_l fst0)).
    cbn [fs_l fst0 ls_b]. rewrite Hs. by vm_compute.
  - by vm_compute.
  - exact fst0_file.
  - simpl. lia.
  - apply fdi_ok.
  - done.
  - apply ff_inode.
  - simpl. lia.
  - by vm_compute.
  - change (fs_sb fst_idle) with fsb. rewrite ff_free. vm_compute. lia.
  - by vm_compute.
Defined.

(** ** Blocks *)

(** [balloc] takes a block that was free: it is marked in the bitmap,
    cleared, and nothing else changes; no block is handed out twice, and the
    file system is consistent again with one free block less. *)
Theorem balloc_correct {D} `{DiskLaws D} f lk (s : fsys D) :
  tx f lk (fs_l s) → (length lk ≤ 2)%nat → fs_ok f lk (ls_log (fs_l s)) (fs_sb s) →
  (1 ≤ free_count f (fs_sb s))%nat → fits_more (fs_l s) (fs_sb s) 1 →
  wp (balloc 1) s (λ b s', ∃ ws, took f (fs_sb s) b ws ∧ fdid f lk s ws s' ∧
    fs_ok (apply_writes ws f) lk (ls_log (fs_l s')) (fs_sb s') ∧
    free_count f (fs_sb s) = S (free_count (apply_writes ws f) (fs_sb s'))).
Proof.
  intros Ht Hl Hfs Hc Hf. eapply wp_mono; [by apply (balloc_ok f lk s) |]. intros b s' (ws & T & Hs').
  exists ws. pose proof (fdid_frame _ _ _ _ _ Hs') as (Esb & _). rewrite Esb. split_and!; try done.
  - eapply fs_ok_took; [done | done |]. destruct Hs' as (t' & -> & Hd). apply Hd.
  - by apply (free_count_took _ _ b).
Qed.

Lemma balloc_correct_witness :
  wp (balloc 1) fst0 (λ b s', ∃ ws, took ff fsb b ws ∧ fdid ff [] fst0 ws s' ∧
    fs_ok (apply_writes ws ff) [] (ls_log (fs_l s')) (fs_sb s') ∧
    free_count ff fsb = S (free_count (apply_writes ws ff) (fs_sb s'))).
Proof.
  apply (balloc_correct ff [] fst0).
  - apply fst0_tx.
  - simpl. lia.
  - apply ff_fs.
  - change (fs_sb fst0) with fsb. rewrite ff_free. lia.
  - apply (fits_file_more _ _ fdi), fst0_fits. lia.
Defined.

(** With no free block left, [balloc] stops the kernel. *)
Theorem balloc_out_of_blocks {D} `{DiskLaws D} f lk (s : fsys D) :
  tx f lk (fs_l s) → (length lk ≤ 2)%nat → fs_ok f lk (ls_log (fs_l s)) (fs_sb s) → free_count f (fs_sb s) = 0%nat →
  balloc 1 s = Err (EPanic "balloc: out of blocks").
Proof.
  intros Ht Hl Hfs Hc. apply (balloc_full f lk); [done | done | apply Hfs |]. intros j Hj.
  destruct (used f (fs_sb s) j) eqn:Hu; [done |]. apply nil_length_inv in Hc. exfalso.
  apply (not_elem_of_nil j). rewrite <- Hc. apply list_elem_of_filter. split; [done |]. apply elem_of_seqZ. lia.
Qed.

(** The same file system with a superblock that ends at the directory's block. *)
Definition full_sb : superblock := Superblock 39 2 20 LOGSIZE 2 32 36.
Definition full_fs : fsys (traced memdisk) := set_fs_sb full_sb fst0.

Lemma balloc_out_of_blocks_witness : balloc 1 full_fs = Err (EPanic "balloc: out of blocks").
Proof.
  apply (balloc_out_of_blocks ff [] full_fs).
  - apply fst0_tx.
  - simpl. lia.
  - assert (∀ b, 0 ≤ b < 39 → used ff full_sb b = true) as Hu.
    { intros b Hb. change (used ff fsb b = true). rewrite ff_used by lia. apply Z.ltb_lt. lia. }
    constructor.
    + destruct (fo_map _ _ _ _ ff_fs) as [M1 M2 M3 M4 M5].
      constructor; simpl; try lia; intros b Hb; [apply M3 | apply M4 | apply M5]; simpl; lia.
    + intros b Hb Hf. rewrite Hu in Hf by done. done.
  - vm_compute. reflexivity.
Defined.

(** [bfree] of a block that [balloc] gave makes exactly it free again. *)
Theorem balloc_bfree {D} `{DiskLaws D} f lk (s : fsys D) :
  tx f lk (fs_l s) → (length lk ≤ 2)%nat → fs_ok f lk (ls_log (fs_l s)) (fs_sb s) →
  (1 ≤ free_count f (fs_sb s))%nat → fits_more (fs_l s) (fs_sb s) 1 →
  wp (b ← balloc 1; bfree 1 b) s (λ _ s', ∃ ws, fdid f lk s ws s' ∧
    ∀ c, 0 ≤ c < sb_size (fs_sb s) → used (apply_writes ws f) (fs_sb s) c = used f (fs_sb s) c).
Proof.
  intros Ht Hl Hfs Hc Hf. apply wp_bind. eapply wp_mono; [by apply (balloc_ok f lk s) |].
  intros b s1 (ws & T & Hs1). pose proof (fdid_frame _ _ _ _ _ Hs1) as (Esb & _).
  pose proof (fdid_tx _ _ _ _ _ Hs1) as Ht1. pose proof (tk_range _ _ _ _ T) as Hr.
  assert (fs_ok (apply_writes ws f) lk (ls_log (fs_l s1)) (fs_sb s)) as Hfs1.
  { eapply fs_ok_took; [done | done |]. destruct Hs1 as (t' & -> & Hd). apply Hd. }
  eapply wp_mono.
  { eapply (bfree_spec (apply_writes ws f) lk s1 b); rewrite ?Esb; try done; [apply Hfs1 | |].
    - rewrite (tk_used _ _ _ _ T) by done. by rewrite Z.eqb_refl.
    - eapply fdid_fits; [exact Hs1 |]. eapply fits_sub; [|apply (Hf [b]); simpl; lia].
      intros m. rewrite !elem_of_app, !list_elem_of_singleton.
      intros [?%(tk_ws _ _ _ _ T)| ->]; [tauto |]. right; left. by apply BBLOCK_bmblocks. }
  rewrite Esb. intros [] s2 Hs2. exists (ws ++ free_ws (apply_writes ws f) (fs_sb s) b). split; [by eapply fdid_trans |].
  intros c Hcr. rewrite apply_writes_app. erewrite used_free; [|exact Ht1 | apply Hfs1 | done | done].
  rewrite (tk_used _ _ _ _ T) by done. destruct (Z.eqb_spec c b) as [->|]; [|done]. simpl. by rewrite (tk_free _ _ _ _ T).
Qed.

Lemma balloc_bfree_witness :
  wp (b ← balloc 1; bfree 1 b) fst0 (λ _ s', ∃ ws, fdid ff [] fst0 ws s' ∧
    ∀ c, 0 ≤ c < 80 → used (apply_writes ws ff) fsb c = used ff fsb c).
Proof.
  apply (balloc_bfree ff [] fst0).
  - apply fst0_tx.
  - simpl. lia.
  - apply ff_fs.
  - change (fs_sb fst0) with fsb. rewrite ff_free. lia.
  - apply (fits_file_more _ _ fdi), fst0_fits. lia.
Defined.

(** The inode that [iupdate] wrote is the one that [ilock] reads, in
    memory again later; the other inodes of its block keep their values. *)
Theorem iupdate_ilock {D} `{DiskLaws D} f lk (s : fsys D) i ip j jp x :
  tx f lk (fs_l s) → (length lk ≤ 2)%nat →
  fs_inodes s !! i = Some ip → i_dev ip = 1 → 0 ≤ i_inum ip → dinode_ok (i_d ip) → di_type (i_d ip) ≠ 0 →
  fs_inodes s !! j = Some jp → i_dev jp = 1 → i_inum jp = i_inum ip → 1 ≤ i_ref jp →
  sl_locked (i_lock jp) = false → i_valid jp = false →
  let ib := IBLOCK (i_inum ip) (fs_sb s) in
  f ib = Some x → ib ∉ lk → home (ls_log (fs_l s)) ib → fits (fs_l s) [ib] →
  wp (iupdate i;; ilock j) s (λ _ s',
    fs_inodes s' !! j = Some (Inode 1 (i_inum ip) (i_ref jp) (Sleeplock true (cur_pid s)) true (i_d ip)) ∧
    ∃ x', lview (ls_b (fs_l s')) ib = Some x' ∧
      ∀ k, 0 ≤ k → k / IPB = i_inum ip / IPB → k ≠ i_inum ip → get_dinode x' (ioff k) = get_dinode x (ioff k)).
Proof.
  intros Ht Hl Hi Hd Hi0 Hdi Hty Hj Hjd Hjn Hjr Hjl Hjv ib Hx Hlk Hh Hfit.
  pose proof (tx_length _ _ _ _ _ Ht Hx) as Hlx.
  assert (ioff (i_inum ip) + dinode_size ≤ length x)%nat as Hoff by (rewrite Hlx; apply ioff_bound).
  apply wp_bind. eapply wp_mono; [by apply (iupdate_spec f lk s i ip x) |]. fold ib. intros [] s1 Hs1.
  pose proof (fdid_frame _ _ _ _ _ Hs1) as (Esb & Ei & _). pose proof (fdid_tx _ _ _ _ _ Hs1) as Ht1.
  set (x' := put_dinode (ioff (i_inum ip)) (i_d ip) x) in *.
  assert (get_dinode x' (ioff (i_inum ip)) = i_d ip) as Eg by (by apply get_put_dinode).
  assert (cur_pid s1 = cur_pid s) as Ep.
  { destruct Hs1 as (t1 & -> & Hd1). unfold cur_pid. simpl. by destruct (d_disk _ _ _ _ _ Hd1). }
  assert (apply_writes [(ib, x')] f ib = Some x') as Ex by (by rewrite apply_writes_one, Z.eqb_refl).
  eapply wp_mono.
  { apply (ilock_spec (apply_writes [(ib, x')] f) lk s1 j jp x'); rewrite ?Ei, ?Hjn, ?Esb; try done. by rewrite Eg. }
  rewrite Hjn, Eg, Ei, Ep. intros [] s2 (s3 & Hs3 & ->). split.
  - simpl. apply list_lookup_insert_eq. by eapply lookup_lt_Some.
  - exists x'. split.
    + simpl. rewrite (tx_view _ _ _ (fdid_tx _ _ _ _ _ Hs3)). exact Ex.
    + intros k Hk Hkd Hne. apply get_put_dinode_ne; [done | done |]. by apply ioff_disjoint.
Qed.

Definition fip2 : inode := Inode 1 2 1 initsleeplock false dinode_zero.
Definition fst2 : fsys (traced memdisk) := set_fs_inodes (fip :: fip2 :: replicate 48 inode_zero) fst0.

Lemma iupdate_ilock_witness :
  wp (iupdate 0;; ilock 1) fst2 (λ _ s',
    fs_inodes s' !! 1%nat = Some (Inode 1 2 1 (Sleeplock true 1) true fdi) ∧
    ∃ x', lview (ls_b (fs_l s')) 32 = Some x' ∧
      ∀ k, 0 ≤ k → k / IPB = 2 / IPB → k ≠ 2 →
        get_dinode x' (ioff k) = get_dinode iblock (ioff k)).
Proof.
  apply (iupdate_ilock ff [] fst2 0 fip 1 fip2 iblock).
  - apply fst0_tx.
  - simpl. lia.
  - done.
  - done.
  - simpl. lia.
  - apply fdi_ok.
  - done.
  - done.
  - done.
  - done.
  - simpl. lia.
  - done.
  - done.
  - reflexivity.
  - by intros ?%elem_of_nil.
  - by right.
  - apply fits_count. change (bufs (fs_l fst2)) with (bufs (fs_l fst0)). rewrite fst0_bufs. by vm_compute.
Defined.

(** ** Directories *)

(** [dirlookup] returns the first entry of the directory that is in use
    and has the name, with a reference to its inode; or nothing if there is
    none. *)
Theorem dirlookup_correct {D} `{DiskLaws D} f lk (s : fsys D) i ip n name :
  dir_st f lk s i ip n → 0 ≤ n → (∃ e ep, fs_inodes s !! e = Some ep ∧ i_ref ep = 0) →
  wp (dirlookup i name) s (λ r s',
    match list_find (λ k, dmatch f (i_d ip) name k = true) (seqZ 0 n) with
    | None => r = None ∧ fdid f lk s [] s'
    | Some (_, m) => ∃ j jp' s1, r = Some (j, 16 * m) ∧ fdid f lk s [] s1 ∧
        got (fs_inodes s) 1 (de_inum (dentry f (i_d ip) m)) j jp' ∧
        s' = set_fs_inodes (<[j := jp']> (fs_inodes s)) s1
    end).
Proof.
  intros Hd Hn He. destruct (list_find _ _) as [[k m]|] eqn:E.
  - apply list_find_Some in E as ([Hm Hk]%lookup_seqZ & Hmm & Hmin).
    apply (dirlookup_some f lk s i ip n); try done; [lia |]. intros j Hj.
    destruct (dmatch f (i_d ip) name j) eqn:Hdj; [|done]. exfalso. apply (Hmin (Z.to_nat j) j); [|lia | done].
    apply lookup_seqZ. lia.
  - apply list_find_None in E. rewrite list.Forall_forall in E. apply (dirlookup_none f lk s i ip n); [done | done |].
    intros j Hj. apply not_true_is_false, E, elem_of_seqZ. lia.
Qed.

Definition dip : inode := Inode 1 3 1 (Sleeplock true 1) true ddi.
Definition fst3 : fsys (traced memdisk) := set_fs_inodes (dip :: replicate 49 inode_zero) fst0.

Lemma ddi_slot k : slot_range k → slot ff ddi k = if k =? 0 then 38 else 0.
Proof.
  intros Hk. apply Z.eqb_eq.
  apply (forallb_seqZ (λ k, slot ff ddi k =? if k =? 0 then 38 else 0) (-1) (Z.of_nat MAXFILE + 1)); [by vm_compute |].
  unfold slot_range in Hk. lia.
Qed.

Lemma ddi_file : file_ok ff [] flog fsb ddi.
Proof.
  constructor; [done | |].
  - intros k Hk. rewrite ddi_slot by done. destruct (k =? 0); [|done]. intros _.
    split; [by apply ff_block | by rewrite ff_used].
  - intros k k' Hk Hk'. rewrite !ddi_slot by done. destruct (Z.eqb_spec k 0), (Z.eqb_spec k' 0); lia.
Qed.

Lemma fst3_dir : dir_st ff [] fst3 0 dip 2.
Proof.
  constructor; [|simpl; lia | done | done |].
  - constructor; [apply fst0_tx | apply ff_fs | apply ddi_file | done | done].
  - split; [by vm_compute |]. intros k Hk Hs. unfold BSIZE in Hs. change (di_size (i_d dip)) with 32 in Hs.
    assert (k = 0) as -> by lia. by rewrite ddi_slot.
Qed.

Lemma fst3_empty : ∃ e ep, fs_inodes fst3 !! e = Some ep ∧ i_ref ep = 0.
Proof. by exists 1%nat, inode_zero. Qed.

Lemma dirlookup_correct_witness :
  wp (dirlookup 0 [97]) fst3 (λ r s', ∃ j jp' s1, r = Some (j, 16) ∧ fdid ff [] fst3 [] s1 ∧
    got (fs_inodes fst3) 1 2 j jp' ∧ s' = set_fs_inodes (<[j := jp']> (fs_inodes fst3)) s1).
Proof.
  eapply wp_mono; [apply (dirlookup_correct ff [] fst3 0 dip 2 [97]); [apply fst3_dir | lia | apply fst3_empty] |].
  intros r s'. assert (list_find (λ k, dmatch ff (i_d dip) [97] k = true) (seqZ 0 2) = Some (1%nat, 1)) as -> by (by vm_compute).
  assert (de_inum (dentry ff (i_d dip) 1) = 2) as -> by (by vm_compute). done.
Defined.

(** C8. After [dirlink] of a name that the directory did not have,
    [dirlookup] of the name gives a reference to the inode linked. *)
Theorem dirlink_dirlookup {D} `{DiskLaws D} f lk (s : fsys D) i ip n name inum :
  dir_st f lk s i ip n → 0 ≤ n → dinode_ok (i_d ip) →
  inode_block f lk (ls_log (fs_l s)) (fs_sb s) (i_d ip) (IBLOCK (i_inum ip) (fs_sb s)) →
  16 * n + 16 ≤ Z.of_nat MAXFILE * BSIZE → (1 + need_ind (i_d ip) ≤ free_count f (fs_sb s))%nat →
  fits_file (fs_l s) (fs_sb s) (i_d ip) 2 → 0 < inum < 2 ^ 16 →
  (∀ j, 0 ≤ j < n → dmatch f (i_d ip) name j = false) →
  (∃ e ep, fs_inodes s !! e = Some ep ∧ i_ref ep = 0) →
  wp (r ← dirlink i name inum; r' ← dirlookup i name; mret (r, r')) s (λ r s',
    ∃ j jp off, r = (0, Some (j, off)) ∧ fs_inodes s' !! j = Some jp ∧ in_use 1 inum jp).
Proof.
  intros Hd Hn Hdi Hib Hmax Hc Hfit Hin Hno He. apply wp_bind.
  eapply wp_mono; [by apply (dirlink_spec f lk s i ip n) |]. intros r s1 (-> & s0 & m & ws & di' & Hs0 & Hm & W).
  assert (u16 inum = inum) as E by (apply Z.mod_small; lia). rewrite E in W. apply wp_bind. eapply wp_mono; [by eapply dirlookup_linked |].
  intros r s2 (j & jp & -> & Hj & Hu). apply wp_ret. by exists j, jp, (16 * m).
Qed.

Lemma ddi_ok : dinode_ok ddi.
Proof. constructor; try done. repeat constructor; lia. Qed.

Lemma dir_inode : inode_block ff [] flog fsb ddi (IBLOCK 3 fsb).
Proof.
  change (IBLOCK 3 fsb) with 32. destruct (ff_block 32) as [B1 B2 B3 B4 B5]; [lia | lia |].
  constructor; [simpl; lia | done | done | done | done | by rewrite ff_used |].
  intros k Hk. rewrite ddi_slot by done. by destruct (k =? 0).
Qed.

Lemma dirlink_dirlookup_witness :
  wp (r ← dirlink 0 [98] 7; r' ← dirlookup 0 [98]; mret (r, r')) fst3 (λ r s',
    ∃ j jp off, r = (0, Some (j, off)) ∧ fs_inodes s' !! j = Some jp ∧ in_use 1 7 jp).
Proof.
  apply (dirlink_dirlookup ff [] fst3 0 dip 2 [98] 7).
  - apply fst3_dir.
  - lia.
  - apply ddi_ok.
  - apply dir_inode.
  - by vm_compute.
  - change (fs_sb fst3) with fsb. rewrite ff_free. vm_compute. lia.
  - apply fits_file_count. change (bufs (fs_l fst3)) with (bufs (fs_l fst0)). rewrite fst0_bufs. by vm_compute.
  - lia.
  - intros j Hj. assert (j = 0 ∨ j = 1) as [->| ->] by lia; by vm_compute.
  - apply fst3_empty.
Defined.

(** C30. The inode cache never holds two entries in use for one inode: [iget]
    returns the entry there is, with one reference more, or a free one, and
    fails only when there is neither. *)
Theorem iget_unique {D} (s : fsys D) dev inum :
  icache_ok (fs_inodes s) →
  match iget dev inum s with
  | Ok (j, s') => icache_ok (fs_inodes s') ∧ ∃ jp', got (fs_inodes s) dev inum j jp' ∧ fs_inodes s' !! j = Some jp' ∧
      ∀ k, k ≠ j → fs_inodes s' !! k = fs_inodes s !! k
  | Err e => e = EPanic "iget: no inodes" ∧ ∀ k kp, fs_inodes s !! k = Some kp → i_ref kp ≠ 0 ∧ ¬ in_use dev inum kp
  end.
Proof.
  intros Hok. destruct (iget dev inum s) as [[j s']|e] eqn:E.
  - assert (∃ jp', got (fs_inodes s) dev inum j jp' ∧ s' = set_fs_inodes (<[j := jp']> (fs_inodes s)) s) as (jp' & G & ->).
    { by apply iget_ok. }
    split; [by eapply got_ok |]. exists jp'. split_and!; [done | |].
    + destruct G as (jp & Hj & _). apply list_lookup_insert_eq. by eapply lookup_lt_Some.
    + intros k Hk. by apply list_lookup_insert_ne.
  - by apply iget_err in E.
Qed.

Lemma iget_unique_witness :
  match iget 1 3 fst3 with
  | Ok (j, s') => icache_ok (fs_inodes s') ∧ ∃ jp', got (fs_inodes fst3) 1 3 j jp' ∧ fs_inodes s' !! j = Some jp' ∧
      ∀ k, k ≠ j → fs_inodes s' !! k = fs_inodes fst3 !! k
  | Err e => e = EPanic "iget: no inodes" ∧ ∀ k kp, fs_inodes fst3 !! k = Some kp → i_ref kp ≠ 0 ∧ ¬ in_use 1 3 kp
  end.
Proof.
  apply (iget_unique fst3 1 3). intros i j ip jp d n Hi Hj (Hri & _) (Hrj & _).
  destruct i as [|i], j as [|j]; [done | | |].
  - apply lookup_replicate in Hj as [-> _]. simpl in Hrj. lia.
  - apply lookup_replicate in Hi as [-> _]. simpl in Hri. lia.
  - apply lookup_replicate in Hi as [-> _]. simpl in Hri. lia.
Defined.

(** [skipelem] splits a path at its slashes: it gives the first element
    that is not empty, cut to [DIRSIZ] characters, and a shorter rest that
    starts with no slash and has the other elements; or nothing exactly if
    there are no elements.  So [namex] looks up the elements in order and
    ends. *)
Theorem skipelem_correct path :
  match skipelem path, elems path with
  | None, [] => True
  | Some (rest, name), e :: es =>
    name = take DIRSIZ e ∧ elems rest = es ∧ head rest ≠ Some slash ∧ (length rest < length path)%nat
  | _, _ => False
  end.
Proof. apply skipelem_spec. Qed.

(** ** Paths *)

(** C6. [namex] ends, and returns the inode that the walk along the
    directories of the disk leads to, with the last name of the path; or,
    asked for the parent, the directory before it; or nothing if an element
    is missing or is not a directory.  It takes exactly one reference, to the
    inode returned, and none if there is none; it leaves every inode unlocked,
    the one returned included, and as on the disk, and writes no block. *)
Theorem namex_correct {D} `{DiskLaws D} f (s : fsys D) P path parent :
  tx f [] (fs_l s) → fs_ok f [] (ls_log (fs_l s)) (fs_sb s) → fs_tree f (ls_log (fs_l s)) (fs_sb s) P →
  icache f (fs_sb s) (cur_pid s) None (fs_inodes s) → 2 ≤ spare (fs_inodes s) → P (start s path) → cwd_ok s path →
  wp (namex path parent) s (λ r s',
    tx f [] (fs_l s') ∧ icache f (fs_sb s) (cur_pid s) None (fs_inodes s') ∧
    match walk f (fs_sb s) parent (start s path) [] (elems path) with
    | None => r = None ∧ ∀ k, refs (fs_inodes s') k = refs (fs_inodes s) k
    | Some (inum, name) => ∃ j jp, r = Some (j, name) ∧ fs_inodes s' !! j = Some jp ∧ in_use 1 inum jp ∧
        ∀ k, refs (fs_inodes s') k = refs (fs_inodes s) k + if k =? inum then 1 else 0
    end).
Proof.
  intros Ht Hfs Htree C Hsp HP Hcwd. eapply wp_mono; [by apply (namex_spec f s P) |]. intros r s' W.
  unfold walked in W. destruct (walk _ _ _ _ _ _) as [[inum name]|].
  - destruct W as (j & l' & -> & Hn & [A1 (jp & Hj & Hu & _) A3 _]). destruct (nst_facts f s l' s' Hn) as (-> & _ & _ & Ht' & _).
    split_and!; try done. by exists j, jp.
  - destruct W as (-> & l' & Hn & C' & Hr). by destruct (nst_facts f s l' s' Hn) as (-> & _ & _ & Ht' & _).
Qed.

(** The process is in the directory, and asks for "./a/". *)
Definition cip : inode := Inode 1 3 1 initsleeplock false dinode_zero.
Definition fst4 : fsys (traced memdisk) :=
  Fsys (fs_l fst0) fsb (cip :: replicate 49 inode_zero) (replicate 10 None) (Cons false false [] 0 [] [] 0 0 0) (Some 0%nat) false.

Lemma ff_tree : fs_tree ff flog fsb (λ i, i = 2 ∨ i = 3).
Proof.
  assert (dino ff fsb 2 = fdi) as E2 by (by vm_compute). assert (dino ff fsb 3 = ddi) as E3 by (by vm_compute).
  constructor.
  - intros i [-> | ->]; (constructor; [change (is_Some (ff 32)); apply ff_some; lia | ..]).
    1-3: by rewrite E2.
    1-2: by rewrite E3.
    rewrite E3. intros _.
    split_and!; [apply ddi_file | apply (ds_holes _ _ _ _ _ _ fst3_dir) | done | done].
  - intros i k [-> | ->]; [by rewrite E2 |]. rewrite E3. intros _ Hk _. change (di_size ddi / 16) with 2 in Hk.
    assert (k = 0 ∨ k = 1) as [-> | ->] by lia; [right | left]; vm_compute; reflexivity.
Qed.

Lemma fst4_cache : icache ff fsb 1 None (fs_inodes fst4).
Proof.
  constructor.
  - intros i j ip jp dev inum Hi Hj (Hri & _) (Hrj & _). destruct i as [|i], j as [|j]; [done | | |].
    all: first [apply lookup_replicate in Hj as [-> _]; simpl in Hrj; lia | apply lookup_replicate in Hi as [-> _]; simpl in Hri; lia].
  - intros [|j] jp Hj; [injection Hj as <- | apply lookup_replicate in Hj as [-> _]]; constructor; simpl; done || lia.
  - intros [|j] jp Hj; [injection Hj as <- | apply lookup_replicate in Hj as [-> _]]; done.
Qed.

Lemma namex_correct_witness :
  wp (namex [46; 47; 97; 47] false) fst4 (λ r s', tx ff [] (fs_l s') ∧ icache ff fsb 1 None (fs_inodes s') ∧
    ∃ j jp, r = Some (j, [97]) ∧ fs_inodes s' !! j = Some jp ∧ in_use 1 2 jp ∧
      ∀ k, refs (fs_inodes s') k = refs (fs_inodes fst4) k + if k =? 2 then 1 else 0).
Proof.
  assert (walk ff fsb false 3 [] (elems [46; 47; 97; 47]) = Some (2, [97])) as E by (by vm_compute).
  pose proof (namex_correct ff fst4 (λ i, i = 2 ∨ i = 3) [46; 47; 97; 47] false fst0_tx ff_fs ff_tree fst4_cache) as W.
  change (start fst4 [46; 47; 97; 47]) with 3 in W. change (fs_sb fst4) with fsb in W. rewrite E in W.
  apply W; [by vm_compute | by right |]. intros _. exists 0%nat, cip. split_and!; reflexivity.
Defined.
