(* ===== verification/PipeSpec.v ===== *)
(** * Pipes as queues ([pipe.c])

    [pipe_rep pp q]: the ring buffer holds the bytes [q], oldest first.
    [pipewrite] appends to it and [piperead] takes from its front; user
    memory is read and written byte by byte on the way. *)

From S2P Require Import Prelude Mmu Mem Spinlock Kalloc Vm ProcDefs Crypt Bytes Disk Bio FsFormat Log Console Fs Kernel File.

Record pipe_rep (pp : pipe) (q : list Z) : Prop := PipeRep {
  pr_len : Z.of_nat (length (pp_data pp)) = PIPESIZE;
  pr_read : 0 ≤ pp_nread pp < 2 ^ 32;
  pr_write : pp_nwrite pp = u32 (pp_nread pp + Z.of_nat (length q));
  pr_size : Z.of_nat (length q) ≤ PIPESIZE;
  pr_data i b : q !! i = Some b → pp_data pp !! Z.to_nat ((pp_nread pp + Z.of_nat i) mod PIPESIZE) = Some b;
}.

(** The indices wrap at a multiple of the size. *)
Lemma u32_mod_pipe x : u32 x mod PIPESIZE = x mod PIPESIZE.
Proof. unfold u32, PIPESIZE. change (2 ^ 32) with (2 ^ 23 * 512). zdiv. Qed.

Lemma pipe_full_rep pp q : pipe_rep pp q → pipe_full pp = (Z.of_nat (length q) =? PIPESIZE).
Proof.
  intros [R1 R2 R3 R4 R5]. unfold pipe_full. rewrite R3. unfold u32, PIPESIZE in *.
  destruct (Z.eqb_spec (Z.of_nat (length q)) 512) as [->|Hne]; [apply Z.eqb_refl |]. apply Z.eqb_neq. zdiv.
Qed.

Lemma pipe_empty_rep pp q : pipe_rep pp q → pipe_empty pp = (Z.of_nat (length q) =? 0).
Proof.
  intros [R1 R2 R3 R4 R5]. unfold pipe_empty. rewrite R3. unfold u32, PIPESIZE in *.
  destruct (Z.eqb_spec (Z.of_nat (length q)) 0) as [->|Hne].
  - rewrite Z.add_0_r, Z.mod_small by lia. apply Z.eqb_refl.
  - apply Z.eqb_neq. zdiv.
Qed.

Lemma pipe_put_rep pp q b :
  pipe_rep pp q → Z.of_nat (length q) < PIPESIZE → pipe_rep (pipe_put b pp) (q ++ [u8 b]).
Proof.
  intros [R1 R2 R3 R4 R5] Hl. assert (0 < PIPESIZE) as Hp by done.
  assert (pp_nwrite pp mod PIPESIZE = (pp_nread pp + Z.of_nat (length q)) mod PIPESIZE) as Ew by (rewrite R3; apply u32_mod_pipe).
  pose proof (Z.mod_pos_bound (pp_nread pp + Z.of_nat (length q)) PIPESIZE Hp) as Hb.
  constructor; simpl.
  - by rewrite length_insert.
  - done.
  - rewrite length_app, R3. simpl. unfold u32. zdiv.
  - rewrite length_app. simpl. lia.
  - intros i c Hi. rewrite Ew. destruct (decide (i < length q)%nat) as [Hlt|Hge].
    + rewrite lookup_app_l in Hi by done. rewrite list_lookup_insert_ne; [by apply R5 |].
      intros E%Z2Nat.inj; [|apply Z.mod_pos_bound; lia..]. unfold PIPESIZE in *. zdiv.
    + assert (i = length q) as ->.
      { apply lookup_lt_Some in Hi. rewrite length_app in Hi. simpl in Hi. lia. }
      rewrite lookup_app_r, Nat.sub_diag in Hi by lia. simplify_eq/=. apply list_lookup_insert_eq. lia.
Qed.

Lemma pipe_take_rep pp b q :
  pipe_rep pp (b :: q) → (pipe_take pp).1 = b ∧ pipe_rep (pipe_take pp).2 q.
Proof.
  intros [R1 R2 R3 R4 R5]. split.
  - simpl. pose proof (R5 0%nat b eq_refl) as E. rewrite Z.add_0_r in E. by rewrite E.
  - constructor; simpl in *.
    + done.
    + apply Z.mod_pos_bound. lia.
    + rewrite R3. unfold u32. zdiv.
    + lia.
    + intros i c Hi. rewrite <- (R5 (S i) c) by done. do 2 f_equal.
      rewrite Z.add_mod, u32_mod_pipe, <- Z.add_mod by done. f_equal. lia.
Qed.

Section PipeSpec.
Context {D : Type}.

(** User memory does not depend on the pipes. *)
Lemma on_u_pipes {A} (c : M ustate A) (s : kst D) P :
  on_u c (set_k_pipes P s) =
    match on_u c s with Ok (a, s') => Ok (a, set_k_pipes P s') | Err e => Err e end.
Proof.
  unfold on_u. change (cur_proc (set_k_pipes P s)) with (cur_proc s). simpl.
  destruct (k_cur s) as [i|]; [|done]. destruct (cur_proc s) as [p|]; [|done].
  by destruct (c (Ustate (k_mach s) p)) as [[a u]|e].
Qed.

Lemma on_u_keeps {A} (c : M ustate A) (s s' : kst D) a : on_u c s = Ok (a, s') → k_pipes s' = k_pipes s.
Proof.
  unfold on_u. destruct (k_cur s) as [i|]; [|done]. destruct (cur_proc s) as [p|]; [|done].
  destruct (c (Ustate (k_mach s) p)) as [[b u]|e]; [|done]. by intros [= _ <-].
Qed.

Lemma ustore_bytes_pipes va bs (s : kst D) P :
  ustore_bytes va bs (set_k_pipes P s) =
    match ustore_bytes va bs s with Ok (a, s') => Ok (a, set_k_pipes P s') | Err e => Err e end.
Proof.
  revert va s. induction bs as [|b bs IH]; intros va s; [done |]. cbn [ustore_bytes]. unfold mbind, M_bind, ustore8.
  rewrite on_u_pipes. destruct (on_u _ s) as [[[] s1]|e]; [apply IH | done].
Qed.

Lemma uload_bytes_pipes va n (s : kst D) P :
  uload_bytes va n (set_k_pipes P s) =
    match uload_bytes va n s with Ok (a, s') => Ok (a, set_k_pipes P s') | Err e => Err e end.
Proof.
  revert va s. induction n as [|n IH]; intros va s; [done |]. cbn [uload_bytes]. unfold mbind, M_bind, uload8.
  rewrite on_u_pipes. destruct (on_u _ s) as [[b s1]|e]; [|done]. rewrite IH.
  by destruct (uload_bytes _ n s1) as [[bs s2]|e].
Qed.

Lemma u32_next addr i : u32 (u32 (addr + i) + 1) = u32 (addr + (i + 1)).
Proof. unfold u32. zdiv. Qed.

(** The byte [piperead] stores, and the loop *)
Lemma piperead_loop_spec p addr n i (s s1 : kst D) pp q :
  k_pipes s !! p = Some pp → pipe_rep pp q → let m := Nat.min n (length q) in
  ustore_bytes (u32 (addr + i)) (take m q) s = Ok (tt, s1) →
  ∃ pp', pipe_rep pp' (drop m q) ∧ pp_readopen pp' = pp_readopen pp ∧ pp_writeopen pp' = pp_writeopen pp ∧
    piperead_loop p addr i n s = Ok (i + Z.of_nat m, set_k_pipes (<[p := pp']> (k_pipes s)) s1).
Proof.
  revert i s s1 pp q. induction n as [|n IH]; intros i s s1 pp q Hp Hr m Hu; cbn [piperead_loop].
  { exists pp. simpl in Hu. injection Hu as <-. rewrite Z.add_0_r. split_and!; try done.
    rewrite insert_id by done. by destruct s. }
  erewrite bind_ok by (unfold pipe_get; by rewrite Hp). rewrite (pipe_empty_rep _ _ Hr).
  destruct q as [|b q].
  { exists pp. simpl in Hu. injection Hu as <-. rewrite Z.add_0_r. split_and!; try done.
    rewrite insert_id by done. by destruct s. }
  destruct (Z.eqb_spec (Z.of_nat (length (b :: q))) 0); [simpl in *; lia |].
  destruct (pipe_take_rep _ _ _ Hr) as [Eb Hr']. destruct (pipe_take pp) as [b' pp1] eqn:Et. simpl in Eb, Hr'. subst b'.
  assert (pp_readopen pp1 = pp_readopen pp ∧ pp_writeopen pp1 = pp_writeopen pp) as [Eo1 Eo2] by (by unfold pipe_take in Et; simplify_eq).
  erewrite bind_ok by reflexivity. unfold m in *. cbn [length Nat.min take drop ustore_bytes] in *.
  apply bind_inv in Hu as ([] & s0 & Hs0 & Hu).
  erewrite bind_ok by (unfold ustore8; rewrite on_u_pipes; fold (ustore8 (D:=D) (u32 (addr + i)) b); by rewrite Hs0).
  rewrite u32_next in Hu.
  destruct (IH (i + 1) (set_k_pipes (<[p := pp1]> (k_pipes s)) s0) (set_k_pipes (<[p := pp1]> (k_pipes s)) s1) pp1 q)
    as (pp' & Hr2 & Ho1 & Ho2 & E).
  - simpl. by rewrite lookup_insert_eq.
  - done.
  - rewrite ustore_bytes_pipes. by rewrite Hu.
  - exists pp'. split_and!; [done | congruence | congruence |]. unfold ustore8 in E |- *. rewrite E. f_equal. f_equal; [lia |].
    unfold set_k_pipes. simpl. by rewrite insert_insert_eq.
Qed.

Lemma pipewrite_loop_spec p addr n i (s s1 : kst D) pp q bs :
  k_pipes s !! p = Some pp → pipe_rep pp q → Z.of_nat (length q + n) ≤ PIPESIZE →
  uload_bytes (u32 (addr + i)) n s = Ok (bs, s1) →
  ∃ pp', pipe_rep pp' (q ++ (u8 <$> bs)) ∧ pp_readopen pp' = pp_readopen pp ∧ pp_writeopen pp' = pp_writeopen pp ∧
    pipewrite_loop p addr i n s = Ok (true, set_k_pipes (<[p := pp']> (k_pipes s)) s1).
Proof.
  revert i s s1 pp q bs. induction n as [|n IH]; intros i s s1 pp q bs Hp Hr Hl Hu; cbn [pipewrite_loop].
  { exists pp. simpl in Hu. injection Hu as <- <-. rewrite app_nil_r. split_and!; try done.
    rewrite insert_id by done. by destruct s. }
  erewrite bind_ok by (unfold pipe_get; by rewrite Hp). rewrite (pipe_full_rep _ _ Hr).
  destruct (Z.eqb_spec (Z.of_nat (length q)) PIPESIZE); [lia |]. cbn [uload_bytes] in Hu.
  apply bind_inv in Hu as (b & s0 & Hs0 & Hu). apply bind_inv in Hu as (bs' & s2 & Hu & Hret). injection Hret as <- <-.
  erewrite bind_ok by exact Hs0. erewrite bind_ok by reflexivity. rewrite u32_next in Hu.
  assert (k_pipes s0 = k_pipes s) as Ep by (by eapply on_u_keeps).
  destruct (IH (i + 1) (set_k_pipes (<[p := pipe_put b pp]> (k_pipes s)) s0)
    (set_k_pipes (<[p := pipe_put b pp]> (k_pipes s)) s2) (pipe_put b pp) (q ++ [u8 b]) bs') as (pp' & Hr2 & Ho1 & Ho2 & E).
  - simpl. by rewrite lookup_insert_eq.
  - apply pipe_put_rep; [done | lia].
  - rewrite length_app. simpl. lia.
  - rewrite uload_bytes_pipes. by rewrite Hu.
  - exists pp'. rewrite <- app_assoc in Hr2. split_and!; [done | done | done |]. rewrite Ep, E. f_equal. f_equal.
    unfold set_k_pipes. simpl. by rewrite insert_insert_eq.
Qed.

End PipeSpec.
