(* ===== verification/ConsSpec.v ===== *)
(** * The console's line discipline ([console.c])

    The input buffer is a ring with the committed characters, which readers
    may take, followed by the line being edited.  [consoleintr] is the
    abstract editing [line_char] on the two; the screen's cursor stays on the
    screen, so no output it makes can stop the kernel. *)

From S2P Require Import Prelude Mmu Bytes Spinlock Console.

(** ** The screen *)

Record screen_ok (s : cons) : Prop := ScreenOk {
  so_live : cn_panicked s = false;
  so_crt : Z.of_nat (length (cn_crt s)) = 16384;
  so_pos : 0 ≤ cn_pos s < 24 * 80;
}.

(** The input and the flags are as before. *)
Definition same_input (s s' : cons) : Prop :=
  cn_buf s' = cn_buf s ∧ cn_r s' = cn_r s ∧ cn_w s' = cn_w s ∧ cn_e s' = cn_e s ∧ cn_locking s' = cn_locking s.

Lemma crt_set_ok i v crt (s : cons) :
  0 ≤ i < Z.of_nat (length crt) → crt_set i v crt s = Ok (<[Z.to_nat i := v]> crt, s).
Proof.
  intros Hi. unfold crt_set. destruct (Z.ltb_spec i 0); [lia |]. destruct (Z.leb_spec (Z.of_nat (length crt)) i); [lia | done].
Qed.

Lemma length_scroll crt : Z.of_nat (length crt) = 16384 → length (scroll crt) = length crt.
Proof. intros Hl. unfold scroll. rewrite length_app, length_take, !length_drop. lia. Qed.

Lemma length_blank crt pos : Z.of_nat (length crt) = 16384 → 0 ≤ pos ≤ 24 * 80 → length (blank crt pos) = length crt.
Proof. intros Hl Hp. unfold blank. rewrite !length_app, length_take, length_replicate, length_drop. lia. Qed.

Lemma cgaputc_end crt pos (s : cons) :
  Z.of_nat (length crt) = 16384 → 0 ≤ pos ≤ 24 * 80 →
  ∃ crt' pos', (if (pos <? 0) || (25 * 80 <? pos) then panic "pos under/overflow" else
     let '(crt, pos) := if 24 <=? pos / 80 then (blank (scroll crt) (pos - 80), pos - 80) else (crt, pos) in
     crt ← crt_set pos (Z.lor 32 1792) crt; modify (set_screen crt pos)) s = Ok (tt, set_screen crt' pos' s) ∧
    Z.of_nat (length crt') = 16384 ∧ 0 ≤ pos' < 24 * 80.
Proof.
  intros Hl Hp. destruct (Z.ltb_spec pos 0); [lia |]. destruct (Z.ltb_spec (25 * 80) pos); [lia |]. cbn [orb].
  destruct (Z.leb_spec 24 (pos / 80)).
  - assert (pos = 24 * 80) as -> by zdiv. change (24 * 80 - 80) with 1840.
    assert (Z.of_nat (length (blank (scroll crt) 1840)) = 16384) as Hb.
    { pose proof (length_scroll crt Hl). rewrite length_blank; lia. }
    erewrite bind_ok by (apply crt_set_ok; lia). eexists _, 1840. split; [done |]. rewrite length_insert. lia.
  - erewrite bind_ok by (apply crt_set_ok; lia). eexists _, pos. split; [done |]. rewrite length_insert. zdiv.
Qed.

Lemma cgaputc_ok c s : screen_ok s → ∃ s', cgaputc c s = Ok (tt, s') ∧ screen_ok s' ∧ same_input s s'.
Proof.
  intros [H1 H2 H3]. unfold cgaputc. erewrite bind_ok by reflexivity. erewrite bind_ok by reflexivity.
  assert (∃ crt pos, (if c =? 10 then mret (cn_crt s, cn_pos s + (80 - cn_pos s mod 80))
       else if c =? BACKSPACE then mret (cn_crt s, if 0 <? cn_pos s then cn_pos s - 1 else cn_pos s)
       else crt ← crt_set (cn_pos s) (Z.lor (Z.land c 255) 1792) (cn_crt s); mret (crt, cn_pos s + 1)) s = Ok ((crt, pos), s) ∧
    Z.of_nat (length crt) = 16384 ∧ 0 ≤ pos ≤ 24 * 80) as (crt & pos & E & Hl & Hp).
  { destruct (c =? 10); [eexists _, _; split; [done |]; split; [done | zdiv] |].
    destruct (c =? BACKSPACE); [eexists _, _; split; [done |]; split; [done | case_match; lia] |].
    erewrite bind_ok by (apply crt_set_ok; lia). eexists _, _. split; [done |]. rewrite length_insert. lia. }
  erewrite bind_ok by exact E. destruct (cgaputc_end crt pos s Hl Hp) as (crt' & pos' & E' & Hl' & Hp').
  exists (set_screen crt' pos' s). split; [exact E' |]. by split.
Qed.

Lemma consputc_ok c s : screen_ok s → ∃ s', consputc c s = Ok (tt, s') ∧ screen_ok s' ∧ same_input s s'.
Proof.
  intros Hs. unfold consputc. erewrite bind_ok by reflexivity. rewrite (so_live _ Hs).
  assert (∃ s1, (if c =? BACKSPACE then modify (uartputc 8);; modify (uartputc 32);; modify (uartputc 8)
   else modify (uartputc c)) s = Ok (tt, s1) ∧ screen_ok s1 ∧ same_input s s1) as (s1 & E & Hs1 & Hi1).
  { destruct Hs as [H1 H2 H3]. destruct (c =? BACKSPACE); eexists; (split; [done |]); by split. }
  erewrite bind_ok by exact E. destruct (cgaputc_ok c s1 Hs1) as (s2 & E2 & Hs2 & Hi2). exists s2. split_and!; [done | done |].
  unfold same_input in *. intuition congruence.
Qed.

(** ** Editing *)

(** The ring holds [l]. *)
Record con_ring (s : cons) (l : list Z) : Prop := ConRing {
  cr_screen : screen_ok s;
  cr_len : Z.of_nat (length (cn_buf s)) = INPUT_BUF;
  cr_r : 0 ≤ cn_r s < 2 ^ 32;
  cr_e : cn_e s = u32 (cn_r s + Z.of_nat (length l));
  cr_size : Z.of_nat (length l) ≤ INPUT_BUF;
  cr_data i b : l !! i = Some b → cn_buf s !! Z.to_nat ((cn_r s + Z.of_nat i) mod INPUT_BUF) = Some b;
}.

(** [rd] may be read, [ed] is the line being edited. *)
Record con_rep (s : cons) (rd ed : list Z) : Prop := ConRep {
  cr_ring : con_ring s (rd ++ ed);
  cr_w : cn_w s = u32 (cn_r s + Z.of_nat (length rd));
  cr_line : Forall (λ b, b ≠ 10) ed;
}.

(** A character for the line, on the two lists *)
Definition line_add (c : Z) (rd ed : list Z) : list Z * list Z :=
  if (c =? 0) || (INPUT_BUF <=? Z.of_nat (length (rd ++ ed))) then (rd, ed)
  else
    let c := if c =? 13 then 10 else c in
    let ed := ed ++ [c] in
    if (c =? 10) || (c =? ctrl 68) || (Z.of_nat (length (rd ++ ed)) =? INPUT_BUF) then (rd ++ ed, []) else (rd, ed).

(** One character *)
Definition line_char (c : Z) (st : list Z * list Z) : list Z * list Z :=
  let '(rd, ed) := st in
  if c =? ctrl 80 then (rd, ed)
  else if c =? ctrl 85 then (rd, [])
  else if (c =? ctrl 72) || (c =? 127) then (rd, removelast ed)
  else line_add c rd ed.

(** The characters up to the first negative one *)
Fixpoint line_chars (cs : list Z) (st : list Z * list Z) : list Z * list Z :=
  match cs with
  | [] => st
  | c :: cs => if c <? 0 then st else line_chars cs (line_char c st)
  end.

Lemma u32_mod_input x : u32 x mod INPUT_BUF = x mod INPUT_BUF.
Proof. unfold u32, INPUT_BUF. change (2 ^ 32) with (2 ^ 25 * 128). zdiv. Qed.

(** Output keeps the input. *)
Lemma con_ring_same s s' l : con_ring s l → screen_ok s' → same_input s s' → con_ring s' l.
Proof. intros [A1 A2 A3 A5 A6 A7] Hs (E1 & E2 & E3 & E4 & _). constructor; rewrite ?E1, ?E2, ?E4; done. Qed.

Lemma con_rep_same s s' rd ed : con_rep s rd ed → screen_ok s' → same_input s s' → con_rep s' rd ed.
Proof.
  intros [A1 A2 A3] Hs Hi. pose proof Hi as (_ & E2 & E3 & _). constructor; [by eapply con_ring_same | by rewrite E2, E3 | done].
Qed.

Lemma con_rep_empty s rd ed : con_rep s rd ed → (cn_e s =? cn_w s) = bool_decide (ed = []).
Proof.
  intros [[A1 A2 A3 A5 A6 A7] A4 _]. rewrite A4, A5, length_app in *. unfold u32, INPUT_BUF in *.
  destruct ed as [|c ed]; [simpl; rewrite Nat.add_0_r; by rewrite Z.eqb_refl |].
  rewrite bool_decide_eq_false_2 by done. apply Z.eqb_neq. simpl length in *. zdiv.
Qed.

(** The last character is taken off the line. *)
Lemma erase_ok s rd ed c :
  con_rep s rd (ed ++ [c]) → ∃ s', erase s = Ok (tt, s') ∧ con_rep s' rd ed.
Proof.
  intros [[A1 A2 A3 A5 A6 A7] A4 A8]. unfold erase. erewrite bind_ok by reflexivity.
  set (s1 := set_input (cn_buf s) (cn_r s) (cn_w s) (u32 (cn_e s - 1)) s).
  assert (screen_ok s1) as Hs1 by (destruct A1; by constructor).
  destruct (consputc_ok BACKSPACE s1 Hs1) as (s' & E & Hs' & Hi). exists s'. split; [done |].
  rewrite app_assoc in A5, A6, A7. rewrite length_app in A5, A6. simpl in A5, A6.
  eapply (con_rep_same s1); [|done | done].
  constructor; [constructor; simpl; try done | done | by apply list.Forall_app in A8 as [? _]].
  - rewrite A5. unfold u32. zdiv.
  - lia.
  - intros i b Hi'. apply A7. rewrite lookup_app_l; [done | by eapply lookup_lt_Some].
Qed.

Lemma buf_last s rd ed c : con_rep s rd (ed ++ [c]) → buf_at s (u32 (cn_e s - 1)) = c.
Proof.
  intros [[A1 A2 A3 A5 A6 A7] _ _]. unfold buf_at. rewrite u32_mod_input, A5, app_assoc in *.
  rewrite length_app in *. simpl in *. pose proof (A7 (length (rd ++ ed)) c) as E.
  rewrite <- (u32_mod_input (cn_r s + Z.of_nat (length (rd ++ ed)))) in E.
  replace ((u32 (cn_r s + Z.of_nat (length (rd ++ ed) + 1)) - 1) mod INPUT_BUF)
    with (u32 (cn_r s + Z.of_nat (length (rd ++ ed))) mod INPUT_BUF).
  - rewrite E; [done |]. rewrite lookup_app_r, Nat.sub_diag by lia. done.
  - unfold u32, INPUT_BUF. change (2 ^ 32) with (2 ^ 25 * 128). zdiv.
Qed.

Lemma kill_line_ok fuel s rd ed :
  con_rep s rd ed → (length ed ≤ fuel)%nat → ∃ s', kill_line fuel s = Ok (tt, s') ∧ con_rep s' rd [].
Proof.
  revert s ed. induction fuel as [|fuel IH]; intros s ed Hr Hl; cbn [kill_line].
  { destruct ed; [by exists s | simpl in Hl; lia]. }
  erewrite bind_ok by reflexivity. unfold id. rewrite (con_rep_empty _ _ _ Hr).
  destruct (decide (ed = [])) as [->|Hne]; [rewrite bool_decide_eq_true_2 by done; by exists s |].
  rewrite bool_decide_eq_false_2 by done. destruct (exists_last Hne) as (ed' & c & ->).
  rewrite (buf_last _ _ _ _ Hr). pose proof (cr_line _ _ _ Hr) as Hc. apply list.Forall_app in Hc as [_ Hc].
  apply list.Forall_cons in Hc as [Hc _]. destruct (Z.eqb_spec c 10); [done |]. cbn [orb].
  destruct (erase_ok _ _ _ _ Hr) as (s1 & E & Hr1). erewrite bind_ok by exact E.
  apply (IH s1 ed'); [done |]. rewrite length_app in Hl. simpl in Hl. lia.
Qed.

(** A character is added to the ring. *)
Lemma add_char s l c :
  con_ring s l → Z.of_nat (length l) < INPUT_BUF →
  con_ring (set_input (<[Z.to_nat (cn_e s mod INPUT_BUF) := c]> (cn_buf s)) (cn_r s) (cn_w s) (u32 (cn_e s + 1)) s) (l ++ [c]).
Proof.
  intros [A1 A2 A3 A5 A6 A7] Hl. assert (0 < INPUT_BUF) as Hp by done.
  assert (cn_e s mod INPUT_BUF = (cn_r s + Z.of_nat (length l)) mod INPUT_BUF) as Ee by (rewrite A5; apply u32_mod_input).
  pose proof (Z.mod_pos_bound (cn_r s + Z.of_nat (length l)) INPUT_BUF Hp) as Hb.
  constructor; simpl; try done.
  - destruct A1; by constructor.
  - by rewrite length_insert.
  - rewrite A5, length_app. simpl. unfold u32. zdiv.
  - rewrite length_app. simpl. lia.
  - intros i b Hi. rewrite Ee. destruct (decide (i < length l)%nat) as [Hlt|Hge].
    + rewrite lookup_app_l in Hi by done. rewrite list_lookup_insert_ne; [by apply A7 |].
      intros E%Z2Nat.inj; [|apply Z.mod_pos_bound; lia..]. unfold INPUT_BUF in *. zdiv.
    + assert (i = length l) as ->.
      { apply lookup_lt_Some in Hi. rewrite length_app in Hi. simpl in Hi. lia. }
      rewrite lookup_app_r, Nat.sub_diag in Hi by lia. simplify_eq/=. apply list_lookup_insert_eq. lia.
Qed.

(** The ring is [rd ++ ed] with a new end; is it full? *)
Lemma ring_full r l :
  0 ≤ r < 2 ^ 32 → Z.of_nat (length l) < INPUT_BUF → ∀ c : Z,
  (u32 (u32 (r + Z.of_nat (length l)) + 1) =? u32 (r + INPUT_BUF)) = (Z.of_nat (length (l ++ [c])) =? INPUT_BUF).
Proof.
  intros Hr Hl c. rewrite length_app. simpl. unfold u32, INPUT_BUF in *.
  destruct (Z.eqb_spec (Z.of_nat (length l + 1)) 128) as [E|E].
  - apply Z.eqb_eq. zdiv.
  - apply Z.eqb_neq. zdiv.
Qed.

Lemma put_char_ok c s rd ed :
  con_rep s rd ed → 0 ≤ c < 256 →
  ∃ w s', put_char c s = Ok (w, s') ∧ con_rep s' (line_add c rd ed).1 (line_add c rd ed).2.
Proof.
  intros Hr Hc. pose proof Hr as [R Hw Hln]. pose proof R as [A1 A2 A3 A5 A6 A7].
  unfold put_char, line_add. erewrite bind_ok by reflexivity. unfold id.
  assert (u32 (cn_e s - cn_r s) = Z.of_nat (length (rd ++ ed))) as El.
  { rewrite A5. unfold u32, INPUT_BUF in *. zdiv. }
  rewrite El. destruct (c =? 0); [by eexists _, s |]. cbn [orb].
  destruct (Z.leb_spec INPUT_BUF (Z.of_nat (length (rd ++ ed)))) as [|Hlt]; [by eexists _, s |]. cbv zeta.
  set (c' := if c =? 13 then 10 else c).
  assert (u8 c' = c') as E8 by (apply Z.mod_small; unfold c'; destruct (c =? 13); lia). rewrite E8.
  pose proof (add_char s (rd ++ ed) c' R Hlt) as R1. set (s1 := set_input _ _ _ _ s) in *.
  erewrite bind_ok by reflexivity. fold s1.
  destruct (consputc_ok c' s1 (cr_screen _ _ R1)) as (s2 & E2 & Hs2 & Hi2). erewrite bind_ok by exact E2.
  pose proof (con_ring_same _ _ _ R1 Hs2 Hi2) as R2. pose proof Hi2 as (_ & Er & Ew & Ee & _). simpl in Er, Ew, Ee.
  rewrite A5, (ring_full (cn_r s) (rd ++ ed) A3 Hlt c'), <- app_assoc.
  destruct ((c' =? 10) || (c' =? ctrl 68) || (Z.of_nat (length (rd ++ ed ++ [c'])) =? INPUT_BUF)) eqn:Et.
  - eexists true, _. split; [reflexivity |]. rewrite <- app_assoc in R2. simpl. constructor; [|simpl | by constructor].
    + rewrite app_nil_r. destruct R2 as [[S1 S2 S3] B2 B3 B5 B6 B7]. by constructor.
    + rewrite (cr_e _ _ R2). done.
  - eexists false, s2. split; [reflexivity |]. simpl. constructor.
    + by rewrite app_assoc.
    + by rewrite Ew, Er.
    + apply list.Forall_app. split; [done |]. constructor; [|done]. apply orb_false_iff in Et as [[Et _]%orb_false_iff _].
      by apply Z.eqb_neq.
Qed.

Lemma consoleintr_ok cs dump woke s rd ed :
  con_rep s rd ed → Forall (λ c, c < 256) cs →
  ∃ d w s', consoleintr cs dump woke s = Ok ((d, w), s') ∧
    con_rep s' (line_chars cs (rd, ed)).1 (line_chars cs (rd, ed)).2.
Proof.
  revert dump woke s rd ed. induction cs as [|c cs IH]; intros dump woke s rd ed Hr Hcs; cbn [consoleintr line_chars].
  { by eexists _, _, s. }
  apply list.Forall_cons in Hcs as [Hc Hcs]. destruct (Z.ltb_spec c 0) as [|H0]; [by eexists _, _, s |].
  unfold line_char. destruct (c =? ctrl 80); [by apply IH |]. destruct (c =? ctrl 85).
  { erewrite bind_ok by reflexivity. unfold id. destruct (kill_line_ok (Z.to_nat (u32 (cn_e s - cn_w s))) s rd ed Hr) as (s1 & E & Hr1).
    { destruct Hr as [[A1 A2 A3 A5 A6 A7] A4 _]. rewrite A5, A4, length_app in *. unfold u32, INPUT_BUF in *. zdiv. }
    erewrite bind_ok by exact E. by apply IH. }
  destruct ((c =? ctrl 72) || (c =? 127)).
  { erewrite bind_ok by reflexivity. unfold id. rewrite (con_rep_empty _ _ _ Hr).
    destruct (decide (ed = [])) as [->|Hne].
    - rewrite bool_decide_eq_true_2 by done. erewrite bind_ok by reflexivity. by apply IH.
    - rewrite bool_decide_eq_false_2 by done. destruct (exists_last Hne) as (ed' & b & ->).
      destruct (erase_ok _ _ _ _ Hr) as (s1 & E & Hr1). erewrite bind_ok by exact E. rewrite removelast_last. by apply IH. }
  destruct (put_char_ok c s rd ed Hr) as (w & s1 & E & Hr1); [lia |].
  erewrite bind_ok by exact E. destruct (line_add c rd ed) as [rd' ed']. by apply IH.
Qed.

(** ** Numbers *)

Definition digit_val (c : Z) : Z := if c <? 58 then c - 48 else c - 87.
Definition parse_nat (base : Z) (cs : list Z) : Z := fold_left (λ v c, v * base + digit_val c) cs 0.
Definition parse_int (base : Z) (cs : list Z) : Z :=
  match cs with
  | c :: r => if c =? 45 then - parse_nat base r else parse_nat base cs
  | [] => 0
  end.

Lemma digit_val_digits d : 0 ≤ d < 16 → digit_val (digits d) = d ∧ digits d ≠ 45.
Proof. intros Hd. unfold digits, digit_val. destruct (Z.ltb_spec d 10); repeat case_match; lia. Qed.

Lemma parse_nat_snoc base cs c : parse_nat base (cs ++ [c]) = parse_nat base cs * base + digit_val c.
Proof. unfold parse_nat. by rewrite fold_left_app. Qed.

Lemma print_digits_spec fuel x base :
  2 ≤ base ≤ 16 → 0 ≤ x < base ^ Z.of_nat fuel → (1 ≤ fuel)%nat →
  parse_nat base (reverse (print_digits fuel x base)) = x ∧ Forall (λ c, c ≠ 45) (print_digits fuel x base) ∧
  print_digits fuel x base ≠ [].
Proof.
  intros Hb. revert x. induction fuel as [|fuel IH]; intros x Hx Hf; [lia |]. cbn [print_digits].
  pose proof (Z.mod_pos_bound x base ltac:(lia)) as Hm. destruct (digit_val_digits (x mod base)) as [Hv Hn]; [lia |].
  assert (x = base * (x / base) + x mod base) as Ex by (apply Z.div_mod; lia).
  destruct (Z.eqb_spec (x / base) 0) as [E|E].
  - split_and!; [|by constructor | done]. rewrite reverse_singleton. unfold parse_nat. simpl. rewrite Hv. lia.
  - assert (0 ≤ x / base) as H0 by (apply Z.div_pos; lia).
    assert (x / base < base ^ Z.of_nat fuel) as Hlt.
    { apply Z.div_lt_upper_bound; [lia |]. rewrite Nat2Z.inj_succ, Z.pow_succ_r in Hx by lia. lia. }
    destruct fuel as [|fuel]; [simpl in Hlt; lia |].
    destruct (IH (x / base)) as (E1 & E2 & _); [lia | lia |]. split_and!; [|by constructor | done].
    rewrite reverse_cons, parse_nat_snoc, E1, Hv. lia.
Qed.

Lemma print_digits_length fuel k x base :
  2 ≤ base → 0 ≤ x < base ^ Z.of_nat k → (1 ≤ k)%nat → (length (print_digits fuel x base) ≤ k)%nat.
Proof.
  intros Hb. revert x k. induction fuel as [|fuel IH]; intros x k Hx Hk; cbn [print_digits length]; [lia |].
  destruct (Z.eqb_spec (x / base) 0) as [E|E]; [done |].
  assert (0 ≤ x / base) as H0 by (apply Z.div_pos; lia). destruct k as [|k]; [lia |].
  assert (x / base < base ^ Z.of_nat k) as Hlt.
  { apply Z.div_lt_upper_bound; [lia |]. rewrite Nat2Z.inj_succ, Z.pow_succ_r in Hx by lia. lia. }
  destruct k as [|k]; [simpl in Hlt; lia |]. apply le_n_S, IH; lia.
Qed.

Lemma parse_int_nat base cs : cs ≠ [] → Forall (λ c, c ≠ 45) cs → parse_int base cs = parse_nat base cs.
Proof. intros Hn Hf. destruct cs as [|c cs]; [done |]. apply list.Forall_cons in Hf as [Hc _]. simpl. by destruct (Z.eqb_spec c 45). Qed.

Lemma printint_spec xx base sign :
  2 ≤ base ≤ 16 → 2 ^ 32 ≤ base ^ 15 →
  parse_int base (printint_chars xx base sign) = (if sign then s32 xx else u32 xx) ∧
  (length (printint_chars xx base sign) ≤ 16)%nat.
Proof.
  intros Hb H15. unfold printint_chars. set (neg := sign && (s32 xx <? 0)).
  set (x := if neg then u32 (- xx) else u32 xx).
  assert (0 ≤ x < 2 ^ 32) as Hx by (unfold x, u32; destruct neg; apply Z.mod_pos_bound; done).
  assert (2 ^ 32 ≤ base ^ Z.of_nat 32) as H32 by (apply (Z.pow_le_mono_l 2 base 32); lia).
  destruct (print_digits_spec 32 x base) as (Ep & Ef & En); [done | lia | lia |].
  assert (length (print_digits 32 x base) ≤ 15)%nat as Hl by (apply print_digits_length; lia).
  split.
  - assert (parse_int base (reverse (print_digits 32 x base ++ (if neg then [45] else []))) = if neg then - x else x) as ->.
    { destruct neg.
      - rewrite reverse_app, reverse_singleton. cbn [app parse_int Z.eqb Pos.eqb]. by rewrite Ep.
      - rewrite app_nil_r, parse_int_nat; [done | |].
        + intros E%(f_equal reverse). by rewrite reverse_involutive in E.
        + by apply Forall_reverse. }
    unfold x, neg, s32, u32. destruct sign; cbn [andb]; [|done].
    destruct (Z.ltb_spec (xx mod 2 ^ 32) (2 ^ 31)); case_match; zdiv.
  - rewrite length_reverse, length_app. destruct neg; cbn [length]; lia.
Qed.
