(* ===== verification/IoProps.v ===== *)
(** * Pipes, the console, system call arguments and processes: what they guarantee

    Each theorem is followed by an instance. *)

From S2P Require Import Prelude Mmu Mem Spinlock Kalloc Vm ProcDefs Crypt Bytes Disk Bio FsFormat Log Console Fs Kernel File Proc Sysfile Recover FsProps Sample PipeSpec ConsSpec.

(** ** Words from user memory *)

Lemma load8_range va m v m' : load8 va m = Ok (v, m') → 0 ≤ v < 256.
Proof. unfold load8. intros (pa & m1 & _ & E)%bind_inv. injection E as <- <-. apply rd_range. Qed.

Lemma load32_range va m v m' : load32 va m = Ok (v, m') → 0 ≤ v < 2 ^ 32.
Proof.
  unfold load32. case_match.
  - unfold kld32. case_match; [|done]. intros E. injection E as <- <-. apply ld32_range.
  - intros (b0 & m0 & H0%load8_range & E)%bind_inv. apply bind_inv in E as (b1 & m1 & H1%load8_range & E).
    apply bind_inv in E as (b2 & m2 & H2%load8_range & E). apply bind_inv in E as (b3 & m3 & H3%load8_range & E).
    injection E as <- <-. lia.
Qed.

Lemma faulting_range (c : M ustate Z) (P : Z → Prop) :
  (∀ s v s', c s = Ok (v, s') → P v) → ∀ s v s', faulting c s = Ok (v, s') → P v.
Proof.
  intros Hc s v s' E. unfold faulting in E. destruct (c s) as [[w s1]|e] eqn:Ec; [simplify_eq; by eapply Hc |].
  destruct e; try done. destruct (mdecrypt _ s) as [[r s1]|]; [|done]. destruct (r =? 0); [by eapply Hc | done].
Qed.

Lemma uload32_range {D} va (s s' : kst D) v : uload32 va s = Ok (v, s') → 0 ≤ v < 2 ^ 32.
Proof.
  unfold uload32, on_u. destruct (k_cur s); [|done]. destruct (cur_proc s) as [q|]; [|done].
  destruct (faulting _ (Ustate (k_mach s) q)) as [[w u]|] eqn:E; [|done]. intros Ev. simplify_eq. revert E.
  set (P := λ v, 0 ≤ v < 2 ^ 32). change (0 ≤ v < 2 ^ 32) with (P v). apply (faulting_range _ P), (faulting_range _ P).
  intros s0 w0 s0'. unfold on_mach, zoom. destruct (load32 va (us_mach s0)) as [[? ?]|] eqn:El; [|done].
  intros Ev. simplify_eq. by eapply load32_range.
Qed.

Lemma argint_range {D} n (s s' : kst D) v : argint n s = Ok (Some v, s') → 0 ≤ v < 2 ^ 32.
Proof.
  unfold argint, fetchint. intros (me & s1 & _ & E)%bind_inv. apply bind_inv in E as (me' & s2 & _ & E).
  case_match; [done |]. apply bind_inv in E as (w & s3 & Ew & E). injection E as <- <-. by eapply uload32_range.
Qed.

(** ** Pipes *)



(** A kernel with one process, with its page 1 mapped, and nothing on its disk. *)
Definition sfs : fsys memdisk :=
  Fsys (Lst (Bst (Memdisk []) [] [] 0) log_zero) (Superblock 0 0 0 0 0 0 0) [] [] (Cons false true [] 0 [] [] 0 0 0) None false.




(** ** The console *)

(** C19. Keyboard input is edited as described by [line_chars]: a character
    goes to the end of the line, backspace and kill take from the line only,
    and a newline, an end of file or a full buffer hand the line to the
    readers.  [consoleintr] never writes over characters that are not read
    yet, and its echo keeps the cursor on the screen, so it always returns. *)
Theorem console_refines cs dump woke s rd ed :
  con_rep s rd ed → Forall (λ c, c < 256) cs →
  ∃ d w s', consoleintr cs dump woke s = Ok ((d, w), s') ∧
    con_rep s' (line_chars cs (rd, ed)).1 (line_chars cs (rd, ed)).2.
Proof. apply consoleintr_ok. Qed.

Definition scons : cons :=
  Cons false true (replicate (Z.to_nat 16384) 0) 1919 [] (replicate 128 0) (2 ^ 32 - 1) (2 ^ 32 - 1) (2 ^ 32 - 1).

(** "ab", backspace, "c", return. *)
Lemma console_refines_witness :
  ∃ d w s', consoleintr [97; 98; 127; 99; 13] false false scons = Ok ((d, w), s') ∧ con_rep s' [97; 99; 10] [].
Proof.
  apply (console_refines [97; 98; 127; 99; 13] false false scons [] []).
  - constructor; [|done | done]. constructor; [|done | done | done | done |].
    + constructor; [done | | done]. unfold scons. cbn [cn_crt]. rewrite length_replicate. done.
    + intros [|i] b Hb; discriminate Hb.
  - repeat constructor; lia.
Defined.

(** [printint] prints the number: the characters it writes, read as a
    number in the base used by [cprintf], are the argument, signed or not;
    and they fit in its buffer of 16 characters. *)
Theorem printint_correct xx base sign :
  base = 10 ∨ base = 16 →
  parse_int base (printint_chars xx base sign) = (if sign then s32 xx else u32 xx) ∧
  (length (printint_chars xx base sign) ≤ 16)%nat.
Proof. intros Hb. apply printint_spec; destruct Hb as [->| ->]; lia. Qed.

Lemma printint_correct_witness :
  parse_int 10 (printint_chars (2 ^ 31) 10 true) = - 2 ^ 31 ∧ (length (printint_chars (2 ^ 31) 10 true) ≤ 16)%nat.
Proof. apply (printint_correct (2 ^ 31) 10 true). by left. Defined.

(** [cprintf] while the CPU already holds the console's lock gives the
    lock away: when it returns the CPU does not hold it any more, and the
    [release] of the outer holder stops the kernel. *)
Theorem cprintf_releases_outer_lock c k fmt args s' :
  Spin.cpu_ok c → 1 ≤ ncli c → cn_locking k = true →
  cprintf (Some fmt) args ((c, Lock true (Some (apicid c))), k) = Ok (tt, s') →
  on_lock Spin.release s' = Err (EPanic "release").
Proof.
  intros Hc Hn Hl E. unfold cprintf in E. apply bind_inv in E as (loc & s1 & E1 & E). injection E1 as <- <-.
  cbn [snd] in E. rewrite Hl in E. apply bind_inv in E as ([] & s2 & E2 & E).
  assert (s2 = ((c, Lock true (Some (apicid c))), k)) as ->.
  { apply bind_inv in E2 as (h & s3 & E3 & E2). unfold on_lock, zoom in E3. cbn [fst snd] in E3.
    rewrite Spin.holding_spec in E3 by done. simpl in E3. rewrite bool_decide_true in E3 by done. simplify_eq/=.
    destruct (Z.eqb_spec (ncli c) 0); [lia |]. unfold mret, M_ret in E2. simplify_eq/=. by destruct c. }
  apply bind_inv in E as ([] & s3 & E3 & E). unfold on_cons, zoom in E3. cbn [fst snd] in E3.
  destruct (cprintf_loop fmt args k) as [[[] k']|]; [|done]. simplify_eq/=.
  unfold on_lock, zoom in E. cbn [fst snd] in E. rewrite Spin.release_held in E by (done || lia). simplify_eq/=.
  unfold on_lock, zoom, Spin.release, Spin.rel_check. cbn [fst snd]. erewrite bind_err; [done |].
  erewrite bind_ok; [|apply Spin.holding_spec]; [done |]. destruct Hc as [H0 Hif]. split; simpl; [lia |].
  intros Hp. destruct (Z.eqb_spec (ncli c) 1); [lia | done].
Qed.

Lemma cprintf_releases_outer_lock_witness :
  on_lock Spin.release ((Cpu 0 true 0 true, Lock false None), Cons false true [] 0 [] [] 0 0 0) = Err (EPanic "release").
Proof.
  apply (cprintf_releases_outer_lock (Cpu 0 false 1 true) (Cons false true [] 0 [] [] 0 0 0) [] []).
  - split; simpl; [lia | done].
  - simpl. lia.
  - done.
  - reflexivity.
Defined.

(** ** System call arguments *)

(** A pointer that [argptr] accepts points to [size] bytes of the
    process's memory, also when the sum of the two would not fit in a
    word. *)
Theorem argptr_in_bounds {D} (s s' : kst D) n size a p :
  argptr n size s = Ok (Some a, s') → cur_proc s' = Some p → p_sz p ≤ KERNBASE → size < 2 ^ 31 →
  0 ≤ a ∧ 0 ≤ size ∧ a < p_sz p ∧ a + size ≤ p_sz p.
Proof.
  intros E Hp Hsz Hs. unfold argptr in E. apply bind_inv in E as (i & s1 & E1 & E).
  apply bind_inv in E as (me & s2 & E2 & E). unfold kmyproc in E2. destruct (cur_proc s1) as [q|] eqn:Hq; [|done]. simplify_eq/=.
  destruct i as [i|]; [|done]. assert (0 ≤ i < 2 ^ 32) as Hi by (by eapply argint_range).
  destruct ((size <? 0) || (p_sz me <=? i) || (p_sz me <? u32 (i + size))) eqn:Et; [done |].
  unfold mret, M_ret in E. simplify_eq/=. apply orb_false_iff in Et as [[Et1 Et2]%orb_false_iff Et3].
  apply Z.ltb_ge in Et1, Et3. apply Z.leb_gt in Et2. unfold KERNBASE in Hsz. rewrite u32_id in Et3 by lia. lia.
Qed.

(** The first argument is at address 4096, and is 7. *)
Definition akst : kst memdisk :=
  Kst (smach (smem 1 e_present 7)) sfs [] ∅ [set_tf (Trapframe 0 0 0 0 0 0 0 0 0 0 0 0 0 0 0 0 0 4092 0) (sproc no_clock)]
    2 None (Some 0%nat) 0.

Lemma argptr_in_bounds_witness : ∃ s' p, argptr 0 10 akst = Ok (Some 7, s') ∧ cur_proc s' = Some p ∧ 7 + 10 ≤ p_sz p.
Proof.
  assert ((match argptr 0 10 akst with Ok (Some a, s') => (a =? 7) && (if cur_proc s' is Some p then p_sz p =? 8192 else false)
    | _ => false end) = true) as E by (vm_compute; reflexivity).
  destruct (argptr 0 10 akst) as [[[a|] s']|] eqn:Ea; [|done..]. apply andb_true_iff in E as [->%Z.eqb_eq E].
  destruct (cur_proc s') as [p|] eqn:Ep; [|done]. apply Z.eqb_eq in E. exists s', p. split; [done | split; [done |]].
  apply (argptr_in_bounds akst s' 0 10 7 p).
  - exact Ea.
  - exact Ep.
  - rewrite E. by vm_compute.
  - lia.
Defined.

(** ** Processes *)

Lemma p_upd_inv {D} i g (s s' : kst D) :
  p_upd i g s = Ok (tt, s') → ∃ q, k_procs s !! i = Some q ∧ s' = set_k_procs (<[i := g q]> (k_procs s)) s.
Proof.
  unfold p_upd, p_get, modify, mbind, M_bind. destruct (k_procs s !! i) as [q|]; [|done]. intros [= <-]. by exists q.
Qed.

Lemma on_m_procs {D A} (c : M mach A) (s s' : kst D) a : on_m c s = Ok (a, s') → k_procs s' = k_procs s.
Proof. unfold on_m, zoom. destruct (c (k_mach s)) as [[]|]; [|done]. by intros [= _ <-]. Qed.

Lemma kill_scan_first pid ps i p :
  ps !! i = Some p → p_pid p = pid → p_state p ≠ SLEEPING →
  (∀ j q, (j < i)%nat → ps !! j = Some q → p_pid q ≠ pid) → kill_scan pid ps = Some (<[i := set_killed true p]> ps).
Proof.
  revert i. induction ps as [|q ps IH]; intros i Hi Hp Hs Hlt; [done |]. cbn [kill_scan].
  destruct i as [|i].
  - simplify_eq/=. by rewrite Z.eqb_refl, decide_False.
  - destruct (Z.eqb_spec (p_pid q) pid) as [E|_].
    { destruct (Hlt 0%nat q ltac:(lia) eq_refl E). }
    rewrite (IH i); [done | done | done | done |]. intros j r Hj Hr. apply (Hlt (S j) r); [lia | done].
Qed.

(** [kill(0)] finds a process that does not exist: the first slot that is
    not in use has pid 0, gets marked as killed, and [allocproc] hands it out
    with the mark, so that the next process created is dead on arrival. *)
Theorem kill_zero_kills_newborn {D} (s : kst D) i p :
  k_procs s !! i = Some p → p_pid p = 0 → p_state p = UNUSED →
  (∀ j q, (j < i)%nat → k_procs s !! j = Some q → p_pid q ≠ 0 ∧ p_state q ≠ UNUSED) →
  ∃ s1, kill 0 s = Ok (0, s1) ∧
    ∀ forkret_addr j s2, allocproc forkret_addr s1 = Ok (Some j, s2) →
      ∃ q, k_procs s2 !! j = Some q ∧ p_state q = EMBRYO ∧ p_killed q = true.
Proof.
  intros Hi Hp Hu Hlt. assert (kill_scan 0 (k_procs s) = Some (<[i := set_killed true p]> (k_procs s))) as Ek.
  { apply kill_scan_first; [done | done | congruence |]. intros j q Hj Hq. by apply (Hlt j q). }
  exists (set_k_procs (<[i := set_killed true p]> (k_procs s)) s). split.
  { unfold kill. erewrite bind_ok by reflexivity. by rewrite Ek. }
  intros fa j s2 E. unfold allocproc in E. apply bind_inv in E as (ps & s1 & E1 & E). injection E1 as <- <-. cbn [set_k_procs k_procs] in E.
  pose proof (lookup_lt_Some _ _ _ Hi) as Hil.
  assert (list_find (λ p, p_state p = UNUSED) (<[i := set_killed true p]> (k_procs s)) = Some (i, set_killed true p)) as Ef.
  { apply list_find_Some. split_and!; [by apply list_lookup_insert_eq | done |]. intros k q Hk Hki.
    rewrite list_lookup_insert_ne in Hk by lia. by eapply Hlt. }
  rewrite Ef in E. apply bind_inv in E as (pid & s1 & E1 & E). injection E1 as <- <-.
  apply bind_inv in E as ([] & s3 & E3 & E). apply p_upd_inv in E3 as (q & Hq & ->). simpl in Hq.
  rewrite list_lookup_insert_eq in Hq by done. simplify_eq/=.
  apply bind_inv in E as ([] & s4 & E4 & E). injection E4 as <-. apply bind_inv in E as (stk & s5 & E5 & E).
  apply on_m_procs in E5. simpl in E5. rewrite list_insert_insert_eq in E5.
  apply bind_inv in E as ([] & s6 & E6 & E). apply p_upd_inv in E6 as (q & Hq & ->). rewrite E5 in Hq, E.
  rewrite list_lookup_insert_eq in Hq by done. simplify_eq/=. rewrite list_insert_insert_eq in E. case_match.
  { by apply bind_inv in E as ([] & s7 & _ & E). }
  apply bind_inv in E as ([] & s7 & E7 & E). apply p_upd_inv in E7 as (q & Hq & ->). simpl in Hq.
  rewrite list_lookup_insert_eq in Hq by done. unfold mret, M_ret in E. simplify_eq/=.
  eexists. split; [by rewrite list_insert_insert_eq, list_lookup_insert_eq | done].
Qed.

Definition zkst : kst memdisk :=
  Kst (smach ∅) sfs [] ∅ [set_pid 1 (set_state RUNNING proc_zero); proc_zero; proc_zero] 2 None (Some 0%nat) 0.

Lemma kill_zero_kills_newborn_witness :
  ∃ s1, kill 0 zkst = Ok (0, s1) ∧
    ∀ forkret_addr j s2, allocproc forkret_addr s1 = Ok (Some j, s2) →
      ∃ q, k_procs s2 !! j = Some q ∧ p_state q = EMBRYO ∧ p_killed q = true.
Proof.
  apply (kill_zero_kills_newborn zkst 1 proc_zero).
  - done.
  - done.
  - done.
  - intros [|j] q Hj Hq; [|lia]. simplify_eq/=. done.
Defined.
