(* ===== verification/User.v ===== *)
(** * User programs and their library ([user.h], [ulib.c], [printf.c])

    A user program is a tree of system calls ([prog]): it ends, with a value
    or by [exit], or makes a call and goes on with the answer.  [run] plays it
    against a kernel, any function that answers calls and changes a world.
    Strings are the lists of their bytes before the terminating 0; data moves
    as lists of bytes. *)

From S2P Require Import Prelude Bytes.

(** The bytes of a string constant. *)
Fixpoint chars (s : string) : list Z :=
  match s with
  | EmptyString => []
  | String a s => Z.of_nat (Ascii.nat_of_ascii a) :: chars s
  end.

Definition O_RDONLY : Z := 0.
Definition O_WRONLY : Z := 1.
Definition O_RDWR : Z := 2.
Definition O_CREATE : Z := 512.

(** ** System calls *)

Inductive sys : Type :=
| Fork
| Exit
| Wait
| Pipe
| Write (fd : Z) (bs : list Z)
| Read (fd n : Z)
| Close (fd : Z)
| Kill (pid : Z)
| Exec (path : list Z) (argv : list (list Z))
| Open (path : list Z) (mode : Z)
| Mknod (path : list Z) (major minor : Z)
| Unlink (path : list Z)
| Fstat (fd : Z)
| Link (old new : list Z)
| Mkdir (path : list Z)
| Chdir (path : list Z)
| Dup (fd : Z)
| Getpid
| Sbrk (n : Z)
| Sleep (n : Z)
| Uptime.

(** The answer of a call: what it returns, and the bytes or words it stores
    through the pointer it was given. *)
Definition answer : Type := Z * list Z.

Inductive prog (A : Type) : Type :=
| Ret (a : A)
| Call (c : sys) (k : answer → prog A)
| Stop (e : exn).
Arguments Ret {A} _.
Arguments Call {A} _ _.
Arguments Stop {A} _.

Fixpoint prog_bind {A B} (f : A → prog B) (p : prog A) : prog B :=
  match p with
  | Ret a => f a
  | Call c k => Call c (λ r, prog_bind f (k r))
  | Stop e => Stop e
  end.

#[export] Instance prog_mret : MRet prog := @Ret.
#[export] Instance prog_mbind : MBind prog := @prog_bind.

Definition call (c : sys) : prog answer := Call c Ret.
Definition sys_ret (c : sys) : prog Z := Call c (λ r, Ret r.1).
Definition exit {A} : prog A := Call Exit (λ _, Stop EExit).

(** How a program ends. *)
Inductive fin (A : Type) : Type :=
| Done (a : A)
| Exited
| Stuck (e : exn).
Arguments Done {A} _.
Arguments Exited {A}.
Arguments Stuck {A} _.

Section Run.
Context {W : Type} (handle : sys → W → answer * W).

Fixpoint run {A} (p : prog A) (w : W) : fin A * W :=
  match p with
  | Ret a => (Done a, w)
  | Call Exit _ => (Exited, w)
  | Call c k => let '(r, w') := handle c w in run (k r) w'
  | Stop e => (Stuck e, w)
  end.

Lemma run_bind {A B} (p : prog A) (f : A → prog B) w :
  run (p ≫= f) w = match run p w with
                   | (Done a, w') => run (f a) w'
                   | (Exited, w') => (Exited, w')
                   | (Stuck e, w') => (Stuck e, w')
                   end.
Proof.
  revert w. induction p as [a | c k IH | e]; intros w; [done | | done].
  destruct c; simpl; try done; destruct (handle _ w); apply IH.
Qed.

Lemma run_done {A B} (p : prog A) (f : A → prog B) w a w' :
  run p w = (Done a, w') → run (p ≫= f) w = run (f a) w'.
Proof. intros E. by rewrite run_bind, E. Qed.
End Run.

(** ** [ulib.c] *)

(** The string at the start of a buffer: its bytes up to the first 0. *)
Fixpoint cstr (l : list Z) : list Z :=
  match l with
  | [] => []
  | c :: l => if c =? 0 then [] else c :: cstr l
  end.

Lemma cstr_app l t : 0 ∉ l → cstr (l ++ 0 :: t) = l.
Proof.
  induction l as [|x l IH]; simpl; intros Hc; [done |].
  apply not_elem_of_cons in Hc as [Hx Hl]. destruct (Z.eqb_spec x 0); [done |]. by rewrite IH.
Qed.

(** [strchr(s, c)]: the characters before the first [c]; [c] is not 0. *)
Fixpoint strchr (s : list Z) (c : Z) : option nat :=
  match s with
  | [] => None
  | x :: s => if x =? c then Some O else S <$> strchr s c
  end.

Definition has_char (s : list Z) (c : Z) : bool := bool_decide (is_Some (strchr s c)).

Fixpoint strcmp (p q : list Z) : Z :=
  match p, q with
  | x :: p', y :: q' => if x =? y then strcmp p' q' else u8 x - u8 y
  | [], q => 0 - u8 (default 0 (head q))
  | p, [] => u8 (default 0 (head p)) - 0
  end.

(** [int] arithmetic is kept modulo 2^32, as the machine does. *)
Fixpoint atoi_loop (s : list Z) (n : Z) : Z :=
  match s with
  | c :: s => if (48 <=? c) && (c <=? 57) then atoi_loop s (s32 (n * 10 + c - 48)) else n
  | [] => n
  end.
Definition atoi (s : list Z) : Z := atoi_loop s 0.

(** The loop of [gets], with [n] characters to go. *)
Fixpoint gets_loop (n : nat) (acc : list Z) : prog (list Z) :=
  match n with
  | O => mret acc
  | S n =>
    r ← call (Read 0 1);
    if r.1 <? 1 then mret acc else
    let c := default 0 (head r.2) in
    if (c =? 10) || (c =? 13) then mret (acc ++ [c]) else gets_loop n (acc ++ [c])
  end.
(** The bytes of [buf] before the 0 that [gets] appends. *)
Definition ugets (max : Z) : prog (list Z) := gets_loop (Z.to_nat (max - 1)) [].

Definition ustat (n : list Z) : prog answer :=
  fd ← sys_ret (Open n O_RDONLY);
  if fd <? 0 then mret (-1, []) else
  r ← call (Fstat fd);
  sys_ret (Close fd);;
  mret r.

(** ** [printf.c] *)

Definition putc (fd c : Z) : prog unit := sys_ret (Write fd [u8 c]);; mret tt.

Fixpoint puts (fd : Z) (s : list Z) : prog unit :=
  match s with
  | [] => mret tt
  | c :: s => putc fd c;; puts fd s
  end.

Definition udigit (d : Z) : Z := if d <? 10 then 48 + d else 65 + (d - 10).

(** The digits of [x], last one first; [buf] has room for 16 characters. *)
Fixpoint udigits (fuel : nat) (x base : Z) : list Z :=
  match fuel with
  | O => []
  | S fuel => udigit (x mod base) :: (if x / base =? 0 then [] else udigits fuel (x / base) base)
  end.

Definition uint_chars (xx base : Z) (sgn : bool) : list Z :=
  let neg := sgn && (s32 xx <? 0) in
  let x := if neg then u32 (- s32 xx) else u32 xx in
  udigits 16 x base ++ (if neg then [45] else []).

Definition uprintint (fd xx base : Z) (sgn : bool) : prog unit := puts fd (reverse (uint_chars xx base sgn)).

(** An argument: a word, or a pointer to a string (0 is the null pointer). *)
Inductive uarg : Type :=
| UInt (v : Z)
| UStr (s : option (list Z)).

Definition unull : list Z := [40; 110; 117; 108; 108; 41].

(** The loop of [printf]; [st] is [state == '%']. *)
Fixpoint printf_loop (fd : Z) (fmt : list Z) (args : list uarg) (st : bool) : prog unit :=
  match fmt with
  | [] => mret tt
  | c :: fmt =>
    if negb st then
      if c =? 37 then printf_loop fd fmt args true else putc fd c;; printf_loop fd fmt args false
    else if c =? 100 then
      match args with UInt v :: args => uprintint fd v 10 true;; printf_loop fd fmt args false | _ => Stop EUndef end
    else if (c =? 120) || (c =? 112) then
      match args with UInt v :: args => uprintint fd v 16 false;; printf_loop fd fmt args false | _ => Stop EUndef end
    else if c =? 115 then
      match args with UStr s :: args => puts fd (default unull s);; printf_loop fd fmt args false | _ => Stop EUndef end
    else if c =? 99 then
      match args with UInt v :: args => putc fd v;; printf_loop fd fmt args false | _ => Stop EUndef end
    else if c =? 37 then putc fd c;; printf_loop fd fmt args false
    else putc fd 37;; putc fd c;; printf_loop fd fmt args false
  end.
Definition printf (fd : Z) (fmt : list Z) (args : list uarg) : prog unit := printf_loop fd fmt args false.

(** ** Kernels that serve streams

    What the programs below need of [read] and [write]: a descriptor has bytes
    left to read ([avail]), of which a read takes some, and bytes written to
    it ([sent]); [whole] says that a read takes all it has room for, as it
    does on a file and may not on a pipe or the console. *)
Class Streams (W : Type) := {
  handle : sys → W → answer * W;
  avail : W → Z → list Z;
  sent : W → Z → list Z;
  whole : W → Prop;
  read_law w fd n : 0 < n →
    ∃ k w', handle (Read fd n) w = ((Z.of_nat k, take k (avail w fd)), w') ∧
      (k ≤ length (avail w fd))%nat ∧ Z.of_nat k ≤ n ∧ (k = O → avail w fd = []) ∧
      avail w' fd = drop k (avail w fd) ∧ sent w' = sent w ∧
      (whole w → k = Nat.min (Z.to_nat n) (length (avail w fd)) ∧ whole w');
  write_law w fd bs :
    ∃ w', handle (Write fd bs) w = ((Z.of_nat (length bs), []), w') ∧
      avail w' = avail w ∧ sent w' fd = sent w fd ++ bs ∧ (∀ x, x ≠ fd → sent w' x = sent w x) ∧
      (whole w → whole w');
}.

(** Two worlds that differ in what was sent to [fd] only. *)
Record wrote {W} `{Streams W} (fd : Z) (bs : list Z) (w w' : W) : Prop := Wrote {
  wr_avail : avail w' = avail w;
  wr_sent : sent w' fd = sent w fd ++ bs;
  wr_other : ∀ x, x ≠ fd → sent w' x = sent w x;
  wr_whole : whole w → whole w';
}.

Section Output.
Context {W : Type} `{Streams W}.

Lemma wrote_nil fd (w : W) : wrote fd [] w w.
Proof. constructor; try done. by rewrite app_nil_r. Qed.

Lemma wrote_app fd a b (w w' w'' : W) : wrote fd a w w' → wrote fd b w' w'' → wrote fd (a ++ b) w w''.
Proof.
  intros [A1 A2 A3 A4] [B1 B2 B3 B4]. constructor.
  - congruence.
  - by rewrite B2, A2, app_assoc.
  - intros x Hx. by rewrite B3, A3.
  - auto.
Qed.

Lemma run_write fd bs (w : W) :
  ∃ w', run handle (sys_ret (Write fd bs)) w = (Done (Z.of_nat (length bs)), w') ∧ wrote fd bs w w'.
Proof.
  destruct (write_law w fd bs) as (w' & E & H1 & H2 & H3 & H4). exists w'. simpl. by rewrite E.
Qed.

Lemma run_puts fd s (w : W) :
  ∃ w', run handle (puts fd s) w = (Done tt, w') ∧ wrote fd (u8 <$> s) w w'.
Proof.
  revert w. induction s as [|c s IH]; intros w; [eexists; split; [done | apply wrote_nil] |].
  destruct (run_write fd [u8 c] w) as (w1 & E1 & H1). destruct (IH w1) as (w2 & E2 & H2).
  exists w2. split; [|exact (wrote_app _ [u8 c] _ _ _ _ H1 H2)].
  cbn [puts]. unfold putc. rewrite !run_bind, E1. done.
Qed.
End Output.
