(* ===== verification/UPrintf.v ===== *)
(** * What the user [printf] prints ([printf.c])

    A format is given by its pieces: characters and directives with their
    arguments.  [printf] writes the pieces one after the other; a number comes
    out as a numeral that stands for it. *)

From S2P Require Import Prelude Bytes User.

(** ** Numerals *)

Definition digit_value (c : Z) : Z := if c <? 58 then c - 48 else c - 55.
Definition numeral_value (base : Z) (cs : list Z) : Z := foldl (λ n c, n * base + digit_value c) 0 cs.

(** With a sign. *)
Definition number_value (base : Z) (cs : list Z) : Z :=
  match cs with
  | c :: cs' => if c =? 45 then - numeral_value base cs' else numeral_value base cs
  | [] => 0
  end.

Lemma digit_value_udigit d : 0 ≤ d < 16 → digit_value (udigit d) = d ∧ udigit d ≠ 45.
Proof.
  intros Hd. unfold udigit. destruct (Z.ltb_spec d 10).
  - unfold digit_value. destruct (Z.ltb_spec (48 + d) 58); lia.
  - unfold digit_value. destruct (Z.ltb_spec (65 + (d - 10)) 58); lia.
Qed.

Lemma udigits_spec fuel x base :
  2 ≤ base ≤ 16 → 0 ≤ x < base ^ Z.of_nat fuel → (0 < fuel)%nat →
  numeral_value base (reverse (udigits fuel x base)) = x ∧ Forall (λ c, c ≠ 45) (udigits fuel x base) ∧
  udigits fuel x base ≠ [].
Proof.
  intros Hb. revert x. induction fuel as [|fuel IH]; intros x Hx Hf; [lia |]. cbn [udigits].
  destruct (digit_value_udigit (x mod base)) as [Hv Hm]; [zdiv |].
  rewrite reverse_cons. unfold numeral_value. rewrite foldl_app. simpl. rewrite Hv. fold (numeral_value base (reverse (if x / base =? 0 then [] else udigits fuel (x / base) base))).
  pose proof (Z.div_mod x base ltac:(lia)) as Hdm.
  destruct (Z.eqb_spec (x / base) 0) as [E|E].
  - split_and!; [unfold numeral_value; simpl; rewrite E in Hdm; lia | by repeat constructor | done].
  - destruct (IH (x / base)) as (E1 & E2 & _).
    + split; [apply Z.div_pos; lia |]. apply Z.div_lt_upper_bound; [lia |].
      rewrite Nat2Z.inj_succ, Z.pow_succ_r in Hx by lia. lia.
    + destruct fuel; [|lia]. exfalso. apply E. apply Z.div_small. simpl in Hx. lia.
    + rewrite E1. split_and!; [lia | by constructor | done].
Qed.

Lemma number_sign base (neg : bool) l :
  l ≠ [] → Forall (λ c, c ≠ 45) l →
  number_value base (reverse (l ++ (if neg then [45] else []))) =
    if neg then - numeral_value base (reverse l) else numeral_value base (reverse l).
Proof.
  intros Hn Hl. rewrite reverse_app. destruct neg; [done |]. simpl. destruct (reverse l) as [|c cs] eqn:E; [done |]. simpl.
  assert (c ≠ 45) as Hc%Z.eqb_neq; [|by rewrite Hc].
  rewrite list.Forall_forall in Hl. apply Hl. rewrite <- elem_of_reverse, E. by left.
Qed.

(** The text of a number stands for it. *)
Lemma uint_chars_value v base sgn :
  10 ≤ base ≤ 16 → number_value base (reverse (uint_chars v base sgn)) = if sgn then s32 v else u32 v.
Proof.
  intros Hb. unfold uint_chars. set (neg := sgn && (s32 v <? 0)). set (x := if neg then u32 (- s32 v) else u32 v).
  assert (0 ≤ x < 2 ^ 32) as Hx by (unfold x; destruct neg; apply u32_range).
  assert (2 ^ 32 ≤ base ^ Z.of_nat 16) by (transitivity (10 ^ 16); [lia | apply Z.pow_le_mono_l; lia]).
  destruct (udigits_spec 16 x base) as (E1 & E2 & E3); [lia | lia | lia |].
  rewrite (number_sign base neg _ E3 E2), E1.
  unfold x, neg. destruct sgn; simpl; [|done]. unfold s32 in *. pose proof (u32_range v).
  destruct (Z.ltb_spec (u32 v) (2 ^ 31)).
  - destruct (Z.ltb_spec (u32 v) 0); [lia | done].
  - destruct (Z.ltb_spec (u32 v - 2 ^ 32) 0); [|lia]. rewrite u32_id; lia.
Qed.

(** ** Formats *)

Inductive piece : Type :=
| PLit (c : Z)
| PDec (v : Z)
| PHex (v : Z)
| PStr (s : option (list Z))
| PChr (v : Z)
| PPercent.

Definition piece_fmt (p : piece) : list Z :=
  match p with
  | PLit c => [c]
  | PDec _ => [37; 100]
  | PHex _ => [37; 120]
  | PStr _ => [37; 115]
  | PChr _ => [37; 99]
  | PPercent => [37; 37]
  end.
Definition piece_arg (p : piece) : list uarg :=
  match p with
  | PDec v | PHex v | PChr v => [UInt v]
  | PStr s => [UStr s]
  | PLit _ | PPercent => []
  end.
Definition piece_text (p : piece) : list Z :=
  match p with
  | PLit c => [u8 c]
  | PDec v => reverse (uint_chars v 10 true)
  | PHex v => reverse (uint_chars v 16 false)
  | PStr s => u8 <$> default (chars "(null)") s
  | PChr v => [u8 v]
  | PPercent => [37]
  end.
Definition piece_ok (p : piece) : Prop := match p with PLit c => c ≠ 37 | _ => True end.

Definition fmt_of (ps : list piece) : list Z := mjoin (piece_fmt <$> ps).
Definition args_of (ps : list piece) : list uarg := mjoin (piece_arg <$> ps).
Definition text_of_pieces (ps : list piece) : list Z := mjoin (piece_text <$> ps).

Lemma udigits_bytes fuel x base : 2 ≤ base ≤ 16 → 0 ≤ x → Forall (λ c, 0 ≤ c < 256) (udigits fuel x base).
Proof.
  intros Hb. revert x. induction fuel as [|fuel IH]; intros x Hx; [constructor |]. cbn [udigits]. constructor.
  - unfold udigit. pose proof (Z.mod_pos_bound x base ltac:(lia)). destruct (x mod base <? 10); lia.
  - destruct (x / base =? 0); [constructor | apply IH, Z.div_pos; lia].
Qed.

Lemma uint_chars_bytes v base sgn : 2 ≤ base ≤ 16 → u8 <$> reverse (uint_chars v base sgn) = reverse (uint_chars v base sgn).
Proof.
  intros Hb. rewrite <- (list_fmap_id (reverse _)) at 2. apply Forall_fmap_ext_1, Forall_reverse. unfold uint_chars.
  apply Forall_app. split.
  - eapply list.Forall_impl; [apply udigits_bytes; [done |] |].
    + destruct (_ && _); apply u32_range.
    + intros c Hc. by apply Z.mod_small.
  - by destruct (_ && _); repeat constructor.
Qed.

Section Printf.
Context {W : Type} `{Streams W}.

Definition prints (p : prog unit) (fd : Z) (bs : list Z) : Prop :=
  ∀ w, ∃ w', run handle p w = (Done tt, w') ∧ wrote fd bs w w'.

Lemma prints_bind p q fd a b : prints p fd a → prints q fd b → prints (p;; q) fd (a ++ b).
Proof.
  intros Hp Hq w. destruct (Hp w) as (w1 & E1 & H1). destruct (Hq w1) as (w2 & E2 & H2). exists w2.
  split; [by erewrite run_done by exact E1 | by eapply wrote_app].
Qed.

Lemma prints_putc fd c : prints (putc fd c) fd [u8 c].
Proof.
  intros w. destruct (run_write fd [u8 c] w) as (w1 & E1 & H1). exists w1. split; [|done].
  unfold putc. by erewrite run_done by exact E1.
Qed.

Lemma prints_int fd v base sgn : 2 ≤ base ≤ 16 → prints (uprintint fd v base sgn) fd (reverse (uint_chars v base sgn)).
Proof.
  intros Hb w. unfold uprintint. destruct (run_puts fd (reverse (uint_chars v base sgn)) w) as (w' & E & Hw).
  rewrite uint_chars_bytes in Hw by done. by exists w'.
Qed.

Definition piece_out (fd : Z) (p : piece) : prog unit :=
  match p with
  | PLit c => putc fd c
  | PDec v => uprintint fd v 10 true
  | PHex v => uprintint fd v 16 false
  | PStr s => puts fd (default unull s)
  | PChr v => putc fd v
  | PPercent => putc fd 37
  end.

Lemma printf_piece fd p fmt args :
  piece_ok p →
  printf_loop fd (piece_fmt p ++ fmt) (piece_arg p ++ args) false = (piece_out fd p;; printf_loop fd fmt args false).
Proof. destruct p; try done. simpl. intros Hc%Z.eqb_neq. by rewrite Hc. Qed.

Lemma prints_piece fd p : prints (piece_out fd p) fd (piece_text p).
Proof.
  destruct p; try apply prints_putc; try (by apply prints_int); [].
  intros w. apply run_puts.
Qed.

Lemma printf_pieces fd ps : Forall piece_ok ps → prints (printf fd (fmt_of ps) (args_of ps)) fd (text_of_pieces ps).
Proof.
  unfold printf. induction 1 as [|p ps Hp Hps IH]; [intros w; exists w; split; [done | apply wrote_nil] |].
  change (fmt_of (p :: ps)) with (piece_fmt p ++ fmt_of ps). change (args_of (p :: ps)) with (piece_arg p ++ args_of ps).
  rewrite printf_piece by done. by apply prints_bind; [apply prints_piece |].
Qed.
End Printf.
