(* ===== verification/Grep.v ===== *)
(** * grep ([grep.c])

    The matcher, proved equivalent to the language of a regular expression
    ([match_correct], in [UserProps]), and the loop that splits a stream into
    lines in a buffer of 1024 bytes. *)

From S2P Require Import Prelude Bytes User.

(** ** The matcher *)

(** [matchstar(c, re, text)], where [here] is [matchhere(re, _)]. *)
Fixpoint matchstar (c : Z) (here : list Z → bool) (text : list Z) : bool :=
  here text ||
  match text with
  | [] => false
  | t :: text => if (t =? c) || (c =? 46) then matchstar c here text else false
  end.

Fixpoint matchhere (re text : list Z) : bool :=
  match re with
  | [] => true
  | c :: re1 =>
    let one := match text with
               | [] => false
               | t :: text => if (c =? 46) || (c =? t) then matchhere re1 text else false
               end in
    match re1 with
    | [] => if c =? 36 then match text with [] => true | _ :: _ => false end else one
    | d :: re2 => if d =? 42 then matchstar c (matchhere re2) text else one
    end
  end.

(** The loop of [match]: every suffix of the text, the empty one too. *)
Fixpoint match_any (re text : list Z) : bool :=
  matchhere re text ||
  match text with
  | [] => false
  | _ :: text => match_any re text
  end.

Definition match_ (re text : list Z) : bool :=
  match re with
  | c :: re' => if c =? 94 then matchhere re' text else match_any re text
  | [] => match_any re text
  end.

(** ** The loop over a stream *)

Definition GBUF : nat := 1024.

(** The inner loop: the lines from [p] on, until there is no newline. *)
Fixpoint grep_lines (fuel : nat) (pat : list Z) (buf : list Z) (p : nat) : prog (list Z * nat) :=
  match fuel with
  | O => Stop EFuel
  | S fuel =>
    match strchr (cstr (drop p buf)) 10 with
    | None => mret (buf, p)
    | Some k =>
      let q := (p + k)%nat in
      let buf := <[q := 0]> buf in
      if match_ pat (cstr (drop p buf)) then
        let buf := <[q := 10]> buf in
        sys_ret (Write 1 (slice p (q + 1 - p) buf));;
        grep_lines fuel pat buf (q + 1)
      else grep_lines fuel pat buf (q + 1)
    end
  end.

(** [grep(pattern, fd)] with [m] bytes of an unfinished line in [buf]. *)
Fixpoint grep_loop (fuel : nat) (pat : list Z) (fd : Z) (buf : list Z) (m : nat) : prog unit :=
  match fuel with
  | O => Stop EFuel
  | S fuel =>
    r ← call (Read fd (Z.of_nat GBUF - Z.of_nat m - 1));
    if r.1 <=? 0 then mret tt else
    let buf := splice m r.2 buf in
    let m := (m + Z.to_nat r.1)%nat in
    let buf := <[m := 0]> buf in
    x ← grep_lines GBUF pat buf 0;
    let '(buf, p) := x in
    let m := if Nat.eqb p 0 then O else m in
    if Nat.eqb m 0 then grep_loop fuel pat fd buf m
    else grep_loop fuel pat fd (splice 0 (slice p (m - p) buf) buf) (m - p)
  end.

Definition grep (fuel : nat) (pat : list Z) (fd : Z) : prog unit :=
  grep_loop fuel pat fd (replicate GBUF 0) 0.

(** [main], the arguments after the program's name. *)
Fixpoint grep_files (fuel : nat) (pat : list Z) (files : list (list Z)) : prog unit :=
  match files with
  | [] => exit
  | f :: files =>
    fd ← sys_ret (Open f 0);
    if fd <? 0 then printf 1 (chars "grep: cannot open %s" ++ [10]) [UStr (Some f)];; exit
    else grep fuel pat fd;; sys_ret (Close fd);; grep_files fuel pat files
  end.
Definition grep_main (fuel : nat) (args : list (list Z)) : prog unit :=
  match args with
  | [] => printf 2 (chars "usage: grep pattern [file ...]" ++ [10]) [];; exit
  | [pat] => grep fuel pat 0;; exit
  | pat :: files => grep_files fuel pat files
  end.

(** ** Regular expressions *)

Inductive sym : Type :=
| Lit (c : Z)
| Any.

Inductive regexp : Type :=
| Eps
| Sym (a : sym)
| Star (a : sym)
| Cat (e f : regexp).

Definition sym_ok (a : sym) (c : Z) : Prop :=
  match a with
  | Lit x => c = x
  | Any => True
  end.

(** The words of an expression. *)
Inductive lang : regexp → list Z → Prop :=
| lang_eps : lang Eps []
| lang_sym a c : sym_ok a c → lang (Sym a) [c]
| lang_star a w : Forall (sym_ok a) w → lang (Star a) w
| lang_cat e f v w : lang e v → lang f w → lang (Cat e f) (v ++ w).

(** A pattern: anchored at the start, the expression, anchored at the end. *)
Record pattern : Type := Pattern {
  p_bol : bool;
  p_re : regexp;
  p_eol : bool;
}.

Definition sym_of (c : Z) : sym := if c =? 46 then Any else Lit c.

(** The meaning of a pattern without the leading [^]: [.] is any character,
    a character before [*] is repeated, [$] at the end is an anchor, and
    everything else stands for itself. *)
Fixpoint body (re : list Z) : regexp * bool :=
  match re with
  | [] => (Eps, false)
  | c :: re1 =>
    let one := (Cat (Sym (sym_of c)) (body re1).1, (body re1).2) in
    match re1 with
    | [] => if c =? 36 then (Eps, true) else one
    | d :: re2 => if d =? 42 then (Cat (Star (sym_of c)) (body re2).1, (body re2).2) else one
    end
  end.

Definition pattern_of (re : list Z) : pattern :=
  match re with
  | c :: re' => if c =? 94 then Pattern true (body re').1 (body re').2 else Pattern false (body re).1 (body re).2
  | [] => Pattern false Eps false
  end.

(** A text matches if some part of it is a word of the expression, the part
    starting or ending the text where the pattern is anchored. *)
Definition matches (p : pattern) (text : list Z) : Prop :=
  ∃ pre w post, text = pre ++ w ++ post ∧ lang (p_re p) w ∧
    (p_bol p = true → pre = []) ∧ (p_eol p = true → post = []).

(** ** The matcher decides the language *)

(** Some prefix of the text is a word, all of it when anchored. *)
Definition prefix_of_text (b : regexp * bool) (text : list Z) : Prop :=
  ∃ w post, text = w ++ post ∧ lang b.1 w ∧ (b.2 = true → post = []).

Lemma sym_ok_test c t : sym_ok (sym_of c) t ↔ ((c =? 46) || (c =? t)) = true.
Proof.
  unfold sym_of. destruct (Z.eqb_spec c 46); simpl; [done |].
  destruct (Z.eqb_spec c t); naive_solver.
Qed.

Lemma matchstar_spec c here text :
  matchstar c here text = true ↔
  ∃ v rest, text = v ++ rest ∧ Forall (sym_ok (sym_of c)) v ∧ here rest = true.
Proof.
  induction text as [|t text IH]; cbn [matchstar].
  - rewrite orb_false_r. split.
    + intros Hh. by exists [], [].
    + intros (v & rest & E & _ & Hh). symmetry in E. by apply app_eq_nil in E as [-> ->].
  - rewrite orb_true_iff. pose proof (sym_ok_test c t) as Hs.
    rewrite (Z.eqb_sym c t), orb_comm in Hs. split.
    + intros [Hh | Hr]; [by exists [], (t :: text) |].
      destruct ((t =? c) || (c =? 46)); [|done]. apply IH in Hr as (v & rest & -> & Hv & Hh).
      exists (t :: v), rest. split_and!; [done | constructor; [by apply Hs | done] | done].
    + intros (v & rest & E & Hv & Hh). destruct v as [|x v]; [left; by rewrite E |].
      injection E as -> ->. apply list.Forall_cons in Hv as [Hx Hv].
      right. rewrite (proj1 Hs Hx). apply IH. by exists v, rest.
Qed.

Lemma lang_cat_inv e f w : lang (Cat e f) w → ∃ u v, w = u ++ v ∧ lang e u ∧ lang f v.
Proof. inversion 1; subst. eauto 10. Qed.

(** The first symbol of the expression, and the rest. *)
Lemma prefix_cat_sym a b text :
  prefix_of_text (Cat (Sym a) b.1, b.2) text ↔
  match text with [] => False | t :: text => sym_ok a t ∧ prefix_of_text b text end.
Proof.
  unfold prefix_of_text; simpl. split.
  - intros (w & post & -> & (u & v & -> & Hu & Hv)%lang_cat_inv & Hp). inversion Hu; subst. simpl. eauto 10.
  - destruct text as [|t text]; [done |]. intros (Ht & w & post & -> & Hw & Hp).
    exists (t :: w), post. split_and!; [done | | done]. apply (lang_cat _ _ [t] w); [by constructor | done].
Qed.

Lemma prefix_cat_star a b text :
  prefix_of_text (Cat (Star a) b.1, b.2) text ↔
  ∃ v rest, text = v ++ rest ∧ Forall (sym_ok a) v ∧ prefix_of_text b rest.
Proof.
  unfold prefix_of_text; simpl. split.
  - intros (w & post & -> & (u & v & -> & Hu & Hv)%lang_cat_inv & Hp). inversion Hu; subst.
    exists u, (v ++ post). rewrite <- app_assoc. eauto 10.
  - intros (v & rest & -> & Hv & w & post & -> & Hw & Hp). exists (v ++ w), post.
    rewrite <- app_assoc. split_and!; [done | constructor; [by constructor | done] | done].
Qed.

Lemma prefix_eps text : prefix_of_text (Eps, false) text.
Proof. exists [], text. split_and!; [done | constructor | done]. Qed.

Lemma prefix_eol text : prefix_of_text (Eps, true) text ↔ text = [].
Proof.
  unfold prefix_of_text; simpl. split.
  - intros (w & post & -> & Hw & Hp). inversion Hw; subst. by rewrite Hp.
  - intros ->. exists [], []. split_and!; [done | constructor | done].
Qed.

Lemma matchhere_one c re text :
  (∀ t, matchhere re t = true ↔ prefix_of_text (body re) t) →
  match text with
  | [] => false
  | t :: text => if (c =? 46) || (c =? t) then matchhere re text else false
  end = true ↔ prefix_of_text (Cat (Sym (sym_of c)) (body re).1, (body re).2) text.
Proof.
  intros IH. rewrite prefix_cat_sym. destruct text as [|t text]; [done |].
  rewrite sym_ok_test. destruct ((c =? 46) || (c =? t)); [|naive_solver]. rewrite IH. naive_solver.
Qed.

Lemma matchhere_spec re text : matchhere re text = true ↔ prefix_of_text (body re) text.
Proof.
  revert text. induction re as [re IH] using (induction_ltof1 _ length). intros text.
  unfold ltof in IH. destruct re as [|c [|d re]].
  - split; [intros _; apply prefix_eps | done].
  - cbn [matchhere body]. destruct (c =? 36).
    + rewrite prefix_eol. destruct text; naive_solver.
    + apply (matchhere_one c []). apply IH. simpl. lia.
  - cbn [matchhere body]. destruct (d =? 42).
    + rewrite matchstar_spec, prefix_cat_star. setoid_rewrite IH; [done | simpl; lia].
    + apply (matchhere_one c (d :: re)). apply IH. simpl. lia.
Qed.

Lemma match_any_spec re text :
  match_any re text = true ↔ ∃ pre rest, text = pre ++ rest ∧ prefix_of_text (body re) rest.
Proof.
  induction text as [|t text IH]; cbn [match_any]; rewrite orb_true_iff, matchhere_spec.
  - split.
    + intros [Hp | Hp]; [by exists [], [] | done].
    + intros (pre & rest & E & Hp). symmetry in E. apply app_eq_nil in E as [-> ->]. by left.
  - rewrite IH. split.
    + intros [Hp | (pre & rest & -> & Hp)]; [by exists [], (t :: text) | by exists (t :: pre), rest].
    + intros ([|x pre] & rest & E & Hp); [left; by rewrite E |]. injection E as -> ->. right. by exists pre, rest.
Qed.

Lemma matches_bol b text : matches (Pattern true b.1 b.2) text ↔ prefix_of_text b text.
Proof.
  unfold matches, prefix_of_text; simpl. split.
  - intros (pre & w & post & -> & Hw & Hb & He). rewrite Hb by done. exists w, post. by split_and!.
  - intros (w & post & -> & Hw & He). exists [], w, post. by split_and!.
Qed.

Lemma matches_any b text :
  matches (Pattern false b.1 b.2) text ↔ ∃ pre rest, text = pre ++ rest ∧ prefix_of_text b rest.
Proof.
  unfold matches, prefix_of_text; simpl. split.
  - intros (pre & w & post & -> & Hw & Hb & He). exists pre, (w ++ post). eauto 10.
  - intros (pre & rest & -> & w & post & -> & Hw & He). exists pre, w, post. by split_and!.
Qed.

Lemma match_spec re text : match_ re text = true ↔ matches (pattern_of re) text.
Proof.
  unfold match_, pattern_of. destruct re as [|c re].
  - rewrite match_any_spec, (matches_any (body [])). done.
  - destruct (c =? 94).
    + rewrite matchhere_spec, matches_bol. done.
    + rewrite match_any_spec, matches_any. done.
Qed.

(** ** The loop prints the lines that match *)

Definition nl (l : list Z) : list Z := l ++ [10].
Definition text_of (ls : list (list Z)) : list Z := mjoin (nl <$> ls).

(** A line that fits in the buffer with its newline. *)
Record line_ok (l : list Z) : Prop := LineOk {
  lo_nl : 10 ∉ l;
  lo_nul : 0 ∉ l;
  lo_len : (length l + 1 < GBUF)%nat;
}.

Definition selected (pat : list Z) (ls : list (list Z)) : list (list Z) :=
  filter (λ l, match_ pat l = true) ls.

Lemma strchr_app l c t : c ∉ l → strchr (l ++ c :: t) c = Some (length l).
Proof.
  induction l as [|x l IH]; simpl; intros Hc.
  - by rewrite Z.eqb_refl.
  - apply not_elem_of_cons in Hc as [Hx Hl]. destruct (Z.eqb_spec x c); [done |]. by rewrite IH.
Qed.

Lemma strchr_none l c : c ∉ l → strchr l c = None.
Proof.
  induction l as [|x l IH]; simpl; intros Hc; [done |].
  apply not_elem_of_cons in Hc as [Hx Hl]. destruct (Z.eqb_spec x c); [done |]. by rewrite IH.
Qed.

Lemma text_of_no_nul ls : Forall line_ok ls → 0 ∉ text_of ls.
Proof.
  induction 1 as [|l ls Hl _ IH]; [apply not_elem_of_nil |].
  change (text_of (l :: ls)) with ((l ++ [10]) ++ text_of ls). rewrite !not_elem_of_app, list_elem_of_singleton. split_and!; [apply Hl | done | done].
Qed.

Lemma length_nl l : length (nl l) = S (length l).
Proof. unfold nl. rewrite length_app. simpl. lia. Qed.

Lemma text_of_cons l ls : text_of (l :: ls) = nl l ++ text_of ls.
Proof. done. Qed.

Lemma text_of_app a b : text_of (a ++ b) = text_of a ++ text_of b.
Proof. unfold text_of. by rewrite fmap_app, join_app. Qed.

Lemma length_text_of ls : (length ls ≤ length (text_of ls))%nat.
Proof. induction ls; [done |]. rewrite text_of_cons, length_app, length_nl. simpl. lia. Qed.

Lemma text_of_no_nl ls : 10 ∉ text_of ls → ls = [].
Proof.
  destruct ls as [|l ls]; [done |]. rewrite text_of_cons. unfold nl.
  rewrite !not_elem_of_app, list_elem_of_singleton. tauto.
Qed.

(** A part of a text from its start: whole lines, and the start of one. *)
Record cut (ls l1 l2 : list (list Z)) (tail rest : list Z) : Prop := Cut {
  cut_lines : ls = l1 ++ l2;
  cut_rest : text_of l2 = tail ++ rest;
  cut_nl : 10 ∉ tail;
  cut_nul : 0 ∉ tail;
  cut_len : (length tail + 1 < GBUF)%nat;
  cut_short : tail = [] ∨ ∃ l l2', l2 = l :: l2' ∧ (length tail ≤ length l)%nat;
}.

Lemma cut_ex ls x rest :
  Forall line_ok ls → text_of ls = x ++ rest →
  ∃ l1 l2 tail, x = text_of l1 ++ tail ∧ cut ls l1 l2 tail rest.
Proof.
  intros Hls. revert x. induction Hls as [|l ls Hl Hls IH]; intros x E.
  { symmetry in E. apply app_eq_nil in E as [-> ->]. exists [], [], []. split; [done |].
    constructor; try done; [apply not_elem_of_nil.. | unfold GBUF; simpl; lia | by left]. }
  rewrite text_of_cons in E. destruct (decide (length x ≤ length l)%nat) as [Hx|Hx].
  - exists [], (l :: ls), x. split; [done |].
    assert (x `prefix_of` l) as Hpre.
    { unfold nl in E. rewrite <- app_assoc in E. apply app_eq_inv in E as [(k & -> & _) | (k & -> & _)]; [by exists k |].
      rewrite length_app in Hx. replace k with (@nil Z); [by rewrite app_nil_r |]. symmetry. apply nil_length_inv. lia. }
    destruct Hpre as [k ->]. destruct Hl as [H10 H0 Hlen]. rewrite not_elem_of_app in H10, H0. rewrite length_app in Hlen.
    constructor; try done; [naive_solver | naive_solver | lia | right; eauto].
  - apply app_eq_inv in E as [(k & E1 & E2) | (k & -> & E2)].
    + assert (k = []) as ->.
      { apply nil_length_inv. apply (f_equal length) in E1. rewrite length_nl, length_app in E1. lia. }
      rewrite app_nil_r in E1. destruct (IH []) as (l1 & l2 & tail & Ex & [C1 C2 C3 C4 C5 C6]); [by rewrite E2 |].
      exists (l :: l1), l2, tail. rewrite text_of_cons, <- app_assoc, <- Ex, app_nil_r, <- E1. split; [done |].
      constructor; try done. by rewrite C1.
    + destruct (IH k) as (l1 & l2 & tail & -> & [C1 C2 C3 C4 C5 C6]); [done |].
      exists (l :: l1), l2, tail. rewrite text_of_cons, <- app_assoc. split; [done |].
      constructor; try done. by rewrite C1.
Qed.

(** The buffer after a read, with the 0 behind the data. *)
Lemma fill_buf buf tail chunk :
  length buf = GBUF → take (length tail) buf = tail → (length tail + length chunk < GBUF)%nat →
  ∃ post, <[(length tail + length chunk)%nat := 0]> (splice (length tail) chunk buf) = tail ++ chunk ++ 0 :: post ∧
    (length tail + length chunk + 1 + length post = GBUF)%nat.
Proof.
  intros Hb Ht Hl. unfold splice. rewrite Ht.
  rewrite (insert_app_r tail), <- (Nat.add_0_r (length chunk)), insert_app_r, Nat.add_0_r.
  destruct (drop (length tail + length chunk) buf) as [|c post] eqn:E.
  - apply (f_equal length) in E. rewrite length_drop in E. simpl in E. lia.
  - exists post. split; [done |]. apply (f_equal length) in E. rewrite length_drop in E. simpl in E. lia.
Qed.

Section Loop.
Context {W : Type} `{Streams W}.

(** Every line of the buffer that matches is written; the rest stays. *)
Lemma grep_lines_spec ls fuel pat pre tail post (w : W) :
  Forall line_ok ls → 10 ∉ tail → 0 ∉ tail → (length ls < fuel)%nat →
  ∃ pre' w', run handle (grep_lines fuel pat (pre ++ text_of ls ++ tail ++ 0 :: post) (length pre)) w =
      (Done (pre' ++ tail ++ 0 :: post, length pre'), w') ∧
    length pre' = (length pre + length (text_of ls))%nat ∧ wrote 1 (text_of (selected pat ls)) w w'.
Proof.
  revert fuel pre w. induction ls as [|l ls IH]; intros fuel pre w Hls Ht10 Ht0 Hf;
    (destruct fuel as [|fuel]; [simpl in Hf; lia |]); cbn [grep_lines].
  { exists pre, w. rewrite drop_app_length. simpl. rewrite cstr_app, strchr_none by done.
    split_and!; [done | lia | apply wrote_nil]. }
  pose proof (text_of_no_nul _ Hls) as Hnul. apply list.Forall_cons in Hls as [Hl Hls].
  rewrite drop_app_length.
  assert (cstr (text_of (l :: ls) ++ tail ++ 0 :: post) = text_of (l :: ls) ++ tail) as ->.
  { rewrite (app_assoc (text_of (l :: ls))). apply cstr_app. by rewrite not_elem_of_app. }
  change (text_of (l :: ls)) with ((l ++ [10]) ++ text_of ls). rewrite <- !app_assoc. cbn [app].
  rewrite strchr_app by apply Hl. cbv zeta.
  assert (∀ a c, <[(length pre + length l)%nat := c]> (pre ++ l ++ a :: text_of ls ++ tail ++ 0 :: post) =
    pre ++ l ++ c :: text_of ls ++ tail ++ 0 :: post) as Hins.
  { intros a c. rewrite insert_app_r, <- (Nat.add_0_r (length l)), insert_app_r. done. }
  rewrite Hins, drop_app_length, cstr_app by apply Hl.
  assert (∀ c, pre ++ l ++ c :: text_of ls ++ tail ++ 0 :: post =
    (pre ++ l ++ [c]) ++ text_of ls ++ tail ++ 0 :: post) as Hmv by (intros c; by rewrite <- !app_assoc).
  assert (∀ c, (length pre + length l + 1)%nat = length (pre ++ l ++ [c])) as Hlen.
  { intros c. rewrite !length_app. simpl. lia. }
  unfold selected. rewrite filter_cons. destruct (match_ pat l) eqn:Em.
  - rewrite Hins. case_decide as Hd; [|done].
    destruct (run_write 1 (slice (length pre) (length pre + length l + 1 - length pre)
      (pre ++ l ++ 10 :: text_of ls ++ tail ++ 0 :: post)) w) as (w1 & E1 & Hw1).
    erewrite run_done by exact E1. rewrite Hmv, (Hlen 10).
    destruct (IH fuel (pre ++ l ++ [10]) w1) as (pre' & w2 & E2 & Hp & Hw2); [done.. | simpl in Hf; lia |].
    exists pre', w2. rewrite E2. split_and!; [done | rewrite Hp, !length_app; simpl; lia |].
    change (text_of (l :: filter (λ l0 : list Z, match_ pat l0 = true) ls)) with (nl l ++ text_of (selected pat ls)).
    apply (wrote_app _ _ _ _ w1); [|done].
    replace (nl l) with (slice (length pre) (length pre + length l + 1 - length pre)
      (pre ++ l ++ 10 :: text_of ls ++ tail ++ 0 :: post)); [done |].
    unfold slice, nl. rewrite drop_app_length. replace (length pre + length l + 1 - length pre)%nat with (length l + 1)%nat by lia.
    by rewrite take_app_add.
  - case_decide as Hd; [done |]. rewrite Hmv, (Hlen 0).
    destruct (IH fuel (pre ++ l ++ [0]) w) as (pre' & w2 & E2 & Hp & Hw2); [done.. | simpl in Hf; lia |].
    exists pre', w2. rewrite E2. split_and!; [done | rewrite Hp, !length_app; simpl; lia | done].
Qed.

Lemma grep_loop_spec fuel pat fd buf tail ls (w : W) :
  whole w → Forall line_ok ls → length buf = GBUF → take (length tail) buf = tail →
  text_of ls = tail ++ avail w fd → 10 ∉ tail → (length tail + 1 < GBUF)%nat → (length (avail w fd) < fuel)%nat →
  ∃ w', run handle (grep_loop fuel pat fd buf (length tail)) w = (Done tt, w') ∧
    sent w' 1 = sent w 1 ++ text_of (selected pat ls) ∧ ∀ x, x ≠ 1 → sent w' x = sent w x.
Proof.
  revert buf tail ls w. induction fuel as [|fuel IH]; intros buf tail ls w Hw Hls Hb Htb E H10 Ht Hf; [lia |].
  cbn [grep_loop]. destruct (read_law w fd (Z.of_nat GBUF - Z.of_nat (length tail) - 1)) as
    (k & w1 & E1 & Hk & _ & Hk0 & Ha & Hs & Hwh); [lia |]. destruct (Hwh Hw) as [Ek Hw1]. clear Hwh.
  unfold call. cbn [mbind prog_mbind prog_bind run]. rewrite E1. cbn [fst snd].
  destruct k as [|k'].
  { rewrite (Hk0 eq_refl), app_nil_r in E. subst tail. apply text_of_no_nl in H10 as ->.
    exists w1. rewrite Hs. split_and!; [done | by rewrite app_nil_r | done]. }
  set (k := S k') in *. set (chunk := take k (avail w fd)).
  assert (length chunk = k) as Hck by (unfold chunk; rewrite length_take; lia).
  destruct (Z.leb_spec (Z.of_nat k) 0); [lia |]. rewrite Nat2Z.id. cbv zeta.
  destruct (fill_buf buf tail chunk) as (post & Efb & Hpost); [done | done | lia |].
  rewrite Hck in Efb, Hpost. rewrite Efb.
  destruct (cut_ex ls (tail ++ chunk) (avail w1 fd) Hls) as (l1 & l2 & tail' & Ex & [C1 C2 C3 C4 C5 C6]).
  { rewrite <- app_assoc, Ha, E. unfold chunk. by rewrite take_drop. }
  pose proof (f_equal length Ex) as Hlen. rewrite !length_app, Hck in Hlen.
  assert (l1 ≠ []) as Hl1.
  { intros ->. simpl in C1, Hlen. subst l2. rewrite Ha in C2.
    destruct C6 as [-> | (l & l2' & -> & Hshort)]; [simpl in Hlen; lia |].
    apply list.Forall_cons in Hls as [[_ _ Hll] _].
    assert (length (drop k (avail w fd)) ≠ O) as Hd.
    { intros Hd. apply nil_length_inv in Hd. rewrite Hd, app_nil_r in C2.
      apply (f_equal length) in C2. rewrite text_of_cons, length_app, length_nl in C2. lia. }
    rewrite length_drop in Hd. lia. }
  subst ls. apply Forall_app in Hls as [Hls1 Hls2].
  assert (tail ++ chunk ++ 0 :: post = [] ++ text_of l1 ++ tail' ++ 0 :: post) as ->.
  { by rewrite app_assoc, Ex, <- app_assoc. }
  pose proof (length_text_of l1) as Hll1.
  destruct (grep_lines_spec l1 GBUF pat [] tail' post w1) as (pre' & w2 & E2 & Hp & [A1 A2 A3 A4]); [done.. | lia |].
  erewrite run_done by exact E2. cbv beta iota.
  assert (length pre' ≠ O) as Hp0. { rewrite Hp. destruct l1; [done |]. cbn [length] in Hll1 |- *. lia. }
  apply Nat.eqb_neq in Hp0. rewrite Hp0. destruct (Nat.eqb_spec (length tail + k) 0); [lia |].
  simpl in Hp. replace (length tail + k - length pre')%nat with (length tail') by lia.
  assert (slice (length pre') (length tail') (pre' ++ tail' ++ 0 :: post) = tail') as ->.
  { unfold slice. by rewrite drop_app_length, take_app_length. }
  destruct (IH (splice 0 tail' (pre' ++ tail' ++ 0 :: post)) tail' l2 w2) as (w3 & E3 & Hs1 & Hs2); try done.
  - auto.
  - rewrite length_splice; rewrite !length_app; simpl; lia.
  - unfold splice. simpl. by rewrite take_app_length.
  - by rewrite A1.
  - rewrite A1, Ha, length_drop. lia.
  - exists w3. rewrite E3. split_and!; [done | |].
    + rewrite Hs1, A2, Hs. unfold selected. by rewrite list.filter_app, text_of_app, app_assoc.
    + intros x Hx. by rewrite Hs2, A3, Hs.
Qed.

(** [grep] of a file whose lines fit in the buffer prints those that match. *)
Lemma grep_spec fuel pat fd ls (w : W) :
  whole w → Forall line_ok ls → avail w fd = text_of ls → (length (text_of ls) < fuel)%nat →
  ∃ w', run handle (grep fuel pat fd) w = (Done tt, w') ∧
    sent w' 1 = sent w 1 ++ text_of (selected pat ls) ∧ ∀ x, x ≠ 1 → sent w' x = sent w x.
Proof.
  intros Hw Hls Ha Hf. apply (grep_loop_spec fuel pat fd _ []); try done.
  - apply not_elem_of_nil.
  - unfold GBUF. simpl. lia.
  - by rewrite Ha.
Qed.

(** A first read that ends inside a line: [grep] goes on with the rest of it. *)
Lemma grep_short_spec fuel pat fd part l ls (w w1 : W) :
  handle (Read fd (Z.of_nat GBUF - 1)) w = ((Z.of_nat (length part), part), w1) → part ≠ [] → whole w1 →
  Forall line_ok ((part ++ l) :: ls) → avail w fd = text_of ((part ++ l) :: ls) → (length (text_of ((part ++ l) :: ls)) < fuel)%nat →
  ∃ w', run handle (grep fuel pat fd) w = (Done tt, w') ∧
    sent w' 1 = sent w 1 ++ text_of (selected pat (l :: ls)) ∧ ∀ x, x ≠ 1 → sent w' x = sent w x.
Proof.
  intros Hrd Hp Hw [[L1 L2 L3] Hls]%list.Forall_cons Ha Hf. destruct fuel as [|fuel]; [lia |].
  rewrite elem_of_app in L1, L2. rewrite length_app in L3.
  assert (0 < length part)%nat as Hlp by (destruct part; [done | simpl; lia]).
  unfold grep. cbn [grep_loop]. unfold call. cbn [mbind prog_mbind prog_bind run].
  replace (Z.of_nat GBUF - Z.of_nat 0 - 1) with (Z.of_nat GBUF - 1) by lia. rewrite Hrd. cbn [fst snd].
  destruct (Z.leb_spec (Z.of_nat (length part)) 0); [lia |]. rewrite Nat2Z.id. cbv zeta.
  destruct (fill_buf (replicate GBUF 0) [] part) as (post & Efb & Hpost); [by rewrite length_replicate | done | simpl; lia |].
  change (length []) with 0%nat in Efb, Hpost. rewrite Efb. clear Efb. cbn [app].
  destruct (grep_lines_spec [] GBUF pat [] part post w1) as (pre & w2 & E2 & Hpre & [A1 A2 A3 A4]);
    [by constructor | tauto | tauto | simpl; unfold GBUF; lia |].
  destruct pre; [|done]. cbn [length app text_of mjoin fmap list_fmap] in E2. erewrite run_done by exact E2. cbv beta iota. cbn [Nat.eqb].
  destruct (read_law w fd (Z.of_nat GBUF - 1)) as (k & w1' & E1 & _ & _ & _ & Ha1 & Hs1 & _); [done |].
  rewrite Hrd in E1. injection E1 as <-%Nat2Z.inj _ <-. rewrite Ha, text_of_cons in Ha1. unfold nl in Ha1.
  rewrite <- !app_assoc, drop_app_length in Ha1.
  destruct (grep_loop_spec fuel pat fd (part ++ 0 :: post) [] (l :: ls) w2) as (w' & E' & Hs1' & Hs2'); try done.
  - auto.
  - apply list.Forall_cons. split; [constructor; [tauto | tauto | lia] | done].
  - rewrite length_app. simpl. lia.
  - rewrite A1, Ha1, text_of_cons. unfold nl. by rewrite <- app_assoc.
  - apply not_elem_of_nil.
  - unfold GBUF. simpl. lia.
  - rewrite A1, Ha1. rewrite text_of_cons in Hf. unfold nl in Hf. rewrite !length_app in Hf. rewrite !length_app. cbn [length] in Hf |- *. lia.
  - change (length []) with 0%nat in E'. exists w'. split_and!; [exact E' | |].
    + rewrite Hs1', A2, Hs1. by rewrite app_nil_r.
    + intros x Hx. by rewrite Hs2', A3, Hs1.
Qed.

End Loop.
