(* ===== verification/Progs.v ===== *)
(** * Small user programs ([cat.c], [wc.c], [echo.c], [ls.c], [init.c], ...)

    Each [main] takes the arguments after the program's name.  Loops over a
    stream take fuel, one more than the bytes the stream has. *)

From S2P Require Import Prelude Bytes FsFormat User.

(** ** [cat.c] *)

Fixpoint cat (fuel : nat) (fd : Z) : prog unit :=
  match fuel with
  | O => Stop EFuel
  | S fuel =>
    r ← call (Read fd 512);
    if 0 <? r.1 then
      k ← sys_ret (Write 1 (take (Z.to_nat r.1) r.2));
      if negb (k =? r.1) then printf 1 (chars "cat: write error" ++ [10]) [];; exit
      else cat fuel fd
    else if r.1 <? 0 then printf 1 (chars "cat: read error" ++ [10]) [];; exit
    else mret tt
  end.

Fixpoint cat_files (fuel : nat) (files : list (list Z)) : prog unit :=
  match files with
  | [] => exit
  | f :: files =>
    fd ← sys_ret (Open f 0);
    if fd <? 0 then printf 1 (chars "cat: cannot open %s" ++ [10]) [UStr (Some f)];; exit
    else cat fuel fd;; sys_ret (Close fd);; cat_files fuel files
  end.
Definition cat_main (fuel : nat) (args : list (list Z)) : prog unit :=
  match args with
  | [] => cat fuel 0;; exit
  | _ => cat_files fuel args
  end.

(** ** [wc.c] *)

Record counts : Type := Counts {
  wc_l : Z;
  wc_w : Z;
  wc_c : Z;
  wc_in : bool;
}.

Definition blanks : list Z := [32; 13; 9; 10; 11].

(** One character; the counters are [int]s. *)
Definition wc_char (st : counts) (x : Z) : counts :=
  let l := if x =? 10 then s32 (wc_l st + 1) else wc_l st in
  let c := s32 (wc_c st + 1) in
  if has_char blanks x then Counts l (wc_w st) c false
  else if wc_in st then Counts l (wc_w st) c true
  else Counts l (s32 (wc_w st + 1)) c true.

Fixpoint wc_loop (fuel : nat) (fd : Z) (st : counts) : prog counts :=
  match fuel with
  | O => Stop EFuel
  | S fuel =>
    r ← call (Read fd 512);
    if 0 <? r.1 then wc_loop fuel fd (fold_left wc_char (take (Z.to_nat r.1) r.2) st)
    else if r.1 <? 0 then printf 1 (chars "wc: read error" ++ [10]) [];; exit
    else mret st
  end.
Definition wc (fuel : nat) (fd : Z) (name : list Z) : prog unit :=
  st ← wc_loop fuel fd (Counts 0 0 0 false);
  printf 1 (chars "%d %d %d %s" ++ [10]) [UInt (wc_l st); UInt (wc_w st); UInt (wc_c st); UStr (Some name)].

Fixpoint wc_files (fuel : nat) (files : list (list Z)) : prog unit :=
  match files with
  | [] => exit
  | f :: files =>
    fd ← sys_ret (Open f 0);
    if fd <? 0 then printf 1 (chars "wc: cannot open %s" ++ [10]) [UStr (Some f)];; exit
    else wc fuel fd f;; sys_ret (Close fd);; wc_files fuel files
  end.
Definition wc_main (fuel : nat) (args : list (list Z)) : prog unit :=
  match args with
  | [] => wc fuel 0 [];; exit
  | _ => wc_files fuel args
  end.

(** ** [echo.c], [ln.c], [mkdir.c], [rm.c], [kill.c], [zombie.c] *)

Fixpoint echo_main (args : list (list Z)) : prog unit :=
  match args with
  | [] => exit
  | a :: args =>
    printf 1 (chars "%s%s") [UStr (Some a); UStr (Some (match args with [] => [10] | _ => [32] end))];;
    echo_main args
  end.

Definition ln_main (args : list (list Z)) : prog unit :=
  match args with
  | [old; new] =>
    r ← sys_ret (Link old new);
    (if r <? 0 then printf 2 (chars "link %s %s: failed" ++ [10]) [UStr (Some old); UStr (Some new)] else mret tt);;
    exit
  | _ => printf 2 (chars "Usage: ln old new" ++ [10]) [];; exit
  end.

Fixpoint mkdir_loop (args : list (list Z)) : prog unit :=
  match args with
  | [] => mret tt
  | a :: args =>
    r ← sys_ret (Mkdir a);
    if r <? 0 then printf 2 (chars "mkdir: %s failed to create" ++ [10]) [UStr (Some a)] else mkdir_loop args
  end.
Definition mkdir_main (args : list (list Z)) : prog unit :=
  match args with
  | [] => printf 2 (chars "Usage: mkdir files..." ++ [10]) [];; exit
  | _ => mkdir_loop args;; exit
  end.

Fixpoint rm_loop (args : list (list Z)) : prog unit :=
  match args with
  | [] => mret tt
  | a :: args =>
    r ← sys_ret (Unlink a);
    if r <? 0 then printf 2 (chars "rm: %s failed to delete" ++ [10]) [UStr (Some a)] else rm_loop args
  end.
Definition rm_main (args : list (list Z)) : prog unit :=
  match args with
  | [] => printf 2 (chars "Usage: rm files..." ++ [10]) [];; exit
  | _ => rm_loop args;; exit
  end.

Fixpoint kill_loop (args : list (list Z)) : prog unit :=
  match args with
  | [] => mret tt
  | a :: args => sys_ret (Kill (atoi a));; kill_loop args
  end.
Definition kill_main (args : list (list Z)) : prog unit :=
  match args with
  | [] => printf 2 (chars "usage: kill pid..." ++ [10]) [];; exit
  | _ => kill_loop args;; exit
  end.

Definition zombie_main : prog unit :=
  pid ← sys_ret Fork;
  (if 0 <? pid then sys_ret (Sleep 5);; mret tt else mret tt);;
  exit.

(** ** [init.c] *)

Definition console : list Z := chars "console".

(** Children that are not the shell are reported until the shell ends. *)
Fixpoint init_wait (fuel : nat) (pid : Z) : prog unit :=
  match fuel with
  | O => Stop EFuel
  | S fuel =>
    wpid ← sys_ret Wait;
    if (0 <=? wpid) && negb (wpid =? pid) then printf 1 (chars "zombie!" ++ [10]) [];; init_wait fuel pid
    else mret tt
  end.

(** The loop does not end; [fuel] counts the shells started. *)
Fixpoint init_loop (fuel : nat) : prog unit :=
  match fuel with
  | O => Stop EFuel
  | S fuel =>
    printf 1 (chars "init: starting sh" ++ [10]) [];;
    pid ← sys_ret Fork;
    if pid <? 0 then printf 1 (chars "init: fork failed" ++ [10]) [];; exit
    else if pid =? 0 then
      sys_ret (Exec (chars "sh") [chars "sh"]);;
      printf 1 (chars "init: exec sh failed" ++ [10]) [];; exit
    else init_wait fuel pid;; init_loop fuel
  end.
Definition init_main (fuel : nat) : prog unit :=
  fd ← sys_ret (Open console O_RDWR);
  (if fd <? 0 then sys_ret (Mknod console 1 1);; sys_ret (Open console O_RDWR);; mret tt else mret tt);;
  sys_ret (Dup 0);;
  sys_ret (Dup 0);;
  init_loop fuel.

(** ** [ls.c] *)

(** The characters after the last slash. *)
Fixpoint last_part (path acc : list Z) : list Z :=
  match path with
  | [] => acc
  | c :: path => if c =? 47 then last_part path path else last_part path acc
  end.

Definition fmtname (path : list Z) : list Z :=
  let p := last_part path path in
  if (DIRSIZ <=? length p)%nat then p else p ++ replicate (DIRSIZ - length p) 32.

(** The fields of a [struct stat] as [fstat] stores it. *)
Definition stat_type (st : list Z) : Z := if get16 st 0 <? 2 ^ 15 then get16 st 0 else get16 st 0 - 2 ^ 16.
Definition stat_ino (st : list Z) : Z := get32 st 8.
Definition stat_size (st : list Z) : Z := get32 st 16.

Definition ls_print (path st : list Z) : prog unit :=
  printf 1 (chars "%s %d %d %d" ++ [10])
    [UStr (Some (fmtname path)); UInt (stat_type st); UInt (stat_ino st); UInt (stat_size st)].

Fixpoint ls_entries (fuel : nat) (fd : Z) (path : list Z) : prog unit :=
  match fuel with
  | O => Stop EFuel
  | S fuel =>
    r ← call (Read fd (Z.of_nat dirent_size));
    if negb (r.1 =? Z.of_nat dirent_size) then mret tt else
    let de := get_dirent r.2 in
    if de_inum de =? 0 then ls_entries fuel fd path else
    let buf := path ++ [47] ++ cstr (de_name de) in
    st ← ustat buf;
    (if st.1 <? 0 then printf 1 (chars "ls: cannot stat %s" ++ [10]) [UStr (Some buf)] else ls_print buf st.2);;
    ls_entries fuel fd path
  end.

Definition ls (fuel : nat) (path : list Z) : prog unit :=
  fd ← sys_ret (Open path 0);
  if fd <? 0 then printf 2 (chars "ls: cannot open %s" ++ [10]) [UStr (Some path)] else
  st ← call (Fstat fd);
  if st.1 <? 0 then printf 2 (chars "ls: cannot stat %s" ++ [10]) [UStr (Some path)];; sys_ret (Close fd);; mret tt else
  (if stat_type st.2 =? T_FILE then ls_print path st.2
   else if stat_type st.2 =? T_DIR then
     if (512 <? length path + 1 + DIRSIZ + 1)%nat then printf 1 (chars "ls: path too long" ++ [10]) []
     else ls_entries fuel fd path
   else mret tt);;
  sys_ret (Close fd);;
  mret tt.

Fixpoint ls_args (fuel : nat) (args : list (list Z)) : prog unit :=
  match args with
  | [] => exit
  | a :: args => ls fuel a;; ls_args fuel args
  end.
Definition ls_main (fuel : nat) (args : list (list Z)) : prog unit :=
  match args with
  | [] => ls fuel (chars ".");; exit
  | _ => ls_args fuel args
  end.

(** ** What they do with a stream *)

(** The fields of a text between blanks, and the words: the nonempty ones. *)
Fixpoint fields (l : list Z) : list (list Z) :=
  match l with
  | [] => [[]]
  | x :: l =>
    if has_char blanks x then [] :: fields l
    else match fields l with
         | f :: fs => (x :: f) :: fs
         | [] => [[x]]
         end
  end.
Definition words (l : list Z) : list (list Z) := filter (λ f, f ≠ []) (fields l).
Definition newlines (l : list Z) : nat := length (filter (λ x, x = 10) l).

(** The words that start in [l], when the character before it was in one. *)
Definition starts (inword : bool) (l : list Z) : nat :=
  length (filter (λ f, f ≠ []) (if inword then tail (fields l) else fields l)).

Lemma fields_cons l : ∃ f fs, fields l = f :: fs.
Proof.
  destruct l as [|x l]; simpl; [eauto |]. destruct (has_char blanks x); [eauto |].
  destruct (fields l); eauto.
Qed.

Lemma starts_cons b x l :
  starts b (x :: l) = if has_char blanks x then starts false l else ((if b then 0 else 1) + starts true l)%nat.
Proof.
  unfold starts. simpl. destruct (has_char blanks x).
  - destruct b; [done |]. rewrite filter_cons. by case_decide.
  - destruct (fields_cons l) as (f & fs & ->). destruct b; [done |]. rewrite filter_cons.
    by case_decide.
Qed.

Lemma s32_id x : - 2 ^ 31 ≤ x < 2 ^ 31 → s32 x = x.
Proof. unfold s32, u32. intros Hx. destruct (Z.ltb_spec (x mod 2 ^ 32) (2 ^ 31)); zdiv. Qed.

(** The counters after a text, from any state that does not overflow. *)
Lemma wc_fold l st :
  0 ≤ wc_l st ∧ wc_l st + Z.of_nat (length l) < 2 ^ 31 →
  0 ≤ wc_w st ∧ wc_w st + Z.of_nat (length l) < 2 ^ 31 →
  0 ≤ wc_c st ∧ wc_c st + Z.of_nat (length l) < 2 ^ 31 →
  ∃ b, fold_left wc_char l st =
    Counts (wc_l st + Z.of_nat (newlines l)) (wc_w st + Z.of_nat (starts (wc_in st) l)) (wc_c st + Z.of_nat (length l)) b.
Proof.
  revert st. induction l as [|x l IH]; intros [cl cw cc ci] Hl Hw Hc; simpl in Hl, Hw, Hc.
  { exists ci. unfold starts, newlines. simpl. destruct ci; simpl; by rewrite !Z.add_0_r. }
  cbn [fold_left]. rewrite starts_cons. unfold newlines. rewrite filter_cons. fold (newlines l).
  assert (∀ st', wc_l st' = (if x =? 10 then cl + 1 else cl) → wc_c st' = cc + 1 → cw ≤ wc_w st' ≤ cw + 1 →
    ∃ b, fold_left wc_char l st' = Counts
      (cl + Z.of_nat (length (if decide (x = 10) then x :: filter (λ y, y = 10) l else filter (λ y, y = 10) l)))
      (wc_w st' + Z.of_nat (starts (wc_in st') l)) (cc + Z.of_nat (length (x :: l))) b) as Hgo.
  { intros st' E1 E2 E3. destruct (IH st') as [b ->].
    - rewrite E1. destruct (x =? 10); lia.
    - lia.
    - lia.
    - exists b. rewrite E1, E2. unfold newlines. simpl. destruct (Z.eqb_spec x 10); case_decide; try done; simpl; f_equal; lia. }
  unfold wc_char at 2. simpl wc_l. simpl wc_w. simpl wc_c. simpl wc_in. rewrite !s32_id by lia.
  destruct (has_char blanks x); [|destruct ci].
  - by destruct (Hgo (Counts (if x =? 10 then cl + 1 else cl) cw (cc + 1) false)) as [b ->]; [done | done | simpl; lia | exists b].
  - by destruct (Hgo (Counts (if x =? 10 then cl + 1 else cl) cw (cc + 1) true)) as [b ->]; [done | done | simpl; lia | exists b].
  - destruct (Hgo (Counts (if x =? 10 then cl + 1 else cl) (cw + 1) (cc + 1) true)) as [b ->]; [done | done | simpl; lia |].
    exists b. simpl. f_equal. lia.
Qed.

Section Streams.
Context {W : Type} `{Streams W}.

(** [cat] copies the stream, in whatever pieces it arrives. *)
Lemma cat_spec fuel fd (w : W) :
  (length (avail w fd) < fuel)%nat →
  ∃ w', run handle (cat fuel fd) w = (Done tt, w') ∧ avail w' fd = [] ∧
    sent w' 1 = sent w 1 ++ avail w fd ∧ ∀ x, x ≠ 1 → sent w' x = sent w x.
Proof.
  revert w. induction fuel as [|fuel IH]; intros w Hf; [lia |].
  destruct (read_law w fd 512) as (k & w1 & E1 & Hk & _ & Hk0 & Ha & Hs & _); [lia |].
  cbn [cat]. unfold call. cbn [mbind prog_mbind prog_bind run]. rewrite E1. cbn [fst snd].
  destruct (Z.ltb_spec 0 (Z.of_nat k)) as [Hpos|Hz].
  - destruct (run_write 1 (take (Z.to_nat (Z.of_nat k)) (take k (avail w fd))) w1) as (w2 & E2 & [B1 B2 B3 B4]).
    rewrite Nat2Z.id, take_take, Nat.min_id in *.
    change (prog_bind ?f (sys_ret ?c)) with (sys_ret c ≫= f). erewrite run_done by exact E2.
    rewrite length_take, Nat.min_l, Z.eqb_refl by lia. cbn [negb].
    destruct (IH w2) as (w3 & E3 & H1 & H2 & H3); [rewrite B1, Ha, length_drop; lia |].
    exists w3. rewrite E3. split_and!; [done | done | |].
    + rewrite H2, B2, B1, Ha, Hs, <- app_assoc, take_drop. done.
    + intros x Hx. by rewrite H3, B3, Hs.
  - destruct (Z.ltb_spec (Z.of_nat k) 0); [lia |].
    rewrite (Hk0 ltac:(lia)) in *. exists w1. split_and!; [done | by rewrite Ha, drop_nil | by rewrite Hs, app_nil_r | by rewrite Hs].
Qed.

(** The counters of [wc] do not depend on the pieces either. *)
Lemma wc_loop_spec fuel fd st (w : W) :
  (length (avail w fd) < fuel)%nat →
  ∃ w', run handle (wc_loop fuel fd st) w = (Done (fold_left wc_char (avail w fd) st), w') ∧ sent w' = sent w.
Proof.
  revert st w. induction fuel as [|fuel IH]; intros st w Hf; [lia |].
  destruct (read_law w fd 512) as (k & w1 & E1 & Hk & _ & Hk0 & Ha & Hs & _); [lia |].
  cbn [wc_loop]. unfold call. cbn [mbind prog_mbind prog_bind run]. rewrite E1. cbn [fst snd].
  destruct (Z.ltb_spec 0 (Z.of_nat k)) as [Hpos|Hz].
  - rewrite Nat2Z.id, take_take, Nat.min_id.
    destruct (IH (fold_left wc_char (take k (avail w fd)) st) w1) as (w2 & E2 & H2); [rewrite Ha, length_drop; lia |].
    exists w2. rewrite E2, Ha, <- fold_left_app, take_drop. split; [done | by rewrite H2].
  - destruct (Z.ltb_spec (Z.of_nat k) 0); [lia |]. rewrite (Hk0 ltac:(lia)). by exists w1.
Qed.
End Streams.
