(* ===== verification/Stress.v ===== *)
(** * Programs that exercise the kernel ([forktest.c], [stressfs.c])

    [forktest] forks until the kernel refuses; [forktest_passes] says that it
    reports success on any kernel with room for some processes, fewer than
    1000, which a [wait] takes back one by one. *)

From S2P Require Import Prelude Bytes User UPrintf.

(** ** [forktest.c] *)

Definition FORKN : nat := 1000.

(** Its own [printf]: no formats. *)
Definition fputs (fd : Z) (s : list Z) : prog unit := sys_ret (Write fd s);; mret tt.

(** The number of children; [n] are there already, and [k] more are tried. *)
Fixpoint fork_loop (k n : nat) : prog nat :=
  match k with
  | O => mret n
  | S k =>
    pid ← sys_ret Fork;
    if pid <? 0 then mret n
    else if pid =? 0 then exit
    else fork_loop k (S n)
  end.

Fixpoint wait_loop (n : nat) : prog unit :=
  match n with
  | O => mret tt
  | S n =>
    r ← sys_ret Wait;
    if r <? 0 then fputs 1 (chars "wait stopped early" ++ [10]);; exit else wait_loop n
  end.

Definition forktest : prog unit :=
  fputs 1 (chars "fork test" ++ [10]);;
  n ← fork_loop FORKN 0;
  (if (n =? FORKN)%nat then fputs 1 (chars "fork claimed to work N times!" ++ [10]);; exit else mret tt);;
  wait_loop n;;
  r ← sys_ret Wait;
  (if negb (r =? -1) then fputs 1 (chars "wait got too many" ++ [10]);; exit else mret tt);;
  fputs 1 (chars "fork test OK" ++ [10]).

Definition forktest_main : prog unit := forktest;; exit.

(** ** [stressfs.c] *)

(** [i] when the loop ends: a parent leaves it. *)
Fixpoint stress_forks (k : nat) (i : Z) : prog Z :=
  match k with
  | O => mret i
  | S k => r ← sys_ret Fork; if 0 <? r then mret i else stress_forks k (i + 1)
  end.

Fixpoint stress_writes (k : nat) (fd : Z) (data : list Z) : prog unit :=
  match k with
  | O => mret tt
  | S k => sys_ret (Write fd data);; stress_writes k fd data
  end.

Fixpoint stress_reads (k : nat) (fd : Z) : prog unit :=
  match k with
  | O => mret tt
  | S k => call (Read fd 512);; stress_reads k fd
  end.

Definition stressfs_main : prog unit :=
  printf 1 (chars "stressfs starting" ++ [10]) [];;
  let data := replicate 512 97 in
  i ← stress_forks 4 0;
  printf 1 (chars "write %d" ++ [10]) [UInt i];;
  let path := chars "stressfs" ++ [48 + i] in
  fd ← sys_ret (Open path (Z.lor O_CREATE O_RDWR));
  stress_writes 20 fd data;;
  sys_ret (Close fd);;
  printf 1 (chars "read" ++ [10]) [];;
  fd ← sys_ret (Open path O_RDONLY);
  stress_reads 20 fd;;
  sys_ret (Close fd);;
  sys_ret Wait;;
  exit.

(** ** A kernel with room for some processes *)

(** Free slots, children, and what was written. *)
Record slots : Type := Slots { sl_free : nat; sl_children : nat; sl_out : list Z }.

Definition slots_handle (c : sys) (w : slots) : answer * slots :=
  let '(Slots f n out) := w in
  match c with
  | Fork => match f with O => ((-1, []), w) | S f => ((Z.of_nat (S n), []), Slots f (S n) out) end
  | Wait => match n with O => ((-1, []), w) | S n => ((Z.of_nat (S n), []), Slots (S f) n out) end
  | Write _ bs => ((Z.of_nat (length bs), []), Slots f n (out ++ bs))
  | _ => ((-1, []), w)
  end.

Lemma fork_loop_run k n f m out :
  (f < k)%nat → run slots_handle (fork_loop k n) (Slots f m out) = (Done (f + n)%nat, Slots 0 (f + m) out).
Proof.
  revert n f m. induction k as [|k IH]; intros n f m Hf; [lia |].
  destruct f as [|f]; [done |]. cbn [fork_loop]. unfold sys_ret.
  change (run slots_handle (fork_loop k (S n)) (Slots f (S m) out) = (Done (S f + n)%nat, Slots 0 (S f + m) out)).
  rewrite IH by lia. by rewrite !Nat.add_succ_r.
Qed.

Lemma wait_loop_run n f out :
  run slots_handle (wait_loop n) (Slots f n out) = (Done tt, Slots (f + n) 0 out).
Proof.
  revert f. induction n as [|n IH]; intros f; [by rewrite Nat.add_0_r |]. cbn [wait_loop].
  change (run slots_handle (wait_loop n) (Slots (S f) n out) = (Done tt, Slots (f + S n) 0 out)).
  rewrite IH. by rewrite Nat.add_succ_r.
Qed.

Theorem forktest_passes f out :
  (f < 1000)%nat →
  run slots_handle forktest_main (Slots f 0 out) =
  (Exited, Slots f 0 (out ++ chars "fork test" ++ [10] ++ chars "fork test OK" ++ [10])).
Proof.
  intros Hf. unfold forktest_main, forktest. rewrite !run_bind.
  assert (∀ w s, run slots_handle (fputs 1 s) w = (Done tt, Slots (sl_free w) (sl_children w) (sl_out w ++ s))) as Hp by (by intros []).
  rewrite Hp. cbn [sl_free sl_children sl_out]. rewrite run_bind, fork_loop_run by done.
  rewrite !run_bind, (proj2 (Nat.eqb_neq _ _)) by (unfold FORKN; lia). rewrite !Nat.add_0_r.
  cbn [run mret prog_mret]. rewrite run_bind, wait_loop_run. rewrite run_bind.
  change (run slots_handle (sys_ret Wait) (Slots (0 + f) 0 (out ++ chars "fork test" ++ [10]))) with (@Done Z (-1), Slots f 0 (out ++ chars "fork test" ++ [10])).
  cbv iota beta. rewrite run_bind. change (negb (-1 =? -1)) with false. cbv iota. cbn [run mret prog_mret]. rewrite Hp. cbn [sl_free sl_children sl_out].
  cbn [run exit]. by rewrite <-!app_assoc.
Qed.
