(* ===== verification/Sh.v ===== *)
(** * The shell ([sh.c])

    The parser works on the line and a position in it (the pointer [*ps] is
    the state of the monad), and a parsed command holds the start and the end
    of each word as positions, until [nulterminate] writes a 0 at the ends.
    [runcmd] is a program of system calls on the command with its words read
    as strings.  Memory for commands is taken as available: the code does not
    check what [malloc] returns. *)

From S2P Require Import Prelude Bytes User.

(** ** Commands *)

Definition MAXARGS : nat := 10.

(** A word of the line: its first position and the one after its last. *)
Definition word : Type := nat * nat.

(** [W] is how a command holds a word: [word], or the string itself. *)
Inductive cmd (W : Type) : Type :=
| EXEC (argv : list W)
| REDIR (c : cmd W) (file : W) (mode fd : Z)
| PIPE (l r : cmd W)
| LIST (l r : cmd W)
| BACK (c : cmd W).
Arguments EXEC {W} _.
Arguments REDIR {W} _ _ _ _.
Arguments PIPE {W} _ _.
Arguments LIST {W} _ _.
Arguments BACK {W} _.

(** ** Tokens *)

Definition whitespace : list Z := [32; 9; 13; 10; 11].
Definition symbols : list Z := [60; 124; 62; 38; 59; 40; 41].

(** The number of characters at the start of [l] that satisfy [f]. *)
Fixpoint span_len (f : Z → bool) (l : list Z) : nat :=
  match l with
  | [] => O
  | c :: l => if f c then S (span_len f l) else O
  end.

Definition is_ws (c : Z) : bool := has_char whitespace c.
Definition word_char (c : Z) : bool := negb (has_char whitespace c) && negb (has_char symbols c).

(** [cmd->argv[argc] = q] through the pointer to the [EXEC] at the bottom of
    [ret]. *)
Fixpoint push_arg {W} (w : W) (ret : cmd W) : cmd W :=
  match ret with
  | EXEC argv => EXEC (argv ++ [w])
  | REDIR c f m fd => REDIR (push_arg w c) f m fd
  | c => c
  end.

Section Parser.
(** The line, without its terminating 0; [es] is its length. *)
Context (line : list Z).

Definition char_at (s : nat) : Z := default 0 (line !! s).
Definition skip_ws (s : nat) : nat := (s + span_len is_ws (drop s line))%nat.

(** The token at the position: its code, where it starts and ends. *)
Definition gettoken : M nat (Z * word) := λ s,
  let q := skip_ws s in
  let c := char_at q in
  let '(ret, eq) :=
    if c =? 0 then (0, q)
    else if has_char [124; 40; 41; 59; 38; 60] c then (c, S q)
    else if c =? 62 then if char_at (S q) =? 62 then (43, S (S q)) else (62, S q)
    else (97, (q + span_len word_char (drop q line))%nat) in
  Ok ((ret, (q, eq)), skip_ws eq).

Definition peek (toks : list Z) : M nat bool := λ s,
  let s := skip_ws s in
  Ok (nz (char_at s) && has_char toks (char_at s), s).

(** ** The grammar *)

Definition redir_of (tok : Z) (c : cmd word) (f : word) : cmd word :=
  if tok =? 60 then REDIR c f O_RDONLY 0
  else if tok =? 62 then REDIR c f (Z.lor O_WRONLY O_CREATE) 1
  else if tok =? 43 then REDIR c f (Z.lor O_WRONLY O_CREATE) 1
  else c.

Fixpoint parseredirs (fuel : nat) (c : cmd word) : M nat (cmd word) :=
  match fuel with
  | O => raise EFuel
  | S fuel =>
    p ← peek [60; 62];
    if p : bool then
      t ← gettoken;
      f ← gettoken;
      if negb (f.1 =? 97) then panic "missing file for redirection"
      else parseredirs fuel (redir_of t.1 c f.2)
    else mret c
  end.

(** The loop of [parseexec]. *)
Fixpoint parseargs (fuel : nat) (argc : nat) (ret : cmd word) : M nat (cmd word) :=
  match fuel with
  | O => raise EFuel
  | S fuel =>
    p ← peek [124; 41; 38; 59];
    if p : bool then mret ret else
    t ← gettoken;
    if t.1 =? 0 then mret ret else
    if negb (t.1 =? 97) then panic "syntax" else
    let ret := push_arg t.2 ret in
    if (MAXARGS <=? S argc)%nat then panic "too many args" else
    ret ← parseredirs (S (length line)) ret;
    parseargs fuel (S argc) ret
  end.

(** [while(peek(ps, es, "&"))] of [parseline]. *)
Fixpoint parseback (fuel : nat) (c : cmd word) : M nat (cmd word) :=
  match fuel with
  | O => raise EFuel
  | S fuel =>
    p ← peek [38];
    if p : bool then gettoken;; parseback fuel (BACK c) else mret c
  end.

Fixpoint parseline (fuel : nat) : M nat (cmd word) :=
  match fuel with
  | O => raise EFuel
  | S fuel =>
    c ← parsepipe fuel;
    c ← parseback (S (length line)) c;
    p ← peek [59];
    if p : bool then
      gettoken;;
      r ← parseline fuel;
      mret (LIST c r)
    else mret c
  end
with parsepipe (fuel : nat) : M nat (cmd word) :=
  match fuel with
  | O => raise EFuel
  | S fuel =>
    c ← parseexec fuel;
    p ← peek [124];
    if p : bool then
      gettoken;;
      r ← parsepipe fuel;
      mret (PIPE c r)
    else mret c
  end
with parseblock (fuel : nat) : M nat (cmd word) :=
  match fuel with
  | O => raise EFuel
  | S fuel =>
    p ← peek [40];
    if negb p then panic "parseblock" else
    gettoken;;
    c ← parseline fuel;
    p ← peek [41];
    if negb p then panic "syntax - missing )" else
    gettoken;;
    parseredirs (S (length line)) c
  end
with parseexec (fuel : nat) : M nat (cmd word) :=
  match fuel with
  | O => raise EFuel
  | S fuel =>
    p ← peek [40];
    if p : bool then parseblock fuel else
    ret ← parseredirs (S (length line)) (EXEC []);
    parseargs (S (length line)) 0 ret
  end.

(** Levels of calls between two characters consumed: four. *)
Definition parse_fuel : nat := 4 * length line + 4.

(** [parseline] of the whole line, and where it stopped. *)
Definition parse_all : res (cmd word * nat) :=
  (c ← parseline parse_fuel; peek [];; mret c) O.

End Parser.

(** A 0 at the end of each word. *)
Fixpoint nulterminate (c : cmd word) (buf : list Z) : list Z :=
  match c with
  | EXEC argv => foldl (λ b w, <[w.2 := 0]> b) buf argv
  | REDIR c f _ _ => <[f.2 := 0]> (nulterminate c buf)
  | PIPE l r => nulterminate r (nulterminate l buf)
  | LIST l r => nulterminate r (nulterminate l buf)
  | BACK c => nulterminate c buf
  end.

Fixpoint map_cmd {V W} (f : V → W) (c : cmd V) : cmd W :=
  match c with
  | EXEC argv => EXEC (f <$> argv)
  | REDIR c w m fd => REDIR (map_cmd f c) (f w) m fd
  | PIPE l r => PIPE (map_cmd f l) (map_cmd f r)
  | LIST l r => LIST (map_cmd f l) (map_cmd f r)
  | BACK c => BACK (map_cmd f c)
  end.

(** The command as [runcmd] reads it: each word is the string its pointer
    points to. *)
Definition strings (buf : list Z) (c : cmd word) : cmd (list Z) := map_cmd (λ w, cstr (drop w.1 buf)) c.

(** ** Running commands *)

Definition sh_panic {A} (s : list Z) : prog A := printf 2 (chars "%s" ++ [10]) [UStr (Some s)];; exit.

(** [parsecmd] of the string at the start of [buf]: the tree and the buffer
    with the words terminated. *)
Definition parsecmd (buf : list Z) : prog (cmd word * list Z) :=
  let line := cstr buf in
  match parse_all line with
  | Ok (c, s) =>
    if negb (Nat.eqb s (length line)) then
      printf 2 (chars "leftovers: %s" ++ [10]) [UStr (Some (drop s line))];;
      sh_panic (chars "syntax")
    else mret (c, nulterminate c buf)
  | Err (EPanic msg) => sh_panic (chars msg)
  | Err e => Stop e
  end.

Definition fork1 : prog Z :=
  pid ← sys_ret Fork;
  if pid =? -1 then sh_panic (chars "fork") else mret pid.

Fixpoint runcmd (c : cmd (list Z)) : prog unit :=
  match c with
  | EXEC [] => exit
  | EXEC ((a :: _) as argv) =>
    sys_ret (Exec a argv);;
    printf 2 (chars "exec %s failed" ++ [10]) [UStr (Some a)];;
    exit
  | REDIR c file mode fd =>
    sys_ret (Close fd);;
    r ← sys_ret (Open file mode);
    if r <? 0 then printf 2 (chars "open %s failed" ++ [10]) [UStr (Some file)];; exit
    else runcmd c;; exit
  | LIST l r =>
    pid ← fork1;
    (if pid =? 0 then runcmd l else mret tt);;
    sys_ret Wait;;
    runcmd r;;
    exit
  | PIPE l r =>
    p ← call Pipe;
    if p.1 <? 0 then sh_panic (chars "pipe") else
    let p0 := default 0 (p.2 !! 0%nat) in
    let p1 := default 0 (p.2 !! 1%nat) in
    pid ← fork1;
    (if pid =? 0 then
       sys_ret (Close 1);; sys_ret (Dup p1);; sys_ret (Close p0);; sys_ret (Close p1);; runcmd l
     else mret tt);;
    pid ← fork1;
    (if pid =? 0 then
       sys_ret (Close 0);; sys_ret (Dup p0);; sys_ret (Close p0);; sys_ret (Close p1);; runcmd r
     else mret tt);;
    sys_ret (Close p0);;
    sys_ret (Close p1);;
    sys_ret Wait;;
    sys_ret Wait;;
    exit
  | BACK c =>
    pid ← fork1;
    (if pid =? 0 then runcmd c else mret tt);;
    exit
  end.

(** ** The loop over input lines *)

Definition SHBUF : nat := 100.

(** The line read, in a buffer cleared first; [None] at the end of input. *)
Definition getcmd : prog (option (list Z)) :=
  printf 2 (chars "$ ") [];;
  l ← ugets (Z.of_nat SHBUF);
  let buf := l ++ replicate (SHBUF - length l) 0 in
  mret (if default 0 (head buf) =? 0 then None else Some buf).

Fixpoint sh_loop (fuel : nat) : prog unit :=
  match fuel with
  | O => Stop EFuel
  | S fuel =>
    b ← getcmd;
    match b with
    | None => exit
    | Some buf =>
      if (char_at buf 0 =? 99) && (char_at buf 1 =? 100) && (char_at buf 2 =? 32) then
        let buf := <[(length (cstr buf) - 1)%nat := 0]> buf in
        let dir := cstr (drop 3 buf) in
        r ← sys_ret (Chdir dir);
        (if r <? 0 then printf 2 (chars "cannot cd %s" ++ [10]) [UStr (Some dir)] else mret tt);;
        sh_loop fuel
      else
        pid ← fork1;
        (if pid =? 0 then r ← parsecmd buf; runcmd (strings r.2 r.1) else mret tt);;
        sys_ret Wait;;
        sh_loop fuel
    end
  end.

(** Descriptors 0, 1 and 2 are opened before the loop. *)
Fixpoint open_console (fuel : nat) : prog unit :=
  match fuel with
  | O => Stop EFuel
  | S fuel =>
    fd ← sys_ret (Open (chars "console") O_RDWR);
    if 0 <=? fd then if 3 <=? fd then sys_ret (Close fd);; mret tt else open_console fuel
    else mret tt
  end.
Definition sh_main (fuel : nat) : prog unit := open_console fuel;; sh_loop fuel.
