(* ===== verification/ShSpec.v ===== *)
(** * The shell's grammar ([sh.c])

    Tokens of a line and a grammar on them; the parser of [Sh] accepts the
    lines the grammar derives, with the command it derives, and always ends. *)

From S2P Require Import Prelude Bytes User Sh.

(** ** Tokens *)

(** A symbol ([43] stands for [>>]) or a word. *)
Inductive tok (W : Type) : Type :=
| TSym (c : Z)
| TWord (w : W).
Arguments TSym {W} _.
Arguments TWord {W} _.

Definition single : list Z := [124; 40; 41; 59; 38; 60].

(** Where a token ends that starts at [q]. *)
Inductive token_at (line : list Z) (q : nat) : tok word → nat → Prop :=
| ta_single c : line !! q = Some c → c ∈ single → token_at line q (TSym c) (S q)
| ta_gt : line !! q = Some 62 → line !! S q ≠ Some 62 → token_at line q (TSym 62) (S q)
| ta_app : line !! q = Some 62 → line !! S q = Some 62 → token_at line q (TSym 43) (S (S q))
| ta_word n : (0 < n)%nat → length (slice q n line) = n → Forall (λ c, word_char c = true) (slice q n line) →
    (∀ c, line !! (q + n)%nat = Some c → word_char c = false) → token_at line q (TWord (q, (q + n)%nat)) (q + n).

(** The tokens of a line from a position on, with blanks between them. *)
Inductive lexes (line : list Z) : nat → list (tok word) → Prop :=
| lex_end s : skip_ws line s = length line → lexes line s []
| lex_tok s t e ts : token_at line (skip_ws line s) t e → lexes line e ts → lexes line s (t :: ts).

(** ** The grammar *)

Section Grammar.
Context {W : Type}.

Definition redir_cmd (k : Z) (c : cmd W) (f : W) : cmd W :=
  if k =? 60 then REDIR c f O_RDONLY 0 else REDIR c f (Z.lor O_WRONLY O_CREATE) 1.

(** Redirections wrapped around a command, the first one innermost. *)
Inductive g_redirs : list (tok W) → cmd W → cmd W → Prop :=
| gr_nil c : g_redirs [] c c
| gr_cons k f ts c d : k ∈ [60; 62; 43] → g_redirs ts (redir_cmd k c f) d →
    g_redirs (TSym k :: TWord f :: ts) c d.

(** Arguments, fewer than [MAXARGS] in all, with redirections after each. *)
Inductive g_args : nat → list (tok W) → cmd W → cmd W → Prop :=
| ga_nil n c : g_args n [] c c
| ga_cons n w t1 t2 c c' d : (S n < MAXARGS)%nat → g_redirs t1 (push_arg w c) c' → g_args (S n) t2 c' d →
    g_args n (TWord w :: t1 ++ t2) c d.

Definition amps (n : nat) : list (tok W) := replicate n (TSym 38).
Definition backs (n : nat) (c : cmd W) : cmd W := Nat.iter n BACK c.

Inductive g_line : list (tok W) → cmd W → Prop :=
| gl_one t n c : g_pipe t c → g_line (t ++ amps n) (backs n c)
| gl_list t n t2 c r : g_pipe t c → g_line t2 r → g_line (t ++ amps n ++ TSym 59 :: t2) (LIST (backs n c) r)
with g_pipe : list (tok W) → cmd W → Prop :=
| gp_one t c : g_exec t c → g_pipe t c
| gp_pipe t1 t2 c r : g_exec t1 c → g_pipe t2 r → g_pipe (t1 ++ TSym 124 :: t2) (PIPE c r)
with g_exec : list (tok W) → cmd W → Prop :=
| ge_block t1 t2 c d : g_line t1 c → g_redirs t2 c d → g_exec (TSym 40 :: t1 ++ TSym 41 :: t2) d
| ge_cmd t0 t1 c d : g_redirs t0 (EXEC []) c → g_args 0 t1 c d → g_exec (t0 ++ t1) d.
End Grammar.

Scheme g_line_mut := Minimality for g_line Sort Prop
with g_pipe_mut := Minimality for g_pipe Sort Prop
with g_exec_mut := Minimality for g_exec Sort Prop.
Combined Scheme grammar_mut from g_line_mut, g_pipe_mut, g_exec_mut.

(** ** Reading tokens *)

Lemma has_char_spec l c : has_char l c = true ↔ c ∈ l.
Proof.
  unfold has_char. rewrite bool_decide_eq_true. induction l as [|x l IH]; simpl.
  - split; [by intros [] | by intros ?%not_elem_of_nil].
  - rewrite elem_of_cons. destruct (Z.eqb_spec x c) as [->|Hne]; [naive_solver |].
    rewrite fmap_is_Some, IH. naive_solver.
Qed.

Lemma has_char_false l c : has_char l c = false ↔ c ∉ l.
Proof. rewrite <- has_char_spec. by destruct (has_char l c). Qed.

(** First character of the first token. *)
Definition first_char {W} (ts : list (tok W)) : option Z :=
  match ts with
  | TSym c :: _ => Some (if c =? 43 then 62 else c)
  | _ => None
  end.
Definition first_in {W} (toks : list Z) (ts : list (tok W)) : bool :=
  match first_char ts with
  | Some c => has_char toks c
  | None => false
  end.

Definition tok_code {W} (t : tok W) : Z := match t with TSym c => c | TWord _ => 97 end.

Section Lex.
Context (line : list Z) (Hline : 0 ∉ line).

Lemma span_len_le f (l : list Z) : (span_len f l ≤ length l)%nat.
Proof. induction l as [|c l IH]; simpl; [lia |]. destruct (f c); lia. Qed.

Lemma span_len_stop f (l : list Z) c : l !! span_len f l = Some c → f c = false.
Proof.
  induction l as [|x l IH]; simpl; [done |]. destruct (f x) eqn:E; simpl; [done |]. by intros [= ->].
Qed.

Lemma skip_ws_bound s : (s ≤ length line)%nat → (s ≤ skip_ws line s ≤ length line)%nat.
Proof. unfold skip_ws. pose proof (span_len_le is_ws (drop s line)) as H. rewrite length_drop in H. lia. Qed.

Lemma skip_ws_stop s c : line !! skip_ws line s = Some c → is_ws c = false.
Proof. unfold skip_ws. rewrite <- lookup_drop. apply span_len_stop. Qed.

Lemma skip_ws_id s : (∀ c, line !! s = Some c → is_ws c = false) → skip_ws line s = s.
Proof.
  intros Hs. unfold skip_ws. destruct (drop s line) as [|c l] eqn:E; simpl; [lia |].
  rewrite Hs; [lia |]. rewrite <- (Nat.add_0_r s), <- lookup_drop, E. done.
Qed.

Lemma skip_ws_skip s : skip_ws line (skip_ws line s) = skip_ws line s.
Proof. apply skip_ws_id. apply skip_ws_stop. Qed.

Lemma lexes_skip s ts : lexes line s ts → lexes line (skip_ws line s) ts.
Proof.
  inversion 1 as [? E | ? t e ? Ht Hl]; subst.
  - constructor. by rewrite skip_ws_skip.
  - econstructor; [rewrite skip_ws_skip; exact Ht | done].
Qed.

Lemma char_at_some s c : line !! s = Some c → char_at line s = c ∧ c ≠ 0.
Proof.
  intros E. unfold char_at. rewrite E. split; [done |]. intros ->. apply Hline. by eapply list_elem_of_lookup_2.
Qed.

Lemma token_at_first q t e :
  token_at line q t e → ∃ c, line !! q = Some c ∧
    match t with
    | TSym k => c = (if k =? 43 then 62 else k) ∧ c ∈ symbols
    | TWord _ => word_char c = true
    end.
Proof.
  destruct 1 as [c E Hc | E Hn | E E2 | n Hn Hl Hw Hend].
  - exists c. split; [done |]. split.
    + destruct (Z.eqb_spec c 43) as [->|]; [|done]. by apply has_char_spec in Hc.
    + unfold single, symbols in *. set_solver.
  - exists 62. split; [done |]. split; [done |]. by apply has_char_spec.
  - exists 62. split; [done |]. split; [done |]. by apply has_char_spec.
  - unfold slice in *. destruct n as [|n]; [lia |].
    destruct (drop q line) as [|c l] eqn:E; [done |]. exists c. split.
    + rewrite <- (Nat.add_0_r q), <- lookup_drop, E. done.
    + simpl in Hw. by apply list.Forall_cons in Hw as [Hw _].
Qed.

Lemma word_char_symbol c : word_char c = true → (c ∉ symbols) ∧ is_ws c = false.
Proof.
  unfold word_char, is_ws. rewrite andb_true_iff, !negb_true_iff. intros [H1 H2]. by apply has_char_false in H2.
Qed.

(** [peek] does not move past a token and tells its first character. *)
Lemma peek_lexes toks s ts :
  lexes line s ts → toks ⊆ symbols →
  ∃ s', peek line toks s = Ok (first_in toks ts, s') ∧ lexes line s' ts ∧ s' = skip_ws line s.
Proof.
  intros Hl Ht. exists (skip_ws line s). split_and!; [|by apply lexes_skip | done]. unfold peek. do 2 f_equal.
  inversion Hl as [? E | ? t e ? Hta Hl']; subst.
  - rewrite E. unfold char_at. by rewrite lookup_ge_None_2.
  - destruct (token_at_first _ _ _ Hta) as (c & Ec & Hc). destruct (char_at_some _ _ Ec) as [-> Hc0].
    assert (nz c = true) as -> by (by apply nz_true). unfold first_in. destruct t as [k | w]; simpl.
    + destruct Hc as [-> _]. done.
    + apply word_char_symbol in Hc as [Hc _]. apply has_char_false. set_solver.
Qed.

Lemma span_len_slice f q n :
  length (slice q n line) = n → Forall (λ c, f c = true) (slice q n line) →
  (∀ c, line !! (q + n)%nat = Some c → f c = false) → span_len f (drop q line) = n.
Proof.
  unfold slice. intros Hl Hf He. assert (∀ c, drop q line !! n = Some c → f c = false) as He'.
  { intros c. rewrite lookup_drop. apply He. }
  clear He. revert n Hl Hf He'. generalize (drop q line). induction l as [|x l IH]; intros n Hl Hf He; simpl in *.
  { rewrite take_nil in Hl. done. }
  destruct n as [|n]; simpl in *; [by rewrite He |].
  apply list.Forall_cons in Hf as [-> Hf]. f_equal. apply IH; [lia | done | done].
Qed.

(** [gettoken] returns the first token. *)
Lemma gettoken_lexes s t ts :
  lexes line s (t :: ts) →
  ∃ w s', gettoken line s = Ok ((tok_code t, w), s') ∧ lexes line s' ts ∧ ∀ v, t = TWord v → w = v.
Proof.
  inversion 1 as [|? ? e ? Hta Hl]; subst. unfold gettoken.
  destruct (token_at_first _ _ _ Hta) as (c & Ec & Hc). destruct (char_at_some _ _ Ec) as [Eca Hc0].
  rewrite Eca. apply Z.eqb_neq in Hc0. rewrite Hc0. clear Eca Hc0.
  destruct Hta as [c' E Hc' | E Hn | E E2 | n Hn Hlen Hw Hend]; simplify_eq.
  - apply has_char_spec in Hc' as H1. unfold single in H1. rewrite H1. eexists _, _. split_and!; [done | by apply lexes_skip | done].
  - unfold char_at. change (has_char [124; 40; 41; 59; 38; 60] 62) with false. cbn [Z.eqb].
    destruct (line !! S (skip_ws line s)) as [x|]; simpl.
    + destruct (Z.eqb_spec x 62); [congruence |]. eexists _, _. split_and!; [done | by apply lexes_skip | done].
    + eexists _, _. split_and!; [done | by apply lexes_skip | done].
  - unfold char_at. change (has_char [124; 40; 41; 59; 38; 60] 62) with false. rewrite E2. simpl.
    eexists _, _. split_and!; [done | by apply lexes_skip | done].
  - apply word_char_symbol in Hc as [Hc _].
    assert (c ∉ [124; 40; 41; 59; 38; 60]) as H1 by (unfold symbols in Hc; set_solver).
    apply has_char_false in H1. rewrite H1. destruct (Z.eqb_spec c 62) as [->|]; [by unfold symbols in Hc; set_solver |].
    rewrite (span_len_slice word_char (skip_ws line s) n) by done.
    eexists _, _. split_and!; [done | by apply lexes_skip |]. by intros v [= <-].
Qed.

Lemma gettoken_end s : lexes line s [] → ∃ w s', gettoken line s = Ok ((0, w), s') ∧ lexes line s' [].
Proof.
  inversion 1 as [? E|]; subst. unfold gettoken, char_at. rewrite E, lookup_ge_None_2 by lia. simpl.
  eexists _, _. split; [done |]. rewrite <- E. apply lexes_skip. by apply lexes_skip.
Qed.

(** A token has at least one character. *)
Lemma token_at_end q t e : token_at line q t e → (q < e ≤ length line)%nat.
Proof.
  intros Ht. destruct (token_at_first _ _ _ Ht) as (c & Ec & _). apply lookup_lt_Some in Ec.
  destruct Ht as [c' E Hc' | E Hn | E E2 | n Hn Hlen Hw Hend]; try lia.
  - apply lookup_lt_Some in E2. lia.
  - unfold slice in Hlen. rewrite length_take, length_drop in Hlen. lia.
Qed.

Lemma lexes_length s ts : (s ≤ length line)%nat → lexes line s ts → (length ts + s ≤ length line)%nat.
Proof.
  intros Hs Hl. revert Hs. induction Hl as [s E | s t e ts Ht Hl IH]; intros Hs.
  - simpl. pose proof (skip_ws_bound s Hs). lia.
  - apply token_at_end in Ht. pose proof (skip_ws_bound s Hs). simpl. specialize (IH ltac:(lia)). lia.
Qed.
End Lex.

(** ** The parser ends, and follows the grammar *)

(** [c] returns in [Q] or panics with a message. *)
Definition parses {A} (c : M nat A) (s : nat) (Q : A → nat → Prop) : Prop :=
  match c s with
  | Ok (a, s') => Q a s'
  | Err (EPanic _) => True
  | Err _ => False
  end.

Lemma parses_bind {A B} (c : M nat A) (k : A → M nat B) s Q :
  parses c s (λ a s', parses (k a) s' Q) → parses (c ≫= k) s Q.
Proof. unfold parses, mbind, M_bind. by destruct (c s) as [[]|[]]. Qed.

Lemma parses_mono {A} (c : M nat A) s (P Q : A → nat → Prop) :
  parses c s P → (∀ a s', P a s' → Q a s') → parses c s Q.
Proof. unfold parses. destruct (c s) as [[]|[]]; naive_solver. Qed.

Section Parse.
Context (line : list Z) (Hline : 0 ∉ line).

Lemma lexes_le s ts : lexes line s ts → (length ts + s ≤ length line)%nat.
Proof using Hline.
  intros Hl. apply (lexes_length line Hline); [|done]. inversion Hl as [? E | ? t e ? Ht _]; subst.
  - unfold skip_ws in E. lia.
  - apply (token_at_end line Hline) in Ht. unfold skip_ws in Ht. lia.
Qed.

Lemma parses_peek {A} toks s ts (k : bool → M nat A) Q :
  lexes line s ts → toks ⊆ symbols →
  (∀ s', lexes line s' ts → parses (k (first_in toks ts)) s' Q) → parses (peek line toks ≫= k) s Q.
Proof using Hline.
  intros Hl Ht Hk. destruct (peek_lexes line Hline toks s ts Hl Ht) as (s' & E & Hl' & _).
  unfold parses. rewrite (bind_ok _ _ _ _ _ E). by apply Hk.
Qed.

Lemma parses_gettoken {A} s t ts (k : Z * word → M nat A) Q :
  lexes line s (t :: ts) →
  (∀ w s', lexes line s' ts → (∀ v, t = TWord v → w = v) → parses (k (tok_code t, w)) s' Q) →
  parses (gettoken line ≫= k) s Q.
Proof using Hline.
  intros Hl Hk. destruct (gettoken_lexes line Hline s t ts Hl) as (w & s' & E & Hl' & Hw).
  unfold parses. rewrite (bind_ok _ _ _ _ _ E). by apply Hk.
Qed.

Lemma first_in_true toks ts :
  first_in toks ts = true → ∃ k (ts' : list (tok word)), ts = TSym k :: ts' ∧ (if k =? 43 then 62 else k) ∈ toks.
Proof.
  unfold first_in. destruct ts as [|[k|w] ts]; try done. simpl. rewrite has_char_spec. eauto.
Qed.

Lemma subset_symbols toks : forallb (has_char symbols) toks = true → toks ⊆ symbols.
Proof. rewrite forallb_forall. intros H x Hx. apply has_char_spec, H. by apply list_elem_of_In. Qed.

Lemma redir_of_cmd k c f : k ∈ [60; 62; 43] → redir_of k c f = redir_cmd k c f.
Proof. rewrite !elem_of_cons. intros [-> | [-> | [-> | []%not_elem_of_nil]]]; done. Qed.

Lemma redir_first k : (if k =? 43 then 62 else k) ∈ [60; 62] → k ∈ [60; 62; 43].
Proof. destruct (Z.eqb_spec k 43) as [->|]; [set_solver |]. set_solver. Qed.

Lemma parseredirs_sound fuel c s ts :
  lexes line s ts → (length ts < fuel)%nat →
  parses (parseredirs line fuel c) s (λ d s', ∃ t1 t2, ts = t1 ++ t2 ∧ g_redirs t1 c d ∧ lexes line s' t2).
Proof using Hline.
  revert c s ts. induction fuel as [|fuel IH]; intros c s ts Hl Hf; [lia |]. cbn [parseredirs].
  eapply parses_peek; [exact Hl | by apply subset_symbols |]. intros s1 Hl1.
  destruct (first_in [60; 62] ts) eqn:Ef.
  - apply first_in_true in Ef as (k & ts1 & -> & Hk%redir_first).
    eapply parses_gettoken; [exact Hl1 |]. intros w s2 Hl2 _. cbn [tok_code].
    destruct ts1 as [|[j|v] ts1].
    + destruct (gettoken_end line s2 Hl2) as (w3 & s3 & E3 & _). unfold parses. by rewrite (bind_ok _ _ _ _ _ E3).
    + eapply parses_gettoken; [exact Hl2 |]. intros w3 s3 Hl3 _. cbn [tok_code fst snd].
      destruct (Z.eqb_spec j 97) as [->|]; [|done]. inversion Hl2 as [|? ? e ? Hta _]; subst.
      apply (token_at_first line Hline) in Hta as (c1 & _ & -> & Hbad). by apply has_char_spec in Hbad.
    + eapply parses_gettoken; [exact Hl2 |]. intros w3 s3 Hl3 Hw3. cbn [tok_code fst snd Z.eqb negb].
      rewrite (Hw3 v eq_refl), redir_of_cmd by done. eapply parses_mono.
      { apply IH; [exact Hl3 | simpl in Hf; lia]. }
      intros d s' (t1 & t2 & -> & Hg & Hl'). exists (TSym k :: TWord v :: t1), t2. split_and!; [done | by constructor | done].
  - exists [], ts. split_and!; [done | constructor | done].
Qed.

Lemma parseargs_sound fuel n c s ts :
  lexes line s ts → (length ts < fuel)%nat →
  parses (parseargs line fuel n c) s (λ d s', ∃ t1 t2, ts = t1 ++ t2 ∧ g_args n t1 c d ∧ lexes line s' t2).
Proof using Hline.
  revert n c s ts. induction fuel as [|fuel IH]; intros n c s ts Hl Hf; [lia |]. cbn [parseargs].
  eapply parses_peek; [exact Hl | by apply subset_symbols |]. intros s1 Hl1.
  destruct (first_in [124; 41; 38; 59] ts) eqn:Ef.
  { exists [], ts. split_and!; [done | constructor | done]. }
  destruct ts as [|t ts].
  { destruct (gettoken_end line s1 Hl1) as (w & s2 & E & Hl2). unfold parses. rewrite (bind_ok _ _ _ _ _ E). simpl.
    exists [], []. split_and!; [done | constructor | done]. }
  eapply parses_gettoken; [exact Hl1 |]. intros w s2 Hl2 Hw. cbn [fst snd].
  destruct t as [k|v]; cbn [tok_code].
  - inversion Hl1 as [|? ? e ? Hta _]; subst. apply (token_at_first line Hline) in Hta as (c1 & _ & Ec1 & Hs).
    destruct (Z.eqb_spec k 0) as [->|]; [subst; by apply has_char_spec in Hs |].
    destruct (Z.eqb_spec k 97) as [->|]; [subst; by apply has_char_spec in Hs | done].
  - cbn [Z.eqb negb]. destruct (Nat.leb_spec MAXARGS (S n)) as [|Hn]; [done |]. rewrite (Hw v eq_refl).
    apply parses_bind. eapply parses_mono.
    { apply parseredirs_sound; [exact Hl2 |]. apply lexes_le in Hl2. lia. }
    intros c1 s3 (t1 & t2 & -> & Hg & Hl3). eapply parses_mono.
    { apply IH; [exact Hl3 |]. simpl in Hf. rewrite length_app in Hf. lia. }
    intros d s4 (t3 & t4 & -> & Hg2 & Hl4). exists (TWord v :: t1 ++ t3), t4.
    split_and!; [simpl; by rewrite app_assoc | by econstructor | done].
Qed.

Lemma parseback_sound fuel c s ts :
  lexes line s ts → (length ts < fuel)%nat →
  parses (parseback line fuel c) s (λ d s', ∃ n t2, ts = amps n ++ t2 ∧ d = backs n c ∧ lexes line s' t2).
Proof using Hline.
  revert c s ts. induction fuel as [|fuel IH]; intros c s ts Hl Hf; [lia |]. cbn [parseback].
  eapply parses_peek; [exact Hl | by apply subset_symbols |]. intros s1 Hl1.
  destruct (first_in [38] ts) eqn:Ef.
  - apply first_in_true in Ef as (k & ts1 & -> & Hk). apply list_elem_of_singleton in Hk.
    destruct (Z.eqb_spec k 43) as [_|_]; [done | subst k].
    eapply parses_gettoken; [exact Hl1 |]. intros w s2 Hl2 _. eapply parses_mono.
    { apply IH; [exact Hl2 | simpl in Hf; lia]. }
    intros d s' (n & t2 & -> & -> & Hl'). exists (S n), t2. split_and!; [done | | done].
    unfold backs. by rewrite Nat.iter_succ_r.
  - by exists O, ts.
Qed.

(** The parser took a part of the tokens that the grammar [g] derives. *)
Definition consumes (g : list (tok word) → cmd word → Prop) (ts : list (tok word)) (c : cmd word) (s' : nat) : Prop :=
  ∃ t1 t2, ts = t1 ++ t2 ∧ g t1 c ∧ lexes line s' t2.

Lemma first_in_one c0 (ts : list (tok word)) :
  c0 ≠ 62 → first_in [c0] ts = true → ∃ ts', ts = TSym c0 :: ts'.
Proof.
  intros Hc (k & ts' & -> & Hk)%first_in_true. apply list_elem_of_singleton in Hk.
  destruct (Z.eqb_spec k 43); [congruence | subst k]. eauto.
Qed.

Section Levels.
Context (fuel : nat).
Context (IHline : ∀ s ts, lexes line s ts → (4 * length ts + 4 ≤ fuel)%nat → parses (parseline line fuel) s (consumes g_line ts)).
Context (IHpipe : ∀ s ts, lexes line s ts → (4 * length ts + 3 ≤ fuel)%nat → parses (parsepipe line fuel) s (consumes g_pipe ts)).
Context (IHexec : ∀ s ts, lexes line s ts → (4 * length ts + 2 ≤ fuel)%nat → parses (parseexec line fuel) s (consumes g_exec ts)).
Context (IHblock : ∀ s ts, lexes line s (TSym 40 :: ts) → (4 * length ts + 5 ≤ fuel)%nat →
  parses (parseblock line fuel) s (consumes g_exec (TSym 40 :: ts))).

Lemma parseblock_level s ts :
  lexes line s (TSym 40 :: ts) → (4 * length ts + 5 ≤ S fuel)%nat →
  parses (parseblock line (S fuel)) s (consumes g_exec (TSym 40 :: ts)).
Proof using Hline IHline.
  intros Hl Hf. cbn [parseblock]. eapply parses_peek; [exact Hl | by apply subset_symbols |]. intros s1 Hl1.
  change (negb (first_in [40] (TSym 40 :: ts))) with false. cbv iota.
  eapply parses_gettoken; [exact Hl1 |]. intros w s2 Hl2 _. apply parses_bind. eapply parses_mono.
  { apply IHline; [exact Hl2 | lia]. }
  intros c s3 (t1 & t2 & -> & Hg & Hl3). eapply parses_peek; [exact Hl3 | by apply subset_symbols |]. intros s4 Hl4.
  destruct (first_in [41] t2) eqn:Ef; [|done]. apply first_in_one in Ef as [t3 ->]; [|done]. cbn [negb].
  eapply parses_gettoken; [exact Hl4 |]. intros w5 s5 Hl5 _. eapply parses_mono.
  { apply parseredirs_sound; [exact Hl5 |]. apply lexes_le in Hl5. lia. }
  intros d s6 (t4 & t5 & -> & Hg2 & Hl6). exists (TSym 40 :: t1 ++ TSym 41 :: t4), t5.
  split_and!; [simpl; by rewrite <- app_assoc | by econstructor | done].
Qed.

Lemma parseexec_level s ts :
  lexes line s ts → (4 * length ts + 2 ≤ S fuel)%nat → parses (parseexec line (S fuel)) s (consumes g_exec ts).
Proof using Hline IHblock.
  intros Hl Hf. cbn [parseexec]. eapply parses_peek; [exact Hl | by apply subset_symbols |]. intros s1 Hl1.
  destruct (first_in [40] ts) eqn:Ef.
  { apply first_in_one in Ef as [t3 ->]; [|done]. apply IHblock; [done | simpl in Hf; lia]. }
  apply parses_bind. eapply parses_mono.
  { apply parseredirs_sound; [exact Hl1 |]. apply lexes_le in Hl1. lia. }
  intros c s2 (t1 & t2 & -> & Hg & Hl2). eapply parses_mono.
  { apply parseargs_sound; [exact Hl2 |]. apply lexes_le in Hl2. lia. }
  intros d s3 (t3 & t4 & -> & Hg2 & Hl3). exists (t1 ++ t3), t4.
  split_and!; [by rewrite app_assoc | by econstructor | done].
Qed.

Lemma parsepipe_level s ts :
  lexes line s ts → (4 * length ts + 3 ≤ S fuel)%nat → parses (parsepipe line (S fuel)) s (consumes g_pipe ts).
Proof using Hline IHexec IHpipe.
  intros Hl Hf. cbn [parsepipe]. apply parses_bind. eapply parses_mono; [apply IHexec; [exact Hl | lia] |].
  intros c s1 (t1 & t2 & -> & Hg & Hl1). eapply parses_peek; [exact Hl1 | by apply subset_symbols |]. intros s2 Hl2.
  destruct (first_in [124] t2) eqn:Ef.
  2:{ exists t1, t2. split_and!; [done | by constructor | done]. }
  apply first_in_one in Ef as [t3 ->]; [|done]. eapply parses_gettoken; [exact Hl2 |]. intros w s3 Hl3 _.
  apply parses_bind. eapply parses_mono; [apply IHpipe; [exact Hl3 | rewrite length_app in Hf; simpl in Hf; lia] |].
  intros r s4 (t4 & t5 & -> & Hg2 & Hl4). exists (t1 ++ TSym 124 :: t4), t5.
  split_and!; [by rewrite <- app_assoc | by econstructor | done].
Qed.

Lemma parseline_level s ts :
  lexes line s ts → (4 * length ts + 4 ≤ S fuel)%nat → parses (parseline line (S fuel)) s (consumes g_line ts).
Proof using Hline IHpipe IHline.
  intros Hl Hf. cbn [parseline]. apply parses_bind. eapply parses_mono; [apply IHpipe; [exact Hl | lia] |].
  intros c s1 (t1 & t2 & -> & Hg & Hl1). apply parses_bind. eapply parses_mono.
  { apply parseback_sound; [exact Hl1 |]. apply lexes_le in Hl1. lia. }
  intros d s2 (n & t3 & -> & -> & Hl2). eapply parses_peek; [exact Hl2 | by apply subset_symbols |]. intros s3 Hl3.
  destruct (first_in [59] t3) eqn:Ef.
  2:{ exists (t1 ++ amps n), t3. split_and!; [by rewrite <- app_assoc | by constructor | done]. }
  apply first_in_one in Ef as [t4 ->]; [|done]. eapply parses_gettoken; [exact Hl3 |]. intros w s4 Hl4 _.
  apply parses_bind. eapply parses_mono.
  { apply IHline; [exact Hl4 |]. rewrite !length_app in Hf. simpl in Hf. lia. }
  intros r s5 (t5 & t6 & -> & Hg2 & Hl5). exists (t1 ++ amps n ++ TSym 59 :: t5), t6.
  split_and!; [by rewrite <- !app_assoc | by econstructor | done].
Qed.
End Levels.

Lemma parse_sound fuel :
  (∀ s ts, lexes line s ts → (4 * length ts + 4 ≤ fuel)%nat → parses (parseline line fuel) s (consumes g_line ts)) ∧
  (∀ s ts, lexes line s ts → (4 * length ts + 3 ≤ fuel)%nat → parses (parsepipe line fuel) s (consumes g_pipe ts)) ∧
  (∀ s ts, lexes line s ts → (4 * length ts + 2 ≤ fuel)%nat → parses (parseexec line fuel) s (consumes g_exec ts)) ∧
  (∀ s ts, lexes line s (TSym 40 :: ts) → (4 * length ts + 5 ≤ fuel)%nat →
    parses (parseblock line fuel) s (consumes g_exec (TSym 40 :: ts))).
Proof using Hline.
  induction fuel as [|fuel (IH1 & IH2 & IH3 & IH4)]; [split_and!; intros; lia |].
  split_and!; intros s ts.
  - by apply parseline_level.
  - by apply parsepipe_level.
  - by apply parseexec_level.
  - by apply parseblock_level.
Qed.

(** ** Every line of the grammar is parsed *)

Lemma wp_peek {A} toks s ts (k : bool → M nat A) Q :
  lexes line s ts → toks ⊆ symbols →
  (∀ s', lexes line s' ts → wp (k (first_in toks ts)) s' Q) → wp (peek line toks ≫= k) s Q.
Proof using Hline.
  intros Hl Ht Hk. destruct (peek_lexes line Hline toks s ts Hl Ht) as (s' & E & Hl' & _).
  unfold wp. rewrite (bind_ok _ _ _ _ _ E). by apply Hk.
Qed.

Lemma wp_gettoken {A} s t ts (k : Z * word → M nat A) Q :
  lexes line s (t :: ts) →
  (∀ w s', lexes line s' ts → (∀ v, t = TWord v → w = v) → wp (k (tok_code t, w)) s' Q) →
  wp (gettoken line ≫= k) s Q.
Proof using Hline.
  intros Hl Hk. destruct (gettoken_lexes line Hline s t ts Hl) as (w & s' & E & Hl' & Hw).
  unfold wp. rewrite (bind_ok _ _ _ _ _ E). by apply Hk.
Qed.

(** What may follow a command: the end, or one of these symbols. *)
Definition follows (cs : list Z) (ts : list (tok word)) : Prop :=
  ts = [] ∨ ∃ c ts', ts = TSym c :: ts' ∧ c ∈ cs.

Lemma follows_not cs toks ts :
  follows cs ts → (∀ c, c ∈ cs → has_char toks (if c =? 43 then 62 else c) = false) → first_in toks ts = false.
Proof. intros [-> | (c & ts' & -> & Hc)] H; [done |]. unfold first_in. simpl. by apply H. Qed.

Lemma follows_in cs toks ts :
  follows cs ts → (∀ c, c ∈ cs → has_char toks (if c =? 43 then 62 else c) = true) → ts = [] ∨ first_in toks ts = true.
Proof. intros [-> | (c & ts' & -> & Hc)] H; [by left |]. right. unfold first_in. simpl. by apply H. Qed.

Lemma forallb_elem (f : Z → bool) cs : forallb f cs = true → ∀ c, c ∈ cs → f c = true.
Proof. rewrite forallb_forall. intros H c Hc. apply H. by apply list_elem_of_In. Qed.

(** Evaluates a claim on the symbols of a concrete list. *)
Ltac each_sym := intros ? Hsym; revert Hsym;
  repeat (rewrite elem_of_cons; intros [-> | Hsym]; [reflexivity | revert Hsym]);
  intros []%not_elem_of_nil.

Lemma follows_mono cs cs' ts : follows cs ts → cs ⊆ cs' → follows cs' ts.
Proof. intros [-> | (c & ts' & -> & Hc)] H; [by left | right; eauto]. Qed.

Lemma parseredirs_complete fuel t1 c d s rest :
  g_redirs t1 c d → lexes line s (t1 ++ rest) → first_in [60; 62] rest = false → (length t1 < fuel)%nat →
  wp (parseredirs line fuel c) s (λ d' s', d' = d ∧ lexes line s' rest).
Proof using Hline.
  intros Hg. revert fuel s. induction Hg as [c | k f ts c d Hk Hg IH]; intros fuel s Hl Hr Hf;
    (destruct fuel as [|fuel]; [lia |]); cbn [parseredirs app] in *.
  - eapply wp_peek; [exact Hl | by apply subset_symbols |]. intros s1 Hl1. rewrite Hr. by apply wp_ret.
  - eapply wp_peek; [exact Hl | by apply subset_symbols |]. intros s1 Hl1.
    assert (first_in [60; 62] (@TSym word k :: TWord f :: ts ++ rest) = true) as ->.
    { unfold first_in. simpl. revert Hk. rewrite !elem_of_cons. by intros [-> | [-> | [-> | []%not_elem_of_nil]]]. }
    eapply wp_gettoken; [exact Hl1 |]. intros w s2 Hl2 _. eapply wp_gettoken; [exact Hl2 |].
    intros w3 s3 Hl3 Hw3. cbn [tok_code fst snd Z.eqb negb]. rewrite (Hw3 f eq_refl), redir_of_cmd by done.
    apply IH; [done | done | simpl in Hf; lia].
Qed.

Lemma g_args_first n t1 (c d : cmd word) rest toks :
  g_args n t1 c d → first_in toks rest = false → first_in toks (t1 ++ rest) = false.
Proof. by intros [|]. Qed.

Lemma parseargs_complete fuel n t1 c d s rest :
  g_args n t1 c d → lexes line s (t1 ++ rest) → follows [124; 41; 38; 59] rest → (length t1 < fuel)%nat →
  wp (parseargs line fuel n c) s (λ d' s', d' = d ∧ lexes line s' rest).
Proof using Hline.
  intros Hg. revert fuel s. induction Hg as [n c | n w t1 t2 c c' d Hn Hr Hg IH]; intros fuel s Hl Hfo Hf;
    (destruct fuel as [|fuel]; [lia |]); cbn [parseargs].
  - eapply wp_peek; [exact Hl | by apply subset_symbols |]. intros s1 Hl1. simpl.
    destruct (follows_in _ [124; 41; 38; 59] rest Hfo) as [-> | ->]; [each_sym | | by apply wp_ret].
    simpl. destruct (gettoken_end line s1 Hl1) as (w & s2 & E & Hl2). unfold wp.
    by rewrite (bind_ok _ _ _ _ _ E).
  - eapply wp_peek; [exact Hl | by apply subset_symbols |]. intros s1 Hl1. simpl first_in.
    cbn [app] in Hl1. eapply wp_gettoken; [exact Hl1 |]. intros v s2 Hl2 Hv. cbn [tok_code fst snd Z.eqb negb].
    rewrite (Hv w eq_refl). destruct (Nat.leb_spec MAXARGS (S n)); [lia |]. rewrite <- app_assoc in Hl2.
    apply wp_bind. eapply wp_mono.
    { eapply parseredirs_complete; [exact Hr | exact Hl2 | |].
      - eapply g_args_first; [exact Hg |]. eapply follows_not; [exact Hfo | each_sym].
      - apply lexes_le in Hl2. rewrite length_app in Hl2. lia. }
    intros c1 s3 [-> Hl3]. apply IH; [done | done |]. simpl in Hf. rewrite length_app in Hf. lia.
Qed.

Lemma parseback_complete fuel n c s rest :
  lexes line s (amps n ++ rest) → first_in [38] rest = false → (n < fuel)%nat →
  wp (parseback line fuel c) s (λ d' s', d' = backs n c ∧ lexes line s' rest).
Proof using Hline.
  revert n c s. induction fuel as [|fuel IH]; intros n c s Hl Hr Hf; [lia |]. cbn [parseback].
  eapply wp_peek; [exact Hl | by apply subset_symbols |]. intros s1 Hl1. destruct n as [|n]; simpl app in *.
  - rewrite Hr. by apply wp_ret.
  - simpl first_in. eapply wp_gettoken; [exact Hl1 |]. intros w s2 Hl2 _. eapply wp_mono.
    { apply (IH n); [exact Hl2 | done | lia]. }
    intros d s3 [-> Hl3]. split; [|done]. unfold backs. by rewrite Nat.iter_succ_r.
Qed.

Definition complete (p : nat → M nat (cmd word)) (k : nat) (cs : list Z) (t1 : list (tok word)) (c : cmd word) : Prop :=
  ∀ fuel s rest, lexes line s (t1 ++ rest) → follows cs rest → (4 * length t1 + k ≤ fuel)%nat →
  wp (p fuel) s (λ c' s', c' = c ∧ lexes line s' rest).

Lemma block_complete t1 t2 c d :
  complete (parseline line) 4 [41] t1 c → g_redirs t2 c d →
  complete (parseexec line) 2 [124; 41; 38; 59] (TSym 40 :: t1 ++ TSym 41 :: t2) d.
Proof using Hline.
  intros IH Hr fuel s rest Hl Hfo Hf. destruct fuel as [|[|fuel]]; [lia | simpl in Hf; lia |].
  cbn [parseexec]. eapply wp_peek; [exact Hl | by apply subset_symbols |]. intros s1 Hl1. simpl first_in. cbv iota.
  cbn [parseblock]. eapply wp_peek; [exact Hl1 | by apply subset_symbols |]. intros s2 Hl2. simpl first_in. cbn [negb].
  cbn [app] in Hl2. eapply wp_gettoken; [exact Hl2 |]. intros w s3 Hl3 _. rewrite <- app_assoc in Hl3.
  simpl in Hf. rewrite length_app in Hf. simpl in Hf.
  apply wp_bind. eapply wp_mono; [eapply IH; [exact Hl3 | right; eexists _, _; split; [done | set_solver] | lia] |].
  intros c1 s4 [-> Hl4]. cbn [app] in Hl4.
  eapply wp_peek; [exact Hl4 | by apply subset_symbols |]. intros s5 Hl5. simpl first_in. cbn [negb].
  eapply wp_gettoken; [exact Hl5 |]. intros w6 s6 Hl6 _. eapply parseredirs_complete; [exact Hr | exact Hl6 | |].
  - eapply follows_not; [exact Hfo | each_sym].
  - apply lexes_le in Hl6. rewrite length_app in Hl6. lia.
Qed.

Lemma cmd_complete t0 t1 c d :
  g_redirs t0 (EXEC []) c → g_args 0 t1 c d → complete (parseexec line) 2 [124; 41; 38; 59] (t0 ++ t1) d.
Proof using Hline.
  intros Hr Ha fuel s rest Hl Hfo Hf. destruct fuel as [|fuel]; [lia |]. rewrite <- app_assoc in Hl.
  assert (∀ toks, first_in toks rest = false → first_in toks (t1 ++ rest) = false) as Hargs.
  { intros toks. by eapply g_args_first. }
  cbn [parseexec]. eapply wp_peek; [exact Hl | by apply subset_symbols |]. intros s1 Hl1.
  assert (first_in [40] (t0 ++ t1 ++ rest) = false) as ->.
  { destruct Hr as [|k f ts c0 d0 Hk _]; [apply Hargs; eapply follows_not; [exact Hfo | each_sym] |].
    unfold first_in. simpl. revert Hk. rewrite !elem_of_cons. by intros [-> | [-> | [-> | []%not_elem_of_nil]]]. }
  apply wp_bind. eapply wp_mono.
  { eapply parseredirs_complete; [exact Hr | exact Hl1 | |].
    - apply Hargs. eapply follows_not; [exact Hfo | each_sym].
    - apply lexes_le in Hl1. rewrite length_app in Hl1. lia. }
  intros c1 s2 [-> Hl2]. eapply parseargs_complete; [exact Ha | exact Hl2 | done |].
  apply lexes_le in Hl2. rewrite length_app in Hl2. lia.
Qed.

Lemma pipe_one_complete t c :
  complete (parseexec line) 2 [124; 41; 38; 59] t c → complete (parsepipe line) 3 [41; 38; 59] t c.
Proof using Hline.
  intros IH fuel s rest Hl Hfo Hf. destruct fuel as [|fuel]; [lia |]. cbn [parsepipe].
  apply wp_bind. eapply wp_mono; [eapply IH; [exact Hl | eapply follows_mono; [exact Hfo | set_solver] | lia] |].
  intros c1 s1 [-> Hl1]. eapply wp_peek; [exact Hl1 | by apply subset_symbols |]. intros s2 Hl2.
  erewrite follows_not; [by apply wp_ret | exact Hfo | each_sym].
Qed.

Lemma pipe_pipe_complete t1 t2 c r :
  complete (parseexec line) 2 [124; 41; 38; 59] t1 c → complete (parsepipe line) 3 [41; 38; 59] t2 r →
  complete (parsepipe line) 3 [41; 38; 59] (t1 ++ TSym 124 :: t2) (PIPE c r).
Proof using Hline.
  intros IH1 IH2 fuel s rest Hl Hfo Hf. destruct fuel as [|fuel]; [lia |]. cbn [parsepipe]. rewrite <- app_assoc in Hl.
  rewrite length_app in Hf. simpl in Hf.
  apply wp_bind. eapply wp_mono; [eapply IH1; [exact Hl | right; eexists _, _; split; [done | set_solver] | lia] |].
  intros c1 s1 [-> Hl1]. cbn [app] in Hl1. eapply wp_peek; [exact Hl1 | by apply subset_symbols |]. intros s2 Hl2.
  simpl first_in. cbv iota. eapply wp_gettoken; [exact Hl2 |]. intros w s3 Hl3 _.
  apply wp_bind. eapply wp_mono; [eapply IH2; [exact Hl3 | done | lia] |].
  intros c2 s4 [-> Hl4]. by apply wp_ret.
Qed.

Lemma amps_follow n cs (rest : list (tok word)) : follows cs rest → 38 ∈ cs → follows cs (amps n ++ rest).
Proof. intros Hr Hc. destruct n; [done |]. right. by eexists _, _. Qed.

Lemma line_one_complete t n c :
  complete (parsepipe line) 3 [41; 38; 59] t c → complete (parseline line) 4 [41] (t ++ amps n) (backs n c).
Proof using Hline.
  intros IH fuel s rest Hl Hfo Hf. destruct fuel as [|fuel]; [lia |]. cbn [parseline]. rewrite <- app_assoc in Hl.
  rewrite length_app in Hf. apply wp_bind. eapply wp_mono.
  { eapply IH; [exact Hl | | lia]. apply amps_follow; [eapply follows_mono; [exact Hfo | set_solver] | set_solver]. }
  intros c1 s1 [-> Hl1]. apply wp_bind. eapply wp_mono.
  { eapply (parseback_complete _ n); [exact Hl1 | eapply follows_not; [exact Hfo | each_sym] |].
    apply lexes_le in Hl1. rewrite length_app in Hl1. unfold amps in Hl1. rewrite length_replicate in Hl1. lia. }
  intros c2 s2 [-> Hl2]. eapply wp_peek; [exact Hl2 | by apply subset_symbols |]. intros s3 Hl3.
  erewrite follows_not; [by apply wp_ret | exact Hfo | each_sym].
Qed.

Lemma line_list_complete t n t2 c r :
  complete (parsepipe line) 3 [41; 38; 59] t c → complete (parseline line) 4 [41] t2 r →
  complete (parseline line) 4 [41] (t ++ amps n ++ TSym 59 :: t2) (LIST (backs n c) r).
Proof using Hline.
  intros IH1 IH2 fuel s rest Hl Hfo Hf. destruct fuel as [|fuel]; [lia |]. cbn [parseline]. rewrite <- !app_assoc in Hl.
  rewrite !length_app in Hf. simpl in Hf. apply wp_bind. eapply wp_mono.
  { eapply IH1; [exact Hl | | lia]. apply amps_follow; [right; eexists _, _; split; [done | set_solver] | set_solver]. }
  intros c1 s1 [-> Hl1]. apply wp_bind. eapply wp_mono.
  { eapply (parseback_complete _ n); [exact Hl1 | done |].
    apply lexes_le in Hl1. rewrite length_app in Hl1. unfold amps in Hl1. rewrite length_replicate in Hl1. lia. }
  intros c2 s2 [-> Hl2]. cbn [app] in Hl2. eapply wp_peek; [exact Hl2 | by apply subset_symbols |]. intros s3 Hl3.
  simpl first_in. cbv iota. eapply wp_gettoken; [exact Hl3 |]. intros w s4 Hl4 _.
  apply wp_bind. eapply wp_mono; [eapply IH2; [exact Hl4 | done | lia] |].
  intros c3 s5 [-> Hl5]. by apply wp_ret.
Qed.

Lemma grammar_complete :
  (∀ t c, g_line t c → complete (parseline line) 4 [41] t c) ∧
  (∀ t c, g_pipe t c → complete (parsepipe line) 3 [41; 38; 59] t c) ∧
  (∀ t c, g_exec t c → complete (parseexec line) 2 [124; 41; 38; 59] t c).
Proof using Hline.
  apply grammar_mut; intros.
  - by apply line_one_complete.
  - by apply line_list_complete.
  - by apply pipe_one_complete.
  - by apply pipe_pipe_complete.
  - by eapply block_complete.
  - by eapply cmd_complete.
Qed.
End Parse.
