(* ===== verification/ShPrint.v ===== *)
(** * Command lines and their text ([sh.c])

    Every line has tokens; the parse of a whole line is the grammar's; the
    strings of the parsed command, once [nulterminate] has cut them, are the
    words of the line; and a command printed as text is parsed back. *)

From S2P Require Import Prelude Bytes User Sh ShSpec.

(** ** Every line has tokens *)

Lemma span_len_all f (l : list Z) : Forall (λ c, f c = true) (take (span_len f l) l).
Proof. induction l as [|x l IH]; simpl; [constructor |]. destruct (f x) eqn:E; simpl; [by constructor | constructor]. Qed.

Lemma token_ex line q c :
  line !! q = Some c → is_ws c = false → ∃ t e, token_at line q t e ∧ (q < e ≤ length line)%nat.
Proof.
  intros E Hw. pose proof (lookup_lt_Some _ _ _ E) as Hq.
  destruct (decide (c ∈ single)) as [Hc|Hc]; [exists (TSym c), (S q); split; [by constructor | lia] |].
  destruct (decide (c = 62)) as [->|Hgt].
  { destruct (decide (line !! S q = Some 62)) as [E2|E2].
    - exists (TSym 43), (S (S q)). split; [by constructor |]. apply lookup_lt_Some in E2. lia.
    - exists (TSym 62), (S q). split; [by constructor | lia]. }
  assert (word_char c = true) as Hwc.
  { unfold word_char. unfold is_ws in Hw. rewrite Hw. cbn [negb andb]. apply negb_true_iff, has_char_false.
    unfold single, symbols in *. set_solver. }
  set (n := span_len word_char (drop q line)).
  assert (n ≤ length line - q)%nat as Hn .
  { pose proof (span_len_le word_char (drop q line)) as Hs. rewrite length_drop in Hs. done. }
  assert (0 < n)%nat as Hn0.
  { unfold n. destruct (drop q line) as [|x l] eqn:Ed; [apply (f_equal length) in Ed; rewrite length_drop in Ed; simpl in Ed; lia |].
    rewrite <- (Nat.add_0_r q), <- lookup_drop, Ed in E. injection E as ->. simpl. rewrite Hwc. lia. }
  exists (TWord (q, (q + n)%nat)), (q + n)%nat. split; [|lia]. constructor; [done | | apply span_len_all |].
  - unfold slice. rewrite length_take, length_drop. lia.
  - intros x. rewrite <- lookup_drop. apply span_len_stop.
Qed.

Lemma lexes_ex line s : (s ≤ length line)%nat → ∃ ts, lexes line s ts.
Proof.
  remember (length line - s)%nat as n eqn:En. revert s En.
  induction n as [n IH] using lt_wf_ind. intros s -> Hs. pose proof (skip_ws_bound line s Hs) as Hb.
  destruct (line !! skip_ws line s) as [c|] eqn:E.
  - destruct (token_ex line _ c E) as (t & e & Ht & He); [by eapply skip_ws_stop |].
    destruct (IH (length line - e)%nat) with (s := e) as [ts Hts]; [lia | done | lia |].
    exists (t :: ts). by econstructor.
  - apply lookup_ge_None in E. exists []. constructor. lia.
Qed.

(** ** The parse of a line *)

Lemma parse_all_cases line :
  0 ∉ line →
  match parse_all line with
  | Ok (c, s) => s = length line → ∃ ts, lexes line 0 ts ∧ g_line ts c
  | Err (EPanic _) => True
  | Err _ => False
  end.
Proof.
  intros Hl. destruct (lexes_ex line 0) as [ts Hts]; [lia |].
  pose proof (lexes_le line Hl 0 ts Hts) as Hlen.
  assert (parses (c ← parseline line (parse_fuel line); peek line [];; mret c) O
    (λ c s', s' = length line → ∃ ts, lexes line 0 ts ∧ g_line ts c)) as Hp; [|exact Hp].
  apply parses_bind. eapply parses_mono.
  { apply (parse_sound line Hl); [exact Hts | unfold parse_fuel; lia]. }
  intros c s (t1 & t2 & -> & Hg & Hl2).
  destruct (peek_lexes line Hl [] s t2 Hl2) as (s' & E & Hl' & ->); [set_solver |].
  unfold parses. rewrite (bind_ok _ _ _ _ _ E). intros Es. exists t1. split; [|done].
  replace t1 with (t1 ++ t2); [done |]. replace t2 with (@nil (tok word)); [by rewrite app_nil_r |].
  inversion Hl2 as [|? t e ? Ht _]; subst; [done |].
  apply (token_at_end line Hl) in Ht. lia.
Qed.

Lemma parse_all_complete line ts c : 0 ∉ line → lexes line 0 ts → g_line ts c → parse_all line = Ok (c, length line).
Proof.
  intros Hl Hts Hg. pose proof (lexes_le line Hl 0 ts Hts) as Hlen.
  assert (wp (c ← parseline line (parse_fuel line); peek line [];; mret c) O
    (λ c' s', c' = c ∧ s' = length line)) as Hp.
  { apply wp_bind. eapply wp_mono.
    { apply (proj1 (grammar_complete line Hl) ts c Hg) with (rest := []); [by rewrite app_nil_r | by left | unfold parse_fuel; lia]. }
    intros c' s' [-> Hl2]. destruct (peek_lexes line Hl [] s' [] Hl2) as (s2 & E & Hl' & ->); [set_solver |].
    unfold wp. rewrite (bind_ok _ _ _ _ _ E). split; [done |]. by inversion Hl2. }
  apply wp_iff in Hp as (c' & s' & E & -> & ->). exact E.
Qed.

(** ** [nulterminate] cuts the words *)

(** The words of a command, in the order in which they are terminated. *)
Fixpoint cmd_words {W} (c : cmd W) : list W :=
  match c with
  | EXEC argv => argv
  | REDIR c f _ _ => cmd_words c ++ [f]
  | PIPE l r => cmd_words l ++ cmd_words r
  | LIST l r => cmd_words l ++ cmd_words r
  | BACK c => cmd_words c
  end.

Definition cut_at (buf : list Z) (ws : list word) : list Z := foldl (λ b w, <[w.2 := 0]> b) buf ws.

Lemma nulterminate_cut c buf : nulterminate c buf = cut_at buf (cmd_words c).
Proof.
  revert buf. induction c as [argv | c IH f m fd | l IHl r IHr | l IHl r IHr | c IH]; intros buf; simpl; try done.
  - rewrite IH. unfold cut_at. by rewrite foldl_app.
  - rewrite IHl, IHr. unfold cut_at. by rewrite foldl_app.
  - rewrite IHl, IHr. unfold cut_at. by rewrite foldl_app.
Qed.

Lemma lookup_cut buf ws i :
  cut_at buf ws !! i = if decide (i ∈ (snd <$> ws) ∧ (i < length buf)%nat) then Some 0 else buf !! i.
Proof.
  revert buf. induction ws as [|w ws IH]; intros buf.
  - rewrite decide_False; [done |]. by intros [?%not_elem_of_nil _].
  - change (cut_at buf (w :: ws)) with (cut_at (<[w.2 := 0]> buf) ws). rewrite IH, length_insert, fmap_cons. rewrite list_lookup_insert. repeat case_decide; set_solver.
Qed.

(** The words of a line: in order, not empty, and of word characters. *)
Record word_ok (line : list Z) (w : word) : Prop := WordOk {
  wo_range : (w.1 < w.2 ≤ length line)%nat;
  wo_chars : Forall (λ c, word_char c = true) (slice w.1 (w.2 - w.1) line);
}.

Lemma word_ok_first line w : word_ok line w → ∃ c, line !! w.1 = Some c ∧ word_char c = true.
Proof.
  intros [Hr Hc]. unfold slice in Hc. destruct (w.2 - w.1)%nat as [|n] eqn:En; [lia |].
  destruct (drop w.1 line) as [|c l] eqn:Ed; [apply (f_equal length) in Ed; rewrite length_drop in Ed; simpl in Ed; lia |].
  simpl in Hc. apply list.Forall_cons in Hc as [Hc _]. exists c. split; [|done].
  rewrite <- (Nat.add_0_r w.1), <- lookup_drop, Ed. done.
Qed.

Definition tok_words {W} (ts : list (tok W)) : list W :=
  omap (λ t, match t with TWord w => Some w | TSym _ => None end) ts.

Lemma lexes_words line s ts :
  0 ∉ line → lexes line s ts →
  Forall (λ w, word_ok line w ∧ (s ≤ w.1)%nat) (tok_words ts) ∧
  (∀ v w, v ∈ tok_words ts → w ∈ tok_words ts → (v.2 < w.1 ∨ w.2 < v.2 ∨ v = w)%nat).
Proof.
  intros Hl Hts. induction Hts as [s E | s t e ts Ht Hts [IH1 IH2]]; [split; [constructor | by intros v w ?%not_elem_of_nil] |].
  pose proof (token_at_end line Hl _ _ _ Ht) as He.
  assert (s ≤ skip_ws line s)%nat by (unfold skip_ws; lia).
  assert (Forall (λ w, word_ok line w ∧ (s ≤ w.1)%nat) (tok_words ts)) as Hts'.
  { eapply list.Forall_impl; [exact IH1 |]. intros w [Hw1 Hw2]. split; [done | lia]. }
  destruct Ht as [c Ec Hc | Ec Hn | Ec E2 | n Hn Hlen Hw Hend]; try (by split).
  cbn [tok_words omap list_omap]. fold (tok_words ts). split.
  - constructor; [|done]. split; [|simpl; lia]. split; simpl; [lia |].
    by replace (skip_ws line s + n - skip_ws line s)%nat with n by lia.
  - rewrite list.Forall_forall in IH1.
    intros v w. rewrite !elem_of_cons. intros [-> | Hv] [-> | Hw'].
    + naive_solver.
    + left. simpl. destruct (IH1 w Hw') as [Hwo Hge]. destruct (word_ok_first line w Hwo) as (c & Ec & Hc).
      destruct (decide (w.1 = skip_ws line s + n)%nat) as [E|]; [|lia]. rewrite E in Ec. apply Hend in Ec. congruence.
    + right. left. simpl. destruct (IH1 v Hv) as [[? _] ?]. lia.
    + by apply IH2.
Qed.

(** The string of a word, when the words of its line are cut. *)
Definition word_str (line : list Z) (w : word) : list Z := slice w.1 (w.2 - w.1) line.

Lemma cstr_slice (l : list Z) n :
  (∀ i, (i < n)%nat → ∃ c, l !! i = Some c ∧ c ≠ 0) → l !! n = Some 0 → cstr l = take n l.
Proof.
  revert l. induction n as [|n IH]; intros [|x l] Hi Hn; try done; simpl in *.
  - by injection Hn as ->.
  - destruct (Hi O) as (c & [= ->] & Hc); [lia |]. destruct (Z.eqb_spec c 0); [done |]. f_equal.
    apply IH; [|done]. intros i Hlt. apply (Hi (S i)). lia.
Qed.

Lemma cut_word line rest ws w :
  0 ∉ line → w ∈ ws → word_ok line w →
  (∀ v, v ∈ ws → (v.2 < w.1 ∨ w.2 < v.2 ∨ v = w)%nat) →
  cstr (drop w.1 (cut_at (line ++ 0 :: rest) ws)) = word_str line w.
Proof.
  intros Hl Hw [Hr Hc] Hdis.
  assert (∀ i, (w.1 ≤ i < w.2)%nat → cut_at (line ++ 0 :: rest) ws !! i = line !! i) as Hin.
  { intros i Hi. rewrite lookup_cut. case_decide as Hd.
    - destruct Hd as [Hd _]. apply list_elem_of_fmap in Hd as (v & -> & Hv). destruct (Hdis v Hv) as [ | [ | -> ] ]; lia.
    - apply lookup_app_l. lia. }
  rewrite (cstr_slice _ (w.2 - w.1)).
  - unfold word_str, slice. apply list_eq. intros i. destruct (decide (i < w.2 - w.1)%nat).
    + rewrite !lookup_take_lt, !lookup_drop by lia. apply Hin. lia.
    + by rewrite !lookup_take_ge by lia.
  - intros i Hi. rewrite lookup_drop, Hin by lia.
    destruct (lookup_lt_is_Some_2 line (w.1 + i)) as [c Ec]; [lia |]. exists c. split; [done |].
    intros ->. apply Hl. by eapply list_elem_of_lookup_2.
  - rewrite lookup_drop, lookup_cut. replace (w.1 + (w.2 - w.1))%nat with w.2 by lia. rewrite decide_True; [done |].
    split; [by apply list_elem_of_fmap_2 |]. rewrite length_app. simpl. lia.
Qed.

(** ** The words of a derived command are words of the line *)

Lemma push_words {W} (w : W) c v : v ∈ cmd_words (push_arg w c) → v = w ∨ v ∈ cmd_words c.
Proof. induction c; simpl; set_solver. Qed.

Lemma redirs_words {W} (t : list (tok W)) c d v :
  g_redirs t c d → v ∈ cmd_words d → v ∈ cmd_words c ∨ v ∈ tok_words t.
Proof.
  induction 1 as [c | k f ts c d Hk Hg IH]; intros Hv; [by left |].
  destruct (IH Hv) as [Hv' | Hv']; simpl; [|set_solver].
  unfold redir_cmd in Hv'. destruct (k =? 60); simpl in Hv'; set_solver.
Qed.

Lemma tok_words_app {W} (a b : list (tok W)) : tok_words (a ++ b) = tok_words a ++ tok_words b.
Proof. apply omap_app. Qed.

Lemma args_words {W} n (t : list (tok W)) c d v :
  g_args n t c d → v ∈ cmd_words d → v ∈ cmd_words c ∨ v ∈ tok_words t.
Proof.
  induction 1 as [n c | n w t1 t2 c c' d Hn Hr Hg IH]; intros Hv; [by left |].
  change (tok_words (TWord w :: t1 ++ t2)) with (w :: tok_words (t1 ++ t2)). rewrite tok_words_app.
  destruct (IH Hv) as [Hv' | Hv']; [|set_solver].
  destruct (redirs_words _ _ _ _ Hr Hv') as [[-> | Hc]%push_words | Ht]; set_solver.
Qed.

Lemma backs_words {W} n (c : cmd W) : cmd_words (backs n c) = cmd_words c.
Proof. unfold backs. induction n as [|n IH]; [done | exact IH]. Qed.

Lemma grammar_words {W} :
  (∀ (t : list (tok W)) c, g_line t c → cmd_words c ⊆ tok_words t) ∧
  (∀ (t : list (tok W)) c, g_pipe t c → cmd_words c ⊆ tok_words t) ∧
  (∀ (t : list (tok W)) c, g_exec t c → cmd_words c ⊆ tok_words t).
Proof.
  apply grammar_mut.
  - intros t n c _ IH. rewrite backs_words, tok_words_app. set_solver.
  - intros t n t2 c r _ IH1 _ IH2. simpl. rewrite backs_words, !tok_words_app. simpl. set_solver.
  - done.
  - intros t1 t2 c r _ IH1 _ IH2. simpl. rewrite tok_words_app. simpl. set_solver.
  - intros t1 t2 c d _ IH Hr v Hv. change (tok_words (TSym 40 :: t1 ++ TSym 41 :: t2)) with (tok_words (t1 ++ TSym 41 :: t2)).
    rewrite tok_words_app. simpl. destruct (redirs_words _ _ _ _ Hr Hv); set_solver.
  - intros t0 t1 c d Hr Ha v Hv. rewrite tok_words_app.
    destruct (args_words _ _ _ _ _ Ha Hv) as [Hc | Ht]; [|set_solver].
    destruct (redirs_words _ _ _ _ Hr Hc) as [?%not_elem_of_nil | ?]; [done | set_solver].
Qed.

Lemma map_cmd_ext {V W} (f g : V → W) c : (∀ w, w ∈ cmd_words c → f w = g w) → map_cmd f c = map_cmd g c.
Proof.
  induction c as [argv | c IH w m fd | l IHl r IHr | l IHl r IHr | c IH]; intros Hw; simpl in *.
  - f_equal. apply list_fmap_ext. intros i w Hi. apply Hw. by eapply list_elem_of_lookup_2.
  - rewrite IH, Hw by set_solver. done.
  - rewrite IHl, IHr by set_solver. done.
  - rewrite IHl, IHr by set_solver. done.
  - by rewrite IH by set_solver.
Qed.

(** The strings of a parsed command are the words of the line. *)
Lemma strings_words line rest ts c :
  0 ∉ line → lexes line 0 ts → g_line ts c →
  strings (nulterminate c (line ++ 0 :: rest)) c = map_cmd (word_str line) c.
Proof.
  intros Hl Hts Hg. destruct (lexes_words line 0 ts Hl Hts) as [Hok Hdis].
  pose proof (proj1 grammar_words _ _ Hg) as Hsub. rewrite list.Forall_forall in Hok.
  unfold strings. apply map_cmd_ext. intros w Hw. rewrite nulterminate_cut.
  apply cut_word; [done | done | by apply Hok, Hsub |]. intros v Hv. apply Hdis; by apply Hsub.
Qed.

(** ** Derivations on words as strings *)

Definition tok_map {V W} (f : V → W) (t : tok V) : tok W :=
  match t with
  | TSym c => TSym c
  | TWord w => TWord (f w)
  end.

Section Lift.
Context {V W : Type} (f : V → W).

Lemma tok_map_sym t k : tok_map f t = TSym k → t = TSym k.
Proof. destruct t; simpl; congruence. Qed.
Lemma tok_map_word t w : tok_map f t = TWord w → ∃ v, t = TWord v ∧ w = f v.
Proof. destruct t; simpl; [done |]. intros [= <-]. eauto. Qed.

Lemma map_push w c : map_cmd f (push_arg w c) = push_arg (f w) (map_cmd f c).
Proof. induction c; simpl; try done; [by rewrite fmap_app | by f_equal]. Qed.

Lemma map_redir k c w : map_cmd f (redir_cmd k c w) = redir_cmd k (map_cmd f c) (f w).
Proof. unfold redir_cmd. by destruct (k =? 60). Qed.

Lemma map_backs n c : map_cmd f (backs n c) = backs n (map_cmd f c).
Proof. unfold backs. induction n as [|n IH]; [done |]. simpl. by rewrite IH. Qed.

Lemma lift_redirs ts t c c0 d :
  g_redirs t c0 d → tok_map f <$> ts = t → map_cmd f c = c0 → ∃ d0, g_redirs ts c d0 ∧ map_cmd f d0 = d.
Proof.
  intros Hg. revert ts c. induction Hg as [c0 | k w t c0 d Hk Hg IH]; intros ts c Et Ec.
  - apply fmap_nil_inv in Et as ->. exists c. split; [constructor | done].
  - apply fmap_cons_inv in Et as (t1 & ts1 & E1 & E2 & ->). symmetry in E1. apply tok_map_sym in E1 as ->.
    symmetry in E2. apply fmap_cons_inv in E2 as (t2 & ts2 & E3 & E4 & ->). symmetry in E3.
    apply tok_map_word in E3 as (v & -> & ->).
    destruct (IH ts2 (redir_cmd k c v)) as (d0 & Hd & Ed); [done | by rewrite map_redir, Ec |].
    exists d0. split; [by constructor | done].
Qed.

Lemma lift_args n ts t c c0 d :
  g_args n t c0 d → tok_map f <$> ts = t → map_cmd f c = c0 → ∃ d0, g_args n ts c d0 ∧ map_cmd f d0 = d.
Proof.
  intros Hg. revert ts c. induction Hg as [n c0 | n w t1 t2 c0 c1 d Hn Hr Hg IH]; intros ts c Et Ec.
  - apply fmap_nil_inv in Et as ->. exists c. split; [constructor | done].
  - apply fmap_cons_inv in Et as (t0 & ts1 & E1 & E2 & ->). symmetry in E1. apply tok_map_word in E1 as (v & -> & ->).
    symmetry in E2. apply fmap_app_inv in E2 as (ta & tb & Ea & Eb & ->).
    destruct (lift_redirs ta t1 (push_arg v c) _ _ Hr) as (c2 & Hc2 & Ec2); [done | by rewrite map_push, Ec |].
    destruct (IH tb c2) as (d0 & Hd & Ed); [done | done |]. exists d0. split; [by econstructor | done].
Qed.

Lemma map_amps ts n : amps n = tok_map f <$> ts → ts = amps n.
Proof.
  revert ts. induction n as [|n IH]; intros ts E; symmetry in E; [by apply fmap_nil_inv in E as -> |].
  apply fmap_cons_inv in E as (t0 & ts1 & E1 & E2 & ->). symmetry in E1. apply tok_map_sym in E1 as ->.
  change (@amps V (S n)) with (@TSym V 38 :: amps n). f_equal. by apply IH.
Qed.

Lemma lift_grammar :
  (∀ t a, g_line t a → ∀ ts, tok_map f <$> ts = t → ∃ c, g_line ts c ∧ map_cmd f c = a) ∧
  (∀ t a, g_pipe t a → ∀ ts, tok_map f <$> ts = t → ∃ c, g_pipe ts c ∧ map_cmd f c = a) ∧
  (∀ t a, g_exec t a → ∀ ts, tok_map f <$> ts = t → ∃ c, g_exec ts c ∧ map_cmd f c = a).
Proof.
  apply grammar_mut.
  - intros t n a _ IH ts (ta & tb & Ea & Eb & ->)%fmap_app_inv. apply map_amps in Eb as ->.
    destruct (IH ta) as (c & Hc & <-); [done |]. exists (backs n c). split; [by constructor | apply map_backs].
  - intros t n t2 a r _ IH1 _ IH2 ts (ta & tb & Ea & Eb & ->)%fmap_app_inv.
    symmetry in Eb. apply fmap_app_inv in Eb as (tc & td & Ec & Ed & ->). apply map_amps in Ec as ->.
    symmetry in Ed. apply fmap_cons_inv in Ed as (t0 & ts1 & E1 & E2 & ->). symmetry in E1. apply tok_map_sym in E1 as ->.
    destruct (IH1 ta) as (c & Hc & <-); [done |]. destruct (IH2 ts1) as (d & Hd & <-); [done |].
    exists (LIST (backs n c) d). split; [by constructor |]. simpl. by rewrite map_backs.
  - intros t a _ IH ts E. destruct (IH ts E) as (c & Hc & <-). exists c. split; [by constructor | done].
  - intros t1 t2 a r _ IH1 _ IH2 ts (ta & tb & Ea & Eb & ->)%fmap_app_inv.
    symmetry in Eb. apply fmap_cons_inv in Eb as (t0 & ts1 & E1 & E2 & ->). symmetry in E1. apply tok_map_sym in E1 as ->.
    destruct (IH1 ta) as (c & Hc & <-); [done |]. destruct (IH2 ts1) as (d & Hd & <-); [done |].
    exists (PIPE c d). split; [by constructor | done].
  - intros t1 t2 a d _ IH Hr ts (t0 & ts1 & E1 & E2 & ->)%fmap_cons_inv. symmetry in E1. apply tok_map_sym in E1 as ->.
    symmetry in E2. apply fmap_app_inv in E2 as (ta & tb & Ea & Eb & ->).
    symmetry in Eb. apply fmap_cons_inv in Eb as (t3 & ts3 & E1 & E2 & ->). symmetry in E1. apply tok_map_sym in E1 as ->.
    destruct (IH ta) as (c & Hc & <-); [done |].
    destruct (lift_redirs ts3 t2 c _ d Hr) as (d0 & Hd & <-); [done | done |]. exists d0. split; [by econstructor | done].
  - intros t0 t1 a d Hr Ha ts (ta & tb & Ea & Eb & ->)%fmap_app_inv.
    destruct (lift_redirs ta t0 (EXEC []) _ a Hr) as (c & Hc & Ec); [done | done |].
    destruct (lift_args 0 tb t1 c _ d Ha) as (d0 & Hd & <-); [done | done |]. exists d0. split; [by econstructor | done].
Qed.
End Lift.

(** ** Commands as text *)

Definition paren {W} (b : bool) (ts : list (tok W)) : list (tok W) :=
  if b then TSym 40 :: ts ++ [TSym 41] else ts.

(** The tokens of a command, in parentheses where the grammar at the level
    (0 line, 1 before [&], 2 pipe, 3 single command) needs them. *)
Fixpoint cmd_toks {W} (lvl : nat) (c : cmd W) : list (tok W) :=
  match c with
  | EXEC argv => TWord <$> argv
  | REDIR c f _ fd => cmd_toks 3 c ++ [TSym (if fd =? 0 then 60 else 62); TWord f]
  | PIPE l r => paren (2 <? lvl)%nat (cmd_toks 3 l ++ TSym 124 :: cmd_toks 2 r)
  | LIST l r => paren (0 <? lvl)%nat (cmd_toks 1 l ++ TSym 59 :: cmd_toks 0 r)
  | BACK c => paren (1 <? lvl)%nat (cmd_toks 1 c ++ [TSym 38])
  end.

Definition tok_chars (t : tok (list Z)) : list Z :=
  match t with
  | TSym c => if c =? 43 then [62; 62] else [c]
  | TWord w => w
  end.
Definition show (ts : list (tok (list Z))) : list Z := mjoin ((λ t, tok_chars t ++ [32]) <$> ts).
Definition show_cmd (c : cmd (list Z)) : list Z := show (cmd_toks 0 c).

(** Commands that can be written: few enough arguments, the redirections of
    the shell, and words of word characters. *)
Definition redir_ok (mode fd : Z) : bool :=
  ((mode =? O_RDONLY) && (fd =? 0)) || ((mode =? Z.lor O_WRONLY O_CREATE) && (fd =? 1)).
Definition writable_word (w : list Z) : bool :=
  negb (bool_decide (w = [])) && forallb (λ c, word_char c && nz c) w.
Fixpoint writable (c : cmd (list Z)) : bool :=
  match c with
  | EXEC argv => (length argv <? MAXARGS)%nat && forallb writable_word argv
  | REDIR c f m fd => writable c && writable_word f && redir_ok m fd
  | PIPE l r => writable l && writable r
  | LIST l r => writable l && writable r
  | BACK c => writable c
  end.

Section Derive.
Context {W : Type}.

Lemma args_derive (ws a : list W) n t d :
  ws ≠ [] → (n + length ws < MAXARGS)%nat → g_redirs t (EXEC (a ++ ws)) d →
  g_args n ((TWord <$> ws) ++ t) (EXEC a) d.
Proof.
  revert a n. induction ws as [|w ws IH]; intros a n Hne Hn Hr; [done |]. simpl in *. destruct ws as [|v ws].
  - pose proof (ga_cons n w t [] (EXEC a) d d) as H. rewrite app_nil_r in H. apply H; [lia | exact Hr | constructor].
  - apply (ga_cons n w [] _ (EXEC a) (EXEC (a ++ [w]))); [lia | constructor |].
    apply IH; [done | simpl in *; lia |]. by rewrite <- app_assoc.
Qed.

Lemma exec_derive (ws : list W) t d :
  (length ws < MAXARGS)%nat → g_redirs t (EXEC ws) d → g_exec ((TWord <$> ws) ++ t) d.
Proof.
  intros Hn Hr. destruct ws as [|w ws].
  - simpl. replace t with (t ++ []) by apply app_nil_r. econstructor; [exact Hr | constructor].
  - apply (ge_cmd [] ((TWord <$> w :: ws) ++ t) (EXEC [])); [constructor |]. by apply args_derive.
Qed.
End Derive.

Record derived (c : cmd (list Z)) : Prop := Derived {
  dv_line : g_line (cmd_toks 0 c) c;
  dv_back : ∃ t n c0, cmd_toks 1 c = t ++ amps n ∧ c = backs n c0 ∧ g_pipe t c0;
  dv_pipe : g_pipe (cmd_toks 2 c) c;
  dv_exec : ∀ t d, g_redirs t c d → g_exec (cmd_toks 3 c ++ t) d;
}.

Lemma line_of_pipe {W} (t : list (tok W)) c : g_pipe t c → g_line t c.
Proof. intros Hg. pose proof (gl_one t 0 c Hg) as H. by rewrite app_nil_r in H. Qed.

Lemma block_derive {W} (t : list (tok W)) c t2 d :
  g_line t c → g_redirs t2 c d → g_exec ((TSym 40 :: t ++ [TSym 41]) ++ t2) d.
Proof. intros Hg Hr. simpl. rewrite <- app_assoc. by econstructor. Qed.

Lemma derived_exec c (t : list (tok (list Z))) :
  (∀ lvl, cmd_toks lvl c = t) → (∀ t2 d, g_redirs t2 c d → g_exec (t ++ t2) d) → derived c.
Proof.
  intros Ht He. assert (g_pipe t c) as Hp.
  { constructor. rewrite <- (app_nil_r t). apply He. constructor. }
  constructor; rewrite ?Ht; [by apply line_of_pipe | | done | done].
  exists t, O, c. split_and!; [by rewrite app_nil_r | done | done].
Qed.

(** A command in parentheses at the levels from [lvl] on. *)
Lemma pipe_of_block c (t : list (tok (list Z))) : g_line t c → g_pipe (TSym 40 :: t ++ [TSym 41]) c.
Proof.
  intros Hg. constructor. rewrite <- (app_nil_r (_ :: _)). eapply block_derive; [exact Hg | constructor].
Qed.

Lemma writable_derived c : writable c = true → derived c.
Proof.
  induction c as [argv | c IH f m fd | l IHl r IHr | l IHl r IHr | c IH]; cbn [writable]; rewrite ?andb_true_iff.
  - intros [Hn _]. apply Nat.ltb_lt in Hn. apply (derived_exec _ (TWord <$> argv)); [done |].
    intros t2 d. by apply exec_derive.
  - intros [[Hc _] Hok]. destruct (IH Hc) as [_ _ _ He].
    apply (derived_exec _ (cmd_toks 3 c ++ [TSym (if fd =? 0 then 60 else 62); TWord f])); [done |].
    intros t2 d Hr. rewrite <- app_assoc. apply He. simpl.
    assert (REDIR c f m fd = redir_cmd (if fd =? 0 then 60 else 62) c f) as Er.
    { unfold redir_ok in Hok. rewrite orb_true_iff, !andb_true_iff, !Z.eqb_eq in Hok. by destruct Hok as [[-> ->] | [-> ->]]. }
    constructor; [destruct (fd =? 0); set_solver | by rewrite <- Er].
  - intros [Hl Hr]. destruct (IHl Hl) as [_ _ _ He]. destruct (IHr Hr) as [_ _ Hp _].
    assert (g_pipe (cmd_toks 3 l ++ TSym 124 :: cmd_toks 2 r) (PIPE l r)) as Hg.
    { constructor; [|done]. rewrite <- (app_nil_r (cmd_toks 3 l)). apply He. constructor. }
    constructor; simpl; [by apply line_of_pipe | | done |].
    + eexists _, O, _. split_and!; [by rewrite app_nil_r | done | done].
    + intros t d Hd. apply (block_derive _ (PIPE l r)); [by apply line_of_pipe | done].
  - intros [Hl Hr]. destruct (IHl Hl) as [_ (t & n & c0 & Et & -> & Hp) _ _]. destruct (IHr Hr) as [Hg _ _ _].
    assert (g_line (cmd_toks 1 (backs n c0) ++ TSym 59 :: cmd_toks 0 r) (LIST (backs n c0) r)) as Hl2.
    { rewrite Et, <- app_assoc. by constructor. }
    pose proof (pipe_of_block _ _ Hl2) as Hb. constructor; simpl; [done | | done |].
    + eexists _, O, _. split_and!; [by rewrite app_nil_r | done | done].
    + intros t2 d Hd. by apply (block_derive _ (LIST (backs n c0) r)).
  - intros Hc. destruct (IH Hc) as [_ (t & n & c0 & Et & -> & Hp) _ _].
    assert (cmd_toks 1 (backs n c0) ++ [TSym 38] = t ++ amps (S n)) as Et2.
    { rewrite Et, <- app_assoc. f_equal. unfold amps. by rewrite replicate_S_end. }
    assert (g_line (cmd_toks 1 (backs n c0) ++ [TSym 38]) (BACK (backs n c0))) as Hl2.
    { rewrite Et2. change (BACK (backs n c0)) with (backs (S n) c0). by constructor. }
    pose proof (pipe_of_block _ _ Hl2) as Hb. constructor; simpl; [done | | done |].
    + exists t, (S n), c0. by split_and!.
    + intros t2 d Hd. by apply (block_derive _ (BACK (backs n c0))).
Qed.

(** ** The text of a command has its tokens *)

Definition tok_ok (t : tok (list Z)) : bool :=
  match t with
  | TSym c => has_char (62 :: 43 :: single) c
  | TWord w => writable_word w
  end.

Lemma show_cons t ts : show (t :: ts) = tok_chars t ++ 32 :: show ts.
Proof. unfold show. simpl. by rewrite <- app_assoc. Qed.

Lemma lexes_blank line s ts : line !! s = Some 32 → lexes line (S s) ts → lexes line s ts.
Proof.
  intros E Hl. assert (skip_ws line s = skip_ws line (S s)) as Es.
  { unfold skip_ws. rewrite (drop_S _ _ _ E). simpl. lia. }
  inversion Hl as [? E2 | ? t e ? Ht Hl2]; subst.
  - constructor. congruence.
  - econstructor; [by rewrite Es | done].
Qed.

Lemma writable_word_spec w :
  writable_word w = true → w ≠ [] ∧ Forall (λ c, word_char c = true) w ∧ 0 ∉ w.
Proof.
  unfold writable_word. rewrite andb_true_iff, negb_true_iff, bool_decide_eq_false. intros [Hne Hw]. split; [done |].
  rewrite forallb_forall in Hw. split.
  - apply list.Forall_forall. intros c Hc%list_elem_of_In. apply Hw in Hc. by apply andb_true_iff in Hc as [? _].
  - intros H0%list_elem_of_In. by apply Hw in H0.
Qed.

Lemma slice_mid (pre w post : list Z) : slice (length pre) (length w) (pre ++ w ++ post) = w.
Proof. unfold slice. by rewrite drop_app_length, take_app_length. Qed.

Lemma lookup_behind (pre l : list Z) i : (pre ++ l) !! (length pre + i)%nat = l !! i.
Proof. rewrite lookup_app_r by lia. f_equal. lia. Qed.
Lemma lookup_first (pre l : list Z) : (pre ++ l) !! length pre = l !! 0%nat.
Proof. rewrite <- (lookup_behind pre l 0). f_equal. lia. Qed.
Lemma lookup_second (pre l : list Z) : (pre ++ l) !! S (length pre) = l !! 1%nat.
Proof. rewrite <- (lookup_behind pre l 1). f_equal. lia. Qed.

(** The token written behind [pre], with a blank after it. *)
Lemma show_token pre t post :
  tok_ok t = true →
  ∃ t', token_at (pre ++ tok_chars t ++ 32 :: post) (length pre) t' (length pre + length (tok_chars t)) ∧
    tok_map (word_str (pre ++ tok_chars t ++ 32 :: post)) t' = t.
Proof.
  destruct t as [c | w]; cbn [tok_ok tok_chars].
  - intros Hc%has_char_spec. exists (TSym c). split; [|done]. destruct (Z.eqb_spec c 43) as [->|Hne].
    + replace (length pre + length [62%Z; 62%Z])%nat with (S (S (length pre))) by (simpl; lia).
      apply ta_app; [by rewrite lookup_first | by rewrite lookup_second].
    + rewrite Nat.add_1_r. rewrite !elem_of_cons in Hc. destruct Hc as [-> | [-> | Hc]]; [| done |].
      * apply ta_gt; [by rewrite lookup_first | by rewrite lookup_second].
      * apply ta_single; [by rewrite lookup_first | done].
  - intros (Hne & Hw & H0)%writable_word_spec. exists (TWord (length pre, (length pre + length w)%nat)). split.
    + constructor.
      * destruct w; [done | simpl; lia].
      * by rewrite slice_mid.
      * by rewrite slice_mid.
      * intros c. rewrite app_assoc, list_lookup_middle by (rewrite length_app; done). by intros [= <-].
    + simpl. unfold word_str. simpl. replace (length pre + length w - length pre)%nat with (length w) by lia.
      by rewrite slice_mid.
Qed.

Lemma show_lexes ts pre :
  forallb tok_ok ts = true →
  ∃ ts', lexes (pre ++ show ts) (length pre) ts' ∧ tok_map (word_str (pre ++ show ts)) <$> ts' = ts.
Proof.
  revert pre. induction ts as [|t ts IH]; intros pre; cbn [forallb].
  - intros _. exists []. split; [|done]. constructor. unfold show. simpl. rewrite app_nil_r.
    unfold skip_ws. rewrite drop_ge by done. simpl. lia.
  - intros [Ht Hts]%andb_true_iff. destruct (IH (pre ++ tok_chars t ++ [32]) Hts) as (ts' & Hl & Em).
    destruct (show_token pre t (show ts) Ht) as (t' & Hta & Et).
    rewrite show_cons. replace ((pre ++ tok_chars t ++ [32]) ++ show ts) with (pre ++ tok_chars t ++ 32 :: show ts) in *
      by (rewrite <- !app_assoc; done).
    exists (t' :: ts'). split; [|by rewrite fmap_cons, Et, Em]. econstructor.
    + assert (skip_ws (pre ++ tok_chars t ++ 32 :: show ts) (length pre) = length pre) as ->; [|exact Hta].
      apply skip_ws_id. intros c Hc. clear -Hta Hc Ht Et.
      destruct Hta as [c' E Hc' | E Hn | E E2 | n Hn Hlen Hw Hend].
      * rewrite E in Hc. injection Hc as <-. unfold single in Hc'. rewrite !elem_of_cons in Hc'.
        by destruct Hc' as [-> | [-> | [-> | [-> | [-> | [-> | []%not_elem_of_nil]]]]]].
      * rewrite E in Hc. by injection Hc as <-.
      * rewrite E in Hc. by injection Hc as <-.
      * unfold slice in Hw. destruct n as [|n]; [lia |]. rewrite (drop_S _ _ _ Hc) in Hw. simpl in Hw.
        apply list.Forall_cons in Hw as [Hw _]. by apply word_char_symbol in Hw as [_ ?].
    + apply lexes_blank; [rewrite app_assoc, list_lookup_middle by (rewrite length_app; done); done |].
      replace (S (length pre + length (tok_chars t))) with (length (pre ++ tok_chars t ++ [32])); [done |].
      rewrite !length_app. simpl. lia.
Qed.

Lemma forallb_paren b ts : forallb tok_ok (paren b ts) = forallb tok_ok ts.
Proof. destruct b; [|done]. simpl. rewrite forallb_app. simpl. by rewrite andb_true_r. Qed.

Lemma cmd_toks_ok lvl c : writable c = true → forallb tok_ok (cmd_toks lvl c) = true.
Proof.
  revert lvl. induction c as [argv | c IH f m fd | l IHl r IHr | l IHl r IHr | c IH]; intros lvl; cbn [writable cmd_toks];
    rewrite ?forallb_paren, ?forallb_app, ?andb_true_iff; simpl; rewrite ?andb_true_iff.
  - intros [_ Hw]. rewrite forallb_forall in Hw |- *. intros t (w & -> & Hin%list_elem_of_In)%list_elem_of_In%list_elem_of_fmap.
    by apply Hw.
  - intros [[Hc Hf] _]. split_and!; [by apply IH | by destruct (fd =? 0) | done | done].
  - intros [Hl Hr]. split; [by apply IHl | by apply IHr].
  - intros [Hl Hr]. split; [by apply IHl | by apply IHr].
  - intros Hc. split; [by apply IH | done].
Qed.

Lemma show_no_nul ts : forallb tok_ok ts = true → 0 ∉ show ts.
Proof.
  induction ts as [|t ts IH]; cbn [forallb]; [intros _; apply not_elem_of_nil |]. intros [Ht Hts]%andb_true_iff.
  rewrite show_cons, not_elem_of_app, not_elem_of_cons. split_and!; [|done | by apply IH].
  destruct t as [c | w]; cbn [tok_chars tok_ok] in *.
  - apply has_char_spec in Ht. destruct (Z.eqb_spec c 43); [by apply has_char_false |].
    rewrite list_elem_of_singleton. intros <-. by apply has_char_spec in Ht.
  - by apply writable_word_spec in Ht as (_ & _ & ?).
Qed.

(** A line whose tokens derive a command is parsed to it. *)
Lemma parsecmd_derived line rest ts a :
  0 ∉ line → lexes line 0 ts → g_line (tok_map (word_str line) <$> ts) a →
  ∃ c buf, parsecmd (line ++ 0 :: rest) = Ret (c, buf) ∧ strings buf c = a.
Proof.
  intros Hl Hts Hg. destruct (proj1 (lift_grammar (word_str line)) _ _ Hg ts eq_refl) as (c & Hc & <-).
  exists c, (nulterminate c (line ++ 0 :: rest)). split; [|by eapply strings_words].
  unfold parsecmd. rewrite cstr_app by done. rewrite (parse_all_complete line ts c) by done.
  by rewrite Nat.eqb_refl.
Qed.

Lemma parsecmd_show a rest :
  writable a = true →
  ∃ c buf, parsecmd (show_cmd a ++ 0 :: rest) = Ret (c, buf) ∧ strings buf c = a.
Proof.
  intros Hw. pose proof (cmd_toks_ok 0 a Hw) as Hok.
  destruct (show_lexes (cmd_toks 0 a) [] Hok) as (ts & Hl & Em).
  apply (parsecmd_derived _ _ ts); [by apply show_no_nul | done |].
  simpl in Em. unfold show_cmd. rewrite Em. apply dv_line. by apply writable_derived.
Qed.

(** ** The parser returns commands that can be written *)

Fixpoint shape {W} (c : cmd W) : bool :=
  match c with
  | EXEC argv => (length argv <? MAXARGS)%nat
  | REDIR c _ m fd => shape c && redir_ok m fd
  | PIPE l r => shape l && shape r
  | LIST l r => shape l && shape r
  | BACK c => shape c
  end.

Lemma writable_shape c : writable c = true ↔ shape c = true ∧ Forall (λ w, writable_word w = true) (cmd_words c).
Proof.
  induction c as [argv | c IH f m fd | l IHl r IHr | l IHl r IHr | c IH]; simpl;
    rewrite ?andb_true_iff, ?Forall_app, ?list.Forall_cons, ?list.Forall_nil, ?forallb_True, ?Is_true_true; try tauto.
  by rewrite forallb_forall, <- Forall_forall.
Qed.

Lemma shape_map {V W} (f : V → W) c : shape (map_cmd f c) = shape c.
Proof.
  induction c as [argv | c IH w m fd | l IHl r IHr | l IHl r IHr | c IH]; simpl; rewrite ?IH, ?IHl, ?IHr; try done.
  by rewrite length_fmap.
Qed.

Lemma words_map {V W} (f : V → W) c : cmd_words (map_cmd f c) = f <$> cmd_words c.
Proof.
  induction c as [argv | c IH w m fd | l IHl r IHr | l IHl r IHr | c IH]; simpl; rewrite ?IH, ?IHl, ?IHr, ?fmap_app; done.
Qed.

(** The number of arguments of a command without pipes and lists. *)
Fixpoint argc {W} (c : cmd W) : option nat :=
  match c with
  | EXEC argv => Some (length argv)
  | REDIR c _ _ _ => argc c
  | _ => None
  end.

Lemma shape_redirs {W} (t : list (tok W)) c d : g_redirs t c d → shape c = true → shape d = true ∧ argc d = argc c.
Proof.
  induction 1 as [c | k f ts c d Hk Hg IH]; intros Hc; [done |].
  assert (shape (redir_cmd k c f) = true ∧ argc (redir_cmd k c f) = argc c) as [H1 H2].
  { unfold redir_cmd. by destruct (k =? 60); simpl; rewrite Hc. }
  destruct (IH H1) as [H3 H4]. split; [done | congruence].
Qed.

Lemma shape_push {W} (w : W) c n :
  argc c = Some n → (S n < MAXARGS)%nat → shape c = true → shape (push_arg w c) = true ∧ argc (push_arg w c) = Some (S n).
Proof.
  intros Ha Hn. induction c as [argv | c IH f m fd | | |]; try done; simpl in *.
  - injection Ha as <-. intros _. rewrite length_app. simpl. split; [apply Nat.ltb_lt; lia | f_equal; lia].
  - intros [Hc Hr]%andb_true_iff. destruct (IH Ha Hc) as [-> ->]. by rewrite Hr.
Qed.

Lemma shape_args {W} n (t : list (tok W)) c d : g_args n t c d → argc c = Some n → shape c = true → shape d = true.
Proof.
  induction 1 as [n c | n w t1 t2 c c' d Hn Hr Hg IH]; intros Ha Hc; [done |].
  destruct (shape_push w c n Ha Hn Hc) as [H1 H2]. destruct (shape_redirs _ _ _ Hr H1) as [H3 H4].
  apply IH; [by rewrite H4 | done].
Qed.

Lemma shape_backs {W} n (c : cmd W) : shape (backs n c) = shape c.
Proof. unfold backs. induction n as [|n IH]; [done | exact IH]. Qed.

Lemma grammar_shape {W} :
  (∀ (t : list (tok W)) c, g_line t c → shape c = true) ∧
  (∀ (t : list (tok W)) c, g_pipe t c → shape c = true) ∧
  (∀ (t : list (tok W)) c, g_exec t c → shape c = true).
Proof.
  apply grammar_mut.
  - intros t n c _ IH. by rewrite shape_backs.
  - intros t n t2 c r _ IH1 _ IH2. simpl. by rewrite shape_backs, IH1, IH2.
  - done.
  - intros t1 t2 c r _ IH1 _ IH2. simpl. by rewrite IH1, IH2.
  - intros t1 t2 c d _ IH Hr. by apply (shape_redirs _ _ _ Hr).
  - intros t0 t1 c d Hr Ha. destruct (shape_redirs _ _ _ Hr eq_refl) as [H1 H2]. by apply (shape_args _ _ _ _ Ha).
Qed.

Lemma word_str_writable line w : 0 ∉ line → word_ok line w → writable_word (word_str line w) = true.
Proof.
  intros Hl [Hr Hc]. unfold writable_word, word_str. apply andb_true_iff. split.
  - rewrite negb_true_iff, bool_decide_eq_false. intros E%(f_equal length). unfold slice in E.
    rewrite length_take, length_drop in E. simpl in E. lia.
  - apply forallb_forall. intros c Hi%list_elem_of_In. rewrite list.Forall_forall in Hc. rewrite (Hc c Hi). simpl.
    unfold nz. destruct (Z.eqb_spec c 0) as [->|]; [|done]. destruct Hl. unfold slice in Hi.
    apply elem_of_take in Hi as (i & Hi & _). rewrite lookup_drop in Hi. by eapply list_elem_of_lookup_2.
Qed.

(** Every word of a derived command lies in the line. *)
Lemma derived_words line ts c :
  0 ∉ line → lexes line 0 ts → g_line ts c → Forall (word_ok line) (cmd_words c).
Proof.
  intros Hl Hts Hg. destruct (lexes_words line 0 ts Hl Hts) as [Hok _]. rewrite list.Forall_forall in Hok.
  apply list.Forall_forall. intros w Hw. by apply Hok, (proj1 grammar_words _ _ Hg).
Qed.

Lemma derived_writable line ts c :
  0 ∉ line → lexes line 0 ts → g_line ts c → writable (map_cmd (word_str line) c) = true.
Proof.
  intros Hl Hts Hg. apply writable_shape. rewrite shape_map, words_map. split; [by apply (proj1 grammar_shape ts) |].
  apply Forall_fmap. eapply list.Forall_impl; [by apply (derived_words line ts c) |]. intros w. by apply word_str_writable.
Qed.
