(* ===== verification/ShRun.v ===== *)
(** * What the shell runs ([sh.c], [runcmd])

    [launch] plays a program against a kernel with file descriptors, follows
    both sides of every [fork], and lists the programs that are started with
    the descriptors they inherit.  [plan] says directly what a command should
    start; [runcmd_plan] shows that [runcmd] does, and so that no process
    keeps an end of a pipe it should not have. *)

From S2P Require Import Prelude Bytes User Sh.

(** What a descriptor stands for: an opened file, an end of the pipe with a
    number, or something the shell itself was started with. *)
Inductive file : Type :=
| FFile (path : list Z) (mode : Z)
| FPipeR (id : nat)
| FPipeW (id : nat)
| FInherited (k : nat).

Abbreviation fdtab := (list (option file)).

(** The lowest free descriptor is taken. *)
Fixpoint fd_alloc (f : file) (tab : fdtab) : option (nat * fdtab) :=
  match tab with
  | [] => None
  | None :: tab => Some (O, Some f :: tab)
  | Some g :: tab => (λ r, (S r.1, Some g :: r.2)) <$> fd_alloc f tab
  end.

(** A program started: its arguments and its descriptors. *)
Definition started : Type := list (list Z) * fdtab.

Section Launch.
(** Which files can be opened and which programs exist. *)
Context (opens : list Z → Z → bool) (runs : list Z → bool).

(** The programs started and the number of pipes made so far; the child of a
    [fork] comes first. *)
Fixpoint launch {A} (p : prog A) (tab : fdtab) (n : nat) : list started * nat :=
  match p with
  | Ret _ => ([], n)
  | Stop _ => ([], n)
  | Call c k =>
    match c with
    | Exit => ([], n)
    | Fork =>
      let '(a, n) := launch (k (0, [])) tab n in
      let '(b, n) := launch (k (1, [])) tab n in
      (a ++ b, n)
    | Exec path argv => if runs path then ([(argv, tab)], n) else launch (k (-1, [])) tab n
    | Close fd => launch (k (0, [])) (<[Z.to_nat fd := None]> tab) n
    | Dup fd =>
      match mjoin (tab !! Z.to_nat fd) ≫= λ f, fd_alloc f tab with
      | Some (i, tab') => launch (k (Z.of_nat i, [])) tab' n
      | None => launch (k (-1, [])) tab n
      end
    | Open path mode =>
      match (if opens path mode then fd_alloc (FFile path mode) tab else None) with
      | Some (i, tab') => launch (k (Z.of_nat i, [])) tab' n
      | None => launch (k (-1, [])) tab n
      end
    | Pipe =>
      match fd_alloc (FPipeR n) tab with
      | Some (i, tab1) =>
        match fd_alloc (FPipeW n) tab1 with
        | Some (j, tab2) => launch (k (0, [Z.of_nat i; Z.of_nat j])) tab2 (S n)
        | None => launch (k (-1, [])) tab n
        end
      | None => launch (k (-1, [])) tab n
      end
    | Write _ bs => launch (k (Z.of_nat (length bs), [])) tab n
    | _ => launch (k (0, [])) tab n
    end
  end.

(** What a command should start: each program of it, with the standard
    descriptors replaced as the command says and nothing else changed. *)
Fixpoint plan (c : cmd (list Z)) (tab : fdtab) (n : nat) : list started * nat :=
  match c with
  | EXEC [] => ([], n)
  | EXEC ((a :: _) as argv) => (if runs a then [(argv, tab)] else [], n)
  | REDIR c f mode fd =>
    if opens f mode then plan c (<[Z.to_nat fd := Some (FFile f mode)]> tab) n else ([], n)
  | LIST l r =>
    let '(a, n) := plan l tab n in
    let '(b, n) := plan r tab n in
    (a ++ b, n)
  | PIPE l r =>
    let '(a, n1) := plan l (<[1%nat := Some (FPipeW n)]> tab) (S n) in
    let '(b, n2) := plan r (<[0%nat := Some (FPipeR n)]> tab) n1 in
    (a ++ b, n2)
  | BACK c => plan c tab n
  end.

(** The redirections the parser makes. *)
Fixpoint redirs_std (c : cmd (list Z)) : bool :=
  match c with
  | EXEC _ => true
  | REDIR c _ _ fd => ((fd =? 0) || (fd =? 1)) && redirs_std c
  | PIPE l r => redirs_std l && redirs_std r
  | LIST l r => redirs_std l && redirs_std r
  | BACK c => redirs_std c
  end.

(** Descriptors 0 and 1 are open and two more are free: the lowest free ones
    are [i] and [j]. *)
Record fd_ok (i j : nat) (tab : fdtab) : Prop := FdOk {
  fo_i : tab !! i = Some None;
  fo_j : tab !! j = Some None;
  fo_lt : (1 < i < j)%nat;
  fo_open : ∀ k, (k < j)%nat → k ≠ i → ∃ g, tab !! k = Some (Some g);
}.

(** ** Descriptors *)

Lemma fd_alloc_first f tab i :
  tab !! i = Some None → (∀ k, (k < i)%nat → ∃ g, tab !! k = Some (Some g)) →
  fd_alloc f tab = Some (i, <[i := Some f]> tab).
Proof.
  revert i. induction tab as [|x tab IH]; intros i Hi Hk; [done |].
  destruct i as [|i]; simpl in *; [by injection Hi as -> |].
  destruct (Hk O) as [g [= ->]]; [lia |]. rewrite (IH i); [done | done |].
  intros k Hlt. apply (Hk (S k)). lia.
Qed.

Lemma launch_dup {A} (k : answer → prog A) fd f i tab n :
  tab !! fd = Some (Some f) → tab !! i = Some None → (∀ m, (m < i)%nat → ∃ g, tab !! m = Some (Some g)) →
  launch (Call (Dup (Z.of_nat fd)) k) tab n = launch (k (Z.of_nat i, [])) (<[i := Some f]> tab) n.
Proof. intros Hf Hi Hm. simpl. rewrite Nat2Z.id, Hf. simpl. by rewrite (fd_alloc_first f tab i). Qed.

Lemma fd_ok_insert i j tab s g :
  fd_ok i j tab → (s ≤ 1)%nat → fd_ok i j (<[s := Some g]> tab).
Proof.
  intros [Hi Hj Hlt Ho] Hs. constructor; [by rewrite list_lookup_insert_ne by lia | by rewrite list_lookup_insert_ne by lia | done |].
  intros k Hk Hne. destruct (decide (k = s)) as [->|].
  - exists g. apply list_lookup_insert_eq. destruct (Ho s) as [g' Hg]; [lia | lia |]. by eapply lookup_lt_Some.
  - rewrite list_lookup_insert_ne by done. by apply Ho.
Qed.

(** Messages start nothing. *)
Lemma launch_puts {A} fd s (k : prog A) tab n : launch (puts fd s;; k) tab n = launch k tab n.
Proof. induction s as [|c s IH]; [done |]. simpl. exact IH. Qed.

Lemma prog_assoc {A B C} (p : prog A) (f : A → prog B) (g : B → prog C) tab n :
  launch ((p ≫= f) ≫= g) tab n = launch (p ≫= λ a, f a ≫= g) tab n.
Proof.
  revert tab n. induction p as [a | c k IH | e]; intros tab n; [done | | done].
  unfold mbind, prog_mbind in *.
  destruct c; simpl; rewrite ?IH; repeat case_match; simplify_eq; rewrite ?IH; try done; congruence.
Qed.

Lemma launch_loop {A} fd fmt args st (f : unit → prog A) tab n :
  (∀ tab n, launch (f tt) tab n = ([], n)) → launch (printf_loop fd fmt args st ≫= f) tab n = ([], n).
Proof.
  intros Hf. revert args st tab n. induction fmt as [|c fmt IH]; intros args st tab n; [apply Hf |].
  assert (∀ s rest, launch ((puts fd s;; printf_loop fd fmt rest false) ≫= f) tab n = ([], n)) as Hputs.
  { intros s rest. rewrite prog_assoc, launch_puts. apply IH. }
  assert (∀ x rest, launch ((putc fd x;; printf_loop fd fmt rest false) ≫= f) tab n = ([], n)) as Hputc.
  { intros x rest. rewrite prog_assoc. apply IH. }
  cbn [printf_loop]. unfold uprintint.
  repeat match goal with
  | |- context [if ?b then _ else _] => destruct b
  | |- context [match ?l with [] => _ | _ :: _ => _ end] => destruct l
  | |- context [match ?x with UInt _ => _ | UStr _ => _ end] => destruct x
  end; auto.
  rewrite prog_assoc. apply IH.
Qed.

Lemma launch_message {A} fd fmt args (k : unit → prog A) tab n :
  launch ((printf fd fmt args;; exit) ≫= k) tab n = ([], n).
Proof. rewrite prog_assoc. apply launch_loop. done. Qed.

(** Two forks: what the children start, then what the parent starts. *)
Lemma launch_fork1 {A} (f : Z → prog A) tab n :
  launch (fork1 ≫= f) tab n =
  let '(a, n) := launch (f 0) tab n in
  let '(b, n) := launch (f 1) tab n in
  (a ++ b, n).
Proof. done. Qed.

Lemma launch_close {A} fd (k : prog A) tab n :
  launch (sys_ret (Close (Z.of_nat fd));; k) tab n = launch k (<[fd := None]> tab) n.
Proof. simpl. by rewrite Nat2Z.id. Qed.

Lemma launch_dup_to {A} fd f i (k : prog A) tab n :
  tab !! fd = Some (Some f) → tab !! i = Some None → (∀ m, (m < i)%nat → ∃ g, tab !! m = Some (Some g)) →
  launch (sys_ret (Dup (Z.of_nat fd));; k) tab n = launch k (<[i := Some f]> tab) n.
Proof. intros Hf Hi Hm. apply (launch_dup (λ _, k)); [exact Hf | exact Hi | exact Hm]. Qed.

(** A child of a pipe: one standard descriptor is replaced by an end of the
    pipe, and the two descriptors of the pipe are closed again. *)
Lemma child_table i j s f g h (tab : fdtab) :
  fd_ok i j tab → (s ≤ 1)%nat →
  <[j := None]> (<[i := None]> (<[s := Some f]> (<[s := None]> (<[j := Some g]> (<[i := Some h]> tab))))) =
  <[s := Some f]> tab.
Proof.
  intros [Hi Hj Hlt Ho] Hs. apply list_eq. intros k. rewrite !list_lookup_insert, !length_insert.
  apply lookup_lt_Some in Hi as Hli. apply lookup_lt_Some in Hj as Hlj.
  repeat case_decide; try naive_solver lia.
Qed.

Lemma parent_table i j g h (tab : fdtab) :
  fd_ok i j tab → <[j := None]> (<[i := None]> (<[j := Some g]> (<[i := Some h]> tab))) = tab.
Proof.
  intros [Hi Hj Hlt Ho]. apply list_eq. intros k. rewrite !list_lookup_insert, !length_insert.
  repeat case_decide; destruct_and?; subst; try done.
Qed.

Lemma launch_child {A} i j s f g h p (tab : fdtab) n (k : prog A) :
  fd_ok i j tab → (s ≤ 1)%nat → (p = i ∧ f = h ∨ p = j ∧ f = g) →
  launch (sys_ret (Close (Z.of_nat s));; sys_ret (Dup (Z.of_nat p));; sys_ret (Close (Z.of_nat i));;
    sys_ret (Close (Z.of_nat j));; k) (<[j := Some g]> (<[i := Some h]> tab)) n = launch k (<[s := Some f]> tab) n.
Proof.
  intros Hok Hs Hp. destruct Hok as [Hi Hj Hlt Ho] eqn:E. clear E.
  apply lookup_lt_Some in Hi as Hli. apply lookup_lt_Some in Hj as Hlj.
  rewrite launch_close. rewrite (launch_dup_to p f s).
  - rewrite !launch_close, (child_table i j) by done. done.
  - rewrite list_lookup_insert_ne by lia. destruct Hp as [[-> ->] | [-> ->]].
    + rewrite list_lookup_insert_ne by lia. by rewrite list_lookup_insert_eq.
    + rewrite list_lookup_insert_eq; [done | by rewrite length_insert].
  - apply list_lookup_insert_eq. rewrite !length_insert. lia.
  - intros m Hm. rewrite !list_lookup_insert_ne by lia. apply Ho; lia.
Qed.

Lemma launch_child_then {A B} i j s f g h p (tab : fdtab) n (q : prog A) (k : A → prog B) :
  fd_ok i j tab → (s ≤ 1)%nat → (p = i ∧ f = h ∨ p = j ∧ f = g) →
  launch ((sys_ret (Close (Z.of_nat s));; sys_ret (Dup (Z.of_nat p));; sys_ret (Close (Z.of_nat i));;
    sys_ret (Close (Z.of_nat j));; q) ≫= k) (<[j := Some g]> (<[i := Some h]> tab)) n =
  launch (q ≫= k) (<[s := Some f]> tab) n.
Proof. intros Hok Hs Hp. exact (launch_child i j s f g h p tab n (q ≫= k) Hok Hs Hp). Qed.

(** The parent closes both ends, waits and exits. *)
Lemma launch_parent {A B} i j (tab : fdtab) n (k : A → prog B) :
  launch ((sys_ret (Close (Z.of_nat i));; sys_ret (Close (Z.of_nat j));; sys_ret Wait;; sys_ret Wait;; exit) ≫= k) tab n =
  ([], n).
Proof. done. Qed.

Lemma launch_pipe {A} i j (f : answer → prog A) tab n :
  fd_ok i j tab →
  launch (call Pipe ≫= f) tab n =
  launch (f (0, [Z.of_nat i; Z.of_nat j])) (<[j := Some (FPipeW n)]> (<[i := Some (FPipeR n)]> tab)) (S n).
Proof.
  intros [Hi Hj Hlt Ho]. simpl.
  rewrite (fd_alloc_first _ tab i); [|done | intros k Hk; apply Ho; lia].
  rewrite (fd_alloc_first _ _ j); [done | by rewrite list_lookup_insert_ne by lia |].
  intros k Hk. destruct (decide (k = i)) as [->|].
  - exists (FPipeR n). apply list_lookup_insert_eq. by eapply lookup_lt_Some.
  - rewrite list_lookup_insert_ne by done. by apply Ho.
Qed.

Lemma launch_exec {A} path argv (f : Z → prog A) tab n :
  launch (sys_ret (Exec path argv) ≫= f) tab n = if runs path then ([(argv, tab)], n) else launch (f (-1)) tab n.
Proof. done. Qed.

Lemma launch_wait {A} (k : prog A) tab n : launch (sys_ret Wait;; k) tab n = launch k tab n.
Proof. done. Qed.

(** A redirection takes the descriptor it closed. *)
Lemma launch_redir {A} i j s path mode (f : Z → prog A) tab n :
  fd_ok i j tab → (s ≤ 1)%nat →
  launch (sys_ret (Close (Z.of_nat s));; sys_ret (Open path mode) ≫= f) tab n =
  if opens path mode then launch (f (Z.of_nat s)) (<[s := Some (FFile path mode)]> tab) n
  else launch (f (-1)) (<[s := None]> tab) n.
Proof.
  intros [Hi Hj Hlt Ho] Hs. rewrite launch_close. simpl. destruct (opens path mode); [|done].
  rewrite (fd_alloc_first _ _ s); [by rewrite list_insert_insert_eq | |].
  - apply list_lookup_insert_eq. destruct (Ho s) as [g Hg]; [lia | lia |]. by eapply lookup_lt_Some.
  - intros k Hk. rewrite list_lookup_insert_ne by lia. apply Ho; lia.
Qed.

(** [runcmd] starts what the command says, and does not return. *)
Lemma runcmd_launch c : ∀ {B} (k : unit → prog B) i j tab n,
  redirs_std c = true → fd_ok i j tab → launch (runcmd c ≫= k) tab n = plan c tab n.
Proof.
  induction c as [argv | c IH file mode fd | l IHl r IHr | l IHl r IHr | c IH]; intros B k i j tab n Hstd Hok;
    cbn [runcmd plan].
  - destruct argv as [|a argv]; [done |]. rewrite prog_assoc, launch_exec.
    destruct (runs a); [done |]. apply launch_message.
  - cbn [redirs_std] in Hstd. apply andb_true_iff in Hstd as [Hfd Hstd].
    assert (∃ s, fd = Z.of_nat s ∧ (s ≤ 1)%nat) as (s & -> & Hs).
    { apply orb_true_iff in Hfd as [->%Z.eqb_eq | ->%Z.eqb_eq]; [by exists O; split; [|lia] | by exists 1%nat; split]. }
    rewrite !prog_assoc.
    etransitivity; [apply (launch_redir i j s file mode
      (λ x, (if x <? 0 then printf 2 (chars "open %s failed" ++ [10]) [UStr (Some file)];; exit else runcmd c;; exit) ≫= k));
      [done | done] |].
    destruct (opens file mode); [|apply launch_message].
    cbv beta. destruct (Z.ltb_spec (Z.of_nat s) 0); [lia |]. rewrite prog_assoc, Nat2Z.id.
    apply (IH _ _ i j); [done | by apply fd_ok_insert].
  - apply andb_true_iff in Hstd as [Hl Hr]. rewrite !prog_assoc, (launch_pipe i j) by done.
    cbn [fst snd default lookup list_lookup]. unfold id. change (0 <? 0) with false. cbv iota.
    rewrite prog_assoc, launch_fork1. change (0 =? 0) with true. change (1 =? 0) with false. cbv iota.
    rewrite prog_assoc, (launch_child_then i j 1 (FPipeW n)) by (done || lia || auto).
    rewrite (IHl _ _ i j) by (done || by apply fd_ok_insert).
    destruct (plan l _ (S n)) as [a n1]. rewrite prog_assoc.
    change (launch (mret tt ≫= ?f) ?t ?m) with (launch (f tt) t m). cbv beta.
    rewrite prog_assoc, launch_fork1. change (0 =? 0) with true. change (1 =? 0) with false. cbv iota.
    rewrite prog_assoc, (launch_child_then i j 0 (FPipeR n)) by (done || lia || auto).
    rewrite (IHr _ _ i j) by (done || by apply fd_ok_insert; [|lia]).
    destruct (plan r _ n1) as [b n2]. rewrite prog_assoc.
    change (launch (mret tt ≫= ?f) ?t ?m) with (launch (f tt) t m). cbv beta.
    rewrite launch_parent. by rewrite app_nil_r.
  - apply andb_true_iff in Hstd as [Hl Hr]. rewrite prog_assoc, launch_fork1. simpl (_ =? 0). cbv iota.
    rewrite prog_assoc, (IHl _ _ i j) by done. destruct (plan l tab n) as [a n1].
    assert (∀ f : unit → prog B, launch ((mret tt ≫= λ _, sys_ret Wait;; runcmd r;; exit) ≫= f) tab n1 = plan r tab n1) as Hp.
    { intros f. etransitivity; [apply (prog_assoc (runcmd r)) |]. by apply (IHr _ _ i j). }
    rewrite Hp. by destruct (plan r tab n1).
  - rewrite prog_assoc, launch_fork1. simpl (_ =? 0). cbv iota. rewrite prog_assoc, (IH _ _ i j) by done.
    destruct (plan c tab n) as [a n1]. simpl. by rewrite app_nil_r.
Qed.
End Launch.
