(* ===== verification/Umalloc.v ===== *)
(** * The user memory allocator ([umalloc.c])

    Kernighan and Ritchie's allocator on the memory of a process.  A header
    is two words, the pointer to the next free block and the size in units of
    headers.  [base] is the address of the static header, and [grow] is the
    kernel's answer to [sbrk]: whether it grants [n] more bytes at the break.

    The free blocks form a ring through [base], in the order of their
    addresses ([ring], [ordered]); [heap] is the invariant of the memory with
    the free blocks and the blocks handed out. *)

From S2P Require Import Prelude Mmu Mem.

Record ust : Type := Ust {
  um_mem : mem;
  um_freep : Z;
  um_brk : Z;
}.

Definition HDR : Z := 8.

Section Umalloc.
Context (base : Z) (grow : Z → Z → bool).

(** [p->s.ptr] and [p->s.size]. *)
Definition get_ptr (p : Z) : M ust Z := gets (λ s, ld32 (um_mem s) p).
Definition get_size (p : Z) : M ust Z := gets (λ s, ld32 (um_mem s) (p + 4)).
Definition set_ptr (p v : Z) : M ust unit := modify (λ s, Ust (st32 (um_mem s) p v) (um_freep s) (um_brk s)).
Definition set_size (p v : Z) : M ust unit := modify (λ s, Ust (st32 (um_mem s) (p + 4) v) (um_freep s) (um_brk s)).
Definition set_freep (p : Z) : M ust unit := modify (λ s, Ust (um_mem s) p (um_brk s)).

(** [sbrk(n)]; a size of 2^31 bytes or more is a negative argument, and what
    is below the break is not the allocator's to use. *)
Definition sbrk (n : Z) : M ust Z := λ s,
  if s32 n <? 0 then Err EUndef
  else if grow (um_brk s) n then Ok (um_brk s, Ust (um_mem s) (um_freep s) (um_brk s + n))
  else Ok (-1, s).

(** The loop of [free]: the free block after which [bp] belongs. *)
Fixpoint free_find (fuel : nat) (bp p : Z) : M ust Z :=
  match fuel with
  | O => raise EFuel
  | S fuel =>
    nxt ← get_ptr p;
    if (p <? bp) && (bp <? nxt) then mret p
    else if (nxt <=? p) && ((p <? bp) || (bp <? nxt)) then mret p
    else free_find fuel bp nxt
  end.

(** [free], the rounds of its loop bounded by [fuel]. *)
Definition free (fuel : nat) (ap : Z) : M ust unit :=
  let bp := u32 (ap - HDR) in
  fp ← gets um_freep;
  p ← free_find fuel bp fp;
  bsz ← get_size bp;
  nxt ← get_ptr p;
  (if u32 (bp + HDR * bsz) =? nxt then
     nsz ← get_size nxt;
     set_size bp (u32 (bsz + nsz));;
     nn ← get_ptr nxt;
     set_ptr bp nn
   else set_ptr bp nxt);;
  psz ← get_size p;
  (if u32 (p + HDR * psz) =? bp then
     bsz ← get_size bp;
     set_size p (u32 (psz + bsz));;
     bn ← get_ptr bp;
     set_ptr p bn
   else set_ptr p bp);;
  set_freep p.

Definition morecore (fuel : nat) (nu : Z) : M ust Z :=
  let nu := if nu <? 4096 then 4096 else nu in
  p ← sbrk (u32 (nu * HDR));
  if p =? -1 then mret 0 else
  set_size p nu;;
  free fuel (p + HDR);;
  gets um_freep.

(** The loop of [malloc], at the block [p] after [prevp]. *)
Fixpoint malloc_loop (fuel : nat) (nunits prevp p : Z) : M ust Z :=
  match fuel with
  | O => raise EFuel
  | S fuel' =>
    sz ← get_size p;
    if nunits <=? sz then
      r ← (if sz =? nunits then
             nxt ← get_ptr p; set_ptr prevp nxt;; mret p
           else
             set_size p (u32 (sz - nunits));;
             let p := u32 (p + HDR * u32 (sz - nunits)) in
             set_size p nunits;; mret p);
      set_freep prevp;;
      mret (u32 (r + HDR))
    else
      fp ← gets um_freep;
      if p =? fp then
        p ← morecore fuel nunits;
        if p =? 0 then mret 0 else
        nxt ← get_ptr p;
        malloc_loop fuel' nunits p nxt
      else
        nxt ← get_ptr p;
        malloc_loop fuel' nunits p nxt
  end.

Definition malloc (fuel : nat) (nbytes : Z) : M ust Z :=
  let nunits := u32 (u32 (nbytes + HDR - 1) / HDR + 1) in
  fp ← gets um_freep;
  (if fp =? 0 then set_ptr base base;; set_freep base;; set_size base 0 else mret tt);;
  prevp ← gets um_freep;
  p ← get_ptr prevp;
  malloc_loop fuel nunits prevp p.

(** ** The free list *)

(** A block: its address and its size in units. *)
Abbreviation block := (Z * Z)%type.

Definition blk_end (b : block) : Z := b.1 + HDR * b.2.

(** Where the next block may start; also for [base], whose size is 0. *)
Definition room (b : block) : Z := b.1 + HDR * Z.max 1 b.2.

Definition first (l : list block) (e : Z) : Z := match l with [] => e | b :: _ => b.1 end.

(** The headers of the blocks [l], each linked to the next, the last to [e]. *)
Fixpoint ring (m : mem) (l : list block) (e : Z) : Prop :=
  match l with
  | [] => True
  | b :: l => ld32 m (b.1 + 4) = b.2 ∧ ld32 m b.1 = first l e ∧ ring m l e
  end.

(** Blocks in the order of their addresses between [lo] and [hi]. *)
Fixpoint ordered (lo : Z) (l : list block) (hi : Z) : Prop :=
  match l with
  | [] => lo ≤ hi
  | b :: l => lo ≤ b.1 ∧ ordered (room b) l hi
  end.

Definition apart (a b : block) : Prop := blk_end a ≤ b.1 ∨ blk_end b ≤ a.1.

Definition units (l : list block) : Z := foldr (λ b n, b.2 + n) 0 l.

Record heap (s : ust) (fl al : list block) : Prop := Heap {
  hp_base : 0 < base;
  hp_ring : ring (um_mem s) ((base, 0) :: fl) base;
  hp_order : ordered (base + HDR) fl (um_brk s);
  hp_sizes : Forall (λ b, 0 < b.2) fl;
  hp_brk : um_brk s < 2 ^ 32;
  hp_freep : ∃ b, b ∈ (base, 0) :: fl ∧ um_freep s = b.1;
  hp_alloc : Forall (λ b, base + HDR ≤ b.1 ∧ 0 < b.2 ∧ blk_end b ≤ um_brk s ∧ ld32 (um_mem s) (b.1 + 4) = b.2) al;
  hp_apart : ∀ b c, b ∈ al → c ∈ fl → apart b c;
  hp_disj : ForallOrdPairs apart al;
}.

(** Membership in lists put together from parts. *)
Ltac inlist :=
  repeat match goal with
  | H : _ ∈ _ ++ _ |- _ => rewrite elem_of_app in H
  | H : _ ∈ _ :: _ |- _ => rewrite elem_of_cons in H
  end;
  repeat first [rewrite elem_of_app | rewrite elem_of_cons]; tauto.

(** ** Lists of blocks *)

Lemma ring_app m l1 l2 e : ring m (l1 ++ l2) e ↔ ring m l1 (first l2 e) ∧ ring m l2 e.
Proof.
  induction l1 as [|b l1 IH]; simpl; [tauto |]. rewrite IH.
  assert (first (l1 ++ l2) e = first l1 (first l2 e)) as -> by (by destruct l1). tauto.
Qed.

(** A ring does not depend on memory outside its headers. *)
Lemma ring_frame m m' l e :
  ring m l e → (∀ b, b ∈ l → ld32 m' b.1 = ld32 m b.1 ∧ ld32 m' (b.1 + 4) = ld32 m (b.1 + 4)) → ring m' l e.
Proof using. clear base grow.
  induction l as [|b l IH]; simpl; [done |]. intros (H1 & H2 & H3) Hb.
  destruct (Hb b) as [E1 E2]; [set_solver |]. split_and!; [congruence | congruence |].
  apply IH; [done |]. intros c Hc. apply Hb. set_solver.
Qed.

Lemma ordered_app lo l1 b l2 hi : ordered lo (l1 ++ b :: l2) hi ↔ ordered lo l1 b.1 ∧ ordered (room b) l2 hi.
Proof using. clear base grow. revert lo. induction l1 as [|c l1 IH]; intros lo; simpl; [tauto |]. rewrite IH. tauto. Qed.

Lemma ordered_le lo l hi : ordered lo l hi → lo ≤ hi.
Proof.
  revert lo. induction l as [|c l IH]; intros lo; simpl; [done |]. intros [H1 H2%IH]. unfold room, HDR in H2. lia.
Qed.

Lemma ordered_elem lo l hi b : ordered lo l hi → b ∈ l → lo ≤ b.1 ∧ room b ≤ hi.
Proof using. clear base grow.
  intros Ho (l1 & l2 & ->)%list_elem_of_split. apply ordered_app in Ho as [H1%ordered_le H2%ordered_le]. done.
Qed.

Lemma ordered_weaken lo lo' l hi hi' : ordered lo l hi → lo' ≤ lo → hi ≤ hi' → ordered lo' l hi'.
Proof.
  intros Ho Hlo Hhi. revert lo lo' Ho Hlo. induction l as [|c l IH]; intros lo lo'; simpl; [lia |].
  intros [H1 H2] Hlo. split; [lia |]. by apply (IH (room c)).
Qed.

Lemma units_cons b l : units (b :: l) = b.2 + units l.
Proof. done. Qed.
#[local] Arguments units : simpl never.

Lemma units_app l1 l2 : units (l1 ++ l2) = units l1 + units l2.
Proof. induction l1 as [|b l1 IH]; [done |]. simpl. rewrite !units_cons. lia. Qed.

(** Headers of blocks in order do not overlap. *)
Lemma room_hdr b : b.1 + HDR ≤ room b.
Proof. unfold room, HDR. lia. Qed.

(** The nodes of the ring around one of them. *)
Lemma heap_order s fl al : heap s fl al → ordered base ((base, 0) :: fl) (um_brk s).
Proof. intros Hh. split; [done |]. exact (hp_order _ _ _ Hh). Qed.

Lemma first_cases l e : (l = [] ∧ first l e = e) ∨ ∃ b l', l = b :: l' ∧ first l e = b.1.
Proof. destruct l; [by left | right; eauto]. Qed.

(** ** The search of [free] *)

Section Find.
Context (s : ust) (bp : Z).

(** Blocks before and after [bp]. *)
Definition below (l : list block) : Prop := Forall (λ b, b.1 < bp) l.
Definition above (l : list block) : Prop := Forall (λ b, bp < b.1) l.

Lemma find_forward l1 c l2 fuel :
  base < bp → below (c :: l1) → above l2 → ring (um_mem s) (c :: l1 ++ l2) base →
  ordered c.1 (c :: l1) (um_brk s) → base ≤ c.1 → (length l1 < fuel)%nat →
  ∃ l1' d, c :: l1 = l1' ++ [d] ∧ free_find fuel bp c.1 s = Ok (d.1, s).
Proof.
  intros Hb. revert c fuel. induction l1 as [|e l1 IH]; intros c fuel Hlo Hhi Hr Ho Hbc Hf;
    (destruct fuel as [|fuel]; [simpl in Hf; lia |]); cbn [free_find]; unfold get_ptr;
    apply list.Forall_cons in Hlo as [Hc Hlo]; destruct Hr as (_ & Hp & Hr).
  - exists [], c. split; [done |]. unfold mbind, M_bind, gets. simpl in Hp. rewrite Hp.
    destruct (Z.ltb_spec c.1 bp); [|lia]. destruct (first_cases l2 base) as [[-> ->] | (d & l2' & -> & ->)].
    + destruct (Z.ltb_spec bp base); [lia |]. destruct (Z.leb_spec base c.1); [done | lia].
    + apply list.Forall_cons in Hhi as [Hd _]. destruct (Z.ltb_spec bp d.1); [done | lia].
  - simpl in Hp. unfold mbind, M_bind, gets. rewrite Hp. pose proof Hlo as Hlo0. apply list.Forall_cons in Hlo as [He Hlo].
    destruct Ho as (_ & Hoe & Ho). pose proof (room_hdr c). unfold HDR in *.
    destruct (Z.ltb_spec bp e.1); [lia |]. rewrite andb_false_r.
    destruct (Z.leb_spec e.1 c.1); [lia |]. cbn [andb].
    destruct (IH e fuel) as (l1' & d & E & Ef); [by constructor | done | done | | lia | simpl in Hf; lia |].
    { split; [lia | done]. }
    exists (c :: l1'), d. split; [by rewrite E | done].
Qed.

Lemma find_wrap l2 c fuel :
  base < bp → above (c :: l2) → ring (um_mem s) (c :: l2) base → ordered c.1 (c :: l2) (um_brk s) →
  free_find (S (length l2) + fuel) bp c.1 s = free_find fuel bp base s.
Proof.
  intros Hb. revert c. induction l2 as [|e l2 IH]; intros c Hhi Hr Ho; cbn [length Nat.add free_find]; unfold get_ptr;
    apply list.Forall_cons in Hhi as [Hc Hhi]; destruct Hr as (_ & Hp & Hr); unfold mbind, M_bind, gets.
  - simpl in Hp. rewrite Hp. destruct (Z.ltb_spec c.1 bp); [lia |]. destruct (Z.ltb_spec bp base); [lia |].
    cbn [andb orb]. by rewrite andb_false_r.
  - simpl in Hp. rewrite Hp. destruct Ho as (_ & Hoe & Ho). pose proof (room_hdr c). unfold HDR in *.
    destruct (Z.ltb_spec c.1 bp); [lia |]. destruct (Z.leb_spec e.1 c.1); [lia |]. cbn [andb].
    apply (IH e); [done | done | split; [lia | done]].
Qed.
End Find.

(** ** Changes to one header *)

Definition only_hdr (m m' : mem) (a : Z) : Prop := ∀ x, x < a ∨ a + HDR ≤ x → rd m' x = rd m x.

Lemma only_ptr m a v : only_hdr m (st32 m a v) a.
Proof. intros x Hx. unfold HDR in Hx. apply rd_st32_out. lia. Qed.
Lemma only_size m a v : only_hdr m (st32 m (a + 4) v) a.
Proof. intros x Hx. unfold HDR in Hx. apply rd_st32_out. lia. Qed.
Lemma only_trans m m1 m2 a : only_hdr m m1 a → only_hdr m1 m2 a → only_hdr m m2 a.
Proof. intros H1 H2 x Hx. by rewrite H2, H1. Qed.

Lemma only_ld m m' a y : only_hdr m m' a → y + 4 ≤ a ∨ a + HDR ≤ y → ld32 m' y = ld32 m y.
Proof. intros Ho Hy. apply ld32_ext. intros x Hx. apply Ho. lia. Qed.

Lemma ring_only m m' l e a :
  ring m l e → only_hdr m m' a → (∀ c, c ∈ l → c.1 + HDR ≤ a ∨ a + HDR ≤ c.1) → ring m' l e.
Proof.
  intros Hr Ho Hc. apply (ring_frame m); [done |]. intros c Hin. specialize (Hc c Hin). unfold HDR in *.
  split; apply (only_ld m m' a); try done; unfold HDR; lia.
Qed.

(** The blocks before and after one that is apart from all. *)
Lemma split_at lo l hi b :
  ordered lo l hi → Forall (λ c, 0 < c.2) l → (∀ c, c ∈ l → apart b c) → lo ≤ b.1 → blk_end b ≤ hi → 0 < b.2 →
  ∃ l1 l2, l = l1 ++ l2 ∧ ordered lo l1 b.1 ∧ ordered (blk_end b) l2 hi.
Proof.
  revert lo. induction l as [|c l IH]; intros lo Ho Hs Ha Hlo Hhi Hb.
  { by exists [], []. }
  destruct Ho as [Hc Ho]. apply list.Forall_cons in Hs as [Hcs Hs].
  destruct (Ha c) as [Hle | Hle]; [set_solver | |].
  - exists [], (c :: l). split_and!; [done | done |]. split; [lia | done].
  - assert (room c = blk_end c) as Hrc by (unfold room, blk_end; rewrite Z.max_r; lia).
    destruct (IH (room c)) as (l1 & l2 & -> & H1 & H2); [done | done | set_solver | lia | done | done |].
    exists (c :: l1), l2. split_and!; [done | by split | done].
Qed.

Lemma ordered_below lo l hi bp : ordered lo l hi → hi ≤ bp → Forall (λ b, b.1 < bp) l.
Proof.
  intros Ho Hb. apply list.Forall_forall. intros c Hc. apply (ordered_elem lo l hi c Ho) in Hc as [_ Hc].
  pose proof (room_hdr c). unfold HDR in *. lia.
Qed.

Lemma ordered_above lo l hi bp : ordered lo l hi → bp < lo → Forall (λ b, bp < b.1) l.
Proof.
  intros Ho Hb. apply list.Forall_forall. intros c Hc. apply (ordered_elem lo l hi c Ho) in Hc as [Hc _]. lia.
Qed.

(** The search ends at the last free block before [bp]. *)
Lemma free_find_spec s fl al l1 l2 bp fuel :
  heap s fl al → fl = l1 ++ l2 → base < bp → Forall (λ b, b.1 < bp) l1 → Forall (λ b, bp < b.1) l2 →
  (2 * length fl + 2 ≤ fuel)%nat →
  ∃ A d, (base, 0) :: l1 = A ++ [d] ∧ free_find fuel bp (um_freep s) s = Ok (d.1, s).
Proof.
  intros Hh -> Hbp H1 H2 Hf. pose proof (heap_order _ _ _ Hh) as Ho. pose proof (hp_ring _ _ _ Hh) as Hr.
  rewrite length_app in Hf. destruct (hp_freep _ _ _ Hh) as (f & Hfin & ->).
  assert (∀ fuel, (S (length l1) ≤ fuel)%nat →
    ∃ A d, (base, 0) :: l1 = A ++ [d] ∧ free_find fuel bp base s = Ok (d.1, s)) as Hbase.
  { intros k Hk. apply (find_forward s bp l1 (base, 0) l2); try done.
    - by constructor.
    - split; [done |]. destruct Ho as [_ Ho]. destruct l2 as [|e l2].
      + by rewrite app_nil_r in Ho.
      + apply ordered_app in Ho as [Ho Ho2]. eapply ordered_weaken; [exact Ho | lia |].
        apply ordered_le in Ho2. pose proof (room_hdr e). unfold HDR in *. lia. }
  change ((base, 0) :: l1 ++ l2) with (((base, 0) :: l1) ++ l2) in *.
  apply elem_of_app in Hfin as [Hin | Hin]; apply list_elem_of_split in Hin as (X & Y & E).
  - pose proof E as E0. rewrite E, <- app_assoc in Hr, Ho. apply ring_app in Hr as [_ Hr].
    simpl app in Hr, Ho. apply ordered_app in Ho as [_ Ho]. 
    assert (Forall (λ b, b.1 < bp) (f :: Y)) as Hlo.
    { assert (Forall (λ b, b.1 < bp) ((base, 0) :: l1)) as Hall by (by constructor). rewrite E in Hall.
      by apply Forall_app in Hall as [_ ?]. }
    destruct (find_forward s bp Y f l2 fuel) as (A & d & E1 & E2); try done.
    + split; [done |]. destruct l2 as [|e l2]; [by rewrite app_nil_r in Ho |].
      apply ordered_app in Ho as [Ho Ho2]. eapply ordered_weaken; [exact Ho | lia |].
      apply ordered_le in Ho2. pose proof (room_hdr e). unfold HDR in *. lia.
    + destruct X as [|x X]; [by injection E as <- | injection E as <- E].
      assert (f ∈ l1 ++ l2) as Hin by (rewrite E; set_solver).
      apply (ordered_elem _ _ _ f (hp_order _ _ _ Hh)) in Hin. unfold HDR in *. lia.
    + apply (f_equal length) in E0. rewrite length_app in E0. simpl in E0. lia.
    + exists (X ++ A), d. split; [by rewrite E, E1, app_assoc | done].
  - subst l2. apply ring_app in Hr as [_ Hr]. apply ring_app in Hr as [_ Hr].
    apply Forall_app in H2 as [_ H2]. rewrite app_assoc in Ho. apply ordered_app in Ho as [_ Ho].
    rewrite length_app in Hf. simpl in Hf.
    replace fuel with (S (length Y) + (fuel - S (length Y)))%nat by lia.
    rewrite (find_wrap s bp Y f); [|done | done | done | by split].
    apply Hbase. lia.
Qed.

(** ** [free] *)

(** The bytes of the blocks [al] are the same in both memories. *)
Definition kept (al : list block) (m m' : mem) : Prop := ∀ c x, c ∈ al → c.1 ≤ x < blk_end c → rd m' x = rd m x.

Lemma apart_merge c b e : 0 < c.2 → blk_end b = e.1 → apart c b → apart c e → apart c (b.1, b.2 + e.2).
Proof. unfold apart, blk_end, HDR. simpl. lia. Qed.

(** What the first half of [free] makes of the block and those behind it. *)
Record upper (s s1 : ust) (b : block) (l2 : list block) (b1 : block) (l3 : list block) : Prop := Upper {
  up_addr : b1.1 = b.1;
  up_size : b.2 ≤ b1.2;
  up_ring : ring (um_mem s1) (b1 :: l3) base;
  up_order : ordered b.1 (b1 :: l3) (um_brk s);
  up_sizes : Forall (λ c, 0 < c.2) (b1 :: l3);
  up_units : b1.2 + units l3 = b.2 + units l2;
  up_sub : l3 ⊆ l2;
  up_len : (length l3 ≤ length l2)%nat;
  up_apart : ∀ c, 0 < c.2 → apart c b → (∀ e, e ∈ l2 → apart c e) → apart c b1;
  up_only : only_hdr (um_mem s) (um_mem s1) b.1;
  up_frame : um_freep s1 = um_freep s ∧ um_brk s1 = um_brk s;
}.

Lemma free_upper s b l2 :
  0 < base < b.1 → 0 < b.2 → um_brk s < 2 ^ 32 → ring (um_mem s) l2 base → ordered (blk_end b) l2 (um_brk s) →
  Forall (λ c, 0 < c.2) l2 → ld32 (um_mem s) (b.1 + 4) = b.2 →
  wp (if u32 (b.1 + HDR * b.2) =? first l2 base then
        nsz ← get_size (first l2 base);
        set_size b.1 (u32 (b.2 + nsz));;
        nn ← get_ptr (first l2 base);
        set_ptr b.1 nn
      else set_ptr b.1 (first l2 base)) s
    (λ _ s1, ∃ b1 l3, upper s s1 b l2 b1 l3).
Proof.
  intros Hb Hb2 Hbrk Hr Ho Hs Hsz. pose proof (ordered_le _ _ _ Ho) as Hle.
  assert (u32 (b.1 + HDR * b.2) = blk_end b) as -> by (apply u32_id; unfold blk_end, HDR in *; lia).
  destruct (Z.eqb_spec (blk_end b) (first l2 base)) as [E|E].
  - destruct l2 as [|e l2]; [simpl in E; unfold blk_end, HDR in *; lia |].
    destruct Hr as (He1 & He2 & Hr). destruct Ho as [Hoe Ho]. apply list.Forall_cons in Hs as [Hes Hs].
    cbn [first] in *. unfold get_size, get_ptr, set_size, set_ptr. repeat wp_step. simpl um_mem in *.
    rewrite He1. pose proof (ordered_le _ _ _ Ho) as Hle2. unfold room, blk_end, HDR in *.
    rewrite (ld32_st32_ne _ (b.1 + 4) e.1) by lia. rewrite He2.
    assert (u32 (b.2 + e.2) = b.2 + e.2) as Eu by (apply u32_id; lia). rewrite Eu.
    exists (b.1, b.2 + e.2), l2. constructor; simpl; try done; try lia.
    + split_and!.
      * rewrite ld32_st32_ne by lia. rewrite ld32_st32. by apply u32_id; lia.
      * rewrite ld32_st32. apply u32_id. destruct (first_cases l2 base) as [[-> ->] | (f & l2' & -> & ->)]; [lia |].
        destruct Ho as [Hf Ho]. apply ordered_le in Ho. pose proof (room_hdr f). unfold HDR in *. lia.
      * eapply (ring_only _ _ _ _ b.1); [exact Hr | eapply only_trans; [apply only_size | apply only_ptr] |].
        intros c Hc. apply (ordered_elem _ _ _ c Ho) in Hc as [Hc _]. unfold HDR. lia.
    + split; [lia |]. unfold room, HDR. simpl. eapply ordered_weaken; [exact Ho | lia | lia].
    + constructor; [simpl; lia | done].
    + rewrite units_cons. lia.
    + set_solver.
    + intros c Hc Hcb Hce. apply (apart_merge c b e); [done | done | done | apply Hce; set_solver].
    + eapply only_trans; [apply only_size | apply only_ptr].
  - unfold set_ptr. repeat wp_step. exists b, l2. unfold room, blk_end, HDR in *. constructor; simpl; try done; try lia.
    + split_and!.
      * by rewrite ld32_st32_ne by lia.
      * rewrite ld32_st32. apply u32_id. destruct (first_cases l2 base) as [[-> ->] | (f & l2' & -> & ->)]; [lia |].
        destruct Ho as [Hf Ho]. apply ordered_le in Ho. pose proof (room_hdr f). unfold HDR in *. lia.
      * eapply (ring_only _ _ _ _ b.1); [exact Hr | apply only_ptr |].
        intros c Hc. apply (ordered_elem _ _ _ c Ho) in Hc as [Hc _]. unfold HDR. lia.
    + split; [lia |]. unfold room, HDR. rewrite Z.max_r by lia. done.
    + by constructor.
    + apply only_ptr.
Qed.

(** What the second half makes of the free list. *)
Record lower (s1 s2 : ust) (d b1 : block) (l1 l3 fl : list block) : Prop := Lower {
  lw_ring : ring (um_mem s2) ((base, 0) :: fl) base;
  lw_order : ordered (base + HDR) fl (um_brk s1);
  lw_sizes : Forall (λ c, 0 < c.2) fl;
  lw_units : units fl = units l1 + b1.2 + units l3;
  lw_node : ∃ c, c ∈ (base, 0) :: fl ∧ d.1 = c.1;
  lw_fit : ∃ c, c ∈ fl ∧ b1.2 ≤ c.2;
  lw_len : (length fl ≤ S (length l1 + length l3))%nat;
  lw_apart : ∀ c, 0 < c.2 → apart c b1 → (∀ e, e ∈ l1 ++ l3 → apart c e) → ∀ e, e ∈ fl → apart c e;
  lw_only : only_hdr (um_mem s1) (um_mem s2) d.1;
  lw_frame : um_freep s2 = um_freep s1 ∧ um_brk s2 = um_brk s1;
}.

(** The headers around [d], the last free block before [b1]. *)
Record around (s1 : ust) (A : list block) (d b1 : block) (l1 l3 : list block) : Prop := Around {
  ar_nodes : (base, 0) :: l1 = A ++ [d];
  ar_base : 0 < base;
  ar_brk : um_brk s1 < 2 ^ 32;
  ar_ring : ring (um_mem s1) A d.1;
  ar_dsize : ld32 (um_mem s1) (d.1 + 4) = d.2;
  ar_before : ordered (base + HDR) l1 b1.1;
  ar_sizes : Forall (λ c, 0 < c.2) l1;
  ar_high : base + HDR ≤ b1.1;
  ar_after : ring (um_mem s1) (b1 :: l3) base;
  ar_order : ordered b1.1 (b1 :: l3) (um_brk s1);
  ar_pos : Forall (λ c, 0 < c.2) (b1 :: l3);
}.

Lemma around_d s1 A d b1 l1 l3 :
  around s1 A d b1 l1 l3 →
  room d ≤ b1.1 ∧ base ≤ d.1 ∧ (∀ c, c ∈ A → c.1 + HDR ≤ d.1) ∧ (A = [] ∧ d = (base, 0) ∧ l1 = [] ∨ ∃ A', l1 = A' ++ [d] ∧ A = (base, 0) :: A' ∧ 0 < d.2).
Proof.
  intros [E Hb _ _ _ Ho Hs Hh _ _ _]. destruct A as [|a A].
  - injection E as <- ->. unfold room, HDR in *. simpl. split_and!; [lia | lia | by intros c ?%not_elem_of_nil | by left].
  - injection E as <- ->. apply ordered_app in Ho as [Ho1 Ho2]. simpl in Ho2. apply Forall_app in Hs as [_ Hd].
    apply list.Forall_cons in Hd as [Hd _]. pose proof (ordered_le _ _ _ Ho1) as Hle. unfold HDR in *. split_and!; [done | lia | | eauto 10].
    intros c [-> | Hc]%elem_of_cons; [done |]. apply (ordered_elem _ _ _ c Ho1) in Hc as [_ Hc].
    pose proof (room_hdr c). unfold HDR in *. lia.
Qed.

Lemma first_bound s1 b1 l3 :
  0 < base < 2 ^ 32 → um_brk s1 < 2 ^ 32 → 0 ≤ b1.1 → ordered b1.1 (b1 :: l3) (um_brk s1) → 0 ≤ first l3 base < 2 ^ 32.
Proof.
  intros Hb Hk Hb1 [_ Ho]. destruct (first_cases l3 base) as [[-> ->] | (f & l & -> & ->)]; [lia |].
  destruct Ho as [Hf Ho%ordered_le]. pose proof (room_hdr f). pose proof (room_hdr b1). unfold HDR in *. lia.
Qed.

Lemma around_next s1 A d b1 l1 l3 :
  around s1 A d b1 l1 l3 →
  b1.1 + HDR ≤ um_brk s1 ∧ 0 ≤ first l3 base < 2 ^ 32 ∧ ∀ c, c ∈ l3 → room b1 ≤ c.1.
Proof.
  intros [E Hb Hk Hr Hds Ho Hs Hh Hr3 Ho3 Hpos]. pose proof (ordered_le _ _ _ Ho3) as Hle3. destruct (id Ho3) as [Hlo H3].
  pose proof (ordered_le _ _ _ H3). pose proof (room_hdr b1).
  split_and!; [lia | apply (first_bound s1 b1 l3); (done || unfold HDR in *; lia).. |].
  intros c Hc. by apply (ordered_elem _ _ _ c H3) in Hc as [Hc _].
Qed.

(** The freed block starts where the one before it ends. *)
Lemma free_lower_merge s1 A d b1 l1 l3 :
  around s1 A d b1 l1 l3 → u32 (d.1 + HDR * d.2) = b1.1 →
  wp (bsz ← get_size b1.1;
      set_size d.1 (u32 (d.2 + bsz));;
      bn ← get_ptr b1.1;
      set_ptr d.1 bn) s1 (λ _ s2, ∃ fl, lower s1 s2 d b1 l1 l3 fl).
Proof.
  intros Har Em. destruct (around_d _ _ _ _ _ _ Har) as (Hrd & Hbd & HA & Hcase). destruct (around_next _ _ _ _ _ _ Har) as (Hk1 & Hfb & Hl3).
  destruct Har as [E Hb Hk Hr Hds Ho Hs Hh (Hb1s & Hb1p & Hr3) Ho3 Hpos]. pose proof (ordered_le _ _ _ Ho3) as Hle3.
  pose proof (room_hdr d) as Hd8. pose proof (room_hdr b1) as Hb18. apply list.Forall_cons in Hpos as Hpos'. destruct Hpos' as [Hb1pos Hpos3].
  destruct Hcase as [(-> & -> & ->) | (A' & -> & -> & Hd2)].
  { simpl in Em. rewrite Z.mul_0_r, Z.add_0_r, u32_id in Em by (unfold HDR in *; lia). unfold HDR in *. lia. }
  assert (blk_end d = b1.1) as Ed.
  { unfold blk_end. rewrite <- Em. symmetry. apply u32_id. unfold room in Hrd. rewrite Z.max_r in Hrd by lia. unfold HDR in *. lia. }
  unfold get_size, get_ptr, set_size, set_ptr. repeat wp_step. simpl um_mem. rewrite Hb1s.
  assert (u32 (d.2 + b1.2) = d.2 + b1.2) as Eu.
  { destruct Ho3 as [_ H3%ordered_le]. unfold room, blk_end, HDR in *. apply u32_id. lia. }
  rewrite Eu. unfold HDR in *. rewrite (ld32_st32_ne _ (d.1 + 4) b1.1) by lia. rewrite Hb1p.
  assert (only_hdr (um_mem s1) (st32 (st32 (um_mem s1) (d.1 + 4) (d.2 + b1.2)) d.1 (first l3 base)) d.1) as Honly.
  { eapply only_trans; [apply only_size | apply only_ptr]. }
  apply ordered_app in Ho as [Ho1 _]. apply Forall_app in Hs as [Hs1 _].
  exists (A' ++ (d.1, d.2 + b1.2) :: l3). constructor; simpl um_mem; simpl um_brk; simpl um_freep; try done.
  - change ((base, 0) :: A' ++ (d.1, d.2 + b1.2) :: l3) with (((base, 0) :: A') ++ (d.1, d.2 + b1.2) :: l3).
    apply ring_app. split; [by apply (ring_only _ _ _ _ _ Hr Honly); auto |]. split_and!.
    + simpl. rewrite ld32_st32_ne by lia. rewrite ld32_st32. apply u32_id. unfold blk_end, HDR in *. destruct Ho3 as [_ H3%ordered_le]. unfold room, HDR in *. lia.
    + simpl. rewrite ld32_st32. by apply u32_id.
    + apply (ring_only _ _ _ _ _ Hr3 Honly). intros c Hc. apply Hl3 in Hc. unfold HDR. lia.
  - apply ordered_app. split; [exact Ho1 |]. destruct Ho3 as [_ H3].
    eapply ordered_weaken; [exact H3 | unfold room, blk_end, HDR in *; simpl; lia | done].
  - apply Forall_app. split; [done |]. constructor; [simpl; lia | done].
  - rewrite !units_app, !units_cons. simpl. change (units []) with 0. lia.
  - exists (d.1, d.2 + b1.2). split; [set_solver | done].
  - exists (d.1, d.2 + b1.2). split; [set_solver | simpl; lia].
  - rewrite !length_app. simpl. lia.
  - intros c Hc Hcb Hce e [He | [-> | He]%elem_of_cons]%elem_of_app; [apply Hce; set_solver | | apply Hce; set_solver].
    apply (apart_merge c d b1); [done | done | apply Hce; set_solver | done].
Qed.

(** It does not. *)
Lemma free_lower_link s1 A d b1 l1 l3 :
  around s1 A d b1 l1 l3 → wp (set_ptr d.1 b1.1) s1 (λ _ s2, ∃ fl, lower s1 s2 d b1 l1 l3 fl).
Proof.
  intros Har. destruct (around_d _ _ _ _ _ _ Har) as (Hrd & Hbd & HA & Hcase). destruct (around_next _ _ _ _ _ _ Har) as (Hk1 & Hfb & Hl3).
  destruct Har as [E Hb Hk Hr Hds Ho Hs Hh (Hb1s & Hb1p & Hr3) Ho3 Hpos]. pose proof (ordered_le _ _ _ Ho3) as Hle3.
  pose proof (room_hdr d) as Hd8. pose proof (room_hdr b1) as Hb18. apply list.Forall_cons in Hpos as Hpos'. destruct Hpos' as [Hb1pos Hpos3].
  unfold set_ptr. repeat wp_step.
  assert (only_hdr (um_mem s1) (st32 (um_mem s1) d.1 b1.1) d.1) as Honly by apply only_ptr.
  exists (l1 ++ b1 :: l3). unfold HDR in *. constructor; simpl um_mem; simpl um_brk; simpl um_freep; try done.
  - change ((base, 0) :: l1 ++ b1 :: l3) with (((base, 0) :: l1) ++ b1 :: l3). rewrite E, <- app_assoc.
    apply ring_app. split; [by apply (ring_only _ _ _ _ _ Hr Honly); auto |]. simpl. split_and!.
    + by rewrite ld32_st32_ne by lia.
    + rewrite ld32_st32. apply u32_id. lia.
    + by rewrite ld32_st32_ne by lia.
    + by rewrite ld32_st32_ne by lia.
    + apply (ring_only _ _ _ _ _ Hr3 Honly). intros c Hc. apply Hl3 in Hc. unfold HDR. lia.
  - apply ordered_app. split; [exact Ho |]. by destruct Ho3.
  - apply Forall_app. split; done.
  - rewrite units_app, units_cons. lia.
  - change ((base, 0) :: l1 ++ b1 :: l3) with (((base, 0) :: l1) ++ b1 :: l3). rewrite E. exists d. split; [set_solver | done].
  - exists b1. split; [set_solver | lia].
  - rewrite length_app. simpl. lia.
  - intros c Hc Hcb Hce e [He | [-> | He]%elem_of_cons]%elem_of_app; [apply Hce; set_solver | done | apply Hce; set_solver].
Qed.

Lemma free_lower s1 A d b1 l1 l3 :
  around s1 A d b1 l1 l3 →
  wp (if u32 (d.1 + HDR * d.2) =? b1.1 then
        bsz ← get_size b1.1;
        set_size d.1 (u32 (d.2 + bsz));;
        bn ← get_ptr b1.1;
        set_ptr d.1 bn
      else set_ptr d.1 b1.1) s1 (λ _ s2, ∃ fl, lower s1 s2 d b1 l1 l3 fl).
Proof.
  intros Har. destruct (Z.eqb_spec (u32 (d.1 + HDR * d.2)) b1.1); [by eapply free_lower_merge | by eapply free_lower_link].
Qed.

(** What an operation leaves: the blocks in [al] with their contents. *)
Record leaves (s s' : ust) (fl al : list block) : Prop := Leaves {
  lv_heap : heap s' fl al;
  lv_kept : kept al (um_mem s) (um_mem s');
}.

Lemma only_kept m m' a al :
  only_hdr m m' a → (∀ c, c ∈ al → blk_end c ≤ a ∨ a + HDR ≤ c.1) → kept al m m'.
Proof. intros Ho Ha c x Hc Hx. apply Ho. destruct (Ha c Hc); lia. Qed.

Lemma kept_trans al m m1 m2 : kept al m m1 → kept al m1 m2 → kept al m m2.
Proof. intros H1 H2 c x Hc Hx. by rewrite (H2 c x), (H1 c x). Qed.

Lemma kept_size al m m' c : kept al m m' → c ∈ al → 0 < c.2 → ld32 m' (c.1 + 4) = ld32 m (c.1 + 4).
Proof. intros Hk Hc Hs. apply ld32_ext. intros x Hx. apply (Hk c); [done |]. unfold blk_end, HDR. lia. Qed.

Lemma alloc_remove al1 (b : block) al2 : ForallOrdPairs apart (al1 ++ b :: al2) →
  ForallOrdPairs apart (al1 ++ al2) ∧ ∀ c, c ∈ al1 ++ al2 → apart c b.
Proof using. clear base grow.
  induction al1 as [|a al1 IH]; simpl; intros H.
  - inversion H as [|? ? Hb Hr]; subst. split; [done |]. intros c Hc. rewrite list.Forall_forall in Hb.
    destruct (Hb c Hc); [by right | by left].
  - inversion H as [|? ? Ha Hr]; subst. destruct (IH Hr) as [H1 H2]. rewrite list.Forall_forall in Ha. split.
    + constructor; [|done]. apply list.Forall_forall. intros c Hc. apply Ha. set_solver.
    + intros c [-> | Hc]%elem_of_cons; [apply Ha; set_solver | auto].
Qed.

(** Writing the headers of [b] and of the node [d] keeps the blocks in use. *)
Lemma kept_two m m1 m2 al b d l1 :
  only_hdr m m1 b.1 → only_hdr m1 m2 d.1 → 0 < b.2 → d ∈ (base, 0) :: l1 → Forall (λ c, 0 < c.2) l1 →
  (∀ c, c ∈ al → base + HDR ≤ c.1 ∧ 0 < c.2 ∧ apart c b ∧ ∀ e, e ∈ l1 → apart c e) →
  kept al m m2.
Proof.
  intros Hb Hd Hb2 Hin Hs Hal. apply (kept_trans _ _ m1).
  - apply (only_kept _ _ _ _ Hb). intros c Hc. destruct (Hal c Hc) as (_ & _ & [Hx | Hx] & _); [by left |].
    right. unfold blk_end, HDR in *. lia.
  - apply (only_kept _ _ _ _ Hd). intros c Hc. destruct (Hal c Hc) as (Hc1 & Hc2 & _ & Hce).
    apply elem_of_cons in Hin as [-> | Hin]; [right; simpl; done |].
    assert (0 < d.2) as Hd2 by (rewrite list.Forall_forall in Hs; by apply Hs).
    destruct (Hce d Hin) as [Hx | Hx]; [by left |]. right. unfold blk_end, HDR in *. lia.
Qed.

Lemma free_spec s fl al1 b al2 fuel :
  heap s fl (al1 ++ b :: al2) → (2 * length fl + 2 ≤ fuel)%nat →
  wp (free fuel (b.1 + HDR)) s (λ _ s', um_brk s' = um_brk s ∧
    ∃ fl', leaves s s' fl' (al1 ++ al2) ∧ units fl' = units fl + b.2 ∧ (∃ c, c ∈ fl' ∧ b.2 ≤ c.2) ∧
      (length fl' ≤ S (length fl))%nat).
Proof.
  intros Hh Hf. destruct (alloc_remove _ _ _ (hp_disj _ _ _ Hh)) as [Hdisj Hab].
  pose proof (hp_alloc _ _ _ Hh) as Hal. rewrite list.Forall_forall in Hal.
  destruct (Hal b) as (Hb1 & Hb2 & Hb3 & Hb4); [inlist |]. pose proof (hp_base _ _ _ Hh) as Hbase.
  pose proof (hp_brk _ _ _ Hh) as Hbrk.
  destruct (split_at _ _ _ b (hp_order _ _ _ Hh) (hp_sizes _ _ _ Hh)) as (l1 & l2 & -> & Ho1 & Ho2); try done.
  { intros c Hc. apply (hp_apart _ _ _ Hh); inlist. }
  pose proof (hp_sizes _ _ _ Hh) as [Hs1 Hs2]%Forall_app.
  assert (base < b.1) as Hbb by (unfold HDR in *; lia).
  destruct (free_find_spec s _ _ l1 l2 b.1 fuel Hh eq_refl Hbb) as (A & d & EN & Efind); [by eapply ordered_below | | done |].
  { eapply ordered_above; [exact Ho2 |]. unfold blk_end, HDR. lia. }
  pose proof (hp_ring _ _ _ Hh) as Hr. change ((base, 0) :: l1 ++ l2) with (((base, 0) :: l1) ++ l2) in Hr.
  rewrite EN, <- app_assoc in Hr. apply ring_app in Hr as [HrA (Hds & Hdp & Hr2)]. cbn [app first] in HrA, Hdp.
  unfold free. rewrite Z.add_simpl_r, u32_id by (unfold blk_end, HDR in *; lia).
  apply wp_bind, wp_gets, wp_bind. eapply wp_intro; [exact Efind |]. unfold get_size at 1, get_ptr at 1.
  apply wp_bind, wp_gets, wp_bind, wp_gets. rewrite Hb4, Hdp. apply wp_bind. eapply wp_mono.
  { by apply (free_upper s b l2). }
  intros [] s1 (b1 & l3 & [Ua Us Ur Uo Usz Uu Usub Ulen Uap Uon [Uf Uk]]).
  assert (∀ c, c ∈ A ++ [d] → c.1 + HDR ≤ b.1) as Hnodes.
  { intros c. rewrite <- EN. intros [-> | Hc]%elem_of_cons; [simpl; done |].
    apply (ordered_elem _ _ _ c Ho1) in Hc as [_ Hc]. pose proof (room_hdr c). lia. }
  assert (around s1 A d b1 l1 l3) as Har.
  { constructor; rewrite ?Ua, ?Uk; try done.
    - apply (ring_only _ _ _ _ _ HrA Uon). intros c Hc. left. apply Hnodes. inlist.
    - rewrite (only_ld _ _ _ _ Uon); [done |]. left.
      assert (d.1 + HDR ≤ b.1) by (apply Hnodes; inlist). unfold HDR in *. lia. }
  unfold get_size at 1. apply wp_bind, wp_gets. rewrite (ar_dsize _ _ _ _ _ _ Har). rewrite <- Ua.
  apply wp_bind. eapply wp_mono; [apply (free_lower s1 A d b1 l1 l3 Har) |].
  intros [] s2 (fl & [Lr Lo Ls Lu Ln Lfit Llen Lap Lon [Lf Lk]]). unfold set_freep. apply wp_modify. simpl.
  split; [congruence |]. exists fl. rewrite units_app in *. rewrite length_app in *.
  assert (∀ c, c ∈ al1 ++ al2 → 0 < c.2 ∧ apart c b ∧ ∀ e, e ∈ l1 ++ l2 → apart c e) as Hac.
  { intros c Hc. split_and!; [apply Hal; inlist | by apply Hab |].
    intros e He. apply (hp_apart _ _ _ Hh); inlist. }
  assert (kept (al1 ++ al2) (um_mem s) (um_mem s2)) as Hkept.
  { apply (kept_two (um_mem s) (um_mem s1) (um_mem s2) (al1 ++ al2) b d l1); try done; [rewrite EN; inlist |].
    intros c Hc. destruct (Hac c Hc) as (Hc2 & Hcb & Hce). destruct (Hal c) as (Hc1 & _); [inlist |].
    split_and!; [done.. |]. intros e He. apply Hce. inlist. }
  split_and!; [|lia | destruct Lfit as (c & Hc1 & Hc2); exists c; split; [done | lia] | lia].
  split; [|done]. constructor; simpl; try done.
  - by rewrite Lk, Uk, <- Uk.
  - by rewrite Lk, Uk.
  - apply list.Forall_forall. intros c Hc. destruct (Hal c) as (Hc1 & Hc2 & Hc3 & Hc4); [inlist |].
    split_and!; [done | done | by rewrite Lk, Uk |]. by rewrite (kept_size _ _ _ _ Hkept).
  - intros c e Hc He. destruct (Hac c Hc) as (Hc2 & Hcb & Hce). apply Lap; [done | | | done].
    + apply Uap; [done | done |]. intros x Hx. apply Hce. inlist.
    + intros x [Hx | Hx%Usub]%elem_of_app; apply Hce; inlist.
Qed.

(** ** Taking a block *)

Lemma ordered_join lo l1 m n l2 hi : ordered lo l1 m → ordered n l2 hi → m ≤ n → ordered lo (l1 ++ l2) hi.
Proof.
  revert lo. induction l1 as [|c l1 IH]; intros lo; simpl.
  - intros H1 H2 Hmn. eapply ordered_weaken; [exact H2 | lia | lia].
  - intros [H1 H2] H3 Hmn. split; [done | by apply IH].
Qed.

Lemma blk_room b : 0 ≤ b.2 → blk_end b ≤ room b.
Proof. unfold blk_end, room, HDR. lia. Qed.

Lemma apart_sub c x y : apart c x → x.1 ≤ y.1 → blk_end y ≤ blk_end x → apart c y.
Proof. unfold apart. lia. Qed.

(** A heap from which the tail [y] of the free block [x] is taken; [rest] is
    what remains of it. *)
Lemma heap_take s s' fl al A a pre x B rest y :
  heap s fl al → fl = pre ++ x :: B → (base, 0) :: pre = A ++ [a] →
  ring (um_mem s') ((base, 0) :: pre ++ rest ++ B) base →
  (rest = [] ∧ y = x ∨ ∃ n, 0 < n < x.2 ∧ rest = [(x.1, x.2 - n)] ∧ y = (x.1 + HDR * (x.2 - n), n)) →
  ld32 (um_mem s') (y.1 + 4) = y.2 → kept al (um_mem s) (um_mem s') → um_brk s' = um_brk s → um_freep s' = a.1 →
  heap s' (pre ++ rest ++ B) (y :: al) ∧ units (pre ++ rest ++ B) + y.2 = units fl.
Proof.
  intros Hh -> EN Hr Hy Hys Hk Ebrk Ef. destruct Hh as [H1 H2 H3 H4 H5 H6 H7 H8 H9].
  apply ordered_app in H3 as [Ho1 Ho2]. apply Forall_app in H4 as [Hs1 Hs2]. apply list.Forall_cons in Hs2 as [Hx2 Hs2].
  assert (x.1 ≤ y.1 ∧ blk_end y = blk_end x ∧ 0 < y.2) as (Hy1 & Hy2 & Hy3).
  { destruct Hy as [[-> ->] | (n & Hn & -> & ->)]; unfold blk_end, HDR; simpl; lia. }
  assert (room x = blk_end x) as Hrx by (unfold room, blk_end; rewrite Z.max_r; lia).
  pose proof (ordered_le _ _ _ Ho1) as Hle1. pose proof (ordered_le _ _ _ Ho2) as Hle2.
  assert (∀ c, c ∈ pre ++ rest ++ B → apart y c ∧ ∀ b, b ∈ al → apart b c) as Hap.
  { intros c [Hc | [Hc | Hc]%elem_of_app]%elem_of_app.
    - split; [|intros b Hb; apply H8; inlist]. right. rewrite list.Forall_forall in Hs1.
      pose proof (blk_room c ltac:(specialize (Hs1 c Hc); lia)). apply (ordered_elem _ _ _ c Ho1) in Hc as [_ Hc]. lia.
    - destruct Hy as [[-> ->] | (n & Hn & -> & ->)]; [by apply not_elem_of_nil in Hc |].
      apply list_elem_of_singleton in Hc as ->. split; [right; unfold blk_end, HDR; simpl; lia |].
      intros b Hb. apply (apart_sub b x); [apply H8; inlist | done | unfold blk_end, HDR; simpl; lia].
    - split; [|intros b Hb; apply H8; inlist]. left. apply (ordered_elem _ _ _ c Ho2) in Hc as [Hc _]. lia. }
  split.
  - constructor; rewrite ?Ebrk; try done.
    + eapply ordered_join; [exact Ho1 | | reflexivity].
      destruct Hy as [[-> ->] | (n & Hn & -> & ->)]; simpl.
      * eapply ordered_weaken; [exact Ho2 | pose proof (room_hdr x); unfold HDR in *; lia | lia].
      * split; [lia |]. eapply ordered_weaken; [exact Ho2 | unfold room, HDR in *; simpl; lia | lia].
    + apply Forall_app. split; [done |]. apply Forall_app. split; [|done].
      destruct Hy as [[-> ->] | (n & Hn & -> & ->)]; constructor; [simpl; lia | constructor].
    + exists a. split; [|done]. change (a ∈ ((base, 0) :: pre) ++ rest ++ B). rewrite EN. inlist.
    + constructor; [split_and!; [lia | done | lia | done] |]. apply list.Forall_forall. intros c Hc.
      rewrite list.Forall_forall in H7. destruct (H7 c Hc) as (G1 & G2 & G3 & G4). split_and!; [done | done | done |].
      by rewrite (kept_size _ _ _ _ Hk).
    + intros b c [-> | Hb]%elem_of_cons Hc; [exact (proj1 (Hap c Hc)) | exact (proj2 (Hap c Hc) b Hb)].
    + constructor; [|done]. apply list.Forall_forall. intros c Hc.
      destruct (H8 c x) as [Hz | Hz]; [done | inlist | right; lia | left; lia].
  - rewrite !units_app, units_cons. destruct Hy as [[-> ->] | (n & Hn & -> & ->)]; simpl; rewrite ?units_cons; simpl;
      change (units []) with 0; lia.
Qed.

Lemma nodes_before pre hi A a :
  ordered (base + HDR) pre hi → (base, 0) :: pre = A ++ [a] →
  (∀ c, c ∈ A → c.1 + HDR ≤ a.1) ∧ base ≤ a.1 ∧ (a = (base, 0) ∨ a ∈ pre).
Proof.
  intros Ho E. destruct A as [|b A]; injection E as <- ->.
  - split_and!; [by intros c ?%not_elem_of_nil | done | by left].
  - apply ordered_app in Ho as [Ho _]. pose proof (ordered_le _ _ _ Ho) as Hle. unfold HDR in *.
    split_and!; [|lia | right; inlist]. intros c [-> | Hc]%elem_of_cons; [done |].
    apply (ordered_elem _ _ _ c Ho) in Hc as [_ Hc]. pose proof (room_hdr c). unfold HDR in *. lia.
Qed.

(** Changes to headers of free blocks and of [base] keep what was handed out. *)
Lemma kept_free s fl al c m' :
  heap s fl al → c ∈ (base, 0) :: fl → only_hdr (um_mem s) m' c.1 → kept al (um_mem s) m'.
Proof.
  intros Hh Hc Ho. apply (only_kept _ _ _ _ Ho). intros b Hb. pose proof (hp_alloc _ _ _ Hh) as Hal.
  rewrite list.Forall_forall in Hal. destruct (Hal b Hb) as (Hb1 & Hb2 & _).
  apply elem_of_cons in Hc as [-> | Hc]; [by right |]. pose proof (hp_sizes _ _ _ Hh) as Hs. rewrite list.Forall_forall in Hs.
  specialize (Hs c Hc). simpl in Hs. destruct (hp_apart _ _ _ Hh b c Hb Hc) as [?|?]; [by left |].
  right. unfold blk_end, HDR in *. lia.
Qed.

Definition allocated (s : ust) (fl al : list block) (nunits r : Z) (s' : ust) : Prop :=
  HDR < r ∧ um_brk s' = um_brk s ∧ ∃ fl', heap s' fl' ((r - HDR, nunits) :: al) ∧ kept al (um_mem s) (um_mem s') ∧
    units fl' + nunits = units fl.

(** A block [x] of the free list that is big enough, and the node [a] before
    it. *)
Record taking (s : ust) (fl al A : list block) (a x : block) (B : list block) : Prop := Taking {
  tk_ring : ring (um_mem s) A a.1;
  tk_asize : ld32 (um_mem s) (a.1 + 4) = a.2;
  tk_aptr : ld32 (um_mem s) a.1 = x.1;
  tk_xsize : ld32 (um_mem s) (x.1 + 4) = x.2;
  tk_xptr : ld32 (um_mem s) x.1 = first B base;
  tk_after : ring (um_mem s) B base;
  tk_nodes : ∀ c, c ∈ A ++ [a] → c.1 + HDR ≤ x.1;
  tk_high : ∀ c, c ∈ B → room x ≤ c.1;
  tk_apart : ∀ c, c ∈ al → apart c x;
  tk_low : ∀ c, c ∈ A → c.1 + HDR ≤ a.1;
  tk_base : base ≤ a.1;
  tk_in : a ∈ (base, 0) :: fl;
  tk_ax : a.1 + HDR ≤ x.1;
  tk_room : room x = blk_end x;
  tk_le : base + HDR ≤ x.1 ∧ room x ≤ um_brk s;
}.

Lemma taking_of s fl al A a pre x B nunits :
  heap s fl al → fl = pre ++ x :: B → (base, 0) :: pre = A ++ [a] → 0 < nunits ≤ x.2 → taking s fl al A a x B.
Proof.
  intros Hh Efl EN Hn. pose proof (hp_ring _ _ _ Hh) as Hr. rewrite Efl in Hr.
  change ((base, 0) :: pre ++ x :: B) with (((base, 0) :: pre) ++ x :: B) in Hr. rewrite EN, <- app_assoc in Hr.
  apply ring_app in Hr as [HrA (Has & Hap & Hxs & Hxp & HrB)]. cbn [app first] in HrA, Hap.
  pose proof (hp_order _ _ _ Hh) as Ho. rewrite Efl in Ho. apply ordered_app in Ho as [Ho1 Ho2].
  pose proof (ordered_le _ _ _ Ho1) as Hle1. pose proof (ordered_le _ _ _ Ho2) as Hle2.
  pose proof (hp_base _ _ _ Hh) as Hb. pose proof (hp_brk _ _ _ Hh) as Hk.
  assert (room x = blk_end x) as Hrx by (unfold room, blk_end; rewrite Z.max_r; lia).
  assert (∀ c, c ∈ A ++ [a] → c.1 + HDR ≤ x.1) as Hnodes.
  { intros c. rewrite <- EN. intros [-> | Hc]%elem_of_cons; [simpl; done |].
    apply (ordered_elem _ _ _ c Ho1) in Hc as [_ Hc]. pose proof (room_hdr c). lia. }
  assert (∀ c, c ∈ B → room x ≤ c.1) as HB.
  { intros c Hc. by apply (ordered_elem _ _ _ c Ho2) in Hc as [Hc _]. }
  assert (∀ c, c ∈ al → apart c x) as Halx.
  { intros c Hc. apply (hp_apart _ _ _ Hh); [done |]. rewrite Efl. inlist. }
  destruct (nodes_before pre x.1 A a Ho1 EN) as (HAa & Hba & Hain). pose proof (room_hdr x) as Hx8.
  assert (a ∈ (base, 0) :: fl) as Hafl.
  { rewrite Efl. destruct Hain as [-> | Hain]; [by apply list_elem_of_here | inlist]. }
  assert (a.1 + HDR ≤ x.1) as Hax.
  { apply Hnodes, elem_of_app. right. by apply list_elem_of_singleton. }
  by constructor.
Qed.

(** The whole block is taken off the list. *)
Lemma malloc_whole s fl al A a pre x B nunits :
  heap s fl al → fl = pre ++ x :: B → (base, 0) :: pre = A ++ [a] → 0 < nunits ≤ x.2 → x.2 = nunits →
  wp (r ← (nxt ← get_ptr x.1; set_ptr a.1 nxt;; mret x.1);
      set_freep a.1;;
      mret (u32 (r + HDR))) s (allocated s fl al nunits).
Proof.
  intros Hh Efl EN Hn En. destruct (taking_of s fl al A a pre x B nunits Hh Efl EN Hn) as [HrA Has Hap Hxs Hxp HrB Hnodes HB Halx HAa Hba Hafl Hax Hrx [Hle1 Hle2]].
  pose proof (hp_order _ _ _ Hh) as Ho. rewrite Efl in Ho. apply ordered_app in Ho as [Ho1 Ho2].
  pose proof (hp_base _ _ _ Hh) as Hb. pose proof (hp_brk _ _ _ Hh) as Hk. pose proof (room_hdr x) as Hx8.
  unfold allocated, HDR in *. unfold get_ptr, set_ptr, set_size, set_freep.
  repeat wp_step. cbn [um_mem um_freep um_brk]. rewrite Hxp. rewrite u32_id by (unfold blk_end, HDR in *; lia).
  split_and!; [lia | done |]. exists (pre ++ [] ++ B). replace (x.1 + 8 - 8) with x.1 by lia.
  assert (only_hdr (um_mem s) (st32 (um_mem s) a.1 (first B base)) a.1) as Honly by apply only_ptr.
  assert (kept al (um_mem s) (st32 (um_mem s) a.1 (first B base))) as Hkept by (by apply (kept_free s fl al a)).
  destruct (heap_take s (Ust (st32 (um_mem s) a.1 (first B base)) a.1 (um_brk s)) fl al A a pre x B [] x)
    as [Hh' Hu]; try done; [| by left | by rewrite (only_ld _ _ _ _ Honly) by (unfold HDR; lia) |].
  - change ((base, 0) :: pre ++ [] ++ B) with (((base, 0) :: pre) ++ B). rewrite EN, <- app_assoc. simpl um_mem.
    assert (0 ≤ first B base < 2 ^ 32) as Hfb.
    { apply (first_bound s x B); [unfold HDR in *; lia.. | by split]. }
    apply ring_app. split; [apply (ring_only _ _ _ _ _ HrA Honly); intros c Hc; left; by apply HAa |]. split_and!.
    + by rewrite ld32_st32_ne by lia.
    + rewrite ld32_st32. by apply u32_id.
    + apply (ring_only _ _ _ _ _ HrB Honly). intros c Hc. apply HB in Hc. unfold blk_end, HDR in *. lia.
  - replace (x.1, nunits) with x by (rewrite <- En; by destruct x). rewrite <- En. done.
Qed.

(** The end of the block is split off. *)
Lemma malloc_split s fl al A a pre x B nunits :
  heap s fl al → fl = pre ++ x :: B → (base, 0) :: pre = A ++ [a] → 0 < nunits ≤ x.2 → x.2 ≠ nunits →
  wp (r ← (set_size x.1 (u32 (x.2 - nunits));;
           let p := u32 (x.1 + HDR * u32 (x.2 - nunits)) in
           set_size p nunits;; mret p);
      set_freep a.1;;
      mret (u32 (r + HDR))) s (allocated s fl al nunits).
Proof.
  intros Hh Efl EN Hn En. destruct (taking_of s fl al A a pre x B nunits Hh Efl EN Hn) as [HrA Has Hap Hxs Hxp HrB Hnodes HB Halx HAa Hba Hafl Hax Hrx [Hle1 Hle2]].
  pose proof (hp_order _ _ _ Hh) as Ho. rewrite Efl in Ho. apply ordered_app in Ho as [Ho1 Ho2].
  pose proof (hp_base _ _ _ Hh) as Hb. pose proof (hp_brk _ _ _ Hh) as Hk. pose proof (room_hdr x) as Hx8.
  unfold allocated, HDR in *. unfold get_ptr, set_ptr, set_size, set_freep.
  rewrite (u32_id (x.2 - nunits)) by (unfold blk_end, HDR in *; lia).
  set (y := x.1 + 8 * (x.2 - nunits)). assert (u32 y = y) as Ey by (apply u32_id; unfold y, blk_end, HDR in *; lia).
  repeat wp_step. cbn [um_mem um_freep um_brk]. rewrite Ey. rewrite u32_id by (unfold y, blk_end, HDR in *; lia).
  split_and!; [unfold y; lia | done |]. replace (y + 8 - 8) with y by lia.
  set (m' := st32 (st32 (um_mem s) (x.1 + 4) (x.2 - nunits)) (y + 4) nunits).
  assert (x.1 + 8 ≤ y ∧ y + 8 ≤ blk_end x) as [Hy1 Hy2] by (unfold y, blk_end, HDR; lia).
  assert (∀ z, z < x.1 ∨ blk_end x ≤ z → rd m' z = rd (um_mem s) z) as Hout.
  { intros z Hz. unfold m'. unfold blk_end, HDR in *. rewrite rd_st32_out by lia. apply rd_st32_out. lia. }
  assert (∀ z, z + 4 ≤ x.1 ∨ blk_end x ≤ z → ld32 m' z = ld32 (um_mem s) z) as Hld.
  { intros z Hz. apply ld32_ext. intros w Hw. apply Hout. lia. }
  exists (pre ++ [(x.1, x.2 - nunits)] ++ B).
  assert (kept al (um_mem s) m') as Hkept.
  { intros c z Hc Hz. apply Hout. destruct (Halx c Hc); lia. }
  destruct (heap_take s (Ust m' a.1 (um_brk s)) fl al A a pre x B [(x.1, x.2 - nunits)] (y, nunits))
    as [Hh' Hu]; try done; [| right; exists nunits; split_and!; [lia.. | done | done] |].
  - change ((base, 0) :: pre ++ [(x.1, x.2 - nunits)] ++ B) with (((base, 0) :: pre) ++ (x.1, x.2 - nunits) :: B).
    rewrite EN, <- app_assoc. simpl um_mem. apply ring_app. split.
    { apply (ring_frame (um_mem s)); [done |]. intros c Hc. assert (c.1 + 8 ≤ x.1) by (apply Hnodes; inlist).
      split; apply Hld; lia. }
    simpl. split_and!.
    + rewrite Hld; [done | lia].
    + rewrite Hld; [done | lia].
    + unfold m'. rewrite ld32_st32_ne by lia. rewrite ld32_st32. apply u32_id. unfold blk_end, HDR in *. lia.
    + unfold m'. rewrite ld32_st32_ne by lia. by rewrite ld32_st32_ne by lia.
    + apply (ring_frame (um_mem s)); [done |]. intros c Hc. apply HB in Hc. split; apply Hld; lia.
  - simpl. unfold m'. rewrite ld32_st32. apply u32_id. unfold blk_end, HDR in *. lia.
Qed.

Lemma malloc_take s fl al A a pre x B fuel nunits :
  heap s fl al → fl = pre ++ x :: B → (base, 0) :: pre = A ++ [a] → 0 < nunits ≤ x.2 →
  wp (malloc_loop (S fuel) nunits a.1 x.1) s (allocated s fl al nunits).
Proof.
  intros Hh Efl EN Hn. pose proof (tk_xsize _ _ _ _ _ _ _ (taking_of s fl al A a pre x B nunits Hh Efl EN Hn)) as Hxs.
  cbn [malloc_loop]. unfold get_size at 1. apply wp_bind, wp_gets. rewrite Hxs.
  destruct (Z.leb_spec nunits x.2); [|lia].
  destruct (Z.eqb_spec x.2 nunits); [by eapply malloc_whole | by eapply malloc_split].
Qed.

(** ** The search of [malloc] *)

Definition lastn (c : block) (l : list block) : block := default c (list.last l).

Lemma lastn_snoc c l : ∃ A, c :: l = A ++ [lastn c l].
Proof.
  unfold lastn. destruct l as [|x l] using rev_ind; [by exists [] |]. rewrite last_snoc. simpl. by exists (c :: l).
Qed.

Lemma lastn_cons c e l : lastn c (e :: l) = lastn e l.
Proof. unfold lastn. rewrite last_cons. by destruct (list.last l). Qed.

(** Blocks that are too small and not where the search began are skipped. *)
Lemma scan_seg s c B1 R e k nunits :
  ring (um_mem s) (c :: B1 ++ R) e → Forall (λ x, x.2 < nunits ∧ x.1 ≠ um_freep s) B1 →
  malloc_loop (length B1 + k) nunits c.1 (first (B1 ++ R) e) s = malloc_loop k nunits (lastn c B1).1 (first R e) s.
Proof.
  revert c. induction B1 as [|x B1 IH]; intros c Hr Hs; [done |].
  apply list.Forall_cons in Hs as [[Hx Hxf] Hs]. destruct Hr as (_ & _ & Hr). rewrite lastn_cons, <- (IH x Hr Hs).
  destruct Hr as (Hxs & Hxp & _). cbn [length Nat.add app first malloc_loop]. unfold get_size, get_ptr.
  unfold mbind, M_bind, gets. rewrite Hxs. destruct (Z.leb_spec nunits x.2); [lia |].
  destruct (Z.eqb_spec x.1 (um_freep s)); [done |]. by rewrite Hxp.
Qed.

(** The first block of a list that is large enough, if any. *)
Lemma first_fit nunits (l : list block) :
  Forall (λ x, x.2 < nunits) l ∨ ∃ l1 x l2, l = l1 ++ x :: l2 ∧ Forall (λ x, x.2 < nunits) l1 ∧ nunits ≤ x.2.
Proof.
  induction l as [|c l IH]; [by left; constructor |]. destruct (Z.lt_ge_cases c.2 nunits) as [Hc|Hc].
  - destruct IH as [IH | (l1 & x & l2 & -> & H1 & H2)]; [left; by constructor |].
    right. exists (c :: l1), x, l2. split_and!; [done | by constructor | done].
  - right. exists [], c, l. split_and!; [done | constructor | done].
Qed.

Lemma first_prefix (A C1 C2 : list block) f x : A ++ [f] = C1 ++ x :: C2 → C1 ⊆ A.
Proof.
  destruct C2 as [|z C2 _] using rev_ind; intros E.
  - apply app_inj_tail in E as [-> _]. done.
  - change (x :: C2 ++ [z]) with ((x :: C2) ++ [z]) in E. rewrite app_assoc in E. apply app_inj_tail in E as [-> _].
    intros y Hy. apply elem_of_app. by left.
Qed.

Lemma node_parts A f B fl :
  (base, 0) :: fl = A ++ f :: B → ∃ pre, (base, 0) :: pre = A ++ [f] ∧ fl = pre ++ B.
Proof. intros E. destruct A as [|a A]; injection E as <- ->; [by exists [] |]. exists (A ++ [f]). by rewrite <- app_assoc. Qed.

(** The search from the block [f] behind which it began: it stops at a block
    that fits, or comes back to [f]. *)
Lemma malloc_scan s fl al A f B nunits k :
  heap s fl al → (base, 0) :: fl = A ++ f :: B → um_freep s = f.1 → 0 < nunits →
  let p := first B base in
  wp (malloc_loop (length fl + 1 + S k) nunits f.1 p) s (allocated s fl al nunits) ∨
  (Forall (λ x, x.2 < nunits) fl ∧ ∃ j prev, (k ≤ j)%nat ∧
    malloc_loop (length fl + 1 + S k) nunits f.1 p s = malloc_loop (S j) nunits prev f.1 s).
Proof.
  intros Hh EN Ef Hn. simpl. destruct (node_parts _ _ _ _ EN) as (pre & Epre & Efl).
  pose proof (hp_ring _ _ _ Hh) as Hr. rewrite EN in Hr. pose proof (heap_order _ _ _ Hh) as Ho. rewrite EN in Ho.
  apply ordered_app in Ho as [HoA HoB]. apply ring_app in Hr as [HrA HrB]. cbn [first] in HrA.
  pose proof (room_hdr f) as Hf8. unfold HDR in Hf8.
  assert (∀ x, x ∈ B → x.1 ≠ um_freep s) as HBf.
  { intros x Hx. apply (ordered_elem _ _ _ x HoB) in Hx as [Hx _]. lia. }
  assert (∀ x, x ∈ A → x.1 ≠ um_freep s) as HAf.
  { intros x Hx. apply (ordered_elem _ _ _ x HoA) in Hx as [_ Hx]. pose proof (room_hdr x). unfold HDR in *. lia. }
  assert (length fl + 1 = length A + 1 + length B)%nat as Hlen.
  { apply (f_equal length) in EN. rewrite length_app in EN. simpl in EN. lia. }
  assert (∀ l, Forall (λ x : block, x.2 < nunits) l → (∀ x, x ∈ l → x.1 ≠ um_freep s) →
    Forall (λ x, x.2 < nunits ∧ x.1 ≠ um_freep s) l) as Hboth.
  { intros l H1 H2. rewrite list.Forall_forall in H1 |- *. auto. }
  destruct (first_fit nunits B) as [HB | (B1 & x & B2 & -> & HB1 & Hx)].
  2:{ left. rewrite length_app in Hlen. simpl in Hlen.
      replace (length fl + 1 + S k)%nat with (length B1 + S (length A + 1 + length B2 + S k))%nat by lia.
      unfold wp. rewrite (scan_seg s f B1 (x :: B2)); [|done | apply Hboth; [done |]; intros y Hy; apply HBf; inlist].
      destruct (lastn_snoc f B1) as [A1 EA1].
      eapply (malloc_take s fl al (A ++ A1) (lastn f B1) (pre ++ B1) x B2); [done | by rewrite Efl, <- app_assoc | | lia].
      rewrite <- app_assoc, <- EA1. change ((base, 0) :: pre ++ B1) with (((base, 0) :: pre) ++ B1).
      by rewrite Epre, <- app_assoc. }
  replace (length fl + 1 + S k)%nat with (length B + (length A + 1 + S k))%nat by lia.
  assert (malloc_loop (length B + (length A + 1 + S k)) nunits f.1 (first B base) s =
    malloc_loop (length A + 1 + S k) nunits (lastn f B).1 base s) as Escan.
  { rewrite <- (app_nil_r B) at 2. apply (scan_seg s f B []); [by rewrite app_nil_r | by apply Hboth]. }
  destruct A as [|a A].
  { injection EN as <- <-. right. split; [done |]. exists (S k), (lastn (base, 0) fl).1. split; [lia |]. exact Escan. }
  injection EN as <- Efl'. subst fl. destruct HrA as (Hbs & Hbp & HrA). simpl in Hbs, Hbp.
  assert (malloc_loop (length A + 2 + S k) nunits (lastn f B).1 base s =
    malloc_loop (length A + 1 + S k) nunits base (first (A ++ [f]) base) s) as Estep.
  { replace (length A + 2 + S k)%nat with (S (length A + 1 + S k)) by lia. cbn [malloc_loop].
    unfold get_size, get_ptr, mbind, M_bind, gets. rewrite Hbs. destruct (Z.leb_spec nunits 0); [lia |].
    destruct (Z.eqb_spec base (um_freep s)) as [E|]; [by destruct (HAf (base, 0)); [inlist |] |].
    rewrite Hbp. by destruct A. }
  assert (ring (um_mem s) ((base, 0) :: A ++ f :: B) base) as HrAll by exact (hp_ring _ _ _ Hh).
  destruct (first_fit nunits (A ++ [f])) as [HA | (C1 & x & C2 & EC & HC1 & Hx)].
  - right. apply Forall_app in HA as [HA Hfn]. split; [apply Forall_app; split; [done |]; apply list.Forall_cons in Hfn as [? _]; by constructor |].
    exists (S k), (lastn (base, 0) A).1. split; [lia |].
    replace (length B + (length ((base, 0%Z) :: A) + 1 + S k))%nat with (length B + (length A + 2 + S k))%nat by (simpl; lia).
    change (length ((base, 0) :: A)) with (S (length A)) in Escan.
    replace (S (length A) + 1 + S k)%nat with (length A + 2 + S k)%nat in Escan by lia.
    rewrite Escan, Estep. rewrite <- Nat.add_assoc.
    assert (first (A ++ [f]) base = first (A ++ f :: B) base) as -> by (by destruct A).
    apply (scan_seg s (base, 0) A (f :: B) base (S (S k))); [done |]. apply Hboth; [done |].
    intros y Hy. apply HAf. inlist.
  - left. change (length ((base, 0) :: A)) with (S (length A)) in *.
    replace (S (length A) + 1 + S k)%nat with (length A + 2 + S k)%nat in * by lia.
    unfold wp. rewrite Escan, Estep.
    assert (length C1 ≤ length A)%nat as HlC.
    { apply (f_equal length) in EC. rewrite !length_app in EC. simpl in EC. lia. }
    assert (A ++ f :: B = C1 ++ x :: C2 ++ B) as EAll.
    { change (f :: B) with ([f] ++ B). rewrite app_assoc, EC, <- app_assoc. done. }
    replace (length A + 1 + S k)%nat with (length C1 + S (length A - length C1 + S k))%nat by lia.
    assert (first (A ++ [f]) base = first (C1 ++ x :: C2 ++ B) base) as ->.
    { rewrite EC. by destruct C1. }
    rewrite (scan_seg s (base, 0) C1 (x :: C2 ++ B) base); [|by rewrite <- EAll | apply Hboth; [done |]].
    + destruct (lastn_snoc (base, 0) C1) as [A1 EA1].
      eapply (malloc_take s _ al A1 (lastn (base, 0) C1) C1 x (C2 ++ B)); [done | done | done | lia].
    + intros y Hy. apply HAf, elem_of_cons. right. apply (first_prefix _ _ _ _ _ EC). done.
Qed.

(** ** [malloc] *)

(** The kernel keeps the break of a process below [KERNBASE]. *)
Context (grow_ok : ∀ b n, grow b n = true → b + n < 2 ^ 32).

Lemma heap_grow s fl al nu :
  heap s fl al → 0 < nu → um_brk s + HDR * nu < 2 ^ 32 →
  let m1 := st32 (um_mem s) (um_brk s + 4) nu in
  heap (Ust m1 (um_freep s) (um_brk s + HDR * nu)) fl ((um_brk s, nu) :: al) ∧ kept al (um_mem s) m1.
Proof using base grow.
  intros Hh Hnu Hlim m1. pose proof (ordered_le _ _ _ (hp_order _ _ _ Hh)) as Hle. pose proof (hp_base _ _ _ Hh) as Hb.
  assert (∀ x, x < um_brk s → rd m1 x = rd (um_mem s) x) as Hrd by (intros x Hx; apply rd_st32_out; lia).
  pose proof (hp_alloc _ _ _ Hh) as Hal. rewrite list.Forall_forall in Hal. unfold HDR in *.
  assert (kept al (um_mem s) m1) as Hk.
  { intros c x Hc Hx. apply Hrd. destruct (Hal c Hc) as (_ & _ & Hc3 & _). lia. }
  assert (∀ c, c ∈ (base, 0) :: fl → c.1 + 8 ≤ um_brk s) as Hn.
  { intros c [-> | Hc]%elem_of_cons; [simpl; lia |]. apply (ordered_elem _ _ _ c (hp_order _ _ _ Hh)) in Hc as [_ Hc].
    pose proof (room_hdr c). unfold HDR in *. lia. }
  split; [|done]. destruct Hh as [H1 H2 H3 H4 H5 H6 H7 H8 H9]. constructor; simpl um_mem; simpl um_brk; try done.
  - apply (ring_frame (um_mem s)); [done |]. intros c Hc. apply Hn in Hc. split; apply ld32_ext; intros x Hx; apply Hrd; lia.
  - eapply ordered_weaken; [exact H3 | lia | unfold HDR; lia].
  - constructor; [unfold blk_end, HDR; simpl; split_and!; [lia | lia | lia |] |].
    + unfold m1. rewrite ld32_st32. apply u32_id. lia.
    + apply list.Forall_forall. intros c Hc. destruct (Hal c Hc) as (G1 & G2 & G3 & G4). split_and!; [done | done | unfold HDR; lia |].
      by rewrite (kept_size _ _ _ _ Hk).
  - intros c e [-> | Hc]%elem_of_cons He; [|by apply H8]. right. rewrite list.Forall_forall in H4.
    pose proof (blk_room e ltac:(specialize (H4 e He); lia)). apply (ordered_elem _ _ _ e H3) in He as [_ He]. simpl. lia.
  - constructor; [|done]. apply list.Forall_forall. intros c Hc. right. destruct (Hal c Hc) as (_ & _ & Hc3 & _). simpl. lia.
Qed.

Lemma morecore_spec s fl al nunits fuel :
  heap s fl al → 0 < nunits < 2 ^ 28 → (2 * length fl + 2 ≤ fuel)%nat →
  wp (morecore fuel nunits) s (λ r s', r = 0 ∧ s' = s ∨ ∃ fl',
    r = um_freep s' ∧ r ≠ 0 ∧ leaves s s' fl' al ∧ (∃ c, c ∈ fl' ∧ nunits ≤ c.2) ∧ (length fl' ≤ S (length fl))%nat ∧
    HDR * units fl' = HDR * units fl + (um_brk s' - um_brk s)).
Proof using All.
  intros Hh Hn Hf. unfold morecore. set (nu := if nunits <? 4096 then 4096 else nunits).
  assert (nunits ≤ nu < 2 ^ 28) as Hnu by (unfold nu; destruct (Z.ltb_spec nunits 4096); lia).
  unfold HDR in *. rewrite u32_id by lia. apply wp_bind. unfold sbrk, wp at 1.
  assert (s32 (nu * 8) = nu * 8) as Es.
  { unfold s32. rewrite u32_id by lia. destruct (Z.ltb_spec (nu * 8) (2 ^ 31)); lia. }
  rewrite Es. destruct (Z.ltb_spec (nu * 8) 0); [lia |].
  destruct (grow (um_brk s) (nu * 8)) eqn:Eg; [|by left].
  apply grow_ok in Eg. destruct (heap_grow s fl al nu Hh) as [Hh1 Hk1]; [lia | unfold HDR; lia |]. unfold HDR in *.
  replace (nu * 8) with (8 * nu) in * by lia.
  pose proof (ordered_le _ _ _ (hp_order _ _ _ Hh)) as Hle. pose proof (hp_base _ _ _ Hh) as Hb. unfold HDR in Hle.
  destruct (Z.eqb_spec (um_brk s) (-1)); [lia |]. unfold set_size. apply wp_bind, wp_modify. cbn [um_mem um_freep um_brk].
  apply wp_bind. eapply wp_mono; [apply (free_spec _ fl [] (um_brk s, nu) al); [exact Hh1 | done] |].
  intros [] s2 (Ek & fl' & [Hh2 Hk2] & Hu & (c & Hc1 & Hc2) & Hl). simpl in Ek, Hk2, Hc2. apply wp_gets. right. exists fl'.
  split_and!; [done | | split; [done |] | exists c; split; [done | lia] | done | simpl in Hu; lia].
  - destruct (hp_freep _ _ _ Hh2) as (x & Hx & ->). apply elem_of_cons in Hx as [-> | Hx]; [simpl; lia |].
    apply (ordered_elem _ _ _ x (hp_order _ _ _ Hh2)) in Hx as [Hx _]. unfold HDR in *. lia.
  - by apply (kept_trans _ _ _ _ Hk1).
Qed.

(** The heap before the first call, and after. *)
Definition ready (s : ust) (fl al : list block) : Prop :=
  heap s fl al ∨ (um_freep s = 0 ∧ fl = [] ∧ al = [] ∧ 0 < base ∧ base + HDR ≤ um_brk s < 2 ^ 32).

(** A block of [nunits] units at [r], apart from all others. *)
Definition got (s : ust) (fl al : list block) (nunits r : Z) (s' : ust) : Prop :=
  HDR < r ∧ ∃ fl', heap s' fl' ((r - HDR, nunits) :: al) ∧ kept al (um_mem s) (um_mem s') ∧
    HDR * (units fl' + nunits) = HDR * units fl + (um_brk s' - um_brk s).

Lemma loop_spec s fl al A f B nunits k :
  heap s fl al → (base, 0) :: fl = A ++ f :: B → um_freep s = f.1 → 0 < nunits < 2 ^ 28 → (2 * length fl + 4 ≤ k)%nat →
  wp (malloc_loop (length fl + 1 + S k) nunits f.1 (first B base)) s (λ r s',
    r = 0 ∧ s' = s ∨ got s fl al nunits r s').
Proof using All.
  intros Hh EN Ef Hn Hk. destruct (malloc_scan s fl al A f B nunits k) as [Hw | (Hno & j & prev & Hj & E)]; try done; try lia.
  { eapply wp_mono; [exact Hw |]. intros r s' (Hr & Ek & fl' & H1 & H2 & H3). right. split; [done |]. exists fl'.
    split_and!; [done | done |]. rewrite Ek. unfold HDR. lia. }
  unfold wp. rewrite E. change (wp (malloc_loop (S j) nunits prev f.1) s (λ r s', r = 0 ∧ s' = s ∨ got s fl al nunits r s')).
  cbn [malloc_loop]. unfold get_size at 1. apply wp_bind, wp_gets.
  pose proof (hp_ring _ _ _ Hh) as Hr. rewrite EN in Hr. apply ring_app in Hr as [_ (Hfs & _)]. rewrite Hfs.
  assert (f.2 < nunits) as Hfn.
  { destruct (node_parts _ _ _ _ EN) as (pre & Epre & ->). rewrite list.Forall_forall in Hno.
    destruct A as [|a A]; injection Epre as <-; [simpl; lia |]. subst pre. apply Hno.
    apply elem_of_app. left. apply elem_of_app. right. by apply list_elem_of_singleton. }
  destruct (Z.leb_spec nunits f.2); [lia |]. apply wp_bind, wp_gets. rewrite Ef, Z.eqb_refl.
  apply wp_bind. eapply wp_mono; [apply (morecore_spec s fl al nunits (S j) Hh); [lia | lia] |].
  intros r s1 [[-> ->] | (fl' & -> & Hr0 & [Hh1 Hk1] & (c & Hc1 & Hc2) & Hl & Hu)]; [by apply wp_ret; left |].
  apply Z.eqb_neq in Hr0. rewrite Hr0. apply Z.eqb_neq in Hr0.
  destruct (hp_freep _ _ _ Hh1) as (f1 & (A1 & B1 & EN1)%list_elem_of_split & Ef1).
  pose proof (hp_ring _ _ _ Hh1) as Hr1. rewrite EN1 in Hr1. apply ring_app in Hr1 as [_ (_ & Hf1p & _)].
  unfold get_ptr. apply wp_bind, wp_gets. rewrite Ef1, Hf1p.
  destruct (malloc_scan s1 fl' al A1 f1 B1 nunits (j - length fl' - 2)) as [Hw | (Hno1 & _)]; try done; try lia.
  - replace (length fl' + 1 + S (j - length fl' - 2))%nat with j in Hw by lia.
    eapply wp_mono; [exact Hw |]. intros r s' (Hr2 & Ek & fl2 & H1 & H2 & H3). right. split; [done |]. exists fl2.
    split_and!; [done | by apply (kept_trans _ _ _ _ Hk1) |]. rewrite Ek. unfold HDR in *. lia.
  - rewrite list.Forall_forall in Hno1. specialize (Hno1 c Hc1). simpl in Hno1. lia.
Qed.

(** [malloc] returns 0 and changes nothing handed out, or a new block with
    room for [nbytes]. *)
Lemma malloc_spec s fl al nbytes fuel :
  ready s fl al → 0 ≤ nbytes < 2 ^ 31 - 16 → (3 * length fl + 6 ≤ fuel)%nat →
  wp (malloc fuel nbytes) s (λ r s', (r = 0 ∧ heap s' fl al ∧ kept al (um_mem s) (um_mem s')) ∨
    ∃ n, nbytes ≤ HDR * n - HDR < nbytes + HDR ∧ got s fl al n r s').
Proof using All.
  intros Hrd Hn Hf. unfold malloc, HDR in *. rewrite (u32_id (nbytes + 8 - 1)) by lia.
  set (nunits := u32 ((nbytes + 8 - 1) / 8 + 1)).
  assert (nunits = (nbytes + 7) / 8 + 1) as En.
  { unfold nunits. replace (nbytes + 8 - 1) with (nbytes + 7) by lia. apply u32_id. zdiv. }
  assert (nbytes ≤ 8 * nunits - 8 < nbytes + 8) as Hnb by (rewrite En; zdiv).
  assert (0 < nunits < 2 ^ 28) as Hnu by lia. clearbody nunits. clear En.
  assert (∀ s0, heap s0 fl al → kept al (um_mem s) (um_mem s0) → um_brk s0 = um_brk s →
    wp (prevp ← gets um_freep; p ← get_ptr prevp; malloc_loop fuel nunits prevp p) s0
      (λ r s', (r = 0 ∧ heap s' fl al ∧ kept al (um_mem s) (um_mem s')) ∨
        ∃ n, nbytes ≤ 8 * n - 8 < nbytes + 8 ∧ got s fl al n r s')) as Hgo.
  { intros s0 Hh Hk0 Ek. apply wp_bind, wp_gets.
    destruct (hp_freep _ _ _ Hh) as (f & (A & B & EN)%list_elem_of_split & Ef).
    pose proof (hp_ring _ _ _ Hh) as Hr. rewrite EN in Hr. apply ring_app in Hr as [_ (_ & Hfp & _)].
    unfold get_ptr. apply wp_bind, wp_gets. rewrite Ef, Hfp.
    replace fuel with (length fl + 1 + S (fuel - length fl - 2))%nat by lia.
    eapply wp_mono; [apply (loop_spec s0 fl al A f B nunits); [done | done | done | done | lia] |].
    intros r s' [[-> ->] | (Hr8 & fl' & H1 & H2 & H3)]; [by left |]. right. exists nunits. split; [done |].
    split; [done |]. exists fl'. split_and!; [done | by apply (kept_trans _ _ _ _ Hk0) | by rewrite <- Ek]. }
  apply wp_bind, wp_gets. apply wp_bind. destruct Hrd as [Hh | (Ef & -> & -> & Hb & Hb8)].
  - destruct (Z.eqb_spec (um_freep s) 0) as [E0|].
    { exfalso. destruct (hp_freep _ _ _ Hh) as (x & Hx & E). pose proof (hp_base _ _ _ Hh).
      apply elem_of_cons in Hx as [-> | Hx]; [simpl in E; lia |].
      apply (ordered_elem _ _ _ x (hp_order _ _ _ Hh)) in Hx as [Hx _]. unfold HDR in *. lia. }
    apply wp_ret. by apply Hgo.
  - rewrite Ef. cbn [Z.eqb]. unfold set_ptr, set_freep, set_size. repeat (apply wp_bind, wp_modify). apply wp_modify.
    cbn [um_mem um_freep um_brk]. apply Hgo; [|by intros c x ?%not_elem_of_nil | done].
    constructor; simpl; try done; try lia.
    + split_and!; [rewrite ld32_st32; done | | done]. rewrite ld32_st32_ne by lia. rewrite ld32_st32. apply u32_id. unfold HDR in *. lia.
    + exists (base, 0). split; [by apply list_elem_of_here | done].
    + by intros b c ?%not_elem_of_nil.
    + constructor.
Qed.
End Umalloc.
