(* ===== verification/UmallocProps.v ===== *)
(** * A program that uses the allocator

    A program calls [malloc] and [free] and stores bytes in the objects it was
    given, in any order.  Its objects stay apart, inside the memory of the
    process, and keep the bytes stored in them.  Every loop of the allocator
    walks the free list, whose blocks have at least 8 bytes each: 2^31 rounds
    are more than enough. *)

From S2P Require Import Prelude Mmu Mem Umalloc.

(** What the program knows of an object: its address and the bytes it stored. *)
Record object : Type := Object {
  ob_ptr : Z;
  ob_data : list (option Z);
}.

Inductive uop : Type :=
  | UMalloc (n : Z)
  | UFree (i : nat)
  | UStore (i o : nat) (v : Z).

Definition uop_ok (o : uop) : Prop :=
  match o with
  | UMalloc n => 0 ≤ n < 2 ^ 31 - 16
  | _ => True
  end.

Section Client.
Context (base : Z) (grow : Z → Z → bool).

Definition ustep (fuel : nat) (op : uop) (live : list object) : M ust (list object) :=
  match op with
  | UMalloc n =>
    p ← malloc base grow fuel n;
    mret (if p =? 0 then live else Object p (replicate (Z.to_nat n) None) :: live)
  | UFree i =>
    match live !! i with
    | Some x => free fuel (ob_ptr x);; mret (delete i live)
    | None => mret live
    end
  | UStore i o v =>
    match live !! i with
    | Some x =>
      if bool_decide (o < length (ob_data x))%nat then
        modify (λ s, Ust (wr (um_mem s) (ob_ptr x + Z.of_nat o) v) (um_freep s) (um_brk s));;
        mret (<[i := Object (ob_ptr x) (<[o := Some (u8 v)]> (ob_data x))]> live)
      else mret live
    | None => mret live
    end
  end.

Fixpoint urun (fuel : nat) (ops : list uop) (live : list object) : M ust (list object) :=
  match ops with
  | [] => mret live
  | op :: ops => live ← ustep fuel op live; urun fuel ops live
  end.

(** ** What the program sees *)

Definition object_size (x : object) : Z := Z.of_nat (length (ob_data x)).

Definition objects_apart (x y : object) : Prop :=
  ob_ptr x + object_size x ≤ ob_ptr y ∨ ob_ptr y + object_size y ≤ ob_ptr x.

Definition stored (s : ust) (x : object) : Prop :=
  ∀ o v, ob_data x !! o = Some (Some v) → rd (um_mem s) (ob_ptr x + Z.of_nat o) = v.

Record live_ok (s : ust) (live : list object) : Prop := LiveOk {
  lv_stored : Forall (stored s) live;
  lv_inside : Forall (λ x, base + HDR < ob_ptr x ∧ ob_ptr x + object_size x ≤ um_brk s) live;
  lv_apart : ForallOrdPairs objects_apart live;
}.

(** ** The blocks behind the objects *)

Record backs (s : ust) (b : Z * Z) (x : object) : Prop := Backs {
  bk_ptr : ob_ptr x = b.1 + HDR;
  bk_size : object_size x ≤ HDR * b.2 - HDR;
  bk_data : stored s x;
}.

Definition inv (s : ust) (live : list object) : Prop :=
  ∃ fl al, ready base s fl al ∧ Forall2 (backs s) al live.

Lemma backs_kept s s' al live : kept al (um_mem s) (um_mem s') → Forall2 (backs s) al live → Forall2 (backs s') al live.
Proof.
  intros Hk Hf. induction Hf as [|b x al live [H1 H2 H3] Hf IH]; constructor.
  - constructor; try done. intros o v Ho. rewrite <- (H3 o v Ho). apply (Hk b); [by left |].
    apply lookup_lt_Some in Ho. unfold object_size, blk_end, HDR in *. lia.
  - apply IH. intros c a Hc. apply Hk. by right.
Qed.

(** There are never many free blocks. *)
Lemma ordered_length lo l hi : ordered lo l hi → lo + HDR * Z.of_nat (length l) ≤ hi.
Proof.
  revert lo. induction l as [|b l IH]; intros lo; simpl; [lia |]. intros [H1 H2%IH]. pose proof (room_hdr b).
  unfold HDR in *. lia.
Qed.

Lemma ready_length s fl al : ready base s fl al → Z.of_nat (length fl) < 2 ^ 29.
Proof.
  intros [Hh | (_ & -> & _)]; [|simpl; lia]. pose proof (ordered_length _ _ _ (hp_order _ _ _ _ Hh)).
  pose proof (hp_base _ _ _ _ Hh). pose proof (hp_brk _ _ _ _ Hh). unfold HDR in *. lia.
Qed.

(** A store in an allocated block does not touch the headers. *)
Lemma heap_store s fl al b a v :
  heap base s fl al → b ∈ al → b.1 + HDR ≤ a < blk_end b →
  heap base (Ust (wr (um_mem s) a v) (um_freep s) (um_brk s)) fl al.
Proof.
  intros Hh Hb Ha. pose proof Hh as [H1 H2 H3 H4 H5 H6 H7 H8 H9]. rewrite list.Forall_forall in H7.
  destruct (H7 b Hb) as (B1 & B2 & B3 & B4). constructor; try done; simpl um_mem.
  - apply (ring_frame (um_mem s)); [done |]. intros c Hc.
    assert (c.1 + HDR ≤ b.1 ∨ blk_end b ≤ c.1) as Hcb.
    { apply elem_of_cons in Hc as [-> | Hc]; [by left |]. rewrite list.Forall_forall in H4. specialize (H4 c Hc). simpl in H4.
      destruct (H8 b c Hb Hc) as [?|?]; [by right | left]. unfold blk_end, HDR in *. lia. }
    split; apply ld32_ext; intros x Hx; apply rd_wr_ne; unfold HDR in *; lia.
  - apply list.Forall_forall. intros c Hc. destruct (H7 c Hc) as (C1 & C2 & C3 & C4). split_and!; try done.
    rewrite <- C4. apply ld32_ext. intros x Hx. apply rd_wr_ne. unfold HDR in *.
    destruct (decide (c = b)) as [->|Hne]; [lia |].
    enough (apart b c) as [?|?] by (unfold blk_end, HDR in *; lia).
    destruct (list_elem_of_split _ _ Hb) as (al1 & al2 & ->).
    destruct (alloc_remove _ _ _ H9) as [_ Hab]. destruct (Hab c); [|by right | by left]. set_solver.
Qed.

(** ** Each step *)

Context (grow_ok : ∀ b n, grow b n = true → b + n < 2 ^ 32).

Lemma malloc_step fuel n live s :
  inv s live → 0 ≤ n < 2 ^ 31 - 16 → 2 ^ 31 ≤ Z.of_nat fuel → wp (ustep fuel (UMalloc n) live) s (λ live' s', inv s' live').
Proof using All.
  intros (fl & al & Hr & Hb) Hn Hf. pose proof (ready_length _ _ _ Hr) as Hl. simpl. apply wp_bind.
  eapply wp_mono; [apply (malloc_spec base grow grow_ok s fl al n fuel Hr Hn); lia |].
  intros r s' [(-> & Hh & Hk) | (k & Hk & Hr8 & fl' & Hh & Hkept & _)]; apply wp_ret.
  - exists fl, al. split; [by left | by eapply backs_kept].
  - unfold HDR in *. destruct (Z.eqb_spec r 0); [lia |]. exists fl', ((r - 8, k) :: al). split; [by left |].
    constructor; [|by eapply backs_kept]. constructor; simpl.
    + unfold HDR. lia.
    + unfold object_size. simpl. rewrite length_replicate. unfold HDR. lia.
    + intros o v Ho. simpl in Ho. apply lookup_replicate in Ho as [Ho _]. done.
Qed.

(** The block behind an object. *)
Lemma inv_lookup s live i x :
  inv s live → live !! i = Some x →
  ∃ fl al1 b al2, heap base s fl (al1 ++ b :: al2) ∧ backs s b x ∧ Forall2 (backs s) al1 (take i live) ∧
    Forall2 (backs s) al2 (drop (S i) live).
Proof using.
  clear grow_ok.
  intros (fl & al & Hr & Hb) Hi. rewrite <- (take_drop_middle live i x Hi) in Hb.
  apply Forall2_app_inv_r in Hb as (al1 & al2 & Hb1 & Hb2 & ->). inversion Hb2 as [|b ? al2' ? Hbx Hb2']; subst.
  exists fl, al1, b, al2'. split_and!; try done. destruct Hr as [|(_ & _ & E & _)]; [done |]. by destruct al1.
Qed.

Lemma free_step fuel i live s :
  inv s live → 2 ^ 31 ≤ Z.of_nat fuel → wp (ustep fuel (UFree i) live) s (λ live' s', inv s' live').
Proof using grow.
  clear grow_ok.
  intros Hi Hf. simpl. destruct (live !! i) as [x|] eqn:Ex; [|by apply wp_ret].
  destruct (inv_lookup s live i x Hi Ex) as (fl & al1 & b & al2 & Hh & Hb & Hb1 & Hb2).
  pose proof (ready_length s fl _ (or_introl Hh)) as Hl. rewrite (bk_ptr _ _ _ Hb). apply wp_bind.
  eapply wp_mono; [apply (free_spec base grow s fl al1 b al2 fuel Hh); lia |].
  intros [] s' (_ & fl' & [Hh' Hk] & _). apply wp_ret. exists fl', (al1 ++ al2). split; [by left |].
  rewrite delete_take_drop. eapply backs_kept; [done |]. by apply Forall2_app.
Qed.

Lemma store_step fuel i o v live s :
  inv s live → wp (ustep fuel (UStore i o v) live) s (λ live' s', inv s' live').
Proof using.
  clear grow_ok.
  intros Hi. simpl. destruct (live !! i) as [x|] eqn:Ex; [|by apply wp_ret].
  case_bool_decide as Ho; [|by apply wp_ret].
  destruct (inv_lookup s live i x Hi Ex) as (fl & al1 & b & al2 & Hh & [P1 P2 P3] & Hb1 & Hb2).
  assert (b.1 + HDR ≤ ob_ptr x + Z.of_nat o < blk_end b) as Ha.
  { unfold object_size, blk_end, HDR in *. lia. }
  apply wp_bind, wp_modify, wp_ret. exists fl, (al1 ++ b :: al2). split; [left; apply (heap_store s fl _ b); [exact Hh | set_solver | exact Ha] |].
  assert (i < length live)%nat as Hlt by (by eapply lookup_lt_Some).
  destruct (alloc_remove _ _ _ (hp_disj _ _ _ _ Hh)) as [_ Hab].
  assert (∀ al' l, Forall2 (backs s) al' l → (∀ c, c ∈ al' → apart c b) →
    Forall2 (backs (Ust (wr (um_mem s) (ob_ptr x + Z.of_nat o) v) (um_freep s) (um_brk s))) al' l) as Hfr.
  { intros al' l Hf Hc. eapply backs_kept; [|exact Hf]. intros c a Hc' Ha'. simpl. apply rd_wr_ne.
    destruct (Hc c Hc'); unfold blk_end, HDR in *; lia. }
  rewrite insert_take_drop by done. apply Forall2_app; [apply Hfr; [done | set_solver] |].
  constructor; [|apply Hfr; [done | set_solver]]. constructor; simpl.
  - done.
  - unfold object_size. simpl. by rewrite length_insert.
  - intros o' v' Ho'. simpl in *. rewrite rd_wr. destruct (decide (o' = o)) as [->|Hne].
    + rewrite list_lookup_insert_eq in Ho' by done. simplify_eq. by rewrite Z.eqb_refl.
    + rewrite list_lookup_insert_ne in Ho' by done. destruct (Z.eqb_spec (ob_ptr x + Z.of_nat o') (ob_ptr x + Z.of_nat o)); [lia |].
      by apply P3.
Qed.

Lemma urun_inv fuel ops live s :
  inv s live → Forall uop_ok ops → 2 ^ 31 ≤ Z.of_nat fuel → wp (urun fuel ops live) s (λ live' s', inv s' live').
Proof using All.
  intros Hi Ho Hf. revert live s Hi. induction Ho as [|op ops Hop Ho IH]; intros live s Hi; cbn [urun]; [by apply wp_ret |].
  apply wp_bind. assert (wp (ustep fuel op live) s (λ live' s', inv s' live')) as Hop'.
  { destruct op; [by apply malloc_step | by apply free_step | by apply store_step]. }
  eapply wp_mono; [exact Hop' |]. intros live' s' Hi'. by apply IH.
Qed.

Lemma inv_live s live : inv s live → live_ok s live.
Proof using.
  clear grow_ok.
  intros (fl & al & Hr & Hb). destruct Hr as [Hh | (_ & -> & -> & _)].
  2:{ inversion Hb. by repeat constructor. }
  pose proof (hp_alloc _ _ _ _ Hh) as Hal. pose proof (hp_disj _ _ _ _ Hh) as Hd. clear Hh.
  induction Hb as [|b x al live [P1 P2 P3] Hb IH]; [by repeat constructor |].
  apply list.Forall_cons in Hal as [(A1 & A2 & A3 & _) Hal]. inversion Hd as [|? ? Hbd Hd']; subst.
  destruct (IH Hal Hd') as [I1 I2 I3]. split.
  - by constructor.
  - constructor; [|done]. unfold blk_end, HDR in *. lia.
  - constructor; [|done]. clear - Hb Hbd P1 P2. induction Hb as [|c y al live [Q1 Q2 _] Hb IH]; [constructor |].
    apply list.Forall_cons in Hbd as [Hc Hbd]. constructor; [|by apply IH].
    unfold objects_apart. destruct Hc; unfold blk_end, HDR in *; [left | right]; lia.
Qed.
End Client.

(** C10. The allocator serves any program that asks for less than 2^31 - 16 bytes
    at a time: in a fresh process, whatever the sequence of calls of [malloc]
    for so many bytes, of [free] for objects in use, and of stores inside the
    objects, no call gets stuck, the objects in use lie inside the memory of the
    process and do not overlap, and each holds the bytes that were stored in
    it.  [grow] is the kernel's answer to [sbrk]; it keeps the process below
    4 gigabytes. *)
Theorem malloc_free_correct base grow (grow_ok : ∀ b n, grow b n = true → b + n < 2 ^ 32) fuel ops s :
  um_freep s = 0 → 0 < base → base + HDR ≤ um_brk s < 2 ^ 32 → Forall uop_ok ops → 2 ^ 31 ≤ Z.of_nat fuel →
  ∃ live s', urun base grow fuel ops [] s = Ok (live, s') ∧ live_ok base s' live.
Proof.
  intros H1 H2 H3 Ho Hf. assert (inv base s []) as Hi by (exists [], []; split; [by right | constructor]).
  pose proof (urun_inv base grow grow_ok fuel ops [] s Hi Ho Hf) as (live & s' & E & Hi')%wp_iff.
  exists live, s'. split; [done |]. by apply inv_live.
Qed.

(** A request of nearly 2^32 bytes is served as one of no bytes: the number of
    units is computed in 32 bits and wraps around. *)
Theorem malloc_wraps base grow fuel n : 2 ^ 32 - 7 ≤ n < 2 ^ 32 → malloc base grow fuel n = malloc base grow fuel 0.
Proof.
  intros Hn. unfold malloc. assert (u32 (n + HDR - 1) / HDR = 0) as ->; [|done].
  assert (u32 (n + HDR - 1) = n + 7 - 2 ^ 32) as -> by (unfold u32, HDR; zdiv). unfold HDR. zdiv.
Qed.

Definition grow_to_kernbase (b n : Z) : bool := b + n <? KERNBASE.

Lemma malloc_free_correct_witness :
  ∃ live s', urun 4096 grow_to_kernbase (Z.to_nat (2 ^ 31))
      [UMalloc 10; UMalloc 100; UStore 0 99 7; UFree 1; UMalloc 33000; UStore 0 0 5] [] (Ust ∅ 0 8192) = Ok (live, s') ∧
    live_ok 4096 s' live.
Proof.
  apply (malloc_free_correct 4096 grow_to_kernbase).
  - unfold grow_to_kernbase, KERNBASE. intros b n E. lia.
  - done.
  - lia.
  - unfold HDR. simpl. lia.
  - repeat constructor; simpl; lia.
  - rewrite Z2Nat.id; lia.
Defined.
