(* ===== verification/Ide.v ===== *)
(** * The IDE disk driver ([ide.c])

    The disk is reached through ports; [IdeDevice] is what the processor can
    do with them.  Buffers are the array [id_bufs] and a pointer to one is its
    index; the queue of requests is linked through [id_qnext].  The code runs
    with [idelock] held, which is not part of this state.

    [iderw] is in two parts: what it does before it sleeps ([iderw_start]) and
    the test it makes when it is woken ([iderw_done]).  [iderw_wait] is its
    loop when the interrupt is the only thing that can happen meanwhile. *)

From S2P Require Import Prelude Mmu Bytes Disk.

Definition SECTOR_SIZE : Z := 512.
Definition IDE_BSY : Z := 0x80.
Definition IDE_DRDY : Z := 0x40.
Definition IDE_DF : Z := 0x20.
Definition IDE_ERR : Z := 0x01.
Definition IDE_CMD_READ : Z := 0x20.
Definition IDE_CMD_WRITE : Z := 0x30.
Definition IDE_CMD_RDMUL : Z := 0xc4.
Definition IDE_CMD_WRMUL : Z := 0xc5.

(** Port instructions; [insl] and [outsl] move [n] words as bytes. *)
Class IdeDevice (V : Type) := {
  dv_inb : Z → V → Z * V;
  dv_outb : Z → Z → V → V;
  dv_insl : Z → nat → V → list Z * V;
  dv_outsl : Z → list Z → V → V;
}.

Record ide (V : Type) : Type := Ide {
  id_bufs : list buf;
  id_qnext : list (option nat);
  id_queue : option nat;
  id_disk1 : bool;
  id_woken : list nat;
  id_dev : V;
}.
Arguments Ide {V} _ _ _ _ _ _.
Arguments id_bufs {V} _.
Arguments id_qnext {V} _.
Arguments id_queue {V} _.
Arguments id_disk1 {V} _.
Arguments id_woken {V} _.
Arguments id_dev {V} _.

Section Ide.
Context {V : Type} `{IdeDevice V}.

Definition set_dev (v : V) (s : ide V) : ide V := Ide (id_bufs s) (id_qnext s) (id_queue s) (id_disk1 s) (id_woken s) v.
Definition set_bufs (l : list buf) (s : ide V) : ide V := Ide l (id_qnext s) (id_queue s) (id_disk1 s) (id_woken s) (id_dev s).
Definition set_qnext (l : list (option nat)) (s : ide V) : ide V := Ide (id_bufs s) l (id_queue s) (id_disk1 s) (id_woken s) (id_dev s).
Definition set_queue (q : option nat) (s : ide V) : ide V := Ide (id_bufs s) (id_qnext s) q (id_disk1 s) (id_woken s) (id_dev s).

Definition inb (port : Z) : M (ide V) Z := λ s, let '(x, v) := dv_inb port (id_dev s) in Ok (x, set_dev v s).
Definition outb (port x : Z) : M (ide V) unit := modify (λ s, set_dev (dv_outb port x (id_dev s)) s).
Definition insl (port : Z) (n : nat) : M (ide V) (list Z) := λ s,
  let '(x, v) := dv_insl port n (id_dev s) in Ok (x, set_dev v s).
Definition outsl (port : Z) (x : list Z) : M (ide V) unit := modify (λ s, set_dev (dv_outsl port x (id_dev s)) s).

Definition get_buf (b : nat) : M (ide V) buf := λ s,
  match id_bufs s !! b with Some x => Ok (x, s) | None => Err EUndef end.
Definition upd_buf (b : nat) (f : buf → buf) : M (ide V) unit :=
  x ← get_buf b; modify (λ s, set_bufs (<[b := f x]> (id_bufs s)) s).
Definition get_qnext (b : nat) : M (ide V) (option nat) := λ s,
  match id_qnext s !! b with Some x => Ok (x, s) | None => Err EUndef end.

(** [wakeup(b)]: the channels woken, the last one first. *)
Definition ide_wakeup (b : nat) : M (ide V) unit :=
  modify (λ s, Ide (id_bufs s) (id_qnext s) (id_queue s) (id_disk1 s) (b :: id_woken s) (id_dev s)).

(** Polls the status, at most [fuel] times. *)
Fixpoint idewait (fuel : nat) (checkerr : bool) : M (ide V) Z :=
  match fuel with
  | O => raise EFuel
  | S fuel =>
    r ← inb 0x1f7;
    if Z.land r (Z.lor IDE_BSY IDE_DRDY) =? IDE_DRDY then
      mret (if checkerr && nz (Z.land r (Z.lor IDE_DF IDE_ERR)) then -1 else 0)
    else idewait fuel checkerr
  end.

(** Is disk 1 present? At most [n] looks. *)
Fixpoint probe (n : nat) : M (ide V) unit :=
  match n with
  | O => mret tt
  | S n =>
    r ← inb 0x1f7;
    if nz r then modify (λ s, Ide (id_bufs s) (id_qnext s) (id_queue s) true (id_woken s) (id_dev s)) else probe n
  end.

(** The lock and the I/O APIC are not part of this state. *)
Definition ideinit (fuel : nat) : M (ide V) unit :=
  idewait fuel false;;
  outb 0x1f6 (Z.lor 0xe0 (Z.shiftl 1 4));;
  probe 1000;;
  outb 0x1f6 (Z.lor 0xe0 (Z.shiftl 0 4)).

Definition idestart (fuel : nat) (b : option nat) : M (ide V) unit :=
  match b with
  | None => panic "idestart"
  | Some b =>
    x ← get_buf b;
    if FSSIZE <=? b_blockno x then panic "incorrect blockno" else
    let sector_per_block := BSIZE / SECTOR_SIZE in
    let sector := b_blockno x * sector_per_block in
    let read_cmd := if sector_per_block =? 1 then IDE_CMD_READ else IDE_CMD_RDMUL in
    let write_cmd := if sector_per_block =? 1 then IDE_CMD_WRITE else IDE_CMD_WRMUL in
    if 7 <? sector_per_block then panic "idestart" else
    idewait fuel false;;
    outb 0x3f6 0;;
    outb 0x1f2 sector_per_block;;
    outb 0x1f3 (Z.land sector 0xff);;
    outb 0x1f4 (Z.land (Z.shiftr sector 8) 0xff);;
    outb 0x1f5 (Z.land (Z.shiftr sector 16) 0xff);;
    outb 0x1f6 (Z.lor (Z.lor 0xe0 (Z.shiftl (Z.land (b_dev x) 1) 4)) (Z.land (Z.shiftr sector 24) 0x0f));;
    if b_dirty x then
      outb 0x1f7 write_cmd;;
      outsl 0x1f0 (b_data x)
    else
      outb 0x1f7 read_cmd
  end.

Definition ideintr (fuel : nat) : M (ide V) unit :=
  q ← gets id_queue;
  match q with
  | None => mret tt
  | Some b =>
    nx ← get_qnext b;
    modify (set_queue nx);;
    x ← get_buf b;
    (if negb (b_dirty x) then
       r ← idewait fuel true;
       if 0 <=? r then d ← insl 0x1f0 (Z.to_nat (BSIZE / 4)); upd_buf b (set_data d) else mret tt
     else mret tt);;
    upd_buf b (set_flags true false);;
    ide_wakeup b;;
    match nx with
    | Some _ => idestart fuel nx
    | None => mret tt
    end
  end.

(** The end of the queue: the request after which there is none. *)
Fixpoint queue_end (fuel : nat) (b : nat) : M (ide V) nat :=
  match fuel with
  | O => raise EFuel
  | S fuel =>
    nx ← get_qnext b;
    match nx with
    | None => mret b
    | Some c => queue_end fuel c
    end
  end.

(** [iderw] up to its first test of the flags. *)
Definition iderw_start (fuel : nat) (pid : Z) (b : nat) : M (ide V) unit :=
  x ← get_buf b;
  if negb (holdingsleep pid (b_lock x)) then panic "iderw: buf not locked" else
  if b_valid x && negb (b_dirty x) then panic "iderw: nothing to do" else
  d1 ← gets id_disk1;
  if negb (b_dev x =? 0) && negb d1 then panic "iderw: ide disk 1 not present" else
  get_qnext b;;
  modify (λ s, set_qnext (<[b := None]> (id_qnext s)) s);;
  q ← gets id_queue;
  match q with
  | None => modify (set_queue (Some b))
  | Some h =>
    n ← gets (λ s, length (id_qnext s));
    e ← queue_end n h;
    modify (λ s, set_qnext (<[e := Some b]> (id_qnext s)) s)
  end;;
  q ← gets id_queue;
  if bool_decide (q = Some b) then idestart fuel q else mret tt.

(** The test of the loop: the buffer is valid and clean. *)
Definition iderw_done (b : nat) : M (ide V) bool :=
  x ← get_buf b; mret (b_valid x && negb (b_dirty x)).

(** [while(...) sleep(b, &idelock)] when nothing but interrupts happens; at
    most [n] of them. *)
Fixpoint iderw_wait (fuel n : nat) (b : nat) : M (ide V) unit :=
  d ← iderw_done b;
  if d : bool then mret tt
  else match n with
       | O => raise EBlock
       | S n => ideintr fuel;; iderw_wait fuel n b
       end.
End Ide.
