(* ===== verification/IdeSpec.v ===== *)
(** * What the IDE driver guarantees ([ide.c])

    [IdeLaws] is the documented behaviour of the disk on its ports; [sim] is a
    simple disk that has it.  [good] is the invariant of the driver: the queue
    is linked, its requests are sound, and the disk works on the first one.
    Requests are served in order, one for each interrupt, and a process that
    runs alone sees a disk that reads and writes blocks ([DiskLaws]). *)

From S2P Require Import Prelude Mmu Bytes Disk Ide.

(** The drive and sector that the registers name, in LBA mode. *)
Definition reg_drive (r6 : Z) : Z := r6 / 16 mod 2.
Definition reg_lba (r3 r4 r5 r6 : Z) : Z := r3 + 2 ^ 8 * r4 + 2 ^ 16 * r5 + 2 ^ 24 * (r6 mod 16).

Section Select.
Context {V : Type} `{IdeDevice V}.
(** Interrupts on, one sector, and its address. *)
Definition select (r3 r4 r5 r6 : Z) (v : V) : V :=
  dv_outb 0x1f6 r6 (dv_outb 0x1f5 r5 (dv_outb 0x1f4 r4 (dv_outb 0x1f3 r3 (dv_outb 0x1f2 1 (dv_outb 0x3f6 0 v))))).
End Select.

Definition byte_reg (r : Z) : Prop := 0 ≤ r < 256.

(** What the driver is verified against, an ideal disk: it becomes ready after
    a bounded number of status reads, never reports an error, takes the data of
    a write right after the command (the driver does not wait for the data
    request bit), and has a read sector at the data port once it is ready. *)
Class IdeLaws (V : Type) `{IdeDevice V} := {
  dv_wf : V → Prop;
  (** contents of a sector of a drive *)
  dv_disk : V → Z → Z → list Z;
  (** the sector at the data port *)
  dv_avail : V → option (Z * Z);
  (** status reads until the disk is ready, and a bound on them *)
  dv_busy : V → nat;
  dv_polls : nat;
  busy_law v : dv_wf v → (dv_busy v ≤ dv_polls)%nat;
  poll_law v : dv_wf v →
    let '(r, v') := dv_inb 0x1f7 v in
    dv_wf v' ∧ dv_disk v' = dv_disk v ∧ dv_avail v' = dv_avail v ∧
    match dv_busy v with
    | O => Z.land r (Z.lor IDE_BSY IDE_DRDY) = IDE_DRDY ∧ Z.land r (Z.lor IDE_DF IDE_ERR) = 0 ∧ dv_busy v' = O
    | S n => Z.land r (Z.lor IDE_BSY IDE_DRDY) ≠ IDE_DRDY ∧ (dv_busy v' ≤ n)%nat
    end;
  read_law v r3 r4 r5 r6 : dv_wf v → dv_busy v = O → byte_reg r3 → byte_reg r4 → byte_reg r5 → r6 / 32 = 7 →
    let v' := dv_outb 0x1f7 IDE_CMD_READ (select r3 r4 r5 r6 v) in
    dv_wf v' ∧ dv_disk v' = dv_disk v ∧ dv_avail v' = Some (reg_drive r6, reg_lba r3 r4 r5 r6);
  write_law v r3 r4 r5 r6 x : dv_wf v → dv_busy v = O → byte_reg r3 → byte_reg r4 → byte_reg r5 → r6 / 32 = 7 →
    length x = bsize →
    let v' := dv_outsl 0x1f0 x (dv_outb 0x1f7 IDE_CMD_WRITE (select r3 r4 r5 r6 v)) in
    dv_wf v' ∧ ∀ d n, dv_disk v' d n =
      if (d =? reg_drive r6) && (n =? reg_lba r3 r4 r5 r6) then x else dv_disk v d n;
  data_law v d n : dv_wf v → dv_busy v = O → dv_avail v = Some (d, n) →
    ∃ v', dv_insl 0x1f0 128 v = (dv_disk v d n, v') ∧ dv_wf v' ∧ dv_disk v' = dv_disk v;
  disk_length v d n : dv_wf v → length (dv_disk v d n) = bsize;
}.

(** ** A disk *)

Record sim : Type := Sim {
  sim_r3 : Z;
  sim_r4 : Z;
  sim_r5 : Z;
  sim_r6 : Z;
  sim_busy : nat;
  sim_read : option (Z * Z);
  sim_write : option (Z * Z);
  sim_disk : Z → Z → list Z;
}.

Definition sim_addr (v : sim) : Z * Z := (reg_drive (sim_r6 v), reg_lba (sim_r3 v) (sim_r4 v) (sim_r5 v) (sim_r6 v)).

Definition sim_outb (port x : Z) (v : sim) : sim :=
  let '(Sim r3 r4 r5 r6 k rd wr dk) := v in
  if port =? 0x1f3 then Sim x r4 r5 r6 k rd wr dk
  else if port =? 0x1f4 then Sim r3 x r5 r6 k rd wr dk
  else if port =? 0x1f5 then Sim r3 r4 x r6 k rd wr dk
  else if port =? 0x1f6 then Sim r3 r4 r5 x k rd wr dk
  else if port =? 0x1f7 then
    if x =? IDE_CMD_READ then Sim r3 r4 r5 r6 2 (Some (sim_addr v)) wr dk
    else if x =? IDE_CMD_WRITE then Sim r3 r4 r5 r6 k rd (Some (sim_addr v)) dk
    else v
  else v.

Definition sim_inb (port : Z) (v : sim) : Z * sim :=
  let '(Sim r3 r4 r5 r6 k rd wr dk) := v in
  if port =? 0x1f7 then
    match k with
    | O => (IDE_DRDY, v)
    | S k => (IDE_BSY, Sim r3 r4 r5 r6 k rd wr dk)
    end
  else (0, v).

Definition sim_insl (port : Z) (n : nat) (v : sim) : list Z * sim :=
  match sim_read v with
  | Some (d, k) => (take (4 * n) (sim_disk v d k), v)
  | None => (replicate (4 * n) 0, v)
  end.

Definition sim_outsl (port : Z) (x : list Z) (v : sim) : sim :=
  let '(Sim r3 r4 r5 r6 k rd wr dk) := v in
  match wr with
  | Some (d, n) => Sim r3 r4 r5 r6 2 rd None (λ d' n', if (d' =? d) && (n' =? n) then x else dk d' n')
  | None => v
  end.

#[export] Instance sim_device : IdeDevice sim := {
  dv_inb := sim_inb;
  dv_outb := sim_outb;
  dv_insl := sim_insl;
  dv_outsl := sim_outsl;
}.

#[export, refine] Instance sim_laws : IdeLaws sim := {
  dv_wf := λ v, (sim_busy v ≤ 2)%nat ∧ ∀ d n, length (sim_disk v d n) = bsize;
  dv_disk := sim_disk;
  dv_avail := sim_read;
  dv_busy := sim_busy;
  dv_polls := 2;
}.
Proof.
  - tauto.
  - intros [r3 r4 r5 r6 [|k] rd wr dk] [Hb Hd]; simpl in *; split_and!; try done; lia.
  - intros [r3' r4' r5' r6' k rd wr dk] r3 r4 r5 r6 [Hb Hd] _ _ _ _ _. simpl in *. split_and!; try done.
  - intros [r3' r4' r5' r6' k rd wr dk] r3 r4 r5 r6 x [Hb Hd] _ _ _ _ _ Hx. simpl in *. split_and!; try done.
    intros d n. by destruct (_ && _).
  - intros [r3' r4' r5' r6' k rd wr dk] d n [Hb Hd] _. simpl in *. intros ->. eexists. split.
    + unfold sim_insl. simpl. f_equal. apply take_ge. rewrite Hd. unfold bsize, BSIZE. lia.
    + done.
  - intros v d n [_ Hd]. apply Hd.
Defined.

(** ** Requests *)

Record req_ok (x : buf) : Prop := ReqOk {
  rq_todo : b_valid x && negb (b_dirty x) = false;
  rq_dev : b_dev x = 0 ∨ b_dev x = 1;
  rq_block : 0 ≤ b_blockno x < FSSIZE;
  rq_data : b_dirty x = true → length (b_data x) = bsize;
}.

Definition contents : Type := Z → Z → list Z.

(** The disk and the buffer after a request. *)
Definition next_disk (dsk : contents) (x : buf) : contents := λ d n,
  if b_dirty x && (d =? b_dev x) && (n =? b_blockno x) then b_data x else dsk d n.
Definition served (dsk : contents) (x : buf) : buf :=
  set_flags true false (if b_dirty x then x else set_data (dsk (b_dev x) (b_blockno x)) x).

(** The queue from [h] on. *)
Fixpoint qchain (qn : list (option nat)) (h : option nat) (q : list nat) : Prop :=
  match q with
  | [] => h = None
  | x :: q => h = Some x ∧ ∃ nx, qn !! x = Some nx ∧ qchain qn nx q
  end.

Section Driver.
Context {V : Type} `{IdeLaws V}.

(** The disk works on the request [x]. *)
Record started (x : buf) (dsk : contents) (v : V) : Prop := Started {
  sd_disk : ∀ d n, dv_disk v d n = next_disk dsk x d n;
  sd_avail : b_dirty x = false → dv_avail v = Some (b_dev x, b_blockno x);
}.

Record good (s : ide V) (q : list nat) (dsk : contents) : Prop := Good {
  gd_chain : qchain (id_qnext s) (id_queue s) q;
  gd_nodup : NoDup q;
  gd_len : length (id_qnext s) = length (id_bufs s);
  gd_req : ∀ b, b ∈ q → ∃ x, id_bufs s !! b = Some x ∧ req_ok x;
  gd_wf : dv_wf (id_dev s);
  gd_head : match q with
            | [] => ∀ d n, dv_disk (id_dev s) d n = dsk d n
            | h :: _ => ∀ x, id_bufs s !! h = Some x → started x dsk (id_dev s)
            end;
}.

(** ** The steps of the driver *)

Lemma set_dev_dev (v w : V) s : set_dev v (set_dev w s) = set_dev v s.
Proof. done. Qed.

Lemma idewait_spec fuel chk (s : ide V) :
  dv_wf (id_dev s) → (dv_busy (id_dev s) < fuel)%nat →
  wp (idewait fuel chk) s (λ r s', r = 0 ∧ ∃ v, s' = set_dev v s ∧ dv_wf v ∧ dv_busy v = O ∧
    dv_disk v = dv_disk (id_dev s) ∧ dv_avail v = dv_avail (id_dev s)).
Proof.
  revert s. induction fuel as [|fuel IH]; intros s Hw Hf; [lia |]. cbn [idewait]. apply wp_bind.
  unfold wp at 1, inb. pose proof (poll_law (id_dev s) Hw) as Hp. destruct (dv_inb 0x1f7 (id_dev s)) as [r v].
  destruct Hp as (Hw' & Hd & Ha & Hb). destruct (dv_busy (id_dev s)) as [|n] eqn:En.
  - destruct Hb as (-> & -> & Hb). rewrite Z.eqb_refl. change (nz 0) with false. rewrite andb_false_r.
    apply wp_ret. split; [done |]. exists v. by split_and!.
  - destruct Hb as [Hne Hb]. destruct (Z.eqb_spec (Z.land r (Z.lor IDE_BSY IDE_DRDY)) IDE_DRDY); [done |].
    eapply wp_mono; [apply IH; [done | simpl; lia] |]. intros r' s' (-> & v' & -> & H1 & H2 & H3 & H4).
    split; [done |]. exists v'. simpl in *. split_and!; try done; congruence.
Qed.

(** The bytes of the sector number and the drive in the registers. *)
Lemma registers n d :
  0 ≤ n < FSSIZE → d = 0 ∨ d = 1 →
  let r3 := Z.land n 0xff in
  let r4 := Z.land (Z.shiftr n 8) 0xff in
  let r5 := Z.land (Z.shiftr n 16) 0xff in
  let r6 := Z.lor (Z.lor 0xe0 (Z.shiftl (Z.land d 1) 4)) (Z.land (Z.shiftr n 24) 0x0f) in
  byte_reg r3 ∧ byte_reg r4 ∧ byte_reg r5 ∧ r6 / 32 = 7 ∧ reg_drive r6 = d ∧ reg_lba r3 r4 r5 r6 = n.
Proof.
  intros Hn Hd. unfold FSSIZE in Hn.
  assert (Z.shiftr n 24 = 0) as -> by (rewrite Z.shiftr_div_pow2 by lia; apply Z.div_small; lia).
  assert (∀ x, Z.land x 0xff = x mod 256) as Hff by (intros x; apply (land_ones_mod x 8); lia).
  rewrite !Hff, !Z.shiftr_div_pow2 by lia. unfold byte_reg, reg_lba. split_and!; [zdiv.. | | |].
  - by destruct Hd as [-> | ->].
  - by destruct Hd as [-> | ->].
  - assert (Z.lor (Z.lor 0xe0 (Z.shiftl (Z.land d 1) 4)) (Z.land 0 0x0f) mod 16 = 0) as -> by (by destruct Hd as [-> | ->]). zdiv.
Qed.

Lemma idestart_spec fuel (s : ide V) b x :
  dv_wf (id_dev s) → (dv_polls < fuel)%nat → id_bufs s !! b = Some x → req_ok x →
  wp (idestart fuel (Some b)) s (λ _ s', ∃ v, s' = set_dev v s ∧ dv_wf v ∧ started x (dv_disk (id_dev s)) v).
Proof.
  intros Hw Hf Hb [Ht Hd Hbl Hl]. unfold idestart. apply wp_bind. unfold get_buf, wp at 1. rewrite Hb.
  destruct (Z.leb_spec FSSIZE (b_blockno x)); [lia |]. change (BSIZE / SECTOR_SIZE) with 1. cbv zeta. cbn [Z.eqb Z.ltb Z.compare].
  rewrite Z.mul_1_r. pose proof (busy_law _ Hw) as Hbusy. apply wp_bind. eapply wp_mono; [apply idewait_spec; [done | lia] |].
  intros r s1 (_ & v & -> & Hw1 & Hb1 & Hd1 & Ha1).
  destruct (registers (b_blockno x) (b_dev x) Hbl Hd) as (R3 & R4 & R5 & R6 & Ed & El).
  unfold outb, outsl. do 6 (apply wp_bind, wp_modify). cbn [id_dev set_dev].
  destruct (b_dirty x) eqn:Edirty.
  - apply wp_bind, wp_modify, wp_modify. cbn [id_dev set_dev]. destruct (write_law v _ _ _ _ (b_data x) Hw1 Hb1 R3 R4 R5 R6 (Hl eq_refl)) as [Hw2 Hd2].
    eexists. split; [done |]. split; [exact Hw2 |]. constructor; [|by rewrite Edirty].
    intros d n. etransitivity; [apply Hd2 |]. rewrite Ed, El, Hd1. unfold next_disk. by rewrite Edirty.
  - apply wp_modify. cbn [id_dev set_dev]. destruct (read_law v _ _ _ _ Hw1 Hb1 R3 R4 R5 R6) as (Hw2 & Hd2 & Ha2).
    eexists. split; [done |]. split; [exact Hw2 |]. rewrite Ed, El in Ha2. constructor; [|done].
    intros d n. unfold next_disk. rewrite Edirty. simpl. rewrite <- Hd1. by rewrite <- Hd2.
Qed.

Lemma started_ext x dsk dsk' v : started x dsk v → (∀ d n, dsk d n = dsk' d n) → started x dsk' v.
Proof. intros [H1 H2] He. constructor; [|done]. intros d n. rewrite H1. unfold next_disk. by rewrite He. Qed.

(** ** The queue *)

Lemma qchain_out qn h q b v : b ∉ q → qchain qn h q → qchain (<[b := v]> qn) h q.
Proof.
  revert h. induction q as [|a q IH]; intros h Hb; simpl; [done |]. apply not_elem_of_cons in Hb as [Hne Hb].
  intros (-> & nx & Hl & Hq). split; [done |]. exists nx. rewrite list_lookup_insert_ne by done. auto.
Qed.

Lemma qchain_snoc qn h q e b :
  qchain qn h (q ++ [e]) → NoDup (q ++ [e]) → b ∉ q ++ [e] → (b < length qn)%nat → qn !! b = Some None →
  qchain (<[e := Some b]> qn) h (q ++ [e; b]).
Proof.
  revert h. induction q as [|a q IH]; intros h; simpl.
  - intros (-> & nx & Hl & ->) _ Hb Hlt Hbn. assert (b ≠ e) by set_solver. split; [done |]. exists (Some b).
    split; [by eapply list_lookup_insert_eq, lookup_lt_Some |]. split; [done |]. exists None.
    by rewrite list_lookup_insert_ne.
  - intros (-> & nx & Hl & Hq) [Hn Hd]%list.NoDup_cons [Hba Hb]%not_elem_of_cons Hlt Hbn. split; [done |]. exists nx.
    split; [|by apply IH]. rewrite list_lookup_insert_ne; [done |]. intros ->. apply Hn. set_solver.
Qed.

Lemma queue_end_spec fuel (s : ide V) q e h :
  qchain (id_qnext s) (Some h) (q ++ [e]) → (length q < fuel)%nat → queue_end fuel h s = Ok (e, s).
Proof.
  revert fuel h. induction q as [|a q IH]; intros [|fuel] h; simpl; intros Hq Hf; try lia.
  - destruct Hq as ([= ->] & nx & Hl & ->). erewrite bind_ok by (unfold get_qnext; by rewrite Hl). done.
  - destruct Hq as ([= ->] & nx & Hl & Hq). erewrite bind_ok by (unfold get_qnext; by rewrite Hl).
    destruct nx as [c|]; [apply IH; [done | lia] |]. by destruct q; destruct Hq.
Qed.

(** ** The interrupt handler *)

(** The data of a finished read goes to the buffer. *)
Lemma fetch_spec fuel (s : ide V) b x dsk :
  dv_wf (id_dev s) → (dv_polls < fuel)%nat → id_bufs s !! b = Some x → started x dsk (id_dev s) →
  wp (if negb (b_dirty x) then
        r ← idewait fuel true;
        if 0 <=? r then d ← insl 0x1f0 (Z.to_nat (BSIZE / 4)); upd_buf b (set_data d) else mret tt
      else mret tt) s
    (λ _ s', ∃ v, s' = set_dev v (set_bufs (<[b := if b_dirty x then x else set_data (dsk (b_dev x) (b_blockno x)) x]> (id_bufs s)) s) ∧
      dv_wf v ∧ ∀ d n, dv_disk v d n = next_disk dsk x d n).
Proof.
  intros Hw Hf Hb [Hd Ha]. destruct (b_dirty x) eqn:Ex; simpl.
  { apply wp_ret. exists (id_dev s). rewrite list_insert_id by done. by destruct s. }
  apply wp_bind. pose proof (busy_law _ Hw). eapply wp_mono; [apply idewait_spec; [done | lia] |].
  intros r s1 (-> & v & -> & Hw1 & Hb1 & Hd1 & Ha1). simpl. rewrite (Ha eq_refl) in Ha1.
  destruct (data_law v _ _ Hw1 Hb1 Ha1) as (v' & E & Hw' & Hd'). apply wp_bind.
  eapply wp_intro; [unfold insl; change (Z.to_nat (BSIZE / 4)) with 128%nat; cbn [id_dev set_dev]; by rewrite E |].
  unfold upd_buf. apply wp_bind. eapply wp_intro; [unfold get_buf; simpl; by rewrite Hb |].
  apply wp_modify. exists v'. split; [|split; [done |]].
  - simpl. rewrite Hd1, Hd. unfold next_disk. by rewrite Ex.
  - intros d n. by rewrite Hd', Hd1, Hd.
Qed.

Lemma ideintr_idle fuel (s : ide V) dsk : good s [] dsk → ideintr fuel s = Ok (tt, s).
Proof. intros [Hc _ _ _ _ _]. unfold ideintr. simpl in Hc. erewrite bind_ok by reflexivity. by rewrite Hc. Qed.

(** An interrupt serves the first request and starts the next one. *)
Lemma ideintr_spec fuel (s : ide V) b q dsk x :
  good s (b :: q) dsk → id_bufs s !! b = Some x → (dv_polls < fuel)%nat →
  wp (ideintr fuel) s (λ _ s', good s' q (next_disk dsk x) ∧ id_bufs s' = <[b := served dsk x]> (id_bufs s) ∧
    id_woken s' = b :: id_woken s ∧ id_disk1 s' = id_disk1 s).
Proof.
  intros [(Eq & nx & Hnx & Hc) [Hnin Hnd]%list.NoDup_cons Hlen Hreq Hwf Hhead] Hb Hf.
  pose proof (lookup_lt_Some _ _ _ Hb) as Hlt.
  unfold ideintr. apply wp_bind, wp_gets. rewrite Eq. apply wp_bind. eapply wp_intro; [unfold get_qnext; by rewrite Hnx |].
  apply wp_bind, wp_modify, wp_bind. eapply wp_intro; [unfold get_buf; simpl; by rewrite Hb |].
  apply wp_bind. eapply wp_mono; [apply (fetch_spec fuel (set_queue nx s) b x dsk); try done; by apply Hhead |].
  intros [] s1 (v & -> & Hw1 & Hd1). apply wp_bind. unfold upd_buf. apply wp_bind.
  eapply wp_intro; [unfold get_buf; simpl; by rewrite list_lookup_insert_eq |]. apply wp_modify.
  cbn [id_bufs id_dev id_queue id_qnext id_woken id_disk1 set_bufs set_dev set_queue].
  rewrite list_insert_insert_eq. change (set_flags true false _) with (served dsk x).
  apply wp_bind, wp_modify. cbn [id_bufs id_dev id_queue id_qnext id_woken id_disk1 set_bufs set_dev set_queue].
  assert (∀ c, c ∈ q → ∃ y, <[b := served dsk x]> (id_bufs s) !! c = Some y ∧ req_ok y) as Hreq'.
  { intros c Hcq. rewrite list_lookup_insert_ne by (intros ->; done). apply Hreq. by right. }
  destruct q as [|c q]; simpl in Hc.
  - subst nx. apply wp_ret. split_and!; try done. constructor; simpl; try done. by rewrite length_insert.
  - destruct Hc as (-> & nx' & Hc & Hq). destruct (Hreq' c) as (y & Hy & Hry); [by left |].
    eapply wp_mono; [by apply (idestart_spec fuel _ c y) |].
    intros [] s2 (v' & -> & Hw2 & Hst). split_and!; try done. constructor; simpl; try done.
    + split; [done |]. by exists nx'.
    + by rewrite length_insert.
    + intros z Hz. rewrite Hy in Hz. simplify_eq. by eapply started_ext.
Qed.

(** ** A request *)

Lemma NoDup_bound (q : list nat) n : NoDup q → (∀ b, b ∈ q → (b < n)%nat) → (length q ≤ n)%nat.
Proof.
  intros Hd Hb. rewrite <- (length_seq n 0). apply submseteq_length, NoDup_submseteq; [done |].
  intros b Hq. apply elem_of_seq. specialize (Hb b Hq). lia.
Qed.

Lemma iderw_start_spec fuel (s : ide V) q dsk pid b x :
  good s q dsk → b ∉ q → id_bufs s !! b = Some x → req_ok x → holdingsleep pid (b_lock x) = true →
  b_dev x = 0 ∨ id_disk1 s = true → (dv_polls < fuel)%nat →
  wp (iderw_start fuel pid b) s (λ _ s', good s' (q ++ [b]) dsk ∧ id_bufs s' = id_bufs s ∧
    id_woken s' = id_woken s ∧ id_disk1 s' = id_disk1 s).
Proof.
  intros [Hc Hnd Hlen Hreq Hwf Hhead] Hbq Hb Hx Hh Hd1 Hf. pose proof (lookup_lt_Some _ _ _ Hb) as Hlt.
  unfold iderw_start. apply wp_bind. eapply wp_intro; [unfold get_buf; by rewrite Hb |]. rewrite Hh, (rq_todo x Hx). simpl.
  apply wp_bind, wp_gets. assert (negb (b_dev x =? 0) && negb (id_disk1 s) = false) as ->.
  { destruct Hd1 as [-> | ->]; [done |]. by rewrite andb_false_r. }
  destruct (lookup_lt_is_Some_2 (id_qnext s) b) as [nx Hnx]; [by rewrite Hlen |].
  apply wp_bind. eapply wp_intro; [unfold get_qnext; by rewrite Hnx |]. apply wp_bind, wp_modify.
  apply wp_bind, wp_gets. cbn [id_queue set_qnext]. assert (∀ c, c ∈ q ++ [b] → ∃ y, id_bufs s !! c = Some y ∧ req_ok y) as Hreq'.
  { intros c [Hcq | ->%list_elem_of_singleton]%elem_of_app; eauto. }
  assert (NoDup (q ++ [b])) as Hnd'.
  { apply list.NoDup_app. split_and!; [done | | apply NoDup_singleton]. by intros c Hcq ->%list_elem_of_singleton. }
  assert (<[b := None]> (id_qnext s) !! b = Some None) as Hnb by (apply list_lookup_insert_eq; by rewrite Hlen).
  apply wp_bind. destruct q as [|h q].
  - simpl in Hc. rewrite Hc. apply wp_modify. apply wp_bind, wp_gets. cbn [id_queue set_queue].
    rewrite bool_decide_eq_true_2 by done. eapply wp_mono; [by apply (idestart_spec fuel _ b x) |].
    intros [] s1 (v & -> & Hw1 & Hst). split_and!; try done. constructor; simpl; try done.
    + split; [done |]. by exists None.
    + by rewrite length_insert.
    + intros z Hz. rewrite Hb in Hz. simplify_eq. by eapply started_ext.
  - destruct (exists_last (l := h :: q)) as (q' & e & Eq); [done |].
    pose proof Hc as (Eh & _). rewrite Eh in *. apply wp_bind, wp_gets. apply (qchain_out _ _ _ b None Hbq) in Hc.
    rewrite Eq in Hc, Hnd, Hbq. apply wp_bind. eapply wp_intro; [eapply queue_end_spec; [exact Hc |] |].
    { cbn [id_qnext set_qnext]. rewrite Eq in Hnd', Hreq'. rewrite length_insert, Hlen. enough (length ((q' ++ [e]) ++ [b]) ≤ length (id_bufs s))%nat.
      { rewrite !length_app in *. simpl in *. lia. }
      apply NoDup_bound; [done |]. intros c (y & Hy & _)%Hreq'. by eapply lookup_lt_Some. }
    apply wp_modify. apply wp_bind, wp_gets. cbn [id_queue set_qnext]. rewrite Eh.
    rewrite bool_decide_eq_false_2 by (intros [= ->]; apply Hbq; rewrite <- Eq; by left).
    apply wp_ret. split_and!; try done. rewrite Eq in *. constructor; simpl; try done.
    + rewrite Eh, <- app_assoc. apply qchain_snoc; try done. by rewrite length_insert, Hlen.
    + by rewrite !length_insert.
    + rewrite <- app_assoc. by destruct q'; simplify_eq/=.
Qed.
End Driver.
