(* ===== verification/IdeProps.v ===== *)
(** * The IDE driver as a queue of requests

    [fifo] is what the driver promises: requests are served in the order in
    which they came, one for each interrupt.  [iderw] and [ideintr] implement
    it, whatever the other processes do with buffers that are not queued; a
    request at place [k] is served by the [k + 1]-st interrupt.  A process
    that runs alone sees a disk that reads and writes blocks, so the buffer
    cache, the log and the file system run on the driver. *)

From S2P Require Import Prelude Mmu Bytes Disk Ide IdeSpec.

(** ** The specification *)

Record fifo : Type := Fifo {
  ff_queue : list nat;
  ff_bufs : list buf;
  ff_disk : contents;
}.

(** A process asks for buffer [b] to be synced; the disk interrupts; the
    holder of a buffer changes it. *)
Inductive event : Type :=
  | Submit (pid : Z) (b : nat)
  | Interrupt
  | Change (b : nat) (x : buf).

Definition fifo_step (e : event) (m : fifo) : fifo :=
  match e with
  | Submit _ b => Fifo (ff_queue m ++ [b]) (ff_bufs m) (ff_disk m)
  | Interrupt =>
    match ff_queue m with
    | [] => m
    | b :: q =>
      match ff_bufs m !! b with
      | Some x => Fifo q (<[b := served (ff_disk m) x]> (ff_bufs m)) (next_disk (ff_disk m) x)
      | None => m
      end
    end
  | Change b x => Fifo (ff_queue m) (<[b := x]> (ff_bufs m)) (ff_disk m)
  end.

(** Only the holder of a buffer that is not queued uses it. *)
Definition allowed (disk1 : bool) (m : fifo) (e : event) : Prop :=
  match e with
  | Submit pid b => (b ∉ ff_queue m) ∧ ∃ x, ff_bufs m !! b = Some x ∧ req_ok x ∧
      holdingsleep pid (b_lock x) = true ∧ (b_dev x = 0 ∨ disk1 = true)
  | Interrupt => True
  | Change b _ => b ∉ ff_queue m
  end.

Fixpoint all_allowed (disk1 : bool) (m : fifo) (es : list event) : Prop :=
  match es with
  | [] => True
  | e :: es => allowed disk1 m e ∧ all_allowed disk1 (fifo_step e m) es
  end.

Definition fifo_run (es : list event) (m : fifo) : fifo := foldl (λ m e, fifo_step e m) m es.

Definition is_interrupt (e : event) : bool := match e with Interrupt => true | _ => false end.
Definition interrupts (es : list event) : nat := length (filter (λ e, is_interrupt e = true) es).

(** ** The driver *)

Section Driver.
Context {V : Type} `{IdeLaws V}.

Definition drive1 (fuel : nat) (e : event) : M (ide V) unit :=
  match e with
  | Submit pid b => iderw_start fuel pid b
  | Interrupt => ideintr fuel
  | Change b x => modify (λ s, set_bufs (<[b := x]> (id_bufs s)) s)
  end.

Fixpoint drive (fuel : nat) (es : list event) : M (ide V) unit :=
  match es with
  | [] => mret tt
  | e :: es => drive1 fuel e;; drive fuel es
  end.

Record refines (s : ide V) (m : fifo) : Prop := Refines {
  rf_good : good s (ff_queue m) (ff_disk m);
  rf_bufs : id_bufs s = ff_bufs m;
}.

Lemma good_change (s : ide V) q dsk b x : good s q dsk → b ∉ q → good (set_bufs (<[b := x]> (id_bufs s)) s) q dsk.
Proof.
  intros [Hc Hnd Hlen Hreq Hwf Hhead] Hb. constructor; simpl; try done; [by rewrite length_insert | |].
  - intros c Hq. rewrite list_lookup_insert_ne by (by intros ->). auto.
  - destruct q as [|h q]; [done |]. apply not_elem_of_cons in Hb as [Hne _]. by rewrite list_lookup_insert_ne.
Qed.

Lemma drive1_spec fuel e s m :
  refines s m → allowed (id_disk1 s) m e → (dv_polls < fuel)%nat →
  wp (drive1 fuel e) s (λ _ s', refines s' (fifo_step e m) ∧ id_disk1 s' = id_disk1 s ∧
    id_woken s' = (if is_interrupt e then take 1 (ff_queue m) else []) ++ id_woken s).
Proof.
  intros [Hg Hb] Ha Hf. destruct e as [pid b | | b x]; simpl in *.
  - destruct Ha as (Hq & x & Hx & Hok & Hh & Hd). eapply wp_mono; [eapply iderw_start_spec; try done; by rewrite Hb |].
    intros [] s' (Hg' & Hb' & Hw & H1). split_and!; try done. split; [done | by rewrite Hb'].
  - destruct (ff_queue m) as [|b q] eqn:Eq.
    + eapply wp_intro; [by eapply ideintr_idle |]. split_and!; try done. constructor; [by rewrite Eq | done].
    + destruct (gd_req _ _ _ Hg b) as (x & Hx & _); [by left |]. rewrite <- Hb, Hx.
      eapply wp_mono; [by eapply ideintr_spec |]. intros [] s' (Hg' & Hb' & Hw & H1). by split_and!.
  - apply wp_modify. split_and!; try done. constructor; simpl; [by apply good_change | by rewrite Hb].
Qed.

Lemma drive_spec fuel es s m :
  refines s m → all_allowed (id_disk1 s) m es → (dv_polls < fuel)%nat →
  wp (drive fuel es) s (λ _ s', refines s' (fifo_run es m) ∧ id_disk1 s' = id_disk1 s).
Proof.
  intros Hr Ha Hf. revert s m Hr Ha. induction es as [|e es IH]; intros s m Hr Ha; simpl; [by apply wp_ret |].
  destruct Ha as [H1 H2]. apply wp_bind. eapply wp_mono; [by apply drive1_spec |].
  intros [] s' (Hr' & Hd & _). eapply wp_mono; [apply IH; [done | by rewrite Hd] |].
  intros [] s2 [? ?]. split; [done | congruence].
Qed.
End Driver.

(** The queue in front of a request gets shorter with each interrupt. *)
Lemma fifo_wait d1 es m k b x :
  all_allowed d1 m es → (∀ c, c ∈ ff_queue m → is_Some (ff_bufs m !! c)) →
  NoDup (ff_queue m) → ff_queue m !! k = Some b → ff_bufs m !! b = Some x → (k < interrupts es)%nat →
  ∃ es1 es2, es = es1 ++ Interrupt :: es2 ∧ interrupts es1 = k ∧ all_allowed d1 m es1 ∧
    head (ff_queue (fifo_run es1 m)) = Some b ∧ ff_bufs (fifo_run es1 m) !! b = Some x.
Proof.
  revert m k. induction es as [|e es IH]; intros m k Ha Hs Hnd Hk Hx Hi; [simpl in Hi; unfold interrupts in Hi; simpl in Hi; lia |].
  destruct Ha as [H1 H2]. pose proof (list_elem_of_lookup_2 _ _ _ Hk) as Hin.
  assert (∀ k', (k' < interrupts es)%nat → k = (interrupts [e] + k')%nat → (∀ c, c ∈ ff_queue (fifo_step e m) → is_Some (ff_bufs (fifo_step e m) !! c)) →
    NoDup (ff_queue (fifo_step e m)) → ff_queue (fifo_step e m) !! k' = Some b → ff_bufs (fifo_step e m) !! b = Some x →
    ∃ es1 es2, e :: es = es1 ++ Interrupt :: es2 ∧ interrupts es1 = k ∧ all_allowed d1 m es1 ∧
      head (ff_queue (fifo_run es1 m)) = Some b ∧ ff_bufs (fifo_run es1 m) !! b = Some x) as Hgo.
  { intros k' Hi' -> Hs' Hnd' Hk' Hx'. destruct (IH _ k' H2 Hs' Hnd' Hk' Hx' Hi') as (es1 & es2 & -> & <- & Ha & Hh & Hb).
    exists (e :: es1), es2. split_and!; try done. unfold interrupts. rewrite !filter_cons. simpl. by case_decide. }
  destruct e as [pid c | | c y]; simpl in *.
  - destruct H1 as (Hc & z & Hz & _). apply (Hgo k); try done.
    + intros a [? | ->%list_elem_of_singleton]%elem_of_app; eauto.
    + apply list.NoDup_app. split_and!; [done | | apply NoDup_singleton]. by intros a Ha ->%list_elem_of_singleton.
    + by apply lookup_app_l_Some.
  - destruct (ff_queue m) as [|h q] eqn:Eq; [done |]. destruct k as [|k]; simpl in Hk.
    + simplify_eq. exists [], es. split_and!; try done. simpl. by rewrite Eq.
    + destruct (Hs h) as [z Hz]; [by left |]. rewrite Hz in Hgo. apply list.NoDup_cons in Hnd as [Hn Hnd].
      assert (h ≠ b) by (intros ->; apply Hn; by eapply list_elem_of_lookup_2).
      apply (Hgo k); simpl; try done.
      * unfold interrupts in *. simpl in Hi. lia.
      * intros c Hc. rewrite list_lookup_insert_ne by (by intros ->). apply Hs. by right.
      * by rewrite list_lookup_insert_ne.
  - assert (c ≠ b) by (by intros ->). apply (Hgo k); simpl; try done.
    + intros a Ha. rewrite list_lookup_insert_ne by (by intros ->). auto.
    + by rewrite list_lookup_insert_ne.
Qed.

(** ** The block device *)

(** The driver and a process that runs alone: it sleeps in [iderw] until the
    interrupt of its request. *)
Record ide_disk (V : Type) : Type := IdeDisk { idk_dev : V }.
Arguments IdeDisk {V} _.
Arguments idk_dev {V} _.

Section Alone.
Context {V : Type} `{IdeLaws V}.

Definition alone (pid : Z) (b : buf) : M (ide_disk V) buf := λ d,
  let fuel := S dv_polls in
  match (iderw_start fuel pid 0;; iderw_wait fuel 1 0;; get_buf 0) (Ide [b] [None] None true [] (idk_dev d)) with
  | Ok (b', s) => Ok (b', IdeDisk (id_dev s))
  | Err e => Err e
  end.

#[export] Instance ide_driver : DiskDriver (ide_disk V) := {
  iderw := alone;
  dblk := λ d n, if (0 <=? n) && (n <? FSSIZE) then Some (dv_disk (idk_dev d) 1 n) else None;
  dwf := λ d, dv_wf (idk_dev d);
}.

Lemma alone_spec pid b d :
  dv_wf (idk_dev d) → req_ok b → holdingsleep pid (b_lock b) = true →
  ∃ d', alone pid b d = Ok (served (dv_disk (idk_dev d)) b, d') ∧ dv_wf (idk_dev d') ∧
    ∀ e n, dv_disk (idk_dev d') e n = next_disk (dv_disk (idk_dev d)) b e n.
Proof.
  intros Hw Hb Hh. set (s := Ide [b] [None] None true [] (idk_dev d)). set (dsk := dv_disk (idk_dev d)).
  assert (good s [] dsk) as Hg by (by constructor; [| by apply list.NoDup_nil | | intros c ?%elem_of_nil | |]).
  enough (wp (iderw_start (S dv_polls) pid 0;; iderw_wait (S dv_polls) 1 0;; get_buf 0) s (λ b' s',
    b' = served dsk b ∧ good s' [] (next_disk dsk b))) as (b' & s' & E & -> & [_ _ _ _ Hw' Hd'])%wp_iff.
  { unfold alone. fold s. rewrite E. by eexists. }
  apply wp_bind. eapply wp_mono; [apply (iderw_start_spec _ s [] dsk pid 0 b); try done; [apply not_elem_of_nil | by right | lia] |].
  intros [] s1 (Hg1 & Hb1 & _). apply wp_bind. unfold iderw_wait, iderw_done.
  do 2 apply wp_bind. eapply wp_intro; [unfold get_buf; by rewrite Hb1 |]. apply wp_ret. rewrite (rq_todo b Hb).
  apply wp_bind. eapply wp_mono; [apply (ideintr_spec _ s1 0 [] dsk b); [done | by rewrite Hb1 | lia] |].
  intros [] s2 (Hg2 & Hb2 & _). rewrite Hb1 in Hb2. do 2 apply wp_bind.
  eapply wp_intro; [unfold get_buf; by rewrite Hb2 |]. apply wp_ret. simpl.
  apply wp_ret. eapply wp_intro; [unfold get_buf; by rewrite Hb2 |]. done.
Qed.

(** The driver is a block device in the sense of the buffer cache. *)
#[export] Instance ide_laws : DiskLaws (ide_disk V).
Proof.
  constructor; simpl.
  - intros d pid b x Hw Hh Hv Hd Hdev Hx. destruct ((0 <=? b_blockno b) && (b_blockno b <? FSSIZE)) eqn:Er; [|done]. simplify_eq.
    destruct (alone_spec pid b d) as (d' & -> & Hw' & Hd'); [done | | done |].
    { constructor; [by rewrite Hv | by right | lia | by rewrite Hd]. }
    exists d'. unfold served. rewrite Hd, Hdev. split_and!; try done. intros n. rewrite Hd'. unfold next_disk. by rewrite Hd.
  - intros d pid b x Hw Hh Hd Hdev Hx Hl. destruct ((0 <=? b_blockno b) && (b_blockno b <? FSSIZE)) eqn:Er; [|done]. simplify_eq.
    destruct (alone_spec pid b d) as (d' & -> & Hw' & Hd'); [done | | done |].
    { constructor; [by rewrite Hd, andb_false_r | by right | lia | done]. }
    exists d'. unfold served. rewrite Hd. split_and!; try done. intros n. rewrite Hd'. unfold next_disk.
    rewrite Hd, Hdev. simpl. destruct (Z.eqb_spec n (b_blockno b)) as [->|]; [by rewrite Er | done].
  - intros d n x Hw Hx. case_match; simplify_eq. by apply disk_length.
  - intros d n Hn. destruct (Z.leb_spec 0 n); [lia | done].
Qed.
End Alone.

(** ** Properties *)

(** C9. On a disk that reports no errors the driver implements the queue of
    requests: from a state that stands for [m], any sequence of requests, interrupts and changes of
    buffers that are not queued is carried out without a panic, and leaves a
    state that stands for [m] after the same events.  Requests are served in
    order; each read gives what the disk holds at that point. *)
Theorem ide_fifo {V} `{IdeLaws V} fuel es (s : ide V) m :
  refines s m → all_allowed (id_disk1 s) m es → (dv_polls < fuel)%nat →
  ∃ s', drive fuel es s = Ok (tt, s') ∧ refines s' (fifo_run es m).
Proof.
  intros Hr Ha Hf. pose proof (drive_spec fuel es s m Hr Ha Hf) as ([] & s' & E & Hr' & _)%wp_iff. by exists s'.
Qed.

(** C13. On a disk that reports no errors a request is served: the buffer [b] at place [k] of the queue is
    valid and clean after the [k + 1]-st interrupt, whatever happens in
    between, its process is woken up by that interrupt, and the loop of
    [iderw] ends.  A read has the data of the disk at that point. *)
Theorem ide_request_served {V} `{IdeLaws V} fuel es (s : ide V) m k b x :
  refines s m → all_allowed (id_disk1 s) m es → (dv_polls < fuel)%nat →
  ff_queue m !! k = Some b → ff_bufs m !! b = Some x → (k < interrupts es)%nat →
  ∃ es1 es2 s1 s2, es = es1 ++ Interrupt :: es2 ∧ interrupts es1 = k ∧
    drive fuel es1 s = Ok (tt, s1) ∧ ideintr fuel s1 = Ok (tt, s2) ∧
    id_bufs s2 !! b = Some (served (ff_disk (fifo_run es1 m)) x) ∧
    iderw_done b s2 = Ok (true, s2) ∧ id_woken s2 = b :: id_woken s1.
Proof.
  intros Hr Ha Hf Hk Hx Hi. destruct (fifo_wait (id_disk1 s) es m k b x) as (es1 & es2 & -> & <- & Ha1 & Hh & Hb); try done.
  { intros c Hc. rewrite <- (rf_bufs _ _ Hr). destruct (gd_req _ _ _ (rf_good _ _ Hr) c Hc) as (y & -> & _). done. }
  { apply (gd_nodup _ _ _ (rf_good _ _ Hr)). }
  pose proof (drive_spec fuel es1 s m Hr Ha1 Hf) as ([] & s1 & E1 & [Hg1 Hb1] & _)%wp_iff.
  destruct (ff_queue (fifo_run es1 m)) as [|c q] eqn:Eq; [done |]. simpl in Hh. simplify_eq.
  rewrite <- Hb1 in Hb. pose proof (ideintr_spec fuel s1 b q _ x Hg1 Hb Hf) as ([] & s2 & E2 & _ & Hb2 & Hw & _)%wp_iff.
  assert (id_bufs s2 !! b = Some (served (ff_disk (fifo_run es1 m)) x)) as E3.
  { rewrite Hb2. by eapply list_lookup_insert_eq, lookup_lt_Some. }
  exists es1, es2, s1, s2. split_and!; try done.
  unfold iderw_done. erewrite bind_ok by (unfold get_buf; by rewrite E3). done.
Qed.

(** [iderw], for a process that runs alone, is a block device: it
    transfers exactly the block that the buffer names, in the direction that
    its dirty flag asks for, waits for the interrupt, and leaves the buffer
    valid and clean and every other block alone. *)
Theorem iderw_correct {V} `{IdeLaws V} pid b (d : ide_disk V) :
  dv_wf (idk_dev d) → req_ok b → holdingsleep pid (b_lock b) = true →
  ∃ d', alone pid b d = Ok (set_flags true false
      (if b_dirty b then b else set_data (dv_disk (idk_dev d) (b_dev b) (b_blockno b)) b), d') ∧ dv_wf (idk_dev d') ∧
    ∀ e n, dv_disk (idk_dev d') e n =
      if b_dirty b && (e =? b_dev b) && (n =? b_blockno b) then b_data b else dv_disk (idk_dev d) e n.
Proof. apply alone_spec. Qed.

(** C38. When a read fails, [ideintr] marks the buffer valid all the same: it
    keeps its old contents, the process is woken up, and nothing records the
    error. *)
Theorem ideintr_hides_errors {V} `{IdeDevice V} fuel (s : ide V) b x r v :
  id_queue s = Some b → id_qnext s !! b = Some None → id_bufs s !! b = Some x → b_dirty x = false →
  dv_inb 0x1f7 (id_dev s) = (r, v) → Z.land r (Z.lor IDE_BSY IDE_DRDY) = IDE_DRDY →
  Z.land r (Z.lor IDE_DF IDE_ERR) ≠ 0 →
  ideintr (S fuel) s =
    Ok (tt, Ide (<[b := set_flags true false x]> (id_bufs s)) (id_qnext s) None (id_disk1 s) (b :: id_woken s) v).
Proof.
  intros Hq Hn Hb Hd Hi Hr He. unfold ideintr. erewrite bind_ok by reflexivity. rewrite Hq.
  erewrite bind_ok by (unfold get_qnext; by rewrite Hn). erewrite bind_ok by reflexivity.
  erewrite bind_ok by (unfold get_buf; simpl; by rewrite Hb). rewrite Hd. cbn [negb idewait].
  assert (idewait (S fuel) true (set_queue None s) = Ok (-1, set_dev v (set_queue None s))) as E.
  { simpl. erewrite bind_ok by (unfold inb; simpl; by rewrite Hi). rewrite Hr, Z.eqb_refl.
    unfold nz. apply Z.eqb_neq in He. by rewrite He. }
  cbn [idewait] in E. erewrite bind_ok by (erewrite bind_ok by exact E; reflexivity).
  erewrite bind_ok by (unfold upd_buf; erewrite bind_ok by (unfold get_buf; simpl; by rewrite Hb); reflexivity).
  by destruct s.
Qed.

(** ** Witnesses *)

Definition zeros : contents := λ _ _, replicate bsize 0.
Definition reader (n : Z) : buf := Buf false false 1 n (Sleeplock true 1) 1 (replicate bsize 9).
Definition writer (n : Z) : buf := Buf true true 1 n (Sleeplock true 1) 1 (replicate bsize 9).

(** Two reads are queued, and the disk works on the first. *)
Definition two_reads : ide sim :=
  Ide [reader 3; reader 258; writer 258] [Some 1%nat; None; None] (Some 0%nat) true []
    (Sim 3 0 0 0xf0 2 (Some (1, 3)) None zeros).
Definition two_reads_spec : fifo := Fifo [0; 1]%nat [reader 3; reader 258; writer 258] zeros.

Lemma reader_ok n : 0 ≤ n < FSSIZE → req_ok (reader n).
Proof. intros Hn. constructor; try done. by right. Qed.
Lemma writer_ok n : 0 ≤ n < FSSIZE → req_ok (writer n).
Proof. intros Hn. constructor; try done. by right. Qed.

Lemma two_reads_refines : refines two_reads two_reads_spec.
Proof.
  constructor; [|done]. constructor; simpl; try done.
  - split; [done |]. exists (Some 1%nat). split; [done |]. split; [done |]. by exists None.
  - apply list.NoDup_cons. split; [set_solver | apply NoDup_singleton].
  - intros b [-> | ->%list_elem_of_singleton]%elem_of_cons; eexists; (split; [done |]); by apply reader_ok.
  - intros x [= <-]. by constructor.
Qed.

(** A write of block 258 is queued behind a read of it. *)
Definition two_reads_events : list event := [Interrupt; Submit 1 2; Change 0 (reader 5); Interrupt; Interrupt].

Lemma two_reads_allowed : all_allowed true two_reads_spec two_reads_events.
Proof.
  simpl. split_and!; try done; [set_solver | | set_solver].
  exists (writer 258). split_and!; try done; [by apply writer_ok | by right].
Qed.

Lemma ide_fifo_witness : ∃ s', drive 3 two_reads_events two_reads = Ok (tt, s') ∧
  refines s' (fifo_run two_reads_events two_reads_spec).
Proof. apply (ide_fifo 3); [apply two_reads_refines | apply two_reads_allowed | simpl; lia]. Defined.

Lemma ide_request_served_witness : ∃ es1 es2 s1 s2, two_reads_events = es1 ++ Interrupt :: es2 ∧ interrupts es1 = 1%nat ∧
    drive 3 es1 two_reads = Ok (tt, s1) ∧ ideintr 3 s1 = Ok (tt, s2) ∧
    id_bufs s2 !! 1%nat = Some (served (ff_disk (fifo_run es1 two_reads_spec)) (reader 258)) ∧
    iderw_done 1 s2 = Ok (true, s2) ∧ id_woken s2 = 1%nat :: id_woken s1.
Proof.
  apply (ide_request_served 3); [apply two_reads_refines | apply two_reads_allowed | simpl; lia | done | done |].
  vm_compute. lia.
Defined.

Lemma iderw_correct_witness :
  ∃ d', alone 1 (writer 258) (IdeDisk (Sim 0 0 0 0 0 None None zeros)) = Ok (set_flags true false (writer 258), d') ∧
    dv_wf (idk_dev d') ∧
    ∀ e n, dv_disk (idk_dev d') e n = if (e =? 1) && (n =? 258) then replicate bsize 9 else zeros e n.
Proof.
  refine (iderw_correct 1 (writer 258) (IdeDisk (Sim 0 0 0 0 0 None None zeros)) _ _ _); [|by apply writer_ok | done].
  simpl. split; [lia | done].
Defined.

(** A disk whose reads fail. *)
Definition broken : Type := unit.
#[local] Instance broken_device : IdeDevice broken := {
  dv_inb := λ _ v, (Z.lor IDE_DRDY IDE_ERR, v);
  dv_outb := λ _ _ v, v;
  dv_insl := λ _ n v, (replicate n 0, v);
  dv_outsl := λ _ _ v, v;
}.

Lemma ideintr_hides_errors_witness :
  ideintr 1 (Ide (V := broken) [reader 3] [None] (Some 0%nat) true [] tt) =
    Ok (tt, Ide [set_flags true false (reader 3)] [None] None true [0%nat] tt).
Proof.
  refine (ideintr_hides_errors 0 (Ide (V := broken) [reader 3] [None] (Some 0%nat) true [] tt) 0 (reader 3)
    (Z.lor IDE_DRDY IDE_ERR) tt _ _ _ _ _ _ _); done.
Defined.
