(* ===== verification/UserProps.v ===== *)
(** * What the user programs do

    The properties of [grep], [cat], [wc] and the shell.  [files] is a world
    of streams for the examples, in which the next reads return at most so
    many bytes. *)

From S2P Require Import Prelude Bytes User UPrintf Grep Progs Sh ShSpec ShPrint ShRun.

(** ** Streams *)

Record files : Type := Files {
  f_in : Z → list Z;
  f_out : Z → list Z;
  (** the most that the next reads return, less one *)
  f_max : list nat;
}.

Definition read_len (w : files) (fd n : Z) : nat :=
  Nat.min (match f_max w with m :: _ => Nat.min (Z.to_nat n) (S m) | [] => Z.to_nat n end) (length (f_in w fd)).

Definition files_handle (c : sys) (w : files) : answer * files :=
  match c with
  | Read fd n =>
    let k := read_len w fd n in
    ((Z.of_nat k, take k (f_in w fd)),
     Files (λ x, if x =? fd then drop k (f_in w fd) else f_in w x) (f_out w) (List.tl (f_max w)))
  | Write fd bs =>
    ((Z.of_nat (length bs), []), Files (f_in w) (λ x, if x =? fd then f_out w fd ++ bs else f_out w x) (f_max w))
  | _ => ((-1, []), w)
  end.

#[export, refine] Instance files_streams : Streams files := {
  handle := files_handle;
  avail := f_in;
  sent := f_out;
  whole := λ w, f_max w = [];
}.
Proof.
  - intros w fd n Hn. exists (read_len w fd n). eexists. split; [done |]. simpl. rewrite Z.eqb_refl.
    unfold read_len. split_and!; [lia | destruct (f_max w); lia | | done | done |].
    + destruct (f_in w fd); [done |]. simpl. destruct (f_max w); lia.
    + by intros ->.
  - intros w fd bs. eexists. split; [done |]. simpl. rewrite Z.eqb_refl. split_and!; try done.
    intros x Hx. apply Z.eqb_neq in Hx. by rewrite Hx.
Defined.

(** Standard input holds [s], and nothing is written yet. *)
Definition stdin (s : list Z) (max : list nat) : files := Files (λ fd, if fd =? 0 then s else []) (λ _, []) max.

(** ** [grep] *)

(** C15. The matcher of [grep] decides exactly the language of the pattern:
    [match] says yes if and only if some part of the text is a word of the
    regular expression, at the start or the end of the text where the pattern
    is anchored. *)
Theorem grep_match_correct re text : match_ re text = true ↔ matches (pattern_of re) text.
Proof. apply match_spec. Qed.

(** C28. [grep] prints the lines that match, in order and complete, when the
    input consists of lines without NUL bytes that end in a newline and fit in
    its buffer, and every read returns all it has room for. *)
Theorem grep_prints_matches {W} `{Streams W} fuel pat fd ls (w : W) :
  whole w → Forall line_ok ls → avail w fd = text_of ls → (length (text_of ls) < fuel)%nat →
  ∃ w', run handle (grep fuel pat fd) w = (Done tt, w') ∧
    sent w' 1 = sent w 1 ++ text_of (filter (λ l, match_ pat l = true) ls) ∧ ∀ x, x ≠ 1 → sent w' x = sent w x.
Proof. apply grep_spec. Qed.

Definition line_okb (l : list Z) : bool :=
  forallb (λ c, negb (c =? 10) && negb (c =? 0)) l && (length l + 1 <? GBUF)%nat.
Lemma line_okb_ok l : line_okb l = true → line_ok l.
Proof.
  unfold line_okb. rewrite andb_true_iff, forallb_forall. intros [Hc Hl%Nat.ltb_lt].
  split; [| | done]; intros Hi%list_elem_of_In%Hc; lia.
Qed.

Lemma grep_prints_matches_witness :
  ∃ w', run handle (grep 20 (chars "b*c$") 0) (stdin (text_of [chars "abc"; chars "cb"; chars "c"]) []) = (Done tt, w') ∧
    sent w' 1 = text_of [chars "abc"; chars "c"] ∧ ∀ x, x ≠ 1 → sent w' x = [].
Proof.
  destruct (grep_prints_matches 20 (chars "b*c$") 0 [chars "abc"; chars "cb"; chars "c"]
    (stdin (text_of [chars "abc"; chars "cb"; chars "c"]) [])) as (w' & E & Hs & Ho).
  - done.
  - repeat (apply list.Forall_cons; split; [by apply line_okb_ok |]). by apply list.Forall_nil.
  - done.
  - simpl. lia.
  - exists w'. by split; [|split; [rewrite Hs; vm_compute |]].
Defined.

(** C40. When the first read returns only the beginning of a line, as a read of
    a pipe or the console may, [grep] forgets it: it tests and prints the rest
    of that line in place of the line, whatever the pattern, and the other
    lines as it should. *)
Theorem grep_loses_lines {W} `{Streams W} fuel pat fd part l ls (w w1 : W) :
  handle (Read fd (Z.of_nat GBUF - 1)) w = ((Z.of_nat (length part), part), w1) → part ≠ [] → whole w1 →
  Forall line_ok ((part ++ l) :: ls) → avail w fd = text_of ((part ++ l) :: ls) → (length (text_of ((part ++ l) :: ls)) < fuel)%nat →
  ∃ w', run handle (grep fuel pat fd) w = (Done tt, w') ∧
    sent w' 1 = sent w 1 ++ text_of (filter (λ l, match_ pat l = true) (l :: ls)) ∧ ∀ x, x ≠ 1 → sent w' x = sent w x.
Proof. apply grep_short_spec. Qed.

(** The line [abcd], of which the first read returns [ab], matches [bc] and is
    not printed; the next one is. *)
Lemma grep_loses_lines_witness :
  match_ (chars "bc") (chars "abcd") = true ∧
  ∃ w', run handle (grep 20 (chars "bc") 0) (stdin (text_of [chars "abcd"; chars "bc"]) [1]%nat) = (Done tt, w') ∧
    sent w' 1 = text_of [chars "bc"] ∧ ∀ x, x ≠ 1 → sent w' x = [].
Proof.
  split; [done |]. destruct (grep_loses_lines 20 (chars "bc") 0 (chars "ab") (chars "cd") [chars "bc"]
    (stdin (text_of [chars "abcd"; chars "bc"]) [1]%nat) (files_handle (Read 0 1023) (stdin (text_of [chars "abcd"; chars "bc"]) [1]%nat)).2)
    as (w' & E & Hs & Ho); try done.
  - repeat (apply list.Forall_cons; split; [by apply line_okb_ok |]). by apply list.Forall_nil.
  - simpl. lia.
  - exists w'. split; [exact E |]. split; [rewrite Hs; by vm_compute | exact Ho].
Defined.

(** ** [cat] and [wc] *)

(** [cat] copies its input to standard output, byte for byte, in
    whatever pieces the reads return it, and writes nothing else. *)
Theorem cat_copies {W} `{Streams W} fuel fd (w : W) :
  (length (avail w fd) < fuel)%nat →
  ∃ w', run handle (cat fuel fd) w = (Done tt, w') ∧ avail w' fd = [] ∧
    sent w' 1 = sent w 1 ++ avail w fd ∧ ∀ x, x ≠ 1 → sent w' x = sent w x.
Proof. apply cat_spec. Qed.

Lemma cat_copies_witness :
  ∃ w', run handle (cat 10 0) (stdin (chars "ab c") [1; 1]%nat) = (Done tt, w') ∧ avail w' 0 = [] ∧
    sent w' 1 = chars "ab c" ∧ ∀ x, x ≠ 1 → sent w' x = [].
Proof. refine (cat_copies 10 0 (stdin (chars "ab c") [1; 1]%nat) _). simpl. lia. Defined.

Definition wc_pieces (l w c : Z) (name : list Z) : list piece :=
  [PDec l; PLit 32; PDec w; PLit 32; PDec c; PLit 32; PStr (Some name); PLit 10].

(** [wc] prints the number of line feeds, of words (the maximal runs of
    characters other than blanks) and of bytes of its input, in whatever
    pieces the reads return it, and then the name. *)
Theorem wc_counts {W} `{Streams W} fuel fd name (w : W) :
  Z.of_nat (length (avail w fd)) < 2 ^ 31 → (length (avail w fd) < fuel)%nat →
  ∃ w', run handle (wc fuel fd name) w = (Done tt, w') ∧
    sent w' 1 = sent w 1 ++ text_of_pieces (wc_pieces (Z.of_nat (newlines (avail w fd)))
      (Z.of_nat (length (words (avail w fd)))) (Z.of_nat (length (avail w fd))) name).
Proof.
  intros Hl Hf. destruct (wc_loop_spec fuel fd (Counts 0 0 0 false) w Hf) as (w1 & E & Hs).
  destruct (wc_fold (avail w fd) (Counts 0 0 0 false)) as [b Eb]; [simpl; lia.. |]. rewrite Eb in E.
  unfold wc. erewrite run_done by exact E. cbn [wc_l wc_w wc_c wc_in]. rewrite !Z.add_0_l.
  change (chars "%d %d %d %s" ++ [10]) with (fmt_of (wc_pieces (Z.of_nat (newlines (avail w fd)))
    (Z.of_nat (starts false (avail w fd))) (Z.of_nat (length (avail w fd))) name)).
  destruct (printf_pieces 1 (wc_pieces (Z.of_nat (newlines (avail w fd)))
    (Z.of_nat (starts false (avail w fd))) (Z.of_nat (length (avail w fd))) name)
    ltac:(repeat constructor; done) w1) as (w2 & E2 & Hw).
  exists w2. split; [exact E2 |]. by rewrite (wr_sent _ _ _ _ Hw), Hs.
Qed.

Lemma wc_counts_witness :
  ∃ w', run handle (wc 30 0 (chars "f")) (stdin (chars "ab  c" ++ [10; 9; 100]) [2; 2]%nat) = (Done tt, w') ∧
    sent w' 1 = chars "1 3 8 f" ++ [10].
Proof. refine (wc_counts 30 0 (chars "f") (stdin (chars "ab  c" ++ [10; 9; 100]) [2; 2]%nat) _ _); simpl; lia. Defined.

(** [printf] writes the pieces of its format in order: characters as they
    are, strings, and numbers as numerals that stand for them, in decimal with
    a sign or in hexadecimal without. *)
Theorem printf_correct {W} `{Streams W} fd ps (w : W) :
  Forall piece_ok ps →
  (∃ w', run handle (printf fd (fmt_of ps) (args_of ps)) w = (Done tt, w') ∧ avail w' = avail w ∧
    sent w' fd = sent w fd ++ mjoin (piece_text <$> ps) ∧ ∀ x, x ≠ fd → sent w' x = sent w x) ∧
  ∀ v, number_value 10 (piece_text (PDec v)) = s32 v ∧ number_value 16 (piece_text (PHex v)) = u32 v.
Proof.
  intros Hp. split; [|intros v; split; by apply (uint_chars_value v)].
  destruct (printf_pieces fd ps Hp w) as (w' & E & [H1 H2 H3 _]). by exists w'.
Qed.

Lemma printf_correct_witness :
  (∃ w', run handle (printf 2 (chars "x=%d%%") [UInt (- 12)]) (stdin [] []) = (Done tt, w') ∧ avail w' = avail (stdin [] []) ∧
    sent w' 2 = chars "x=-12%" ∧ ∀ x, x ≠ 2 → sent w' x = []) ∧
  ∀ v, number_value 10 (piece_text (PDec v)) = s32 v ∧ number_value 16 (piece_text (PHex v)) = u32 v.
Proof.
  refine (printf_correct 2 [PLit 120; PLit 61; PDec (- 12); PPercent] (stdin [] []) _). by repeat constructor.
Defined.

(** ** The shell *)

Lemma no_nul l : forallb nz l = true → 0 ∉ l.
Proof. rewrite forallb_forall. intros Hl Hi%list_elem_of_In%Hl. done. Qed.

(** C11. The parser of the shell and the grammar agree: a line is accepted,
    with the command [c], exactly if the grammar derives [c] from its tokens;
    and the parser always ends, with a command or with a message. *)
Theorem shell_parser_grammar line :
  0 ∉ line →
  (∀ c, parse_all line = Ok (c, length line) ↔ ∃ ts, lexes line 0 ts ∧ g_line ts c) ∧
  match parse_all line with
  | Ok _ | Err (EPanic _) => True
  | Err _ => False
  end.
Proof.
  intros Hl. pose proof (parse_all_cases line Hl) as Hc. split.
  - intros c. split; [|intros (ts & H1 & H2); by eapply parse_all_complete].
    intros E. rewrite E in Hc. by apply Hc.
  - by destruct (parse_all line) as [[c s]|[]].
Qed.

Lemma shell_parser_grammar_witness :
  (∀ c, parse_all (chars "ls|wc&") = Ok (c, length (chars "ls|wc&")) ↔ ∃ ts, lexes (chars "ls|wc&") 0 ts ∧ g_line ts c) ∧
  True.
Proof. refine (shell_parser_grammar (chars "ls|wc&") _). by apply no_nul. Defined.

(** C26. A command that the parser returns is well formed: each command has
    fewer than [MAXARGS] arguments, each redirection opens standard input for
    reading or standard output for writing, and each word is a nonempty piece
    of the line without blanks and symbols, so that the terminating zeros are
    written inside the buffer. *)
Theorem shell_parse_typed line c :
  0 ∉ line → parse_all line = Ok (c, length line) →
  Forall (word_ok line) (cmd_words c) ∧ writable (map_cmd (word_str line) c) = true.
Proof.
  intros Hl E. pose proof (parse_all_cases line Hl) as Hc. rewrite E in Hc. destruct (Hc eq_refl) as (ts & H1 & H2).
  split; [by eapply derived_words | by eapply derived_writable].
Qed.

Lemma shell_parse_typed_witness :
  Forall (word_ok (chars "ls >x")) (cmd_words (REDIR (EXEC [(0, 2)%nat]) (4, 5)%nat (Z.lor O_WRONLY O_CREATE) 1)) ∧
  writable (REDIR (EXEC [chars "ls"]) (chars "x") (Z.lor O_WRONLY O_CREATE) 1) = true.
Proof.
  refine (shell_parse_typed (chars "ls >x") (REDIR (EXEC [(0, 2)%nat]) (4, 5)%nat (Z.lor O_WRONLY O_CREATE) 1) _ _).
  - by apply no_nul.
  - vm_compute. done.
Defined.

(** C27. Printing and parsing: a command written out as a line, with
    parentheses where they are needed, is read back as the same command, also
    when its words are read from the buffer that [nulterminate] has cut. *)
Theorem shell_print_parse a rest :
  writable a = true →
  ∃ c buf, parsecmd (show_cmd a ++ 0 :: rest) = Ret (c, buf) ∧ strings buf c = a.
Proof. apply parsecmd_show. Qed.

Definition pipeline : cmd (list Z) :=
  LIST (BACK (PIPE (EXEC [chars "cat"; chars "f"]) (REDIR (EXEC [chars "wc"]) (chars "out") (Z.lor O_WRONLY O_CREATE) 1)))
    (EXEC [chars "ls"]).

Lemma shell_print_parse_witness :
  ∃ c buf, parsecmd (chars "cat f | wc > out & ; ls " ++ [0]) = Ret (c, buf) ∧ strings buf c = pipeline.
Proof. refine (shell_print_parse pipeline [] _). done. Defined.

Lemma writable_redirs c : writable c = true → redirs_std c = true.
Proof.
  induction c as [argv | c IH f m fd | l IHl r IHr | l IHl r IHr | c IH]; simpl; try done.
  - unfold redir_ok. intros [[Hc _]%andb_true_iff Hr]%andb_true_iff. rewrite IH by done.
    apply orb_true_iff in Hr as [[_ ->]%andb_true_iff | [_ ->]%andb_true_iff]; [done | by rewrite orb_true_r].
  - intros [Hl Hr]%andb_true_iff. by rewrite IHl, IHr.
  - intros [Hl Hr]%andb_true_iff. by rewrite IHl, IHr.
Qed.

(** C12. Running a line: the shell starts exactly the programs of the command
    that the line stands for, each with its standard input and output
    connected as the command says (files for redirections, the two ends of a
    new pipe for a pipeline) and with no other descriptor opened or closed; in
    particular no process keeps an end of a pipe that it should not have. *)
Theorem shell_runs_line opens runs line rest c i j tab n {B} (k : unit → prog B) :
  0 ∉ line → parse_all line = Ok (c, length line) → fd_ok i j tab →
  launch opens runs (r ← parsecmd (line ++ 0 :: rest); runcmd (strings r.2 r.1) ≫= k) tab n =
    plan opens runs (map_cmd (word_str line) c) tab n.
Proof.
  intros Hl E Hok. pose proof (parse_all_cases line Hl) as Hc. rewrite E in Hc. destruct (Hc eq_refl) as (ts & H1 & H2).
  unfold parsecmd. rewrite cstr_app, E, Nat.eqb_refl by done. cbn [negb]. cbn [mbind prog_mbind prog_bind mret prog_mret fst snd].
  rewrite (strings_words line rest ts c) by done. eapply runcmd_launch; [|done].
  apply writable_redirs. by eapply derived_writable.
Qed.

Definition std_tab : list (option file) :=
  [Some (FInherited 0); Some (FInherited 1); Some (FInherited 2); None; None; None].

Lemma std_tab_ok : fd_ok 3 4 std_tab.
Proof. constructor; [done | done | lia |]. intros [|[|[|[|k]]]] Hk Hne; try lia; by eexists. Qed.

Lemma shell_runs_line_witness :
  launch (λ _ _, true) (λ _, true) (r ← parsecmd (chars "cat f|wc>out" ++ [0]); runcmd (strings r.2 r.1) ≫= Ret) std_tab 7 =
    ([([chars "cat"; chars "f"], [Some (FInherited 0); Some (FPipeW 7); Some (FInherited 2); None; None; None]);
      ([chars "wc"], [Some (FPipeR 7); Some (FFile (chars "out") (Z.lor O_WRONLY O_CREATE)); Some (FInherited 2); None; None; None])],
     8%nat).
Proof.
  refine (shell_runs_line (λ _ _, true) (λ _, true) (chars "cat f|wc>out") []
    (PIPE (EXEC [(0, 3); (4, 5)]%nat) (REDIR (EXEC [(6, 8)%nat]) (9, 12)%nat (Z.lor O_WRONLY O_CREATE) 1)) 3 4 std_tab 7 Ret _ _ _).
  - by apply no_nul.
  - vm_compute. done.
  - apply std_tab_ok.
Defined.
