(* ===== verification/Ports.v ===== *)
(** * Device registers ([x86.h])

    The processor reaches devices through ports ([inb], [outb]) and through
    registers mapped into memory.  What a device answers is not part of the
    repository: [Ports] and [Mmio] are what the code can do with one, and the
    components that use a device state what they rely on as laws of their
    own.  [traced_ports] and [traced_mmio] record every access, so that the
    accesses of a routine can be compared with a sequence of events. *)

From S2P Require Import Prelude.

Class Ports (V : Type) := {
  pt_inb : Z → V → Z * V;
  pt_outb : Z → Z → V → V;
}.

(** A 32-bit register is given by its address. *)
Class Mmio (V : Type) := {
  mm_read : Z → V → Z * V;
  mm_write : Z → Z → V → V;
}.

Section Ports.
Context {V : Type}.

Definition inb `{Ports V} (port : Z) : M V Z := λ v, Ok (pt_inb port v).
Definition outb `{Ports V} (port data : Z) : M V unit := modify (pt_outb port (u8 data)).

Definition mread `{Mmio V} (a : Z) : M V Z := λ v, Ok (mm_read a v).
Definition mwrite `{Mmio V} (a x : Z) : M V unit := modify (mm_write a (u32 x)).

(** The byte read from a port, as a test sees it. *)
Lemma wp_inb `{Ports V} port (v : V) Q : Q (pt_inb port v).1 (pt_inb port v).2 → wp (inb port) v Q.
Proof. intros Hq. unfold wp, inb. by destruct (pt_inb port v). Qed.

Lemma wp_outb `{Ports V} port x (v : V) (Q : unit → V → Prop) : Q tt (pt_outb port (u8 x) v) → wp (outb port x) v Q.
Proof. apply wp_modify. Qed.

Lemma wp_mread `{Mmio V} a (v : V) Q : Q (mm_read a v).1 (mm_read a v).2 → wp (mread a) v Q.
Proof. intros Hq. unfold wp, mread. by destruct (mm_read a v). Qed.

Lemma wp_mwrite `{Mmio V} a x (v : V) (Q : unit → V → Prop) : Q tt (mm_write a (u32 x) v) → wp (mwrite a x) v Q.
Proof. apply wp_modify. Qed.
End Ports.

(** ** Traces *)

Inductive event : Type :=
| In (port x : Z)
| Out (port x : Z)
| Load (a x : Z)
| Store (a x : Z).

(** A device with the accesses made to it, the last one first. *)
Record traced_dev (V : Type) : Type := TracedDev { td_dev : V; td_log : list event }.
Arguments TracedDev {V} _ _.
Arguments td_dev {V} _.
Arguments td_log {V} _.

#[export] Instance traced_ports {V} `{Ports V} : Ports (traced_dev V) := {
  pt_inb p t := let r := pt_inb p (td_dev t) in (r.1, TracedDev r.2 (In p r.1 :: td_log t));
  pt_outb p x t := TracedDev (pt_outb p x (td_dev t)) (Out p x :: td_log t);
}.

#[export] Instance traced_mmio {V} `{Mmio V} : Mmio (traced_dev V) := {
  mm_read a t := let r := mm_read a (td_dev t) in (r.1, TracedDev r.2 (Load a r.1 :: td_log t));
  mm_write a x t := TracedDev (mm_write a x (td_dev t)) (Store a x :: td_log t);
}.
