(* ===== verification/Kbd.v ===== *)
(** * The keyboard ([kbd.c], [kbd.h])

    [kbdgetc] turns scan codes into characters; the controller that has the
    scan codes is a [Ports] device.  [kbd_decode] is what it does with one
    code and the [shift] word. *)

From S2P Require Import Prelude Console Ports.

Definition KBSTATP : Z := 0x64.
Definition KBS_DIB : Z := 0x01.
Definition KBDATAP : Z := 0x60.

Definition SHIFT : Z := Z.shiftl 1 0.
Definition CTL : Z := Z.shiftl 1 1.
Definition ALT : Z := Z.shiftl 1 2.
Definition CAPSLOCK : Z := Z.shiftl 1 3.
Definition NUMLOCK : Z := Z.shiftl 1 4.
Definition SCROLLLOCK : Z := Z.shiftl 1 5.
Definition E0ESC : Z := Z.shiftl 1 6.

Definition KEY_HOME : Z := 0xE0.
Definition KEY_END : Z := 0xE1.
Definition KEY_UP : Z := 0xE2.
Definition KEY_DN : Z := 0xE3.
Definition KEY_LF : Z := 0xE4.
Definition KEY_RT : Z := 0xE5.
Definition KEY_PGUP : Z := 0xE6.
Definition KEY_PGDN : Z := 0xE7.
Definition KEY_INS : Z := 0xE8.
Definition KEY_DEL : Z := 0xE9.

(** An array of 256 bytes: the first ones, then those with an index. *)
Definition table (first : list Z) (rest : list (nat * Z)) : list Z :=
  foldl (λ l x, <[x.1 := x.2]> l) (first ++ replicate (256 - length first) 0) rest.

Definition shiftcode : list Z :=
  table [] [(0x1D, CTL); (0x2A, SHIFT); (0x36, SHIFT); (0x38, ALT); (0x9D, CTL); (0xB8, ALT)]%nat.

Definition togglecode : list Z :=
  table [] [(0x3A, CAPSLOCK); (0x45, NUMLOCK); (0x46, SCROLLLOCK)]%nat.

(** The keys that send [0xE0] first. *)
Definition extended (enter div : Z) : list (nat * Z) :=
  [(0x9C, enter); (0xB5, div); (0xC8, KEY_UP); (0xD0, KEY_DN); (0xC9, KEY_PGUP); (0xD1, KEY_PGDN); (0xCB, KEY_LF);
   (0xCD, KEY_RT); (0x97, KEY_HOME); (0xCF, KEY_END); (0xD2, KEY_INS); (0xD3, KEY_DEL)]%nat.

(** The characters are written as their codes. *)
Definition normalmap : list Z :=
  table [0; 0x1B; 49; 50; 51; 52; 53; 54;
         55; 56; 57; 48; 45; 61; 8; 9;
         113; 119; 101; 114; 116; 121; 117; 105;
         111; 112; 91; 93; 10; 0; 97; 115;
         100; 102; 103; 104; 106; 107; 108; 59;
         39; 96; 0; 92; 122; 120; 99; 118;
         98; 110; 109; 44; 46; 47; 0; 42;
         0; 32; 0; 0; 0; 0; 0; 0;
         0; 0; 0; 0; 0; 0; 0; 55;
         56; 57; 45; 52; 53; 54; 43; 49;
         50; 51; 48; 46; 0; 0; 0; 0] (extended 10 47).

Definition shiftmap : list Z :=
  table [0; 27; 33; 64; 35; 36; 37; 94;
         38; 42; 40; 41; 95; 43; 8; 9;
         81; 87; 69; 82; 84; 89; 85; 73;
         79; 80; 123; 125; 10; 0; 65; 83;
         68; 70; 71; 72; 74; 75; 76; 58;
         34; 126; 0; 124; 90; 88; 67; 86;
         66; 78; 77; 60; 62; 63; 0; 42;
         0; 32; 0; 0; 0; 0; 0; 0;
         0; 0; 0; 0; 0; 0; 0; 55;
         56; 57; 45; 52; 53; 54; 43; 49;
         50; 51; 48; 46; 0; 0; 0; 0] (extended 10 47).

(** [C(x)] is [x - '@'], stored in a [uchar]. *)
Definition C (x : Z) : Z := u8 (x - 64).

Definition ctlmap : list Z :=
  table [0; 0; 0; 0; 0; 0; 0; 0;
         0; 0; 0; 0; 0; 0; 0; 0;
         C 81; C 87; C 69; C 82; C 84; C 89; C 85; C 73;
         C 79; C 80; 0; 0; 13; 0; C 65; C 83;
         C 68; C 70; C 71; C 72; C 74; C 75; C 76; 0;
         0; 0; 0; C 92; C 90; C 88; C 67; C 86;
         C 66; C 78; C 77; 0; 0; C 47; 0; 0] (extended 13 (C 47)).

Definition charcode : list (list Z) := [normalmap; shiftmap; ctlmap; ctlmap].

Definition code (t : list Z) (data : Z) : Z := default 0 (t !! Z.to_nat data).

(** One scan code: what [kbdgetc] returns, and [shift] afterwards. *)
Definition kbd_decode (shift data : Z) : Z * Z :=
  if data =? 0xE0 then (0, Z.lor shift E0ESC) else
  if nz (Z.land data 0x80) then
    let data := if nz (Z.land shift E0ESC) then data else Z.land data 0x7F in
    (0, Z.ldiff shift (Z.lor (code shiftcode data) E0ESC))
  else
    let '(data, shift) := if nz (Z.land shift E0ESC) then (Z.lor data 0x80, Z.ldiff shift E0ESC) else (data, shift) in
    let shift := Z.lor shift (code shiftcode data) in
    let shift := Z.lxor shift (code togglecode data) in
    let c := code (default [] (charcode !! Z.to_nat (Z.land shift (Z.lor CTL SHIFT)))) data in
    let c := if nz (Z.land shift CAPSLOCK) then
               if (97 <=? c) && (c <=? 122) then c + 65 - 97
               else if (65 <=? c) && (c <=? 90) then c + 97 - 65 else c
             else c in
    (c, shift).

(** [shift] and the controller. *)
Record kbd (V : Type) : Type := Kbd { kb_shift : Z; kb_dev : V }.
Arguments Kbd {V} _ _.
Arguments kb_shift {V} _.
Arguments kb_dev {V} _.

Section Kbd.
Context {V : Type} `{Ports V}.

Definition on_dev {A} (c : M V A) : M (kbd V) A := zoom kb_dev (λ v k, Kbd (kb_shift k) v) c.

Definition kbdgetc : M (kbd V) Z :=
  st ← on_dev (inb KBSTATP);
  if Z.land st KBS_DIB =? 0 then mret (-1) else
  data ← on_dev (inb KBDATAP);
  k ← gets id;
  let '(c, shift) := kbd_decode (kb_shift k) data in
  modify (λ k, Kbd shift (kb_dev k));;
  mret c.

(** The characters that [consoleintr] gets from a [getc] until there are no
    more, at most [fuel] of them. *)
Fixpoint getc_all {S} (getc : M S Z) (fuel : nat) : M S (list Z) :=
  match fuel with
  | O => raise EFuel
  | S fuel =>
    c ← getc;
    if c <? 0 then mret [] else
    cs ← getc_all getc fuel; mret (c :: cs)
  end.

(** [consoleintr(kbdgetc)] on the keyboard and the console. *)
Definition kbdintr (fuel : nat) : M (kbd V * cons) (bool * bool) :=
  cs ← zoom fst (λ k s, (k, s.2)) (getc_all kbdgetc fuel);
  zoom snd (λ c s, (s.1, c)) (consoleintr cs false false).
End Kbd.
