(* ===== verification/KbdSpec.v ===== *)
(** * What the keyboard driver decodes ([kbd.c])

    Keys are numbered by their scan code, plus 128 for those that send [0xE0]
    first.  [press] says what a key gives with the modifiers that are on;
    [kbd_decode] does this on the codes of a sequence of keys, so [kbdintr]
    hands the characters of the keys to the console. *)

From S2P Require Import Prelude Console ConsSpec Ports Kbd.

(** ** Keys *)

Inductive key : Type :=
| Down (k : Z)
| Up (k : Z).

(** The codes 0xE0 and 0xE1 start other sequences. *)
Definition key_ok (e : key) : Prop :=
  match e with Down k | Up k => 0 ≤ k < 256 ∧ k mod 128 ≠ 0x60 end.

Definition scancodes (e : key) : list Z :=
  match e with
  | Down k => if k <? 128 then [k] else [0xE0; k - 128]
  | Up k => if k <? 128 then [k + 128] else [0xE0; k]
  end.

Record mods : Type := Mods {
  m_shift : bool; m_ctl : bool; m_alt : bool; m_caps : bool; m_num : bool; m_scroll : bool;
}.

Definition no_mods : mods := Mods false false false false false false.

Definition is_shift (k : Z) : bool := (k =? 0x2A) || (k =? 0x36).
Definition is_ctl (k : Z) : bool := (k =? 0x1D) || (k =? 0x9D).
Definition is_alt (k : Z) : bool := (k =? 0x38) || (k =? 0xB8).

Definition mods_down (k : Z) (m : mods) : mods :=
  Mods (m_shift m || is_shift k) (m_ctl m || is_ctl k) (m_alt m || is_alt k)
    (xorb (m_caps m) (k =? 0x3A)) (xorb (m_num m) (k =? 0x45)) (xorb (m_scroll m) (k =? 0x46)).

Definition mods_up (k : Z) (m : mods) : mods :=
  Mods (m_shift m && negb (is_shift k)) (m_ctl m && negb (is_ctl k)) (m_alt m && negb (is_alt k)) (m_caps m) (m_num m) (m_scroll m).

Definition swap_case (c : Z) : Z :=
  if (97 <=? c) && (c <=? 122) then c - 32 else if (65 <=? c) && (c <=? 90) then c + 32 else c.

(** The character of a key; 0 if it has none. *)
Definition key_char (k : Z) (m : mods) : Z :=
  let c := code (if m_ctl m then ctlmap else if m_shift m then shiftmap else normalmap) k in
  if m_caps m then swap_case c else c.

Definition press (e : key) (m : mods) : list Z * mods :=
  match e with
  | Down k => let m := mods_down k m in ([key_char k m], m)
  | Up k => ([], mods_up k m)
  end.

Fixpoint typed (es : list key) (m : mods) : list Z * mods :=
  match es with
  | [] => ([], m)
  | e :: es => let '(cs, m) := press e m in let '(cs', m) := typed es m in (cs ++ cs', m)
  end.

(** ** The [shift] word *)

Definition enc (m : mods) : Z :=
  Z.b2z (m_shift m) + 2 * Z.b2z (m_ctl m) + 4 * Z.b2z (m_alt m) + 8 * Z.b2z (m_caps m) + 16 * Z.b2z (m_num m) + 32 * Z.b2z (m_scroll m).

Lemma all_bytes (g : Z → bool) k : forallb g (seqZ 0 256) = true → 0 ≤ k < 256 → g k = true.
Proof. rewrite forallb_forall. intros Hf Hk. apply Hf, list_elem_of_In, elem_of_seqZ. lia. Qed.

Lemma shiftcode_enc k : 0 ≤ k < 256 → code shiftcode k = enc (Mods (is_shift k) (is_ctl k) (is_alt k) false false false).
Proof.
  intros Hk. apply Z.eqb_eq.
  apply (all_bytes (λ k, code shiftcode k =? enc (Mods (is_shift k) (is_ctl k) (is_alt k) false false false))); [by vm_compute | done].
Qed.

Lemma togglecode_enc k : 0 ≤ k < 256 → code togglecode k = enc (Mods false false false (k =? 0x3A) (k =? 0x45) (k =? 0x46)).
Proof.
  intros Hk. apply Z.eqb_eq.
  apply (all_bytes (λ k, code togglecode k =? enc (Mods false false false (k =? 0x3A) (k =? 0x45) (k =? 0x46)))); [by vm_compute | done].
Qed.

Lemma enc_down k m : 0 ≤ k < 256 → Z.lxor (Z.lor (enc m) (code shiftcode k)) (code togglecode k) = enc (mods_down k m).
Proof.
  intros Hk. rewrite shiftcode_enc, togglecode_enc by done. unfold mods_down. destruct m as [a b c d e f]. simpl.
  generalize (is_shift k), (is_ctl k), (is_alt k). intros x y z.
  assert (Z.lor (enc (Mods a b c d e f)) (enc (Mods x y z false false false)) = enc (Mods (a || x) (b || y) (c || z) d e f)) as ->.
  { by destruct a, b, c, d, e, f, x, y, z. }
  generalize (k =? 58), (k =? 69), (k =? 70), (a || x), (b || y), (c || z). intros u v w p q r.
  by destruct p, q, r, d, e, f, u, v, w.
Qed.

Lemma enc_up k m : 0 ≤ k < 256 → Z.ldiff (enc m) (Z.lor (code shiftcode k) E0ESC) = enc (mods_up k m).
Proof.
  intros Hk. rewrite shiftcode_enc by done. unfold mods_up. destruct m as [a b c d e f]. simpl.
  generalize (is_shift k), (is_ctl k), (is_alt k). intros x y z. by destruct a, b, c, d, e, f, x, y, z.
Qed.

Lemma enc_esc m :
  nz (Z.land (enc m) E0ESC) = false ∧ nz (Z.land (Z.lor (enc m) E0ESC) E0ESC) = true ∧
  Z.ldiff (Z.lor (enc m) E0ESC) E0ESC = enc m ∧
  ∀ x, Z.ldiff (Z.lor (enc m) E0ESC) (Z.lor x E0ESC) = Z.ldiff (enc m) (Z.lor x E0ESC).
Proof.
  assert (∀ x, Z.ldiff (Z.lor (enc m) E0ESC) (Z.lor x E0ESC) = Z.ldiff (enc m) (Z.lor x E0ESC)) as H.
  { intros x. apply Z.bits_inj'. intros i Hi. rewrite !Z.ldiff_spec, !Z.lor_spec.
    destruct (Z.testbit (enc m) i), (Z.testbit x i), (Z.testbit E0ESC i); done. }
  split_and!; try done; by destruct m as [[] [] [] [] [] []].
Qed.

Lemma enc_map m :
  default [] (charcode !! Z.to_nat (Z.land (enc m) (Z.lor CTL SHIFT))) =
  if m_ctl m then ctlmap else if m_shift m then shiftmap else normalmap.
Proof. assert (Z.land (enc m) (Z.lor CTL SHIFT) = Z.b2z (m_shift m) + 2 * Z.b2z (m_ctl m)) as -> by (by destruct m as [[] [] [] [] [] []]). by destruct m as [[] [] ? ? ? ?]. Qed.

Lemma enc_caps m : nz (Z.land (enc m) CAPSLOCK) = m_caps m.
Proof. by destruct m as [[] [] [] [] [] []]. Qed.

(** ** One key *)

(** A code that is not the prefix, read with or without it. *)
Lemma low_byte k : 0 ≤ k < 128 →
  nz (Z.land k 0x80) = false ∧ nz (Z.land (k + 128) 0x80) = true ∧ Z.land (k + 128) 0x7F = k ∧ Z.lor k 0x80 = k + 128.
Proof.
  intros Hk. set (g := λ k, negb (nz (Z.land k 0x80)) && nz (Z.land (k + 128) 0x80) && (Z.land (k + 128) 0x7F =? k) && (Z.lor k 0x80 =? k + 128)).
  assert (g k = true) as Hg.
  { assert (forallb g (seqZ 0 128) = true) as Hf by (by vm_compute). rewrite forallb_forall in Hf. apply Hf, list_elem_of_In, elem_of_seqZ. lia. }
  unfold g in Hg. apply andb_true_iff in Hg as [[[H1 H2]%andb_true_iff H3]%andb_true_iff H4].
  split_and!; [by apply negb_true_iff | done | by apply Z.eqb_eq | by apply Z.eqb_eq].
Qed.

(** The character of a key that is down. *)
Lemma decode_char k m :
  0 ≤ k < 256 →
  (let shift := enc (mods_down k m) in
   let c := code (default [] (charcode !! Z.to_nat (Z.land shift (Z.lor CTL SHIFT)))) k in
   if nz (Z.land shift CAPSLOCK) then
     if (97 <=? c) && (c <=? 122) then c + 65 - 97 else if (65 <=? c) && (c <=? 90) then c + 97 - 65 else c
   else c) = key_char k (mods_down k m).
Proof.
  intros Hk. cbv zeta. rewrite enc_map, enc_caps. unfold key_char, swap_case. destruct (m_caps _); [|done].
  repeat (destruct (_ && _); [lia |]). done.
Qed.

Lemma decode_down k m :
  0 ≤ k < 256 → k mod 128 ≠ 0x60 →
  if k <? 128 then kbd_decode (enc m) k = (key_char k (mods_down k m), enc (mods_down k m))
  else kbd_decode (enc m) 0xE0 = (0, Z.lor (enc m) E0ESC) ∧
    kbd_decode (Z.lor (enc m) E0ESC) (k - 128) = (key_char k (mods_down k m), enc (mods_down k m)).
Proof.
  intros Hk Hn. destruct (enc_esc m) as (E1 & E2 & E3 & _). destruct (Z.ltb_spec k 128) as [Hlt|Hge].
  - destruct (low_byte k ltac:(lia)) as (L1 & _ & _ & _). unfold kbd_decode. destruct (Z.eqb_spec k 0xE0); [lia |].
    rewrite L1, E1, enc_down by done. f_equal. by apply decode_char.
  - destruct (low_byte (k - 128) ltac:(lia)) as (L1 & _ & _ & L4). split; [done |]. unfold kbd_decode.
    destruct (Z.eqb_spec (k - 128) 0xE0); [lia |]. rewrite L1, E2, E3, L4. replace (k - 128 + 128) with k by lia.
    rewrite enc_down by done. f_equal. by apply decode_char.
Qed.

Lemma decode_up k m :
  0 ≤ k < 256 → k mod 128 ≠ 0x60 →
  if k <? 128 then kbd_decode (enc m) (k + 128) = (0, enc (mods_up k m))
  else kbd_decode (enc m) 0xE0 = (0, Z.lor (enc m) E0ESC) ∧ kbd_decode (Z.lor (enc m) E0ESC) k = (0, enc (mods_up k m)).
Proof.
  intros Hk Hn. destruct (enc_esc m) as (E1 & E2 & _ & E4). destruct (Z.ltb_spec k 128) as [Hlt|Hge].
  - destruct (low_byte k ltac:(lia)) as (_ & L2 & L3 & _). unfold kbd_decode. destruct (Z.eqb_spec (k + 128) 0xE0); [zdiv |].
    rewrite L2, E1, L3, enc_up by done. done.
  - destruct (low_byte (k - 128) ltac:(lia)) as (_ & L2 & _ & _). replace (k - 128 + 128) with k in L2 by lia.
    split; [done |]. unfold kbd_decode. destruct (Z.eqb_spec k 0xE0); [subst; done |]. rewrite L2, E2, E4, enc_up by done. done.
Qed.

(** ** A sequence of keys *)

Fixpoint decode_all (shift : Z) (codes : list Z) : list Z * Z :=
  match codes with
  | [] => ([], shift)
  | x :: codes => let '(c, shift) := kbd_decode shift x in let '(cs, shift) := decode_all shift codes in (c :: cs, shift)
  end.

Lemma decode_all_app shift a b :
  decode_all shift (a ++ b) =
  ((decode_all shift a).1 ++ (decode_all (decode_all shift a).2 b).1, (decode_all (decode_all shift a).2 b).2).
Proof.
  revert shift. induction a as [|x a IH]; intros shift; simpl; [by destruct (decode_all shift b) |].
  destruct (kbd_decode shift x) as [c sh]. rewrite IH. by destruct (decode_all sh a).
Qed.

(** The characters, without the zeros that mean no character. *)
Definition chars (cs : list Z) : list Z := filter (λ c, c ≠ 0) cs.

Lemma chars_app a b : chars (a ++ b) = chars a ++ chars b.
Proof. apply list.filter_app. Qed.

Lemma decode_key e m :
  key_ok e → let r := decode_all (enc m) (scancodes e) in chars r.1 = chars (press e m).1 ∧ r.2 = enc (press e m).2.
Proof.
  destruct e as [k|k]; intros [Hk Hn]; cbn [scancodes press].
  - pose proof (decode_down k m Hk Hn) as Hd. destruct (k <? 128); cbn [decode_all].
    + rewrite Hd. done.
    + destruct Hd as [-> Hd]. rewrite Hd. cbn [fst snd]. unfold chars. by rewrite filter_cons_False by auto.
  - pose proof (decode_up k m Hk Hn) as Hd. destruct (k <? 128); cbn [decode_all].
    + rewrite Hd. cbn [fst snd]. unfold chars. by rewrite filter_cons_False by auto.
    + destruct Hd as [-> Hd]. rewrite Hd. cbn [fst snd]. unfold chars. by rewrite !filter_cons_False by auto.
Qed.

Lemma decode_keys es m :
  Forall key_ok es → let r := decode_all (enc m) (concat (scancodes <$> es)) in
  chars r.1 = chars (typed es m).1 ∧ r.2 = enc (typed es m).2.
Proof.
  revert m. induction es as [|e es IH]; intros m Hes; [done |]. apply list.Forall_cons in Hes as [He Hes].
  cbn [fmap list_fmap concat typed]. rewrite decode_all_app. destruct (decode_key e m He) as [E1 E2].
  destruct (press e m) as [cs m'] eqn:Ep. cbn [fst snd] in E1, E2. rewrite E2. destruct (IH m' Hes) as [I1 I2].
  destruct (typed es m') as [cs' m'']. cbn [fst snd] in *. split; [|done]. by rewrite !chars_app, E1, I1.
Qed.

(** ** The controller *)

(** The codes that are waiting: the status says whether there are any, and
    reading the data takes the first. *)
Class KbdLaws (V : Type) `{Ports V} := {
  pending : V → list Z;
  kl_status v : (Z.land (pt_inb KBSTATP v).1 KBS_DIB =? 0) = bool_decide (pending v = []) ∧ pending (pt_inb KBSTATP v).2 = pending v;
  kl_data v x l : pending v = x :: l → (pt_inb KBDATAP v).1 = x ∧ pending (pt_inb KBDATAP v).2 = l;
}.

Lemma charcode_bytes i k : 0 ≤ code (default [] (charcode !! i)) k < 256.
Proof.
  assert (forallb (forallb (λ v, (0 <=? v) && (v <? 256))) charcode = true) as Hf by (by vm_compute).
  unfold code. destruct (charcode !! i) as [t|] eqn:Et; simpl; [|by destruct (Z.to_nat k)].
  destruct (t !! Z.to_nat k) as [v|] eqn:Ev; simpl; [|lia]. rewrite forallb_forall in Hf.
  specialize (Hf t). rewrite forallb_forall in Hf. specialize (Hf (proj1 (list_elem_of_In _ _) (list_elem_of_lookup_2 _ _ _ Et)) v
    (proj1 (list_elem_of_In _ _) (list_elem_of_lookup_2 _ _ _ Ev))). lia.
Qed.

Lemma caps_byte (b : bool) c : 0 ≤ c < 256 →
  0 ≤ (if b then if (97 <=? c) && (c <=? 122) then c + 65 - 97 else if (65 <=? c) && (c <=? 90) then c + 97 - 65 else c else c) < 256.
Proof.
  intros Hc. destruct b; [|done].
  destruct (Z.leb_spec 97 c), (Z.leb_spec c 122), (Z.leb_spec 65 c), (Z.leb_spec c 90); simpl; lia.
Qed.

Lemma decode_byte shift x : 0 ≤ (kbd_decode shift x).1 < 256.
Proof.
  unfold kbd_decode. destruct (x =? 0xE0); [simpl; lia |]. destruct (nz (Z.land x 0x80)); [simpl; lia |].
  destruct (if nz (Z.land shift E0ESC) then _ else _) as [k sh]. cbn [fst]. apply caps_byte, charcode_bytes.
Qed.

Section Getc.
Context {V : Type} `{KbdLaws V}.

Lemma kbdgetc_spec shift (v : V) :
  wp kbdgetc (Kbd shift v) (λ c k, match pending v with
    | [] => c = -1 ∧ kb_shift k = shift ∧ pending (kb_dev k) = []
    | x :: l => (c, kb_shift k) = kbd_decode shift x ∧ pending (kb_dev k) = l
    end).
Proof.
  destruct (kl_status v) as [E1 E2]. unfold kbdgetc, on_dev. apply wp_bind, wp_zoom, wp_inb. cbn [kb_dev kb_shift]. rewrite E1. case_bool_decide as Hp.
  - apply wp_ret. rewrite Hp. simpl. by rewrite E2.
  - destruct (pending v) as [|x l] eqn:Ep; [done |]. cbn [kb_shift kb_dev]. apply wp_bind, wp_zoom, wp_inb. cbn [kb_shift kb_dev].
    destruct (kl_data _ x l E2) as [-> Ed]. apply wp_bind, wp_gets. cbn [id kb_shift].
    destruct (kbd_decode shift x) as [c sh] eqn:Ec. apply wp_bind, wp_modify, wp_ret. done.
Qed.

Lemma getc_all_spec fuel shift (v : V) :
  (length (pending v) < fuel)%nat →
  wp (getc_all kbdgetc fuel) (Kbd shift v) (λ cs k,
    (cs, kb_shift k) = decode_all shift (pending v) ∧ Forall (λ c, 0 ≤ c < 256) cs ∧ pending (kb_dev k) = []).
Proof.
  revert shift v. induction fuel as [|fuel IH]; intros shift v Hf; [lia |]. cbn [getc_all]. apply wp_bind.
  eapply wp_mono; [apply kbdgetc_spec |]. intros c [sh v']. cbn [kb_shift kb_dev]. destruct (pending v) as [|x l].
  - intros (-> & -> & Hp). apply wp_ret. simpl. split_and!; [done | constructor | done].
  - intros [Ed Ep]. pose proof (decode_byte shift x) as Hc. rewrite <- Ed in Hc. cbn [fst] in Hc.
    destruct (Z.ltb_spec c 0); [lia |]. apply wp_bind. eapply wp_mono; [apply IH; rewrite Ep; simpl in Hf; lia |].
    intros cs [sh' v'']. cbn [kb_shift kb_dev]. rewrite Ep. intros (Ecs & Hcs & Hp'). apply wp_ret. cbn [decode_all kb_shift kb_dev].
    rewrite <- Ed, <- Ecs. split_and!; [done | by constructor | done].
Qed.
End Getc.

(** The console takes no notice of the zeros. *)
Lemma line_chars_chars cs st : Forall (λ c, 0 ≤ c) cs → line_chars cs st = line_chars (chars cs) st.
Proof.
  revert st. induction cs as [|c cs IH]; intros st Hc; [done |]. apply list.Forall_cons in Hc as [Hc Hcs].
  unfold chars. destruct (decide (c = 0)) as [->|Hn].
  - rewrite filter_cons_False by auto. cbn [line_chars]. destruct st as [rd ed]. simpl. by apply IH.
  - rewrite filter_cons_True by done. cbn [line_chars]. destruct (Z.ltb_spec c 0); [lia |]. by apply IH.
Qed.
