(* ===== verification/Lapic.v ===== *)
(** * Interrupt controllers and the clock ([lapic.c], [ioapic.c], [picirq.c], [uart.c])

    The code that programs the local APIC, the I/O APIC, the old interrupt
    controllers and the serial port, and that reads the date from the CMOS
    clock.  The devices are [Ports] and [Mmio] devices; loops that poll one
    have a bound as argument. *)

From S2P Require Import Prelude Mmu Mem Console Kbd Trap Ports.

Definition IRQ_ERROR : Z := 19.

(** ** The local APIC *)

(** The registers, and their indices in the array of words. *)
Inductive lapic_reg : Type :=
| ID
| VER
| TPR
| EOI
| SVR
| ESR
| ICRLO
| ICRHI
| TIMER
| PCINT
| LINT0
| LINT1
| ERROR
| TICR
| TCCR
| TDCR.

Definition reg_index (r : lapic_reg) : Z :=
  match r with
  | ID => 0x0020 / 4
  | VER => 0x0030 / 4
  | TPR => 0x0080 / 4
  | EOI => 0x00B0 / 4
  | SVR => 0x00F0 / 4
  | ESR => 0x0280 / 4
  | ICRLO => 0x0300 / 4
  | ICRHI => 0x0310 / 4
  | TIMER => 0x0320 / 4
  | PCINT => 0x0340 / 4
  | LINT0 => 0x0350 / 4
  | LINT1 => 0x0360 / 4
  | ERROR => 0x0370 / 4
  | TICR => 0x0380 / 4
  | TCCR => 0x0390 / 4
  | TDCR => 0x03E0 / 4
  end.

(** Bits of the registers. *)
Definition ENABLE : Z := 0x00000100.
Definition INIT : Z := 0x00000500.
Definition STARTUP : Z := 0x00000600.
Definition DELIVS : Z := 0x00001000.
Definition ASSERT : Z := 0x00004000.
Definition LEVEL : Z := 0x00008000.
Definition BCAST : Z := 0x00080000.
Definition X1 : Z := 0x0000000B.
Definition PERIODIC : Z := 0x00020000.
Definition MASKED : Z := 0x00010000.

Definition CMOS_PORT : Z := 0x70.
Definition CMOS_RETURN : Z := 0x71.

Section Lapic.
Context {V : Type} `{Mmio V, Ports V}.

(** The variable [lapic], 0 until [mpinit] found the address; memory; and the
    devices. *)
Record lap : Type := Lap { lp_base : Z; lp_mem : mem; lp_dev : V }.

Definition on_dev {A} (c : M V A) : M lap A := zoom lp_dev (λ v s, Lap (lp_base s) (lp_mem s) v) c.

(** [lapic[index]] *)
Definition lapicr (index : lapic_reg) : M lap Z :=
  b ← gets lp_base; on_dev (mread (u32 (b + 4 * reg_index index))).

Definition lapicw (index : lapic_reg) (value : Z) : M lap unit :=
  b ← gets lp_base;
  on_dev (mwrite (u32 (b + 4 * reg_index index)) value);;
  lapicr ID;; mret tt.

(** [while(lapic[ICRLO] & DELIVS)] *)
Fixpoint wait_delivs (fuel : nat) : M lap unit :=
  match fuel with
  | O => raise EFuel
  | S fuel => x ← lapicr ICRLO; if nz (Z.land x DELIVS) then wait_delivs fuel else mret tt
  end.

Definition lapicinit (fuel : nat) : M lap unit :=
  b ← gets lp_base;
  if b =? 0 then mret tt else
  lapicw SVR (Z.lor ENABLE (T_IRQ0 + IRQ_SPURIOUS));;
  lapicw TDCR X1;;
  lapicw TIMER (Z.lor PERIODIC (T_IRQ0 + IRQ_TIMER));;
  lapicw TICR 10000000;;
  lapicw LINT0 MASKED;;
  lapicw LINT1 MASKED;;
  ver ← lapicr VER;
  (if 4 <=? Z.land (Z.shiftr ver 16) 0xFF then lapicw PCINT MASKED else mret tt);;
  lapicw ERROR (T_IRQ0 + IRQ_ERROR);;
  lapicw ESR 0;;
  lapicw ESR 0;;
  lapicw EOI 0;;
  lapicw ICRHI 0;;
  lapicw ICRLO (Z.lor (Z.lor BCAST INIT) LEVEL);;
  wait_delivs fuel;;
  lapicw TPR 0.

Definition lapicid : M lap Z :=
  b ← gets lp_base;
  if b =? 0 then mret 0 else
  x ← lapicr ID; mret (Z.shiftr x 24).

Definition lapiceoi : M lap unit :=
  b ← gets lp_base;
  if b =? 0 then mret tt else lapicw EOI 0.

(** A 16-bit store. *)
Definition st16 (a x : Z) : M lap unit :=
  modify (λ s, Lap (lp_base s) (wr (wr (lp_mem s) a x) (a + 1) (Z.shiftr x 8)) (lp_dev s)).

Fixpoint startup_ipis (n : nat) (apicid addr : Z) : M lap unit :=
  match n with
  | O => mret tt
  | S n =>
    lapicw ICRHI (Z.shiftl apicid 24);;
    lapicw ICRLO (Z.lor STARTUP (Z.shiftr addr 12));;
    startup_ipis n apicid addr
  end.

Definition lapicstartap (apicid addr : Z) : M lap unit :=
  on_dev (outb CMOS_PORT 0xF);;
  on_dev (outb (CMOS_PORT + 1) 0x0A);;
  let wrv := V2P (P2V (Z.lor (Z.shiftl 0x40 4) 0x67)) in
  st16 wrv 0;;
  st16 (wrv + 2) (u16 (Z.shiftr addr 4));;
  lapicw ICRHI (Z.shiftl apicid 24);;
  lapicw ICRLO (Z.lor (Z.lor INIT LEVEL) ASSERT);;
  lapicw ICRLO (Z.lor INIT LEVEL);;
  startup_ipis 2 apicid addr.
End Lapic.
Arguments lap V : clear implicits.
Arguments Lap {V} _ _ _.
Arguments lp_base {V} _.
Arguments lp_mem {V} _.
Arguments lp_dev {V} _.

(** ** The CMOS clock *)

Definition CMOS_STATA : Z := 0x0a.
Definition CMOS_STATB : Z := 0x0b.
Definition CMOS_UIP : Z := Z.shiftl 1 7.
Definition SECS : Z := 0x00.
Definition MINS : Z := 0x02.
Definition HOURS : Z := 0x04.
Definition DAY : Z := 0x07.
Definition MONTH : Z := 0x08.
Definition YEAR : Z := 0x09.

Record rtcdate : Type := Rtcdate { second : Z; minute : Z; hour : Z; day : Z; month : Z; year : Z }.

#[export] Instance rtcdate_eq_dec : EqDecision rtcdate.
Proof. solve_decision. Defined.

Section Cmos.
Context {V : Type} `{Ports V}.

Definition cmos_read (reg : Z) : M V Z :=
  outb CMOS_PORT reg;; inb CMOS_RETURN.

Definition fill_rtcdate : M V rtcdate :=
  s ← cmos_read SECS;
  mi ← cmos_read MINS;
  h ← cmos_read HOURS;
  d ← cmos_read DAY;
  mo ← cmos_read MONTH;
  y ← cmos_read YEAR;
  mret (Rtcdate s mi h d mo y).

(** The rounds of [for(;;)] in [cmostime]; at most [fuel]. *)
Fixpoint stable_date (fuel : nat) : M V rtcdate :=
  match fuel with
  | O => raise EFuel
  | S fuel =>
    t1 ← fill_rtcdate;
    a ← cmos_read CMOS_STATA;
    if nz (Z.land a CMOS_UIP) then stable_date fuel else
    t2 ← fill_rtcdate;
    if bool_decide (t1 = t2) then mret t1 else stable_date fuel
  end.

Definition CONV (x : Z) : Z := Z.shiftr x 4 * 10 + Z.land x 0xf.

Definition cmostime (fuel : nat) : M V rtcdate :=
  sb ← cmos_read CMOS_STATB;
  let bcd := Z.land sb (Z.shiftl 1 2) =? 0 in
  t1 ← stable_date fuel;
  let t1 := if bcd then Rtcdate (CONV (second t1)) (CONV (minute t1)) (CONV (hour t1)) (CONV (day t1)) (CONV (month t1)) (CONV (year t1))
            else t1 in
  mret (Rtcdate (second t1) (minute t1) (hour t1) (day t1) (month t1) (u32 (year t1 + 2000))).
End Cmos.

(** ** The old interrupt controllers *)

Definition IO_PIC1 : Z := 0x20.
Definition IO_PIC2 : Z := 0xA0.

Definition picinit {V} `{Ports V} : M V unit :=
  outb (IO_PIC1 + 1) 0xFF;; outb (IO_PIC2 + 1) 0xFF.

(** ** The I/O APIC *)

Definition IOAPIC : Z := 0xFEC00000.
Definition REG_ID : Z := 0x00.
Definition REG_VER : Z := 0x01.
Definition REG_TABLE : Z := 0x10.
Definition INT_DISABLED : Z := 0x00010000.

Section Ioapic.
Context {V : Type} `{Mmio V}.

(** [ioapic->reg] and [ioapic->data] *)
Definition ioapicread (reg : Z) : M V Z :=
  mwrite IOAPIC reg;; mread (IOAPIC + 16).

Definition ioapicwrite (reg data : Z) : M V unit :=
  mwrite IOAPIC reg;; mwrite (IOAPIC + 16) data.

Fixpoint ioapic_mask (n : nat) (i : Z) : M V unit :=
  match n with
  | O => mret tt
  | S n =>
    ioapicwrite (REG_TABLE + 2 * i) (Z.lor INT_DISABLED (T_IRQ0 + i));;
    ioapicwrite (REG_TABLE + 2 * i + 1) 0;;
    ioapic_mask n (i + 1)
  end.

(** The result says whether the message that the id differs is printed. *)
Definition ioapicinit (ioapicid : Z) : M V bool :=
  ver ← ioapicread REG_VER;
  let maxintr := Z.land (Z.shiftr ver 16) 0xFF in
  x ← ioapicread REG_ID;
  let id := Z.shiftr x 24 in
  ioapic_mask (Z.to_nat (maxintr + 1)) 0;;
  mret (negb (id =? ioapicid)).

Definition ioapicenable (irq cpunum : Z) : M V unit :=
  ioapicwrite (REG_TABLE + 2 * irq) (T_IRQ0 + irq);;
  ioapicwrite (REG_TABLE + 2 * irq + 1) (Z.shiftl cpunum 24).
End Ioapic.

(** ** The serial port *)

Definition COM1 : Z := 0x3f8.

Section Uart.
Context {V : Type} `{Ports V, Mmio V}.

(** The variable [uart] and the devices. *)
Record uart_st : Type := Uart { ua_on : bool; ua_dev : V }.

Definition on_uart {A} (c : M V A) : M uart_st A := zoom ua_dev (λ v s, Uart (ua_on s) v) c.

(** Polls until the transmitter is free, at most [n] times. *)
Fixpoint uart_wait (n : nat) : M uart_st unit :=
  match n with
  | O => mret tt
  | S n => x ← on_uart (inb (COM1 + 5)); if nz (Z.land x 0x20) then mret tt else uart_wait n
  end.

Definition uartputc (c : Z) : M uart_st unit :=
  s ← gets id;
  if negb (ua_on s) then mret tt else
  uart_wait 128;;
  on_uart (outb (COM1 + 0) c).

Fixpoint uartputs (l : list Z) : M uart_st unit :=
  match l with
  | [] => mret tt
  | c :: l => uartputc c;; uartputs l
  end.

(** "xv6..." and a newline *)
Definition xv6_banner : list Z := [120; 118; 54; 46; 46; 46; 10].

Definition uartinit : M uart_st unit :=
  on_uart (outb (COM1 + 2) 0);;
  on_uart (outb (COM1 + 3) 0x80);;
  on_uart (outb (COM1 + 0) (115200 / 9600));;
  on_uart (outb (COM1 + 1) 0);;
  on_uart (outb (COM1 + 3) 0x03);;
  on_uart (outb (COM1 + 4) 0);;
  on_uart (outb (COM1 + 1) 0x01);;
  x ← on_uart (inb (COM1 + 5));
  if x =? 0xFF then mret tt else
  modify (λ s, Uart true (ua_dev s));;
  on_uart (inb (COM1 + 2));;
  on_uart (inb (COM1 + 0));;
  on_uart (ioapicenable IRQ_COM1 0);;
  uartputs xv6_banner.

Definition uartgetc : M uart_st Z :=
  s ← gets id;
  if negb (ua_on s) then mret (-1) else
  x ← on_uart (inb (COM1 + 5));
  if negb (nz (Z.land x 0x01)) then mret (-1) else
  on_uart (inb (COM1 + 0)).

(** [consoleintr(uartgetc)], with at most [fuel] characters. *)
Definition uartintr (fuel : nat) : M (uart_st * cons) (bool * bool) :=
  cs ← zoom fst (λ u s, (u, s.2)) (getc_all uartgetc fuel);
  zoom snd (λ c s, (s.1, c)) (consoleintr cs false false).
End Uart.
Arguments uart_st V : clear implicits.
Arguments Uart {V} _ _.
Arguments ua_on {V} _.
Arguments ua_dev {V} _.
