(* ===== verification/RtcSpec.v ===== *)
(** * Reading the clock ([lapic.c], [cmostime])

    The clock chip (an MC146818) updates its registers once a second, also
    while they are read one by one, and what is read during an update is
    undefined.  [RtcLaws] is what its data sheet promises, in nanoseconds: the
    bit [CMOS_UIP] is set from 244 microseconds before an update to its end,
    which comes at most 1984 microseconds after its start.  An access to a port
    is taken to last between [acc_min] and [acc_max], short enough for thirteen
    of them to fit in the 244 microseconds ([microdelay] is empty).  [cmostime]
    then returns a date that the clock showed, and it returns. *)

From S2P Require Import Prelude Mmu Mem Trap Ports Lapic.

(** The field in a register. *)
Definition field (r : Z) (t : rtcdate) : Z :=
  if r =? SECS then second t else if r =? MINS then minute t else if r =? HOURS then hour t
  else if r =? DAY then day t else if r =? MONTH then month t else year t.

Definition date_regs : list Z := [SECS; MINS; HOURS; DAY; MONTH; YEAR].

Definition bcd (x : Z) : Z := 16 * (x / 10) + x mod 10.

(** The register of a field: in binary or binary coded decimal, by status B. *)
Definition rtc_enc (statb x : Z) : Z := if Z.land statb (Z.shiftl 1 2) =? 0 then bcd x else x.

Definition in_range (t : rtcdate) : Prop := Forall (λ r, 0 ≤ field r t < 100) date_regs.

(** From [CMOS_UIP] to the update, and the longest update. *)
Definition tBUC : Z := 244000.
Definition tUC : Z := 1984000.

Class RtcLaws (V : Type) `{Ports V} := {
  rtc_sel : V → Z;
  rtc_now : V → Z;
  rtc_start : nat → Z;
  rtc_stop : nat → Z;
  rtc_date : nat → rtcdate;
  rtc_statb : Z;
  acc_min : Z;
  acc_max : Z;
  rtc_acc : 0 < acc_min ≤ acc_max ∧ 13 * acc_max ≤ tBUC;
  rtc_range n : in_range (rtc_date n);
  (* the bit is set from [rtc_start n] to [rtc_stop n], about once a second *)
  rtc_window n : rtc_start n < rtc_stop n ≤ rtc_start n + tBUC + tUC;
  rtc_second n : rtc_stop n + 900000000 ≤ rtc_start (S n);
  rtc_select r v : rtc_sel (pt_outb CMOS_PORT r v) = r ∧ acc_min ≤ rtc_now (pt_outb CMOS_PORT r v) - rtc_now v ≤ acc_max;
  rtc_pass v : acc_min ≤ rtc_now (pt_inb CMOS_RETURN v).2 - rtc_now v ≤ acc_max;
  (* a register has its value between two updates; during one it is undefined *)
  rtc_read v n : rtc_sel v ∈ date_regs → rtc_stop n ≤ rtc_now v < rtc_start (S n) + tBUC →
    (pt_inb CMOS_RETURN v).1 = rtc_enc rtc_statb (field (rtc_sel v) (rtc_date n));
  rtc_b v : rtc_sel v = CMOS_STATB → (pt_inb CMOS_RETURN v).1 = rtc_statb;
  rtc_a v : rtc_sel v = CMOS_STATA → rtc_stop 0 ≤ rtc_now v →
    nz (Z.land (pt_inb CMOS_RETURN v).1 CMOS_UIP) = true ↔ ∃ n, rtc_start n ≤ rtc_now v < rtc_stop n;
}.

Section Rtc.
Context {V : Type} `{RtcLaws V}.

(** The clock shows date [n] at the time [t]. *)
Definition shows (n : nat) (t : Z) : Prop := rtc_stop n ≤ t < rtc_start (S n) + tBUC.

(** [v'] comes [k] accesses after [v]. *)
Definition aged (k : Z) (v v' : V) : Prop := k * acc_min ≤ rtc_now v' - rtc_now v ≤ k * acc_max.

Lemma aged_trans a b v v1 v2 : aged a v v1 → aged b v1 v2 → aged (a + b) v v2.
Proof. unfold aged. lia. Qed.

Lemma aged_le k v v' : 0 ≤ k → aged k v v' → rtc_now v ≤ rtc_now v'.
Proof. unfold aged. pose proof rtc_acc. nia. Qed.

(** A register, read at the instant [v1]. *)
Lemma cmos_read_spec r (v : V) :
  0 ≤ r < 256 →
  wp (cmos_read r) v (λ x v', ∃ v1, aged 1 v v1 ∧ aged 1 v1 v' ∧ rtc_sel v1 = r ∧ x = (pt_inb CMOS_RETURN v1).1).
Proof.
  intros Hr. unfold cmos_read. apply wp_bind, wp_outb, wp_inb. unfold u8. rewrite (Z.mod_small r) by done.
  destruct (rtc_select r v) as [E Hp]. pose proof (rtc_pass (pt_outb CMOS_PORT r v)). exists (pt_outb CMOS_PORT r v).
  unfold aged. split_and!; try done; lia.
Qed.

(** The time of some update comes after [t]: the dates cover all times. *)
Lemma stop_grows n : rtc_stop 0 + 900000000 * Z.of_nat n ≤ rtc_stop n.
Proof. induction n as [|n IH]; [lia |]. pose proof (rtc_second n). pose proof (rtc_window (S n)). lia. Qed.

Lemma stop_mono m n : (m ≤ n)%nat → rtc_stop m ≤ rtc_stop n.
Proof. induction 1 as [|n Hmn IH]; [lia |]. pose proof (rtc_second n). pose proof (rtc_window (S n)). lia. Qed.

Lemma period_ex t : rtc_stop 0 ≤ t → ∃ n, rtc_stop n ≤ t < rtc_stop (S n).
Proof.
  intros Ht. assert (∀ m, t < rtc_stop m → ∃ n, rtc_stop n ≤ t < rtc_stop (S n)) as Hm.
  { induction m as [|m IH]; [lia |]. intros Hm. destruct (decide (rtc_stop m ≤ t)); [by exists m | apply IH; lia]. }
  apply (Hm (Z.to_nat (t - rtc_stop 0 + 1))). pose proof (stop_grows (Z.to_nat (t - rtc_stop 0 + 1))). lia.
Qed.

(** Without the bit, a date is shown and will be for 244 microseconds. *)
Lemma no_uip v :
  rtc_sel v = CMOS_STATA → rtc_stop 0 ≤ rtc_now v → nz (Z.land (pt_inb CMOS_RETURN v).1 CMOS_UIP) = false →
  ∃ n, rtc_stop n ≤ rtc_now v < rtc_start (S n).
Proof.
  intros Hs Ht Hu. destruct (period_ex _ Ht) as (n & G1 & G2). exists n. split; [done |].
  destruct (decide (rtc_start (S n) ≤ rtc_now v)) as [Hw|]; [|lia].
  assert (nz (Z.land (pt_inb CMOS_RETURN v).1 CMOS_UIP) = true); [|congruence]. apply rtc_a; [done | done |]. by exists (S n).
Qed.

Definition encoded (t : rtcdate) : rtcdate :=
  let e := rtc_enc rtc_statb in Rtcdate (e (second t)) (e (minute t)) (e (hour t)) (e (day t)) (e (month t)) (e (year t)).

Lemma date_read_spec r (v : V) :
  r ∈ date_regs →
  wp (cmos_read r) v (λ x v', aged 2 v v' ∧ ∀ n, rtc_stop n ≤ rtc_now v → rtc_now v + acc_max < rtc_start (S n) + tBUC →
    x = rtc_enc rtc_statb (field r (rtc_date n))).
Proof.
  intros Hr. assert (0 ≤ r < 256) as Hb.
  { revert r Hr. apply list.Forall_forall. repeat constructor; done. }
  eapply wp_mono; [by apply cmos_read_spec |]. intros x v' (v1 & A1 & A2 & <- & ->).
  split; [exact (aged_trans 1 1 v v1 v' A1 A2) |]. intros n G1 G2. pose proof rtc_acc. unfold aged in A1.
  apply rtc_read; [done | lia].
Qed.

Local Ltac next_reg := apply wp_bind; eapply wp_mono; [apply date_read_spec; set_solver |].

(** Six registers read while a date is shown make up that date. *)
Lemma fill_spec (v : V) :
  wp fill_rtcdate v (λ t v', aged 12 v v' ∧
    ∀ n, rtc_stop n ≤ rtc_now v → rtc_now v + 11 * acc_max < rtc_start (S n) + tBUC → t = encoded (rtc_date n)).
Proof.
  unfold fill_rtcdate.
  next_reg. intros x1 v1 (A1 & R1). next_reg. intros x2 v2 (A2 & R2). next_reg. intros x3 v3 (A3 & R3).
  next_reg. intros x4 v4 (A4 & R4). next_reg. intros x5 v5 (A5 & R5). next_reg. intros x6 v6 (A6 & R6).
  apply wp_ret. pose proof rtc_acc. unfold aged in *. split; [lia |]. intros n G1 G2. unfold encoded.
  rewrite (R1 n), (R2 n), (R3 n), (R4 n), (R5 n), (R6 n); [done | lia..].
Qed.

(** A date that the clock showed from [v] to [v']. *)
Definition shown (v : V) (t : rtcdate) (v' : V) : Prop :=
  ∃ n a, rtc_now v ≤ a ≤ rtc_now v' ∧ shows n a ∧ t = encoded (rtc_date n).

(** A round gives such a date, or it takes its time and the next one runs;
    one that ends before [CMOS_UIP] is set gives the date. *)
Lemma round_spec fuel (v0 v : V) :
  rtc_stop 0 ≤ rtc_now v → rtc_now v0 ≤ rtc_now v →
  (∀ v', 14 * acc_min ≤ rtc_now v' - rtc_now v ≤ 26 * acc_max →
    (∀ n, rtc_stop n ≤ rtc_now v → rtc_start (S n) ≤ rtc_now v + 26 * acc_max) →
    wp (stable_date fuel) v' (shown v0)) →
  wp (stable_date (S fuel)) v (shown v0).
Proof.
  intros G0 Hv Hnext. pose proof rtc_acc as Hacc.
  cbn [stable_date]. apply wp_bind. eapply wp_mono; [apply fill_spec |]. intros t1 v1 [A1 R1].
  apply wp_bind. eapply wp_mono; [by apply cmos_read_spec |]. intros a v2 (w & B1 & B2 & Hsel & ->). unfold aged in *.
  destruct (nz _) eqn:Eu.
  { apply Hnext; [lia |]. intros n Hn. apply (rtc_a _ Hsel) in Eu as (m & G1 & G2); [|lia].
    destruct (decide (S n ≤ m)%nat) as [Hm|Hm]; [|pose proof (stop_mono m n); lia].
    destruct (decide (m = S n)) as [->|]; [lia |]. pose proof (stop_mono (S n) (m - 1)) as Hs. destruct m as [|m]; [lia |].
    pose proof (rtc_second m). pose proof (rtc_window (S n)). replace (S m - 1)%nat with m in Hs by lia. lia. }
  destruct (no_uip w Hsel) as (n & Hn1 & Hn2); [lia | done |].
  apply wp_bind. eapply wp_mono; [apply fill_spec |]. intros t2 v3 [A3 R2]. unfold aged in A3.
  pose proof (R2 n ltac:(lia) ltac:(lia)) as E2. case_bool_decide as E.
  - apply wp_ret. exists n, (rtc_now w). unfold shows, tBUC. split_and!; [lia.. | congruence].
  - apply Hnext; [lia |]. intros m Hm. destruct (decide (rtc_start (S m) ≤ rtc_now v + 26 * acc_max)) as [|Hs]; [done |].
    exfalso. apply E. rewrite (R1 m), (R2 m); [done | lia..].
Qed.

(** Far enough from the next update one round is enough. *)
Lemma quiet_round n fuel (v0 v : V) :
  (1 ≤ fuel)%nat → rtc_now v0 ≤ rtc_now v → rtc_stop n ≤ rtc_now v → rtc_now v + 26 * acc_max < rtc_start (S n) →
  wp (stable_date fuel) v (shown v0).
Proof.
  destruct fuel as [|fuel]; [lia |]. intros _ Hv G1 G2. pose proof (stop_mono 0 n ltac:(lia)).
  apply round_spec; [lia | done |]. intros v' _ Hf. pose proof (Hf n G1). lia.
Qed.

(** Near an update, the rounds until its end and one more. *)
Lemma busy_rounds n k fuel (v0 v : V) :
  (k < fuel)%nat → rtc_now v0 ≤ rtc_now v → rtc_stop 0 ≤ rtc_now v →
  rtc_now v < rtc_stop (S n) ≤ rtc_now v + Z.of_nat k * (14 * acc_min) →
  wp (stable_date fuel) v (shown v0).
Proof.
  revert v fuel. induction k as [|k IH]; intros v fuel Hk Hv G0 Hs; [lia |]. destruct fuel as [|fuel]; [lia |].
  apply round_spec; [done | done |]. intros v' Hv' _. pose proof rtc_acc as Hacc.
  destruct (decide (rtc_stop (S n) ≤ rtc_now v')) as [Hd|Hd].
  - apply (quiet_round (S n)); [lia | lia | lia |]. pose proof (rtc_second (S n)). unfold tBUC in Hacc. lia.
  - apply IH; lia.
Qed.

(** Rounds that are enough. *)
Definition date_rounds : nat := Z.to_nat ((3 * tBUC + tUC) / (14 * acc_min)) + 2.

Lemma stable_date_spec fuel (v : V) :
  (date_rounds ≤ fuel)%nat → rtc_stop 0 ≤ rtc_now v → wp (stable_date fuel) v (shown v).
Proof.
  intros Hf G0. pose proof rtc_acc as Hacc. destruct (period_ex _ G0) as (n & G1 & G2).
  destruct (decide (rtc_now v + 26 * acc_max < rtc_start (S n))) as [Hq|Hq].
  - apply (quiet_round n); [unfold date_rounds in Hf; lia | lia | done | done].
  - apply (busy_rounds n (date_rounds - 1)); [unfold date_rounds in *; lia | lia | done |]. split; [done |].
    pose proof (rtc_window (S n)). unfold date_rounds.
    assert (0 ≤ (3 * tBUC + tUC) / (14 * acc_min)) by (apply Z.div_pos; unfold tBUC, tUC; lia).
    replace (Z.of_nat (Z.to_nat ((3 * tBUC + tUC) / (14 * acc_min)) + 2 - 1)) with ((3 * tBUC + tUC) / (14 * acc_min) + 1) by lia.
    assert (0 < 14 * acc_min) as Hp by lia. apply (Z.mul_succ_div_gt (3 * tBUC + tUC)) in Hp.
    rewrite (Z.mul_comm _ (14 * acc_min)), Z.add_1_r. lia.
Qed.

Lemma conv_bcd x : 0 ≤ x < 100 → CONV (bcd x) = x.
Proof.
  intros Hx. unfold CONV, bcd. rewrite Z.shiftr_div_pow2 by lia. change 0xf with (Z.ones 4). rewrite Z.land_ones by lia.
  change (2 ^ 4) with 16. zdiv.
Qed.

(** The date, with the century. *)
Definition full_date (t : rtcdate) : rtcdate := Rtcdate (second t) (minute t) (hour t) (day t) (month t) (year t + 2000).

Lemma cmostime_spec fuel (v : V) :
  (date_rounds ≤ fuel)%nat → rtc_stop 0 ≤ rtc_now v →
  wp (cmostime fuel) v (λ t v', ∃ n a, rtc_now v ≤ a ≤ rtc_now v' ∧ shows n a ∧ t = full_date (rtc_date n)).
Proof.
  intros Hf G0. unfold cmostime. apply wp_bind. eapply wp_mono; [by apply cmos_read_spec |]. intros sb v1 (w & B1 & B2 & Hsel & ->).
  rewrite (rtc_b _ Hsel). apply aged_le in B1, B2; [|lia..].
  apply wp_bind. eapply wp_mono; [apply stable_date_spec; [done | lia] |].
  intros t v' (n & a & Ha & Hn & ->). apply wp_ret. exists n, a. split_and!; [lia | lia | done |].
  pose proof (rtc_range n) as Hr. unfold in_range, date_regs in Hr. rewrite !list.Forall_cons in Hr.
  destruct Hr as (R1 & R2 & R3 & R4 & R5 & R6 & _). cbn in R1, R2, R3, R4, R5, R6.
  unfold encoded, full_date, rtc_enc. destruct (Z.land rtc_statb (Z.shiftl 1 2) =? 0); cbn [second minute hour day month year].
  - rewrite !conv_bcd by done. f_equal. apply Z.mod_small. lia.
  - f_equal. apply Z.mod_small. lia.
Qed.
End Rtc.
