(* ===== verification/IoapicSpec.v ===== *)
(** * What the I/O APIC is told ([ioapic.c])

    [IoapicLaws] is the register window of the device: an index register and
    a data register.  After [ioapicinit] every interrupt is masked, and
    [ioapicenable] lets one through and leaves the others alone. *)

From S2P Require Import Prelude Mmu Mem Trap Ports Lapic.

Class IoapicLaws (V : Type) `{Mmio V} := {
  io_sel : V → Z;
  io_reg : V → Z → Z;
  io_index r v : io_sel (mm_write IOAPIC r v) = r ∧ ∀ k, io_reg (mm_write IOAPIC r v) k = io_reg v k;
  io_write x v k : io_reg (mm_write (IOAPIC + 16) x v) k = if k =? io_sel v then x else io_reg v k;
  io_read v : (mm_read (IOAPIC + 16) v).1 = io_reg v (io_sel v) ∧ ∀ k, io_reg (mm_read (IOAPIC + 16) v).2 k = io_reg v k;
}.

(** Entry [i] of the redirection table: masked, or sent to a CPU with the
    vector of the interrupt. *)
Inductive route : Type :=
| Masked
| Routed (cpunum : Z).

Definition has_route (reg : Z → Z) (i : Z) (r : route) : Prop :=
  match r with
  | Masked => Z.testbit (reg (REG_TABLE + 2 * i)) 16 = true
  | Routed cpunum => reg (REG_TABLE + 2 * i) = T_IRQ0 + i ∧ reg (REG_TABLE + 2 * i + 1) = Z.shiftl cpunum 24
  end.

Section Ioapic.
Context {V : Type} `{IoapicLaws V}.

Lemma ioapicwrite_spec r x (v : V) :
  0 ≤ r < 2 ^ 32 → 0 ≤ x < 2 ^ 32 →
  wp (ioapicwrite r x) v (λ _ v', ∀ k, io_reg v' k = if k =? r then x else io_reg v k).
Proof.
  intros Hr Hx. unfold ioapicwrite. apply wp_bind, wp_mwrite, wp_mwrite. rewrite !u32_id by done.
  destruct (io_index r v) as [E1 E2]. intros k. by rewrite io_write, E1, E2.
Qed.

Lemma ioapicread_spec r (v : V) :
  0 ≤ r < 2 ^ 32 → wp (ioapicread r) v (λ x v', x = io_reg v r ∧ ∀ k, io_reg v' k = io_reg v k).
Proof.
  intros Hr. unfold ioapicread. apply wp_bind, wp_mwrite, wp_mread. rewrite u32_id by done. destruct (io_index r v) as [E1 E2].
  destruct (io_read (mm_write IOAPIC r v)) as [-> E3]. rewrite E1, E2. split; [done |]. intros k. by rewrite E3, E2.
Qed.

(** The entry that [ioapicinit] writes. *)
Lemma masked_entry i :
  0 ≤ i < 256 → 0 ≤ Z.lor INT_DISABLED (T_IRQ0 + i) < 2 ^ 32 ∧ Z.testbit (Z.lor INT_DISABLED (T_IRQ0 + i)) 16 = true.
Proof using.
  intros Hi. split; [|by rewrite Z.lor_spec]. apply lor_range; [lia | done |]. unfold T_IRQ0. lia.
Qed.

Lemma ioapic_mask_spec n i (v : V) :
  0 ≤ i → i + Z.of_nat n ≤ 256 →
  wp (ioapic_mask n i) v (λ _ v', (∀ j, i ≤ j < i + Z.of_nat n → has_route (io_reg v') j Masked) ∧
    ∀ j, j < i ∨ i + Z.of_nat n ≤ j → io_reg v' (REG_TABLE + 2 * j) = io_reg v (REG_TABLE + 2 * j)).
Proof.
  revert i v. induction n as [|n IH]; intros i v Hi Hn.
  { apply wp_ret. split; [lia | done]. }
  cbn [ioapic_mask]. destruct (masked_entry i) as [Hr Hbit]; [lia |]. unfold REG_TABLE in *.
  apply wp_bind. eapply wp_mono; [apply ioapicwrite_spec; [lia | done] |]. intros [] v1 E1.
  apply wp_bind. eapply wp_mono; [apply ioapicwrite_spec; lia |]. intros [] v2 E2.
  eapply wp_mono; [apply IH; lia |]. intros [] v3 [A B].
  assert (∀ j, j ≤ i → io_reg v3 (0x10 + 2 * j) = io_reg v1 (0x10 + 2 * j)) as Hlow.
  { intros j Hj. rewrite B by lia. rewrite E2. by destruct (Z.eqb_spec (16 + 2 * j) (16 + 2 * i + 1)); [lia |]. }
  split.
  - intros j Hj. destruct (decide (j = i)) as [->|]; [|apply A; lia]. unfold has_route, REG_TABLE. rewrite Hlow, E1, Z.eqb_refl by lia. done.
  - intros j Hj. destruct (decide (j < i)).
    + rewrite Hlow, E1 by lia. by destruct (Z.eqb_spec (16 + 2 * j) (16 + 2 * i)); [lia |].
    + rewrite B, E2, E1 by lia. destruct (Z.eqb_spec (16 + 2 * j) (16 + 2 * i + 1)), (Z.eqb_spec (16 + 2 * j) (16 + 2 * i)); lia || done.
Qed.

(** The last interrupt that the device has. *)
Definition maxintr (v : V) : Z := Z.land (Z.shiftr (io_reg v REG_VER) 16) 0xFF.

Lemma maxintr_range v : 0 ≤ maxintr v < 256.
Proof using. unfold maxintr. change 0xFF with (Z.ones 8). rewrite Z.land_ones by lia. apply Z.mod_pos_bound. lia. Qed.

Lemma ioapicinit_spec id (v : V) :
  wp (ioapicinit id) v (λ b v', b = negb (Z.shiftr (io_reg v REG_ID) 24 =? id) ∧
    (∀ i, 0 ≤ i ≤ maxintr v → has_route (io_reg v') i Masked)).
Proof.
  unfold ioapicinit. apply wp_bind. eapply wp_mono; [by apply ioapicread_spec |]. intros ver v1 [-> E1].
  apply wp_bind. eapply wp_mono; [by apply ioapicread_spec |]. intros x v2 [-> E2].
  fold (maxintr v). pose proof (maxintr_range v) as Hm.
  apply wp_bind. eapply wp_mono; [apply ioapic_mask_spec; lia |]. intros [] v3 [A _]. apply wp_ret. rewrite E1. split; [done |].
  intros i Hi. apply A. lia.
Qed.

Lemma ioapicenable_spec irq cpunum (v : V) :
  0 ≤ irq < 256 → 0 ≤ cpunum < 256 →
  wp (ioapicenable irq cpunum) v (λ _ v', has_route (io_reg v') irq (Routed cpunum) ∧
    ∀ i r, i ≠ irq → has_route (io_reg v) i r → has_route (io_reg v') i r).
Proof.
  intros Hi Hc. assert (Z.shiftl cpunum 24 = cpunum * 2 ^ 24) as Es by (by rewrite Z.shiftl_mul_pow2).
  unfold ioapicenable, REG_TABLE, T_IRQ0. apply wp_bind. eapply wp_mono; [apply ioapicwrite_spec; lia |]. intros [] v1 E1.
  eapply wp_mono; [apply ioapicwrite_spec; [lia | rewrite Es; lia] |]. intros [] v2 E2.
  assert (∀ k, io_reg v2 k = if k =? 0x10 + 2 * irq + 1 then Z.shiftl cpunum 24 else if k =? 0x10 + 2 * irq then 32 + irq else io_reg v k) as E.
  { intros k. by rewrite E2, E1. }
  split.
  - unfold has_route, REG_TABLE, T_IRQ0. rewrite !E, !Z.eqb_refl. by destruct (Z.eqb_spec (16 + 2 * irq) (16 + 2 * irq + 1)); [lia |].
  - intros i r Hn Hr. assert (io_reg v2 (0x10 + 2 * i) = io_reg v (0x10 + 2 * i) ∧ io_reg v2 (0x10 + 2 * i + 1) = io_reg v (0x10 + 2 * i + 1)) as [Ea Eb].
    { rewrite !E. destruct (Z.eqb_spec (16 + 2 * i) (16 + 2 * irq + 1)), (Z.eqb_spec (16 + 2 * i) (16 + 2 * irq)),
        (Z.eqb_spec (16 + 2 * i + 1) (16 + 2 * irq + 1)), (Z.eqb_spec (16 + 2 * i + 1) (16 + 2 * irq)); lia || done. }
    destruct r; unfold has_route, REG_TABLE in *; by rewrite ?Ea, ?Eb.
Qed.

(** [ioapicinit] and then the interrupts that the drivers enable. *)
Fixpoint enable_all (l : list (Z * Z)) : M V unit :=
  match l with
  | [] => mret tt
  | (irq, cpunum) :: l => ioapicenable irq cpunum;; enable_all l
  end.

(** The route of interrupt [i] after this. *)
Definition route_of (l : list (Z * Z)) (i : Z) : route :=
  foldl (λ r x, if x.1 =? i then Routed x.2 else r) Masked l.

Lemma enable_all_spec l (v : V) (i : Z) (r : route) :
  Forall (λ x, 0 ≤ x.1 < 256 ∧ 0 ≤ x.2 < 256) l → has_route (io_reg v) i r →
  wp (enable_all l) v (λ _ v', has_route (io_reg v') i (foldl (λ r x, if x.1 =? i then Routed x.2 else r) r l)).
Proof.
  revert v r. induction l as [|[irq c] l IH]; intros v r Hl Hr; [by apply wp_ret |].
  apply list.Forall_cons in Hl as [[Hi Hc] Hl]. cbn [enable_all foldl fst snd]. apply wp_bind.
  eapply wp_mono; [by apply ioapicenable_spec |]. intros [] v1 [A B]. apply IH; [done |].
  destruct (Z.eqb_spec irq i) as [<-|Hn]; [done |]. by apply B.
Qed.
End Ioapic.
