(* ===== verification/Mp.v ===== *)
(** * Finding the processors ([mp.c], [mp.h])

    [mpinit] reads the tables that the BIOS left in memory.  The kernel reads
    them through its page table, which maps physical memory and the devices
    only; an access elsewhere is a fault. *)

From S2P Require Import Prelude Mmu Mem Ports.

(** ** Layout *)

(** [struct mp] *)
Definition sizeof_mp : Z := 16.
Definition mp_physaddr : Z := 4.
Definition mp_imcrp : Z := 12.

(** [struct mpconf] *)
Definition sizeof_mpconf : Z := 44.
Definition mpconf_length : Z := 4.
Definition mpconf_version : Z := 6.
Definition mpconf_lapicaddr : Z := 36.

(** [struct mpproc] and [struct mpioapic] *)
Definition sizeof_mpproc : Z := 20.
Definition mpproc_apicid : Z := 1.
Definition sizeof_mpioapic : Z := 8.
Definition mpioapic_apicno : Z := 1.

Definition MPPROC : Z := 0x00.
Definition MPBUS : Z := 0x01.
Definition MPIOAPIC : Z := 0x02.
Definition MPIOINTR : Z := 0x03.
Definition MPLINTR : Z := 0x04.

(** "_MP_" and "PCMP" *)
Definition mp_signature : list Z := [95; 77; 80; 95].
Definition mpconf_signature : list Z := [80; 67; 77; 80].

Section Mp.
Context {V : Type} `{Ports V}.

(** The [apicid] of each [struct cpu], [ncpu], [ioapicid] and [lapic]. *)
Record mp_st : Type := MpSt {
  mp_mem : mem;
  mp_cpus : list Z;
  mp_ncpu : Z;
  mp_ioapicid : Z;
  mp_lapic : Z;
  mp_dev : V;
}.

(** The byte at a virtual address: memory from [KERNBASE] on, and the devices
    at their own addresses. *)
Definition look (m : mem) (va : Z) : option Z :=
  let va := u32 va in
  if (KERNBASE <=? va) && (va <? KERNBASE + PHYSTOP) then Some (rd m (V2P va))
  else if DEVSPACE <=? va then Some (rd m va)
  else None.

Definition kb (va : Z) : M mp_st Z := λ s,
  match look (mp_mem s) va with Some b => Ok (b, s) | None => Err (EFault (u32 va)) end.

Definition kw16 (va : Z) : M mp_st Z :=
  a ← kb va; b ← kb (va + 1); mret (a + Z.shiftl b 8).

Definition kw32 (va : Z) : M mp_st Z :=
  a ← kw16 va; b ← kw16 (va + 2); mret (a + Z.shiftl b 16).

(** The sum as an [int]. *)
Fixpoint sum_loop (addr : Z) (n : nat) (acc : Z) : M mp_st Z :=
  match n with
  | O => mret acc
  | S n => b ← kb addr; sum_loop (addr + 1) n (s32 (acc + b))
  end.

Definition sum (addr : Z) (len : Z) : M mp_st Z :=
  x ← sum_loop addr (Z.to_nat len) 0; mret (u8 x).

(** [memcmp(p, sig, n) == 0] *)
Fixpoint has_bytes (p : Z) (sig : list Z) : M mp_st bool :=
  match sig with
  | [] => mret true
  | c :: sig => b ← kb p; if b =? c then has_bytes (p + 1) sig else mret false
  end.

(** [n] structures from [p] on. *)
Fixpoint mpsearch1_loop (n : nat) (p : Z) : M mp_st Z :=
  match n with
  | O => mret 0
  | S n =>
    sig ← has_bytes p mp_signature;
    ok ← (if sig : bool then x ← sum p sizeof_mp; mret (x =? 0) else mret false);
    if ok : bool then mret p else mpsearch1_loop n (p + sizeof_mp)
  end.

Definition mpsearch1 (a len : Z) : M mp_st Z :=
  mpsearch1_loop (Z.to_nat (len / sizeof_mp)) (P2V a).

Definition mpsearch : M mp_st Z :=
  let bda := P2V 0x400 in
  hi ← kb (bda + 0x0F);
  lo ← kb (bda + 0x0E);
  let p := Z.shiftl (Z.lor (Z.shiftl hi 8) lo) 4 in
  mp ← (if nz p then mpsearch1 p 1024
        else
          hi ← kb (bda + 0x14);
          lo ← kb (bda + 0x13);
          let p := Z.lor (Z.shiftl hi 8) lo * 1024 in
          mpsearch1 (u32 (p - 1024)) 1024);
  if nz mp then mret mp else mpsearch1 0xF0000 0x10000.

(** The addresses of the table and of the [struct mp], or [None]. *)
Definition mpconfig : M mp_st (option (Z * Z)) :=
  mp ← mpsearch;
  if mp =? 0 then mret None else
  physaddr ← kw32 (mp + mp_physaddr);
  if physaddr =? 0 then mret None else
  let conf := P2V physaddr in
  sig ← has_bytes conf mpconf_signature;
  if negb sig then mret None else
  version ← kb (conf + mpconf_version);
  if negb (version =? 1) && negb (version =? 4) then mret None else
  len ← kw16 (conf + mpconf_length);
  x ← sum conf len;
  if nz x then mret None else mret (Some (conf, mp)).

Definition add_cpu (apicid : Z) : M mp_st unit :=
  s ← gets id;
  if mp_ncpu s <? NCPU then
    modify (λ s, MpSt (mp_mem s) (<[Z.to_nat (mp_ncpu s) := apicid]> (mp_cpus s)) (mp_ncpu s + 1) (mp_ioapicid s) (mp_lapic s) (mp_dev s))
  else mret tt.

(** The loop over the entries; an entry of another type leaves [p] where it
    is.  At most [fuel] rounds. *)
Fixpoint mpinit_loop (fuel : nat) (p e : Z) (ismp : bool) : M mp_st bool :=
  match fuel with
  | O => raise EFuel
  | S fuel =>
    if negb (p <? e) then mret ismp else
    t ← kb p;
    if t =? MPPROC then
      apicid ← (s ← gets id; if mp_ncpu s <? NCPU then kb (p + mpproc_apicid) else mret 0);
      add_cpu apicid;;
      mpinit_loop fuel (u32 (p + sizeof_mpproc)) e ismp
    else if t =? MPIOAPIC then
      apicno ← kb (p + mpioapic_apicno);
      modify (λ s, MpSt (mp_mem s) (mp_cpus s) (mp_ncpu s) apicno (mp_lapic s) (mp_dev s));;
      mpinit_loop fuel (u32 (p + sizeof_mpioapic)) e ismp
    else if (t =? MPBUS) || (t =? MPIOINTR) || (t =? MPLINTR) then
      mpinit_loop fuel (u32 (p + 8)) e ismp
    else
      mpinit_loop fuel p e false
  end.

Definition on_mp_dev {A} (c : M V A) : M mp_st A :=
  zoom mp_dev (λ v s, MpSt (mp_mem s) (mp_cpus s) (mp_ncpu s) (mp_ioapicid s) (mp_lapic s) v) c.

(** Lines 133-138 of [mpinit]. *)
Definition imcr (imcrp : Z) : M mp_st unit :=
  if nz imcrp then
    on_mp_dev (outb 0x22 0x70);;
    x ← on_mp_dev (inb 0x23);
    on_mp_dev (outb 0x23 (Z.lor x 1))
  else mret tt.

Definition mpinit (fuel : nat) : M mp_st unit :=
  r ← mpconfig;
  match r with
  | None => panic "Expect to run on an SMP"
  | Some (conf, mp) =>
    lapicaddr ← kw32 (conf + mpconf_lapicaddr);
    modify (λ s, MpSt (mp_mem s) (mp_cpus s) (mp_ncpu s) (mp_ioapicid s) lapicaddr (mp_dev s));;
    len ← kw16 (conf + mpconf_length);
    ismp ← mpinit_loop fuel (u32 (conf + sizeof_mpconf)) (u32 (conf + len)) true;
    if negb ismp then panic "Didn't find a suitable machine" else
    imcrp ← kb (mp + mp_imcrp);
    imcr imcrp
  end.
End Mp.
Arguments mp_st V : clear implicits.
Arguments MpSt {V} _ _ _ _ _ _.
Arguments mp_mem {V} _.
Arguments mp_cpus {V} _.
Arguments mp_ncpu {V} _.
Arguments mp_ioapicid {V} _.
Arguments mp_lapic {V} _.
Arguments mp_dev {V} _.
