(* ===== verification/MpSpec.v ===== *)
(** * What [mpinit] finds ([mp.c])

    The tables are lists of bytes in memory.  [mpinit] on a well-formed table
    registers its processors and its I/O APIC; on a table with an entry of a
    type that it does not know, it does not end. *)

From S2P Require Import Prelude Mmu Mem Bytes Ports Mp.

(** ** Bytes in memory *)

Definition bytes_at (m : mem) (va : Z) (bs : list Z) : Prop :=
  ∀ i b, bs !! i = Some b → look m (va + Z.of_nat i) = Some b.

Definition total (bs : list Z) : Z := foldr Z.add 0 bs.

Lemma bytes_at_cons m va b bs : bytes_at m va (b :: bs) ↔ look m va = Some b ∧ bytes_at m (va + 1) bs.
Proof.
  split.
  - intros Hb. split; [rewrite <-(Z.add_0_r va); by apply (Hb 0%nat) |].
    intros i c Hi. rewrite <-Z.add_assoc, Z.add_1_l, <-Nat2Z.inj_succ. by apply Hb.
  - intros [H0 Hb] [|i] c Hi; simpl in Hi; [simplify_eq; by rewrite Z.add_0_r |].
    rewrite Nat2Z.inj_succ, <-Z.add_1_l, Z.add_assoc. by apply Hb.
Qed.

Lemma bytes_at_app m va a b :
  bytes_at m va (a ++ b) ↔ bytes_at m va a ∧ bytes_at m (va + Z.of_nat (length a)) b.
Proof.
  revert va. induction a as [|x a IH]; intros va; simpl.
  - rewrite Z.add_0_r. split; [|tauto]. intros ?. split; [|done]. intros i c Hi. done.
  - rewrite !bytes_at_cons, IH. replace (va + 1 + Z.of_nat (length a)) with (va + Z.of_nat (S (length a))) by lia. tauto.
Qed.

Lemma bytes_at_eq m va va' bs : bytes_at m va bs → va = va' → bytes_at m va' bs.
Proof. by intros ? <-. Qed.

Lemma look_byte m va b : look m va = Some b → 0 ≤ b < 256.
Proof. unfold look. repeat case_match; intros [=<-]; rewrite <-u8_rd; apply u8_range. Qed.

Lemma bytes_at_ok m va bs : bytes_at m va bs → Forall (λ b, 0 ≤ b < 256) bs.
Proof. intros Hb. apply Forall_lookup. intros i b Hi. eapply look_byte, Hb, Hi. Qed.

Lemma total_range bs : Forall (λ b, 0 ≤ b < 256) bs → 0 ≤ total bs ≤ 255 * Z.of_nat (length bs).
Proof. induction 1 as [|b bs Hb _ IH]; simpl; [lia |]. unfold total in *. simpl. lia. Qed.

Section Mp.
Context {V : Type} `{Ports V}.
Implicit Types s : mp_st V.

Lemma kb_ok s va b : look (mp_mem s) va = Some b → kb va s = Ok (b, s).
Proof. unfold kb. by intros ->. Qed.

Lemma kw16_ok s va v : 0 ≤ v < 2 ^ 16 → bytes_at (mp_mem s) va (le16 v) → kw16 va s = Ok (v, s).
Proof.
  intros Hv (H0 & (H1 & _)%bytes_at_cons)%bytes_at_cons. unfold kw16.
  rewrite (bind_ok _ _ _ _ _ (kb_ok _ _ _ H0)), (bind_ok _ _ _ _ _ (kb_ok _ _ _ H1)).
  unfold mret, M_ret. do 2 f_equal. rewrite Z.shiftl_mul_pow2 by lia. zdiv.
Qed.

Lemma le32_halves v : le32 v = le16 (v mod 2 ^ 16) ++ le16 (v / 2 ^ 16).
Proof.
  unfold le32, le16. cbn [app].
  assert (v mod 2 ^ 16 mod 256 = v mod 256 ∧ v mod 2 ^ 16 / 256 mod 256 = v / 2 ^ 8 mod 256 ∧ v / 2 ^ 16 / 256 mod 256 = v / 2 ^ 24 mod 256) as (-> & -> & ->);
    [split_and!; zdiv | done].
Qed.

Lemma kw32_ok s va v : 0 ≤ v < 2 ^ 32 → bytes_at (mp_mem s) va (le32 v) → kw32 va s = Ok (v, s).
Proof.
  intros Hv Hb. rewrite le32_halves in Hb. apply bytes_at_app in Hb as [H1 H2]. unfold kw32.
  rewrite (bind_ok _ _ _ _ _ (kw16_ok s va (v mod 2 ^ 16) ltac:(zdiv) H1)).
  rewrite (bind_ok _ _ _ _ _ (kw16_ok s (va + 2) (v / 2 ^ 16) ltac:(zdiv) H2)).
  unfold mret, M_ret. do 2 f_equal. rewrite Z.shiftl_mul_pow2 by lia. zdiv.
Qed.

Lemma sum_loop_ok s va bs acc :
  bytes_at (mp_mem s) va bs → 0 ≤ acc → acc + 255 * Z.of_nat (length bs) < 2 ^ 31 →
  sum_loop va (length bs) acc s = Ok (acc + total bs, s).
Proof.
  revert va acc. induction bs as [|b bs IH]; intros va acc Hb Ha Hl; simpl in *; [by rewrite Z.add_0_r |].
  apply bytes_at_cons in Hb as [H0 Hb]. pose proof (look_byte _ _ _ H0).
  rewrite (bind_ok _ _ _ _ _ (kb_ok _ _ _ H0)).
  assert (s32 (acc + b) = acc + b) as ->.
  { unfold s32. rewrite u32_id by lia. by rewrite (proj2 (Z.ltb_lt _ _)) by lia. }
  rewrite IH by (done || lia). unfold total. simpl. do 2 f_equal. lia.
Qed.

Lemma sum_ok s va bs len :
  bytes_at (mp_mem s) va bs → len = Z.of_nat (length bs) → len < 2 ^ 16 → sum va len s = Ok (total bs mod 256, s).
Proof.
  intros Hb -> Hl. unfold sum. rewrite Nat2Z.id. by rewrite (bind_ok _ _ _ _ _ (sum_loop_ok s va bs 0 Hb ltac:(lia) ltac:(lia))).
Qed.

Lemma has_bytes_ok s va bs sig :
  bytes_at (mp_mem s) va bs → (length sig ≤ length bs)%nat →
  has_bytes va sig s = Ok (bool_decide (take (length sig) bs = sig), s).
Proof.
  revert va bs. induction sig as [|c sig IH]; intros va bs Hb Hl; simpl in *; [done |].
  destruct bs as [|b bs]; simpl in *; [lia |].
  apply bytes_at_cons in Hb as [H0 Hb]. rewrite (bind_ok _ _ _ _ _ (kb_ok _ _ _ H0)).
  destruct (Z.eqb_spec b c) as [->|Hn].
  - rewrite (IH _ _ Hb) by lia. do 2 f_equal. apply bool_decide_ext. split; [by intros -> | by intros [=]].
  - by rewrite bool_decide_eq_false_2 by (intros [=]; done).
Qed.

(** ** The floating pointer *)

Definition valid (bs : list Z) : bool :=
  bool_decide (take 4 bs = mp_signature) && (total bs mod 256 =? 0).

(** The 16 bytes at [p] are a floating pointer structure, or are not. *)
Definition struct_at (m : mem) (p : Z) (b : bool) : Prop :=
  ∃ bs, length bs = 16%nat ∧ bytes_at m p bs ∧ valid bs = b.

Definition mp_here (m : mem) (n : nat) (p q : Z) : Prop :=
  ∃ k, (k < n)%nat ∧ q = p + 16 * Z.of_nat k ∧ struct_at m q true ∧
    ∀ j, (j < k)%nat → struct_at m (p + 16 * Z.of_nat j) false.

Definition mp_absent (m : mem) (n : nat) (p : Z) : Prop :=
  ∀ j, (j < n)%nat → struct_at m (p + 16 * Z.of_nat j) false.

Lemma search_step s n p b :
  struct_at (mp_mem s) p b → mpsearch1_loop (S n) p s = if b then Ok (p, s) else mpsearch1_loop n (p + 16) s.
Proof.
  intros (bs & Hl & Hb & Hv). cbn [mpsearch1_loop].
  rewrite (bind_ok _ _ _ _ _ (has_bytes_ok s p bs mp_signature Hb ltac:(rewrite Hl; simpl; lia))).
  unfold valid in Hv. change (length mp_signature) with 4%nat. destruct (bool_decide _) eqn:E; simpl in Hv; subst b.
  - rewrite (bind_ok _ _ s (total bs mod 256 =? 0) s); [by destruct (_ =? 0) |].
    rewrite (bind_ok _ _ _ _ _ (sum_ok s p bs sizeof_mp Hb ltac:(by rewrite Hl) ltac:(done))). done.
  - done.
Qed.

Lemma search_absent s n p : mp_absent (mp_mem s) n p → mpsearch1_loop n p s = Ok (0, s).
Proof.
  revert p. induction n as [|n IH]; intros p Ha; [done |].
  rewrite (search_step s n p false).
  - apply IH. intros j Hj. replace (p + 16 + 16 * Z.of_nat j) with (p + 16 * Z.of_nat (S j)) by lia. apply Ha. lia.
  - rewrite <-(Z.add_0_r p). apply (Ha 0%nat). lia.
Qed.

Lemma search_here s n p q : mp_here (mp_mem s) n p q → mpsearch1_loop n p s = Ok (q, s).
Proof.
  intros (k & Hk & -> & Hq & Ha). revert n p Hk Hq Ha. induction k as [|k IH]; intros [|n] p Hk Hq Ha; try lia.
  - rewrite Z.add_0_r in *. by rewrite (search_step s n p true).
  - rewrite (search_step s n p false).
    + replace (p + 16 * Z.of_nat (S k)) with (p + 16 + 16 * Z.of_nat k) in * by lia.
      apply IH; [lia | done |]. intros j Hj. replace (p + 16 + 16 * Z.of_nat j) with (p + 16 * Z.of_nat (S j)) by lia. apply Ha. lia.
    + rewrite <-(Z.add_0_r p). apply (Ha 0%nat). lia.
Qed.

(** Where [mpsearch] looks first: the EBDA if the BIOS gives its segment, and
    the last kilobyte of base memory if not. *)
Definition area (seg base : Z) : Z := if nz seg then 16 * seg else u32 (1024 * base - 1024).

Definition bios_data (m : mem) (seg base : Z) : Prop :=
  0 ≤ seg < 2 ^ 16 ∧ 0 ≤ base < 2 ^ 16 ∧ bytes_at m (P2V 0x40E) (le16 seg) ∧ bytes_at m (P2V 0x413) (le16 base).

Definition located (m : mem) (seg base q : Z) : Prop :=
  mp_here m 64 (P2V (area seg base)) q ∨
  mp_absent m 64 (P2V (area seg base)) ∧ mp_here m 4096 (P2V 0xF0000) q.

Lemma word_of x : 0 ≤ x < 2 ^ 16 → Z.lor (Z.shiftl (x / 256 mod 256) 8) (x mod 256) = x.
Proof.
  intros Hx. rewrite Z.shiftl_mul_pow2 by lia.
  rewrite (lor_disjoint_add _ _ 8); [zdiv | lia | by apply Z.mod_mul | zdiv].
Qed.

Lemma here_nonzero m n p q : mp_here m n p q → q ≠ 0.
Proof.
  intros (k & _ & _ & (bs & Hl & Hb & _) & _) ->. destruct bs as [|b bs]; [done |].
  apply bytes_at_cons in Hb as [Hb _]. by vm_compute in Hb.
Qed.

Lemma mpsearch_ok s seg base q :
  bios_data (mp_mem s) seg base → located (mp_mem s) seg base q → mpsearch s = Ok (q, s).
Proof.
  intros (Hs & Hb & Hseg & Hbase) Hq.
  apply bytes_at_cons in Hseg as (A0 & (A1 & _)%bytes_at_cons). apply bytes_at_cons in Hbase as (B0 & (B1 & _)%bytes_at_cons).
  unfold mpsearch. rewrite (bind_ok _ _ _ _ _ (kb_ok _ _ _ A1)), (bind_ok _ _ _ _ _ (kb_ok _ _ _ A0)), word_of by done.
  assert (nz (Z.shiftl seg 4) = nz seg) as Hnz.
  { rewrite Z.shiftl_mul_pow2 by lia. unfold nz. destruct (Z.eqb_spec seg 0) as [->|Hz]; [done |]. by rewrite (proj2 (Z.eqb_neq _ _)) by lia. }
  rewrite Hnz. clear Hnz A0 A1.
  set (c := if nz seg then _ else _). assert (c s = mpsearch1_loop 64 (P2V (area seg base)) s) as Hc.
  { unfold c, area. destruct (nz seg).
    - rewrite Z.shiftl_mul_pow2 by lia. by rewrite (Z.mul_comm 16).
    - rewrite (bind_ok _ _ _ _ _ (kb_ok _ _ _ B1 : kb (P2V 0x400 + 0x14) s = _)), (bind_ok _ _ _ _ _ (kb_ok _ _ _ B0 : kb (P2V 0x400 + 0x13) s = _)), word_of by done.
      by rewrite (Z.mul_comm 1024). }
  clearbody c. destruct Hq as [Hq|[Ha Hq]]; pose proof (here_nonzero _ _ _ _ Hq) as Hn.
  - rewrite (search_here _ _ _ _ Hq) in Hc. rewrite (bind_ok _ _ _ _ _ Hc). unfold nz. by rewrite (proj2 (Z.eqb_neq _ _) Hn).
  - rewrite (search_absent _ _ _ Ha) in Hc. rewrite (bind_ok _ _ _ _ _ Hc). by apply search_here.
Qed.

(** ** The entries *)

(** The bytes after those that [mpinit] uses are in the last argument. *)
Inductive mp_entry : Type :=
| EProc (apicid : Z) (l : list Z)
| EIoapic (apicno : Z) (l : list Z)
| EOther (t : Z) (l : list Z).

Definition entry_wf (e : mp_entry) : Prop :=
  match e with
  | EProc _ l => length l = 18%nat
  | EIoapic _ l => length l = 6%nat
  | EOther t l => (t = MPBUS ∨ t = MPIOINTR ∨ t = MPLINTR) ∧ length l = 7%nat
  end.

Definition entry_bytes (e : mp_entry) : list Z :=
  match e with
  | EProc apicid l => MPPROC :: apicid :: l
  | EIoapic apicno l => MPIOAPIC :: apicno :: l
  | EOther t l => t :: l
  end.

Definition entries (es : list mp_entry) : list Z := mjoin (entry_bytes <$> es).

Definition procs (es : list mp_entry) : list Z := omap (λ e, match e with EProc a _ => Some a | _ => None end) es.
Definition ioapics (es : list mp_entry) : list Z := omap (λ e, match e with EIoapic a _ => Some a | _ => None end) es.

(** The processors that there is room for, and the last I/O APIC. *)
Definition registered (es : list mp_entry) (s : mp_st V) : mp_st V :=
  let ps := take (Z.to_nat (NCPU - mp_ncpu s)) (procs es) in
  MpSt (mp_mem s) (list_inserts (Z.to_nat (mp_ncpu s)) ps (mp_cpus s)) (mp_ncpu s + Z.of_nat (length ps))
    (List.last (ioapics es) (mp_ioapicid s)) (mp_lapic s) (mp_dev s).

Definition register (e : mp_entry) (s : mp_st V) : mp_st V :=
  match e with
  | EProc a _ =>
    if mp_ncpu s <? NCPU then MpSt (mp_mem s) (<[Z.to_nat (mp_ncpu s) := a]> (mp_cpus s)) (mp_ncpu s + 1) (mp_ioapicid s) (mp_lapic s) (mp_dev s)
    else s
  | EIoapic a _ => MpSt (mp_mem s) (mp_cpus s) (mp_ncpu s) a (mp_lapic s) (mp_dev s)
  | EOther _ _ => s
  end.

Lemma last_cons (a d : Z) l : List.last (a :: l) d = List.last l a.
Proof. revert a d. induction l as [|b l IH]; intros a d; [done |]. change (List.last (b :: l) d = List.last (b :: l) a). by rewrite !IH. Qed.

Lemma inserts_before (i : nat) (a : Z) ps l :
  list_inserts (S i) ps (<[i := a]> l) = <[i := a]> (list_inserts (S i) ps l).
Proof.
  assert (∀ j, (i < j)%nat → list_inserts j ps (<[i := a]> l) = <[i := a]> (list_inserts j ps l)) as Hj; [|apply Hj; lia].
  induction ps as [|b ps IH]; intros j Hij; simpl; [done |].
  rewrite IH by lia. by rewrite list_insert_insert_ne by lia.
Qed.

Lemma registered_cons e es s : 0 ≤ mp_ncpu s ≤ NCPU → registered es (register e s) = registered (e :: es) s.
Proof.
  intros Hn. destruct s as [m cs n io lap d], e as [a l|a l|t l]; cbn [register mp_ncpu] in *; unfold registered; [| |done].
  - change (procs (EProc a l :: es)) with (a :: procs es). change (ioapics (EProc a l :: es)) with (ioapics es).
    destruct (Z.ltb_spec n NCPU) as [Hlt|Hge]; cbn [mp_ncpu mp_mem mp_cpus mp_lapic mp_dev mp_ioapicid].
    + replace (Z.to_nat (NCPU - n)) with (S (Z.to_nat (NCPU - (n + 1)))) by lia. cbn [take list_inserts length].
      replace (Z.to_nat (n + 1)) with (S (Z.to_nat n)) by lia. rewrite inserts_before. rewrite Nat2Z.inj_succ. f_equal. lia.
    + replace (Z.to_nat (NCPU - n)) with 0%nat by lia. done.
  - change (procs (EIoapic a l :: es)) with (procs es). change (ioapics (EIoapic a l :: es)) with (a :: ioapics es).
    cbn [mp_ncpu mp_mem mp_cpus mp_lapic mp_dev mp_ioapicid]. by rewrite last_cons.
Qed.

Lemma register_range e s : 0 ≤ mp_ncpu s ≤ NCPU → 0 ≤ mp_ncpu (register e s) ≤ NCPU.
Proof. intros Hn. destruct e; simpl; [case_match; simpl; lia | done | done]. Qed.

Lemma register_mem e s : mp_mem (register e s) = mp_mem s.
Proof. destruct e; simpl; [by case_match | done | done]. Qed.

(** One round of the loop on an entry. *)
Lemma mpinit_entry fuel p e ismp en s :
  entry_wf en → bytes_at (mp_mem s) p (entry_bytes en) → 0 ≤ p → p + Z.of_nat (length (entry_bytes en)) ≤ e < 2 ^ 32 →
  mpinit_loop (S fuel) p e ismp s = mpinit_loop fuel (p + Z.of_nat (length (entry_bytes en))) e ismp (register en s).
Proof.
  intros Hw Hb Hp He. cbn [mpinit_loop].
  assert (p < e) as Hlt by (destruct en; simpl in He; lia). rewrite (proj2 (Z.ltb_lt _ _) Hlt). cbn [negb].
  destruct en as [a l|a l|t l]; simpl in Hw, Hb, He; apply bytes_at_cons in Hb as [H0 Hb]; rewrite (bind_ok _ _ _ _ _ (kb_ok _ _ _ H0)).
  - apply bytes_at_cons in Hb as [H1 _]. cbn [Z.eqb MPPROC entry_bytes length register].
    rewrite Hw in *. replace (u32 (p + sizeof_mpproc)) with (p + Z.of_nat 20) by (unfold sizeof_mpproc; rewrite u32_id; lia).
    destruct (mp_ncpu s <? NCPU) eqn:E.
    + rewrite (bind_ok _ _ s a s) by (rewrite (bind_ok _ _ s s s) by done; rewrite E; by apply kb_ok).
      erewrite bind_ok; [reflexivity |]. unfold add_cpu. rewrite (bind_ok _ _ s s s) by done. by rewrite E.
    + rewrite (bind_ok _ _ s 0 s) by (rewrite (bind_ok _ _ s s s) by done; by rewrite E).
      erewrite bind_ok; [reflexivity |]. unfold add_cpu. rewrite (bind_ok _ _ s s s) by done. by rewrite E.
  - apply bytes_at_cons in Hb as [H1 _]. cbn [entry_bytes length register].
    change (MPIOAPIC =? MPPROC) with false. change (MPIOAPIC =? MPIOAPIC) with true. cbv iota.
    rewrite (bind_ok _ _ _ _ _ (kb_ok _ _ _ H1)). rewrite Hw in *.
    replace (u32 (p + sizeof_mpioapic)) with (p + Z.of_nat 8) by (unfold sizeof_mpioapic; rewrite u32_id; lia). done.
  - destruct Hw as [Ht Hw]. cbn [entry_bytes length register]. rewrite Hw in *.
    replace (u32 (p + 8)) with (p + Z.of_nat 8) by (rewrite u32_id; lia).
    by destruct Ht as [->|[->| ->]].
Qed.

Lemma mpinit_entries fuel p e ismp es s :
  Forall entry_wf es → bytes_at (mp_mem s) p (entries es) → 0 ≤ p → p + Z.of_nat (length (entries es)) ≤ e < 2 ^ 32 → 0 ≤ mp_ncpu s ≤ NCPU →
  mpinit_loop fuel p e ismp s = mpinit_loop (fuel - length es) (p + Z.of_nat (length (entries es))) e ismp (registered es s).
Proof.
  intros Hw. revert fuel p s. induction Hw as [|en es Hen Hw IH]; intros fuel p s Hb Hp He Hn.
  - cbn [length entries] in *. rewrite Nat.sub_0_r, Z.add_0_r. f_equal. destruct s. unfold registered. simpl. by rewrite take_nil, Z.add_0_r.
  - destruct fuel as [|fuel]; [done |].
    change (entries (en :: es)) with (entry_bytes en ++ entries es) in *. rewrite length_app, Nat2Z.inj_add in *.
    apply bytes_at_app in Hb as [Hb1 Hb2].
    rewrite (mpinit_entry fuel p e ismp en s) by (done || lia).
    rewrite IH, registered_cons, Z.add_assoc; [done | done | by rewrite register_mem | lia | lia | by apply register_range].
Qed.

(** ** The configuration table *)

(** [mid] is the fields from [product] to [entry], [tail] those after
    [lapicaddr]. *)
Definition conf_bytes (ver ck : Z) (mid : list Z) (lapicaddr : Z) (tail body : list Z) : list Z :=
  mpconf_signature ++ le16 (44 + Z.of_nat (length body)) ++ [ver] ++ [ck] ++ mid ++ le32 lapicaddr ++ tail ++ body.

(** The floating pointer at [q] leads to a table with the entries [body]. *)
Record mp_table (m : mem) (q pa imcrp lapicaddr : Z) (body : list Z) : Prop := MpTable {
  mt_pa : 0 < pa ∧ pa + 44 + Z.of_nat (length body) ≤ PHYSTOP;
  mt_len : 44 + Z.of_nat (length body) < 2 ^ 16;
  mt_lapic : 0 ≤ lapicaddr < 2 ^ 32;
  mt_mp : bytes_at m (q + 4) (le32 pa) ∧ look m (q + 12) = Some imcrp;
  mt_conf : ∃ ver ck mid tail,
    (ver = 1 ∨ ver = 4) ∧ length mid = 28%nat ∧ length tail = 4%nat ∧
    bytes_at m (P2V pa) (conf_bytes ver ck mid lapicaddr tail body) ∧
    total (conf_bytes ver ck mid lapicaddr tail body) mod 256 = 0;
}.

Lemma conf_parts m conf ver ck mid lapicaddr tail body :
  length mid = 28%nat → length tail = 4%nat → bytes_at m conf (conf_bytes ver ck mid lapicaddr tail body) →
  bytes_at m (conf + 4) (le16 (44 + Z.of_nat (length body))) ∧ look m (conf + 6) = Some ver ∧
  bytes_at m (conf + 36) (le32 lapicaddr) ∧ bytes_at m (conf + 44) body.
Proof.
  intros Hm Ht Hb. unfold conf_bytes in Hb.
  apply bytes_at_app in Hb as [_ (H1 & (H2 & (_ & (_ & (H3 & (_ & H4)%bytes_at_app)%bytes_at_app)%bytes_at_app)%bytes_at_app)%bytes_at_app)%bytes_at_app].
  apply bytes_at_cons in H2 as [H2 _]. rewrite ?Hm, ?Ht in *. cbn [length mpconf_signature le16 le32] in *.
  split_and!; [exact H1 | by rewrite <-H2; f_equal; lia | |]; eapply bytes_at_eq; (done || lia).
Qed.

Lemma length_conf ver ck mid lapicaddr tail body :
  length mid = 28%nat → length tail = 4%nat → length (conf_bytes ver ck mid lapicaddr tail body) = (44 + length body)%nat.
Proof. intros Hm Ht. unfold conf_bytes. rewrite !length_app, Hm, Ht. done. Qed.

Lemma mpconfig_ok s seg base q pa imcrp lapicaddr body :
  bios_data (mp_mem s) seg base → located (mp_mem s) seg base q → mp_table (mp_mem s) q pa imcrp lapicaddr body →
  mpconfig s = Ok (Some (P2V pa, q), s).
Proof.
  intros Hd Hq [Hpa Hl Hla [Hm _] (ver & ck & mid & tail & Hv & Hmid & Htail & Hb & Hsum)].
  pose proof (conf_parts _ _ _ _ _ _ _ _ Hmid Htail Hb) as (H1 & H2 & _). pose proof (length_conf ver ck mid lapicaddr tail body Hmid Htail) as Hlen.
  assert (q ≠ 0) as Hq0 by (destruct Hq as [Hq|[_ Hq]]; by eapply here_nonzero).
  unfold mpconfig. rewrite (bind_ok _ _ _ _ _ (mpsearch_ok _ _ _ _ Hd Hq)), (proj2 (Z.eqb_neq _ _) Hq0).
  assert (PHYSTOP = 0xE000000) as HP by done.
  rewrite (bind_ok _ _ _ _ _ (kw32_ok s (q + mp_physaddr) pa ltac:(lia) Hm)), (proj2 (Z.eqb_neq pa 0)) by lia.
  rewrite (bind_ok _ _ _ _ _ (has_bytes_ok s (P2V pa) _ mpconf_signature Hb ltac:(rewrite Hlen; simpl; lia))).
  rewrite bool_decide_eq_true_2 by (unfold conf_bytes; apply take_app_length). cbn [negb].
  rewrite (bind_ok _ _ _ _ _ (kb_ok s (P2V pa + mpconf_version) ver H2)).
  replace (negb (ver =? 1) && negb (ver =? 4)) with false by (by destruct Hv as [->| ->]).
  rewrite (bind_ok _ _ _ _ _ (kw16_ok s (P2V pa + mpconf_length) (44 + Z.of_nat (length body)) ltac:(lia) H1)).
  rewrite (bind_ok _ _ _ _ _ (sum_ok s (P2V pa) _ (44 + Z.of_nat (length body)) Hb ltac:(lia) ltac:(lia))).
  by rewrite Hsum.
Qed.

Definition set_lapic (a : Z) (s : mp_st V) : mp_st V :=
  MpSt (mp_mem s) (mp_cpus s) (mp_ncpu s) (mp_ioapicid s) a (mp_dev s).

(** [mpinit] on a table that starts with the entries [es]. *)
Lemma mpinit_table fuel s seg base q pa imcrp lapicaddr es rest :
  bios_data (mp_mem s) seg base → located (mp_mem s) seg base q →
  mp_table (mp_mem s) q pa imcrp lapicaddr (entries es ++ rest) → Forall entry_wf es → 0 ≤ mp_ncpu s ≤ NCPU →
  let p := P2V pa + 44 + Z.of_nat (length (entries es)) in
  bytes_at (mp_mem s) p rest ∧
  mpinit fuel s =
  (ismp ← mpinit_loop (fuel - length es) p (p + Z.of_nat (length rest)) true;
   if negb ismp then panic "Didn't find a suitable machine" else
   imcrp ← kb (q + mp_imcrp);
   imcr imcrp) (registered es (set_lapic lapicaddr s)).
Proof.
  intros Hd Hq Ht Hw Hn p. pose proof Ht as [Hpa Hl Hla [Hm Hi] (ver & ck & mid & tail & Hv & Hmid & Htail & Hb & Hsum)].
  pose proof (conf_parts _ _ _ _ _ _ _ _ Hmid Htail Hb) as (H1 & H2 & H3 & [H4 H5]%bytes_at_app).
  split; [done |]. rewrite length_app, Nat2Z.inj_add in *.
  assert (PHYSTOP = 0xE000000 ∧ KERNBASE = 0x80000000) as [HP HK] by done.
  assert (P2V pa = pa + KERNBASE) as HV by (apply P2V_eq; lia).
  unfold mpinit. rewrite (bind_ok _ _ _ _ _ (mpconfig_ok _ _ _ _ _ _ _ _ Hd Hq Ht)).
  rewrite (bind_ok _ _ _ _ _ (kw32_ok s (P2V pa + mpconf_lapicaddr) lapicaddr Hla H3)).
  rewrite (bind_ok _ _ s tt (set_lapic lapicaddr s)) by done.
  rewrite (bind_ok _ _ _ _ _ (kw16_ok (set_lapic lapicaddr s) (P2V pa + mpconf_length) (44 + (Z.of_nat (length (entries es)) + Z.of_nat (length rest))) ltac:(lia) H1)).
  unfold mbind at 1, M_bind. unfold mbind at 2, M_bind.
  rewrite (u32_id (P2V pa + sizeof_mpconf)), (u32_id (P2V pa + (44 + _))) by (unfold sizeof_mpconf; lia).
  rewrite (mpinit_entries fuel _ _ true es (set_lapic lapicaddr s)) by (done || (unfold sizeof_mpconf; lia)).
  unfold p, sizeof_mpconf. replace (P2V pa + (44 + _)) with (P2V pa + 44 + Z.of_nat (length (entries es)) + Z.of_nat (length rest)) by lia. done.
Qed.

(** On an entry of another type the loop stays where it is. *)
Lemma mpinit_stuck fuel p e ismp t s :
  look (mp_mem s) p = Some t → MPLINTR < t → p < e → mpinit_loop fuel p e ismp s = Err EFuel.
Proof.
  intros Hl Ht Hp. revert ismp. induction fuel as [|fuel IH]; intros ismp; [done |]. cbn [mpinit_loop].
  rewrite (proj2 (Z.ltb_lt _ _) Hp). cbn [negb]. rewrite (bind_ok _ _ _ _ _ (kb_ok _ _ _ Hl)).
  unfold MPLINTR, MPPROC, MPBUS, MPIOAPIC, MPIOINTR in *. rewrite !(proj2 (Z.eqb_neq t _)) by lia. apply IH.
Qed.
End Mp.
