(* ===== verification/Boot.v ===== *)
(** * The boot loader ([bootmain.c])

    It reads the kernel with port instructions and puts it in physical
    memory; paging is off.  The device is the one of [Ide.IdeDevice]. *)

From S2P Require Import Prelude Mmu Mem Ide.

Definition SECTSIZE : Z := 512.
Definition BOOT_ELF_MAGIC : Z := 0x464C457F.

(** The scratch space for the headers. *)
Definition elf : Z := 0x10000.

(** Offsets in [struct elfhdr] and [struct proghdr]. *)
Definition eh_entry : Z := 24.
Definition eh_phoff : Z := 28.
Definition eh_phnum : Z := 44.
Definition pr_off : Z := 4.
Definition pr_paddr : Z := 12.
Definition pr_filesz : Z := 16.
Definition pr_memsz : Z := 20.
Definition sizeof_proghdr : Z := 32.

Definition ld16 (m : mem) (a : Z) : Z := rd m a + 256 * rd m (a + 1).

(** What [insl] leaves in memory. *)
Fixpoint put_bytes (m : mem) (a : Z) (bs : list Z) : mem :=
  match bs with
  | [] => m
  | b :: bs => put_bytes (wr m a b) (a + 1) bs
  end.

Section Boot.
Context {V : Type} `{IdeDevice V}.

Record boot_st : Type := BootSt { bt_mem : mem; bt_dev : V }.

Definition bt_inb (port : Z) : M boot_st Z := λ s,
  let '(x, v) := dv_inb port (bt_dev s) in Ok (x, BootSt (bt_mem s) v).
Definition bt_outb (port x : Z) : M boot_st unit :=
  modify (λ s, BootSt (bt_mem s) (dv_outb port (u8 x) (bt_dev s))).
Definition bt_insl (port addr cnt : Z) : M boot_st unit :=
  modify (λ s, let '(bs, v) := dv_insl port (Z.to_nat cnt) (bt_dev s) in BootSt (put_bytes (bt_mem s) addr bs) v).
Definition set_mem (f : mem → mem) : M boot_st unit := modify (λ s, BootSt (f (bt_mem s)) (bt_dev s)).

(** At most [fuel] reads. *)
Fixpoint waitdisk (fuel : nat) : M boot_st unit :=
  match fuel with
  | O => raise EFuel
  | S fuel => x ← bt_inb 0x1F7; if negb (Z.land x 0xC0 =? 0x40) then waitdisk fuel else mret tt
  end.

Definition readsect (fuel : nat) (dst offset : Z) : M boot_st unit :=
  waitdisk fuel;;
  bt_outb 0x1F2 1;;
  bt_outb 0x1F3 offset;;
  bt_outb 0x1F4 (Z.shiftr offset 8);;
  bt_outb 0x1F5 (Z.shiftr offset 16);;
  bt_outb 0x1F6 (Z.lor (Z.shiftr offset 24) 0xE0);;
  bt_outb 0x1F7 0x20;;
  waitdisk fuel;;
  bt_insl 0x1F0 dst (SECTSIZE / 4).

(** At most [n] sectors. *)
Fixpoint readseg_loop (fuel n : nat) (pa epa offset : Z) : M boot_st unit :=
  match n with
  | O => raise EFuel
  | S n =>
    if negb (pa <? epa) then mret tt else
    readsect fuel pa offset;;
    readseg_loop fuel n (u32 (pa + SECTSIZE)) epa (u32 (offset + 1))
  end.

Definition readseg (fuel n : nat) (pa count offset : Z) : M boot_st unit :=
  let epa := u32 (pa + count) in
  let pa := u32 (pa - offset mod SECTSIZE) in
  let offset := u32 (offset / SECTSIZE + 1) in
  readseg_loop fuel n pa epa offset.

(** [k] is the number of headers: [eph - ph] is [32 * k], or less than 0. *)
Fixpoint load_segs (fuel n k : nat) (ph eph : Z) : M boot_st unit :=
  match k with
  | O => mret tt
  | S k =>
    if negb (ph <? eph) then mret tt else
    pa ← gets (λ s, ld32 (bt_mem s) (ph + pr_paddr));
    filesz ← gets (λ s, ld32 (bt_mem s) (ph + pr_filesz));
    off ← gets (λ s, ld32 (bt_mem s) (ph + pr_off));
    readseg fuel n pa filesz off;;
    memsz ← gets (λ s, ld32 (bt_mem s) (ph + pr_memsz));
    filesz ← gets (λ s, ld32 (bt_mem s) (ph + pr_filesz));
    (if filesz <? memsz then set_mem (λ m, stosb m (u32 (pa + filesz)) 0 (Z.to_nat (memsz - filesz))) else mret tt);;
    load_segs fuel n k (u32 (ph + sizeof_proghdr)) eph
  end.

(** The entry point that is called, or [None] if it returns. *)
Definition bootmain (fuel n : nat) : M boot_st (option Z) :=
  readseg fuel n elf 4096 0;;
  magic ← gets (λ s, ld32 (bt_mem s) elf);
  if negb (magic =? BOOT_ELF_MAGIC) then mret None else
  phoff ← gets (λ s, ld32 (bt_mem s) (elf + eh_phoff));
  phnum ← gets (λ s, ld16 (bt_mem s) (elf + eh_phnum));
  let ph := u32 (elf + phoff) in
  let eph := u32 (ph + sizeof_proghdr * phnum) in
  load_segs fuel n (Z.to_nat phnum) ph eph;;
  entry ← gets (λ s, ld32 (bt_mem s) (elf + eh_entry));
  mret (Some entry).
End Boot.
Arguments boot_st V : clear implicits.
Arguments BootSt {V} _ _.
Arguments bt_mem {V} _.
Arguments bt_dev {V} _.
