(* ===== verification/BootSpec.v ===== *)
(** * What the boot loader loads ([bootmain.c])

    The disk holds the kernel file from sector 1 on.  [bootmain] puts each
    segment of it in place, with the rest of the segment zero, if the places
    that it writes to do not overlap. *)

From S2P Require Import Prelude Mmu Mem Bytes Disk Ide IdeSpec Boot.

(** The disk also takes a read command when nothing was written to its control
    register. *)
Class PioLaws (V : Type) `{IdeLaws V} := {
  pio_read_law v r3 r4 r5 r6 : dv_wf v → dv_busy v = O → byte_reg r3 → byte_reg r4 → byte_reg r5 → r6 / 32 = 7 →
    let v' := dv_outb 0x1f7 IDE_CMD_READ (dv_outb 0x1f6 r6 (dv_outb 0x1f5 r5 (dv_outb 0x1f4 r4 (dv_outb 0x1f3 r3 (dv_outb 0x1f2 1 v))))) in
    dv_wf v' ∧ dv_disk v' = dv_disk v ∧ dv_avail v' = Some (reg_drive r6, reg_lba r3 r4 r5 r6);
}.

#[export, refine] Instance sim_pio : PioLaws sim := {}.
Proof. intros [r3' r4' r5' r6' k rd wr dk] r3 r4 r5 r6 [Hb Hd] _ _ _ _ _. simpl in *. by split_and!. Defined.

Lemma rd_put_bytes m a bs x :
  rd (put_bytes m a bs) x = if (a <=? x) && (x <? a + Z.of_nat (length bs)) then u8 (default 0 (bs !! Z.to_nat (x - a))) else rd m x.
Proof.
  revert m a. induction bs as [|b bs IH]; intros m a; cbn [put_bytes length].
  - change (Z.of_nat 0) with 0. destruct (Z.leb_spec a x), (Z.ltb_spec x (a + 0)); simpl; done || lia.
  - rewrite IH, rd_wr. destruct (Z.eqb_spec x a) as [->|Hn].
    + rewrite (proj2 (Z.leb_gt (a + 1) a)), Z.leb_refl, (proj2 (Z.ltb_lt a (a + Z.of_nat (S (length bs))))), Z.sub_diag by lia. done.
    + destruct (Z.leb_spec (a + 1) x), (Z.leb_spec a x); simpl; try (done || lia).
      replace (a + 1 + Z.of_nat (length bs)) with (a + Z.of_nat (S (length bs))) by lia.
      destruct (_ <? _); [|done]. by replace (Z.to_nat (x - a)) with (S (Z.to_nat (x - (a + 1)))) by lia.
Qed.

(** The registers for a sector of drive 0. *)
Lemma boot_registers n :
  0 ≤ n < 2 ^ 24 →
  let r6 := u8 (Z.lor (Z.shiftr n 24) 0xE0) in
  byte_reg (u8 n) ∧ byte_reg (u8 (Z.shiftr n 8)) ∧ byte_reg (u8 (Z.shiftr n 16)) ∧ r6 / 32 = 7 ∧ reg_drive r6 = 0 ∧
  reg_lba (u8 n) (u8 (Z.shiftr n 8)) (u8 (Z.shiftr n 16)) r6 = n.
Proof.
  intros Hn. rewrite !Z.shiftr_div_pow2 by lia. rewrite (Z.div_small n (2 ^ 24)) by lia.
  split_and!; try apply u8_range; try done. unfold reg_lba, u8. change (Z.lor 0 224 mod 2 ^ 8 mod 16) with 0. zdiv.
Qed.

Section Boot.
Context {V : Type} `{PioLaws V}.
Implicit Types s : boot_st V.

(** A byte of the kernel file on the disk. *)
Definition kernel_on (v : V) (img : mem) (size : Z) : Prop :=
  ∀ o, 0 ≤ o < size → dv_disk v 0 (1 + o / 512) !! Z.to_nat (o mod 512) = Some (rd img o).

(** A device that is ready for the next command. *)
Definition same_disk (v v' : V) : Prop := dv_wf v' ∧ dv_disk v' = dv_disk v.

Lemma waitdisk_spec fuel s :
  dv_wf (bt_dev s) → (dv_busy (bt_dev s) < fuel)%nat →
  wp (waitdisk fuel) s (λ _ s', bt_mem s' = bt_mem s ∧ same_disk (bt_dev s) (bt_dev s') ∧
    dv_busy (bt_dev s') = O ∧ dv_avail (bt_dev s') = dv_avail (bt_dev s)).
Proof.
  revert s. induction fuel as [|fuel IH]; intros s Hw Hf; [lia |]. cbn [waitdisk]. apply wp_bind.
  unfold wp at 1, bt_inb. pose proof (poll_law (bt_dev s) Hw) as Hp. change 0x1F7 with 0x1f7. destruct (dv_inb 0x1f7 (bt_dev s)) as [r v].
  destruct Hp as (Hw' & Hd & Ha & Hb). change (Z.lor IDE_BSY IDE_DRDY) with 0xC0 in Hb. change IDE_DRDY with 0x40 in Hb.
  destruct (dv_busy (bt_dev s)) as [|n] eqn:En.
  - destruct Hb as (-> & _ & Hb). apply wp_ret. by split_and!.
  - destruct Hb as [Hne Hb]. rewrite (proj2 (Z.eqb_neq _ _) Hne). cbn [negb].
    eapply wp_mono; [apply IH; [done | simpl; lia] |]. simpl. intros [] s' (E1 & [E2 E3] & E4 & E5). split_and!; try split; congruence.
Qed.

Lemma readsect_spec fuel s dst n :
  dv_wf (bt_dev s) → (dv_polls < fuel)%nat → 0 ≤ n < 2 ^ 24 →
  wp (readsect fuel dst n) s (λ _ s', bt_mem s' = put_bytes (bt_mem s) dst (dv_disk (bt_dev s) 0 n) ∧ same_disk (bt_dev s) (bt_dev s')).
Proof.
  intros Hw Hf Hn. unfold readsect. apply wp_bind. pose proof (busy_law _ Hw).
  eapply wp_mono; [apply waitdisk_spec; [done | lia] |]. intros [] [m v] (Em & [Hw1 Hd1] & Hb1 & _). cbn [bt_mem bt_dev] in *.
  destruct (boot_registers n Hn) as (R3 & R4 & R5 & R6 & Ed & El).
  unfold bt_outb. do 6 (apply wp_bind, wp_modify). cbn [bt_mem bt_dev].
  destruct (pio_read_law v _ _ _ _ Hw1 Hb1 R3 R4 R5 R6) as (Hw2 & Hd2 & Ha2). rewrite Ed, El in Ha2.
  set (v2 := dv_outb _ _ _) in *. change (dv_wf v2) in Hw2. change (dv_disk v2 = dv_disk v) in Hd2. change (dv_avail v2 = Some (0, n)) in Ha2. clearbody v2.
  pose proof (busy_law _ Hw2). apply wp_bind. eapply wp_mono; [apply waitdisk_spec; [done | simpl; lia] |].
  cbn [bt_mem bt_dev]. intros [] [m' v3] (Em' & [Hw3 Hd3] & Hb3 & Ha3). cbn [bt_mem bt_dev] in *. rewrite Ha2 in Ha3.
  destruct (data_law v3 _ _ Hw3 Hb3 Ha3) as (v4 & E & Hw4 & Hd4).
  unfold bt_insl. apply wp_modify. change (Z.to_nat (SECTSIZE / 4)) with 128%nat. cbn [bt_mem bt_dev].
  change 0x1F0 with 0x1f0. rewrite E. cbn [bt_mem bt_dev]. split; [by rewrite Em', Em, Hd3, Hd2, Hd1 |].
  split; [done | congruence].
Qed.

(** ** A part of the file *)

(** Sectors from [dst] on, from offset [o] of the file, which is at the start
    of a sector. *)
Lemma readseg_loop_spec fuel n k s dst epa o img size :
  dv_wf (bt_dev s) → (dv_polls < fuel)%nat → kernel_on (bt_dev s) img size → size ≤ 2 ^ 32 →
  (k < n)%nat → 0 ≤ dst → 0 ≤ o → o mod 512 = 0 → o + 512 * Z.of_nat k ≤ size →
  dst + 512 * (Z.of_nat k - 1) < epa ≤ dst + 512 * Z.of_nat k ∨ k = O ∧ epa ≤ dst → dst + 512 * Z.of_nat k < 2 ^ 32 →
  wp (readseg_loop fuel n dst epa (o / 512 + 1)) s (λ _ s', same_disk (bt_dev s) (bt_dev s') ∧
    ∀ x, rd (bt_mem s') x = if (dst <=? x) && (x <? dst + 512 * Z.of_nat k) then rd img (o + (x - dst)) else rd (bt_mem s) x).
Proof.
  intros Hw Hf Hk Hs. revert n s dst o Hw Hk. induction k as [|k IH]; intros [|n] s dst o Hw Hk Hn Hd Ho Hm Hsz He Hlt; try lia; cbn [readseg_loop].
  - rewrite (proj2 (Z.ltb_ge dst epa)) by lia. apply wp_ret. split; [done |]. intros x.
    destruct (Z.leb_spec dst x), (Z.ltb_spec x (dst + 512 * Z.of_nat 0)); simpl; done || lia.
  - rewrite (proj2 (Z.ltb_lt dst epa)) by lia. apply wp_bind.
    eapply wp_mono; [apply readsect_spec; [done | done | zdiv] |]. intros [] s1 (Em & Hw1 & Hd1).
    rewrite !u32_id by (unfold SECTSIZE; zdiv). replace (o / 512 + 1 + 1) with ((o + 512) / 512 + 1) by zdiv.
    eapply wp_mono; [apply (IH n s1 (dst + SECTSIZE) (o + 512)) |]; try (unfold SECTSIZE; lia); try done.
    + unfold kernel_on. by rewrite Hd1.
    + zdiv.
    + intros [] s2 ([Hw2 Hd2] & Hr). split; [split; congruence |]. intros x. rewrite Hr, Em, rd_put_bytes, disk_length by done.
      unfold SECTSIZE. change (Z.of_nat bsize) with 512. specialize (Hk (o + (x - dst))).
      destruct (Z.leb_spec (dst + 512) x), (Z.ltb_spec x (dst + 512 + 512 * Z.of_nat k)), (Z.leb_spec dst x), (Z.ltb_spec x (dst + 512)), (Z.ltb_spec x (dst + 512 * Z.of_nat (S k))); simpl; try lia; try done.
      * f_equal. lia.
      * replace ((o + (x - dst)) / 512) with (o / 512) in Hk by zdiv. replace ((o + (x - dst)) mod 512) with (x - dst) in Hk by zdiv.
        rewrite (Z.add_comm (o / 512)), Hk by lia. simpl. apply u8_rd.
Qed.

Definition rounds (off count : Z) : Z := (count + off mod 512 + 511) / 512.

Lemma readseg_spec fuel n s pa count off img size :
  dv_wf (bt_dev s) → (dv_polls < fuel)%nat → kernel_on (bt_dev s) img size → size ≤ 2 ^ 32 →
  rounds off count < Z.of_nat n → 0 ≤ count → 0 ≤ off → off mod 512 ≤ pa → off + count + 512 ≤ size → pa + count + 512 < 2 ^ 32 →
  let dst := pa - off mod 512 in
  wp (readseg fuel n pa count off) s (λ _ s', same_disk (bt_dev s) (bt_dev s') ∧
    ∀ x, rd (bt_mem s') x = if (dst <=? x) && (x <? dst + 512 * rounds off count) then rd img (off + (x - pa)) else rd (bt_mem s) x).
Proof.
  intros Hw Hf Hk Hs Hn Hc Ho Hp Hsz Hlt dst. unfold readseg, SECTSIZE.
  assert (0 ≤ rounds off count ∧ 512 * rounds off count ≤ count + off mod 512 + 511 < 512 * rounds off count + 512) as Hr by (unfold rounds; zdiv).
  assert (0 ≤ off mod 512 < 512) as Hm by zdiv.
  rewrite !u32_id by zdiv. replace (off / 512) with ((off - off mod 512) / 512) by zdiv.
  eapply wp_mono; [apply (readseg_loop_spec fuel n (Z.to_nat (rounds off count)) s (pa - off mod 512) (pa + count) (off - off mod 512) img size); try done; try lia |].
  - zdiv.
  - zdiv.
  - intros [] s' [Hd Hx]. split; [done |]. intros x. rewrite Hx, Z2Nat.id by lia. fold dst.
    destruct (_ && _); [|done]. f_equal. unfold dst. lia.
Qed.

(** ** Segments *)

Record seg : Type := Seg { sg_off : Z; sg_pa : Z; sg_filesz : Z; sg_memsz : Z }.

Definition seg_at (m : mem) (ph : Z) : seg :=
  Seg (ld32 m (ph + pr_off)) (ld32 m (ph + pr_paddr)) (ld32 m (ph + pr_filesz)) (ld32 m (ph + pr_memsz)).

(** The memory that loading a segment writes to. *)
Definition seg_start (g : seg) : Z := sg_pa g - sg_off g mod 512.
Definition seg_stop (g : seg) : Z := Z.max (sg_pa g + sg_memsz g) (seg_start g + 512 * rounds (sg_off g) (sg_filesz g)).

Definition apart (g h : seg) : Prop := seg_stop g ≤ seg_start h ∨ seg_stop h ≤ seg_start g.

Record seg_ok (size : Z) (g : seg) : Prop := SegOk {
  sk_pos : 0 ≤ sg_off g ∧ 0 ≤ sg_filesz g ∧ 0 ≤ sg_memsz g;
  sk_pa : sg_off g mod 512 ≤ sg_pa g;
  sk_file : sg_off g + sg_filesz g + 512 ≤ size;
  sk_mem : sg_pa g + sg_filesz g + 512 < 2 ^ 32 ∧ sg_pa g + sg_memsz g < 2 ^ 32;
  sk_hdr : seg_stop g ≤ elf ∨ elf + 4096 ≤ seg_start g;
}.

Definition loaded (img m : mem) (g : seg) : Prop :=
  ∀ x, 0 ≤ x < sg_memsz g → rd m (sg_pa g + x) = if x <? sg_filesz g then rd img (sg_off g + x) else 0.

Definition outside (g : seg) (x : Z) : Prop := x < seg_start g ∨ seg_stop g ≤ x.

(** The first page of the file is in the scratch space. *)
Definition header_in (img m : mem) : Prop := ∀ o, 0 ≤ o < 4096 → rd m (elf + o) = rd img o.

Lemma header_ld32 img m o : header_in img m → 0 ≤ o → o + 4 ≤ 4096 → ld32 m (elf + o) = ld32 img o.
Proof. intros Hh ? ?. apply ld32_shift. intros i Hi. rewrite <-Z.add_assoc. apply Hh. lia. Qed.

Lemma header_out img m m' g size :
  seg_ok size g → header_in img m → (∀ x, outside g x → rd m' x = rd m x) → header_in img m'.
Proof. intros [_ _ _ _ Hh] Hm Ho o Hr. rewrite Ho; [by apply Hm |]. unfold outside. lia. Qed.

(** The body of the loop in [bootmain]. *)
Lemma seg_spec fuel n s img size o (k : M (boot_st V) unit) Q :
  let g := seg_at img o in
  dv_wf (bt_dev s) → (dv_polls < fuel)%nat → kernel_on (bt_dev s) img size → size ≤ 2 ^ 32 →
  seg_ok size g → rounds (sg_off g) (sg_filesz g) < Z.of_nat n → header_in img (bt_mem s) → 0 ≤ o → o + 32 ≤ 4096 →
  (∀ s', same_disk (bt_dev s) (bt_dev s') → loaded img (bt_mem s') g → (∀ x, outside g x → rd (bt_mem s') x = rd (bt_mem s) x) →
    wp k s' Q) →
  wp (pa ← gets (λ s, ld32 (bt_mem s) (elf + o + pr_paddr));
      filesz ← gets (λ s, ld32 (bt_mem s) (elf + o + pr_filesz));
      off ← gets (λ s, ld32 (bt_mem s) (elf + o + pr_off));
      readseg fuel n pa filesz off;;
      memsz ← gets (λ s, ld32 (bt_mem s) (elf + o + pr_memsz));
      filesz ← gets (λ s, ld32 (bt_mem s) (elf + o + pr_filesz));
      (if filesz <? memsz then set_mem (λ m, stosb m (u32 (pa + filesz)) 0 (Z.to_nat (memsz - filesz))) else mret tt);;
      k) s Q.
Proof.
  intros g Hw Hf Hk Hs Hok Hn Hh Ho Ho'  Hq. destruct (id Hok) as [Hpos Hpa Hfile Hmem Hhdr].
  assert (∀ m f, header_in img m → 0 ≤ f ≤ 28 → ld32 m (elf + o + f) = ld32 img (o + f)) as Hld.
  { intros m f Hm Hff. rewrite <-Z.add_assoc. apply header_ld32; [done | lia | lia]. }
  do 3 (apply wp_bind, wp_gets). rewrite !Hld by (done || by vm_compute).
  change (ld32 img (o + pr_paddr)) with (sg_pa g). change (ld32 img (o + pr_filesz)) with (sg_filesz g). change (ld32 img (o + pr_off)) with (sg_off g).
  apply wp_bind. eapply wp_mono; [by apply (readseg_spec fuel n s (sg_pa g) (sg_filesz g) (sg_off g) img size); try lia |].
  intros [] s1 [Hd1 Hr1]. fold (seg_start g) in Hr1.
  assert (∀ x, outside g x → rd (bt_mem s1) x = rd (bt_mem s) x) as Hout.
  { intros x Hx. rewrite Hr1. unfold outside, seg_stop in Hx.
    destruct (Z.leb_spec (seg_start g) x), (Z.ltb_spec x (seg_start g + 512 * rounds (sg_off g) (sg_filesz g))); simpl; done || lia. }
  pose proof (header_out _ _ _ _ _ Hok Hh Hout) as Hh1.
  do 2 (apply wp_bind, wp_gets). rewrite !Hld by (done || by vm_compute).
  change (ld32 img (o + pr_filesz)) with (sg_filesz g). change (ld32 img (o + pr_memsz)) with (sg_memsz g).
  assert (sg_filesz g + sg_off g mod 512 ≤ 512 * rounds (sg_off g) (sg_filesz g)) as Hrd by (unfold rounds; zdiv).
  assert (0 ≤ sg_off g mod 512) as Hm0 by zdiv.
  assert (∀ x, 0 ≤ x < sg_filesz g → rd (bt_mem s1) (sg_pa g + x) = rd img (sg_off g + x)) as Hin.
  { intros x Hx. rewrite Hr1. unfold seg_start.
    rewrite (proj2 (Z.leb_le _ _)), (proj2 (Z.ltb_lt _ _)) by lia. simpl. f_equal. lia. }
  apply wp_bind. destruct (Z.ltb_spec (sg_filesz g) (sg_memsz g)) as [Hlt|Hge].
  - apply wp_modify. apply Hq; cbn [bt_mem bt_dev]; [done | |]; intros x Hx; rewrite rd_stosb, u32_id, Z2Nat.id by lia.
    + destruct (Z.ltb_spec x (sg_filesz g)); [rewrite (proj2 (Z.leb_gt _ _)) by lia; simpl; apply Hin; lia |].
      by rewrite (proj2 (Z.leb_le _ _)), (proj2 (Z.ltb_lt _ _)) by lia.
    + rewrite <-Hout by done. unfold outside, seg_stop, seg_start in Hx.
      destruct (Z.leb_spec (sg_pa g + sg_filesz g) x), (Z.ltb_spec x (sg_pa g + sg_filesz g + (sg_memsz g - sg_filesz g))); simpl; done || lia.
  - apply wp_ret. apply Hq; [done | | done]. intros x Hx. rewrite (proj2 (Z.ltb_lt _ _)) by lia. apply Hin. lia.
Qed.

Fixpoint segs_from (img : mem) (o : Z) (k : nat) : list seg :=
  match k with
  | O => []
  | S k => seg_at img o :: segs_from img (o + 32) k
  end.

Lemma loaded_same img m m' g size l :
  seg_ok size g → Forall (apart g) l → loaded img m g →
  (∀ x, Forall (λ h, outside h x) l → rd m' x = rd m x) → loaded img m' g.
Proof.
  intros [Hp Hpa _ _ _] Ha Hl Ho x Hx. rewrite Ho; [by apply Hl |].
  eapply list.Forall_impl; [exact Ha |]. intros h Hh. unfold apart, outside, seg_stop in *.
  assert (0 ≤ sg_off g mod 512) by zdiv. unfold seg_start in *. lia.
Qed.

Lemma load_segs_spec fuel n k s img size o :
  let gs := segs_from img o k in
  dv_wf (bt_dev s) → (dv_polls < fuel)%nat → kernel_on (bt_dev s) img size → size ≤ 2 ^ 32 →
  Forall (seg_ok size) gs → Forall (λ g, rounds (sg_off g) (sg_filesz g) < Z.of_nat n) gs → ForallOrdPairs apart gs →
  header_in img (bt_mem s) → 0 ≤ o → o + 32 * Z.of_nat k ≤ 4096 →
  wp (load_segs fuel n k (elf + o) (elf + o + 32 * Z.of_nat k)) s (λ _ s', header_in img (bt_mem s') ∧
    Forall (loaded img (bt_mem s')) gs ∧
    ∀ x, Forall (λ g, outside g x) gs → rd (bt_mem s') x = rd (bt_mem s) x).
Proof.
  intros gs Hw Hf Hk Hs. unfold gs. clear gs. revert s o Hw Hk.
  induction k as [|k IH]; intros s o Hw Hk Hok Hn Ha Hh Ho Ho'; cbn [load_segs segs_from] in *.
  { apply wp_ret. split_and!; try done. }
  apply list.Forall_cons in Hok as [Hok1 Hok], Hn as [Hn1 Hn]. inversion Ha as [|? ? Ha1 Ha2]; subst.
  assert (elf = 0x10000) as Ee by done.
  rewrite (proj2 (Z.ltb_lt _ _)) by lia. cbn [negb].
  apply (seg_spec fuel n s img size o); try done; try lia.
  intros s1 [Hw1 Hd1] Hl1 Ho1. pose proof (header_out _ _ _ _ _ Hok1 Hh Ho1) as Hh1.
  unfold sizeof_proghdr. rewrite u32_id by lia.
  replace (elf + o + 32 * Z.of_nat (S k)) with (elf + (o + 32) + 32 * Z.of_nat k) by lia.
  rewrite <-Z.add_assoc. eapply wp_mono; [apply IH; try done; try lia; unfold kernel_on; by rewrite Hd1 |].
  intros [] s2 (Hh2 & Hl2 & Ho2). split_and!; [done | |].
  - apply list.Forall_cons. split; [|done]. by eapply loaded_same.
  - intros x [Hx1 Hx2]%list.Forall_cons. rewrite Ho2 by done. by apply Ho1.
Qed.

(** ** The kernel *)

Definition kernel_segs (img : mem) : list seg := segs_from img (ld32 img eh_phoff) (Z.to_nat (ld16 img eh_phnum)).

(** An ELF file in the first [size] bytes of [img], with headers in the first
    page, whose segments the boot loader can load. *)
Record bootable (img : mem) (size : Z) : Prop := Bootable {
  bo_size : 4608 ≤ size ≤ 2 ^ 32;
  bo_magic : ld32 img 0 = BOOT_ELF_MAGIC;
  bo_hdrs : ld32 img eh_phoff + 32 * ld16 img eh_phnum ≤ 4096;
  bo_segs : Forall (seg_ok size) (kernel_segs img);
  bo_apart : ForallOrdPairs apart (kernel_segs img);
}.

Lemma rounds_small size g : seg_ok size g → size ≤ 2 ^ 32 → rounds (sg_off g) (sg_filesz g) < 2 ^ 23 + 2.
Proof. intros [Hp _ Hs _ _] Hz. unfold rounds. zdiv. Qed.

Lemma ld16_range m a : 0 ≤ ld16 m a < 2 ^ 16.
Proof. unfold ld16. pose proof (rd_range m a). pose proof (rd_range m (a + 1)). lia. Qed.

Lemma bootmain_spec fuel n s img size :
  dv_wf (bt_dev s) → (dv_polls < fuel)%nat → kernel_on (bt_dev s) img size → bootable img size → 2 ^ 23 + 2 ≤ Z.of_nat n →
  wp (bootmain fuel n) s (λ r s', r = Some (ld32 img eh_entry) ∧ Forall (loaded img (bt_mem s')) (kernel_segs img) ∧
    ∀ x, x < elf ∨ elf + 4096 ≤ x → Forall (λ g, outside g x) (kernel_segs img) → rd (bt_mem s') x = rd (bt_mem s) x).
Proof.
  intros Hw Hf Hk [Hsz Hmg Hhd Hok Ha] Hn. unfold bootmain. assert (elf = 0x10000) as Ee by done.
  apply wp_bind. eapply wp_mono; [by apply (readseg_spec fuel n s elf 4096 0 img size); try lia; try done; change (rounds 0 4096) with 8; lia |].
  intros [] s1 [[Hw1 Hd1] Hr1]. change (rounds 0 4096) with 8 in Hr1. change (elf - 0 mod 512) with elf in Hr1.
  assert (header_in img (bt_mem s1)) as Hh1.
  { intros o Ho. rewrite Hr1, (proj2 (Z.leb_le _ _)), (proj2 (Z.ltb_lt _ _)) by lia. simpl. f_equal. lia. }
  apply wp_bind, wp_gets. replace (ld32 (bt_mem s1) elf) with (ld32 img 0) by (symmetry; rewrite <-(Z.add_0_r elf); by apply header_ld32).
  rewrite Hmg, Z.eqb_refl. cbn [negb]. do 2 (apply wp_bind, wp_gets). rewrite (header_ld32 img) by done.
  assert (ld16 (bt_mem s1) (elf + eh_phnum) = ld16 img eh_phnum) as ->.
  { unfold ld16. rewrite <-Z.add_assoc, !Hh1 by (unfold eh_phnum; lia). done. }
  pose proof (ld32_range img eh_phoff). pose proof (ld16_range img eh_phnum). unfold sizeof_proghdr. rewrite !u32_id by lia.
  apply wp_bind. rewrite <-(Z2Nat.id (ld16 img eh_phnum)) at 2 by lia.
  eapply wp_mono; [apply (load_segs_spec fuel n _ s1 img size); try done; try lia |].
  - unfold kernel_on. by rewrite Hd1.
  - eapply list.Forall_impl; [exact Hok |]. intros g Hg. pose proof (rounds_small _ _ Hg). lia.
  - intros [] s2 (Hh2 & Hl2 & Ho2). apply wp_bind, wp_gets, wp_ret. rewrite (header_ld32 img) by done. split_and!; [done.. |].
    intros x Hx Hgs. rewrite Ho2, Hr1 by done.
    destruct (Z.leb_spec elf x), (Z.ltb_spec x (elf + 512 * 8)); simpl; done || lia.
Qed.
End Boot.
