(* ===== verification/DevProps.v ===== *)
(** * Properties of the devices and of the start of the machine

    The keyboard, the clock, the interrupt controller, the tables of
    processors and the boot loader.  Each theorem is about any device that has
    the laws it names; the witnesses have one that has them. *)

From S2P Require Import Prelude Mmu Mem Bytes Disk Console ConsSpec Ide IdeSpec Trap Ports Kbd KbdSpec Lapic RtcSpec IoapicSpec Mp MpSpec Boot BootSpec.

(** ** The keyboard *)

(** C20. Whatever keys are pressed and released, the keyboard interrupt hands
    the characters that they stand for to the console, and keeps track of the
    modifiers: [kbdintr] returns, has read all the scan codes, the [shift] word
    stands for the modifiers that are on, and the input line is that of the
    line discipline on these characters. *)
Theorem kbd_types {V} `{KbdLaws V} fuel es m (v : V) c rd ed :
  Forall key_ok es → pending v = concat (scancodes <$> es) → (length (pending v) < fuel)%nat → con_rep c rd ed →
  wp (kbdintr fuel) (Kbd (enc m) v, c) (λ _ s,
    let l := line_chars (chars (typed es m).1) (rd, ed) in
    con_rep s.2 l.1 l.2 ∧ kb_shift s.1 = enc (typed es m).2 ∧ pending (kb_dev s.1) = []).
Proof.
  intros Hes Hp Hf Hc. destruct (decode_keys es m Hes) as [E1 E2]. unfold kbdintr. apply wp_bind, wp_zoom.
  eapply wp_mono; [by apply getc_all_spec |]. intros cs [sh v'] (Ed & Hcs & Hv'). rewrite Hp in Ed. cbn [kb_shift kb_dev fst snd] in *.
  rewrite <-Ed in E1, E2. cbn [fst snd] in E1, E2. apply wp_zoom.
  destruct (consoleintr_ok cs false false c rd ed Hc) as (d & w & c' & Ec & Hr).
  { eapply list.Forall_impl; [exact Hcs |]. cbv beta. lia. }
  eapply wp_intro; [exact Ec |]. cbn [fst snd]. rewrite <-E1. rewrite <-line_chars_chars; [done |].
  eapply list.Forall_impl; [exact Hcs |]. cbv beta. lia.
Qed.

(** A controller that holds a list of codes. *)
Definition code_queue : Type := list Z.

#[export] Instance queue_ports : Ports code_queue := {
  pt_inb p q := if p =? KBSTATP then (match q with [] => 0 | _ => KBS_DIB end, q) else (default 0 (head q), tail q);
  pt_outb p x q := q;
}.

#[export, refine] Instance queue_laws : KbdLaws code_queue := { pending := λ q, q }.
Proof.
  - intros q. split; [|done]. by destruct q.
  - intros q x l ->. done.
Defined.

Definition kcons : cons :=
  Cons false true (replicate (Z.to_nat 16384) 0) 0 [] (replicate 128 0) 0 0 0.

(** Shift and the key of [a], the key of [b], Enter. *)
Definition keys_Ab : list key := [Down 0x2A; Down 0x1E; Up 0x1E; Up 0x2A; Down 0x30; Up 0x30; Down 0x1C; Up 0x1C].

Lemma keys_Ab_line : line_chars (chars (typed keys_Ab no_mods).1) ([], []) = ([65; 98; 10], []).
Proof. vm_compute. reflexivity. Qed.

Lemma kbd_types_witness :
  wp (kbdintr 10) (Kbd (enc no_mods) (concat (scancodes <$> keys_Ab) : code_queue), kcons) (λ _ s,
    con_rep s.2 [65; 98; 10] [] ∧ kb_shift s.1 = 0 ∧ kb_dev s.1 = []).
Proof.
  refine (wp_mono _ _ _ _ (kbd_types 10 keys_Ab no_mods (concat (scancodes <$> keys_Ab) : code_queue) kcons [] [] _ eq_refl _ _) _).
  - unfold keys_Ab. repeat (apply list.Forall_cons; split; [by split_and!|]). by apply list.Forall_nil.
  - simpl. lia.
  - constructor; [|done | done]. constructor; [|done | done | done | done |].
    + constructor; [done | | done]. unfold kcons. cbn [cn_crt]. rewrite length_replicate. done.
    + intros [|i] b Hb; discriminate Hb.
  - rewrite keys_Ab_line. intros r s (H1 & H2 & H3). split_and!; [exact H1 | exact H2 | exact H3].
Defined.

(** ** The clock *)

(** C21. Reading the clock ends and gives one date.  The registers are read one
    at a time, the clock changes them once a second, and what is read during
    the change is undefined; still [cmostime] returns, after as many rounds as
    fit in the time of an update and two more, and what it returns is a date
    that the clock showed at an instant between its start and its end, decoded
    from either format.  The clock is one that announces an update 244
    microseconds ahead, as its data sheet says, and the thirteen accesses after
    the test of [CMOS_UIP] take less than that. *)
Theorem cmostime_correct {V} `{RtcLaws V} fuel (v : V) :
  (date_rounds (V := V) ≤ fuel)%nat → rtc_stop 0 ≤ rtc_now v →
  ∃ t v', cmostime fuel v = Ok (t, v') ∧
    ∃ n a, rtc_now v ≤ a ≤ rtc_now v' ∧ shows n a ∧ t = full_date (rtc_date n).
Proof. intros Hf H0'. by apply (proj1 (wp_iff _ _ _)), cmostime_spec. Qed.

(** A clock that shows the seconds since a new year in binary coded decimal,
    with updates of the longest kind that end on the second, and 255 in the
    registers meanwhile; an access takes a microsecond. *)
Record clock : Type := Clock { ck_sel : Z; ck_now : Z }.

Definition ck_pass (c : clock) : clock := Clock (ck_sel c) (ck_now c + 1000).

Definition ck_date (n : nat) : rtcdate :=
  let n := Z.of_nat n in Rtcdate (n mod 60) (n / 60 mod 60) (n / 3600 mod 24) (1 + n / 86400 mod 28) 1 26.

Definition ck_stop (n : nat) : Z := 1000000000 * Z.of_nat n.
Definition ck_start (n : nat) : Z := ck_stop n - tBUC - tUC.

(** The time to the end of the next update. *)
Definition ck_left (c : clock) : Z := 1000000000 - ck_now c mod 1000000000.

Definition ck_read (c : clock) : Z :=
  if ck_sel c =? CMOS_STATA then (if ck_left c <=? tBUC + tUC then CMOS_UIP else 0)
  else if ck_sel c =? CMOS_STATB then 0
  else if ck_left c <=? tUC then 255
  else bcd (field (ck_sel c) (ck_date (Z.to_nat (ck_now c / 1000000000)))).

#[export] Instance clock_ports : Ports clock := {
  pt_inb p c := (ck_read c, ck_pass c);
  pt_outb p x c := Clock x (ck_now c + 1000);
}.

#[export, refine] Instance clock_laws : RtcLaws clock := {
  rtc_sel := ck_sel; rtc_now := ck_now; rtc_start := ck_start; rtc_stop := ck_stop; rtc_date := ck_date; rtc_statb := 0;
  acc_min := 1000; acc_max := 1000;
}.
Proof.
  - unfold tBUC. lia.
  - intros n. unfold in_range, date_regs. rewrite !list.Forall_cons. unfold ck_date. cbn [field Z.eqb SECS MINS HOURS DAY MONTH YEAR Pos.eqb second minute hour day month year].
    split_and!; try zdiv. constructor.
  - intros n. unfold ck_start, tBUC, tUC. lia.
  - intros n. unfold ck_start, ck_stop, tBUC, tUC. lia.
  - intros r [sel t]. cbn. split; [done | lia].
  - intros [sel t]. cbn. lia.
  - intros [sel t] n Hs. cbn [ck_sel ck_now] in *. cbn [fst pt_inb clock_ports]. unfold ck_read, ck_left, ck_start, ck_stop. cbn [ck_sel ck_now].
    intros Ht. assert (t / 1000000000 = Z.of_nat n) as E by (unfold tBUC, tUC in Ht; zdiv). rewrite E, Nat2Z.id.
    destruct (Z.leb_spec (1000000000 - t mod 1000000000) tUC) as [Hl|Hl]; [unfold tBUC, tUC in *; zdiv |].
    unfold date_regs in Hs. rewrite !elem_of_cons, elem_of_nil in Hs. by destruct Hs as [->|[->|[->|[->|[->|[->|[]]]]]]].
  - intros [sel t]. cbn [ck_sel]. intros ->. done.
  - intros [sel t]. cbn [ck_sel ck_now]. intros ->. cbn [fst pt_inb clock_ports]. unfold ck_read, ck_left, ck_start, ck_stop. cbn [ck_sel ck_now].
    change (CMOS_STATA =? CMOS_STATA) with true. cbv iota. intros H0'.
    destruct (Z.leb_spec (1000000000 - t mod 1000000000) (tBUC + tUC)) as [Hl|Hl]; split; try done.
    + intros _. exists (S (Z.to_nat (t / 1000000000))). rewrite Nat2Z.inj_succ, Z2Nat.id by zdiv. unfold tBUC, tUC in *. zdiv.
    + intros (n & Hn1 & Hn2). exfalso. unfold tBUC, tUC in *. zdiv.
Defined.

(** Started 20 microseconds before the clock announces the end of 0:01:23. *)
Definition late : clock := Clock 0 (ck_start 84 - 20000).

Lemma cmostime_correct_witness :
  ∃ t v', cmostime 200 late = Ok (t, v') ∧
    ∃ n a, ck_now late ≤ a ≤ ck_now v' ∧ shows n a ∧ t = full_date (ck_date n).
Proof.
  destruct (cmostime_correct 200 late) as (t & v' & E & n & a & Ha & Hn & Et); [by vm_compute; lia | by vm_compute |].
  exists t, v'. split; [exact E |]. exists n, a. split; [exact Ha | split; [exact Hn | exact Et]].
Defined.

(** ** The I/O APIC *)

(** After [ioapicinit] and whatever interrupts the drivers enable, each
    interrupt of the device goes to the CPU it was last enabled for, and is
    masked if it never was. *)
Theorem ioapic_routes {V} `{IoapicLaws V} id l i (v : V) :
  0 ≤ i ≤ maxintr v → Forall (λ x, 0 ≤ x.1 < 256 ∧ 0 ≤ x.2 < 256) l →
  wp (ioapicinit id;; enable_all l) v (λ _ v', has_route (io_reg v') i (route_of l i)).
Proof.
  intros Hi Hl. apply wp_bind. eapply wp_mono; [apply ioapicinit_spec |]. intros b v1 [_ Hm].
  apply enable_all_spec; [done | by apply Hm].
Qed.

(** ** The processors *)

(** C23. On a well-formed configuration table [mpinit] registers what the table
    lists: it finds the table where the BIOS put it, the CPUs are the first
    [NCPU] processors in their order, [ioapicid] is that of the last I/O APIC
    and [lapic] the address in the table; then it switches the interrupt mode
    if the machine has the register for it. *)
Theorem mpinit_correct {V} `{Ports V} fuel (s : mp_st V) seg base q pa imcrp lapicaddr es :
  bios_data (mp_mem s) seg base → located (mp_mem s) seg base q → mp_table (mp_mem s) q pa imcrp lapicaddr (entries es) →
  Forall entry_wf es → mp_ncpu s = 0 → (length es < fuel)%nat →
  mpinit fuel s = imcr imcrp
    (MpSt (mp_mem s) (list_inserts 0 (take 8 (procs es)) (mp_cpus s)) (Z.of_nat (length (take 8 (procs es))))
       (List.last (ioapics es) (mp_ioapicid s)) lapicaddr (mp_dev s)).
Proof.
  intros Hd Hq Ht Hw Hn Hf. pose proof (mt_mp _ _ _ _ _ _ Ht) as [_ Hi]. rewrite <-(app_nil_r (entries es)) in Ht.
  destruct (mpinit_table fuel s _ _ _ _ _ _ es [] Hd Hq Ht Hw) as [_ ->]; [rewrite Hn; done |].
  destruct (fuel - length es)%nat as [|k] eqn:Ek; [lia |]. cbn [mpinit_loop length]. rewrite Z.add_0_r, Z.ltb_irrefl. cbn [negb].
  rewrite (bind_ok _ _ _ true _ eq_refl). cbn [negb].
  rewrite (bind_ok _ _ _ _ _ (kb_ok (registered es (set_lapic lapicaddr s)) (q + mp_imcrp) imcrp Hi)).
  f_equal. unfold registered, set_lapic. cbn [mp_mem mp_cpus mp_ncpu mp_ioapicid mp_lapic mp_dev]. by rewrite Hn.
Qed.

(** A machine with a table of the entries [body]. *)
Fixpoint bytes_atb (m : mem) (va : Z) (bs : list Z) : bool :=
  match bs with
  | [] => true
  | b :: bs => bool_decide (look m va = Some b) && bytes_atb m (va + 1) bs
  end.

Lemma bytes_atb_ok m va bs : bytes_atb m va bs = true → bytes_at m va bs.
Proof.
  revert va. induction bs as [|b bs IH]; intros va; cbn [bytes_atb]; [by intros _ i c Hi |].
  intros [Hb%bool_decide_eq_true Hr]%andb_true_iff. apply bytes_at_cons. auto.
Qed.

Definition mp_conf (body : list Z) : list Z :=
  let bytes ck := conf_bytes 4 ck (replicate 28 0) 0xFEE00000 [0; 0; 0; 0] body in
  bytes ((- total (bytes 0)) mod 256).

Definition mp_float : list Z := mp_signature ++ le32 0x9FD00 ++ [1; 4; 154; 0; 0; 0; 0; 0].

Definition bios_mem (body : list Z) : mem :=
  put_bytes (put_bytes (put_bytes (put_bytes ∅ 0x40E (le16 0x9FC0)) 0x413 (le16 639)) 0x9FC00 mp_float) 0x9FD00 (mp_conf body).

Definition no_dev : Type := unit.
#[export] Instance no_dev_ports : Ports no_dev := { pt_inb _ v := (0, v); pt_outb _ _ v := v }.

Definition bios_st (body : list Z) : mp_st no_dev := MpSt (bios_mem body) (replicate 8 0) 0 0 0 tt.

Definition two_cpus : list mp_entry := [EProc 0 (replicate 18 0); EProc 1 (replicate 18 0); EOther MPBUS (replicate 7 0); EIoapic 2 (replicate 6 0)].

(** The hypotheses on the memory, as a test. *)
Definition bios_ok (body : list Z) : bool :=
  let m := bios_mem body in
  bytes_atb m (P2V 0x40E) (le16 0x9FC0) && bytes_atb m (P2V 0x413) (le16 639) &&
  bytes_atb m (P2V 0x9FC00) mp_float && valid mp_float && bytes_atb m (P2V 0x9FC00 + 4) (le32 0x9FD00) &&
  bool_decide (look m (P2V 0x9FC00 + 12) = Some 0) && bytes_atb m (P2V 0x9FD00) (mp_conf body) && (total (mp_conf body) mod 256 =? 0).

Lemma bios_found body :
  bios_ok body = true → Z.of_nat (length body) < 1000 →
  bios_data (bios_mem body) 0x9FC0 639 ∧ located (bios_mem body) 0x9FC0 639 (P2V 0x9FC00) ∧
  mp_table (bios_mem body) (P2V 0x9FC00) 0x9FD00 0 0xFEE00000 body.
Proof.
  unfold bios_ok. cbv zeta. rewrite !andb_true_iff, !bool_decide_eq_true, Z.eqb_eq.
  intros [[[[[[[H1 H2] H3] H4] H5] H6] H7] H8] Hl. split_and!.
  - split_and!; try done; by apply bytes_atb_ok.
  - left. exists 0%nat. split_and!; [lia | done | | lia]. exists mp_float. split_and!; [done | by apply bytes_atb_ok | done].
  - constructor; [unfold PHYSTOP; lia | lia | lia | split; [by apply bytes_atb_ok | done] |].
    exists 4, ((- total (conf_bytes 4 0 (replicate 28 0) 0xFEE00000 [0; 0; 0; 0] body)) mod 256), (replicate 28 0), [0; 0; 0; 0].
    split_and!; [by right | done | done | by apply bytes_atb_ok | exact H8].
Qed.

Lemma two_cpus_ok : bios_ok (entries two_cpus) = true.
Proof. vm_compute. reflexivity. Qed.

Lemma mpinit_correct_witness :
  mpinit 5 (bios_st (entries two_cpus)) =
  Ok (tt, MpSt (bios_mem (entries two_cpus)) [0; 1; 0; 0; 0; 0; 0; 0] 2 2 0xFEE00000 tt).
Proof.
  destruct (bios_found (entries two_cpus) two_cpus_ok) as (H1 & H2 & H3); [simpl; lia |].
  rewrite (mpinit_correct 5 (bios_st (entries two_cpus)) _ _ _ _ _ _ two_cpus H1 H2 H3); [reflexivity | | reflexivity | simpl; lia].
  unfold two_cpus. repeat (apply list.Forall_cons; split; [by repeat split; auto |]). by apply list.Forall_nil.
Defined.

(** C39. On a table with an entry of a type that it does not know, [mpinit]
    does not end: [break] leaves the [switch] only, and the loop looks at the
    same entry again.  The panic that should report it is never reached. *)
Theorem mpinit_hangs {V} `{Ports V} fuel (s : mp_st V) seg base q pa imcrp lapicaddr es t rest :
  bios_data (mp_mem s) seg base → located (mp_mem s) seg base q → mp_table (mp_mem s) q pa imcrp lapicaddr (entries es ++ t :: rest) →
  Forall entry_wf es → mp_ncpu s = 0 → MPLINTR < t →
  mpinit fuel s = Err EFuel.
Proof.
  intros Hd Hq Ht Hw Hn Hlt.
  destruct (mpinit_table fuel s _ _ _ _ _ _ es (t :: rest) Hd Hq Ht Hw) as [[Hr _]%bytes_at_cons ->]; [rewrite Hn; done |].
  unfold mbind, M_bind. by rewrite (mpinit_stuck _ _ _ _ t) by (done || simpl; lia).
Qed.

(** A processor and then an entry of type 5. *)
Definition odd_table : list Z := entries [EProc 0 (replicate 18 0)] ++ 5 :: replicate 7 0.

Lemma odd_table_ok : bios_ok odd_table = true.
Proof. vm_compute. reflexivity. Qed.

Lemma mpinit_hangs_witness : mpinit 1000 (bios_st odd_table) = Err EFuel.
Proof.
  destruct (bios_found odd_table odd_table_ok) as (H1 & H2 & H3); [simpl; lia |].
  apply (mpinit_hangs 1000 (bios_st odd_table) _ _ _ _ _ _ [EProc 0 (replicate 18 0)] 5 (replicate 7 0) H1 H2 H3); [|done | done].
  apply list.Forall_cons. split; [done |]. by apply list.Forall_nil.
Defined.

(** ** The boot loader *)

(** C22. The boot loader loads the kernel: if the disk holds an ELF file whose
    segments have places that do not overlap, [bootmain] ends with a jump to
    its entry point, each segment is in memory at its physical address with
    the bytes of the file and then zeros, and no memory is changed but the
    scratch page for the header and the whole sectors that the segments are
    loaded in, which may begin before and end after them.  The disk is one that
    reports no errors. *)
Theorem bootmain_loads {V} `{PioLaws V} fuel n (s : boot_st V) img size :
  dv_wf (bt_dev s) → (dv_polls < fuel)%nat → kernel_on (bt_dev s) img size → bootable img size → 2 ^ 23 + 2 ≤ Z.of_nat n →
  ∃ s', bootmain fuel n s = Ok (Some (ld32 img eh_entry), s') ∧ Forall (loaded img (bt_mem s')) (kernel_segs img) ∧
    ∀ x, x < elf ∨ elf + 4096 ≤ x → Forall (λ g, outside g x) (kernel_segs img) → rd (bt_mem s') x = rd (bt_mem s) x.
Proof.
  intros Hw Hf Hk Hb Hn. destruct (proj1 (wp_iff _ _ _) (bootmain_spec fuel n s img size Hw Hf Hk Hb Hn)) as (r & s' & E & -> & Hl & Ho).
  by exists s'.
Qed.

(** A kernel with a segment of 4 bytes in the file and 8 in memory. *)
Definition small_kernel : mem :=
  put_bytes (put_bytes (put_bytes (put_bytes (put_bytes ∅ 0 (le32 BOOT_ELF_MAGIC))
    24 (le32 0x10000C ++ le32 52)) 44 (le16 1))
    52 (le32 1 ++ le32 4096 ++ le32 0x80100000 ++ le32 0x100000 ++ le32 4 ++ le32 8)) 4096 [11; 22; 33; 44].

Definition kernel_disk (img : mem) (d n : Z) : list Z := (λ i, rd img (512 * (n - 1) + i)) <$> seqZ 0 512.

Definition boot_dev : sim := Sim 0 0 0 0 0 None None (kernel_disk small_kernel).

Lemma boot_dev_holds size : kernel_on boot_dev small_kernel size.
Proof.
  intros o Ho. cbn [dv_disk sim_laws boot_dev sim_disk]. unfold kernel_disk. rewrite list_lookup_fmap, lookup_seqZ_lt by zdiv.
  cbn [fmap option_fmap option_map]. do 2 f_equal. zdiv.
Qed.

Lemma small_kernel_segs : kernel_segs small_kernel = [Seg 4096 0x100000 4 8].
Proof. vm_compute. reflexivity. Qed.

Lemma small_kernel_bootable : bootable small_kernel 8192.
Proof.
  constructor; [lia | by vm_compute | by vm_compute | |]; rewrite small_kernel_segs.
  - apply list.Forall_cons. split; [|by apply list.Forall_nil]. constructor; try by vm_compute. right. by vm_compute.
  - constructor; [by apply list.Forall_nil | constructor].
Qed.

Lemma bootmain_loads_witness :
  ∃ s', bootmain 3 (Z.to_nat (2 ^ 24)) (BootSt ∅ boot_dev) = Ok (Some 0x10000C, s') ∧
    rd (bt_mem s') 0x100002 = 33 ∧ rd (bt_mem s') 0x100006 = 0.
Proof.
  destruct (bootmain_loads 3 (Z.to_nat (2 ^ 24)) (BootSt ∅ boot_dev) small_kernel 8192) as (s' & E & Hl & _).
  - split; [simpl; lia |]. intros d k. cbn [bt_dev boot_dev sim_disk]. unfold kernel_disk. by rewrite length_fmap, length_seqZ.
  - simpl. lia.
  - apply boot_dev_holds.
  - apply small_kernel_bootable.
  - rewrite Z2Nat.id by lia. lia.
  - exists s'. replace (ld32 small_kernel eh_entry) with 0x10000C in E by (vm_compute; reflexivity). split; [exact E |].
    rewrite small_kernel_segs in Hl. apply list.Forall_cons in Hl as [Hl _].
    pose proof (Hl 2) as H2. pose proof (Hl 6) as H6. cbn [sg_pa sg_off sg_filesz sg_memsz] in H2, H6. clear E Hl.
    split; [etransitivity; [apply H2; lia |] | etransitivity; [apply H6; lia |]]; [vm_compute |]; reflexivity.
Defined.
