(* ===== verification/Mkfs.v ===== *)
(** * Making a file system image ([mkfs.c])

    [mkfs] runs on the build host and writes the image that the kernel boots
    from.  The image is a list of blocks; a write beyond its end extends it,
    and a read there ends the program.  The host's files are an argument: the
    name and the contents of each.  [xint] and [xshort] store numbers with
    their low byte first, which is how [put_dinode], [put_superblock] and
    [dirent_bytes] store them. *)

From S2P Require Import Prelude Mmu Bytes Disk FsFormat Log Fs.

Definition NINODES : Z := 200.

Definition nbitmap : Z := FSSIZE / (BSIZE * 8) + 1.
Definition ninodeblocks : Z := NINODES / IPB + 1.
Definition nlog : Z := LOGSIZE.
Definition nmeta : Z := 2 + nlog + ninodeblocks + nbitmap.
Definition mk_nblocks : Z := FSSIZE - nmeta.

Definition mk_sb : superblock :=
  Superblock FSSIZE mk_nblocks NINODES nlog 2 (2 + nlog) (2 + nlog + ninodeblocks).

Record mkst : Type := Mkst {
  mk_img : list (list Z);
  mk_freeinode : Z;
  mk_freeblock : Z;
}.

Definition zeroes : list Z := replicate bsize 0.

Definition wsect (sec : Z) (buf : list Z) : M mkst unit :=
  modify (λ s,
    let img := mk_img s ++ replicate (S (Z.to_nat sec) - length (mk_img s)) zeroes in
    Mkst (<[Z.to_nat sec := buf]> img) (mk_freeinode s) (mk_freeblock s)).

Definition rsect (sec : Z) : M mkst (list Z) := λ s,
  match mk_img s !! Z.to_nat sec with
  | Some buf => Ok (buf, s)
  | None => Err EExit
  end.

Definition winode (inum : Z) (ip : dinode) : M mkst unit :=
  let bn := IBLOCK inum mk_sb in
  buf ← rsect bn;
  wsect bn (put_dinode (ioff inum) ip buf).

Definition rinode (inum : Z) : M mkst dinode :=
  let bn := IBLOCK inum mk_sb in
  buf ← rsect bn;
  mret (get_dinode buf (ioff inum)).

Definition mk_ialloc (type : Z) : M mkst Z :=
  inum ← gets mk_freeinode;
  modify (λ s, Mkst (mk_img s) (u32 (mk_freeinode s + 1)) (mk_freeblock s));;
  winode inum (Dinode (u16 type) 0 0 1 0 (replicate (NDIRECT + 1) 0));;
  mret inum.

(** [freeblock++] *)
Definition next_block : M mkst Z :=
  b ← gets mk_freeblock;
  modify (λ s, Mkst (mk_img s) (mk_freeinode s) (u32 (mk_freeblock s + 1)));;
  mret b.

(** The bitmap with the first [used] bits set. *)
Definition mk_bits (used : Z) : list Z := foldl bit_set zeroes (seqZ 0 used).

Definition mk_balloc (used : Z) : M mkst unit :=
  if negb (used <? BSIZE * 8) then panic "assert" else
  wsect (sb_bmapstart mk_sb) (mk_bits used).

(** The block of [iappend] that holds byte [fbn * BSIZE] of the file; it is
    allocated if there is none. *)
Definition iappend_block (fbn : Z) (din : dinode) : M mkst (Z * dinode) :=
  if fbn <? Z.of_nat NDIRECT then
    let a := default 0 (di_addrs din !! Z.to_nat fbn) in
    if a =? 0 then
      b ← next_block;
      mret (b, set_addr (Z.to_nat fbn) b din)
    else mret (a, din)
  else
    din ← (if default 0 (di_addrs din !! NDIRECT) =? 0 then
             b ← next_block; mret (set_addr NDIRECT b din)
           else mret din);
    let ind := default 0 (di_addrs din !! NDIRECT) in
    indirect ← rsect ind;
    let k := (4 * Z.to_nat (fbn - Z.of_nat NDIRECT))%nat in
    if get32 indirect k =? 0 then
      b ← next_block;
      wsect ind (put32 k b indirect);;
      mret (b, din)
    else mret (get32 indirect k, din).

Fixpoint iappend_loop (fuel : nat) (off : Z) (p : list Z) (din : dinode) : M mkst (Z * dinode) :=
  match fuel with
  | O => raise EFuel
  | S fuel =>
    if bool_decide (p = []) then mret (off, din) else
    let fbn := off / BSIZE in
    if negb (fbn <? Z.of_nat MAXFILE) then panic "assert" else
    r ← iappend_block fbn din;
    let '(x, din) := r in
    let n1 := Nat.min (length p) (Z.to_nat ((fbn + 1) * BSIZE - off)) in
    buf ← rsect x;
    wsect x (splice (Z.to_nat (off - fbn * BSIZE)) (take n1 p) buf);;
    iappend_loop fuel (off + Z.of_nat n1) (drop n1 p) din
  end.

Definition iappend (inum : Z) (p : list Z) : M mkst unit :=
  din ← rinode inum;
  r ← iappend_loop (S (length p)) (di_size din) p din;
  winode inum (set_size r.1 r.2).

(** [iappend] of a directory entry to the root. *)
Definition add_entry (rootino inum : Z) (name : list Z) : M mkst unit :=
  iappend rootino (dirent_bytes (Dirent (u16 inum) (dirname name))).

(** [while((cc = read(fd, buf, sizeof(buf))) > 0) iappend(inum, buf, cc)] *)
Fixpoint copy_file (fuel : nat) (inum : Z) (data : list Z) : M mkst unit :=
  match fuel with
  | O => raise EFuel
  | S fuel =>
    if bool_decide (data = []) then mret tt else
    iappend inum (take bsize data);;
    copy_file fuel inum (drop bsize data)
  end.

Definition skip_underscore (name : list Z) : list Z :=
  match name with
  | c :: name' => if c =? 95 then name' else name
  | [] => []
  end.

(** A host file: its name and its bytes. *)
Abbreviation hostfile := (list Z * list Z)%type.

Fixpoint add_files (rootino : Z) (files : list hostfile) : M mkst unit :=
  match files with
  | [] => mret tt
  | (name, data) :: files =>
    if bool_decide (47 ∈ name) then panic "assert" else
    inum ← mk_ialloc T_FILE;
    add_entry rootino inum (skip_underscore name);;
    copy_file (S (length data)) inum data;;
    add_files rootino files
  end.

Fixpoint zero_sects (secs : list Z) : M mkst unit :=
  match secs with
  | [] => mret tt
  | i :: secs => wsect i zeroes;; zero_sects secs
  end.

(** From an empty image file. *)
Definition mkfs_main (files : list hostfile) : M mkst unit :=
  zero_sects (seqZ 0 FSSIZE);;
  wsect 1 (put_superblock mk_sb zeroes);;
  rootino ← mk_ialloc T_DIR;
  if negb (rootino =? ROOTINO) then panic "assert" else
  add_entry rootino rootino [46];;
  add_entry rootino rootino [46; 46];;
  add_files rootino files;;
  din ← rinode rootino;
  winode rootino (set_size ((di_size din / BSIZE + 1) * BSIZE) din);;
  n ← gets mk_freeblock;
  mk_balloc n.

Definition image (r : res (unit * mkst)) : res (list (list Z)) :=
  match r with
  | Ok (_, s) => Ok (mk_img s)
  | Err e => Err e
  end.

Definition mkfs (files : list hostfile) : res (list (list Z)) := image (mkfs_main files (Mkst [] 1 nmeta)).
