(* ===== verification/MkfsSpec.v ===== *)
(** * What [mkfs] writes ([mkfs.c])

    The image is read with the notions of the kernel's file system: the bitmap
    ([fs_ok]), the blocks of an inode ([file_ok]), the bytes of a file
    ([content]).  While [mkfs] runs, the bitmap block is not written yet;
    [mk_view] is the image with the bitmap that the final [balloc] will write,
    so that each [freeblock++] is an allocation in the sense of the kernel
    ([took]). *)

From S2P Require Import Prelude Mmu Bytes Disk FsFormat Log LogSpec LogOps FsTx Fs FsAlloc FsFile FsGrow FsWrite Mkfs.

(** ** Numbers *)

Lemma nmeta_eq : nmeta = 59.
Proof. reflexivity. Qed.

Definition bmap_sect : Z := 58.

Lemma mk_bblock b : 0 ≤ b < FSSIZE → BBLOCK b mk_sb = bmap_sect.
Proof.
  intros Hb. unfold BBLOCK, BPB, BSIZE, FSSIZE in *. rewrite Z.div_small by lia. reflexivity.
Qed.

Lemma mk_bmblocks : bmblocks mk_sb = [bmap_sect].
Proof. reflexivity. Qed.

Lemma mk_iblock i : 0 ≤ i < NINODES → IBLOCK i mk_sb = i / 8 + 32 ∧ 32 ≤ IBLOCK i mk_sb < bmap_sect.
Proof.
  intros Hi. unfold IBLOCK, IPB, BSIZE, NINODES, bmap_sect in *. change (512 / 64) with 8. change (sb_inodestart mk_sb) with 32.
  rewrite u32_id by zdiv. split; [done | zdiv].
Qed.

(** ** The bitmap *)

Lemma mk_bits_spec n : length (mk_bits (Z.of_nat n)) = bsize ∧
  (Z.of_nat n ≤ BPB → ∀ b, 0 ≤ b < BPB → bit_used (mk_bits (Z.of_nat n)) b = (b <? Z.of_nat n)).
Proof.
  induction n as [|n [IHl IH]].
  { split; [done |]. intros _ b Hb. change (mk_bits (Z.of_nat 0)) with zeroes. unfold bit_used, zeroes.
    rewrite byte_at_zeros, Z.land_0_l. destruct (Z.ltb_spec b (Z.of_nat 0)); [lia | done]. }
  assert (mk_bits (Z.of_nat (S n)) = bit_set (mk_bits (Z.of_nat n)) (Z.of_nat n)) as ->.
  { unfold mk_bits. replace (Z.of_nat (S n)) with (Z.of_nat n + 1) by lia. rewrite seqZ_app, foldl_app by lia. simpl.
    f_equal. }
  split; [unfold bit_set; by rewrite length_insert |]. intros Hn b Hb.
  rewrite bit_used_set by (done || lia). rewrite IH by lia.
  destruct (Z.eqb_spec (Z.of_nat n) b), (Z.ltb_spec b (Z.of_nat n)), (Z.ltb_spec b (Z.of_nat (S n))); simpl; lia || done.
Qed.

(** ** The image as a disk *)

Definition mk_view (s : mkst) (m : Z) : option (list Z) :=
  if m =? bmap_sect then Some (mk_bits (mk_freeblock s))
  else if 0 <=? m then mk_img s !! Z.to_nat m else None.

Definition mk_log : log := Log 2 nlog 1 false 1 0 (replicate (Z.to_nat LOGSIZE) 0).

Record rep (s : mkst) (f : Z → option (list Z)) : Prop := Rep {
  rp_len : length (mk_img s) = Z.to_nat FSSIZE;
  rp_size b x : mk_img s !! b = Some x → length x = bsize;
  rp_free : nmeta ≤ mk_freeblock s ≤ FSSIZE;
  rp_view m : f m = mk_view s m;
  rp_zero b : mk_freeblock s ≤ b < FSSIZE → f b = Some zeroes;
}.

Section Rep.
Context (s : mkst) (f : Z → option (list Z)) (Hr : rep s f).

Lemma rep_bits : length (mk_bits (mk_freeblock s)) = bsize.
Proof using Hr.
  destruct (mk_bits_spec (Z.to_nat (mk_freeblock s))) as [H _]. destruct Hr as [_ _ Hf _ _]. rewrite nmeta_eq in Hf.
  rewrite Z2Nat.id in H by lia. done.
Qed.

Lemma rep_block m : 0 ≤ m < FSSIZE → ∃ x, f m = Some x ∧ length x = bsize.
Proof using Hr.
  intros Hm. rewrite (rp_view _ _ Hr). unfold mk_view. destruct (m =? bmap_sect); [eauto using rep_bits |].
  destruct (Z.leb_spec 0 m); [|lia]. destruct (lookup_lt_is_Some_2 (mk_img s) (Z.to_nat m)) as [x Hx].
  { rewrite (rp_len _ _ Hr). lia. }
  exists x. split; [done | by eapply rp_size].
Qed.

Lemma rep_length m x : f m = Some x → length x = bsize.
Proof using Hr.
  rewrite (rp_view _ _ Hr). unfold mk_view. destruct (m =? bmap_sect); [intros [= <-]; apply rep_bits |].
  destruct (0 <=? m); [apply (rp_size _ _ Hr) | done].
Qed.

Lemma rep_used b : 0 ≤ b < FSSIZE → used f mk_sb b = (b <? mk_freeblock s).
Proof using Hr.
  intros Hb. unfold used. rewrite mk_bblock by done. rewrite (rp_view _ _ Hr). unfold mk_view. rewrite Z.eqb_refl. simpl.
  pose proof (rp_free _ _ Hr) as Hf. rewrite nmeta_eq in Hf. unfold FSSIZE in *.
  rewrite Z.mod_small by (unfold BPB, BSIZE; lia).
  destruct (mk_bits_spec (Z.to_nat (mk_freeblock s))) as [_ H]. rewrite Z2Nat.id in H by lia.
  apply H; unfold BPB, BSIZE; lia.
Qed.

Lemma mk_block_ok b : 32 ≤ b < FSSIZE → b ≠ bmap_sect → block_ok f [] mk_log mk_sb b.
Proof using Hr.
  intros Hb Hn. constructor.
  - simpl. lia.
  - destruct (rep_block b) as (x & -> & _); [lia | done].
  - apply not_elem_of_nil.
  - right. simpl. unfold nlog, LOGSIZE, MAXOPBLOCKS. lia.
  - by rewrite mk_bmblocks, list_elem_of_singleton.
Qed.

Lemma rep_fs_ok : fs_ok f [] mk_log mk_sb.
Proof using Hr.
  constructor.
  - constructor; try done; intros b Hb; rewrite mk_bblock by done.
    + destruct (rep_block bmap_sect) as (x & -> & _); [unfold bmap_sect, FSSIZE; lia | done].
    + apply not_elem_of_nil.
    + right. unfold bmap_sect. simpl. unfold nlog, LOGSIZE, MAXOPBLOCKS. lia.
  - intros b Hb Hu. change (sb_size mk_sb) with FSSIZE in Hb. rewrite rep_used in Hu by done. apply Z.ltb_ge in Hu.
    pose proof (rp_free _ _ Hr) as Hf. rewrite nmeta_eq in Hf. apply mk_block_ok; unfold bmap_sect; lia.
Qed.

(** ** Sectors *)

Lemma rsect_ok m : 0 ≤ m < FSSIZE → m ≠ bmap_sect → ∃ x, f m = Some x ∧ length x = bsize ∧ rsect m s = Ok (x, s).
Proof using Hr.
  intros Hm Hn. destruct (rep_block m Hm) as (x & Hx & Hl). exists x. split_and!; try done.
  rewrite (rp_view _ _ Hr) in Hx. unfold mk_view in Hx. apply Z.eqb_neq in Hn. rewrite Hn in Hx.
  unfold rsect. destruct (0 <=? m); [|done]. by rewrite Hx.
Qed.

Lemma wsect_ok m x :
  0 ≤ m < mk_freeblock s → m ≠ bmap_sect → length x = bsize →
  ∃ s', wsect m x s = Ok (tt, s') ∧ rep s' (apply_writes [(m, x)] f) ∧ mk_freeinode s' = mk_freeinode s ∧
    mk_freeblock s' = mk_freeblock s.
Proof using Hr.
  intros Hm Hn Hl. pose proof Hr as [R1 R2 R3 R4 R5]. eexists. split; [done |].
  assert (S (Z.to_nat m) - length (mk_img s) = 0)%nat as -> by (rewrite R1; lia). simpl. rewrite app_nil_r.
  split_and!; try done. constructor; simpl; try done.
  - by rewrite length_insert.
  - intros b y Hy. rewrite list_lookup_insert in Hy. case_decide; [by simplify_eq | by eapply R2].
  - intros k. rewrite apply_writes_one, R4. unfold mk_view. simpl. destruct (Z.eqb_spec k m) as [->|Hk].
    + apply Z.eqb_neq in Hn. rewrite Hn. destruct (Z.leb_spec 0 m); [|lia].
      rewrite list_lookup_insert_eq by (rewrite R1; lia). done.
    + destruct (k =? bmap_sect); [done |]. destruct (Z.leb_spec 0 k); [|done]. by rewrite list_lookup_insert_ne by lia.
  - intros b Hb. rewrite apply_writes_one. destruct (Z.eqb_spec b m); [lia | by apply R5].
Qed.

(** [freeblock++] takes the next block. *)
Lemma next_block_ok :
  mk_freeblock s < FSSIZE →
  let b := mk_freeblock s in
  let ws := [(bmap_sect, mk_bits (b + 1)); (b, zeroes)] in
  took f mk_sb b ws ∧ ∃ s', next_block s = Ok (b, s') ∧ rep s' (apply_writes ws f) ∧ mk_freeinode s' = mk_freeinode s ∧
    mk_freeblock s' = b + 1.
Proof using Hr.
  intros Hb b ws. pose proof Hr as [R1 R2 R3 R4 R5]. rewrite nmeta_eq in R3. unfold FSSIZE in *.
  assert (∀ m, apply_writes ws f m = if m =? b then Some zeroes else if m =? bmap_sect then Some (mk_bits (b + 1)) else f m) as Ew.
  { intros m. unfold ws. change [(bmap_sect, mk_bits (b + 1)); (b, zeroes)] with ([(bmap_sect, mk_bits (b + 1))] ++ [(b, zeroes)]).
    by rewrite apply_writes_app, !apply_writes_one. }
  assert (rep (Mkst (mk_img s) (mk_freeinode s) (b + 1)) (apply_writes ws f)) as Hr'.
  { constructor; simpl; try done.
    - rewrite nmeta_eq. unfold FSSIZE. lia.
    - intros m. rewrite Ew, R4. unfold mk_view. simpl. destruct (Z.eqb_spec m b) as [->|]; [|by destruct (m =? bmap_sect)].
      destruct (Z.eqb_spec b bmap_sect) as [E|]; [unfold bmap_sect in E; lia |].
      pose proof (R5 b ltac:(unfold FSSIZE; lia)) as E. rewrite R4 in E. unfold mk_view in E.
      destruct (Z.eqb_spec b bmap_sect); [done | by rewrite E].
    - intros c Hc. rewrite Ew. destruct (Z.eqb_spec c b); [done |]. destruct (Z.eqb_spec c bmap_sect) as [E|]; [unfold bmap_sect in E; lia |].
      apply R5. unfold FSSIZE in *. lia. }
  split.
  - constructor.
    + simpl. unfold FSSIZE. lia.
    + rewrite rep_used by (unfold FSSIZE; lia). apply Z.ltb_irrefl.
    + by rewrite Ew, Z.eqb_refl.
    + intros c Hc. change (sb_size mk_sb) with 1000 in Hc. rewrite rep_used by (unfold FSSIZE; lia).
      unfold used. rewrite mk_bblock by (unfold FSSIZE; lia). rewrite Ew.
      destruct (Z.eqb_spec bmap_sect b) as [E|]; [unfold bmap_sect in E; lia |]. rewrite Z.eqb_refl. simpl.
      rewrite Z.mod_small by (unfold BPB, BSIZE; lia).
      destruct (mk_bits_spec (Z.to_nat (b + 1))) as [_ H]. rewrite Z2Nat.id in H by lia.
      rewrite H by (unfold BPB, BSIZE; lia). fold b.
      destruct (Z.eqb_spec c b), (Z.ltb_spec c b), (Z.ltb_spec c (b + 1)); simpl; lia || done.
    + intros m Hm Hbm. rewrite mk_bmblocks, list_elem_of_singleton in Hbm. rewrite Ew.
      destruct (Z.eqb_spec m b); [done |]. by destruct (Z.eqb_spec m bmap_sect).
    + intros m Hm. rewrite Ew. by destruct (m =? b), (m =? bmap_sect).
    + intros m. unfold ws. simpl. rewrite mk_bmblocks, list_elem_of_singleton. set_solver.
  - eexists. split; [done |]. simpl. rewrite u32_id by lia. by split_and!.
Qed.
End Rep.

(** ** A block of the file *)

Abbreviation disk := (Z → option (list Z)).

Definition mfile_ok (f : disk) (di : dinode) : Prop := file_ok f [] mk_log mk_sb di.

(** Blocks that must be free to get block [k]. *)
Definition wants (f : disk) (di : dinode) (k : Z) : Z :=
  (if slot f di k =? 0 then 1 else 0) +
  (if (Z.of_nat NDIRECT <=? k) && (indirect di =? 0) then 1 else 0).

(** Every block taken from [s] to [s'] is one of the file. *)
Definition owns (f : disk) (di : dinode) (s s' : mkst) : Prop :=
  ∀ b, mk_freeblock s ≤ b < mk_freeblock s' → ∃ k, slot_range k ∧ slot f di k = b.

(** A step of [iappend]: the disk [f] became [f'] by writes that gave the
    file [di] the inode [di']. *)
Record moved (s : mkst) (f : disk) (di : dinode) (ws : writes) (di' : dinode) (s' : mkst) (K : list Z) (c : Z) : Prop := Moved {
  mv_rep : rep s' (apply_writes ws f);
  mv_file : mfile_ok (apply_writes ws f) di';
  mv_grew : grew f mk_sb di ws di' K;
  mv_inode : mk_freeinode s' = mk_freeinode s;
  mv_count : mk_freeblock s' ≤ mk_freeblock s + c;
  mv_owns : owns (apply_writes ws f) di' s s';
}.

Lemma owns_none f di s s' : mk_freeblock s' = mk_freeblock s → owns f di s s'.
Proof. intros E b Hb. lia. Qed.

Lemma owns_one f di s s' k : slot_range k → mk_freeblock s' ≤ mk_freeblock s + 1 → slot f di k = mk_freeblock s → owns f di s s'.
Proof. intros Hk Hs E b Hb. exists k. split; [done | lia]. Qed.

Lemma owns_trans s f di s1 ws di2 K s2 :
  nmeta ≤ mk_freeblock s → owns f di s s1 → grew f mk_sb di ws di2 K → owns (apply_writes ws f) di2 s1 s2 →
  owns (apply_writes ws f) di2 s s2.
Proof.
  intros H59 A G B b Hb. destruct (decide (b < mk_freeblock s1)) as [Hlt|]; [|apply B; lia].
  destruct (A b) as (k & Hk & E); [lia |]. exists k. split; [done |]. rewrite nmeta_eq in H59.
  rewrite (gr_keep _ _ _ _ _ _ G k Hk); lia.
Qed.

Lemma same_place_refl l : same_place l l.
Proof. done. Qed.

Lemma slot_of_direct f di k : 0 ≤ k < Z.of_nat NDIRECT → default 0 (di_addrs di !! Z.to_nat k) = slot f di k.
Proof. intros Hk. by rewrite addr_direct. Qed.

Lemma iappend_direct s f di k :
  rep s f → mfile_ok f di → 0 ≤ k < Z.of_nat NDIRECT → mk_freeblock s + wants f di k ≤ FSSIZE →
  wp (iappend_block k di) s (λ r s', ∃ ws, r.1 = slot (apply_writes ws f) r.2 k ∧ r.1 ≠ 0 ∧
    moved s f di ws r.2 s' [-1; k] (wants f di k) ∧
    ∀ o, 0 ≤ o < Z.of_nat MAXFILE * BSIZE → content (apply_writes ws f) r.2 o = content f di o).
Proof.
  intros Hr Hf Hk Hw. unfold iappend_block. destruct (Z.ltb_spec k (Z.of_nat NDIRECT)); [|lia].
  rewrite (slot_of_direct f di k) by done. unfold wants in *.
  destruct (Z.leb_spec (Z.of_nat NDIRECT) k); [lia |]. simpl in Hw |- *.
  destruct (Z.eqb_spec (slot f di k) 0) as [E|E].
  - destruct (next_block_ok s f Hr) as [T (s' & En & Hr' & Hi & Hb)]; [lia |].
    apply wp_bind. eapply wp_intro; [exact En |]. apply wp_ret. simpl.
    pose proof (grown_direct f [] mk_log mk_log mk_sb di _ _ Hf (rep_fs_ok s f Hr) T (same_place_refl _) k Hk E) as G.
    assert (∀ g, slot g (set_addr (Z.to_nat k) (mk_freeblock s) di) k = mk_freeblock s) as Es.
    { intros g. rewrite addr_direct by done. simpl. rewrite list_lookup_insert_eq; [done |]. rewrite (fi_len _ _ _ _ _ Hf). lia. }
    eexists. split_and!; [by rewrite Es | |constructor; [exact Hr' | apply G | apply G | done | lia |] | apply G].
    + pose proof (rp_free _ _ Hr) as H59. rewrite nmeta_eq in H59. lia.
    + apply (owns_one _ _ _ _ k); [unfold slot_range, MAXFILE; lia | lia | apply Es].
  - apply wp_ret. exists []. simpl. split_and!; try done. constructor; try done; [apply grew_refl | lia | by apply owns_none].
Qed.


Lemma mfile_slot s f di k :
  rep s f → mfile_ok f di → slot_range k → slot f di k ≠ 0 → 0 < slot f di k < mk_freeblock s ∧ slot f di k ≠ bmap_sect.
Proof.
  intros Hr Hf Hk Hn. destruct (fi_slot _ _ _ _ _ Hf k Hk Hn) as [[B1 _ _ _ B5] Hu]. change (sb_size mk_sb) with FSSIZE in B1.
  rewrite (rep_used s f Hr) in Hu by lia. rewrite mk_bmblocks, list_elem_of_singleton in B5. lia.
Qed.

(** The indirect block. *)
Lemma iappend_ind s f di :
  rep s f → mfile_ok f di → mk_freeblock s + (if indirect di =? 0 then 1 else 0) ≤ FSSIZE →
  wp (if default 0 (di_addrs di !! NDIRECT) =? 0 then b ← next_block; mret (set_addr NDIRECT b di) else mret di) s
    (λ di1 s1, ∃ ws, rep s1 (apply_writes ws f) ∧ grown f [] mk_log mk_sb di (-1) ws di1 0 ∧ indirect di1 ≠ 0 ∧
      mk_freeinode s1 = mk_freeinode s ∧ mk_freeblock s1 = mk_freeblock s + (if indirect di =? 0 then 1 else 0) ∧
      owns (apply_writes ws f) di1 s s1).
Proof.
  intros Hr Hf Hw. fold (indirect di). destruct (Z.eqb_spec (indirect di) 0) as [E|E].
  - destruct (next_block_ok s f Hr) as [T (s' & En & Hr' & Hi & Hb)]; [lia |].
    assert (indirect (set_addr NDIRECT (mk_freeblock s) di) = mk_freeblock s) as Ei.
    { unfold indirect. simpl. by rewrite list_lookup_insert_eq by (rewrite (fi_len _ _ _ _ _ Hf); lia). }
    apply wp_bind. eapply wp_intro; [exact En |]. apply wp_ret. eexists. split_and!; [exact Hr' | | | done | lia |].
    + by apply (grown_ind f [] mk_log mk_log mk_sb di _ _ Hf (rep_fs_ok s f Hr) T (same_place_refl _)).
    + rewrite Ei. pose proof (rp_free _ _ Hr) as H59. rewrite nmeta_eq in H59. lia.
    + apply (owns_one _ _ _ _ (-1)); [unfold slot_range, MAXFILE; lia | lia | exact Ei].
  - apply wp_ret. exists []. split_and!; try done; [|lia | by apply owns_none]. by apply grown_refl; [apply (rep_fs_ok s) | |].
Qed.

(** The entry of block [k] in the indirect block. *)
Definition iappend_entry (k : Z) (din : dinode) : M mkst (Z * dinode) :=
  let ind := default 0 (di_addrs din !! NDIRECT) in
  indirect ← rsect ind;
  let k := (4 * Z.to_nat (k - Z.of_nat NDIRECT))%nat in
  if get32 indirect k =? 0 then
    b ← next_block;
    wsect ind (put32 k b indirect);;
    mret (b, din)
  else mret (get32 indirect k, din).

Lemma iappend_entry_spec s f di k :
  rep s f → mfile_ok f di → Z.of_nat NDIRECT ≤ k < Z.of_nat MAXFILE → indirect di ≠ 0 →
  mk_freeblock s + (if slot f di k =? 0 then 1 else 0) ≤ FSSIZE →
  wp (iappend_entry k di) s (λ r s', ∃ ws, r = (slot (apply_writes ws f) di k, di) ∧ rep s' (apply_writes ws f) ∧
    grown f [] mk_log mk_sb di k ws di 1 ∧ mk_freeinode s' = mk_freeinode s ∧
    mk_freeblock s' = mk_freeblock s + (if slot f di k =? 0 then 1 else 0) ∧ owns (apply_writes ws f) di s s').
Proof.
  intros Hr Hf Hk Hn Hw. unfold iappend_entry. fold (indirect di). cbv zeta.
  assert (slot_range (-1)) as H1r by (unfold slot_range, MAXFILE; lia).
  destruct (mfile_slot s f di (-1) Hr Hf H1r Hn) as [Hi0 Hi58]. change (slot f di (-1)) with (indirect di) in *.
  pose proof (rp_free _ _ Hr) as H59. rewrite nmeta_eq in H59.
  destruct (rsect_ok s f Hr (indirect di)) as (x & Hx & Hlx & Ex); [lia | done |].
  apply wp_bind. eapply wp_intro; [exact Ex |]. set (e := (4 * Z.to_nat (k - Z.of_nat NDIRECT))%nat).
  assert (e + 4 ≤ length x)%nat as He.
  { rewrite Hlx. unfold e, bsize, BSIZE, MAXFILE, NDIRECT, NINDIRECT in *. lia. }
  assert (slot f di k = get32 x e) as Es by (rewrite addr_indirect by (done || lia); by rewrite Hx).
  rewrite <- Es. destruct (Z.eqb_spec (slot f di k) 0) as [E0|E0].
  - destruct (next_block_ok s f Hr) as [T (s2 & En & Hr2 & Hi2 & Hb2)]; [lia |].
    apply wp_bind. eapply wp_intro; [exact En |]. set (ws2 := [(bmap_sect, _); _]) in *.
    destruct (wsect_ok s2 _ Hr2 (indirect di) (put32 e (mk_freeblock s) x))
      as (s3 & E3 & Hr3 & Hi3 & Hb3); [lia | done | by rewrite length_put32 |].
    apply wp_bind. eapply wp_intro; [exact E3 |]. apply wp_ret. rewrite <- apply_writes_app in Hr3.
    exists (ws2 ++ [(indirect di, put32 e (mk_freeblock s) x)]). set (f' := apply_writes (ws2 ++ _) f) in *.
    assert (slot f' di k = mk_freeblock s) as Es'.
    { rewrite addr_indirect by (done || lia). unfold f'. rewrite apply_writes_app, apply_writes_one, Z.eqb_refl. cbn [default id].
      fold e. rewrite get32_put32; [done | done | unfold FSSIZE in *; lia]. }
    split_and!; [by rewrite Es' | done | | congruence | lia |].
    + by apply (grown_entry f [] mk_log mk_log mk_sb di _ _ Hf (rep_fs_ok s f Hr) T (same_place_refl _)).
    + apply (owns_one _ _ _ _ k); [unfold slot_range, MAXFILE in *; lia | lia | done].
  - apply wp_ret. exists []. split_and!; try done; [|lia | by apply owns_none]. apply (grown_weaken _ _ _ _ _ _ _ _ 0); [lia |].
    by apply grown_refl; [apply (rep_fs_ok s) | |].
Qed.

Lemma iappend_indirect s f di k :
  rep s f → mfile_ok f di → Z.of_nat NDIRECT ≤ k < Z.of_nat MAXFILE → mk_freeblock s + wants f di k ≤ FSSIZE →
  wp (iappend_block k di) s (λ r s', ∃ ws, r.1 = slot (apply_writes ws f) r.2 k ∧ r.1 ≠ 0 ∧
    moved s f di ws r.2 s' [-1; k] (wants f di k) ∧
    ∀ o, 0 ≤ o < Z.of_nat MAXFILE * BSIZE → content (apply_writes ws f) r.2 o = content f di o).
Proof.
  intros Hr Hf Hk Hw. unfold iappend_block. destruct (Z.ltb_spec k (Z.of_nat NDIRECT)); [lia |].
  assert (slot_range k) as Hkr by (unfold slot_range, MAXFILE in *; lia).
  unfold wants in *. destruct (Z.leb_spec (Z.of_nat NDIRECT) k); [|lia]. cbn [andb] in *.
  apply wp_bind. eapply wp_mono; [apply iappend_ind; [exact Hr | done | destruct (slot f di k =? 0); lia] |].
  intros di1 s1 (ws1 & Hr1 & G1 & Hn1 & Hi1 & Hb1 & O1).
  pose proof (gn_file _ _ _ _ _ _ _ _ _ G1) as Hf1.
  assert ((if slot (apply_writes ws1 f) di1 k =? 0 then 1 else 0) ≤ (if slot f di k =? 0 then 1 else 0)) as Hle.
  { destruct (Z.eqb_spec (slot f di k) 0) as [|Hne]; [destruct (slot (apply_writes ws1 f) di1 k =? 0); lia |].
    rewrite (gr_keep _ _ _ _ _ _ (gn_grew _ _ _ _ _ _ _ _ _ G1) k Hkr Hne). apply Z.eqb_neq in Hne. rewrite Hne. lia. }
  eapply wp_mono; [apply (iappend_entry_spec s1 (apply_writes ws1 f) di1 k Hr1 Hf1 Hk Hn1); lia |].
  intros r s' (ws2 & -> & Hr2 & G2 & Hi2 & Hb2 & O2). cbn [fst snd].
  pose proof (grown_trans _ _ _ _ _ _ _ _ _ _ _ _ G1 G2) as G. exists (ws1 ++ ws2).
  split_and!; [by rewrite apply_writes_app | apply G2 | | apply G].
  constructor; [by rewrite apply_writes_app | apply G | apply G | congruence | lia |].
  rewrite apply_writes_app. eapply owns_trans; [apply (rp_free _ _ Hr) | exact O1 | apply G2 | exact O2].
Qed.

Lemma iappend_block_spec s f di k :
  rep s f → mfile_ok f di → 0 ≤ k < Z.of_nat MAXFILE → mk_freeblock s + wants f di k ≤ FSSIZE →
  wp (iappend_block k di) s (λ r s', ∃ ws, r.1 = slot (apply_writes ws f) r.2 k ∧ r.1 ≠ 0 ∧
    moved s f di ws r.2 s' [-1; k] (wants f di k) ∧
    ∀ o, 0 ≤ o < Z.of_nat MAXFILE * BSIZE → content (apply_writes ws f) r.2 o = content f di o).
Proof.
  intros Hr Hf Hk Hw. destruct (decide (k < Z.of_nat NDIRECT)).
  - apply iappend_direct; try done. lia.
  - apply iappend_indirect; try done. lia.
Qed.

(** ** Appending bytes *)

(** Blocks that a file of [n] bytes takes, the indirect block included. *)
Definition blocks_for (n : Z) : Z := (n + 511) / 512 + (if n <=? 6144 then 0 else 1).

Definition filled (f : disk) (di : dinode) (off : Z) : Prop := ∀ k, 0 ≤ k → BSIZE * k < off → slot f di k ≠ 0.

Lemma filled_ind f di k off : filled f di off → Z.of_nat NDIRECT ≤ k → BSIZE * k < off → indirect di ≠ 0.
Proof. intros Hf Hk Ho E. apply (Hf k); [lia | done |]. by apply addr_no_indirect. Qed.

Lemma wants_blocks f di off off' :
  filled f di off → 0 ≤ off < off' → off' ≤ (off / BSIZE + 1) * BSIZE →
  wants f di (off / BSIZE) ≤ blocks_for off' - blocks_for off.
Proof.
  intros Hf Ho Ho'. unfold wants, blocks_for. set (k := off / BSIZE) in *.
  assert (BSIZE * k ≤ off < BSIZE * k + BSIZE) as Hk by (unfold k, BSIZE; zdiv).
  assert (BSIZE * k < off → slot f di k ≠ 0) as H1 by (intros H1; apply Hf; unfold BSIZE in *; lia).
  assert (Z.of_nat NDIRECT ≤ k → BSIZE * 12 < off → indirect di ≠ 0) as H2.
  { intros _ H2. apply (filled_ind f di 12 off Hf); [done | done]. }
  change (Z.of_nat NDIRECT) with 12 in *. unfold BSIZE in *.
  assert ((off' + 511) / 512 = k + 1) as E1 by zdiv. rewrite E1.
  destruct (Z.eqb_spec (slot f di k) 0) as [Es|Es].
  - assert (off = 512 * k) as Eo by (destruct (decide (512 * k < off)) as [H3|]; [by apply H1 in H3 | lia]).
    assert ((off + 511) / 512 = k) as E2 by zdiv. rewrite E2.
    destruct (Z.leb_spec 12 k), (Z.eqb_spec (indirect di) 0), (Z.leb_spec off 6144), (Z.leb_spec off' 6144); simpl; try lia;
      destruct H2; lia || done.
  - assert ((off + 511) / 512 ≤ k + 1) as E2 by zdiv.
    destruct (Z.leb_spec 12 k), (Z.eqb_spec (indirect di) 0), (Z.leb_spec off 6144), (Z.leb_spec off' 6144); simpl; try lia.
    all: try (destruct H2; lia || done).
    all: assert (off = 512 * k) as Eo by lia; assert ((off + 511) / 512 = k) as E3 by zdiv; rewrite E3; lia.
Qed.

(** The bytes [p] were appended at [off]. *)
Record appended (s : mkst) (f : disk) (di : dinode) (off : Z) (p : list Z) (ws : writes) (di' : dinode) (s' : mkst) : Prop := Appended {
  ap_moved : ∃ K, moved s f di ws di' s' K (blocks_for (off + Z.of_nat (length p)) - blocks_for off);
  ap_filled : filled (apply_writes ws f) di' (off + Z.of_nat (length p));
  ap_content o : 0 ≤ o < Z.of_nat MAXFILE * BSIZE →
    content (apply_writes ws f) di' o = overwrite (content f di) off p o;
}.

Lemma moved_trans s f di ws di1 s1 K c ws' di2 s2 K' c' :
  rep s f → moved s f di ws di1 s1 K c → moved s1 (apply_writes ws f) di1 ws' di2 s2 K' c' →
  moved s f di (ws ++ ws') di2 s2 (K ++ K') (c + c').
Proof.
  intros Hr [A1 A2 A3 A4 A5 A6] [B1 B2 B3 B4 B5 B6]. constructor; rewrite ?apply_writes_app; try done; [|congruence | lia |].
  - by eapply grew_trans.
  - eapply owns_trans; [apply (rp_free _ _ Hr) | exact A6 | exact B3 | exact B6].
Qed.

Lemma appended_trans s f di off p ws di1 s1 p' ws' di2 s2 :
  rep s f → appended s f di off p ws di1 s1 →
  appended s1 (apply_writes ws f) di1 (off + Z.of_nat (length p)) p' ws' di2 s2 →
  appended s f di off (p ++ p') (ws ++ ws') di2 s2.
Proof.
  intros Hr [[K A1] A2 A3] [[K' B1] B2 B3]. rewrite <- apply_writes_app in *.
  constructor; rewrite ?length_app, ?Nat2Z.inj_add, ?Z.add_assoc; try done.
  - exists (K ++ K'). pose proof (moved_trans _ _ _ _ _ _ _ _ _ _ _ _ _ Hr A1 B1) as Hm.
    by replace (blocks_for (off + Z.of_nat (length p)) - blocks_for off +
      (blocks_for (off + Z.of_nat (length p) + Z.of_nat (length p')) - blocks_for (off + Z.of_nat (length p))))
      with (blocks_for (off + Z.of_nat (length p) + Z.of_nat (length p')) - blocks_for off) in Hm by lia.
  - intros o Ho. rewrite B3, <- overwrite_app by done. apply overwrite_ext, A3. done.
Qed.

Lemma appended_nil s f di off : rep s f → mfile_ok f di → filled f di off → appended s f di off [] [] di s.
Proof.
  intros Hr Hf Hfl. constructor; simpl; rewrite ?Z.add_0_r; try done.
  - exists []. constructor; try done; [apply grew_refl | lia | by apply owns_none].
  - intros o _. by rewrite overwrite_nil.
Qed.

(** One round: the part of [p] that fits in the block of [off]. *)
Lemma iappend_chunk s f di off p :
  rep s f → mfile_ok f di → filled f di off → 0 ≤ off → p ≠ [] →
  off / BSIZE < Z.of_nat MAXFILE → off mod BSIZE + Z.of_nat (length p) ≤ BSIZE →
  mk_freeblock s + (blocks_for (off + Z.of_nat (length p)) - blocks_for off) ≤ FSSIZE →
  wp (iappend_block (off / BSIZE) di) s (λ r s1, wp (rsect r.1) s1 (λ buf s2,
    wp (wsect r.1 (splice (Z.to_nat (off mod BSIZE)) p buf)) s2 (λ _ s', ∃ ws, appended s f di off p ws r.2 s'))).
Proof.
  intros Hr Hf Hfl Ho Hp Hk Hb Hfree. set (k := off / BSIZE) in *.
  assert (0 < Z.of_nat (length p)) as Hlp by (destruct p; [done | simpl; lia]).
  assert (0 ≤ k) as Hk0 by (unfold k, BSIZE; zdiv). assert (slot_range k) as Hkr by (unfold slot_range; lia).
  pose proof (wants_blocks f di off (off + Z.of_nat (length p)) Hfl ltac:(lia)) as Hw. fold k in Hw.
  specialize (Hw ltac:(unfold k, BSIZE in *; zdiv)).
  eapply wp_mono; [apply (iappend_block_spec s f di k Hr Hf); lia |].
  intros [x di1] s1 (ws & Ex & Hx0 & [M1 M2 M3 M4 M5 M6] & Hc). cbn [fst snd] in *.
  set (f1 := apply_writes ws f) in *.
  destruct (mfile_slot s1 f1 di1 k M1 M2 Hkr) as [Hx1 Hx2]; [congruence |]. rewrite <- Ex in Hx1, Hx2.
  pose proof (rp_free _ _ M1) as H59.
  destruct (rsect_ok s1 f1 M1 x) as (buf & Hbuf & Hlbuf & Er); [lia | done |].
  eapply wp_intro; [exact Er |]. set (y := splice _ p buf).
  assert (0 ≤ off mod BSIZE < BSIZE) as Hm by (unfold BSIZE; zdiv).
  destruct (wsect_ok s1 f1 M1 x y) as (s2 & Ew & W1 & W2 & W3); [lia | done | |].
  { unfold y. rewrite length_splice; [done |]. rewrite Hlbuf. change bsize with (Z.to_nat BSIZE). lia. }
  eapply wp_intro; [exact Ew |]. exists (ws ++ [(x, y)]).
  assert (slot f1 di1 k ≠ 0) as Hs0 by congruence. rewrite Ex in W1, Ew |- *.
  pose proof (pslot_grew f1 [] mk_log mk_sb di1 k y M2 (rep_fs_ok s1 f1 M1) ltac:(lia) Hs0) as G.
  assert (mfile_ok (apply_writes [(slot f1 di1 k, y)] f1) di1) as F.
  { apply (patch_file_ok f1 [] mk_log mk_sb di1 (slot f1 di1 k) y M2 (rep_fs_ok s1 f1 M1)).
    - by apply (slot_not_bitmap f1 [] mk_log mk_sb di1 k y M2 (rep_fs_ok s1 f1 M1)).
    - by apply (slot_not_indirect f1 [] mk_log mk_sb di1 k y M2 (rep_fs_ok s1 f1 M1)). }
  assert (∀ j, slot_range j → slot (apply_writes (ws ++ [(slot f1 di1 k, y)]) f) di1 j = slot f1 di1 j) as Hsl.
  { intros j Hj. rewrite apply_writes_app. by apply (pslot_slot f1 [] mk_log mk_sb di1 k y M2 (rep_fs_ok s1 f1 M1)). }
  constructor.
  - exists ([-1; k] ++ [-1; k]). constructor; rewrite ?apply_writes_app; try done; [by eapply grew_trans | congruence | lia |].
    eapply owns_trans; [apply (rp_free _ _ Hr) | exact M6 | exact G | by apply owns_none].
  - intros j Hj Hjo. destruct (decide (j = k)) as [->|Hne].
    + by rewrite Hsl.
    + assert (slot_range j) as Hjr by (unfold slot_range, k, BSIZE in *; zdiv). rewrite Hsl by done.
      assert (slot f di j ≠ 0) as Hn by (apply Hfl; [done | unfold k, BSIZE in *; zdiv]).
      unfold f1. by rewrite (gr_keep _ _ _ _ _ _ M3 j Hjr Hn).
  - intros o Hor. rewrite apply_writes_app. fold f1.
    rewrite (pslot_content f1 [] mk_log mk_sb di1 k y M2 (rep_fs_ok s1 f1 M1) ltac:(lia) Hs0 off p buf o); try done.
    + by apply overwrite_ext, Hc.
    + by rewrite <- Ex.
Qed.

Lemma iappend_loop_spec fuel s f di off p :
  rep s f → mfile_ok f di → filled f di off → 0 ≤ off →
  off + Z.of_nat (length p) ≤ Z.of_nat MAXFILE * BSIZE →
  mk_freeblock s + (blocks_for (off + Z.of_nat (length p)) - blocks_for off) ≤ FSSIZE → (length p < fuel)%nat →
  wp (iappend_loop fuel off p di) s (λ r s', r.1 = off + Z.of_nat (length p) ∧ ∃ ws, appended s f di off p ws r.2 s').
Proof.
  revert s f di off p. induction fuel as [|fuel IH]; intros s f di off p Hr Hf Hfl Ho Hmax Hfree Hfuel; [lia |].
  cbn [iappend_loop]. case_bool_decide as Hp.
  { subst p. apply wp_ret. simpl. split; [lia |]. exists []. by apply appended_nil. }
  set (k := off / BSIZE). assert (0 < length p)%nat as Hlp by (destruct p; [done | simpl; lia]).
  destruct (Z.ltb_spec k (Z.of_nat MAXFILE)) as [Hk|]; [|exfalso; unfold k, BSIZE in *; zdiv]. cbn [negb].
  replace (off - k * BSIZE) with (off mod BSIZE) by (unfold k, BSIZE; zdiv).
  set (n1 := Nat.min (length p) (Z.to_nat ((k + 1) * BSIZE - off))).
  assert (0 < (k + 1) * BSIZE - off ≤ BSIZE ∧ off mod BSIZE = off - k * BSIZE) as [Hrest Hmod] by (unfold k, BSIZE; zdiv).
  assert (0 < n1 ≤ length p)%nat as Hn1 by lia.
  assert (length (take n1 p) = n1) as El by (rewrite length_take; lia).
  assert (blocks_for (off + Z.of_nat n1) ≤ blocks_for (off + Z.of_nat (length p))) as Hmono.
  { unfold blocks_for. destruct (Z.leb_spec (off + Z.of_nat n1) 6144), (Z.leb_spec (off + Z.of_nat (length p)) 6144); zdiv. }
  apply wp_bind. eapply wp_mono.
  { apply (iappend_chunk s f di off (take n1 p)); try done; rewrite ?El; try lia.
    intros E. rewrite E in El. simpl in El. lia. }
  intros [x di1] s1 W. cbn [fst snd] in W. apply wp_bind. eapply wp_mono; [exact W |]. clear W. intros buf s2 W.
  apply wp_bind. eapply wp_mono; [exact W |]. clear W. intros [] s3 (ws & A).
  pose proof A as [[K [M1 M2 M3 M4 M5 M6]] A2 A3]. rewrite El in M5, A2.
  eapply wp_mono; [apply (IH s3 (apply_writes ws f) di1 (off + Z.of_nat n1) (drop n1 p)); rewrite ?length_drop; try done; try lia |].
  { replace (off + Z.of_nat n1 + Z.of_nat (length p - n1)) with (off + Z.of_nat (length p)) by lia. lia. }
  intros [off' di'] s' [Eo (ws' & B)]. cbn [fst snd] in *. split; [rewrite Eo, length_drop; lia |].
  exists (ws ++ ws'). rewrite <- (take_drop n1 p). eapply appended_trans; [exact Hr | exact A |]. by rewrite El.
Qed.
