(* ===== verification/MkfsImage.v ===== *)
(** * The files of an image ([mkfs.c])

    The state of [mkfs] as a list of files, each with its type and its bytes,
    the one at index [i] in inode [i + 1].  [img_ok] relates it to the image:
    the inodes and the blocks hold the files, no block belongs to two of them,
    and all of them are below [freeblock]. *)

From S2P Require Import Prelude Mmu Bytes Disk FsFormat Log LogSpec LogOps FsTx Fs FsAlloc FsFile FsGrow FsWrite Mkfs MkfsSpec.

(** Inode [i] of a disk. *)
Definition ino (f : disk) (i : Z) : dinode := get_dinode (default [] (f (IBLOCK i mk_sb))) (ioff i).

(** Inode [i] holds a file of type [t] with bytes [d]. *)
Record holds (f : disk) (i : Z) (t : Z) (d : list Z) : Prop := Holds {
  ho_ok : dinode_ok (ino f i);
  ho_meta : ino f i = Dinode t 0 0 1 (Z.of_nat (length d)) (di_addrs (ino f i));
  ho_file : mfile_ok f (ino f i);
  ho_filled : filled f (ino f i) (Z.of_nat (length d));
  ho_bytes o : 0 ≤ o < Z.of_nat MAXFILE * BSIZE → content f (ino f i) o = byte_at d (Z.to_nat o);
  ho_slot k : slot_range k → slot f (ino f i) k ≠ 0 → nmeta ≤ slot f (ino f i) k;
}.

(** A file none of whose blocks changed. *)
Lemma file_kept f f' di :
  mfile_ok f di → (∀ k, slot_range k → slot f di k ≠ 0 → f' (slot f di k) = f (slot f di k) ∧ used f' mk_sb (slot f di k) = true) →
  (∀ k, slot_range k → slot f' di k = slot f di k) ∧ mfile_ok f' di ∧
  ∀ o, 0 ≤ o < Z.of_nat MAXFILE * BSIZE → content f' di o = content f di o.
Proof.
  intros [F1 F2 F3] Hk. assert (∀ k, slot_range k → slot f' di k = slot f di k) as Hs.
  { intros k Hr. apply slot_same; try done. intros Hn. apply (Hk (-1)); [unfold slot_range, MAXFILE; lia | done]. }
  split_and!; [done | |].
  - constructor; [done | |].
    + intros k Hr. rewrite Hs by done. intros Hn. destruct (Hk k Hr Hn) as [E Hu]. split; [|done].
      destruct (F2 k Hr Hn) as [[B1 B2 B3 B4 B5] _]. constructor; try done. by rewrite E.
    + intros k k' Hr Hr'. rewrite !Hs by done. by apply F3.
  - intros o Ho. unfold content. set (j := o / BSIZE).
    assert (0 ≤ j < Z.of_nat MAXFILE) as Hj by (unfold j, BSIZE in *; zdiv).
    assert (slot_range j) as Hr by (unfold slot_range; lia).
    assert (∀ g, addr_of g di j = slot g di j) as Ea.
    { intros g. unfold slot. destruct (Z.eqb_spec j (-1)); [lia | done]. }
    rewrite !Ea, Hs by done. destruct (Z.eqb_spec (slot f di j) 0); [done |]. by destruct (Hk j Hr ltac:(done)) as [-> _].
Qed.

Lemma holds_kept f f' i t d :
  holds f i t d → ino f' i = ino f i →
  (∀ k, slot_range k → slot f (ino f i) k ≠ 0 → f' (slot f (ino f i) k) = f (slot f (ino f i) k) ∧
    used f' mk_sb (slot f (ino f i) k) = true) →
  holds f' i t d ∧ ∀ k, slot_range k → slot f' (ino f' i) k = slot f (ino f i) k.
Proof.
  intros [H1 H2 H3 H4 H5 H6] Ei Hk. destruct (file_kept f f' _ H3 Hk) as (Hs & Hf & Hc).
  split; [|intros k Hr; rewrite Ei; by apply Hs]. constructor; rewrite ?Ei; try done.
  - intros k Hk0 Hko E. destruct (decide (slot_range k)) as [Hr|Hr]; [rewrite Hs in E by done; by apply (H4 k) |].
    apply (H4 k Hk0 Hko). unfold slot_range in Hr. revert E.
    assert (Z.of_nat NDIRECT ≤ k) by (unfold MAXFILE in Hr; lia).
    destruct (decide (indirect (ino f i) = 0)); [by rewrite !addr_no_indirect |]. rewrite !addr_indirect by done.
    destruct (Hk (-1) ltac:(unfold slot_range, MAXFILE; lia) ltac:(done)) as [E' _].
    change (slot f (ino f i) (-1)) with (indirect (ino f i)) in E'. by rewrite E'.
  - intros o Ho. rewrite Hc by done. by apply H5.
  - intros k Hr. rewrite Hs by done. by apply H6.
Qed.

(** ** Inodes *)

Lemma ioff_fit i : (ioff i + dinode_size ≤ bsize)%nat.
Proof. unfold ioff, dinode_size. change IPB with 8. change bsize with 512%nat. zdiv. Qed.

Lemma ioff_apart i j : i ≠ j → IBLOCK i mk_sb = IBLOCK j mk_sb → 0 ≤ i < NINODES → 0 ≤ j < NINODES →
  (ioff j + dinode_size ≤ ioff i ∨ ioff i + dinode_size ≤ ioff j)%nat.
Proof.
  intros Hn E Hi Hj. destruct (mk_iblock i Hi) as [Ei _], (mk_iblock j Hj) as [Ej _]. rewrite Ei, Ej in E.
  unfold ioff, dinode_size. change IPB with 8. zdiv.
Qed.

Lemma ino_same f f' i : f' (IBLOCK i mk_sb) = f (IBLOCK i mk_sb) → ino f' i = ino f i.
Proof. unfold ino. by intros ->. Qed.

Lemma winode_ok s f i di :
  rep s f → 0 ≤ i < NINODES → dinode_ok di →
  ∃ s' x, winode i di s = Ok (tt, s') ∧ let f' := apply_writes [(IBLOCK i mk_sb, x)] f in
    rep s' f' ∧ mk_freeinode s' = mk_freeinode s ∧ mk_freeblock s' = mk_freeblock s ∧
    ino f' i = di ∧ ∀ j, j ≠ i → 0 ≤ j < NINODES → ino f' j = ino f j.
Proof.
  intros Hr Hi Hd. destruct (mk_iblock i Hi) as [_ Hb]. unfold bmap_sect in Hb.
  pose proof (rp_free _ _ Hr) as H59. rewrite nmeta_eq in H59.
  destruct (rsect_ok s f Hr (IBLOCK i mk_sb)) as (x & Hx & Hl & Er); [lia | unfold bmap_sect; lia |].
  pose proof (ioff_fit i) as Hf. rewrite <- Hl in Hf.
  destruct (wsect_ok s f Hr (IBLOCK i mk_sb) (put_dinode (ioff i) di x)) as (s' & Ew & W1 & W2 & W3);
    [lia | unfold bmap_sect; lia | |].
  { unfold put_dinode. rewrite length_splice; [done |]. by rewrite length_dinode_bytes. }
  exists s', (put_dinode (ioff i) di x). cbv zeta. split_and!; try done.
  - unfold winode, mbind, M_bind. by rewrite Er.
  - unfold ino. rewrite apply_writes_one, Z.eqb_refl. by apply get_put_dinode.
  - intros j Hn Hj. unfold ino. rewrite apply_writes_one. destruct (Z.eqb_spec (IBLOCK j mk_sb) (IBLOCK i mk_sb)) as [E|]; [|done].
    rewrite E, Hx. simpl. apply get_put_dinode_ne; try done. apply ioff_apart; congruence.
Qed.

Lemma rinode_ok s f i : rep s f → 0 ≤ i < NINODES → rinode i s = Ok (ino f i, s).
Proof.
  intros Hr Hi. destruct (mk_iblock i Hi) as [_ Hb]. unfold bmap_sect in Hb.
  destruct (rsect_ok s f Hr (IBLOCK i mk_sb)) as (x & Hx & Hl & Er); [unfold FSSIZE; lia | unfold bmap_sect; lia |].
  unfold rinode, mbind, M_bind. rewrite Er. unfold ino. by rewrite Hx.
Qed.

(** ** The image *)

(** The files of an image. *)
Abbreviation contents := (list (Z * list Z)).

Definition total (fl : contents) : Z := foldr (λ x n, blocks_for (Z.of_nat (length x.2)) + n) 0 fl.

Record img_ok (s : mkst) (f : disk) (fl : contents) : Prop := ImgOk {
  im_rep : rep s f;
  im_sb : f 1 = Some (put_superblock mk_sb zeroes);
  im_log m : 2 ≤ m < 32 → f m = Some zeroes;
  im_inode : mk_freeinode s = 1 + Z.of_nat (length fl);
  im_few : 1 + Z.of_nat (length fl) ≤ NINODES;
  im_count : mk_freeblock s ≤ nmeta + total fl;
  im_file i t d : fl !! i = Some (t, d) → holds f (1 + Z.of_nat i) t d;
  im_apart i j k k' : (i < length fl)%nat → (j < length fl)%nat → i ≠ j → slot_range k → slot_range k' →
    slot f (ino f (1 + Z.of_nat i)) k ≠ 0 →
    slot f (ino f (1 + Z.of_nat i)) k ≠ slot f (ino f (1 + Z.of_nat j)) k';
  im_rest i : 1 + Z.of_nat (length fl) ≤ i < NINODES → di_type (ino f i) = 0;
  im_used b : nmeta ≤ b < mk_freeblock s → ∃ i k, (i < length fl)%nat ∧ slot_range k ∧ slot f (ino f (1 + Z.of_nat i)) k = b;
}.

Lemma img_holds s f fl i : img_ok s f fl → (i < length fl)%nat → ∃ t d, fl !! i = Some (t, d) ∧ holds f (1 + Z.of_nat i) t d.
Proof.
  intros H Hi. destruct (lookup_lt_is_Some_2 fl i Hi) as [[t d] E]. exists t, d. split; [done |]. by apply (im_file _ _ _ H).
Qed.

Section Image.
Context (s : mkst) (f : disk) (fl : contents) (Hi : img_ok s f fl).

Lemma img_slot i k :
  (i < length fl)%nat → slot_range k → slot f (ino f (1 + Z.of_nat i)) k ≠ 0 →
  nmeta ≤ slot f (ino f (1 + Z.of_nat i)) k < mk_freeblock s.
Proof using Hi.
  intros Hl Hk Hn. destruct (img_holds s f fl i Hi Hl) as (t & d & _ & [_ _ H3 _ _ H6]).
  destruct (mfile_slot s f _ k (im_rep _ _ _ Hi) H3 Hk Hn) as [Hb _]. split; [by apply H6 | lia].
Qed.

Lemma img_iblock i : (i < length fl)%nat → 32 ≤ IBLOCK (1 + Z.of_nat i) mk_sb < bmap_sect.
Proof using Hi. intros Hl. apply mk_iblock. pose proof (im_few _ _ _ Hi). lia. Qed.

(** Only the blocks of file [i] changed, and none of them was dropped. *)
Record touched (i : nat) (f' : disk) : Prop := Touched {
  tc_slot k : slot_range k → slot f' (ino f' (1 + Z.of_nat i)) k ≠ 0 →
    slot f' (ino f' (1 + Z.of_nat i)) k = slot f (ino f (1 + Z.of_nat i)) k ∨ mk_freeblock s ≤ slot f' (ino f' (1 + Z.of_nat i)) k;
  tc_frame b : 0 ≤ b < mk_freeblock s → b ≠ bmap_sect → b ≠ IBLOCK (1 + Z.of_nat i) mk_sb →
    (∀ k, slot_range k → slot f (ino f (1 + Z.of_nat i)) k ≠ 0 → slot f (ino f (1 + Z.of_nat i)) k ≠ b) → f' b = f b;
  tc_ino j : j ≠ 1 + Z.of_nat i → 0 ≤ j < NINODES → ino f' j = ino f j;
  tc_keep k : slot_range k → slot f (ino f (1 + Z.of_nat i)) k ≠ 0 →
    slot f' (ino f' (1 + Z.of_nat i)) k = slot f (ino f (1 + Z.of_nat i)) k;
}.

Lemma touched_other i s' f' j t d :
  rep s' f' → mk_freeblock s ≤ mk_freeblock s' → touched i f' → (i < length fl)%nat → j ≠ i → fl !! j = Some (t, d) →
  holds f' (1 + Z.of_nat j) t d ∧
  ∀ k, slot_range k → slot f' (ino f' (1 + Z.of_nat j)) k = slot f (ino f (1 + Z.of_nat j)) k.
Proof using Hi.
  intros Hr' Hb [T1 T2 T3 _] Hl Hn E. pose proof (lookup_lt_Some _ _ _ E) as Hj. pose proof (im_few _ _ _ Hi) as Hfew.
  apply (holds_kept f); [by apply (im_file _ _ _ Hi) | apply T3; lia |]. intros k Hk Hz.
  pose proof (img_slot j k Hj Hk Hz) as Hs. pose proof (img_iblock i Hl) as Hib. rewrite nmeta_eq in Hs. unfold bmap_sect in *.
  split.
  - apply T2; [lia | lia | lia |]. intros k' Hk' Hz' E'. by apply (im_apart _ _ _ Hi i j k' k).
  - rewrite (rep_used s' f' Hr'); [lia |]. pose proof (rp_free _ _ Hr'). lia.
Qed.

Lemma touched_low i f' b : touched i f' → (i < length fl)%nat → 0 ≤ b < 32 → f' b = f b.
Proof using Hi.
  intros [_ T2 _ _] Hl Hb. pose proof (img_iblock i Hl) as Hib. pose proof (rp_free _ _ (im_rep _ _ _ Hi)) as Hf.
  rewrite nmeta_eq in Hf. unfold bmap_sect in *. apply T2; [lia | lia | lia |]. intros k Hk Hz E.
  pose proof (img_slot i k Hl Hk Hz) as Hs. rewrite nmeta_eq in Hs. lia.
Qed.

Lemma total_insert i t d t' d' :
  fl !! i = Some (t, d) →
  total (<[i := (t', d')]> fl) = total fl + (blocks_for (Z.of_nat (length d')) - blocks_for (Z.of_nat (length d))).
Proof using.
  clear Hi. revert i. induction fl as [|x l IH]; intros [|i] E; simpl in *; simplify_eq/=; [lia |]. rewrite IH by done. lia.
Qed.

Lemma img_update i t d s' f' t' d' :
  fl !! i = Some (t, d) → rep s' f' → mk_freeinode s' = mk_freeinode s →
  mk_freeblock s ≤ mk_freeblock s' ≤ mk_freeblock s + (blocks_for (Z.of_nat (length d')) - blocks_for (Z.of_nat (length d))) →
  holds f' (1 + Z.of_nat i) t' d' → touched i f' → owns f' (ino f' (1 + Z.of_nat i)) s s' → img_ok s' f' (<[i := (t', d')]> fl).
Proof using Hi.
  intros E Hr' Hfi Hfb Hh T Hown. pose proof (lookup_lt_Some _ _ _ E) as Hl. pose proof Hi as [I1 I2 I3 I4 I5 I6 I7 I8 I9 I10].
  assert (∀ j, (j < length fl)%nat → j ≠ i →
    ∀ k, slot_range k → slot f' (ino f' (1 + Z.of_nat j)) k = slot f (ino f (1 + Z.of_nat j)) k) as Ho.
  { intros j Hj Hn. destruct (lookup_lt_is_Some_2 fl j Hj) as [[tj dj] Ej].
    by destruct (touched_other i s' f' j tj dj) as [_ H]; try done; lia. }
  constructor; rewrite ?length_insert; try done; try congruence.
  - rewrite <- I2. by apply (touched_low i).
  - intros m Hm. rewrite <- (I3 m Hm). apply (touched_low i); [done | done | lia].
  - rewrite (total_insert i t d) by done. lia.
  - intros j tj dj Ej. destruct (decide (j = i)) as [->|Hn].
    + rewrite list_lookup_insert_eq in Ej by done. by simplify_eq.
    + rewrite list_lookup_insert_ne in Ej by done. destruct (touched_other i s' f' j tj dj); try done. lia.
  - intros j j' k k' Hj Hj' Hn Hk Hk'. destruct (decide (j = i)) as [->|Hji], (decide (j' = i)) as [->|Hji']; [done | | |].
    + rewrite (Ho j') by done. intros Hz. destruct (tc_slot _ _ T k Hk Hz) as [E1|Hge]; [rewrite E1; apply I8; congruence |].
      intros E1. pose proof (img_slot j' k' Hj' Hk' ltac:(congruence)). lia.
    + rewrite (Ho j) by done. intros Hz E1. pose proof (img_slot j k Hj Hk Hz) as Hs.
      destruct (tc_slot _ _ T k' Hk' ltac:(congruence)) as [E2|Hge]; [|lia]. by apply (I8 j i k k'); try congruence.
    + rewrite (Ho j), (Ho j') by done. by apply I8.
  - intros j Hj. rewrite (tc_ino _ _ T) by lia. by apply I9.
  - intros b Hb. destruct (decide (b < mk_freeblock s)) as [Hlt|].
    + destruct (I10 b) as (j & k & Hj & Hk & Es); [lia |]. exists j, k. rewrite nmeta_eq in Hb. split_and!; [done | done |].
      destruct (decide (j = i)) as [->|]; [rewrite (tc_keep _ _ T) by (done || lia); done | by rewrite Ho].
    + destruct (Hown b) as (k & Hk & Es); [lia |]. by exists i, k.
Qed.
End Image.

(** ** [iappend] *)

Lemma mfile_addrs f di : mfile_ok f di → Forall (λ a, 0 ≤ a < 2 ^ 32) (di_addrs di).
Proof.
  intros [F1 F2 _]. apply list.Forall_lookup. intros k a Hk. pose proof (lookup_lt_Some _ _ _ Hk) as Hl. rewrite F1 in Hl.
  destruct (decide (a = 0)) as [->|Hn]; [lia |].
  assert (∃ j, slot_range j ∧ slot f di j = a) as (j & Hj & Ej).
  { destruct (decide (k = NDIRECT)) as [->|].
    - exists (-1). split; [unfold slot_range, MAXFILE; lia |]. change (slot f di (-1)) with (indirect di). unfold indirect. by rewrite Hk.
    - exists (Z.of_nat k). split; [unfold slot_range, MAXFILE; lia |]. rewrite addr_direct by lia. by rewrite Nat2Z.id, Hk. }
  subst a. destruct (F2 j Hj Hn) as [[B _ _ _ _] _]. change (sb_size mk_sb) with 1000 in B. lia.
Qed.

Lemma overwrite_end d p o : 0 ≤ o → overwrite (λ o, byte_at d (Z.to_nat o)) (Z.of_nat (length d)) p o = byte_at (d ++ p) (Z.to_nat o).
Proof.
  intros Ho. unfold overwrite, byte_at. destruct (Z.leb_spec (Z.of_nat (length d)) o) as [Hd|Hd]; simpl.
  - rewrite lookup_app_r by lia. replace (Z.to_nat (o - Z.of_nat (length d))) with (Z.to_nat o - length d)%nat by lia.
    destruct (Z.ltb_spec o (Z.of_nat (length d) + Z.of_nat (length p))); [done |].
    rewrite !lookup_ge_None_2 by lia. done.
  - by rewrite lookup_app_l by lia.
Qed.

Lemma byte_at_pad d n o : byte_at (d ++ replicate n 0) o = byte_at d o.
Proof.
  unfold byte_at. destruct (decide (o < length d)%nat); [by rewrite lookup_app_l |].
  rewrite lookup_app_r, (lookup_ge_None_2 d) by lia. destruct (replicate n 0 !! _) eqn:E; [|done].
  by apply lookup_replicate in E as [-> _].
Qed.

(** The blocks of file [i] were written, by [ws], and then its inode. *)
Section Append.
Context (s s1 : mkst) (f : disk) (fl : contents) (i : nat) (t : Z) (d d' : list Z) (ws : writes) (di' : dinode) (K : list Z).
Context (Hi : img_ok s f fl) (E : fl !! i = Some (t, d)).

Let I : Z := 1 + Z.of_nat i.
Let f1 : disk := apply_writes ws f.

Context (Hr1 : rep s1 f1) (Hf1 : mfile_ok f1 di') (G : grew f mk_sb (ino f I) ws di' K).
Context (Hfi : mk_freeinode s1 = mk_freeinode s).
Context (Hfb : mk_freeblock s ≤ mk_freeblock s1 ≤
  mk_freeblock s + (blocks_for (Z.of_nat (length d')) - blocks_for (Z.of_nat (length d)))).
Context (Hfl : filled f1 di' (Z.of_nat (length d'))) (Hmax : Z.of_nat (length d') ≤ Z.of_nat MAXFILE * BSIZE).
Context (Hc : ∀ o, 0 ≤ o < Z.of_nat MAXFILE * BSIZE → content f1 di' o = byte_at d' (Z.to_nat o)).
Context (Hown : owns f1 di' s s1).

Lemma append_inum : 0 ≤ I < NINODES.
Proof using All. pose proof (im_few _ _ _ Hi). pose proof (lookup_lt_Some _ _ _ E). unfold I. lia. Qed.

Lemma append_slot k :
  slot_range k → slot f1 di' k ≠ 0 → slot f1 di' k = slot f (ino f I) k ∨ mk_freeblock s ≤ slot f1 di' k.
Proof using All.
  intros Hk Hz. destruct (decide (slot f (ino f I) k = 0)) as [E0|]; [|left; by apply (gr_keep _ _ _ _ _ _ G)].
  destruct (gr_new _ _ _ _ _ _ G k Hk E0 Hz) as [Hb Hu]. rewrite (rep_used s f (im_rep _ _ _ Hi)) in Hu by done. right.
  unfold f1. lia.
Qed.

Lemma append_data k : slot_range k → slot f1 di' k ≠ 0 → nmeta ≤ slot f1 di' k.
Proof using All.
  intros Hk Hz. pose proof (rp_free _ _ (im_rep _ _ _ Hi)) as H59. destruct (append_slot k Hk Hz) as [E1|]; [|lia].
  rewrite E1. apply (ho_slot _ _ _ _ (im_file _ _ _ Hi _ _ _ E)); [done |]. fold I. congruence.
Qed.

Lemma append_meta : set_size (Z.of_nat (length d')) di' = Dinode t 0 0 1 (Z.of_nat (length d')) (di_addrs di').
Proof using All.
  pose proof (ho_meta _ _ _ _ (im_file _ _ _ Hi _ _ _ E)) as M. fold I in M. rewrite (gr_meta _ _ _ _ _ _ G). by rewrite M.
Qed.

Lemma append_dinode : dinode_ok (set_size (Z.of_nat (length d')) di').
Proof using All.
  destruct (im_file _ _ _ Hi _ _ _ E) as [[K1 _ _ _ _ _ _] M _ _ _ _]. rewrite M in K1. rewrite append_meta.
  constructor; simpl; try lia.
  - done.
  - unfold MAXFILE, BSIZE, NDIRECT, NINDIRECT in Hmax. lia.
  - by apply (mfile_addrs f1).
  - apply (fi_len _ _ _ _ _ Hf1).
Qed.

Lemma append_frame b :
  0 ≤ b < mk_freeblock s → b ≠ bmap_sect → (∀ k, slot_range k → slot f (ino f I) k ≠ 0 → slot f (ino f I) k ≠ b) → f1 b = f b.
Proof using All.
  intros Hb Hn Hs. pose proof (rp_free _ _ (im_rep _ _ _ Hi)) as H59. apply (gr_frame _ _ _ _ _ _ G); [| | |done].
  - change (sb_size mk_sb) with FSSIZE. lia.
  - rewrite (rep_used s f (im_rep _ _ _ Hi)) by lia. lia.
  - by rewrite mk_bmblocks, list_elem_of_singleton.
Qed.

Lemma append_ino j : 0 ≤ j < NINODES → ino f1 j = ino f j.
Proof using All.
  intros Hj. apply ino_same. destruct (mk_iblock j Hj) as [_ Hjb]. pose proof (rp_free _ _ (im_rep _ _ _ Hi)) as H59.
  rewrite nmeta_eq in H59. apply append_frame; unfold bmap_sect in *; [lia | lia |]. intros k Hk Hz.
  pose proof (ho_slot _ _ _ _ (im_file _ _ _ Hi _ _ _ E) k Hk Hz) as Hg. fold I in Hg. rewrite nmeta_eq in Hg. lia.
Qed.

Lemma img_winode :
  wp (winode I (set_size (Z.of_nat (length d')) di')) s1 (λ _ s', ∃ f', img_ok s' f' (<[i := (t, d')]> fl)).
Proof using All.
  destruct (winode_ok s1 f1 I _ Hr1 append_inum append_dinode) as (s' & x & Ew & Hr' & Hi' & Hb' & Ei & Ej).
  set (f' := apply_writes _ f1) in *. destruct (mk_iblock I append_inum) as [_ Hib]. unfold bmap_sect in Hib.
  assert (∀ m, m ≠ IBLOCK I mk_sb → f' m = f1 m) as Hsame.
  { intros m Hmn. unfold f'. rewrite apply_writes_one. by destruct (Z.eqb_spec m (IBLOCK I mk_sb)). }
  destruct (file_kept f1 f' di' Hf1) as (Ks & Kf & Kc).
  { intros k Hk Hz. pose proof (append_data k Hk Hz) as Hg. rewrite nmeta_eq in Hg. split; [apply Hsame; lia |].
    destruct (mfile_slot s1 f1 di' k Hr1 Hf1 Hk Hz) as [Hsb _]. pose proof (rp_free _ _ Hr1) as H1f.
    rewrite (rep_used s' f' Hr') by lia. lia. }
  assert (∀ k, slot_range k → slot f' (ino f' I) k = slot f1 di' k) as Ks' by (rewrite Ei; exact Ks).
  eapply wp_intro; [exact Ew |]. exists f'. apply (img_update s f fl Hi i t d); try done; [congruence | lia | | |].
  - constructor; fold I; rewrite ?Ei.
    + apply append_dinode.
    + apply append_meta.
    + by destruct Kf.
    + intros k Hk0 Hko. change (slot f' (set_size (Z.of_nat (length d')) di') k) with (slot f' di' k).
      rewrite Ks by (unfold slot_range, BSIZE in *; lia). by apply Hfl.
    + intros o Ho. rewrite <- Hc by done. by apply Kc.
    + rewrite <- Ei. intros k Hk. rewrite Ks' by done. by apply append_data.
  - constructor; fold I.
    + intros k Hk. rewrite Ks' by done. by apply append_slot.
    + intros b Hb Hb58 HbI Hbs. rewrite Hsame by done. by apply append_frame.
    + intros j Hj Hjr. rewrite Ej by done. by apply append_ino.
    + intros k Hk Hz. rewrite Ks' by done. by apply (gr_keep _ _ _ _ _ _ G).
  - intros b Hb. destruct (Hown b) as (k & Hk & Es); [lia |]. exists k. split; [done |]. fold I. by rewrite Ks'.
Qed.
End Append.

Lemma grew_freeblock s s1 f di ws di' K :
  rep s f → rep s1 (apply_writes ws f) → grew f mk_sb di ws di' K → mk_freeblock s ≤ mk_freeblock s1.
Proof.
  intros Hr Hr1 G. destruct (decide (mk_freeblock s ≤ mk_freeblock s1)) as [|Hn]; [done |]. exfalso.
  pose proof (rp_free _ _ Hr) as H. pose proof (rp_free _ _ Hr1) as H1. rewrite nmeta_eq in *.
  pose proof (gr_used _ _ _ _ _ _ G (mk_freeblock s1)) as Hu. change (sb_size mk_sb) with FSSIZE in Hu.
  rewrite (rep_used s f Hr), (rep_used s1 _ Hr1) in Hu by lia. specialize (Hu ltac:(lia)). lia.
Qed.

(** Bytes are appended to a file. *)
Lemma iappend_spec s f fl i t d p :
  img_ok s f fl → fl !! i = Some (t, d) → Z.of_nat (length (d ++ p)) ≤ Z.of_nat MAXFILE * BSIZE →
  nmeta + total (<[i := (t, d ++ p)]> fl) ≤ FSSIZE →
  wp (iappend (1 + Z.of_nat i) p) s (λ _ s', ∃ f', img_ok s' f' (<[i := (t, d ++ p)]> fl)).
Proof.
  intros Hi E Hmax Hfree. pose proof (im_rep _ _ _ Hi) as Hr. pose proof (im_file _ _ _ Hi _ _ _ E) as [H1 H2 H3 H4 H5 H6].
  rewrite (total_insert fl i t d) in Hfree by done. pose proof (im_count _ _ _ Hi) as Hcount.
  assert (di_size (ino f (1 + Z.of_nat i)) = Z.of_nat (length d)) as Hsz by (by rewrite H2).
  assert (Z.of_nat (length (d ++ p)) = Z.of_nat (length d) + Z.of_nat (length p)) as Hlen by (rewrite length_app; lia).
  unfold iappend. apply wp_bind. eapply wp_intro.
  { apply rinode_ok; [exact Hr |]. pose proof (im_few _ _ _ Hi). apply lookup_lt_Some in E. lia. }
  apply wp_bind. rewrite Hsz. eapply wp_mono.
  { apply (iappend_loop_spec _ s f); try done; rewrite <- ?Hlen; lia. }
  intros [off di'] s1 [Eo (ws & [[K [M1 M2 M3 M4 M5 M6]] A2 A3])]. cbn [fst snd] in *. subst off. rewrite <- Hlen in *.
  apply (img_winode s s1 f fl i t d (d ++ p) ws di' K); try done.
  - split; [by eapply grew_freeblock | lia].
  - intros o Ho. rewrite A3 by done. rewrite <- overwrite_end by lia. apply overwrite_ext. by apply H5.
Qed.

Lemma lookup_app_Some_or {A} (l : list A) x j y : (l ++ [x]) !! j = Some y → l !! j = Some y ∨ j = length l ∧ x = y.
Proof.
  intros [H|[Hj H]]%lookup_app_Some; [by left | right]. apply list_lookup_singleton_Some in H as [H ->]. split; [lia | done].
Qed.

(** ** New inodes *)

Definition empty_inode (t : Z) : dinode := Dinode t 0 0 1 0 (replicate (NDIRECT + 1) 0).

Lemma empty_slot f t k : -1 ≤ k → slot f (empty_inode t) k = 0.
Proof.
  intros Hk. destruct (decide (k = -1)) as [->|]; [done |]. destruct (decide (k < Z.of_nat NDIRECT)).
  - rewrite addr_direct by lia. change (di_addrs (empty_inode t)) with (replicate (NDIRECT + 1) 0).
    destruct (replicate (NDIRECT + 1) 0 !! Z.to_nat k) eqn:E; [|done].
    apply lookup_replicate in E as [-> _]. done.
  - by rewrite addr_no_indirect by (done || lia).
Qed.

Lemma empty_dinode t : 0 ≤ t < 2 ^ 16 → dinode_ok (empty_inode t).
Proof. intros Ht. constructor; try done. by apply list.Forall_replicate. Qed.

Lemma empty_holds f i t : 0 ≤ t < 2 ^ 16 → ino f i = empty_inode t → holds f i t [].
Proof.
  intros Ht E. constructor; rewrite ?E; try done.
  - by apply empty_dinode.
  - constructor; [done | |].
    + intros k Hk. by rewrite empty_slot by (unfold slot_range in Hk; lia).
    + intros k k' Hk Hk'. by rewrite empty_slot by (unfold slot_range in Hk; lia).
  - intros k Hk Ho. simpl in Ho. unfold BSIZE in Ho. lia.
  - intros o Ho. unfold content. assert (addr_of f (empty_inode t) (o / BSIZE) = 0) as ->; [|done].
    pose proof (empty_slot f t (o / BSIZE)) as Es. unfold slot, BSIZE in *. destruct (Z.eqb_spec (o / 512) (-1)); [zdiv |]. apply Es. zdiv.
  - intros k Hk. by rewrite empty_slot by (unfold slot_range in Hk; lia).
Qed.

Lemma total_app fl fl' : total (fl ++ fl') = total fl + total fl'.
Proof. induction fl as [|x l IH]; simpl; [lia |]. rewrite IH. lia. Qed.

(** The next inode was written, for an empty file. *)
Lemma img_extend s f fl t s' x :
  img_ok s f fl → 0 ≤ t < 2 ^ 16 → 1 + Z.of_nat (length fl) < NINODES →
  let I := 1 + Z.of_nat (length fl) in
  let f' := apply_writes [(IBLOCK I mk_sb, x)] f in
  rep s' f' → mk_freeinode s' = 1 + I → mk_freeblock s' = mk_freeblock s → ino f' I = empty_inode t →
  (∀ j, j ≠ I → 0 ≤ j < NINODES → ino f' j = ino f j) →
  img_ok s' f' (fl ++ [(t, [])]).
Proof.
  intros Hi Ht Hfew I f' Hr' Hi' Hb' Ei Ej. pose proof Hi as [I1 I2 I3 I4 I5 I6 I7 I8 I9 I10].
  destruct (mk_iblock I ltac:(lia)) as [_ Hib]. unfold bmap_sect in Hib.
  assert (∀ m, m ≠ IBLOCK I mk_sb → f' m = f m) as Hsame.
  { intros m Hm. unfold f'. rewrite apply_writes_one. by destruct (Z.eqb_spec m (IBLOCK I mk_sb)). }
  assert (∀ j, (j < length fl)%nat → ∃ t d, fl !! j = Some (t, d) ∧ holds f' (1 + Z.of_nat j) t d ∧
    ∀ k, slot_range k → slot f' (ino f' (1 + Z.of_nat j)) k = slot f (ino f (1 + Z.of_nat j)) k) as Ho.
  { intros j Hj. destruct (img_holds s f fl j Hi Hj) as (tj & dj & Etj & Hh). exists tj, dj. split; [done |].
    apply (holds_kept f); [done | apply Ej; lia |]. intros k Hk Hz. pose proof (img_slot s f fl Hi j k Hj Hk Hz) as Hs.
    rewrite nmeta_eq in Hs. split; [apply Hsame; lia |]. pose proof (rp_free _ _ Hr') as Hf'. rewrite (rep_used s' f' Hr'); lia. }
  constructor; try done; rewrite ?length_app; simpl length.
  - rewrite Hsame by lia. done.
  - intros m Hm. rewrite Hsame by lia. by apply I3.
  - lia.
  - lia.
  - rewrite Hb', total_app. change (total [(t, [])]) with 0. lia.
  - intros j tj dj [Hj|[-> Hj]]%lookup_app_Some_or.
    + destruct (Ho j (lookup_lt_Some _ _ _ Hj)) as (t' & d' & E' & Hh & _). by simplify_eq.
    + simplify_eq. by apply empty_holds.
  - intros j j' k k' Hj Hj' Hn Hk Hk'. unfold slot_range in Hk, Hk'.
    destruct (decide (j = length fl)) as [->|]; [fold I; rewrite Ei, empty_slot by lia; done |].
    destruct (Ho j ltac:(lia)) as (_ & _ & _ & _ & Es). rewrite Es by done. intros Hz.
    destruct (decide (j' = length fl)) as [->|]; [fold I; rewrite Ei, empty_slot by lia; done |].
    destruct (Ho j' ltac:(lia)) as (_ & _ & _ & _ & Es'). rewrite Es' by done. apply I8; (done || lia).
  - intros j Hj. rewrite Ej by lia. apply I9. lia.
  - intros b Hb. rewrite Hb' in Hb. destruct (I10 b Hb) as (j & k & Hj & Hk & Es). exists j, k.
    destruct (Ho j Hj) as (_ & _ & _ & _ & Es'). split_and!; [lia | done | by rewrite Es'].
Qed.

Lemma mk_ialloc_spec s f fl t :
  img_ok s f fl → 0 ≤ t < 2 ^ 16 → 1 + Z.of_nat (length fl) < NINODES →
  wp (mk_ialloc t) s (λ r s', r = 1 + Z.of_nat (length fl) ∧ ∃ f', img_ok s' f' (fl ++ [(t, [])])).
Proof.
  intros Hi Ht Hfew. unfold mk_ialloc. unfold u16. rewrite Z.mod_small by done. fold (empty_inode t).
  apply wp_bind, wp_gets, wp_bind, wp_modify. rewrite (im_inode _ _ _ Hi). set (I := 1 + Z.of_nat (length fl)) in *.
  rewrite u32_id by (unfold NINODES in *; lia). set (s0 := Mkst _ _ _).
  assert (rep s0 f) as Hr0 by (destruct (im_rep _ _ _ Hi); by constructor).
  destruct (winode_ok s0 f I (empty_inode t) Hr0 ltac:(lia)) as (s' & x & Ew & Hr' & Hi' & Hb' & Ei & Ej); [by apply empty_dinode |].
  apply wp_bind. eapply wp_intro; [exact Ew |]. apply wp_ret. split; [done |]. eexists.
  apply (img_extend s f fl t s' x Hi Ht Hfew Hr'); try done. rewrite Hi'. simpl. lia.
Qed.
