(* ===== verification/MkfsMain.v ===== *)
(** * The image that [mkfs] makes ([mkfs.c])

    [mkfs_main] from an empty image: the files of the image are the root
    directory, with an entry per file of the host, and these files. *)

From S2P Require Import Prelude Mmu Bytes Disk FsFormat Log LogSpec LogOps FsTx Fs FsAlloc FsFile FsGrow FsWrite FsDir Mkfs MkfsSpec MkfsImage.

(** ** Sizes *)

Lemma blocks_for_mono a b : 0 ≤ a ≤ b → 0 ≤ blocks_for a ≤ blocks_for b.
Proof. intros H. unfold blocks_for. destruct (Z.leb_spec a 6144), (Z.leb_spec b 6144); zdiv. Qed.

Lemma total_nonneg fl : 0 ≤ total fl.
Proof.
  induction fl as [|x fl IH]; simpl; [lia |]. pose proof (blocks_for_mono (Z.of_nat (length x.2)) (Z.of_nat (length x.2))). lia.
Qed.

Lemma total_app_mono fl i t d p :
  fl !! i = Some (t, d) → total fl ≤ total (<[i := (t, d ++ p)]> fl).
Proof.
  intros E. rewrite (total_insert fl i t d) by done. rewrite length_app.
  pose proof (blocks_for_mono (Z.of_nat (length d)) (Z.of_nat (length d + length p))). lia.
Qed.

(** ** Copying the files *)

Lemma copy_file_spec fuel s f fl i t d data :
  img_ok s f fl → fl !! i = Some (t, d) → Z.of_nat (length (d ++ data)) ≤ Z.of_nat MAXFILE * BSIZE →
  nmeta + total (<[i := (t, d ++ data)]> fl) ≤ FSSIZE → (length data < fuel)%nat →
  wp (copy_file fuel (1 + Z.of_nat i) data) s (λ _ s', ∃ f', img_ok s' f' (<[i := (t, d ++ data)]> fl)).
Proof.
  revert s f fl d data. induction fuel as [|fuel IH]; intros s f fl d data Hi E Hmax Hfree Hfuel; [lia |].
  cbn [copy_file]. case_bool_decide as Hd.
  { subst data. apply wp_ret. exists f. by rewrite app_nil_r, list_insert_id. }
  pose proof (lookup_lt_Some _ _ _ E) as Hl. assert (0 < length data)%nat by (destruct data; [done | simpl; lia]).
  assert (d ++ data = (d ++ take bsize data) ++ drop bsize data) as Ed by (by rewrite <- app_assoc, take_drop).
  set (fl1 := <[i := (t, d ++ take bsize data)]> fl).
  assert (fl1 !! i = Some (t, d ++ take bsize data)) as E1 by (by apply list_lookup_insert_eq).
  assert (<[i := (t, d ++ data)]> fl = <[i := (t, (d ++ take bsize data) ++ drop bsize data)]> fl1) as Efl.
  { unfold fl1. by rewrite list_insert_insert_eq, <- Ed. }
  pose proof (total_app_mono fl1 i t _ (drop bsize data) E1) as Hm. rewrite Efl in *. rewrite Ed in Hmax.
  apply wp_bind. eapply wp_mono; [apply (iappend_spec s f fl i t d); try done |].
  - rewrite !length_app in *. lia.
  - fold fl1. lia.
  - fold fl1. intros [] s1 [f1 Hi1]. apply (IH s1 f1); try done. rewrite length_drop. change bsize with 512%nat. lia.
Qed.

Definition entry (inum : Z) (name : list Z) : list Z := dirent_bytes (Dirent (u16 inum) (dirname name)).

Fixpoint entries (inum : Z) (files : list hostfile) : list Z :=
  match files with
  | [] => []
  | (name, _) :: files => entry inum (skip_underscore name) ++ entries (inum + 1) files
  end.

Definition plain (x : hostfile) : Z * list Z := (T_FILE, x.2).

Lemma length_entry inum name : length (entry inum name) = 16%nat.
Proof. unfold entry. apply length_dirent, length_dirname. Qed.

Lemma length_entries inum files : length (entries inum files) = (16 * length files)%nat.
Proof.
  revert inum. induction files as [|[name data] files IH]; intros inum; cbn [entries length]; [done |].
  rewrite length_app, length_entry, IH. lia.
Qed.

(** What [mkfs] can store. *)
Definition storable (x : hostfile) : Prop := (47 ∉ x.1) ∧ Z.of_nat (length x.2) ≤ Z.of_nat MAXFILE * BSIZE.

(** One file. *)
Lemma add_file_spec s f root rest name data :
  img_ok s f ((T_DIR, root) :: rest) → Z.of_nat (length data) ≤ Z.of_nat MAXFILE * BSIZE →
  let I := 2 + Z.of_nat (length rest) in
  let root' := root ++ entry I (skip_underscore name) in
  Z.of_nat (length root') ≤ Z.of_nat MAXFILE * BSIZE → I < NINODES →
  nmeta + total ((T_DIR, root') :: rest ++ [(T_FILE, data)]) ≤ FSSIZE →
  wp (mk_ialloc T_FILE) s (λ inum s1, wp (add_entry ROOTINO inum (skip_underscore name)) s1 (λ _ s2,
    wp (copy_file (S (length data)) inum data) s2 (λ _ s3, ∃ f3, img_ok s3 f3 ((T_DIR, root') :: rest ++ [(T_FILE, data)])))).
Proof.
  intros Hi Hsize I root' Hroot Hn Hfree. simpl in Hfree. rewrite total_app in Hfree.
  assert (0 ≤ blocks_for (Z.of_nat (length data))) as Hb by (apply (blocks_for_mono _ (Z.of_nat (length data))); lia).
  assert (total [(T_FILE, data)] = blocks_for (Z.of_nat (length data))) as Et by (simpl; lia). rewrite Et in Hfree.
  eapply wp_mono; [apply (mk_ialloc_spec s f _ T_FILE Hi); [done | simpl; lia] |].
  intros inum s1 [Ei [f1 Hi1]]. assert (inum = I) as -> by (rewrite Ei; simpl; unfold I; lia). clear Ei.
  eapply wp_mono.
  { apply (iappend_spec s1 f1 _ 0 T_DIR root (entry I (skip_underscore name)) Hi1); [done | done |]. simpl. rewrite total_app.
    change (total [(T_FILE, [])]) with 0. fold root'. lia. }
  intros [] s2 [f2 Hi2]. simpl in Hi2. fold root' in Hi2.
  assert (<[S (length rest) := (T_FILE, data)]> ((T_DIR, root') :: rest ++ [(T_FILE, [])]) =
    (T_DIR, root') :: rest ++ [(T_FILE, data)]) as Efl.
  { simpl. by rewrite insert_app_r_alt, Nat.sub_diag by lia. }
  replace I with (1 + Z.of_nat (S (length rest))) by (unfold I; lia). rewrite <- Efl.
  apply (copy_file_spec _ s2 f2 _ (S (length rest)) T_FILE [] data Hi2); [| done | | simpl; lia].
  - simpl. by apply list_lookup_middle.
  - simpl app. rewrite Efl. simpl. rewrite total_app, Et. lia.
Qed.

Lemma add_files_spec files s f root rest :
  img_ok s f ((T_DIR, root) :: rest) → Forall storable files →
  let root' := root ++ entries (2 + Z.of_nat (length rest)) files in
  let fl' := (T_DIR, root') :: rest ++ (plain <$> files) in
  Z.of_nat (length root') ≤ Z.of_nat MAXFILE * BSIZE → 1 + Z.of_nat (length fl') ≤ NINODES → nmeta + total fl' ≤ FSSIZE →
  wp (add_files ROOTINO files) s (λ _ s', ∃ f', img_ok s' f' fl').
Proof.
  revert s f root rest. induction files as [|[name data] files IH]; intros s f root rest Hi Hst root' fl' Hroot Hn Hfree.
  { apply wp_ret. exists f. unfold fl', root'. simpl. by rewrite !app_nil_r. }
  apply list.Forall_cons in Hst as [[Hslash Hsize] Hst]. cbn [fst snd] in *. cbn [add_files].
  rewrite bool_decide_eq_false_2 by done.
  set (e := entry (2 + Z.of_nat (length rest)) (skip_underscore name)). set (rest1 := rest ++ [(T_FILE, data)]).
  assert (root' = (root ++ e) ++ entries (2 + Z.of_nat (length rest1)) files) as Eroot.
  { unfold root', rest1. rewrite length_app. cbn [entries length]. fold e. rewrite <- app_assoc. do 3 f_equal. lia. }
  assert (fl' = (T_DIR, root') :: rest1 ++ (plain <$> files)) as Efl by (unfold fl', rest1; cbn; by rewrite <- app_assoc).
  assert (Z.of_nat (length (root ++ e)) ≤ Z.of_nat (length root')) as Hle by (rewrite Eroot, (length_app (root ++ e)); lia).
  pose proof (blocks_for_mono _ _ (conj (Nat2Z.is_nonneg _) Hle)) as Hb. pose proof (total_nonneg (plain <$> files)) as Hp.
  rewrite Efl in Hn, Hfree |- *. cbn [length total foldr snd] in Hn, Hfree. fold (total (rest1 ++ (plain <$> files))) in Hfree.
  rewrite length_app in Hn. rewrite total_app in Hfree. assert (length rest1 = S (length rest)) as Hl1 by (unfold rest1; rewrite length_app; simpl; lia).
  apply wp_bind. eapply wp_mono; [apply (add_file_spec s f root rest name data Hi Hsize) |].
  - fold e. lia.
  - lia.
  - fold e rest1. cbn [total foldr snd]. fold (total rest1). lia.
  - fold e rest1. intros inum s1 W1. apply wp_bind. eapply wp_mono; [exact W1 |]. intros [] s2 W2.
    apply wp_bind. eapply wp_mono; [exact W2 |]. intros [] s3 [f3 Hi3]. rewrite Eroot in *.
    apply (IH s3 f3); try done.
    + cbn [length]. rewrite length_app. lia.
    + cbn [total foldr snd]. fold (total (rest1 ++ (plain <$> files))). rewrite total_app. lia.
Qed.

(** ** From an empty image *)

Lemma zero_sects_spec n k :
  zero_sects (seqZ (Z.of_nat n) (Z.of_nat k)) (Mkst (replicate n zeroes) 1 nmeta) = Ok (tt, Mkst (replicate (n + k) zeroes) 1 nmeta).
Proof.
  revert n. induction k as [|k IH]; intros n; [by rewrite Nat.add_0_r |].
  rewrite seqZ_cons by lia. cbn [zero_sects]. replace (Z.pred (Z.of_nat (S k))) with (Z.of_nat k) by lia.
  replace (Z.succ (Z.of_nat n)) with (Z.of_nat (S n)) by lia. replace (n + S k)%nat with (S n + k)%nat by lia. rewrite <- IH.
  unfold mbind, M_bind, wsect, modify. cbn [mk_img mk_freeinode mk_freeblock]. do 2 f_equal.
  rewrite length_replicate, Nat2Z.id. replace (S n - n)%nat with 1%nat by lia.
  rewrite <- replicate_add, Nat.add_1_r. apply list_insert_id. apply lookup_replicate_2. lia.
Qed.

Definition blank : disk := λ m,
  if m =? bmap_sect then Some (mk_bits nmeta) else if (0 <=? m) && (m <? FSSIZE) then Some zeroes else None.

Lemma blank_rep : rep (Mkst (replicate (Z.to_nat FSSIZE) zeroes) 1 nmeta) blank.
Proof.
  constructor; cbn [mk_img mk_freeblock].
  - by rewrite length_replicate.
  - by intros b x [-> _]%lookup_replicate.
  - by rewrite nmeta_eq.
  - intros m. unfold blank, mk_view. cbn [mk_img mk_freeblock]. destruct (m =? bmap_sect); [done |].
    destruct (Z.leb_spec 0 m); [|done]. destruct (Z.ltb_spec m FSSIZE); simpl andb; cbv iota.
    + rewrite lookup_replicate_2 by lia. done.
    + rewrite lookup_ge_None_2; [done |]. rewrite length_replicate. lia.
  - intros b Hb. rewrite nmeta_eq in Hb. unfold blank, bmap_sect, FSSIZE in *.
    destruct (Z.eqb_spec b 58), (Z.leb_spec 0 b), (Z.ltb_spec b 1000); lia || done.
Qed.

Lemma mkfs_start :
  wp (zero_sects (seqZ 0 FSSIZE)) (Mkst [] 1 nmeta) (λ _ s,
    wp (wsect 1 (put_superblock mk_sb zeroes)) s (λ _ s', ∃ f, img_ok s' f [])).
Proof.
  pose proof (zero_sects_spec 0 (Z.to_nat FSSIZE)) as Z. simpl replicate in Z. rewrite Z2Nat.id in Z by done.
  change (Z.of_nat 0) with 0 in Z. eapply wp_intro; [exact Z |]. clear Z.
  destruct (wsect_ok _ _ blank_rep 1 (put_superblock mk_sb zeroes)) as (s & E & Hr & Hi & Hb); [done | done | |].
  { by vm_compute. }
  eapply wp_intro; [exact E |]. exists (apply_writes [(1, put_superblock mk_sb zeroes)] blank).
  constructor; simpl length; try done.
  - intros m Hm. rewrite apply_writes_one. unfold blank, bmap_sect, FSSIZE.
    destruct (Z.eqb_spec m 1), (Z.eqb_spec m 58), (Z.leb_spec 0 m), (Z.ltb_spec m 1000); lia || done.
  - rewrite Hb. cbn [mk_freeblock total foldr]. lia.
  - intros i j k k' Hij. lia.
  - intros i Hib. unfold ino. rewrite apply_writes_one. destruct (mk_iblock i ltac:(lia)) as [_ Hm]. unfold bmap_sect in Hm.
    destruct (Z.eqb_spec (IBLOCK i mk_sb) 1); [lia |]. unfold blank, bmap_sect, FSSIZE.
    destruct (Z.eqb_spec (IBLOCK i mk_sb) 58), (Z.leb_spec 0 (IBLOCK i mk_sb)), (Z.ltb_spec (IBLOCK i mk_sb) 1000); try lia.
    cbn. unfold get16, zeroes. by rewrite !byte_at_zeros.
  - intros b. rewrite Hb. cbn [mk_freeblock]. lia.
Qed.

(** ** The whole image *)

Definition img_disk (img : list (list Z)) : disk := λ m, if 0 <=? m then img !! Z.to_nat m else None.

Definition root_entries (files : list hostfile) : list Z := entry ROOTINO [46] ++ entry ROOTINO [46; 46] ++ entries 2 files.

(** The size of the root is rounded up. *)
Definition round_up (n : Z) : Z := (n / BSIZE + 1) * BSIZE.

Definition padded (d : list Z) : list Z := d ++ replicate (Z.to_nat (round_up (Z.of_nat (length d))) - length d) 0.

Definition tree (files : list hostfile) : contents := (T_DIR, padded (root_entries files)) :: (plain <$> files).

Record makeable (files : list hostfile) : Prop := Makeable {
  ma_files : Forall storable files;
  ma_inodes : 2 + Z.of_nat (length files) ≤ NINODES;
  ma_blocks : nmeta + total (tree files) ≤ FSSIZE;
  ma_round : (2 + Z.of_nat (length files)) mod 32 ≠ 0;
}.

Lemma length_root files : Z.of_nat (length (root_entries files)) = 16 * (2 + Z.of_nat (length files)).
Proof. unfold root_entries. rewrite !length_app, !length_entry, length_entries. lia. Qed.

Lemma length_padded d : Z.of_nat (length (padded d)) = round_up (Z.of_nat (length d)).
Proof. unfold padded, round_up, BSIZE. rewrite length_app, length_replicate. zdiv. Qed.

Lemma blocks_round n : 0 ≤ n → n mod BSIZE ≠ 0 → blocks_for (round_up n) = blocks_for n.
Proof.
  intros Hn Hm. unfold blocks_for, round_up, BSIZE in *.
  destruct (Z.leb_spec n 6144), (Z.leb_spec ((n / 512 + 1) * 512) 6144); zdiv.
Qed.

Lemma filled_round f di n : 0 ≤ n → n mod BSIZE ≠ 0 → filled f di n → filled f di (round_up n).
Proof. intros Hn Hm Hf k Hk Hr. apply Hf; [done |]. unfold round_up, BSIZE in *. zdiv. Qed.

(** [fix size of root inode dir] *)
Lemma fix_root_spec s f root rest :
  img_ok s f ((T_DIR, root) :: rest) → Z.of_nat (length root) mod BSIZE ≠ 0 → round_up (Z.of_nat (length root)) ≤ Z.of_nat MAXFILE * BSIZE →
  wp (din ← rinode ROOTINO; winode ROOTINO (set_size (round_up (di_size din)) din)) s
    (λ _ s', ∃ f', img_ok s' f' ((T_DIR, padded root) :: rest)).
Proof.
  intros Hi Hm Hmax. pose proof (im_file _ _ _ Hi 0 _ _ eq_refl) as [H1 H2 H3 H4 H5 H6]. change (1 + Z.of_nat 0) with ROOTINO in *.
  apply wp_bind. eapply wp_intro; [apply rinode_ok; [apply Hi | done] |].
  assert (di_size (ino f ROOTINO) = Z.of_nat (length root)) as -> by (by rewrite H2). rewrite <- length_padded.
  apply (img_winode s s f _ 0 T_DIR root (padded root) [] (ino f ROOTINO) [] Hi eq_refl); try done.
  - apply Hi.
  - apply grew_refl.
  - rewrite length_padded, blocks_round by (done || lia). lia.
  - rewrite length_padded. apply filled_round; [lia | done | done].
  - by rewrite length_padded.
  - intros o Ho. unfold padded. rewrite byte_at_pad. by apply H5.
  - by apply owns_none.
Qed.

(** [balloc(freeblock)] writes the bitmap that [f] has already. *)
Lemma mk_balloc_spec s f fl :
  img_ok s f fl → wp (n ← gets mk_freeblock; mk_balloc n) s (λ _ s', img_ok s' f fl ∧ ∀ m, f m = img_disk (mk_img s') m).
Proof.
  intros Hi. pose proof (im_rep _ _ _ Hi) as Hr. pose proof Hr as [R1 R2 R3 R4 R5].
  apply wp_bind, wp_gets. unfold mk_balloc. pose proof R3 as Hfb. rewrite nmeta_eq in Hfb. unfold FSSIZE, BSIZE in Hfb |- *.
  destruct (Z.ltb_spec (mk_freeblock s) (512 * 8)); [|lia]. cbn [negb]. apply wp_modify.
  change (Z.to_nat (sb_bmapstart mk_sb)) with 58%nat.
  assert (59 - length (mk_img s) = 0)%nat as -> by (rewrite R1; unfold FSSIZE; lia). simpl replicate. rewrite app_nil_r.
  assert (∀ m, f m = img_disk (<[58%nat := mk_bits (mk_freeblock s)]> (mk_img s)) m) as Hf.
  { intros m. rewrite R4. unfold mk_view, img_disk. destruct (Z.eqb_spec m bmap_sect) as [->|Hn].
    - unfold bmap_sect. simpl. rewrite list_lookup_insert_eq; [done |]. rewrite R1. unfold FSSIZE. lia.
    - unfold bmap_sect in Hn. destruct (Z.leb_spec 0 m); [|done]. by rewrite list_lookup_insert_ne by lia. }
  split; [|exact Hf]. destruct Hi as [_ I2 I3 I4 I5 I6 I7 I8 I9 I10]. constructor; try done.
  constructor; cbn [mk_img mk_freeblock]; try done.
  - by rewrite length_insert.
  - intros b x Hx. rewrite list_lookup_insert in Hx. case_decide; [|by eapply R2]. simplify_eq. by apply (rep_bits s f).
  - intros m. rewrite R4. unfold mk_view. cbn [mk_img mk_freeblock]. destruct (Z.eqb_spec m bmap_sect) as [->|Hn]; [done |].
    unfold bmap_sect in Hn. destruct (Z.leb_spec 0 m); [|done]. by rewrite list_lookup_insert_ne by lia.
Qed.

Lemma mkfs_root s f :
  img_ok s f [] →
  wp (mk_ialloc T_DIR) s (λ r s1, r = ROOTINO ∧ wp (add_entry ROOTINO ROOTINO [46]) s1 (λ _ s2,
    wp (add_entry ROOTINO ROOTINO [46; 46]) s2 (λ _ s3, ∃ f3, img_ok s3 f3 [(T_DIR, entry ROOTINO [46] ++ entry ROOTINO [46; 46])]))).
Proof.
  intros Hi. eapply wp_mono; [apply (mk_ialloc_spec s f [] T_DIR Hi); done |]. intros r s1 [-> [f1 Hi1]]. split; [done |].
  eapply wp_mono; [apply (iappend_spec s1 f1 _ 0 T_DIR [] (entry ROOTINO [46]) Hi1); done |]. intros [] s2 [f2 Hi2].
  apply (iappend_spec s2 f2 _ 0 T_DIR _ (entry ROOTINO [46; 46]) Hi2); done.
Qed.

Lemma mkfs_of files Q :
  wp (mkfs_main files) (Mkst [] 1 nmeta) Q → ∃ s, mkfs files = Ok (mk_img s) ∧ Q tt s.
Proof. unfold wp, mkfs, image. destruct (mkfs_main files (Mkst [] 1 nmeta)) as [[[] s]|e]; [|done]. intros H. by exists s. Qed.

Lemma mkfs_image files :
  makeable files → ∃ s, mkfs files = Ok (mk_img s) ∧ ∃ f, img_ok s f (tree files) ∧ ∀ m, f m = img_disk (mk_img s) m.
Proof.
  intros [Hst Hn Hfree Hround]. pose proof (length_root files) as Hlr.
  assert (Z.of_nat (length (root_entries files)) mod BSIZE ≠ 0) as Hmod by (rewrite Hlr; unfold BSIZE; zdiv).
  assert (round_up (Z.of_nat (length (root_entries files))) ≤ Z.of_nat MAXFILE * BSIZE) as Hmax.
  { rewrite Hlr. unfold round_up, BSIZE, NINODES in *. change (Z.of_nat MAXFILE) with 140. zdiv. }
  assert (Z.of_nat (length (root_entries files)) ≤ round_up (Z.of_nat (length (root_entries files)))) as Hup by (unfold round_up, BSIZE; zdiv).
  unfold tree in Hfree. cbn [total foldr snd] in Hfree. fold (total (plain <$> files)) in Hfree.
  rewrite length_padded, blocks_round in Hfree by (done || lia).
  apply (mkfs_of files (λ _ s, ∃ f, img_ok s f (tree files) ∧ ∀ m, f m = img_disk (mk_img s) m)).
  unfold mkfs_main. apply wp_bind. eapply wp_mono; [exact mkfs_start |]. intros [] s W0.
  apply wp_bind. eapply wp_mono; [exact W0 |]. intros [] s0 [f0 Hi0].
  apply wp_bind. eapply wp_mono; [by apply (mkfs_root s0 f0) |]. intros r s1 [-> W1].
  cbn [Z.eqb negb ROOTINO]. apply wp_bind. eapply wp_mono; [exact W1 |]. intros [] s2 W2.
  apply wp_bind. eapply wp_mono; [exact W2 |]. intros [] s3 [f3 Hi3]. apply wp_bind. eapply wp_mono.
  { apply (add_files_spec files s3 f3 _ [] Hi3 Hst); cbn [length]; change (2 + Z.of_nat 0) with 2; rewrite <- ?app_assoc; fold (root_entries files).
    - lia.
    - rewrite length_app, length_fmap. cbn [length]. lia.
    - cbn [total foldr snd app]. fold (total (plain <$> files)). lia. }
  cbn [length app]. change (2 + Z.of_nat 0) with 2. rewrite <- app_assoc. fold (root_entries files). intros [] s4 [f4 Hi4].
  pose proof (fix_root_spec s4 f4 _ _ Hi4 Hmod Hmax) as W3. apply wp_bind_inv in W3. apply wp_bind. eapply wp_mono; [exact W3 |].
  intros din s5 W5. apply wp_bind. eapply wp_mono; [exact W5 |]. intros [] s6 [f6 Hi6].
  eapply wp_mono; [apply (mk_balloc_spec s6 f6 _ Hi6) |]. intros [] s7 [H7 E7]. by exists f6.
Qed.
