(* ===== verification/MkfsProps.v ===== *)
(** * The image of [mkfs] and the kernel that boots from it

    [mkfs_correct] says what is in the image, in the terms of the kernel's
    file system; [mkfs_boot] runs the kernel on it: [forkret]'s [iinit] and
    [initlog], then [namei], [ilock] and [readi] give the files back. *)

From S2P Require Import Prelude Mmu Bytes Disk Bio FsFormat Log LogSpec Recover LogOps FsTx Console Fs FsStep FsAlloc FsFile FsGrow FsWrite FsDir NameSpec Mkfs MkfsSpec MkfsImage MkfsMain.

(** ** The directory *)

Lemma entries_at n files i x :
  files !! i = Some x → slice (16 * i) 16 (entries n files) = entry (n + Z.of_nat i) (skip_underscore x.1).
Proof.
  revert n i. induction files as [|[name data] files IH]; intros n i E; [done |].
  destruct i as [|i]; [injection E as <- | change (files !! i = Some x) in E]; cbn [entries fst].
  - rewrite Z.add_0_r. unfold slice. change (16 * 0)%nat with 0%nat. rewrite drop_0. rewrite take_app_le by (by rewrite length_entry).
    by rewrite take_ge by (by rewrite length_entry).
  - unfold slice. replace (16 * S i)%nat with (length (entry n (skip_underscore name)) + 16 * i)%nat by (rewrite length_entry; lia).
    rewrite drop_app_add. fold (slice (16 * i) 16 (entries (n + 1) files)). rewrite (IH (n + 1) i E). f_equal. lia.
Qed.

(** The entries of the root, in order. *)
Definition root_entry (files : list hostfile) (k : nat) : dirent :=
  match k with
  | O => Dirent ROOTINO (dirname [46])
  | S O => Dirent ROOTINO (dirname [46; 46])
  | S (S i) =>
    match files !! i with
    | Some x => Dirent (2 + Z.of_nat i) (dirname (skip_underscore x.1))
    | None => Dirent 0 (replicate DIRSIZ 0)
    end
  end.

Lemma root_entry_bytes files k :
  (k < 2 + length files)%nat → Z.of_nat (length files) < 2 ^ 15 →
  get_dirent (slice (16 * k) 16 (root_entries files)) = root_entry files k.
Proof.
  intros Hk Hn. assert (∀ i name, 0 ≤ i < 2 ^ 16 → get_dirent (entry i name) = Dirent i (dirname name)) as Hget.
  { intros i name Hi. unfold entry. rewrite get_put_dirent; simpl; [unfold u16; by rewrite Z.mod_small | unfold u16; zdiv | apply length_dirname]. }
  destruct k as [|[|i]]; cbn [root_entry].
  - by rewrite <- Hget.
  - by rewrite <- Hget.
  - destruct (files !! i) as [x|] eqn:E; [|apply lookup_ge_None in E; lia].
    apply lookup_lt_Some in E as Hi. rewrite <- Hget by lia. f_equal.
    rewrite <- (entries_at 2 files i x E). unfold root_entries. rewrite app_assoc. unfold slice.
    replace (16 * S (S i))%nat with (length (entry ROOTINO [46%Z] ++ entry ROOTINO [46%Z; 46%Z]) + 16 * i)%nat.
    { by rewrite drop_app_add. }
    rewrite length_app, !length_entry. lia.
Qed.

Section Image.
Context (s : mkst) (f : disk) (files : list hostfile) (Hi : img_ok s f (tree files)) (Hm : makeable files).

Abbreviation n := (2 + Z.of_nat (length files)).

Lemma root_holds : holds f ROOTINO T_DIR (padded (root_entries files)).
Proof using Hi. clear Hm. by apply (im_file _ _ _ Hi 0). Qed.

Lemma file_holds i x : files !! i = Some x → holds f (2 + Z.of_nat i) T_FILE x.2.
Proof using Hi.
  clear Hm. intros E. replace (2 + Z.of_nat i) with (1 + Z.of_nat (S i)) by lia. apply (im_file _ _ _ Hi (S i)).
  simpl. by rewrite list_lookup_fmap, E.
Qed.

Lemma root_size : di_size (ino f ROOTINO) = round_up (16 * n) ∧ 16 * n ≤ round_up (16 * n) ≤ Z.of_nat MAXFILE * BSIZE.
Proof using All.
  assert (di_size (ino f ROOTINO) = round_up (16 * n)) as E.
  { rewrite (ho_meta _ _ _ _ root_holds). cbn [di_size]. by rewrite length_padded, length_root. }
  split; [exact E |].
  pose proof (ma_inodes _ Hm). unfold round_up, BSIZE, NINODES in *. change (Z.of_nat MAXFILE) with 140. zdiv.
Qed.

Lemma root_dentry k : 0 ≤ k < n → dentry f (ino f ROOTINO) k = root_entry files (Z.to_nat k).
Proof using All.
  intros Hk. destruct root_size as [_ Hr]. pose proof (ma_inodes _ Hm) as Hn. unfold NINODES in Hn.
  rewrite <- root_entry_bytes by lia. unfold dentry. f_equal.
  pose proof (slice_bytes (root_entries files) (16 * k) 16) as E. rewrite length_root in E.
  replace (Z.to_nat (16 * k)) with (16 * Z.to_nat k)%nat in E by lia. change (Z.to_nat 16) with 16%nat in E. rewrite E by lia.
  apply list_fmap_ext. intros j o (-> & Hj)%lookup_seqZ. rewrite (ho_bytes _ _ _ _ root_holds) by lia. unfold padded. apply byte_at_pad.
Qed.

(** The rest of the root is not used. *)
Lemma root_unused k : n ≤ k < di_size (ino f ROOTINO) / 16 → de_inum (dentry f (ino f ROOTINO) k) = 0.
Proof using All.
  destruct root_size as [-> Hr]. intros Hk. assert (16 * k + 16 ≤ Z.of_nat MAXFILE * BSIZE) as Hmax.
  { unfold round_up, BSIZE in *. revert Hr Hk. generalize (16 * n / 512). intros. zdiv. }
  assert (∀ o, 16 * k ≤ o < 16 * k + 16 → content f (ino f ROOTINO) o = 0) as Hz.
  { intros o Ho. rewrite (ho_bytes _ _ _ _ root_holds) by lia. unfold padded. rewrite byte_at_pad. unfold byte_at.
    rewrite lookup_ge_None_2; [done |]. pose proof (length_root files). lia. }
  unfold dentry. rewrite seqZ_cons, seqZ_cons by lia. cbn [fmap list_fmap]. unfold get_dirent, get16, byte_at. simpl.
  rewrite !Hz by lia. done.
Qed.

Lemma holds_no_holes i t d :
  holds f i t d → Z.of_nat (length d) ≤ Z.of_nat MAXFILE * BSIZE → no_holes f (ino f i).
Proof using.
  clear Hi Hm. intros [_ H2 _ H4 _ _] Hmax. assert (di_size (ino f i) = Z.of_nat (length d)) as E by (by rewrite H2).
  unfold no_holes. by rewrite E.
Qed.

Lemma holds_data i t d :
  holds f i t d → Z.of_nat (length d) ≤ Z.of_nat MAXFILE * BSIZE → content f (ino f i) <$> seqZ 0 (Z.of_nat (length d)) = d.
Proof using.
  clear Hi Hm. intros Hh Hmax. pose proof (slice_bytes d 0 (Z.of_nat (length d))) as E.
  transitivity (slice 0 (length d) d); [|unfold slice; rewrite drop_0; by apply take_ge].
  rewrite Nat2Z.id in E. change (Z.to_nat 0) with 0%nat in E. rewrite E by lia.
  apply list_fmap_ext. intros j o (-> & Hj)%lookup_seqZ. apply (ho_bytes _ _ _ _ Hh). lia.
Qed.

(** The blocks in use are those before the data and those of the files. *)
Lemma image_used b :
  0 ≤ b < FSSIZE →
  used f mk_sb b = true ↔ b < nmeta ∨ ∃ i k, 1 ≤ i < n ∧ slot_range k ∧ slot f (ino f i) k = b.
Proof using Hi.
  clear Hm. intros Hb. rewrite (rep_used s f (im_rep _ _ _ Hi)) by done. rewrite Z.ltb_lt.
  assert (length (tree files) = S (length files)) as Ht by (unfold tree; simpl; by rewrite length_fmap).
  pose proof (rp_free _ _ (im_rep _ _ _ Hi)) as H59. split.
  - intros Hlt. destruct (decide (b < nmeta)); [by left | right].
    destruct (im_used _ _ _ Hi b) as (i & k & Hil & Hk & E); [lia |]. exists (1 + Z.of_nat i), k. split_and!; [lia | lia | done | done].
  - intros [Hlt|(i & k & Hir & Hk & E)]; [lia |]. destruct (decide (b = 0)) as [->|Hz]; [rewrite nmeta_eq in H59; lia |].
    pose proof (img_slot s f _ Hi (Z.to_nat (i - 1)) k) as Hs. rewrite Ht in Hs.
    replace (1 + Z.of_nat (Z.to_nat (i - 1))) with i in Hs by lia. rewrite E in Hs. apply Hs; [lia | done | done].
Qed.

(** The files are a tree. *)
Lemma image_tree : fs_tree f mk_log mk_sb (λ i, 1 ≤ i < n).
Proof using All.
  pose proof (ma_inodes _ Hm) as Hn. assert (∀ i, 1 ≤ i < n → i = ROOTINO ∨ ∃ x, files !! Z.to_nat (i - 2) = Some x ∧ holds f i T_FILE x.2) as Hcase.
  { intros i Hir. destruct (decide (i = 1)) as [->|]; [by left |]. right.
    destruct (lookup_lt_is_Some_2 files (Z.to_nat (i - 2))) as [x Hx]; [lia |]. exists x. split; [done |].
    pose proof (file_holds _ _ Hx) as Hh. by replace (2 + Z.of_nat (Z.to_nat (i - 2))) with i in Hh by lia. }
  constructor.
  - intros i Hir. destruct (mk_iblock i) as [_ Hb]; [lia |].
    assert (is_Some (f (IBLOCK i mk_sb))) as Hblk.
    { destruct (rep_block s f (im_rep _ _ _ Hi) (IBLOCK i mk_sb)) as (x & -> & _); [|done]. unfold bmap_sect, FSSIZE in *. lia. }
    destruct (Hcase i Hir) as [-> | (x & _ & Hh)]; (constructor; [done | ..]); change (dino f mk_sb) with (ino f).
    1,2: by rewrite (ho_meta _ _ _ _ root_holds).
    + intros _. destruct root_size as [Es Hr]. split_and!; [apply root_holds | | rewrite Es; lia |].
      * eapply holds_no_holes; [apply root_holds |]. rewrite length_padded, length_root. lia.
      * rewrite Es. unfold round_up, BSIZE. zdiv.
    + by rewrite (ho_meta _ _ _ _ Hh).
    + by rewrite (ho_meta _ _ _ _ Hh).
    + by rewrite (ho_meta _ _ _ _ Hh).
  - intros i k Hir Hty Hk Hz. change (dino f mk_sb) with (ino f) in *. destruct (Hcase i Hir) as [-> | (x & _ & Hh)].
    + destruct (decide (k < n)) as [Hlt|]; [|by rewrite root_unused in Hz by lia]. rewrite root_dentry by lia.
      destruct (Z.to_nat k) as [|[|j]] eqn:Ek; simpl; [unfold ROOTINO; lia | unfold ROOTINO; lia |].
      destruct (files !! j) as [x|] eqn:E; [|apply lookup_ge_None in E; lia]. apply lookup_lt_Some in E. simpl. lia.
    + by rewrite (ho_meta _ _ _ _ Hh) in Hty.
Qed.
End Image.

(** ** The image *)

(** C14. If the files fit, and the entries of the root do not end just at the
    end of a block, [mkfs] makes an image whose superblock describes it and
    whose log is empty; the bitmap marks exactly the blocks before the data
    and the blocks of the files, indirect blocks included, and no block belongs
    to two files; inode [2 + i] is a file with the bytes of the
    [i]-th file; the root has its entry, after those for itself and its
    parent, and no other; and the other inodes are free. *)
Theorem mkfs_correct files :
  makeable files →
  ∃ img f, mkfs files = Ok img ∧ (∀ m, f m = img_disk img m) ∧
  get_superblock (default [] (f 1)) = mk_sb ∧ (∀ m, 2 ≤ m < 2 + nlog → f m = Some zeroes) ∧ fs_ok f [] mk_log mk_sb ∧
  (∀ b, 0 ≤ b < FSSIZE → used f mk_sb b = true ↔
    b < nmeta ∨ ∃ i k, 1 ≤ i < 2 + Z.of_nat (length files) ∧ slot_range k ∧ slot f (dino f mk_sb i) k = b) ∧
  (∀ i x, files !! i = Some x → let di := dino f mk_sb (2 + Z.of_nat i) in
    di_type di = T_FILE ∧ di_nlink di = 1 ∧ di_size di = Z.of_nat (length x.2) ∧ file_ok f [] mk_log mk_sb di ∧ no_holes f di ∧
    content f di <$> seqZ 0 (di_size di) = x.2) ∧
  (let di := dino f mk_sb ROOTINO in
    di_type di = T_DIR ∧ di_nlink di = 1 ∧ file_ok f [] mk_log mk_sb di ∧ no_holes f di ∧
    (∀ k, 0 ≤ k < 2 + Z.of_nat (length files) → dentry f di k = root_entry files (Z.to_nat k)) ∧
    (∀ k, 2 + Z.of_nat (length files) ≤ k < di_size di / 16 → de_inum (dentry f di k) = 0)) ∧
  (∀ i j k k', 1 ≤ i < 2 + Z.of_nat (length files) → 1 ≤ j < 2 + Z.of_nat (length files) → i ≠ j → slot_range k → slot_range k' →
    slot f (dino f mk_sb i) k ≠ 0 → slot f (dino f mk_sb i) k ≠ slot f (dino f mk_sb j) k') ∧
  (∀ i, 2 + Z.of_nat (length files) ≤ i < NINODES → di_type (dino f mk_sb i) = 0).
Proof.
  intros Hm. destruct (mkfs_image files Hm) as (s & E & f & Hi & Hf). exists (mk_img s), f. change (dino f mk_sb) with (ino f).
  pose proof (root_holds s f files Hi) as Hroot. destruct (root_size s f files Hi Hm) as [Es Hr].
  assert (length (tree files) = S (length files)) as Ht by (unfold tree; simpl; by rewrite length_fmap).
  split_and!; [done | done | | | | | | | |].
  - rewrite (im_sb _ _ _ Hi). by vm_compute.
  - intros m Hmr. apply (im_log _ _ _ Hi). unfold nlog, LOGSIZE, MAXOPBLOCKS in Hmr. lia.
  - by apply (rep_fs_ok s), (im_rep _ _ _ Hi).
  - by apply (image_used s).
  - intros i x Hx di. pose proof (file_holds s f files Hi i x Hx) as Hh. pose proof (list.Forall_lookup_1 _ _ _ _ (ma_files _ Hm) Hx) as [_ Hmax].
    assert (di = Dinode T_FILE 0 0 1 (Z.of_nat (length x.2)) (di_addrs di)) as Ed by apply Hh. rewrite Ed at 1 2 3.
    split_and!; [done | done | done | apply Hh | by eapply holds_no_holes |].
    assert (di_size di = Z.of_nat (length x.2)) as -> by (by rewrite Ed). by eapply holds_data.
  - assert (ino f ROOTINO = Dinode T_DIR 0 0 1 (Z.of_nat (length (padded (root_entries files)))) (di_addrs (ino f ROOTINO))) as Ed by apply Hroot.
    cbv zeta. rewrite Ed at 1 2. split_and!; [done | done | apply Hroot | | |].
    + eapply holds_no_holes; [exact Hroot |]. rewrite length_padded, length_root. lia.
    + by apply (root_dentry s).
    + by apply (root_unused s).
  - intros i j k k' Hir Hjr Hn Hk Hk'. pose proof (im_apart _ _ _ Hi (Z.to_nat (i - 1)) (Z.to_nat (j - 1)) k k') as Ha. rewrite Ht in Ha.
    replace (1 + Z.of_nat (Z.to_nat (i - 1))) with i in Ha by lia. replace (1 + Z.of_nat (Z.to_nat (j - 1))) with j in Ha by lia.
    apply Ha; try assumption; lia.
  - intros i Hir. apply (im_rest _ _ _ Hi). rewrite Ht. lia.
Qed.

(** Two files, one of 600 bytes. *)
Definition two_files : list hostfile := [([95; 97], [104; 105]); ([98], replicate 600 7)].

Lemma two_files_ok : makeable two_files.
Proof.
  constructor; [|by vm_compute | by vm_compute | by vm_compute].
  repeat constructor; simpl; try (by vm_compute); set_solver.
Qed.

Lemma mkfs_correct_witness :
  ∃ img f, mkfs two_files = Ok img ∧ (∀ m, f m = img_disk img m) ∧ fs_ok f [] mk_log mk_sb ∧
    content f (dino f mk_sb 2) <$> seqZ 0 (di_size (dino f mk_sb 2)) = [104; 105].
Proof.
  destruct (mkfs_correct two_files two_files_ok) as (img & f & E & Hf & _ & _ & Hfs & _ & Hfile & _). exists img, f.
  split; [exact E |]. split; [exact Hf |]. split; [exact Hfs |].
  destruct (Hfile 0%nat ([95; 97], [104; 105]) eq_refl) as (_ & _ & _ & _ & _ & Hd). exact Hd.
Defined.

(** C37. With the log that [mkfs] makes, the reservation of [begin_op] is one
    block short: from any state with that log, empty and with no operation in
    progress, three operations are admitted together, and when each logs the
    [MAXOPBLOCKS] blocks it may, all of them different, the kernel panics. *)
Theorem mkfs_log_too_small {D} (t : lst D) bs1 bs2 bs3 ns :
  lg_size (ls_log t) = sb_nlog mk_sb → length (lg_block (ls_log t)) = Z.to_nat LOGSIZE →
  lg_n (ls_log t) = 0 → lg_outstanding (ls_log t) = 0 → lg_committing (ls_log t) = false →
  length bs1 = Z.to_nat MAXOPBLOCKS → length bs2 = Z.to_nat MAXOPBLOCKS → length bs3 = Z.to_nat MAXOPBLOCKS →
  in_bufs t (bs1 ++ bs2 ++ bs3) ns → NoDup ns →
  ∃ t3, (begin_op;; begin_op;; begin_op) t = Ok (tt, t3) ∧
    log_all (bs1 ++ bs2 ++ bs3) t3 = Err (EPanic "too big a transaction").
Proof.
  destruct t as [c [st sz o cm dev n blk]]. cbn [ls_log lg_size lg_block lg_n lg_outstanding lg_committing].
  intros -> Hl -> -> -> L1 L2 L3 Hb Hnd. eexists. split; [reflexivity |].
  apply (log_all_panics _ ns); cbn [ls_log lg_size lg_block lg_n lg_outstanding]; try done.
  rewrite !length_app, L1, L2, L3. by vm_compute.
Qed.

Definition full_cache : lst memdisk :=
  Lst (Bst (Memdisk []) ((λ n, Buf true false 1 (100 + Z.of_nat n) (Sleeplock false 0) 0 []) <$> seq 0 30) (seq 0 30) 1)
    (Log 2 LOGSIZE 0 false 1 0 (replicate (Z.to_nat LOGSIZE) 0)).

Lemma mkfs_log_too_small_witness :
  ∃ t3, (begin_op;; begin_op;; begin_op) full_cache = Ok (tt, t3) ∧
    log_all (seq 0 10 ++ seq 10 10 ++ seq 20 10) t3 = Err (EPanic "too big a transaction").
Proof.
  apply (mkfs_log_too_small full_cache (seq 0 10) (seq 10 10) (seq 20 10) ((λ n, 100 + Z.of_nat n) <$> seq 0 30)); try done.
  - unfold in_bufs. cbn. repeat (apply list.Forall2_cons; split; [eexists; split; reflexivity |]). by apply list.Forall2_nil.
  - apply (bool_decide_unpack _). by vm_compute.
Defined.

(** ** Booting from it *)

(** The first process, in [forkret], and the start of a system call. *)
Definition mount {D} `{DiskDriver D} : M (fsys D) unit :=
  iinit ROOTDEV;; on_l (initlog ROOTDEV);; on_l begin_op.

(** A system call that reads from the start of the file at [path]. *)
Definition boot_read {D} `{DiskDriver D} (path : list Z) (n : Z) : M (fsys D) (option (Z * list Z)) :=
  mount;;
  r ← namei path;
  match r with
  | None => mret None
  | Some ip => ilock ip;; x ← readi ip 0 n; mret (Some x)
  end.

(** The kernel before it looked at the disk. *)
Definition powered_on {D} (d : D) (pid : Z) (s : fsys D) : Prop :=
  fs_l s = Lst (boot d pid) log_zero ∧ fs_inodes s = replicate (Z.to_nat NINODE) inode_zero.

Lemma empty_log f : f 2 = Some zeroes → valid_log mk_log f ∧ replay mk_log f = [] ∧ cleared (found mk_log f) = set_ops 0 false mk_log ∧
  put_head (cleared (found mk_log f)) (default [] (f (lg_start mk_log))) = zeroes.
Proof.
  intros E. assert (found mk_log f = set_ops 0 false mk_log) as Ef.
  { unfold found. change (lg_start mk_log) with 2. rewrite E. by vm_compute. }
  assert (log_ok (set_ops 0 false mk_log)) as Hl.
  { constructor; try done; [apply NoDup_nil_2 | ..]; intros m Hm; by apply elem_of_nil in Hm. }
  split_and!.
  - constructor; rewrite ?Ef; [by exists zeroes | done | |]; [simpl; lia |]. intros b Hb. by apply elem_of_nil in Hb.
  - unfold replay. rewrite Ef. done.
  - by rewrite Ef.
  - rewrite Ef. change (lg_start mk_log) with 2. rewrite E. by vm_compute.
Qed.

Section Boot.
Context {D : Type} `{DiskLaws D, !DiskTrace D} (d : D) (pid : Z) (f : disk).
Context (Hwf : dwf d) (Hd : ∀ m, dblk d m = f m) (Hsb : f 1 = Some (put_superblock mk_sb zeroes)) (Hlog : f 2 = Some zeroes).

Lemma mk_superblock : get_superblock (put_superblock mk_sb zeroes) = mk_sb.
Proof using. by vm_compute. Qed.

Lemma booted s :
  powered_on d pid s →
  wp mount s (λ _ s',
    tx f [] (fs_l s') ∧ ls_log (fs_l s') = mk_log ∧ fs_sb s' = mk_sb ∧
    fs_inodes s' = replicate (Z.to_nat NINODE) inode_zero ∧ cur_pid s' = pid).
Proof using All.
  intros [El Ei]. destruct (boot_counts d pid) as [Hq Hs]. pose proof (boot_inv d pid Hwf) as Hinv.
  unfold mount, iinit. apply wp_bind, wp_bind, wp_modify. rewrite Ei.
  assert (set_i_lock initsleeplock <$> replicate (Z.to_nat NINODE) inode_zero = replicate (Z.to_nat NINODE) inode_zero) as ->.
  { by rewrite fmap_replicate. }
  apply wp_bind, wp_on_l, wp_zoom. simpl fs_l. rewrite El. cbn [ls_b].
  eapply wp_mono; [apply (readsb_spec (boot d pid) (put_superblock mk_sb zeroes) Hinv Hq) |].
  - rewrite Hs. change nbuf with 30%nat. lia.
  - by rewrite boot_view, Hd.
  - apply boot_dirty.
  - intros sb b1 [-> W1]. apply wp_modify. rewrite mk_superblock. apply wp_bind, wp_on_l. simpl fs_l.
    destruct (empty_log (dblk d)) as (V1 & V2 & V3 & V4); [by rewrite Hd |].
    eapply wp_mono; [apply (initlog_after mk_log d pid (put_superblock mk_sb zeroes) b1); try done; by rewrite Hd |].
    intros [] [b2 l2] [El2 W2]. cbn [ls_log ls_b] in *. rewrite V3 in El2. rewrite V2, V4 in W2. subst l2. apply wp_on_l.
    unfold begin_op. apply wp_bind, wp_gets. simpl fs_l. cbn [ls_log lg_committing set_ops mk_log lg_n lg_outstanding].
    change (LOGSIZE <? 0 + (0 + 1) * MAXOPBLOCKS) with false. cbv iota. apply wp_modify.
    split_and!; try done; [|unfold cur_pid; simpl; rewrite (wr_pid _ _ _ W2); done].
    assert (∀ m, lview b2 m = f m) as Hv.
    { intros m. rewrite (wr_view _ _ _ W2). simpl. rewrite apply_writes_one. destruct (Z.eqb_spec m 2) as [->|]; [by rewrite Hlog | by rewrite boot_view]. }
    constructor; simpl; try done.
    + apply W2.
    + constructor; try done; [apply NoDup_nil_2 | ..]; intros m Hm; by apply elem_of_nil in Hm.
    + intros m. by rewrite unlocked by apply W2.
    + apply W2.
    + intros m. rewrite (wr_dirty _ _ _ W2), boot_dirty. by destruct (bool_decide _).
    + pose proof (wr_spare _ _ _ W2) as Hsp. rewrite Hs in Hsp. change nbuf with 30%nat in Hsp. lia.
Qed.
End Boot.

(** ** Names *)

Lemma split_plain e : (slash ∉ e) → split_path e = [e].
Proof.
  induction e as [|c e IH]; [done |]. rewrite not_elem_of_cons. intros [Hc He]. cbn [split_path].
  destruct (Z.eqb_spec c slash); [congruence |]. by rewrite IH.
Qed.

Lemma elems_root e : (slash ∉ e) → e ≠ [] → elems (slash :: e) = [e].
Proof.
  intros He Hn. unfold elems. cbn [split_path]. rewrite Z.eqb_refl, split_plain by done.
  by rewrite filter_cons_False, filter_cons_True by auto.
Qed.

Lemma str_ncmp_take n p q : str_ncmp n (take n p) q = str_ncmp n p q.
Proof.
  revert p q. induction n as [|n IH]; intros p q; [done |]. destruct p as [|c p]; [done |]. cbn [str_ncmp take].
  change (byte_at (c :: take n p) 0) with c. change (byte_at (c :: p) 0) with c. cbn [drop]. rewrite !drop_0. by rewrite IH.
Qed.

Lemma skip_underscore_slash name : (47 ∉ name) → 47 ∉ skip_underscore name.
Proof. destruct name as [|c name]; [done |]. rewrite not_elem_of_cons. intros [Hc Hn]. simpl. destruct (c =? 95); set_solver. Qed.

(** No entry before that of file [i] has its name. *)
Definition first_named (files : list hostfile) (i : nat) (name : list Z) : Prop :=
  ∀ k, (k < 2 + i)%nat → namecmp (take DIRSIZ name) (de_name (root_entry files k)) ≠ 0.

Section Find.
Context (s : mkst) (f : disk) (files : list hostfile) (Hi : img_ok s f (tree files)) (Hm : makeable files).

Lemma lookup_file i x :
  files !! i = Some x → first_named files i (skip_underscore x.1) →
  lookup_name f mk_sb ROOTINO (take DIRSIZ (skip_underscore x.1)) = Some (2 + Z.of_nat i).
Proof using All.
  intros Hx Hfirst. pose proof (lookup_lt_Some _ _ _ Hx) as Hl. set (name := skip_underscore x.1) in *.
  destruct (root_size s f files Hi Hm) as [Es Hr]. unfold lookup_name. change (dino f mk_sb ROOTINO) with (ino f ROOTINO).
  assert (root_entry files (S (S i)) = Dirent (2 + Z.of_nat i) (dirname name)) as Er by (simpl; by rewrite Hx).
  assert (∀ k, (k < 2 + length files)%nat → dmatch f (ino f ROOTINO) (take DIRSIZ name) (Z.of_nat k) =
    negb (de_inum (root_entry files k) =? 0) && (namecmp (take DIRSIZ name) (de_name (root_entry files k)) =? 0)) as Hd.
  { intros k Hk. unfold dmatch. rewrite (root_dentry s f files Hi Hm) by lia. by rewrite Nat2Z.id. }
  assert (list_find (λ k, dmatch f (ino f ROOTINO) (take DIRSIZ name) k = true) (seqZ 0 (di_size (ino f ROOTINO) / 16)) =
    Some (S (S i), Z.of_nat (S (S i)))) as ->.
  { apply list_find_Some. split_and!.
    - apply lookup_seqZ. rewrite Es. split; [lia |]. apply Z.lt_le_trans with (16 * (2 + Z.of_nat (length files)) / 16); [zdiv | zdiv].
    - rewrite Hd by lia. rewrite Er. cbn [de_inum de_name]. unfold namecmp. rewrite str_ncmp_take. fold (namecmp name (dirname name)).
      rewrite namecmp_dirname. destruct (Z.eqb_spec (2 + Z.of_nat i) 0); [lia | done].
    - intros k z [-> Hk]%lookup_seqZ Hlt. rewrite Z.add_0_l, Hd by lia. intros [_ Hc]%andb_true_iff. apply Z.eqb_eq in Hc.
      by apply (Hfirst k); [lia |]. }
  cbn [fmap option_fmap option_map snd]. f_equal. rewrite (root_dentry s f files Hi Hm) by lia. rewrite Nat2Z.id, Er. done.
Qed.

Lemma walk_file i x :
  files !! i = Some x → skip_underscore x.1 ≠ [] → first_named files i (skip_underscore x.1) →
  walk f mk_sb false ROOTINO [] (elems (slash :: skip_underscore x.1)) = Some (2 + Z.of_nat i, take DIRSIZ (skip_underscore x.1)).
Proof using All.
  intros Hx Hn Hfirst. pose proof (list.Forall_lookup_1 _ _ _ _ (ma_files _ Hm) Hx) as [Hs _].
  rewrite elems_root by (try apply skip_underscore_slash; done). cbn [walk]. change (dino f mk_sb ROOTINO) with (ino f ROOTINO).
  assert (di_type (ino f ROOTINO) = T_DIR) as -> by (by rewrite (ho_meta _ _ _ _ (root_holds s f files Hi))).
  cbn [negb Z.eqb T_DIR Pos.eqb andb]. by rewrite (lookup_file i x).
Qed.
End Find.

Lemma blank_cache f sb pid n : icache f sb pid None (replicate n inode_zero) ∧ spare (replicate n inode_zero) = Z.of_nat n.
Proof.
  split.
  - constructor.
    + intros i j ip jp dev inum [-> _]%lookup_replicate _ [Hr _]. simpl in Hr. lia.
    + intros j jp [-> _]%lookup_replicate. constructor; simpl; lia.
    + by intros j jp [-> _]%lookup_replicate.
  - unfold spare. induction n as [|n IH]; [done |]. simpl. rewrite IH. unfold unused. simpl. lia.
Qed.

(** ** A file of the image, read by the kernel *)

(** The file that a walk ended at is locked and read. *)
Lemma read_located {D} `{DiskLaws D} f (s0 : fsys D) P :
  tx f [] (fs_l s0) → fs_ok f [] (ls_log (fs_l s0)) (fs_sb s0) → fs_tree f (ls_log (fs_l s0)) (fs_sb s0) P →
  ∀ R l s j inum n data, let di := dino f (fs_sb s0) inum in
  nst f s0 l s → at_inode f s0 P R l j inum → di_type di ≠ T_DEV → di_size di = Z.of_nat (length data) →
  file_ok f [] (ls_log (fs_l s0)) (fs_sb s0) di → no_holes f di → content f di <$> seqZ 0 (Z.of_nat (length data)) = data →
  Z.of_nat (length data) ≤ n < 2 ^ 32 →
  wp (ilock j;; x ← readi j 0 n; mret (Some x)) s (λ r _, r = Some (Z.of_nat (length data), data)).
Proof.
  intros Ht Hfs Htree R l s j inum n data di Hs [A1 (ip & Hj & (Hr & Hdev & Hnum) & _) A3 A4] Hty Hsz Hok Hh Hdata Hn.
  pose proof (lookup_lt_Some _ _ _ Hj) as Hlt. rewrite <- Hnum in A4.
  apply wp_bind. eapply wp_mono; [by apply (ilock_name f s0 P Ht Hfs Htree l s j ip) |]. intros [] s3 Hn3.
  destruct (nst_facts f s0 _ s3 Hn3) as (Ei3 & Esb3 & _ & Ht3 & Hp3).
  assert (i_d (locked_ip f s0 ip) = di) as Ed by (simpl; by rewrite Hnum).
  assert (file_st f [] s3 j (locked_ip f s0 ip)) as Hst.
  { constructor; rewrite ?Esb3, ?Ei3, ?Ed; try done; [by eapply fs_ok_place | by eapply file_ok_place | by apply list_lookup_insert_eq]. }
  apply wp_bind. eapply wp_mono.
  { apply (readi_spec f [] s3 j (locked_ip f s0 ip) 0 n Ht3); rewrite ?Ed; try done; [simpl; lia | apply Hst | lia | lia |].
    intros k Hk Hks. rewrite <- Ed. eapply file_mapped; rewrite ?Ed; done. }
  rewrite Ed, Hsz. intros r s4 [_ Er]. apply wp_ret. rewrite Z.sub_0_r, Z.min_r in Er by lia.
  destruct (Z.ltb_spec (Z.of_nat (length data)) 0); [lia |]. by rewrite Er, Hdata.
Qed.

(** C5. The kernel boots from the image of [mkfs]: after [iinit] and [initlog],
    which leave the blocks as they are, [namei] finds each file under its
    name, without the underscore of the host's name, in the root, and [readi]
    returns the bytes that the file has on the host. *)
Theorem mkfs_boot {D} `{DiskLaws D, !DiskTrace D} files img i x (d : D) pid (s : fsys D) n :
  makeable files → mkfs files = Ok img → files !! i = Some x →
  skip_underscore x.1 ≠ [] → first_named files i (skip_underscore x.1) →
  dwf d → (∀ m, dblk d m = img_disk img m) → powered_on d pid s → Z.of_nat (length x.2) ≤ n < 2 ^ 32 →
  wp (boot_read (slash :: skip_underscore x.1) n) s (λ r _, r = Some (Z.of_nat (length x.2), x.2)).
Proof.
  intros Hm Hmk Hx Hne Hfirst Hwf Hd Hon Hn. destruct (mkfs_image files Hm) as (ms & E & f & Hi & Hf).
  rewrite E in Hmk. injection Hmk as <-. clear E. set (name := skip_underscore x.1) in *.
  pose proof (file_holds ms f files Hi i x Hx) as Hh. pose proof (list.Forall_lookup_1 _ _ _ _ (ma_files _ Hm) Hx) as [_ Hmax].
  unfold boot_read. apply wp_bind. eapply wp_mono.
  { apply (booted d pid f Hwf); [intros m; by rewrite Hd, Hf | apply (im_sb _ _ _ Hi) | by apply (im_log _ _ _ Hi) | exact Hon]. }
  intros [] s1 (Ht & El & Esb & Ei & Ep). destruct (blank_cache f mk_sb pid (Z.to_nat NINODE)) as [C Hsp].
  assert (fs_ok f [] (ls_log (fs_l s1)) (fs_sb s1)) as Hfs by (rewrite El, Esb; apply (rep_fs_ok ms), Hi).
  assert (fs_tree f (ls_log (fs_l s1)) (fs_sb s1) (λ i, 1 ≤ i < 2 + Z.of_nat (length files))) as Htree.
  { rewrite El, Esb. by apply (image_tree ms). }
  apply wp_bind. unfold namei. apply wp_bind. eapply wp_mono.
  { apply (namex_spec f s1 _ Ht Hfs Htree (slash :: name) false); rewrite ?Esb, ?Ep, ?Ei; [done | rewrite Hsp; done | |].
    - unfold start. rewrite bool_decide_eq_true_2 by done. unfold ROOTINO. lia.
    - intros []. done. }
  pose proof (walk_file ms f files Hi Hm i x Hx Hne Hfirst) as Hw. fold name in Hw.
  unfold start. rewrite bool_decide_eq_true_2 by done. rewrite Esb, Hw.
  intros r s2 (j & l & -> & Hn2 & A). apply wp_ret. cbn [fmap option_fmap option_map fst].
  apply (read_located f s1 (λ i, 1 ≤ i < 2 + Z.of_nat (length files)) Ht Hfs Htree (refs (fs_inodes s1)) l s2 j (2 + Z.of_nat i) n x.2); try done;
    rewrite ?El, Esb; change (dino f mk_sb) with (ino f).
  - by rewrite (ho_meta _ _ _ _ Hh).
  - by rewrite (ho_meta _ _ _ _ Hh).
  - apply Hh.
  - by eapply holds_no_holes.
  - by eapply holds_data.
Qed.

Definition memdisk_of (img : list (list Z)) : traced memdisk := Traced (Memdisk img) [].

Definition fresh (img : list (list Z)) : fsys (traced memdisk) :=
  Fsys (Lst (boot (memdisk_of img) 1) log_zero) (Superblock 0 0 0 0 0 0 0) (replicate (Z.to_nat NINODE) inode_zero)
    (replicate 10 None) (Cons false false [] 0 [] [] 0 0 0) None false.

Lemma image_wf files img : makeable files → mkfs files = Ok img → dwf (memdisk_of img).
Proof.
  intros Hm E. destruct (mkfs_image files Hm) as (s & E' & f & Hi & _). rewrite E' in E. injection E as <-.
  change (Forall (λ b, length b = bsize) (mk_img s)). apply list.Forall_lookup. intros b x Hx. by apply (rp_size _ _ (im_rep _ _ _ Hi) b).
Qed.

Lemma mkfs_boot_witness :
  ∃ img, mkfs two_files = Ok img ∧
    wp (boot_read [47; 97] 100) (fresh img) (λ r _, r = Some (2, [104; 105])).
Proof.
  destruct (mkfs_image two_files two_files_ok) as (ms & E & _). exists (mk_img ms). split; [exact E |].
  refine (mkfs_boot two_files (mk_img ms) 0 ([95; 97], [104; 105]) (memdisk_of (mk_img ms)) 1 (fresh (mk_img ms)) 100
    two_files_ok E eq_refl _ _ (image_wf _ _ two_files_ok E) _ _ _).
  - discriminate.
  - intros [|[|k]] Hk; [discriminate | discriminate | simpl in Hk; lia].
  - intros m. reflexivity.
  - split; reflexivity.
  - simpl. lia.
Defined.
